(* ===== verification/_CoqProject ===== *)
-Q . S2P
Prelude.v
Utf8.v
Net.v
IpParse.v
Wire.v
Fallible.v
SctpWire.v
F64.v
Reassembly.v
SctpQueues.v
SctpTimers.v
SctpStream.v
Association.v
AssociationLogic.v
AssociationRecv.v
Transfer.v
AssociationSend.v
Handshake.v
Channel.v
ReplayDetector.v
DtlsWire.v
DtlsCodec.v
DtlsCrypto.v
DtlsRecord.v
DtlsSending.v
DtlsReceiving.v
DtlsFragments.v
DtlsFlight.v
DtlsHandshaker.v
DtlsRuns.v
DtlsAuth.v
PacketBuffer.v
IceCandidate.v
IceAgent.v
StunModel.v
IceChecks.v
IceConnect.v
Protocol.v
Upload.v
TrackingChannel.v
Tracker.v
Icmp.v
State.v
Measurements.v
Traceroute.v
BoundedLog.v
Capture.v
TracingBuffer.v
Keylog.v
AuthCache.v
SurveyAuth.v
DataChannels.v
Session.v
Clients.v
Iperf3Session.v
Iperf3Server.v
