(* ===== verification/Prelude.v ===== *)
(** * Verification of netpoke

    netpoke measures the network between a server and the browsers that connect
    to it over WebRTC.  The server sends probes and bulk data over the data
    channels of a session and computes loss, delay, jitter, reordering and
    throughput; it traces the path by sending probes with small TTLs and
    matching the ICMP errors that routers answer with; it records packets and
    keys for later analysis, lets users and surveyors in, and offers an iperf3
    server to addresses that have authenticated.  The repository carries patched
    copies of the WebRTC crates, which the data channels run on: ICE finds a pair
    of addresses, DTLS secures it, SCTP transfers messages over it.  This
    development translates the server's logic and these protocols into Rocq and
    proves what makes them correct.

    ** Parts and files

    - Foundations: [Prelude] (outcomes, machine integers, vectors, bytes,
      channels, tactics and hints), [Utf8] (strings, [is_char_boundary],
      splitting, trimming), [Net] and [IpParse] (addresses, their printing and
      parsing), [Wire] (IP headers in captured bytes), [F64] (binary64 on
      [SpecFloat]), [BoundedLog] (the interface of a cyclic buffer and its
      implementation, used by two components), [Fallible] (results with errors
      or panics, readers of byte buffers).
    - [Protocol]: the messages and constants of common/src/protocol.rs and
      common/src/metrics.rs.
    - The path of a traceroute probe: [TrackingChannel]
      (server/src/tracking_channel.rs: [calculate_udp_checksum_v4] and [_v6],
      [netpoke_track_udp_packet] and [_v6]), [Tracker]
      (server/src/packet_tracker.rs: [tracking_receiver_task],
      [match_icmp_error], [drain_events_for_conn_id], [cleanup_expired]; the
      tracking callback of server/src/main.rs), [Icmp]
      (server/src/icmp_listener.rs: [parse_icmp_error], [parse_icmpv6_error],
      an iteration of each listener; [extract_mtu_from_icmp] of
      server/src/measurements.rs).
    - A client session: [State] (server/src/state.rs), [Measurements] (senders,
      packet handlers, [calculate_metrics], probe streams and statistics of
      server/src/measurements.rs), [Traceroute] (its traceroute and MTU rounds),
      [DataChannels] (server/src/data_channels.rs: the dispatch of messages and
      every control message), [Session] (all tasks of a session interleaved),
      [Clients] (the table of sessions: server/src/cleanup.rs and the handler of
      unmatched ICMP errors in server/src/main.rs).
    - Recording: [Capture] (server/src/packet_capture.rs), [Keylog]
      (server/src/dtls_keylog.rs), [TracingBuffer]
      (server/src/tracing_buffer.rs).
    - Access: [AuthCache] (server/src/auth_cache.rs and its synchronisation in
      server/src/main.rs), [SurveyAuth] (auth/src/session.rs, auth/src/service.rs,
      server/src/auth_handlers.rs, server/src/survey_middleware.rs).
    - [Iperf3Session] and [Iperf3Server]: the crate iperf3-server.
    - [Upload]: the uploads of survey recordings (server/src/upload_api.rs,
      upload_utils.rs and the upload functions of server/static/nettest.html).
    - SCTP (vendored/webrtc-sctp): [SctpWire] (packets, chunks, parameters),
      [Reassembly] and [SctpQueues] (queue/), [SctpTimers] (timer/),
      [SctpStream] (stream/mod.rs), [Association] (the methods of
      [AssociationInternal] and the tasks around them).  [AssociationLogic] has
      the rules for its operations; [AssociationRecv], [Transfer],
      [AssociationSend] and [Handshake] prove what associations do.
    - Data channels (vendored/webrtc-data): [Channel].
    - DTLS (vendored/dtls): [ReplayDetector] (with fixed_big_int and
      replay_detector of vendored/webrtc-util), [DtlsWire] (records, handshake
      messages, extensions), [DtlsCodec] (their round trips), [DtlsCrypto] (prf,
      crypto, cipher_suite), [DtlsRecord] (conn/mod.rs, fragment_buffer,
      handshake_cache), [DtlsSending], [DtlsReceiving] and [DtlsFragments] (what
      it sends, delivers and reassembles), [DtlsFlight] (flight/, signatures and
      certificates), [DtlsHandshaker] (handshaker.rs), [DtlsRuns] and [DtlsAuth]
      (every run of a handshake, and what a completed one has verified).
    - ICE (vendored/webrtc-ice): [PacketBuffer] (the buffer of received
      datagrams, vendored/webrtc-util/src/buffer), [IceCandidate] (candidate/,
      network_type, tcp_type), [IceAgent] (agent/: every handler of checks,
      datagrams, candidates, selection and restart, in both roles), [StunModel]
      (what it relies on of STUN), [IceChecks] (every run of an agent) and
      [IceConnect] (two agents and a network).

    ** How code is represented

    The workspace is compiled with overflow checks, so a function that can panic
    returns an [outcome]: a value, a panic with its reason, or [OutOfFuel].
    Integers are [Z] with [checked_u]/[checked_i] where Rust checks and
    [as_u]/[as_i] where it casts; [usize] indices are [nat]; bytes are lists of
    [Z].  Fields behind a lock are plain record fields, each critical section is
    one definition, and interleavings are step relations ([tracker_step],
    [session_step], [cleanup_step], [shared_step] of the packet buffer, the steps
    of the iperf3 server, of two associations and of a network of two agents) or
    runs over arbitrary events ([handshake_run] of DTLS, [ice_run] of ICE).
    Operations of the protocol crates are in small state and error monads ([op]
    of an association, [flight_op] of a flight, [ice] of an agent); objects
    behind an [Arc] that several owners change are numbers into a store.  A task's
    loop is its iteration ([..._tick]) or a recursion over what it observes:
    clock readings, channel states, results of sends, contents of queues.  What
    an operation sends or starts is the list of effects it returns.

    Code outside the repository is a parameter: serde's encoders and decoders,
    the hexadecimal coder, the date formatter, the WebRTC objects (identities),
    the cookie jar's decryption, checksums and cryptography (the classes [Crypto]
    and [Pki] with their laws), messages of STUN (the class [Stun] and
    [StunLaws]), and what clocks and random generators return.  Hypotheses on them state documented behaviour
    only (a decoder reads back what the encoder wrote, hexadecimal text has no
    spaces) and the witnesses instantiate them.  The order in which a [HashMap]
    is iterated is an arbitrary permutation.

    ** What the theorems show

    - Traceroute: for every datagram the checksum routines return the one
      non-zero checksum that verifies, so that the kernel's checksum is the
      tracker's key; a probe quoted by any ICMP error yields exactly one event
      for its connection, end to end, over IPv4 and IPv6; in every interleaving
      events are distinct reported probes of the connection that drains them; no
      received buffer makes a parser panic; a round sends one probe per TTL and
      reports every event once; an MTU probe has exactly the requested size.
    - Measurements: the metrics equal reference definitions (missing numbers,
      overtaken probes, mean, deviation, rate), and trimming the queues never
      changes them; in every run of a session each recorded echo is that of the
      one probe sent under its number; the percentiles of the statistics are
      ordered.
    - Sessions: messages for another connection have no effect; the clean-up
      marks exactly the descendants; five ICMP errors in close succession, and
      nothing less, close a session.
    - Recording: the exported PCAP file of a session reads back as exactly its
      frames among the last ones captured; key log files read back as the keys;
      buffers keep the most recent entries and storages are bounded.
    - Access: an address is authenticated exactly while it is recent; a survey
      cookie is valid exactly for its timeout; every iperf3 session and stream
      belongs to an authenticated address.
    - iperf3: the server's output is a prefix of the protocol's sequence, a
      client that follows the protocol completes, framing is a round trip, and
      the sender keeps its rate.
    - Uploads: a recording is complete after any number of interrupted runs, as
      soon as one goes through.
    - SCTP: packets read back as they were written, and reading any bytes ends;
      a receiver acknowledges exactly what has arrived and delivers it in order,
      whatever is lost, repeated and reordered; a sender accepts every
      acknowledgement of what it has sent; two endpoints agree on the parameters
      of the association and reach it after any losses; the queues implement
      their contracts.  A data channel returns the messages that were written,
      strings and binary, empty ones included.
    - DTLS: every suite recovers what it protected; no two records have the same
      number; a payload is delivered once, and only when the suite opened it;
      fragments reassemble in any order; the replay window answers as the set of
      accepted numbers would; in every run a client that completes has verified
      the server's signature and transcript, and a server that requires a
      certificate the client's signature.
    - ICE: the packet buffer is a bounded queue; a candidate reads back as it was
      printed; in every run the selected pair was checked, by an authentic answer
      from its address to a recent request, and nominated; all references of the
      agent are to things that there are; two agents connect.
    - Defects the model exposes, each a theorem: the clean-up request waits for
      itself; time stamps, sizes and texts of a client that make handlers panic;
      survey time stamps in the future and keys with underscores; the session
      limit and the bandwidth cap of iperf3; the ICMPv6 classes; an SCTP
      acknowledgement that disables an association; a forged DTLS alert that ends
      the reader, truncated extensions and short records that panic; a candidate
      whose priority panics; a reader of the packet buffer that misses its end.

    ** Bounds and fuel

    The loop that folds the carries of a checksum gets the two iterations a
    32-bit sum needs, the marking loop of the clean-up one more than there are
    sessions, the eviction loop of the key log as many as there are sessions in
    its order; decoders and the loops over queues get the length of what they
    read, and the buffer that grows for a packet as many rounds as its limit; each
    is proved sufficient.  Loops driven by the outside world
    recurse over their observations, and the theorems that they return say how
    many observations suffice (the traceroute's waiting loop ends after at most
    five drains).  Limits such as fewer than [2^64] captured packets are
    hypotheses of the theorems that need them.

    ** Not modelled

    The layer of the WebRTC library that joins ICE, DTLS and SCTP, its session
    descriptions and media tracks (vendored/webrtc), the gathering of candidates
    over sockets, multicast DNS and TURN, the send options of the UDP layer
    beyond their record; raw sockets and libpcap; the database and the pages that
    query it; HTTP routing and configuration files; the OAuth providers; the
    browser client: all of these are input and output around the logic above.
    The polling adapters for async traits and the statistics of the crates are
    left out, as are log statements except where they panic.  Channels between
    tasks have no bound, except where a component waits for one. *)

From stdpp Require Import base list gmap strings numbers.
From Stdlib Require Import ZArith Lia.

Declare Scope netpoke_scope.
Delimit Scope netpoke_scope with netpoke.
Open Scope netpoke_scope.
Local Open Scope Z_scope.

(** ** Outcomes: values or panics

    The workspace is built with [overflow-checks = true] in every profile, so
    arithmetic that leaves its machine width aborts the task, like an index out
    of range, a slice with bad bounds or an [unwrap] of nothing does.
    [OutOfFuel] is not a behaviour of the code: it marks a loop whose model was
    given too few iterations, and every theorem about such a loop shows that it
    is not reached. *)

Inductive panic_reason :=
  | IndexOutOfBounds
  | ArithmeticOverflow
  | RemainderByZero
  | UnwrapOnNone
  | NotACharBoundary
  | ExplicitPanic.

Inductive outcome (A : Type) : Type :=
  | Ret (a : A)
  | Panic (why : panic_reason)
  | OutOfFuel.
Arguments Ret {A} a.
Arguments Panic {A} why.
Arguments OutOfFuel {A}.

#[export] Instance panic_reason_eq_dec : EqDecision panic_reason.
Proof. solve_decision. Defined.

#[export] Instance outcome_ret : MRet outcome := @Ret.
#[export] Instance outcome_bind : MBind outcome :=
  fun A B f m => match m with Ret a => f a | Panic why => Panic why | OutOfFuel => OutOfFuel end.
#[export] Instance outcome_fmap : FMap outcome :=
  fun A B f m => match m with Ret a => Ret (f a) | Panic why => Panic why | OutOfFuel => OutOfFuel end.

Definition no_panic {A} (m : outcome A) : Prop := exists a, m = Ret a.

Lemma bind_Ret {A B} (a : A) (f : A -> outcome B) : (Ret a ≫= f) = f a.
Proof. reflexivity. Qed.

Lemma bind_Ret_inv {A B} (m : outcome A) (f : A -> outcome B) b :
  (m ≫= f) = Ret b <-> exists a, m = Ret a /\ f a = Ret b.
Proof.
  destruct m as [a|why|]; simpl; split; try done; try by intros (? & ? & ?).
  - eauto.
  - by intros (? & [= ->] & ?).
Qed.

Lemma bind_no_panic {A B} (m : outcome A) (f : A -> outcome B) :
  no_panic m -> (forall a, m = Ret a -> no_panic (f a)) -> no_panic (m ≫= f).
Proof. intros [a ->] Hf. simpl. by apply Hf. Qed.

Lemma no_panic_Ret {A} (a : A) : no_panic (Ret a).
Proof. by exists a. Qed.

(** [while cond { body }] over a state, with the number of iterations bounded
    by [fuel]. *)
Fixpoint while {S} (fuel : nat) (cond : S -> bool) (body : S -> outcome S) (s : S)
    : outcome S :=
  if cond s then
    match fuel with
    | O => OutOfFuel
    | Datatypes.S fuel => s' ← body s; while fuel cond body s'
    end
  else Ret s.

(** A loop over the elements of a collection, threading a state. *)
Fixpoint for_each {A S} (l : list A) (body : A -> S -> outcome S) (s : S) : outcome S :=
  match l with
  | [] => Ret s
  | a :: l => s' ← body a s; for_each l body s'
  end.

Lemma for_each_app {A S} (l k : list A) (body : A -> S -> outcome S) s :
  for_each (l ++ k) body s = (s' ← for_each l body s; for_each k body s').
Proof.
  revert s. induction l as [|a l IH]; intros s; [done|]. simpl.
  by destruct (body a s) as [s1|why|]; simpl; rewrite ?IH.
Qed.

(** An unbounded [mpsc] channel: [send] appends unless the receiver is gone. *)
Record channel (A : Type) := mkChannel { ch_open : bool; ch_queue : list A }.
Arguments mkChannel {A} ch_open ch_queue.
Arguments ch_open {A} c.
Arguments ch_queue {A} c.

Definition ch_send {A} (a : A) (c : channel A) : channel A :=
  if ch_open c then mkChannel true (ch_queue c ++ [a]) else c.

(** ** Machine integers

    A [w]-bit integer is the [Z] it denotes.  [checked_u] and [checked_i] are
    the overflow checks, [as_u] and [as_i] Rust's [as] casts. *)

Definition is_u (w z : Z) : Prop := 0 <= z < 2 ^ w.
Definition is_i (w z : Z) : Prop := - 2 ^ (w - 1) <= z < 2 ^ (w - 1).

#[export] Instance is_u_dec w z : Decision (is_u w z).
Proof. unfold is_u. apply _. Defined.
#[export] Instance is_i_dec w z : Decision (is_i w z).
Proof. unfold is_i. apply _. Defined.

Definition checked_u (w z : Z) : outcome Z :=
  if decide (is_u w z) then Ret z else Panic ArithmeticOverflow.
Definition checked_i (w z : Z) : outcome Z :=
  if decide (is_i w z) then Ret z else Panic ArithmeticOverflow.

Definition as_u (w z : Z) : Z := z mod 2 ^ w.
Definition as_i (w z : Z) : Z := (z + 2 ^ (w - 1)) mod 2 ^ w - 2 ^ (w - 1).

(** [saturating_sub] of an unsigned type. *)
Definition saturating_sub (a b : Z) : Z := Z.max 0 (a - b).

Lemma checked_u_Ret w z : is_u w z -> checked_u w z = Ret z.
Proof. intros ?. unfold checked_u. by rewrite decide_True. Qed.

Lemma checked_u_inv w z r : checked_u w z = Ret r <-> r = z /\ is_u w z.
Proof.
  unfold checked_u. case_decide; split.
  - by intros [= <-].
  - by intros [-> _].
  - done.
  - by intros [_ ?].
Qed.

Lemma checked_i_Ret w z : is_i w z -> checked_i w z = Ret z.
Proof. intros ?. unfold checked_i. by rewrite decide_True. Qed.

Lemma checked_u_panic w z : ~ is_u w z -> checked_u w z = Panic ArithmeticOverflow.
Proof. intros ?. unfold checked_u. by rewrite decide_False. Qed.

Lemma checked_i_panic w z : ~ is_i w z -> checked_i w z = Panic ArithmeticOverflow.
Proof. intros ?. unfold checked_i. by rewrite decide_False. Qed.

Lemma as_u_range w z : 0 <= w -> is_u w (as_u w z).
Proof. intros ?. unfold is_u, as_u. apply Z.mod_pos_bound. lia. Qed.

Lemma as_u_small w z : is_u w z -> as_u w z = z.
Proof. unfold is_u, as_u. intros. by rewrite Z.mod_small. Qed.

Lemma as_i_small w z : is_i w z -> 0 < w -> as_i w z = z.
Proof.
  unfold is_i, as_i. intros Hz Hw.
  assert (2 ^ w = 2 * 2 ^ (w - 1)) as Hpow.
  { rewrite <- Z.pow_succ_r by lia. f_equal. lia. }
  rewrite Z.mod_small by lia. lia.
Qed.

(** ** Bytes

    A byte is a [Z] below 256, a buffer ([Vec<u8>], [&[u8]]) a list of them. *)

Abbreviation byte := Z (only parsing).
Abbreviation bytes := (list Z) (only parsing).

Definition is_bytes (l : bytes) : Prop := Forall (is_u 8) l.

Lemma is_bytes_app l k : is_bytes (l ++ k) <-> is_bytes l /\ is_bytes k.
Proof. apply Forall_app. Qed.

(** Indexing and slicing, which panic out of range. *)

Definition index {A} (l : list A) (i : nat) : outcome A :=
  match l !! i with Some a => Ret a | None => Panic IndexOutOfBounds end.

Definition slice {A} (l : list A) (from to : nat) : outcome (list A) :=
  if decide ((from <= to)%nat /\ (to <= length l)%nat)
  then Ret (take (to - from) (drop from l)) else Panic IndexOutOfBounds.

Lemma index_Ret {A} (l : list A) i a : index l i = Ret a <-> l !! i = Some a.
Proof. unfold index. by destruct (l !! i); split; intros [= ->]. Qed.

Lemma index_no_panic {A} (l : list A) i : (i < length l)%nat -> no_panic (index l i).
Proof.
  intros Hi. destruct (lookup_lt_is_Some_2 l i Hi) as [a Ha].
  exists a. by apply index_Ret.
Qed.

Lemma index_app_r {A} (l k : list A) i :
  (length l <= i)%nat -> index (l ++ k) i = index k (i - length l).
Proof. intros. unfold index. by rewrite lookup_app_r. Qed.

Lemma index_app_l {A} (l k : list A) i :
  (i < length l)%nat -> index (l ++ k) i = index l i.
Proof. intros. unfold index. by rewrite lookup_app_l. Qed.

Lemma slice_Ret {A} (l : list A) from to :
  (from <= to)%nat -> (to <= length l)%nat ->
  slice l from to = Ret (take (to - from) (drop from l)).
Proof. intros. unfold slice. by rewrite decide_True. Qed.

(** ** Endianness

    [to_be_bytes]/[from_be_bytes] and their little-endian counterparts at any
    width, with the round trips both ways. *)

Fixpoint to_le_bytes (n : nat) (z : Z) : bytes :=
  match n with
  | O => []
  | S n => z mod 256 :: to_le_bytes n (z / 256)
  end.

Fixpoint from_le_bytes (l : bytes) : Z :=
  match l with
  | [] => 0
  | b :: l => b + 256 * from_le_bytes l
  end.

Definition to_be_bytes (n : nat) (z : Z) : bytes := reverse (to_le_bytes n z).
Definition from_be_bytes (l : bytes) : Z := from_le_bytes (reverse l).

Lemma length_to_le_bytes n z : length (to_le_bytes n z) = n.
Proof. revert z. induction n; intros; simpl; [done|by rewrite IHn]. Qed.

Lemma length_to_be_bytes n z : length (to_be_bytes n z) = n.
Proof. unfold to_be_bytes. by rewrite length_reverse, length_to_le_bytes. Qed.

Lemma to_le_bytes_is_bytes n z : is_bytes (to_le_bytes n z).
Proof.
  revert z. induction n; intros; simpl; [constructor|].
  constructor; [|apply IHn]. unfold is_u. apply Z.mod_pos_bound. lia.
Qed.

Lemma to_be_bytes_is_bytes n z : is_bytes (to_be_bytes n z).
Proof. unfold to_be_bytes, is_bytes. rewrite Forall_reverse. apply to_le_bytes_is_bytes. Qed.

Lemma from_to_le_bytes n z : from_le_bytes (to_le_bytes n z) = z mod 256 ^ Z.of_nat n.
Proof.
  revert z. induction n as [|n IH]; intros z; simpl to_le_bytes; simpl from_le_bytes.
  - by rewrite Z.mod_1_r.
  - rewrite IH, Nat2Z.inj_succ, Z.pow_succ_r by lia.
    rewrite Z.rem_mul_r by lia. lia.
Qed.

Lemma to_from_le_bytes l : is_bytes l -> to_le_bytes (length l) (from_le_bytes l) = l.
Proof.
  induction 1 as [|b l Hb Hl IH]; [done|]. unfold is_u in Hb.
  change (2 ^ 8) with 256 in Hb.
  simpl length. simpl from_le_bytes. simpl to_le_bytes. rewrite (Z.mul_comm 256). f_equal.
  - rewrite Z.mod_add by lia. apply Z.mod_small. lia.
  - rewrite Z.div_add by lia. rewrite Z.div_small by lia. by rewrite Z.add_0_l.
Qed.

Lemma from_to_be_bytes n z : from_be_bytes (to_be_bytes n z) = z mod 256 ^ Z.of_nat n.
Proof. unfold from_be_bytes, to_be_bytes. by rewrite reverse_involutive, from_to_le_bytes. Qed.

Lemma to_from_be_bytes l : is_bytes l -> to_be_bytes (length l) (from_be_bytes l) = l.
Proof.
  intros Hl. unfold from_be_bytes, to_be_bytes.
  rewrite <- (length_reverse l), to_from_le_bytes.
  - apply reverse_involutive.
  - unfold is_bytes. by rewrite Forall_reverse.
Qed.

Lemma from_le_bytes_range l : is_bytes l -> 0 <= from_le_bytes l < 256 ^ Z.of_nat (length l).
Proof.
  induction 1 as [|b l Hb Hl IH]; [simpl; lia|]. unfold is_u in Hb.
  change (2 ^ 8) with 256 in Hb.
  simpl length. simpl from_le_bytes. rewrite Nat2Z.inj_succ, Z.pow_succ_r by lia. lia.
Qed.

Lemma from_be_bytes_range l : is_bytes l -> 0 <= from_be_bytes l < 256 ^ Z.of_nat (length l).
Proof.
  intros. unfold from_be_bytes. rewrite <- (length_reverse l).
  apply from_le_bytes_range. unfold is_bytes. by rewrite Forall_reverse.
Qed.

(** [u16::from_be_bytes([l[i], l[i + 1]])], the read every header parser does. *)
Definition read_u16_be (l : bytes) (i : nat) : outcome Z :=
  hi ← index l i;
  lo ← index l (i + 1);
  Ret (from_be_bytes [hi; lo]).

Lemma read_u16_be_no_panic l i : (i + 1 < length l)%nat -> no_panic (read_u16_be l i).
Proof.
  intros Hi. unfold read_u16_be.
  apply bind_no_panic; [apply index_no_panic; lia|]. intros hi _.
  apply bind_no_panic; [apply index_no_panic; lia|]. intros lo _. apply no_panic_Ret.
Qed.

Lemma index_is_u l i b : is_bytes l -> index l i = Ret b -> is_u 8 b.
Proof. intros Hl Hb%index_Ret. by eapply Forall_lookup_1 in Hb. Qed.

Lemma read_u16_be_is_u l i v : is_bytes l -> read_u16_be l i = Ret v -> is_u 16 v.
Proof.
  unfold read_u16_be. intros Hl (hi & Hhi & (lo & Hlo & [= <-])%bind_Ret_inv)%bind_Ret_inv.
  pose proof (index_is_u _ _ _ Hl Hhi). pose proof (index_is_u _ _ _ Hl Hlo).
  apply (from_be_bytes_range [hi; lo]). unfold is_bytes.
  constructor 2; [done|]. constructor 2; [done|]. constructor 1.
Qed.

(** ** Automation

    [no_panic_step] walks a monadic body that indexes within known bounds. *)

Create HintDb netpoke.
#[export] Hint Resolve no_panic_Ret index_no_panic read_u16_be_no_panic : netpoke.
#[export] Hint Resolve is_bytes_app to_le_bytes_is_bytes to_be_bytes_is_bytes : netpoke.

Ltac no_panic_step :=
  match goal with
  | |- no_panic (_ ≫= _) => apply bind_no_panic; [|intros ? ?]
  | |- no_panic (Ret _) => apply no_panic_Ret
  | |- no_panic (index _ _) => apply index_no_panic; lia
  | |- no_panic (read_u16_be _ _) => apply read_u16_be_no_panic; lia
  | |- no_panic (if _ then _ else _) => case_match
  | |- no_panic (match _ with _ => _ end) => case_match
  end.
Ltac solve_no_panic := repeat no_panic_step.

(** Inversion of successful monadic runs. *)
Ltac invert_ret :=
  repeat match goal with
  | H : (_ ≫= _) = Ret _ |- _ => apply bind_Ret_inv in H as (? & ? & H)
  | H : Ret _ = Ret _ |- _ => injection H as H
  | H : Panic _ = Ret _ |- _ => discriminate H
  end; subst.
