(* ===== verification/Utf8.v ===== *)
(** * Rust strings

    A Rust [String] or [&str] is the sequence of its UTF-8 bytes, here a
    [string] whose characters are those bytes.  The file holds the conversions
    to and from byte buffers and the operations of the standard library the
    sources use on them: [String::from_utf8_lossy], [str::from_utf8], [split],
    [split_whitespace], [join], [trim_end_matches], prefix and suffix tests. *)

From stdpp Require Import base list strings.
From Stdlib Require Import ZArith Lia Ascii String.
From S2P Require Import Prelude.
Local Open Scope Z_scope.

(** ** Bytes and strings *)

Definition ascii_of_byte (b : Z) : ascii := ascii_of_N (Z.to_N b).
Definition byte_of_ascii (a : ascii) : Z := Z.of_N (N_of_ascii a).

Definition string_of_bytes (l : list Z) : string :=
  string_of_list_ascii (map ascii_of_byte l).
Definition bytes_of_string (s : string) : list Z :=
  map byte_of_ascii (list_ascii_of_string s).

Lemma byte_of_ascii_range a : is_u 8 (byte_of_ascii a).
Proof.
  unfold is_u, byte_of_ascii. change (2 ^ 8) with 256.
  pose proof (N_ascii_bounded a). lia.
Qed.

Lemma ascii_of_byte_of_ascii a : ascii_of_byte (byte_of_ascii a) = a.
Proof. unfold ascii_of_byte, byte_of_ascii. by rewrite N2Z.id, ascii_N_embedding. Qed.

Lemma byte_of_ascii_of_byte b : is_u 8 b -> byte_of_ascii (ascii_of_byte b) = b.
Proof.
  unfold is_u, ascii_of_byte, byte_of_ascii. change (2 ^ 8) with 256. intros Hb.
  rewrite N_ascii_embedding by lia. lia.
Qed.

Lemma string_of_bytes_of_string s : string_of_bytes (bytes_of_string s) = s.
Proof.
  unfold string_of_bytes, bytes_of_string. rewrite map_map.
  rewrite (map_ext _ id) by apply ascii_of_byte_of_ascii.
  rewrite map_id. apply string_of_list_ascii_of_string.
Qed.

Lemma bytes_of_string_of_bytes l : is_bytes l -> bytes_of_string (string_of_bytes l) = l.
Proof.
  unfold string_of_bytes, bytes_of_string. rewrite list_ascii_of_string_of_list_ascii, map_map.
  induction 1 as [|b l Hb Hl IH]; simpl; [done|].
  by rewrite byte_of_ascii_of_byte, IH.
Qed.

Lemma bytes_of_string_is_bytes s : is_bytes (bytes_of_string s).
Proof.
  unfold is_bytes, bytes_of_string. induction (list_ascii_of_string s) as [|a l IH]; simpl.
  - constructor.
  - constructor; [apply byte_of_ascii_range|done].
Qed.

Lemma bytes_of_append s t :
  bytes_of_string (String.append s t) = bytes_of_string s ++ bytes_of_string t.
Proof.
  induction s as [|a s IH]; [done|].
  exact (f_equal (cons (byte_of_ascii a)) IH).
Qed.

Lemma length_bytes_of_string s : List.length (bytes_of_string s) = String.length s.
Proof.
  unfold bytes_of_string. rewrite length_map.
  induction s as [|a s IH]; simpl; [done|by rewrite IH].
Qed.

(** ** UTF-8 validity

    [utf8_next b0 rest] classifies the sequence that starts at the byte [b0] as
    the standard library does: a well-formed character of [n] bytes, or a
    malformed sequence of which [n] bytes are skipped. *)

Inductive utf8_step := Utf8Valid (n : nat) | Utf8Invalid (n : nat).

Definition between (lo b hi : Z) : bool := (lo <=? b) && (b <=? hi).
Definition is_continuation (b : Z) : bool := between 0x80 b 0xBF.

Definition second_of_three (b0 b1 : Z) : bool :=
  if b0 =? 0xE0 then between 0xA0 b1 0xBF
  else if b0 =? 0xED then between 0x80 b1 0x9F
  else is_continuation b1.

Definition second_of_four (b0 b1 : Z) : bool :=
  if b0 =? 0xF0 then between 0x90 b1 0xBF
  else if b0 =? 0xF4 then between 0x80 b1 0x8F
  else is_continuation b1.

Definition utf8_next (b0 : Z) (rest : list Z) : utf8_step :=
  let b1 := nth 0 rest 0 in
  let b2 := nth 1 rest 0 in
  let b3 := nth 2 rest 0 in
  if b0 <? 0x80 then Utf8Valid 1
  else if between 0xC2 b0 0xDF then
    if is_continuation b1 then Utf8Valid 2 else Utf8Invalid 1
  else if between 0xE0 b0 0xEF then
    if second_of_three b0 b1
    then if is_continuation b2 then Utf8Valid 3 else Utf8Invalid 2
    else Utf8Invalid 1
  else if between 0xF0 b0 0xF4 then
    if second_of_four b0 b1
    then if is_continuation b2
         then if is_continuation b3 then Utf8Valid 4 else Utf8Invalid 3
         else Utf8Invalid 2
    else Utf8Invalid 1
  else Utf8Invalid 1.

(** U+FFFD, the replacement character. *)
Definition replacement : list Z := [0xEF; 0xBF; 0xBD].

(** Every step consumes at least one byte, so the length is enough fuel. *)
Fixpoint lossy_bytes (fuel : nat) (l : list Z) : list Z :=
  match fuel, l with
  | S fuel, b0 :: rest =>
      match utf8_next b0 rest with
      | Utf8Valid n => take n l ++ lossy_bytes fuel (drop n l)
      | Utf8Invalid n => replacement ++ lossy_bytes fuel (drop n l)
      end
  | _, _ => []
  end.

Fixpoint utf8_ok (fuel : nat) (l : list Z) : bool :=
  match fuel, l with
  | _, [] => true
  | O, _ :: _ => false
  | S fuel, b0 :: rest =>
      match utf8_next b0 rest with
      | Utf8Valid n => utf8_ok fuel (drop n l)
      | Utf8Invalid _ => false
      end
  end.

(** [str::from_utf8(l).is_ok()] and [String::from_utf8_lossy(l)]. *)
Definition is_utf8 (l : list Z) : bool := utf8_ok (List.length l) l.
Definition from_utf8_lossy (l : list Z) : string :=
  string_of_bytes (lossy_bytes (List.length l) l).

Lemma lossy_bytes_valid fuel l : utf8_ok fuel l = true -> lossy_bytes fuel l = l.
Proof.
  revert l. induction fuel as [|fuel IH]; intros [|b0 rest]; simpl; try done.
  destruct (utf8_next b0 rest) as [n|n]; [|done].
  intros Hok. rewrite IH by done. apply take_drop.
Qed.

(** A well-formed string goes through [from_utf8_lossy] unchanged. *)
Lemma from_utf8_lossy_valid s :
  is_utf8 (bytes_of_string s) = true -> from_utf8_lossy (bytes_of_string s) = s.
Proof.
  intros Hok. unfold from_utf8_lossy. rewrite lossy_bytes_valid by done.
  apply string_of_bytes_of_string.
Qed.

(** A byte offset into a [&str] is a character boundary unless it points at a
    continuation byte; slicing there panics otherwise. *)
Definition is_char_boundary (s : string) (i : nat) : bool :=
  match bytes_of_string s !! i with
  | Some b => negb (is_continuation b)
  | None => Nat.eqb i (String.length s)
  end.

(** [&s[..i]]. *)
Definition str_prefix (s : string) (i : nat) : outcome string :=
  if is_char_boundary s i
  then Ret (string_of_bytes (take i (bytes_of_string s)))
  else Panic NotACharBoundary.

(** ** Splitting and joining *)

(** [s.split(c)] for an ASCII separator [c]: never empty. *)
Fixpoint split_on (c : ascii) (s : string) : list string :=
  match s with
  | EmptyString => [EmptyString]
  | String a s' =>
      if Ascii.eqb a c then EmptyString :: split_on c s'
      else match split_on c s' with
           | [] => [String a EmptyString]
           | w :: ws => String a w :: ws
           end
  end.

(** String concatenation. *)
Lemma append_assoc s t u :
  String.append s (String.append t u) = String.append (String.append s t) u.
Proof. induction s as [|a s IH]; [done|]. exact (f_equal (String a) IH). Qed.

(** [words.join(sep)]. *)
Fixpoint join (sep : string) (ws : list string) : string :=
  match ws with
  | [] => EmptyString
  | [w] => w
  | w :: ws => String.append w (String.append sep (join sep ws))
  end.

Lemma split_on_not_nil c s : split_on c s <> [].
Proof.
  destruct s as [|a s]; simpl; [done|].
  destruct (Ascii.eqb a c); [done|]. by destruct (split_on c s).
Qed.

(** Splitting and joining with the same separator gives the string back. *)
Lemma join_split_on c s : join (String c EmptyString) (split_on c s) = s.
Proof.
  induction s as [|a s IH]; [done|]. simpl.
  destruct (Ascii.eqb_spec a c) as [->|Hne].
  - destruct (split_on c s) as [|w ws] eqn:E; [by destruct (split_on_not_nil c s)|].
    change (join (String c EmptyString) (EmptyString :: w :: ws))
      with (String c (join (String c EmptyString) (w :: ws))).
    by rewrite IH.
  - destruct (split_on c s) as [|w ws] eqn:E; [by destruct (split_on_not_nil c s)|].
    rewrite <- IH. by destruct ws.
Qed.

(** No occurrence of [c] in [s]. *)
Fixpoint lacks (c : ascii) (s : string) : bool :=
  match s with
  | EmptyString => true
  | String a s' => negb (Ascii.eqb a c) && lacks c s'
  end.

Lemma split_on_lacks c s : lacks c s = true -> split_on c s = [s].
Proof.
  induction s as [|a s IH]; simpl; [done|].
  destruct (Ascii.eqb a c); simpl; [done|]. intros H. by rewrite IH.
Qed.

Lemma split_on_app c w s :
  lacks c w = true -> split_on c (String.append w (String c s)) = w :: split_on c s.
Proof.
  induction w as [|a w IH]; simpl.
  - intros _. by rewrite Ascii.eqb_refl.
  - destruct (Ascii.eqb a c); simpl; [done|]. intros H. by rewrite IH.
Qed.

(** Conversely, joining words that lack the separator and splitting gives the
    words back. *)
Lemma split_on_join c ws :
  ws <> [] -> Forall (fun w => lacks c w = true) ws ->
  split_on c (join (String c EmptyString) ws) = ws.
Proof.
  intros Hne Hall. induction Hall as [|w ws Hw Hws IH]; [done|].
  destruct ws as [|w' ws'].
  - by apply split_on_lacks.
  - change (join (String c EmptyString) (w :: w' :: ws'))
      with (String.append w (String c (join (String c EmptyString) (w' :: ws')))).
    rewrite split_on_app by done. by rewrite IH.
Qed.

(** ** Prefixes, suffixes and characters *)

Definition starts_with (p s : string) : bool := String.prefix p s.

(** [s.strip_prefix(p)]. *)
Fixpoint strip_prefix (p s : string) : option string :=
  match p, s with
  | EmptyString, _ => Some s
  | String a p', String b s' => if Ascii.eqb a b then strip_prefix p' s' else None
  | String _ _, EmptyString => None
  end.

Lemma strip_prefix_Some p s r : strip_prefix p s = Some r <-> s = String.append p r.
Proof.
  revert s. induction p as [|a p IH]; intros s; cbn.
  - split; [by intros [= ->]|by intros ->].
  - destruct s as [|b s]; [done|].
    destruct (Ascii.eqb_spec a b) as [->|Hne].
    + rewrite IH. split; [by intros ->|by intros [= ->]].
    + split; [done|by intros [= -> _]].
Qed.

(** [s.ends_with(p)]. *)
Definition ends_with (p s : string) : bool :=
  bool_decide (Nat.le (String.length p) (String.length s)) &&
  String.eqb (String.substring (String.length s - String.length p) (String.length p) s) p.

(** [s.contains(c)] for an ASCII character. *)
Definition contains_char (c : ascii) (s : string) : bool := negb (lacks c s).

(** ASCII case folding ([eq_ignore_ascii_case], and [to_lowercase] on the
    comparisons with ASCII literals made here). *)
Definition lower_ascii (a : ascii) : ascii :=
  let n := byte_of_ascii a in
  if between 65 n 90 then ascii_of_byte (n + 32) else a.

Fixpoint to_lower (s : string) : string :=
  match s with
  | EmptyString => EmptyString
  | String a s' => String (lower_ascii a) (to_lower s')
  end.

Definition eq_ignore_ascii_case (s t : string) : bool := String.eqb (to_lower s) (to_lower t).

(** ** Whitespace

    [ws_len l] is the length of the white-space character (of Unicode's
    White_Space property) that [l] starts with, 0 when there is none. *)

Definition ws_len (l : list Z) : nat :=
  match l with
  | 0x20 :: _ => 1%nat
  | 0xC2 :: 0x85 :: _ => 2%nat
  | 0xC2 :: 0xA0 :: _ => 2%nat
  | 0xE1 :: 0x9A :: 0x80 :: _ => 3%nat
  | 0xE2 :: 0x80 :: b :: _ =>
      if between 0x80 b 0x8A || (b =? 0xA8) || (b =? 0xA9) || (b =? 0xAF) then 3%nat else 0%nat
  | 0xE2 :: 0x81 :: 0x9F :: _ => 3%nat
  | 0xE3 :: 0x80 :: 0x80 :: _ => 3%nat
  | b :: _ => if between 9 b 13 then 1%nat else 0%nat
  | [] => 0%nat
  end.

(** [skip] counts the bytes of a white-space character still to be dropped,
    [word] is the current word, reversed. *)
Fixpoint split_ws_bytes (skip : nat) (word : list Z) (l : list Z) : list (list Z) :=
  let flush := match word with [] => [] | _ => [reverse word] end in
  match l with
  | [] => flush
  | b :: rest =>
      match skip with
      | S skip => split_ws_bytes skip word rest
      | O => match ws_len l with
             | O => split_ws_bytes 0 (b :: word) rest
             | S k => flush ++ split_ws_bytes k [] rest
             end
      end
  end.

(** [s.split_whitespace()]. *)
Definition split_whitespace (s : string) : list string :=
  map string_of_bytes (split_ws_bytes 0 [] (bytes_of_string s)).

Example split_whitespace_ex :
  split_whitespace " 1 udp  x" = ["1"; "udp"; "x"]%string.
Proof. reflexivity. Qed.

(** [s.trim()]: leading white space, then what is left from where only white
    space follows. *)
Fixpoint trim_start_bytes (skip : nat) (l : list Z) : list Z :=
  match l with
  | [] => []
  | b :: rest =>
      match skip with
      | S skip => trim_start_bytes skip rest
      | O => match ws_len l with
             | O => l
             | S k => trim_start_bytes k rest
             end
      end
  end.

Fixpoint trim_end_bytes (l : list Z) : list Z :=
  match split_ws_bytes 0 [] l with
  | [] => []
  | _ => match l with b :: rest => b :: trim_end_bytes rest | [] => [] end
  end.

Definition trim (s : string) : string :=
  string_of_bytes (trim_end_bytes (trim_start_bytes 0 (bytes_of_string s))).

(** A visible ASCII character is no white space and trimming leaves it. *)
Definition visible (b : Z) : Prop := 33 <= b <= 126.

Lemma ws_len_visible b l : visible b -> ws_len (b :: l) = 0%nat.
Proof.
  intros [H1 H2].
  assert (between 9 b 13 = false) as Hb.
  { unfold between. apply andb_false_iff. right. apply Z.leb_gt. lia. }
  unfold ws_len. rewrite Hb. repeat (case_match; try lia); done.
Qed.

Lemma split_ws_word_not_nil word l : word <> [] -> split_ws_bytes 0 word l <> [].
Proof.
  revert word. induction l as [|b l IH]; intros word Hw; cbn [split_ws_bytes].
  - by destruct word.
  - destruct (ws_len (b :: l)); [by apply IH|]. by destruct word.
Qed.

Lemma trim_end_visible l : Forall visible l -> trim_end_bytes l = l.
Proof.
  induction 1 as [|b l Hb Hl IH]; [done|]. cbn [trim_end_bytes].
  destruct (split_ws_bytes 0 [] (b :: l)) eqn:E; [|by rewrite IH].
  cbn [split_ws_bytes] in E. rewrite ws_len_visible in E by done.
  by apply split_ws_word_not_nil in E.
Qed.

Lemma trim_visible s : Forall visible (bytes_of_string s) -> trim s = s.
Proof.
  intros H. unfold trim. replace (trim_start_bytes 0 (bytes_of_string s)) with (bytes_of_string s).
  - rewrite trim_end_visible by done. apply string_of_bytes_of_string.
  - destruct H; [done|]. cbn [trim_start_bytes]. by rewrite ws_len_visible.
Qed.

(** [s.trim_end_matches('\0')] on the byte sequence. *)
Fixpoint trim_start_nul (l : list Z) : list Z :=
  match l with
  | b :: rest => if b =? 0 then trim_start_nul rest else l
  | [] => []
  end.

Definition trim_end_nul (s : string) : string :=
  string_of_bytes (reverse (trim_start_nul (reverse (bytes_of_string s)))).

(** ** Decimal numbers: [s.parse::<u64>()], which also accepts a leading [+] *)

Fixpoint parse_digits (acc : Z) (s : string) : option Z :=
  match s with
  | EmptyString => Some acc
  | String a s' =>
      let d := byte_of_ascii a in
      if between 48 d 57 then
        let acc' := acc * 10 + (d - 48) in
        if acc' <? 2 ^ 64 then parse_digits acc' s' else None
      else None
  end.

Definition parse_u64 (s : string) : option Z :=
  match s with
  | EmptyString => None
  | String "+" EmptyString => None
  | String "+" s' => parse_digits 0 s'
  | _ => parse_digits 0 s
  end%char.

Lemma parse_digits_range acc s n : is_u 64 acc -> parse_digits acc s = Some n -> is_u 64 n.
Proof.
  revert acc. induction s as [|a s IH]; intros acc Hacc; simpl.
  - by intros [= <-].
  - destruct (between 48 (byte_of_ascii a) 57) eqn:Hd; [|done].
    case_match eqn:Hlt; [|done]. apply IH.
    unfold is_u, between in *. apply andb_true_iff in Hd. lia.
Qed.

Lemma parse_u64_range s n : parse_u64 s = Some n -> is_u 64 n.
Proof.
  assert (is_u 64 0) by (unfold is_u; lia).
  unfold parse_u64. repeat case_match; try done; by apply parse_digits_range.
Qed.
