(* ===== verification/Net.v ===== *)
(** * Network addresses

    [std::net::IpAddr] and [SocketAddr] as the sources build them: an address
    is its octets, a socket address an address and a port ([SocketAddr::new]
    leaves the IPv6 flow information and scope at zero), with the textual forms
    [Display] prints. *)

From stdpp Require Import base list gmap countable strings pretty.
From Stdlib Require Import ZArith Lia.
From S2P Require Import Prelude.
Local Open Scope Z_scope.

Inductive IpAddr :=
  | V4 (octets : list Z)
  | V6 (octets : list Z).

Record SocketAddr := mkSocketAddr { ip : IpAddr; port : Z }.

#[export] Instance IpAddr_eq_dec : EqDecision IpAddr.
Proof. solve_decision. Defined.
#[export] Instance SocketAddr_eq_dec : EqDecision SocketAddr.
Proof. solve_decision. Defined.

Definition IpAddr_encode (a : IpAddr) : list Z + list Z :=
  match a with V4 o => inl o | V6 o => inr o end.
Definition IpAddr_decode (s : list Z + list Z) : IpAddr :=
  match s with inl o => V4 o | inr o => V6 o end.

#[export] Instance IpAddr_countable : Countable IpAddr.
Proof. refine (inj_countable' IpAddr_encode IpAddr_decode _). by intros []. Defined.

#[export] Instance SocketAddr_countable : Countable SocketAddr.
Proof.
  refine (inj_countable' (fun a => (ip a, port a)) (fun p => mkSocketAddr p.1 p.2) _).
  by intros [].
Defined.

(** The values Rust's types allow: 4 or 16 octets, a 16-bit port. *)
Definition ip_wf (a : IpAddr) : Prop :=
  match a with
  | V4 o => length o = 4%nat /\ is_bytes o
  | V6 o => length o = 16%nat /\ is_bytes o
  end.
Definition addr_wf (a : SocketAddr) : Prop := ip_wf (ip a) /\ is_u 16 (port a).

(** [Ipv6Addr::to_ipv4_mapped]: the last four octets of [::ffff:a.b.c.d]. *)
Definition to_ipv4_mapped (o : list Z) : option (list Z) :=
  match o with
  | [0; 0; 0; 0; 0; 0; 0; 0; 0; 0; 255; 255; a; b; c; d] => Some [a; b; c; d]
  | _ => None
  end.

(** The IPv4-mapped form of an IPv4 address. *)
Definition v4_mapped (o : list Z) : list Z := replicate 10 0 ++ [255; 255] ++ o.

Lemma to_ipv4_mapped_mapped o : length o = 4%nat -> to_ipv4_mapped (v4_mapped o) = Some o.
Proof. by destruct o as [|a [|b [|c [|d [|]]]]]. Qed.

Lemma to_ipv4_mapped_Some o q :
  to_ipv4_mapped o = Some q -> o = v4_mapped q /\ length q = 4%nat.
Proof.
  unfold to_ipv4_mapped. repeat (case_match; try done). by intros [= <-].
Qed.

(** ** Display *)

(** A decimal number. *)
Definition decimal (z : Z) : string := pretty z.

(** [{:x}]: lower-case hexadecimal without leading zeros. *)
Definition hex_digit (d : Z) : string :=
  match String.get (Z.to_nat d) "0123456789abcdef" with
  | Some a => String.String a String.EmptyString
  | None => String.EmptyString
  end.

Fixpoint hex_aux (fuel : nat) (z : Z) (acc : string) : string :=
  match fuel with
  | O => acc
  | S fuel =>
      let acc := (hex_digit (z mod 16) +:+ acc)%string in
      if z <? 16 then acc else hex_aux fuel (z / 16) acc
  end.

(** At most 64 bits, hence 16 digits. *)
Definition hex_lower (z : Z) : string := hex_aux 16 z String.EmptyString.

Fixpoint concat_with (sep : string) (l : list string) : string :=
  match l with
  | [] => String.EmptyString
  | [s] => s
  | s :: l => (s +:+ sep +:+ concat_with sep l)%string
  end.

Definition display_v4 (o : list Z) : string := concat_with "." (map decimal o).

(** The 16-bit segments of an IPv6 address. *)
Fixpoint segments (o : list Z) : list Z :=
  match o with
  | a :: b :: o => from_be_bytes [a; b] :: segments o
  | _ => []
  end.

(** The first longest run of zero segments, as [(start, len)]. *)
Fixpoint longest_zeros (i : nat) (segs : list Z) (current longest : nat * nat) : nat * nat :=
  match segs with
  | [] => longest
  | s :: segs =>
      if s =? 0 then
        let current := if (current.2 =? 0)%nat then (i, 1%nat) else (current.1, S current.2) in
        longest_zeros (S i) segs current
          (if (longest.2 <? current.2)%nat then current else longest)
      else longest_zeros (S i) segs (0%nat, 0%nat) longest
  end.

Definition display_v6 (o : list Z) : string :=
  match to_ipv4_mapped o with
  | Some q => ("::ffff:" +:+ display_v4 q)%string
  | None =>
      let segs := segments o in
      let '(start, len) := longest_zeros 0 segs (0%nat, 0%nat) (0%nat, 0%nat) in
      let fmt l := concat_with ":" (map hex_lower l) in
      if (1 <? len)%nat
      then (fmt (take start segs) +:+ "::" +:+ fmt (drop (start + len) segs))%string
      else fmt segs
  end.

Definition display_ip (a : IpAddr) : string :=
  match a with V4 o => display_v4 o | V6 o => display_v6 o end.

Definition display_addr (a : SocketAddr) : string :=
  match ip a with
  | V4 o => (display_v4 o +:+ ":" +:+ decimal (port a))%string
  | V6 o => ("[" +:+ display_v6 o +:+ "]:" +:+ decimal (port a))%string
  end.

Example display_addr_examples :
  map display_addr
    [mkSocketAddr (V4 [192; 168; 1; 20]) 8080;
     mkSocketAddr (V6 ([32; 1; 13; 184] ++ replicate 11 0 ++ [1])) 443;
     mkSocketAddr (V6 (v4_mapped [10; 0; 0; 1])) 53]
  = ["192.168.1.20:8080"; "[2001:db8::1]:443"; "[::ffff:10.0.0.1]:53"]%string.
Proof. vm_compute. reflexivity. Qed.

(** The options a message can carry down to the UDP layer. *)
Record UdpSendOptions := mkUdpSendOptions {
  uso_ttl : option Z;
  uso_tos : option Z;
  uso_df_bit : option bool;
  uso_conn_id : string;
  uso_bypass_dtls : bool;
  uso_bypass_sctp_fragmentation : bool }.
