(* ===== verification/IpParse.v ===== *)
(** * Parsing addresses

    [str::parse::<IpAddr>], which the server applies to configuration values and
    to the peer addresses the WebRTC stack reports: the recursive-descent parser
    of the standard library, on the bytes of the string. *)

From stdpp Require Import base list strings pretty.
From Stdlib Require Import ZArith Lia Ascii.
From S2P Require Import Prelude Utf8 Net.
Local Open Scope Z_scope.

(** A parser consumes a prefix of the input or fails without consuming. *)
Abbreviation parser A := (list Z -> option (A * list Z)) (only parsing).

Definition digit_of (radix b : Z) : option Z :=
  let d := if between 48 b 57 then Some (b - 48)
           else if between 97 b 102 then Some (b - 87)
           else if between 65 b 70 then Some (b - 55) else None in
  match d with Some d => if d <? radix then Some d else None | None => None end.

(** The digits at the head of the input, the value checked against its width. *)
Fixpoint read_digits (radix width max_digits : Z) (count acc : Z) (l : list Z)
    : option (Z * Z * list Z) :=
  match l with
  | b :: rest =>
      match digit_of radix b with
      | Some d =>
          let acc := acc * radix + d in
          if (2 ^ width <=? acc) || (max_digits <? count + 1) then None
          else read_digits radix width max_digits (count + 1) acc rest
      | None => Some (acc, count, l)
      end
  | [] => Some (acc, count, l)
  end.

Definition read_number (radix width max_digits : Z) (allow_zero_prefix : bool) : parser Z :=
  fun l =>
    let has_leading_zero := match l with 48 :: _ => true | _ => false end in
    match read_digits radix width max_digits 0 0 l with
    | Some (v, count, rest) =>
        if count =? 0 then None
        else if negb allow_zero_prefix && has_leading_zero && (1 <? count) then None
        else Some (v, rest)
    | None => None
    end.

Definition read_given_char (c : Z) (l : list Z) : option (list Z) :=
  match l with b :: rest => if b =? c then Some rest else None | [] => None end.

(** [read_separator(sep, index, inner)]: the separator comes before every item
    but the first. *)
Definition read_separator {A} (sep : Z) (i : nat) (inner : parser A) : parser A :=
  fun l =>
    match i with
    | O => inner l
    | S _ => rest ← read_given_char sep l; inner rest
    end.

Definition read_octet (i : nat) : parser Z := read_separator 46 i (read_number 10 8 3 false).

Definition read_ipv4_addr : parser (list Z) :=
  fun l =>
    '(a, l) ← read_octet 0 l; '(b, l) ← read_octet 1 l;
    '(c, l) ← read_octet 2 l; '(d, l) ← read_octet 3 l;
    Some ([a; b; c; d], l).

(** [read_groups]: up to [limit] groups from the [i]-th on, an embedded IPv4
    address counting for the last two.  Gives the groups read and whether they
    end in an IPv4 address. *)
Fixpoint read_groups (left i : nat) (acc : list Z) (l : list Z) : list Z * bool * list Z :=
  match left with
  | O => (acc, false, l)
  | S left' =>
      let v4 := match left' with O => None | S _ => read_separator 58 i read_ipv4_addr l end in
      match v4 with
      | Some ([a; b; c; d], rest) => (acc ++ [from_be_bytes [a; b]; from_be_bytes [c; d]], true, rest)
      | _ =>
          match read_separator 58 i (read_number 16 16 4 true) l with
          | Some (g, rest) => read_groups left' (S i) (acc ++ [g]) rest
          | None => (acc, false, l)
          end
      end
  end.

Definition read_ipv6_addr : parser (list Z) :=
  fun l =>
    let octets groups := concat (map (to_be_bytes 2) groups) in
    let '(head, head_ipv4, l1) := read_groups 8 0 [] l in
    if (length head =? 8)%nat then Some (octets head, l1)
    else if head_ipv4 : bool then None
    else
      l2 ← read_given_char 58 l1;
      l3 ← read_given_char 58 l2;
      let '(tail, _, l4) := read_groups (8 - (length head + 1)) 0 [] l3 in
      Some (octets (head ++ replicate (8 - length head - length tail) 0 ++ tail), l4).

Definition parse_ip (s : string) : option IpAddr :=
  let l := bytes_of_string s in
  match read_ipv4_addr l with
  | Some (o, []) => Some (V4 o)
  | Some (_, _ :: _) => None
  | None =>
      match read_ipv6_addr l with
      | Some (o, []) => Some (V6 o)
      | _ => None
      end
  end.

Example parse_ip_examples :
  map parse_ip ["10.0.0.1"; "10.0.0.01"; "256.1.1.1"; "::1"; "2001:db8::ff00:42"; "::ffff:1.2.3.4"; "host"]%string
  = [Some (V4 [10; 0; 0; 1]); None; None; Some (V6 (replicate 15 0 ++ [1]));
     Some (V6 ([32; 1; 13; 184] ++ replicate 8 0 ++ [255; 0; 0; 66]));
     Some (V6 (v4_mapped [1; 2; 3; 4])); None].
Proof. vm_compute. reflexivity. Qed.

(** ** Printed numbers *)

(** Parsing a printed number gives it back, and only digits are printed. *)
Lemma pretty_N_digit d : (d < 10)%N -> byte_of_ascii (pretty_N_char d) = 48 + Z.of_N d.
Proof.
  intros H. assert (d = 0 \/ d = 1 \/ d = 2 \/ d = 3 \/ d = 4 \/ d = 5 \/ d = 6 \/ d = 7 \/ d = 8 \/ d = 9)%N
    as Hd by lia.
  by repeat destruct Hd as [->|Hd]; subst.
Qed.

Lemma parse_digits_pretty n s :
  (Z.of_N n < 2 ^ 64) -> parse_digits 0 (pretty_N_go n s) = parse_digits (Z.of_N n) s.
Proof.
  revert s. induction (N.lt_wf_0 n) as [n _ IH]. intros s Hn.
  destruct (decide (0 < n)%N) as [Hpos|Hz].
  - rewrite pretty_N_go_step by done.
    assert (Z.of_N n = 10 * Z.of_N (n `div` 10) + Z.of_N (n `mod` 10)) as Hdiv.
    { pose proof (N.div_mod n 10). lia. }
    assert (n `mod` 10 < 10)%N by (apply N.mod_lt; lia).
    pose proof (N2Z.is_nonneg (n `mod` 10)). pose proof (N2Z.is_nonneg (n `div` 10)).
    rewrite IH; [|apply N.div_lt; lia|lia]. cbn [parse_digits]. rewrite pretty_N_digit by done.
    unfold between. destruct (Z.leb_spec 48 (48 + Z.of_N (n `mod` 10))); [|lia].
    destruct (Z.leb_spec (48 + Z.of_N (n `mod` 10)) 57); [|lia]. simpl andb. cbv iota.
    replace (Z.of_N (n `div` 10) * 10 + (48 + Z.of_N (n `mod` 10) - 48)) with (Z.of_N n) by lia.
    by destruct (Z.ltb_spec (Z.of_N n) (2 ^ 64)); [|lia].
  - assert (n = 0)%N as -> by lia. by rewrite pretty_N_go_0.
Qed.

Definition is_digit (b : Z) : Prop := 48 <= b <= 57.

Lemma pretty_go_digits n s : Forall is_digit (bytes_of_string s) ->
  Forall is_digit (bytes_of_string (pretty_N_go n s)).
Proof.
  revert s. induction (N.lt_wf_0 n) as [n _ IH]. intros s Hs.
  destruct (decide (0 < n)%N) as [Hpos|Hz].
  - rewrite pretty_N_go_step by done. apply IH; [apply N.div_lt; lia|].
    assert (n `mod` 10 < 10)%N by (apply N.mod_lt; lia).
    change (bytes_of_string (String.String (pretty_N_char (n `mod` 10)) s))
      with (byte_of_ascii (pretty_N_char (n `mod` 10)) :: bytes_of_string s).
    constructor; [|done]. rewrite pretty_N_digit by done. unfold is_digit. pose proof (N2Z.is_nonneg (n `mod` 10)). lia.
  - assert (n = 0)%N as -> by lia. by rewrite pretty_N_go_0.
Qed.

Lemma decimal_digits z : 0 <= z -> Forall is_digit (bytes_of_string (decimal z)).
Proof.
  intros Hz. destruct z as [|p|p]; [|apply pretty_go_digits; constructor|lia].
  repeat constructor; done.
Qed.

Lemma parse_digits_decimal z : 0 <= z < 2 ^ 64 -> parse_digits 0 (decimal z) = Some z.
Proof.
  intros Hz. destruct z as [|p|p]; [done| |lia].
  change (decimal (Zpos p)) with (pretty_N_go (Npos p) String.EmptyString).
  rewrite parse_digits_pretty; [done|simpl; lia].
Qed.

Lemma parse_u64_decimal z : 0 <= z < 2 ^ 64 -> parse_u64 (decimal z) = Some z.
Proof.
  intros Hz. pose proof (parse_digits_decimal z Hz) as Hp.
  pose proof (decimal_digits z ltac:(lia)) as Hd.
  destruct (decimal z) as [|a s] eqn:E.
  - destruct z as [|p|p]; [done| |lia].
    by injection Hp.
  - rewrite <- Hp. change (bytes_of_string (String.String a s)) with (byte_of_ascii a :: bytes_of_string s) in Hd.
    apply Forall_cons in Hd as [Ha _]. unfold is_digit in Ha.
    destruct (decide (a = "+"%char)) as [->|Hne]; [vm_compute in Ha; by destruct (proj1 Ha eq_refl)|].
    destruct a as [[] [] [] [] [] [] [] []]; try done.
Qed.

(** A character of another kind does not occur. *)
Lemma lacks_Forall c s (P : Z -> Prop) :
  Forall P (bytes_of_string s) -> ~ P (byte_of_ascii c) -> lacks c s = true.
Proof.
  intros Hs Hc. induction s as [|a s IH]; [done|].
  change (bytes_of_string (String.String a s)) with (byte_of_ascii a :: bytes_of_string s) in Hs.
  apply Forall_cons in Hs as [Ha Hs]. cbn [lacks]. rewrite IH by done.
  destruct (Ascii.eqb_spec a c) as [->|]; done.
Qed.
