(* ===== verification/Wire.v ===== *)
(** * Wire formats

    The headers that the parsers of the listener and of the packet capture read,
    built field by field: the specification side of their theorems. *)

From stdpp Require Import base list.
From Stdlib Require Import ZArith Lia.
From S2P Require Import Prelude.
Local Open Scope Z_scope.

(** The version nibble, [(b >> 4) & 0x0F]. *)
Definition ip_version (b : Z) : Z := Z.land (Z.shiftr b 4) 15.

(** ** Headers *)

Definition udp_header (src_port dest_port len checksum : Z) : bytes :=
  to_be_bytes 2 src_port ++ to_be_bytes 2 dest_port ++ to_be_bytes 2 len ++ to_be_bytes 2 checksum.

(** An IPv4 header.  Routers rewrite TTL and header checksum on the way, so all
    fields but version, header length, protocol and addresses are arbitrary. *)
Record ipv4_header := mkIpv4Header {
  h4_ihl : Z;                (* header length in 32-bit words *)
  h4_fields : bytes;         (* type of service to TTL, 8 bytes *)
  h4_proto : Z;
  h4_checksum : bytes;       (* 2 bytes *)
  h4_src : bytes;
  h4_dst : bytes;
  h4_options : bytes }.

Definition ipv4_header_wf (h : ipv4_header) : Prop :=
  5 <= h4_ihl h <= 15 /\ length (h4_fields h) = 8%nat /\ length (h4_checksum h) = 2%nat
  /\ length (h4_src h) = 4%nat /\ length (h4_dst h) = 4%nat
  /\ Z.of_nat (length (h4_options h)) = 4 * (h4_ihl h - 5).

Definition ipv4_header_bytes (h : ipv4_header) : bytes :=
  [64 + h4_ihl h] ++ h4_fields h ++ [h4_proto h] ++ h4_checksum h ++ h4_src h ++ h4_dst h ++ h4_options h.

(** The fixed IPv6 header. *)
Definition ipv6_header_bytes (low_nibble : Z) (fields : bytes) (hop_limit : Z)
    (src dst : bytes) : bytes :=
  [96 + low_nibble] ++ fields ++ [17; hop_limit] ++ src ++ dst.

(** ** Reading them back *)

Lemma checked_u8_header_len b : checked_u 8 (Z.land b 15 * 4) = Ret (Z.land b 15 * 4).
Proof.
  apply checked_u_Ret. change 15 with (Z.ones 4). rewrite Z.land_ones by lia.
  unfold is_u. pose proof (Z.mod_pos_bound b (2 ^ 4) ltac:(lia)). lia.
Qed.

Lemma slice_no_panic {A} (l : list A) from to :
  (from <= to)%nat -> (to <= length l)%nat -> no_panic (slice l from to).
Proof. intros. rewrite slice_Ret by done. apply no_panic_Ret. Qed.

Lemma read_u16_be_at pre z post i :
  i = length pre -> is_u 16 z -> read_u16_be (pre ++ to_be_bytes 2 z ++ post) i = Ret z.
Proof.
  intros -> Hz. unfold read_u16_be.
  rewrite !(index_app_r pre) by lia. rewrite Nat.sub_diag, (Nat.add_comm _ 1), Nat.add_sub.
  pose proof (from_to_be_bytes 2 z) as H.
  rewrite Z.mod_small in H by (unfold is_u in Hz; exact Hz).
  rewrite !index_app_l by (rewrite length_to_be_bytes; lia).
  change (Ret (from_be_bytes (to_be_bytes 2 z)) = Ret z). by rewrite H.
Qed.

Lemma ip_version_nibbles v n : 0 <= v <= 15 -> 0 <= n <= 15 ->
  ip_version (16 * v + n) = v /\ Z.land (16 * v + n) 15 = n.
Proof.
  intros Hv Hn. unfold ip_version. change 15 with (Z.ones 4).
  rewrite !Z.land_ones, Z.shiftr_div_pow2 by lia. change (2 ^ 4) with 16.
  Z.to_euclidean_division_equations. lia.
Qed.

(** Reading the four fields of a UDP header found at [i]. *)
Lemma udp_header_fields pre post sp dp len ck i :
  i = length pre -> is_u 16 sp -> is_u 16 dp -> is_u 16 len -> is_u 16 ck ->
  let packet := pre ++ udp_header sp dp len ck ++ post in
  read_u16_be packet i = Ret sp /\ read_u16_be packet (i + 2) = Ret dp
  /\ read_u16_be packet (i + 4) = Ret len /\ read_u16_be packet (i + 6) = Ret ck.
Proof.
  intros -> Hsp Hdp Hlen Hck packet. unfold packet, udp_header. rewrite <- !(assoc_L (++)).
  split; [by apply read_u16_be_at|]. split; [|split].
  - rewrite (assoc_L (++) pre). apply read_u16_be_at; [|done].
    rewrite length_app, length_to_be_bytes. lia.
  - rewrite (assoc_L (++) (to_be_bytes 2 sp)), (assoc_L (++) pre).
    apply read_u16_be_at; [|done]. rewrite !length_app, !length_to_be_bytes. lia.
  - rewrite (assoc_L (++) (to_be_bytes 2 dp)), (assoc_L (++) (to_be_bytes 2 sp)),
      (assoc_L (++) pre).
    apply read_u16_be_at; [|done]. rewrite !length_app, !length_to_be_bytes. lia.
Qed.

(** Spells a list of known length out. *)
Ltac explode l H :=
  repeat (destruct l as [|? l]; simpl in H; [try discriminate H|]; try discriminate H);
  clear H.

Lemma length_ipv4_header h : ipv4_header_wf h ->
  length (ipv4_header_bytes h) = Z.to_nat (h4_ihl h * 4).
Proof.
  intros (Hihl & Hf & Hc & Hs & Hd & Ho). unfold ipv4_header_bytes.
  rewrite !length_app, Hf, Hc, Hs, Hd. simpl. lia.
Qed.
