(* ===== verification/Fallible.v ===== *)
(** * Fallible computations and byte buffers

    The protocol crates return [Result]s, and may panic besides: [fallible E A]
    is a value, an error of type [E], or a panic.  [Buf]'s readers and [Bytes]'
    slices have their documented behaviour, a panic where too little is left. *)

From stdpp Require Import base list.
From Stdlib Require Import ZArith Lia.
From S2P Require Import Prelude.
Local Open Scope Z_scope.

Inductive fallible (E A : Type) : Type :=
  | Ok (a : A)
  | Err (e : E)
  | Panics (why : panic_reason)
  | NoFuel.
Arguments Ok {E A} a.
Arguments Err {E A} e.
Arguments Panics {E A} why.
Arguments NoFuel {E A}.

#[export] Instance fallible_ret {E} : MRet (fallible E) := @Ok E.
#[export] Instance fallible_bind {E} : MBind (fallible E) :=
  fun A B f m =>
    match m with
    | Ok a => f a
    | Err e => Err e
    | Panics why => Panics why
    | NoFuel => NoFuel
    end.

(** Code that may panic but returns no [Result]. *)
Definition lift {E A} (m : outcome A) : fallible E A :=
  match m with Ret a => Ok a | Panic why => Panics why | OutOfFuel => NoFuel end.

Lemma bind_Ok {E A B} (a : A) (f : A -> fallible E B) : (Ok a ≫= f) = f a.
Proof. reflexivity. Qed.

Lemma bind_Ok_inv {E A B} (m : fallible E A) (f : A -> fallible E B) b :
  (m ≫= f) = Ok b <-> exists a, m = Ok a /\ f a = Ok b.
Proof.
  destruct m as [a|e|why|]; simpl; split; try done; try by intros (? & ? & ?).
  - eauto.
  - by intros (? & [= ->] & ?).
Qed.

(** The computation does not run out of iterations. *)
Definition ends {E A} (m : fallible E A) : Prop := m <> NoFuel.

Lemma bind_ends {E A B} (m : fallible E A) (f : A -> fallible E B) :
  ends m -> (forall a, m = Ok a -> ends (f a)) -> ends (m ≫= f).
Proof. unfold ends. destruct m as [a|e|why|]; simpl; auto. Qed.

Lemma lift_ends {E A} (m : outcome A) : m <> OutOfFuel -> ends (@lift E A m).
Proof. by destruct m. Qed.

(** ** [bytes::Buf] and [Bytes] *)

Section buf.
  Context {E : Type}.

Definition get_u8 (r : bytes) : fallible E (Z * bytes) :=
  match r with b :: r => Ok (b, r) | [] => Panics IndexOutOfBounds end.

Definition get_u16 (r : bytes) : fallible E (Z * bytes) :=
  match r with a :: b :: r => Ok (from_be_bytes [a; b], r) | _ => Panics IndexOutOfBounds end.

Definition get_u32 (r : bytes) : fallible E (Z * bytes) :=
  match r with
  | a :: b :: c :: d :: r => Ok (from_be_bytes [a; b; c; d], r)
  | _ => Panics IndexOutOfBounds
  end.

Definition get_u32_le (r : bytes) : fallible E (Z * bytes) :=
  match r with
  | a :: b :: c :: d :: r => Ok (from_le_bytes [a; b; c; d], r)
  | _ => Panics IndexOutOfBounds
  end.

(** [b.slice(from..to)] and [b.slice(from..)]. *)
Definition bslice (b : bytes) (from to : nat) : fallible E bytes := lift (slice b from to).
Definition bslice_from (b : bytes) (from : nat) : fallible E bytes := bslice b from (length b).

(** [b[i]] *)
Definition bindex (b : bytes) (i : nat) : fallible E Z := lift (index b i).

(** ** Reading what was written *)

Lemma get_u8_app z rest : get_u8 ([z] ++ rest) = Ok (z, rest).
Proof. reflexivity. Qed.

Lemma to_be_bytes_2 z : exists a b, to_be_bytes 2 z = [a; b].
Proof. by do 2 eexists. Qed.

Lemma to_be_bytes_4 z : exists a b c d, to_be_bytes 4 z = [a; b; c; d].
Proof. by do 4 eexists. Qed.

Lemma get_u16_app z rest : is_u 16 z -> get_u16 (to_be_bytes 2 z ++ rest) = Ok (z, rest).
Proof.
  intros Hz. pose proof (from_to_be_bytes 2 z) as H. rewrite Z.mod_small in H by exact Hz.
  destruct (to_be_bytes_2 z) as (a & b & Hab). rewrite Hab in *. simpl. by rewrite H.
Qed.

Lemma get_u32_app z rest : is_u 32 z -> get_u32 (to_be_bytes 4 z ++ rest) = Ok (z, rest).
Proof.
  intros Hz. pose proof (from_to_be_bytes 4 z) as H. rewrite Z.mod_small in H by exact Hz.
  destruct (to_be_bytes_4 z) as (a & b & c & d & Hab). rewrite Hab in *. simpl. by rewrite H.
Qed.

Lemma get_u32_le_app z rest : is_u 32 z -> get_u32_le (to_le_bytes 4 z ++ rest) = Ok (z, rest).
Proof.
  intros Hz. pose proof (from_to_le_bytes 4 z) as H. rewrite Z.mod_small in H by exact Hz.
  cbn [to_le_bytes app get_u32_le] in *. by rewrite H.
Qed.

Lemma bslice_app pre mid post from to :
  from = length pre -> to = (length pre + length mid)%nat ->
  bslice (pre ++ mid ++ post) from to = Ok mid.
Proof.
  intros -> ->. unfold bslice. rewrite slice_Ret by (rewrite ?length_app; lia). simpl.
  rewrite drop_app_length, Nat.add_comm, Nat.add_sub, take_app_length. done.
Qed.

Lemma bslice_from_app pre post from :
  from = length pre -> bslice_from (pre ++ post) from = Ok post.
Proof.
  intros ->. unfold bslice_from. rewrite <-(app_nil_r post) at 1.
  apply bslice_app; [done|]. by rewrite length_app.
Qed.
End buf.

