(* ===== verification/SctpWire.v ===== *)
(** * SCTP packets (vendored/webrtc-sctp/src: packet.rs, util.rs, error_cause.rs,
    chunk/ and param/)

    The chunks and parameters of SCTP, their coders and decoders, and the packet
    around them.  A decoder works on the rest of the packet, as in the source, and
    may fail or panic.  CRC-32C, of the crate crc, is a parameter.  Fields that only
    matter in memory (retransmission state of a DATA chunk, the options of the UDP
    layer) are kept: [on_wire] says what of a packet survives the transfer. *)

From stdpp Require Import base list.
From Stdlib Require Import ZArith Lia.
From S2P Require Import Prelude Net Fallible.
Local Open Scope Z_scope.

(** ** util.rs *)

Definition PADDING_MULTIPLE : nat := 4.

Definition get_padding_size (len : nat) : nat :=
  ((PADDING_MULTIPLE - len mod PADDING_MULTIPLE) mod PADDING_MULTIPLE)%nat.

(** Serial number arithmetic (RFC 1982).  The differences are guarded, so they
    stay in range. *)
Definition sna32lt (i1 i2 : Z) : bool :=
  (i1 <? i2) && (i2 - i1 <? Z.shiftl 1 31) || (i1 >? i2) && (i1 - i2 >? Z.shiftl 1 31).
Definition sna32lte (i1 i2 : Z) : bool := (i1 =? i2) || sna32lt i1 i2.
Definition sna32gt (i1 i2 : Z) : bool :=
  (i1 <? i2) && (i2 - i1 >=? Z.shiftl 1 31) || (i1 >? i2) && (i1 - i2 <=? Z.shiftl 1 31).
Definition sna32gte (i1 i2 : Z) : bool := (i1 =? i2) || sna32gt i1 i2.
Definition sna16lt (i1 i2 : Z) : bool :=
  (i1 <? i2) && (i2 - i1 <? Z.shiftl 1 15) || (i1 >? i2) && (i1 - i2 >? Z.shiftl 1 15).
Definition sna16lte (i1 i2 : Z) : bool := (i1 =? i2) || sna16lt i1 i2.
Definition sna16gt (i1 i2 : Z) : bool :=
  (i1 <? i2) && (i2 - i1 >=? Z.shiftl 1 15) || (i1 >? i2) && (i1 - i2 <=? Z.shiftl 1 15).
Definition sna16gte (i1 i2 : Z) : bool := (i1 =? i2) || sna16gt i1 i2.

(** ** error.rs: the errors the modelled operations return *)

Inductive Error :=
  | ErrChunkHeaderTooSmall | ErrChunkHeaderNotEnoughSpace | ErrChunkHeaderPaddingNonZero
  | ErrChunkHeaderInvalidLength | ErrChunkTypeNotAbort | ErrChunkTypeNotCookieAck
  | ErrChunkTypeNotCookieEcho | ErrChunkTypeNotCtError | ErrChunkTooShort
  | ErrChunkTypeNotForwardTsn | ErrChunkTypeNotHeartbeat | ErrChunkTypeNotHeartbeatAck
  | ErrHeartbeatNotLongEnoughInfo | ErrHeartbeatParam | ErrHeartbeatAckParams
  | ErrHeartbeatAckNotHeartbeatInfo | ErrErrorCauseTooSmall | ErrParamTypeUnhandled (typ : Z)
  | ErrParamTypeUnexpected | ErrParamHeaderTooShort | ErrSsnResetRequestParamTooShort
  | ErrReconfigRespParamTooShort | ErrInvalidAlgorithmType | ErrChunkTypeNotTypeInit
  | ErrChunkValueNotLongEnough | ErrChunkTypeInitFlagZero | ErrChunkTypeInitInitiateTagZero
  | ErrInitInboundStreamRequestZero | ErrInitOutboundStreamRequestZero
  | ErrInitAdvertisedReceiver1500 | ErrChunkPayloadSmall | ErrChunkTypeNotPayloadData
  | ErrChunkTypeNotReconfig | ErrChunkReconfigInvalidParamA | ErrChunkTypeNotSack
  | ErrSackSizeNotLargeEnoughInfo | ErrInvalidChunkSize | ErrChunkTypeNotShutdown
  | ErrChunkTypeNotShutdownAck | ErrChunkTypeNotShutdownComplete | ErrPacketRawTooSmall
  | ErrParseSctpChunkNotEnoughData | ErrChecksumMismatch | ErrTryAgain | ErrChunk
  | ErrShutdownNonEstablished | ErrInitNotStoredToSend | ErrCookieEchoNotStoredToSend
  | ErrSctpPacketSourcePortZero | ErrSctpPacketDestinationPortZero | ErrInitChunkBundled
  | ErrInitChunkVerifyTagNotZero | ErrHandleInitState | ErrInitAckNoCookie
  | ErrStreamAlreadyExist | ErrStreamCreateFailed | ErrInflightQueueTsnPop
  | ErrTsnRequestNotExist | ErrResetPacketInStateNotExist | ErrParameterType
  | ErrPayloadDataStateNotExist | ErrChunkTypeUnhandled | ErrHandshakeInitAck
  | ErrHandshakeCookieEcho | ErrOutboundPacketTooLarge | ErrStreamClosed
  | ErrShortBuffer (size : nat) | ErrInvalidSystemTime.

#[export] Instance Error_eq_dec : EqDecision Error.
Proof. solve_decision. Defined.

Abbreviation result A := (fallible Error A).

(** [writer.put_u16(..)] and friends append the big-endian bytes. *)
Definition put_u8 (z : Z) : bytes := [z].
Definition put_u16 (z : Z) : bytes := to_be_bytes 2 z.
Definition put_u32 (z : Z) : bytes := to_be_bytes 4 z.
#[global] Arguments put_u16 : simpl never.
#[global] Arguments put_u32 : simpl never.

(** ** Parameters (param/) *)

Inductive ParamType :=
  | HeartbeatInfo | Ipv4Addr | Ipv6Addr | StateCookie | UnrecognizedParam | CookiePreservative
  | HostNameAddr | SupportedAddrTypes | OutSsnResetReq | IncSsnResetReq | SsnTsnResetReq
  | ReconfigResp | AddOutStreamsReq | AddIncStreamsReq | Random | ChunkList | ReqHmacAlgo
  | Padding | SupportedExt | ForwardTsnSupp | AddIpAddr | DelIpaddr | ErrClauseInd | SetPriAddr
  | SuccessInd | AdaptLayerInd | UnknownParam (param_type : Z).

#[export] Instance ParamType_eq_dec : EqDecision ParamType.
Proof. solve_decision. Defined.

Definition ParamType_of_u16 (v : Z) : ParamType :=
  match v with
  | 1 => HeartbeatInfo | 5 => Ipv4Addr | 6 => Ipv6Addr | 7 => StateCookie
  | 8 => UnrecognizedParam | 9 => CookiePreservative | 11 => HostNameAddr
  | 12 => SupportedAddrTypes | 13 => OutSsnResetReq | 14 => IncSsnResetReq
  | 15 => SsnTsnResetReq | 16 => ReconfigResp | 17 => AddOutStreamsReq | 18 => AddIncStreamsReq
  | 32770 => Random | 32771 => ChunkList | 32772 => ReqHmacAlgo | 32773 => Padding
  | 32776 => SupportedExt | 49152 => ForwardTsnSupp | 49153 => AddIpAddr | 49154 => DelIpaddr
  | 49155 => ErrClauseInd | 49156 => SetPriAddr | 49157 => SuccessInd | 49158 => AdaptLayerInd
  | unknown => UnknownParam unknown
  end.

Definition u16_of_ParamType (t : ParamType) : Z :=
  match t with
  | HeartbeatInfo => 1 | Ipv4Addr => 5 | Ipv6Addr => 6 | StateCookie => 7
  | UnrecognizedParam => 8 | CookiePreservative => 9 | HostNameAddr => 11
  | SupportedAddrTypes => 12 | OutSsnResetReq => 13 | IncSsnResetReq => 14
  | SsnTsnResetReq => 15 | ReconfigResp => 16 | AddOutStreamsReq => 17 | AddIncStreamsReq => 18
  | Random => 32770 | ChunkList => 32771 | ReqHmacAlgo => 32772 | Padding => 32773
  | SupportedExt => 32776 | ForwardTsnSupp => 49152 | AddIpAddr => 49153 | DelIpaddr => 49154
  | ErrClauseInd => 49155 | SetPriAddr => 49156 | SuccessInd => 49157 | AdaptLayerInd => 49158
  | UnknownParam param_type => param_type
  end.

Inductive HmacAlgorithm := HmacResv1 | HmacSha128 | HmacResv2 | HmacSha256 | HmacUnknown.

#[export] Instance HmacAlgorithm_eq_dec : EqDecision HmacAlgorithm.
Proof. solve_decision. Defined.

Definition HmacAlgorithm_of_u16 (v : Z) : HmacAlgorithm :=
  match v with
  | 0 => HmacResv1 | 1 => HmacSha128 | 2 => HmacResv2 | 3 => HmacSha256 | _ => HmacUnknown
  end.

(** [a as u16] of the [repr(C)] enum. *)
Definition u16_of_HmacAlgorithm (a : HmacAlgorithm) : Z :=
  match a with HmacResv1 => 0 | HmacSha128 => 1 | HmacResv2 => 2 | HmacSha256 => 3 | HmacUnknown => 4 end.

Inductive ReconfigResult :=
  | SuccessNop | SuccessPerformed | Denied | ErrorWrongSsn | ErrorRequestAlreadyInProgress
  | ErrorBadSequenceNumber | InProgress | ReconfigUnknown.

Definition ReconfigResult_of_u32 (v : Z) : ReconfigResult :=
  match v with
  | 0 => SuccessNop | 1 => SuccessPerformed | 2 => Denied | 3 => ErrorWrongSsn
  | 4 => ErrorRequestAlreadyInProgress | 5 => ErrorBadSequenceNumber | 6 => InProgress
  | _ => ReconfigUnknown
  end.

Definition u32_of_ReconfigResult (r : ReconfigResult) : Z :=
  match r with
  | SuccessNop => 0 | SuccessPerformed => 1 | Denied => 2 | ErrorWrongSsn => 3
  | ErrorRequestAlreadyInProgress => 4 | ErrorBadSequenceNumber => 5 | InProgress => 6
  | ReconfigUnknown => 7
  end.

Record ParamOutgoingResetRequest := mkParamOutgoingResetRequest {
  reconfig_request_sequence_number : Z;
  reconfig_response_sequence_number : Z;
  sender_last_tsn : Z;
  stream_identifiers : list Z }.

(** [Box<dyn Param>]: one constructor per implementation of the trait. *)
Inductive Param :=
  | ParamHeartbeatInfo (heartbeat_information : bytes)
  | ParamStateCookie (cookie : bytes)
  | ParamRandom (random_data : bytes)
  | ParamForwardTsnSupported
  | ParamSupportedExtensions (chunk_types : list Z)
  | ParamChunkList (chunk_types : list Z)
  | ParamRequestedHmacAlgorithm (available_algorithms : list HmacAlgorithm)
  | ParamOutgoingReset (r : ParamOutgoingResetRequest)
  | ParamReconfigResponse (sequence_number : Z) (result : ReconfigResult)
  | ParamUnknown (typ : Z) (value : bytes)
  | ParamUnrecognized (param : Param).

Record ParamHeader := mkParamHeader { ph_typ : ParamType; ph_value_length : Z }.

Definition PARAM_HEADER_LENGTH : nat := 4.

Module ParamHeader.
Definition unmarshal (raw : bytes) : result ParamHeader :=
  if (length raw <? PARAM_HEADER_LENGTH)%nat then Err ErrParamHeaderTooShort
  else
    '(typ, reader) ← get_u16 raw;
    '(len, _) ← get_u16 reader;
    let len := Z.to_nat len in
    if (len <? PARAM_HEADER_LENGTH)%nat || (length raw <? len)%nat then Err ErrParamHeaderTooShort
    else Ok (mkParamHeader (ParamType_of_u16 typ) (as_u 16 (Z.of_nat (len - PARAM_HEADER_LENGTH)))).

Definition marshal_to (h : ParamHeader) (writer : bytes) : result bytes :=
  len ← lift (checked_u 16 (ph_value_length h + Z.of_nat PARAM_HEADER_LENGTH));
  Ok (writer ++ put_u16 (u16_of_ParamType (ph_typ h)) ++ put_u16 len).
End ParamHeader.

(** [raw.slice(PARAM_HEADER_LENGTH..PARAM_HEADER_LENGTH + header.value_length())] *)
Definition param_value (raw : bytes) (h : ParamHeader) : result bytes :=
  bslice raw PARAM_HEADER_LENGTH (PARAM_HEADER_LENGTH + Z.to_nat (ph_value_length h)).

Definition PARAM_OUTGOING_RESET_REQUEST_STREAM_IDENTIFIERS_OFFSET : nat := 12.

Module Param.
Fixpoint value_length (p : Param) : nat :=
  match p with
  | ParamHeartbeatInfo data | ParamStateCookie data | ParamRandom data => length data
  | ParamForwardTsnSupported => 0
  | ParamSupportedExtensions types | ParamChunkList types => length types
  | ParamRequestedHmacAlgorithm algorithms => 2 * length algorithms
  | ParamOutgoingReset r =>
      PARAM_OUTGOING_RESET_REQUEST_STREAM_IDENTIFIERS_OFFSET + length (stream_identifiers r) * 2
  | ParamReconfigResponse _ _ => 8
  | ParamUnknown _ value => length value
  | ParamUnrecognized p => value_length p + PARAM_HEADER_LENGTH
  end.

Definition typ (p : Param) : ParamType :=
  match p with
  | ParamHeartbeatInfo _ => HeartbeatInfo
  | ParamStateCookie _ => StateCookie
  | ParamRandom _ => Random
  | ParamForwardTsnSupported => ForwardTsnSupp
  | ParamSupportedExtensions _ => SupportedExt
  | ParamChunkList _ => ChunkList
  | ParamRequestedHmacAlgorithm _ => ReqHmacAlgo
  | ParamOutgoingReset _ => OutSsnResetReq
  | ParamReconfigResponse _ _ => ReconfigResp
  | ParamUnknown typ _ => UnknownParam typ
  | ParamUnrecognized _ => UnrecognizedParam
  end.

Definition header (p : Param) : ParamHeader :=
  mkParamHeader (typ p) (as_u 16 (Z.of_nat (value_length p))).

Fixpoint marshal_to (p : Param) (writer : bytes) : result bytes :=
  writer ← ParamHeader.marshal_to (header p) writer;
  match p with
  | ParamHeartbeatInfo data | ParamStateCookie data | ParamRandom data => Ok (writer ++ data)
  | ParamForwardTsnSupported => Ok writer
  | ParamSupportedExtensions types | ParamChunkList types => Ok (writer ++ concat (map put_u8 types))
  | ParamRequestedHmacAlgorithm algorithms =>
      Ok (writer ++ concat (map (fun a => put_u16 (u16_of_HmacAlgorithm a)) algorithms))
  | ParamOutgoingReset r =>
      Ok (writer ++ put_u32 (reconfig_request_sequence_number r)
            ++ put_u32 (reconfig_response_sequence_number r) ++ put_u32 (sender_last_tsn r)
            ++ concat (map put_u16 (stream_identifiers r)))
  | ParamReconfigResponse n result =>
      Ok (writer ++ put_u32 n ++ put_u32 (u32_of_ReconfigResult result))
  | ParamUnknown _ value => Ok (writer ++ value)
  | ParamUnrecognized p => marshal_to p writer
  end.

Definition marshal (p : Param) : result bytes := marshal_to p [].
End Param.

(** [while offset + 1 < value_length { ... offset += 2; }] with [n] bytes left. *)
Fixpoint read_algorithms (fuel n : nat) (reader : bytes) : result (list HmacAlgorithm) :=
  if (n <=? 1)%nat then Ok []
  else
    match fuel with
    | O => NoFuel
    | S fuel =>
        '(a, reader) ← get_u16 reader;
        let a := HmacAlgorithm_of_u16 a in
        if bool_decide (a = HmacSha128) || bool_decide (a = HmacSha256)
        then rest ← read_algorithms fuel (n - 2) reader; Ok (a :: rest)
        else Err ErrInvalidAlgorithmType
    end.

(** [for _ in 0..n { v.push(reader.get_u16()) }] *)
Fixpoint read_u16s (n : nat) (reader : bytes) : result (list Z * bytes) :=
  match n with
  | O => Ok ([], reader)
  | S n =>
      '(v, reader) ← get_u16 reader;
      '(vs, reader) ← read_u16s n reader;
      Ok (v :: vs, reader)
  end.

Fixpoint read_u32s (n : nat) (reader : bytes) : result (list Z * bytes) :=
  match n with
  | O => Ok ([], reader)
  | S n =>
      '(v, reader) ← get_u32 reader;
      '(vs, reader) ← read_u32s n reader;
      Ok (v :: vs, reader)
  end.

(** The [unmarshal] of each parameter. *)
Module ParamUnmarshal.
Definition random (raw : bytes) : result Param :=
  header ← ParamHeader.unmarshal raw;
  data ← param_value raw header;
  Ok (ParamRandom data).

Definition heartbeat_info (raw : bytes) : result Param :=
  header ← ParamHeader.unmarshal raw;
  data ← param_value raw header;
  Ok (ParamHeartbeatInfo data).

Definition state_cookie (raw : bytes) : result Param :=
  header ← ParamHeader.unmarshal raw;
  data ← param_value raw header;
  Ok (ParamStateCookie data).

Definition forward_tsn_supported (raw : bytes) : result Param :=
  _ ← ParamHeader.unmarshal raw;
  Ok ParamForwardTsnSupported.

Definition supported_extensions (raw : bytes) : result Param :=
  header ← ParamHeader.unmarshal raw;
  reader ← param_value raw header;
  Ok (ParamSupportedExtensions reader).

Definition chunk_list (raw : bytes) : result Param :=
  header ← ParamHeader.unmarshal raw;
  if bool_decide (ph_typ header = ChunkList) then
    reader ← param_value raw header;
    Ok (ParamChunkList reader)
  else Err ErrParamTypeUnexpected.

Definition requested_hmac_algorithm (raw : bytes) : result Param :=
  header ← ParamHeader.unmarshal raw;
  reader ← param_value raw header;
  algorithms ← read_algorithms (Z.to_nat (ph_value_length header))
                 (Z.to_nat (ph_value_length header)) reader;
  Ok (ParamRequestedHmacAlgorithm algorithms).

Definition outgoing_reset_request (raw : bytes) : result Param :=
  header ← ParamHeader.unmarshal raw;
  let value_length := Z.to_nat (ph_value_length header) in
  if (value_length <? PARAM_OUTGOING_RESET_REQUEST_STREAM_IDENTIFIERS_OFFSET)%nat
  then Err ErrSsnResetRequestParamTooShort
  else
    reader ← param_value raw header;
    '(request, reader) ← get_u32 reader;
    '(response, reader) ← get_u32 reader;
    '(tsn, reader) ← get_u32 reader;
    let lim := ((value_length - PARAM_OUTGOING_RESET_REQUEST_STREAM_IDENTIFIERS_OFFSET) / 2)%nat in
    '(ids, _) ← read_u16s lim reader;
    Ok (ParamOutgoingReset (mkParamOutgoingResetRequest request response tsn ids)).

Definition reconfig_response (raw : bytes) : result Param :=
  header ← ParamHeader.unmarshal raw;
  if ph_value_length header <? 8 then Err ErrReconfigRespParamTooShort
  else
    reader ← param_value raw header;
    '(n, reader) ← get_u32 reader;
    '(r, _) ← get_u32 reader;
    Ok (ParamReconfigResponse n (ReconfigResult_of_u32 r)).

Definition unknown (raw : bytes) : result Param :=
  header ← ParamHeader.unmarshal raw;
  value ← param_value raw header;
  Ok (ParamUnknown (u16_of_ParamType (ph_typ header)) value).
End ParamUnmarshal.

Definition build_param (raw_param : bytes) : result Param :=
  if (length raw_param <? PARAM_HEADER_LENGTH)%nat then Err ErrParamHeaderTooShort
  else
    reader ← bslice raw_param 0 2;
    '(raw_type, _) ← get_u16 reader;
    match ParamType_of_u16 raw_type with
    | ForwardTsnSupp => ParamUnmarshal.forward_tsn_supported raw_param
    | SupportedExt => ParamUnmarshal.supported_extensions raw_param
    | Random => ParamUnmarshal.random raw_param
    | ReqHmacAlgo => ParamUnmarshal.requested_hmac_algorithm raw_param
    | ChunkList => ParamUnmarshal.chunk_list raw_param
    | StateCookie => ParamUnmarshal.state_cookie raw_param
    | HeartbeatInfo => ParamUnmarshal.heartbeat_info raw_param
    | OutSsnResetReq => ParamUnmarshal.outgoing_reset_request raw_param
    | ReconfigResp => ParamUnmarshal.reconfig_response raw_param
    | _ =>
        if Z.land (Z.shiftr raw_type 15) 1 =? 0 then Err (ErrParamTypeUnhandled raw_type)
        else ParamUnmarshal.unknown raw_param
    end.

(** [ParamUnrecognized::unmarshal], which [build_param] does not call. *)
Definition unmarshal_unrecognized (raw : bytes) : result Param :=
  header ← ParamHeader.unmarshal raw;
  raw_param ← param_value raw header;
  param ← build_param raw_param;
  Ok (ParamUnrecognized param).

(** ** Chunks (chunk/) *)

Definition CT_PAYLOAD_DATA : Z := 0.
Definition CT_INIT : Z := 1.
Definition CT_INIT_ACK : Z := 2.
Definition CT_SACK : Z := 3.
Definition CT_HEARTBEAT : Z := 4.
Definition CT_HEARTBEAT_ACK : Z := 5.
Definition CT_ABORT : Z := 6.
Definition CT_SHUTDOWN : Z := 7.
Definition CT_SHUTDOWN_ACK : Z := 8.
Definition CT_ERROR : Z := 9.
Definition CT_COOKIE_ECHO : Z := 10.
Definition CT_COOKIE_ACK : Z := 11.
Definition CT_SHUTDOWN_COMPLETE : Z := 14.
Definition CT_RECONFIG : Z := 130.
Definition CT_FORWARD_TSN : Z := 192.

Record ChunkHeader := mkChunkHeader { typ : Z; flags : Z; value_length : Z }.

Definition CHUNK_HEADER_SIZE : nat := 4.

Module ChunkHeader.
(** The padding after the chunk, [for i in (1..=length_after_value).rev()]. *)
Definition padding_is_zero (raw : bytes) (value_length length_after_value : nat) : result bool :=
  let fix go i :=
    match i with
    | O => Ok true
    | S i =>
        b ← bindex raw (CHUNK_HEADER_SIZE + (value_length + i));
        if b =? 0 then go i else Ok false
    end in
  go length_after_value.

Definition unmarshal (raw : bytes) : result ChunkHeader :=
  if (length raw <? CHUNK_HEADER_SIZE)%nat then Err ErrChunkHeaderTooSmall
  else
    '(typ, reader) ← get_u8 raw;
    '(flags, reader) ← get_u8 reader;
    '(len, _) ← get_u16 reader;
    if len <? Z.of_nat CHUNK_HEADER_SIZE then Err ErrChunkHeaderInvalidLength
    else if len >? Z.of_nat (length raw) then Err ErrChunkHeaderInvalidLength
    else
      let value_length := len - Z.of_nat CHUNK_HEADER_SIZE in
      let length_after_value := Z.of_nat (length raw) - len in
      if length_after_value <? 0 then Err ErrChunkHeaderNotEnoughSpace
      else
        ok ← (if length_after_value <? 4
              then padding_is_zero raw (Z.to_nat value_length) (Z.to_nat length_after_value)
              else Ok true);
        if (ok : bool) then Ok (mkChunkHeader typ flags value_length)
        else Err ErrChunkHeaderPaddingNonZero.

Definition marshal_to (h : ChunkHeader) (writer : bytes) : result bytes :=
  len ← lift (checked_u 16 (value_length h + Z.of_nat CHUNK_HEADER_SIZE));
  Ok (writer ++ put_u8 (typ h) ++ put_u8 (flags h) ++ put_u16 len).
End ChunkHeader.

(** The header a chunk of some type builds of itself, [self.value_length() as u16]. *)
Definition header_of (typ flags : Z) (value_length : nat) : ChunkHeader :=
  mkChunkHeader typ flags (as_u 16 (Z.of_nat value_length)).

(** [raw.slice(CHUNK_HEADER_SIZE..CHUNK_HEADER_SIZE + header.value_length())] *)
Definition chunk_end (h : ChunkHeader) : nat := CHUNK_HEADER_SIZE + Z.to_nat (value_length h).
Definition chunk_value (raw : bytes) (h : ChunkHeader) : result bytes :=
  bslice raw CHUNK_HEADER_SIZE (chunk_end h).

(** *** DATA *)

Inductive PayloadProtocolIdentifier := Dcep | PpiString | Binary | StringEmpty | BinaryEmpty | PpiUnknown.

#[export] Instance PayloadProtocolIdentifier_eq_dec : EqDecision PayloadProtocolIdentifier.
Proof. solve_decision. Defined.

Definition ppi_of_u32 (v : Z) : PayloadProtocolIdentifier :=
  match v with
  | 50 => Dcep | 51 => PpiString | 53 => Binary | 56 => StringEmpty | 57 => BinaryEmpty
  | _ => PpiUnknown
  end.

(** [payload_type as u32]; the last variant takes the next discriminant. *)
Definition u32_of_ppi (p : PayloadProtocolIdentifier) : Z :=
  match p with
  | Dcep => 50 | PpiString => 51 | Binary => 53 | StringEmpty => 56 | BinaryEmpty => 57
  | PpiUnknown => 58
  end.

(** [abandoned] and [all_inflight] are cells shared by all fragments of a message
    and by the copies of a chunk: [message_flags] names the pair of cells. *)
Record ChunkPayloadData := mkChunkPayloadData {
  unordered : bool;
  beginning_fragment : bool;
  ending_fragment : bool;
  immediate_sack : bool;
  tsn : Z;
  stream_identifier : Z;
  stream_sequence_number : Z;
  payload_type : PayloadProtocolIdentifier;
  user_data : bytes;
  acked : bool;
  miss_indicator : Z;
  since : Z;
  nsent : Z;
  message_flags : nat;
  retransmit : bool;
  udp_send_options : option UdpSendOptions }.

Definition PAYLOAD_DATA_ENDING_FRAGMENT_BITMASK : Z := 1.
Definition PAYLOAD_DATA_BEGINNING_FRAGMENT_BITMASK : Z := 2.
Definition PAYLOAD_DATA_UNORDERED_BITMASK : Z := 4.
Definition PAYLOAD_DATA_IMMEDIATE_SACK : Z := 8.
Definition PAYLOAD_DATA_HEADER_SIZE : nat := 12.

Module ChunkPayloadData.
Definition value_length (c : ChunkPayloadData) : nat :=
  PAYLOAD_DATA_HEADER_SIZE + length (user_data c).

Definition header (c : ChunkPayloadData) : ChunkHeader :=
  let flags := if ending_fragment c then 1 else 0 in
  let flags := if beginning_fragment c then Z.lor flags (Z.shiftl 1 1) else flags in
  let flags := if unordered c then Z.lor flags (Z.shiftl 1 2) else flags in
  let flags := if immediate_sack c then Z.lor flags (Z.shiftl 1 3) else flags in
  header_of CT_PAYLOAD_DATA flags (value_length c).

(** A chunk as it comes from the network at [now], with cells of its own. *)
Definition unmarshal (now : Z) (raw : bytes) : result ChunkPayloadData :=
  header ← ChunkHeader.unmarshal raw;
  if negb (typ header =? CT_PAYLOAD_DATA) then Err ErrChunkTypeNotPayloadData
  else
    let immediate_sack := negb (Z.land (flags header) PAYLOAD_DATA_IMMEDIATE_SACK =? 0) in
    let unordered := negb (Z.land (flags header) PAYLOAD_DATA_UNORDERED_BITMASK =? 0) in
    let beginning_fragment :=
      negb (Z.land (flags header) PAYLOAD_DATA_BEGINNING_FRAGMENT_BITMASK =? 0) in
    let ending_fragment := negb (Z.land (flags header) PAYLOAD_DATA_ENDING_FRAGMENT_BITMASK =? 0) in
    if SctpWire.value_length header <? Z.of_nat PAYLOAD_DATA_HEADER_SIZE
    then Err ErrChunkPayloadSmall
    else
      reader ← chunk_value raw header;
      '(tsn, reader) ← get_u32 reader;
      '(stream_identifier, reader) ← get_u16 reader;
      '(stream_sequence_number, reader) ← get_u16 reader;
      '(payload_type, _) ← get_u32 reader;
      user_data ← bslice raw (CHUNK_HEADER_SIZE + PAYLOAD_DATA_HEADER_SIZE) (chunk_end header);
      Ok (mkChunkPayloadData unordered beginning_fragment ending_fragment immediate_sack tsn
            stream_identifier stream_sequence_number (ppi_of_u32 payload_type) user_data
            false 0 now 0 0 false None).

Definition marshal_to (c : ChunkPayloadData) (writer : bytes) : result bytes :=
  writer ← ChunkHeader.marshal_to (header c) writer;
  Ok (writer ++ put_u32 (tsn c) ++ put_u16 (stream_identifier c)
        ++ put_u16 (stream_sequence_number c) ++ put_u32 (u32_of_ppi (payload_type c))
        ++ user_data c).
End ChunkPayloadData.

(** *** INIT and INIT ACK *)

Record ChunkInit := mkChunkInit {
  is_ack : bool;
  initiate_tag : Z;
  advertised_receiver_window_credit : Z;
  num_outbound_streams : Z;
  num_inbound_streams : Z;
  initial_tsn : Z;
  params : list Param }.

Definition INIT_CHUNK_MIN_LENGTH : nat := 16.
Definition INIT_OPTIONAL_VAR_HEADER_LENGTH : nat := 4.

(** Parameters one after the other, all but the last one padded. *)
Fixpoint params_length (ps : list Param) : nat :=
  match ps with
  | [] => 0
  | [p] => PARAM_HEADER_LENGTH + Param.value_length p
  | p :: ps =>
      let p_len := (PARAM_HEADER_LENGTH + Param.value_length p)%nat in
      (p_len + get_padding_size p_len + params_length ps)%nat
  end.

Fixpoint marshal_params (ps : list Param) (writer : bytes) : result bytes :=
  match ps with
  | [] => Ok writer
  | [p] => pp ← Param.marshal p; Ok (writer ++ pp)
  | p :: ps =>
      pp ← Param.marshal p;
      marshal_params ps (writer ++ pp ++ replicate (get_padding_size (length pp)) 0)
  end.

Module ChunkInit.
Definition value_length (c : ChunkInit) : nat := (4 + 4 + 2 + 2 + 4) + params_length (params c).

Definition header (c : ChunkInit) : ChunkHeader :=
  header_of (if is_ack c then CT_INIT_ACK else CT_INIT) 0 (value_length c).

(** The loop over the parameters; [remaining] counts to the end of the packet. *)
Fixpoint read_params (fuel : nat) (raw : bytes) (header : ChunkHeader) (offset : nat) (remaining : Z)
    : result (list Param) :=
  if remaining <? Z.of_nat INIT_OPTIONAL_VAR_HEADER_LENGTH then Ok []
  else
    match fuel with
    | O => NoFuel
    | S fuel =>
        raw_param ← bslice raw offset (chunk_end header);
        p ← build_param raw_param;
        let p_len := (PARAM_HEADER_LENGTH + Param.value_length p)%nat in
        let len_plus_padding := (p_len + get_padding_size p_len)%nat in
        rest ← read_params fuel raw header (offset + len_plus_padding)
                 (remaining - Z.of_nat len_plus_padding);
        Ok (p :: rest)
    end.

Definition unmarshal (raw : bytes) : result ChunkInit :=
  header ← ChunkHeader.unmarshal raw;
  if negb ((typ header =? CT_INIT) || (typ header =? CT_INIT_ACK)) then Err ErrChunkTypeNotTypeInit
  else if SctpWire.value_length header <? Z.of_nat INIT_CHUNK_MIN_LENGTH
  then Err ErrChunkValueNotLongEnough
  else if negb (flags header =? 0) then Err ErrChunkTypeInitFlagZero
  else
    reader ← chunk_value raw header;
    '(initiate_tag, reader) ← get_u32 reader;
    '(credit, reader) ← get_u32 reader;
    '(num_outbound_streams, reader) ← get_u16 reader;
    '(num_inbound_streams, reader) ← get_u16 reader;
    '(initial_tsn, _) ← get_u32 reader;
    let offset := (CHUNK_HEADER_SIZE + INIT_CHUNK_MIN_LENGTH)%nat in
    params ← read_params (length raw) raw header offset
               (Z.of_nat (length raw) - Z.of_nat offset);
    Ok (mkChunkInit (typ header =? CT_INIT_ACK) initiate_tag credit num_outbound_streams
          num_inbound_streams initial_tsn params).

Definition marshal_to (c : ChunkInit) (writer : bytes) : result bytes :=
  writer ← ChunkHeader.marshal_to (header c) writer;
  marshal_params (params c)
    (writer ++ put_u32 (initiate_tag c) ++ put_u32 (advertised_receiver_window_credit c)
       ++ put_u16 (num_outbound_streams c) ++ put_u16 (num_inbound_streams c)
       ++ put_u32 (initial_tsn c)).

Definition check (c : ChunkInit) : result unit :=
  if initiate_tag c =? 0 then Err ErrChunkTypeInitInitiateTagZero
  else if num_inbound_streams c =? 0 then Err ErrInitInboundStreamRequestZero
  else if num_outbound_streams c =? 0 then Err ErrInitOutboundStreamRequestZero
  else if advertised_receiver_window_credit c <? 1500 then Err ErrInitAdvertisedReceiver1500
  else Ok tt.

Definition set_supported_extensions (c : ChunkInit) : ChunkInit :=
  mkChunkInit (is_ack c) (initiate_tag c) (advertised_receiver_window_credit c)
    (num_outbound_streams c) (num_inbound_streams c) (initial_tsn c)
    (params c ++ [ParamSupportedExtensions [CT_RECONFIG; CT_FORWARD_TSN]]).
End ChunkInit.

(** *** SACK *)

Record GapAckBlock := mkGapAckBlock { gap_start : Z; gap_end : Z }.

#[export] Instance GapAckBlock_eq_dec : EqDecision GapAckBlock.
Proof. solve_decision. Defined.

Record ChunkSelectiveAck := mkChunkSelectiveAck {
  cumulative_tsn_ack : Z;
  sack_receiver_window_credit : Z;
  gap_ack_blocks : list GapAckBlock;
  duplicate_tsn : list Z }.

Definition SELECTIVE_ACK_HEADER_SIZE : nat := 12.

Fixpoint read_gaps (n : nat) (reader : bytes) : result (list GapAckBlock * bytes) :=
  match n with
  | O => Ok ([], reader)
  | S n =>
      '(start, reader) ← get_u16 reader;
      '(fin, reader) ← get_u16 reader;
      '(gaps, reader) ← read_gaps n reader;
      Ok (mkGapAckBlock start fin :: gaps, reader)
  end.

Module ChunkSelectiveAck.
Definition value_length (c : ChunkSelectiveAck) : nat :=
  SELECTIVE_ACK_HEADER_SIZE + length (gap_ack_blocks c) * 4 + length (duplicate_tsn c) * 4.

Definition header (c : ChunkSelectiveAck) : ChunkHeader := header_of CT_SACK 0 (value_length c).

Definition unmarshal (raw : bytes) : result ChunkSelectiveAck :=
  header ← ChunkHeader.unmarshal raw;
  if negb (typ header =? CT_SACK) then Err ErrChunkTypeNotSack
  else if SctpWire.value_length header <? Z.of_nat SELECTIVE_ACK_HEADER_SIZE
  then Err ErrSackSizeNotLargeEnoughInfo
  else
    reader ← chunk_value raw header;
    '(tsn, reader) ← get_u32 reader;
    '(credit, reader) ← get_u32 reader;
    '(gaps_len, reader) ← get_u16 reader;
    '(dups_len, reader) ← get_u16 reader;
    if SctpWire.value_length header
         <? Z.of_nat SELECTIVE_ACK_HEADER_SIZE + (4 * gaps_len + 4 * dups_len)
    then Err ErrSackSizeNotLargeEnoughInfo
    else
      '(gaps, reader) ← read_gaps (Z.to_nat gaps_len) reader;
      '(dups, _) ← read_u32s (Z.to_nat dups_len) reader;
      Ok (mkChunkSelectiveAck tsn credit gaps dups).

Definition marshal_to (c : ChunkSelectiveAck) (writer : bytes) : result bytes :=
  writer ← ChunkHeader.marshal_to (header c) writer;
  Ok (writer ++ put_u32 (cumulative_tsn_ack c) ++ put_u32 (sack_receiver_window_credit c)
        ++ put_u16 (as_u 16 (Z.of_nat (length (gap_ack_blocks c))))
        ++ put_u16 (as_u 16 (Z.of_nat (length (duplicate_tsn c))))
        ++ concat (map (fun g => put_u16 (gap_start g) ++ put_u16 (gap_end g)) (gap_ack_blocks c))
        ++ concat (map put_u32 (duplicate_tsn c))).
End ChunkSelectiveAck.

(** *** FORWARD TSN *)

Record ChunkForwardTsnStream := mkChunkForwardTsnStream { identifier : Z; sequence : Z }.

Record ChunkForwardTsn := mkChunkForwardTsn {
  new_cumulative_tsn : Z;
  streams : list ChunkForwardTsnStream }.

Definition NEW_CUMULATIVE_TSN_LENGTH : nat := 4.
Definition FORWARD_TSN_STREAM_LENGTH : nat := 4.

Module ChunkForwardTsnStream.
Definition unmarshal (buf : bytes) : result ChunkForwardTsnStream :=
  if (length buf <? FORWARD_TSN_STREAM_LENGTH)%nat then Err ErrChunkTooShort
  else
    '(identifier, reader) ← get_u16 buf;
    '(sequence, _) ← get_u16 reader;
    Ok (mkChunkForwardTsnStream identifier sequence).

Definition marshal (s : ChunkForwardTsnStream) : bytes :=
  put_u16 (identifier s) ++ put_u16 (sequence s).
End ChunkForwardTsnStream.

Module ChunkForwardTsn.
Definition value_length (c : ChunkForwardTsn) : nat :=
  NEW_CUMULATIVE_TSN_LENGTH + FORWARD_TSN_STREAM_LENGTH * length (streams c).

Definition header (c : ChunkForwardTsn) : ChunkHeader :=
  header_of CT_FORWARD_TSN 0 (value_length c).

(** [while remaining > 0]; the subtraction from [remaining] is checked. *)
Fixpoint read_streams (fuel : nat) (buf : bytes) (header : ChunkHeader) (offset remaining : nat)
    : result (list ChunkForwardTsnStream) :=
  if (remaining =? 0)%nat then Ok []
  else if (offset =? chunk_end header)%nat then Ok []
  else
    match fuel with
    | O => NoFuel
    | S fuel =>
        rest ← bslice buf offset (chunk_end header);
        s ← ChunkForwardTsnStream.unmarshal rest;
        remaining ← lift (checked_u 64 (Z.of_nat remaining - Z.of_nat FORWARD_TSN_STREAM_LENGTH));
        ss ← read_streams fuel buf header (offset + FORWARD_TSN_STREAM_LENGTH) (Z.to_nat remaining);
        Ok (s :: ss)
    end.

Definition unmarshal (buf : bytes) : result ChunkForwardTsn :=
  header ← ChunkHeader.unmarshal buf;
  if negb (typ header =? CT_FORWARD_TSN) then Err ErrChunkTypeNotForwardTsn
  else
    let offset := (CHUNK_HEADER_SIZE + NEW_CUMULATIVE_TSN_LENGTH)%nat in
    if (length buf <? offset)%nat then Err ErrChunkTooShort
    else
      reader ← chunk_value buf header;
      '(tsn, _) ← get_u32 reader;
      streams ← read_streams (length buf) buf header offset (length buf - offset);
      Ok (mkChunkForwardTsn tsn streams).

Definition marshal_to (c : ChunkForwardTsn) (writer : bytes) : result bytes :=
  writer ← ChunkHeader.marshal_to (header c) writer;
  Ok (writer ++ put_u32 (new_cumulative_tsn c)
        ++ concat (map ChunkForwardTsnStream.marshal (streams c))).
End ChunkForwardTsn.

(** *** RE-CONFIG *)

Record ChunkReconfig := mkChunkReconfig { param_a : option Param; param_b : option Param }.

Module ChunkReconfig.
Definition value_length (c : ChunkReconfig) : nat :=
  let a_length := match param_a c with Some p => Param.value_length p | None => 0%nat end in
  let l := (PARAM_HEADER_LENGTH + a_length)%nat in
  match param_b c with
  | Some p =>
      (l + (PARAM_HEADER_LENGTH + Param.value_length p
            + get_padding_size (PARAM_HEADER_LENGTH + a_length)))%nat
  | None => l
  end.

Definition header (c : ChunkReconfig) : ChunkHeader := header_of CT_RECONFIG 0 (value_length c).

Definition unmarshal (raw : bytes) : result ChunkReconfig :=
  header ← ChunkHeader.unmarshal raw;
  if negb (typ header =? CT_RECONFIG) then Err ErrChunkTypeNotReconfig
  else
    raw_a ← chunk_value raw header;
    param_a ← build_param raw_a;
    let padding := get_padding_size (PARAM_HEADER_LENGTH + Param.value_length param_a) in
    let offset :=
      (CHUNK_HEADER_SIZE + PARAM_HEADER_LENGTH + Param.value_length param_a + padding)%nat in
    if (offset <? chunk_end header)%nat then
      raw_b ← bslice raw offset (chunk_end header);
      param_b ← build_param raw_b;
      Ok (mkChunkReconfig (Some param_a) (Some param_b))
    else Ok (mkChunkReconfig (Some param_a) None).

Definition marshal_to (c : ChunkReconfig) (writer : bytes) : result bytes :=
  writer ← ChunkHeader.marshal_to (header c) writer;
  match param_a c with
  | None => Err ErrChunkReconfigInvalidParamA
  | Some a =>
      pa ← Param.marshal a;
      match param_b c with
      | None => Ok (writer ++ pa)
      | Some b =>
          let padding := get_padding_size (PARAM_HEADER_LENGTH + Param.value_length a) in
          pb ← Param.marshal b;
          Ok (writer ++ pa ++ replicate padding 0 ++ pb)
      end
  end.
End ChunkReconfig.

(** *** ABORT and ERROR (error_cause.rs) *)

Record ErrorCause := mkErrorCause { code : Z; raw_cause : bytes }.

Definition UNRECOGNIZED_CHUNK_TYPE : Z := 6.
Definition ERROR_CAUSE_HEADER_LENGTH : nat := 4.

Module ErrorCause.
Definition cause_length (e : ErrorCause) : nat := length (raw_cause e) + ERROR_CAUSE_HEADER_LENGTH.

Definition unmarshal (buf : bytes) : result ErrorCause :=
  if (length buf <? ERROR_CAUSE_HEADER_LENGTH)%nat then Err ErrErrorCauseTooSmall
  else
    '(code, reader) ← get_u16 buf;
    '(len, _) ← get_u16 reader;
    if len <? Z.of_nat ERROR_CAUSE_HEADER_LENGTH then Err ErrErrorCauseTooSmall
    else if Z.of_nat (length buf) <? len then Err ErrErrorCauseTooSmall
    else
      raw ← bslice buf ERROR_CAUSE_HEADER_LENGTH (Z.to_nat len);
      Ok (mkErrorCause code raw).

Definition marshal (e : ErrorCause) : bytes :=
  put_u16 (code e) ++ put_u16 (as_u 16 (Z.of_nat (cause_length e))) ++ raw_cause e.

(** [while offset + 4 <= raw.len()], as both chunks read their causes. *)
Fixpoint read_all (fuel : nat) (raw : bytes) (header : ChunkHeader) (offset : nat)
    : result (list ErrorCause) :=
  if (length raw <? offset + 4)%nat then Ok []
  else
    match fuel with
    | O => NoFuel
    | S fuel =>
        rest ← bslice raw offset (chunk_end header);
        e ← unmarshal rest;
        es ← read_all fuel raw header (offset + cause_length e);
        Ok (e :: es)
    end.
End ErrorCause.

Definition causes_length (es : list ErrorCause) : nat :=
  foldr (fun e n => (ErrorCause.cause_length e + n)%nat) 0%nat es.

Module ChunkAbort.
Definition unmarshal (raw : bytes) : result (list ErrorCause) :=
  header ← ChunkHeader.unmarshal raw;
  if negb (typ header =? CT_ABORT) then Err ErrChunkTypeNotAbort
  else ErrorCause.read_all (length raw) raw header CHUNK_HEADER_SIZE.

Definition marshal_to (es : list ErrorCause) (writer : bytes) : result bytes :=
  writer ← ChunkHeader.marshal_to (header_of CT_ABORT 0 (causes_length es)) writer;
  Ok (writer ++ concat (map ErrorCause.marshal es)).
End ChunkAbort.

Module ChunkError.
Definition unmarshal (raw : bytes) : result (list ErrorCause) :=
  header ← ChunkHeader.unmarshal raw;
  if negb (typ header =? CT_ERROR) then Err ErrChunkTypeNotCtError
  else ErrorCause.read_all (length raw) raw header CHUNK_HEADER_SIZE.

Definition marshal_to (es : list ErrorCause) (writer : bytes) : result bytes :=
  writer ← ChunkHeader.marshal_to (header_of CT_ERROR 0 (causes_length es)) writer;
  Ok (writer ++ concat (map ErrorCause.marshal es)).
End ChunkError.

(** *** HEARTBEAT and its acknowledgement *)

Module ChunkHeartbeat.
Definition value_length (ps : list Param) : nat :=
  foldr (fun p n => (PARAM_HEADER_LENGTH + Param.value_length p + n)%nat) 0%nat ps.

Definition unmarshal (raw : bytes) : result (list Param) :=
  header ← ChunkHeader.unmarshal raw;
  if negb (typ header =? CT_HEARTBEAT) then Err ErrChunkTypeNotHeartbeat
  else if (length raw <=? CHUNK_HEADER_SIZE)%nat then Err ErrHeartbeatNotLongEnoughInfo
  else
    raw_param ← chunk_value raw header;
    p ← build_param raw_param;
    if bool_decide (Param.typ p = HeartbeatInfo) then Ok [p] else Err ErrHeartbeatParam.

Fixpoint marshal_all (ps : list Param) (writer : bytes) : result bytes :=
  match ps with
  | [] => Ok writer
  | p :: ps => pp ← Param.marshal p; marshal_all ps (writer ++ pp)
  end.

Definition marshal_to (ps : list Param) (writer : bytes) : result bytes :=
  writer ← ChunkHeader.marshal_to (header_of CT_HEARTBEAT 0 (value_length ps)) writer;
  marshal_all ps writer.
End ChunkHeartbeat.

Module ChunkHeartbeatAck.
(** Not called for a packet: its chunks of this type are kept as unknown ones. *)
Definition unmarshal (raw : bytes) : result (list Param) :=
  header ← ChunkHeader.unmarshal raw;
  if negb (typ header =? CT_HEARTBEAT_ACK) then Err ErrChunkTypeNotHeartbeatAck
  else if (length raw <=? CHUNK_HEADER_SIZE)%nat then Err ErrHeartbeatNotLongEnoughInfo
  else
    raw_param ← chunk_value raw header;
    p ← build_param raw_param;
    if bool_decide (Param.typ p = HeartbeatInfo) then Ok [p] else Err ErrHeartbeatParam.

Definition marshal_to (ps : list Param) (writer : bytes) : result bytes :=
  match ps with
  | [p] =>
      if bool_decide (Param.typ p = HeartbeatInfo) then
        writer ← ChunkHeader.marshal_to (header_of CT_HEARTBEAT_ACK 0 (params_length ps)) writer;
        marshal_params ps writer
      else Err ErrHeartbeatAckNotHeartbeatInfo
  | _ => Err ErrHeartbeatAckParams
  end.
End ChunkHeartbeatAck.

(** *** The chunks without structure *)

Definition CUMULATIVE_TSN_ACK_LENGTH : nat := 4.

Module ChunkCookieEcho.
Definition unmarshal (raw : bytes) : result bytes :=
  header ← ChunkHeader.unmarshal raw;
  if negb (typ header =? CT_COOKIE_ECHO) then Err ErrChunkTypeNotCookieEcho
  else chunk_value raw header.

Definition marshal_to (cookie writer : bytes) : result bytes :=
  writer ← ChunkHeader.marshal_to (header_of CT_COOKIE_ECHO 0 (length cookie)) writer;
  Ok (writer ++ cookie).
End ChunkCookieEcho.

Module ChunkShutdown.
Definition unmarshal (raw : bytes) : result Z :=
  header ← ChunkHeader.unmarshal raw;
  if negb (typ header =? CT_SHUTDOWN) then Err ErrChunkTypeNotShutdown
  else if negb (length raw =? CHUNK_HEADER_SIZE + CUMULATIVE_TSN_ACK_LENGTH)%nat
  then Err ErrInvalidChunkSize
  else
    reader ← chunk_value raw header;
    '(cumulative_tsn_ack, _) ← get_u32 reader;
    Ok cumulative_tsn_ack.

Definition marshal_to (cumulative_tsn_ack : Z) (writer : bytes) : result bytes :=
  writer ← ChunkHeader.marshal_to (header_of CT_SHUTDOWN 0 CUMULATIVE_TSN_ACK_LENGTH) writer;
  Ok (writer ++ put_u32 cumulative_tsn_ack).
End ChunkShutdown.

(** COOKIE ACK, SHUTDOWN ACK and SHUTDOWN COMPLETE have a header only. *)
Definition unmarshal_empty (ct : Z) (wrong_type : Error) (raw : bytes) : result unit :=
  header ← ChunkHeader.unmarshal raw;
  if negb (typ header =? ct) then Err wrong_type else Ok tt.

Definition marshal_empty (ct : Z) (writer : bytes) : result bytes :=
  ChunkHeader.marshal_to (header_of ct 0 0) writer.

Module ChunkUnknown.
Definition unmarshal (raw : bytes) : result (ChunkHeader * bytes) :=
  header ← ChunkHeader.unmarshal raw;
  value ← chunk_value raw header;
  Ok (header, value).

Definition marshal_to (hdr : ChunkHeader) (value writer : bytes) : result bytes :=
  writer ← ChunkHeader.marshal_to hdr writer;
  Ok (writer ++ value).
End ChunkUnknown.

(** [Box<dyn Chunk>]: one constructor per implementation of the trait. *)
Inductive Chunk :=
  | CInit (c : ChunkInit)
  | CAbort (error_causes : list ErrorCause)
  | CError (error_causes : list ErrorCause)
  | CHeartbeat (params : list Param)
  | CHeartbeatAck (params : list Param)
  | CCookieEcho (cookie : bytes)
  | CCookieAck
  | CData (c : ChunkPayloadData)
  | CSack (c : ChunkSelectiveAck)
  | CReconfig (c : ChunkReconfig)
  | CForwardTsn (c : ChunkForwardTsn)
  | CShutdown (cumulative_tsn_ack : Z)
  | CShutdownAck
  | CShutdownComplete
  | CUnknown (hdr : ChunkHeader) (value : bytes).

Module Chunk.
Definition value_length (c : Chunk) : nat :=
  match c with
  | CInit c => ChunkInit.value_length c
  | CAbort es | CError es => causes_length es
  | CHeartbeat ps => ChunkHeartbeat.value_length ps
  | CHeartbeatAck ps => params_length ps
  | CCookieEcho cookie => length cookie
  | CCookieAck | CShutdownAck | CShutdownComplete => 0
  | CData c => ChunkPayloadData.value_length c
  | CSack c => ChunkSelectiveAck.value_length c
  | CReconfig c => ChunkReconfig.value_length c
  | CForwardTsn c => ChunkForwardTsn.value_length c
  | CShutdown _ => CUMULATIVE_TSN_ACK_LENGTH
  | CUnknown _ value => length value
  end.

Definition marshal_to (c : Chunk) (writer : bytes) : result bytes :=
  match c with
  | CInit c => ChunkInit.marshal_to c writer
  | CAbort es => ChunkAbort.marshal_to es writer
  | CError es => ChunkError.marshal_to es writer
  | CHeartbeat ps => ChunkHeartbeat.marshal_to ps writer
  | CHeartbeatAck ps => ChunkHeartbeatAck.marshal_to ps writer
  | CCookieEcho cookie => ChunkCookieEcho.marshal_to cookie writer
  | CCookieAck => marshal_empty CT_COOKIE_ACK writer
  | CData c => ChunkPayloadData.marshal_to c writer
  | CSack c => ChunkSelectiveAck.marshal_to c writer
  | CReconfig c => ChunkReconfig.marshal_to c writer
  | CForwardTsn c => ChunkForwardTsn.marshal_to c writer
  | CShutdown tsn => ChunkShutdown.marshal_to tsn writer
  | CShutdownAck => marshal_empty CT_SHUTDOWN_ACK writer
  | CShutdownComplete => marshal_empty CT_SHUTDOWN_COMPLETE writer
  | CUnknown hdr value => ChunkUnknown.marshal_to hdr value writer
  end.

Definition check (c : Chunk) : result unit :=
  match c with CInit c => ChunkInit.check c | _ => Ok tt end.
End Chunk.

(** ** Packets (packet.rs) *)

Record Packet := mkPacket {
  source_port : Z;
  destination_port : Z;
  verification_tag : Z;
  chunks : list Chunk;
  packet_udp_options : option UdpSendOptions }.

Definition PACKET_HEADER_SIZE : nat := 12.

Module Packet.
Section crc.
  (** [ISCSI_CRC]: the digest of everything fed to it. *)
  Context (crc32c : bytes -> Z).

Definition generate_packet_checksum (raw : bytes) : result Z :=
  head ← bslice raw 0 8;
  tail ← bslice_from raw 12;
  Ok (crc32c (head ++ [0; 0; 0; 0] ++ tail)).

(** The [match ct] of the loop. *)
Definition unmarshal_chunk (now : Z) (ct : Z) (raw : bytes) : result Chunk :=
  if ct =? CT_INIT then c ← ChunkInit.unmarshal raw; Ok (CInit c)
  else if ct =? CT_INIT_ACK then c ← ChunkInit.unmarshal raw; Ok (CInit c)
  else if ct =? CT_ABORT then es ← ChunkAbort.unmarshal raw; Ok (CAbort es)
  else if ct =? CT_COOKIE_ECHO then cookie ← ChunkCookieEcho.unmarshal raw; Ok (CCookieEcho cookie)
  else if ct =? CT_COOKIE_ACK then
    _ ← unmarshal_empty CT_COOKIE_ACK ErrChunkTypeNotCookieAck raw; Ok CCookieAck
  else if ct =? CT_HEARTBEAT then ps ← ChunkHeartbeat.unmarshal raw; Ok (CHeartbeat ps)
  else if ct =? CT_PAYLOAD_DATA then c ← ChunkPayloadData.unmarshal now raw; Ok (CData c)
  else if ct =? CT_SACK then c ← ChunkSelectiveAck.unmarshal raw; Ok (CSack c)
  else if ct =? CT_RECONFIG then c ← ChunkReconfig.unmarshal raw; Ok (CReconfig c)
  else if ct =? CT_FORWARD_TSN then c ← ChunkForwardTsn.unmarshal raw; Ok (CForwardTsn c)
  else if ct =? CT_ERROR then es ← ChunkError.unmarshal raw; Ok (CError es)
  else if ct =? CT_SHUTDOWN then tsn ← ChunkShutdown.unmarshal raw; Ok (CShutdown tsn)
  else if ct =? CT_SHUTDOWN_ACK then
    _ ← unmarshal_empty CT_SHUTDOWN_ACK ErrChunkTypeNotShutdownAck raw; Ok CShutdownAck
  else if ct =? CT_SHUTDOWN_COMPLETE then
    _ ← unmarshal_empty CT_SHUTDOWN_COMPLETE ErrChunkTypeNotShutdownComplete raw;
    Ok CShutdownComplete
  else hv ← ChunkUnknown.unmarshal raw; Ok (CUnknown hv.1 hv.2).

(** The loop over the chunks; its check for an empty rest comes after one for four
    bytes and never holds. *)
Fixpoint unmarshal_chunks (fuel : nat) (now : Z) (raw : bytes) (offset : nat) : result (list Chunk) :=
  if (offset =? length raw)%nat then Ok []
  else if (length raw <? offset + CHUNK_HEADER_SIZE)%nat then Err ErrParseSctpChunkNotEnoughData
  else
    match fuel with
    | O => NoFuel
    | S fuel =>
        ct ← bindex raw offset;
        rest ← bslice_from raw offset;
        c ← unmarshal_chunk now ct rest;
        let chunk_value_padding := get_padding_size (Chunk.value_length c) in
        cs ← unmarshal_chunks fuel now raw
               (offset + (CHUNK_HEADER_SIZE + Chunk.value_length c + chunk_value_padding));
        Ok (c :: cs)
    end.

Definition unmarshal (now : Z) (raw : bytes) : result Packet :=
  if (length raw <? PACKET_HEADER_SIZE)%nat then Err ErrPacketRawTooSmall
  else
    '(source_port, reader) ← get_u16 raw;
    '(destination_port, reader) ← get_u16 reader;
    '(verification_tag, reader) ← get_u32 reader;
    '(their_checksum, _) ← get_u32_le reader;
    our_checksum ← generate_packet_checksum raw;
    if negb (their_checksum =? our_checksum) then Err ErrChecksumMismatch
    else
      chunks ← unmarshal_chunks (length raw) now raw PACKET_HEADER_SIZE;
      Ok (mkPacket source_port destination_port verification_tag chunks None).

Fixpoint marshal_chunks (cs : list Chunk) (writer : bytes) : result bytes :=
  match cs with
  | [] => Ok writer
  | c :: cs =>
      writer ← Chunk.marshal_to c writer;
      marshal_chunks cs (writer ++ replicate (get_padding_size (length writer)) 0)
  end.

Definition marshal_to (p : Packet) (writer : bytes) : result bytes :=
  let writer :=
    writer ++ put_u16 (source_port p) ++ put_u16 (destination_port p)
      ++ put_u32 (verification_tag p) in
  let checksum_pos := length writer in
  writer ← marshal_chunks (chunks p) (writer ++ [0; 0; 0; 0]);
  let checksum := crc32c writer in
  Ok (take checksum_pos writer ++ to_le_bytes 4 checksum ++ drop (checksum_pos + 4) writer).

Definition marshal (p : Packet) : result bytes := marshal_to p [].
End crc.

Definition check_packet (p : Packet) : result unit :=
  if source_port p =? 0 then Err ErrSctpPacketSourcePortZero
  else if destination_port p =? 0 then Err ErrSctpPacketDestinationPortZero
  else
    let fix go cs :=
      match cs with
      | [] => Ok tt
      | CInit ci :: cs =>
          if negb (is_ack ci) then
            if negb (length (chunks p) =? 1)%nat then Err ErrInitChunkBundled
            else if negb (verification_tag p =? 0) then Err ErrInitChunkVerifyTagNotZero
            else go cs
          else go cs
      | _ :: cs => go cs
      end in
    go (chunks p).
End Packet.

(** ** Well-formed parameters and chunks, and their bytes *)

Definition param_value_bytes (p : Param) : bytes :=
  match p with
  | ParamHeartbeatInfo data | ParamStateCookie data | ParamRandom data => data
  | ParamSupportedExtensions types | ParamChunkList types => types
  | ParamRequestedHmacAlgorithm algorithms =>
      concat (map (fun a => put_u16 (u16_of_HmacAlgorithm a)) algorithms)
  | ParamOutgoingReset r =>
      put_u32 (reconfig_request_sequence_number r) ++ put_u32 (reconfig_response_sequence_number r)
        ++ put_u32 (sender_last_tsn r) ++ concat (map put_u16 (stream_identifiers r))
  | ParamReconfigResponse n result => put_u32 n ++ put_u32 (u32_of_ReconfigResult result)
  | ParamUnknown _ value => value
  | ParamForwardTsnSupported | ParamUnrecognized _ => []
  end.

Definition param_bytes (p : Param) : bytes :=
  put_u16 (u16_of_ParamType (Param.typ p)) ++ put_u16 (Z.of_nat (Param.value_length p) + 4)
    ++ param_value_bytes p.

(** The types [build_param] hands to a decoder of their own. *)
Definition handled (t : ParamType) : bool :=
  match t with
  | ForwardTsnSupp | SupportedExt | Random | ReqHmacAlgo | ChunkList | StateCookie | HeartbeatInfo
  | OutSsnResetReq | ReconfigResp => true
  | _ => false
  end.

Definition wf_param (p : Param) : Prop :=
  Z.of_nat (Param.value_length p) + 4 < 2 ^ 16
  /\ match p with
     | ParamRequestedHmacAlgorithm l => Forall (fun a => a = HmacSha128 \/ a = HmacSha256) l
     | ParamOutgoingReset r =>
         is_u 32 (reconfig_request_sequence_number r)
         /\ is_u 32 (reconfig_response_sequence_number r) /\ is_u 32 (sender_last_tsn r)
         /\ Forall (is_u 16) (stream_identifiers r)
     | ParamReconfigResponse n _ => is_u 32 n
     | ParamUnknown t _ => 2 ^ 15 <= t < 2 ^ 16 /\ handled (ParamType_of_u16 t) = false
     | ParamUnrecognized _ => False
     | _ => True
     end.

Lemma ParamType_of_u16_inv t : u16_of_ParamType (ParamType_of_u16 t) = t.
Proof.
  unfold ParamType_of_u16.
  repeat match goal with
  | |- context [match ?z with _ => _ end] => is_var z; destruct z; try reflexivity
  end.
Qed.

Lemma length_put_u16 z : length (put_u16 z) = 2%nat.
Proof. apply length_to_be_bytes. Qed.
Lemma length_put_u32 z : length (put_u32 z) = 4%nat.
Proof. apply length_to_be_bytes. Qed.

Lemma get_put_u16 z rest : is_u 16 z -> @get_u16 Error (put_u16 z ++ rest) = Ok (z, rest).
Proof. apply get_u16_app. Qed.
Lemma get_put_u32 z rest : is_u 32 z -> @get_u32 Error (put_u32 z ++ rest) = Ok (z, rest).
Proof. apply get_u32_app. Qed.

Lemma length_concat_put_u16 {A} (f : A -> Z) l :
  length (concat (map (fun a => put_u16 (f a)) l)) = (2 * length l)%nat.
Proof. induction l as [|a l IH]; [done|]. cbn [map concat length]. rewrite length_app, IH, length_put_u16. lia. Qed.

Lemma length_concat_put_u32 l : length (concat (map put_u32 l)) = (4 * length l)%nat.
Proof. induction l as [|a l IH]; [done|]. cbn [map concat length]. rewrite length_app, IH, length_put_u32. lia. Qed.

Lemma length_param_value_bytes p :
  wf_param p -> length (param_value_bytes p) = Param.value_length p.
Proof.
  intros [_ Hp]. destruct p; try reflexivity; cbn [param_value_bytes Param.value_length].
  - apply length_concat_put_u16.
  - rewrite !length_app, !length_put_u32, (length_concat_put_u16 (fun z => z)).
    unfold PARAM_OUTGOING_RESET_REQUEST_STREAM_IDENTIFIERS_OFFSET. lia.
  - contradiction.
Qed.

Lemma length_param_bytes p :
  wf_param p -> length (param_bytes p) = (PARAM_HEADER_LENGTH + Param.value_length p)%nat.
Proof.
  intros Hp. unfold param_bytes. rewrite !length_app, !length_put_u16, length_param_value_bytes by done.
  reflexivity.
Qed.

(** ** Parameters are read back *)

Lemma param_typ_is_u p : wf_param p -> is_u 16 (u16_of_ParamType (Param.typ p)).
Proof.
  intros [_ Hp]. unfold is_u. destruct p; simpl in *; try lia.
Qed.

Lemma param_header_read p rest :
  wf_param p ->
  ParamHeader.unmarshal (param_bytes p ++ rest)
  = Ok (mkParamHeader (ParamType_of_u16 (u16_of_ParamType (Param.typ p)))
          (Z.of_nat (Param.value_length p))).
Proof.
  intros Hp. pose proof (length_param_bytes p Hp) as Hl. pose proof (param_typ_is_u p Hp) as Ht.
  destruct Hp as [Hlen _]. unfold ParamHeader.unmarshal.
  rewrite length_app, Hl. unfold PARAM_HEADER_LENGTH.
  rewrite (proj2 (Nat.ltb_ge _ _)) by lia.
  unfold param_bytes. rewrite <-!(assoc_L (++)), get_put_u16 by done. rewrite bind_Ok.
  rewrite get_put_u16 by (unfold is_u; lia). rewrite bind_Ok.
  rewrite !(proj2 (Nat.ltb_ge _ _)) by lia. cbn [orb].
  rewrite as_u_small by (unfold is_u; lia). do 2 f_equal. lia.
Qed.

Lemma param_value_read p t rest :
  wf_param p ->
  param_value (param_bytes p ++ rest) (mkParamHeader t (Z.of_nat (Param.value_length p)))
  = Ok (param_value_bytes p).
Proof.
  intros Hp. unfold param_value, param_bytes. cbn [ph_value_length].
  rewrite <-!(assoc_L (++)), (assoc_L (++) (put_u16 _)). apply bslice_app.
  - by rewrite length_app, !length_put_u16.
  - rewrite length_app, !length_put_u16, length_param_value_bytes by done.
    unfold PARAM_HEADER_LENGTH. lia.
Qed.

Lemma read_u16s_app l rest :
  Forall (is_u 16) l -> read_u16s (length l) (concat (map put_u16 l) ++ rest) = Ok (l, rest).
Proof.
  induction 1 as [|z l Hz Hl IH]; [done|]. cbn [length map concat read_u16s].
  rewrite <-(assoc_L (++)), get_put_u16, bind_Ok by done. by rewrite IH.
Qed.

Lemma read_u32s_app l rest :
  Forall (is_u 32) l -> read_u32s (length l) (concat (map put_u32 l) ++ rest) = Ok (l, rest).
Proof.
  induction 1 as [|z l Hz Hl IH]; [done|]. cbn [length map concat read_u32s].
  rewrite <-(assoc_L (++)), get_put_u32, bind_Ok by done. by rewrite IH.
Qed.

Lemma read_algorithms_app fuel l :
  (length l <= fuel)%nat -> Forall (fun a => a = HmacSha128 \/ a = HmacSha256) l ->
  read_algorithms fuel (2 * length l) (concat (map (fun a => put_u16 (u16_of_HmacAlgorithm a)) l))
  = Ok l.
Proof.
  revert fuel. induction l as [|a l IH]; intros fuel Hf Hl; [by destruct fuel|].
  apply Forall_cons in Hl as [Ha Hl]. destruct fuel as [|fuel]; [simpl in Hf; lia|].
  cbn [length map concat]. replace (2 * S (length l))%nat with (S (S (2 * length l))) by lia.
  cbn [read_algorithms]. rewrite get_put_u16, bind_Ok by by destruct Ha as [-> | ->].
  replace (S (S (2 * length l)) - 2)%nat with (2 * length l)%nat by lia.
  cbn [length] in Hf. destruct Ha as [-> | ->]; cbn -[Nat.mul]; rewrite IH by (done || lia); done.
Qed.

(** Each decoder, on the bytes of its parameter and anything after them. *)
Lemma build_param_read p rest : wf_param p -> build_param (param_bytes p ++ rest) = Ok p.
Proof.
  intros Hp. pose proof (length_param_bytes p Hp) as Hl.
  pose proof (param_header_read p rest Hp) as Hh. pose proof (param_value_read p) as Hv.
  unfold build_param. rewrite length_app, Hl. unfold PARAM_HEADER_LENGTH.
  rewrite (proj2 (Nat.ltb_ge _ _)) by lia.
  assert (@bslice Error (param_bytes p ++ rest) 0 2 = Ok (put_u16 (u16_of_ParamType (Param.typ p)))) as ->.
  { unfold param_bytes. rewrite <-(assoc_L (++)). by apply (bslice_app []). }
  rewrite bind_Ok. rewrite <-(app_nil_r (put_u16 _)), get_put_u16, bind_Ok by by apply param_typ_is_u.
  destruct Hp as [Hlen Hp].
  destruct p as [d|d|d| |l|l|l|r|n r|t v|q]; cbn [Param.typ u16_of_ParamType ParamType_of_u16] in *;
    try (unfold ParamUnmarshal.heartbeat_info, ParamUnmarshal.state_cookie, ParamUnmarshal.random,
      ParamUnmarshal.forward_tsn_supported, ParamUnmarshal.supported_extensions,
      ParamUnmarshal.chunk_list; rewrite Hh, bind_Ok, ?Hv; done).
  - unfold ParamUnmarshal.requested_hmac_algorithm. rewrite Hh, bind_Ok, Hv, bind_Ok by done.
    cbn [ph_value_length Param.value_length param_value_bytes]. rewrite Nat2Z.id.
    rewrite read_algorithms_app; [done|lia|done].
  - destruct Hp as (H1 & H2 & H3 & H4).
    unfold ParamUnmarshal.outgoing_reset_request. rewrite Hh, bind_Ok. cbv zeta.
    rewrite Hv by done. cbn [ph_value_length Param.value_length]. rewrite Nat2Z.id.
    unfold PARAM_OUTGOING_RESET_REQUEST_STREAM_IDENTIFIERS_OFFSET.
    rewrite (proj2 (Nat.ltb_ge _ _)) by lia.
    rewrite bind_Ok. cbn [param_value_bytes].
    do 3 (rewrite get_put_u32, bind_Ok by done).
    replace (12 + length (stream_identifiers r) * 2 - 12)%nat
      with (length (stream_identifiers r) * 2)%nat by lia.
    rewrite Nat.div_mul by lia. rewrite <-(app_nil_r (concat _)), read_u16s_app by done.
    by destruct r.
  - unfold ParamUnmarshal.reconfig_response. rewrite Hh, bind_Ok, Hv by done. cbn [ph_value_length].
    cbn [Param.value_length param_value_bytes]. change (Z.of_nat 8 <? 8) with false. cbn iota.
    rewrite bind_Ok, get_put_u32, bind_Ok by done.
    rewrite <-(app_nil_r (put_u32 (u32_of_ReconfigResult r))), get_put_u32; [by destruct r|].
    destruct r; unfold is_u; simpl; lia.
  - destruct Hp as [Ht Hhd].
    assert ((Z.land (Z.shiftr t 15) 1 =? 0) = false) as Hbit.
    { rewrite Z.shiftr_div_pow2 by lia. change 1 with (Z.ones 1) at 1. rewrite Z.land_ones by lia.
      apply Z.eqb_neq. assert (t / 2 ^ 15 = 1) as -> by (symmetry; apply (Z.div_unique t _ _ (t - 2 ^ 15)); lia).
      done. }
    rewrite Hbit. unfold ParamUnmarshal.unknown. rewrite Hh, bind_Ok.
    rewrite Hv by done. rewrite bind_Ok. cbn [ph_typ param_value_bytes].
    rewrite ParamType_of_u16_inv. by destruct (ParamType_of_u16 t).
  - contradiction.
Qed.

Lemma concat_put_u8 l : concat (map put_u8 l) = l.
Proof. induction l as [|z l IH]; [done|]. cbn. by rewrite IH. Qed.

Lemma param_marshal_to p writer : wf_param p -> Param.marshal_to p writer = Ok (writer ++ param_bytes p).
Proof.
  intros Hp. pose proof (param_typ_is_u p Hp) as Ht. destruct Hp as [Hlen Hp].
  assert (ParamHeader.marshal_to (Param.header p) writer
    = Ok (writer ++ put_u16 (u16_of_ParamType (Param.typ p))
            ++ put_u16 (Z.of_nat (Param.value_length p) + 4))) as Hh.
  { unfold ParamHeader.marshal_to, Param.header. cbn [ph_value_length ph_typ].
    rewrite as_u_small by (unfold is_u; lia). unfold PARAM_HEADER_LENGTH.
    rewrite checked_u_Ret by (unfold is_u; lia). done. }
  unfold param_bytes. rewrite (assoc_L (++) (put_u16 _)), (assoc_L (++) writer).
  destruct p; cbn [Param.marshal_to]; rewrite Hh, bind_Ok; cbn [param_value_bytes];
    rewrite ?app_nil_r, ?concat_put_u8; done.
Qed.

Fixpoint params_bytes (ps : list Param) : bytes :=
  match ps with
  | [] => []
  | [p] => param_bytes p
  | p :: ps =>
      param_bytes p ++ replicate (get_padding_size (PARAM_HEADER_LENGTH + Param.value_length p)) 0
        ++ params_bytes ps
  end.

Lemma length_params_bytes ps : Forall wf_param ps -> length (params_bytes ps) = params_length ps.
Proof.
  induction 1 as [|p ps Hp Hps IH]; [done|]. destruct ps as [|q ps]; [by apply length_param_bytes|].
  change (length (param_bytes p
      ++ replicate (get_padding_size (PARAM_HEADER_LENGTH + Param.value_length p)) 0
      ++ params_bytes (q :: ps))
    = ((PARAM_HEADER_LENGTH + Param.value_length p)
       + get_padding_size (PARAM_HEADER_LENGTH + Param.value_length p) + params_length (q :: ps))%nat).
  rewrite !length_app, IH, length_param_bytes, length_replicate by done. lia.
Qed.

Lemma param_marshal p : wf_param p -> Param.marshal p = Ok (param_bytes p).
Proof. apply (param_marshal_to p []). Qed.

Lemma marshal_params_app ps writer :
  Forall wf_param ps -> marshal_params ps writer = Ok (writer ++ params_bytes ps).
Proof.
  intros Hps. revert writer. induction Hps as [|p ps Hp Hps IH]; intros writer.
  { simpl. by rewrite app_nil_r. }
  destruct ps as [|q ps]; [by simpl; rewrite param_marshal|].
  change (marshal_params (p :: q :: ps) writer) with
    (pp ← Param.marshal p;
     marshal_params (q :: ps) (writer ++ pp ++ replicate (get_padding_size (length pp)) 0)).
  change (params_bytes (p :: q :: ps)) with
    (param_bytes p ++ replicate (get_padding_size (PARAM_HEADER_LENGTH + Param.value_length p)) 0
       ++ params_bytes (q :: ps)).
  rewrite param_marshal, bind_Ok, IH, length_param_bytes, <-!(assoc_L (++)) by done. done.
Qed.

(** Of the causes of an error *)
Definition wf_cause (e : ErrorCause) : Prop :=
  is_u 16 (code e) /\ Z.of_nat (ErrorCause.cause_length e) < 2 ^ 16.

Lemma length_causes es :
  length (concat (map ErrorCause.marshal es)) = causes_length es.
Proof.
  induction es as [|e es IH]; [done|]. cbn [map concat causes_length foldr].
  rewrite length_app, IH. f_equal. unfold ErrorCause.marshal, ErrorCause.cause_length.
  rewrite !length_app, !length_put_u16. unfold ERROR_CAUSE_HEADER_LENGTH. lia.
Qed.

Lemma cause_read e rest : wf_cause e -> ErrorCause.unmarshal (ErrorCause.marshal e ++ rest) = Ok e.
Proof.
  intros [Hc Hl]. unfold ErrorCause.unmarshal, ErrorCause.marshal.
  rewrite as_u_small by (unfold is_u; lia). unfold ErrorCause.cause_length in *.
  rewrite !length_app, !length_put_u16. unfold ERROR_CAUSE_HEADER_LENGTH in *.
  rewrite (proj2 (Nat.ltb_ge _ _)) by lia.
  rewrite <-!(assoc_L (++)), get_put_u16, bind_Ok by done.
  rewrite get_put_u16, bind_Ok by (unfold is_u; lia).
  rewrite !(proj2 (Z.ltb_ge _ _)) by lia.
  rewrite (assoc_L (++)), Nat2Z.id, bslice_app.
  - by destruct e.
  - by rewrite length_app, !length_put_u16.
  - rewrite length_app, !length_put_u16. lia.
Qed.

(** ** Chunks *)

Definition chunk_type (c : Chunk) : Z :=
  match c with
  | CInit c => if is_ack c then CT_INIT_ACK else CT_INIT
  | CAbort _ => CT_ABORT
  | CError _ => CT_ERROR
  | CHeartbeat _ => CT_HEARTBEAT
  | CHeartbeatAck _ => CT_HEARTBEAT_ACK
  | CCookieEcho _ => CT_COOKIE_ECHO
  | CCookieAck => CT_COOKIE_ACK
  | CData _ => CT_PAYLOAD_DATA
  | CSack _ => CT_SACK
  | CReconfig _ => CT_RECONFIG
  | CForwardTsn _ => CT_FORWARD_TSN
  | CShutdown _ => CT_SHUTDOWN
  | CShutdownAck => CT_SHUTDOWN_ACK
  | CShutdownComplete => CT_SHUTDOWN_COMPLETE
  | CUnknown hdr _ => typ hdr
  end.

Definition chunk_flags (c : Chunk) : Z :=
  match c with
  | CData c => flags (ChunkPayloadData.header c)
  | CUnknown hdr _ => flags hdr
  | _ => 0
  end.

Definition value_bytes (c : Chunk) : bytes :=
  match c with
  | CInit c =>
      put_u32 (initiate_tag c) ++ put_u32 (advertised_receiver_window_credit c)
        ++ put_u16 (num_outbound_streams c) ++ put_u16 (num_inbound_streams c)
        ++ put_u32 (initial_tsn c) ++ params_bytes (params c)
  | CAbort es | CError es => concat (map ErrorCause.marshal es)
  | CHeartbeat ps | CHeartbeatAck ps => params_bytes ps
  | CCookieEcho cookie => cookie
  | CData c =>
      put_u32 (tsn c) ++ put_u16 (stream_identifier c) ++ put_u16 (stream_sequence_number c)
        ++ put_u32 (u32_of_ppi (payload_type c)) ++ user_data c
  | CSack c =>
      put_u32 (cumulative_tsn_ack c) ++ put_u32 (sack_receiver_window_credit c)
        ++ put_u16 (Z.of_nat (length (gap_ack_blocks c)))
        ++ put_u16 (Z.of_nat (length (duplicate_tsn c)))
        ++ concat (map (fun g => put_u16 (gap_start g) ++ put_u16 (gap_end g)) (gap_ack_blocks c))
        ++ concat (map put_u32 (duplicate_tsn c))
  | CReconfig c =>
      match param_a c, param_b c with
      | Some a, Some b => params_bytes [a; b]
      | Some a, None => params_bytes [a]
      | None, _ => []
      end
  | CForwardTsn c =>
      put_u32 (new_cumulative_tsn c) ++ concat (map ChunkForwardTsnStream.marshal (streams c))
  | CShutdown tsn => put_u32 tsn
  | CUnknown _ value => value
  | CCookieAck | CShutdownAck | CShutdownComplete => []
  end.

Definition chunk_bytes (c : Chunk) : bytes :=
  put_u8 (chunk_type c) ++ put_u8 (chunk_flags c)
    ++ put_u16 (Z.of_nat (Chunk.value_length c) + 4) ++ value_bytes c.

(** The types a packet's decoder knows. *)
Definition known_types : list Z :=
  [CT_INIT; CT_INIT_ACK; CT_ABORT; CT_COOKIE_ECHO; CT_COOKIE_ACK; CT_HEARTBEAT; CT_PAYLOAD_DATA;
   CT_SACK; CT_RECONFIG; CT_FORWARD_TSN; CT_ERROR; CT_SHUTDOWN; CT_SHUTDOWN_ACK;
   CT_SHUTDOWN_COMPLETE].

Definition wf_chunk (c : Chunk) : Prop :=
  Z.of_nat (Chunk.value_length c) + 4 < 2 ^ 16
  /\ match c with
     | CInit c =>
         is_u 32 (initiate_tag c) /\ is_u 32 (advertised_receiver_window_credit c)
         /\ is_u 16 (num_outbound_streams c) /\ is_u 16 (num_inbound_streams c)
         /\ is_u 32 (initial_tsn c) /\ Forall wf_param (params c)
     | CAbort es | CError es => Forall wf_cause es
     | CHeartbeat ps => exists data, ps = [ParamHeartbeatInfo data]
     | CHeartbeatAck _ => False
     | CData c =>
         is_u 32 (tsn c) /\ is_u 16 (stream_identifier c) /\ is_u 16 (stream_sequence_number c)
     | CSack c =>
         is_u 32 (cumulative_tsn_ack c) /\ is_u 32 (sack_receiver_window_credit c)
         /\ Forall (fun g => is_u 16 (gap_start g) /\ is_u 16 (gap_end g)) (gap_ack_blocks c)
         /\ Forall (is_u 32) (duplicate_tsn c)
     | CReconfig c =>
         (exists a, param_a c = Some a /\ wf_param a)
         /\ match param_b c with Some b => wf_param b | None => True end
     | CForwardTsn c =>
         is_u 32 (new_cumulative_tsn c)
         /\ Forall (fun s => is_u 16 (identifier s) /\ is_u 16 (sequence s)) (streams c)
     | CShutdown tsn => is_u 32 tsn
     | CUnknown hdr value =>
         value_length hdr = Z.of_nat (length value) /\ typ hdr ∉ known_types
     | _ => True
     end.

(** What may follow a chunk in its packet: padding or another chunk.  The decoders
    of four chunks read to the end of the packet. *)
Definition tail_fits (c : Chunk) (tail : bytes) : Prop :=
  ((length tail < 4)%nat -> Forall (eq 0) tail)
  /\ match c with
     | CInit _ | CAbort _ | CError _ => (length tail < 4)%nat
     | CShutdown _ => tail = []
     | _ => True
     end.

Lemma length_value_bytes c : wf_chunk c -> length (value_bytes c) = Chunk.value_length c.
Proof.
  intros [Hlen Hc]. destruct c as [i|es|es|ps|ps|ck| |d|s|r|f|t| | |h v];
    cbn [value_bytes Chunk.value_length] in *; try done.
  - destruct Hc as (_ & _ & _ & _ & _ & Hps). unfold ChunkInit.value_length.
    rewrite !length_app, !length_put_u32, !length_put_u16, length_params_bytes by done. lia.
  - apply length_causes.
  - apply length_causes.
  - destruct Hc as [data ->]. cbn [ChunkHeartbeat.value_length foldr] in *.
    unfold PARAM_HEADER_LENGTH in *.
    rewrite length_params_bytes; [cbn [params_length]; unfold PARAM_HEADER_LENGTH; lia|].
    apply Forall_singleton. split; [lia|done].
  - unfold ChunkSelectiveAck.value_length, SELECTIVE_ACK_HEADER_SIZE.
    rewrite !length_app, !length_put_u32, !length_put_u16, length_concat_put_u32.
    assert (forall l, length (concat (map (fun g => put_u16 (gap_start g) ++ put_u16 (gap_end g)) l))
      = (4 * length l)%nat) as ->; [|lia].
    induction l as [|g l IH]; [done|]. cbn [map concat length].
    rewrite !length_app, IH, !length_put_u16. lia.
  - destruct Hc as [(a & Ha & Hwa) Hb]. destruct r as [pa pb]; cbn in Ha, Hb; subst pa.
    unfold ChunkReconfig.value_length. cbn [param_a param_b].
    destruct pb as [b|].
    + rewrite length_params_bytes by by rewrite !Forall_cons. cbn [params_length]. lia.
    + by rewrite length_params_bytes by by rewrite Forall_singleton.
  - unfold ChunkForwardTsn.value_length, NEW_CUMULATIVE_TSN_LENGTH, FORWARD_TSN_STREAM_LENGTH.
    rewrite !length_app, !length_put_u32. f_equal.
    clear. induction (streams f) as [|x l IH]; [done|]. cbn [map concat length].
    unfold ChunkForwardTsnStream.marshal at 1. rewrite !length_app, IH, !length_put_u16. lia.
Qed.

(** ** Reading a chunk back *)

Lemma padding_zero raw vl tail :
  length raw = (CHUNK_HEADER_SIZE + vl)%nat -> Forall (eq 0) tail ->
  ChunkHeader.padding_is_zero (raw ++ tail) vl (length tail) = Ok true.
Proof.
  intros Hraw Htail. unfold ChunkHeader.padding_is_zero.
  assert (forall n, (n <= length tail)%nat ->
    (fix go i := match i with
       | O => Ok true
       | S i => b ← bindex (raw ++ tail) (CHUNK_HEADER_SIZE + (vl + i));
                if b =? 0 then go i else Ok false
       end) n = @Ok Error bool true) as H; [|by apply H].
  induction n as [|n IH]; intros Hn; [done|].
  destruct (lookup_lt_is_Some_2 tail n) as [b Hb]; [lia|].
  assert (@bindex Error (raw ++ tail) (CHUNK_HEADER_SIZE + (vl + n)) = Ok b) as ->.
  { unfold bindex. replace (index _ _) with (Ret b); [done|]. symmetry. apply index_Ret.
    rewrite lookup_app_r by lia. rewrite <-Hb. f_equal. lia. }
  rewrite bind_Ok. eapply Forall_lookup_1 in Hb; [|done]. subst b. apply IH. lia.
Qed.

Lemma chunk_header_read t f vl value tail :
  length value = vl -> Z.of_nat vl + 4 < 2 ^ 16 -> ((length tail < 4)%nat -> Forall (eq 0) tail) ->
  ChunkHeader.unmarshal (put_u8 t ++ put_u8 f ++ put_u16 (Z.of_nat vl + 4) ++ value ++ tail)
  = Ok (mkChunkHeader t f (Z.of_nat vl)).
Proof.
  intros <- Hlen Htail. unfold ChunkHeader.unmarshal, CHUNK_HEADER_SIZE.
  set (raw := put_u8 t ++ _). assert (length raw = 4 + length value + length tail)%nat as Hraw.
  { unfold raw. rewrite !length_app, length_put_u16. simpl. lia. }
  rewrite Hraw, (proj2 (Nat.ltb_ge _ _)) by lia.
  assert (get_u8 raw = @Ok Error _ (t, put_u8 f ++ put_u16 (Z.of_nat (length value) + 4) ++ value ++ tail))
    as -> by reflexivity. rewrite bind_Ok.
  unfold put_u8 at 1. rewrite get_u8_app, bind_Ok.
  rewrite get_put_u16, bind_Ok by (unfold is_u; lia).
  rewrite !(proj2 (Z.ltb_ge _ _)) by lia.
  rewrite Z.gtb_ltb, (proj2 (Z.ltb_ge _ _)) by lia. cbv zeta.
  replace (Z.of_nat (length value) + 4 - Z.of_nat 4) with (Z.of_nat (length value)) by lia.
  replace (Z.of_nat (4 + length value + length tail) - (Z.of_nat (length value) + 4))
    with (Z.of_nat (length tail)) by lia.
  destruct (Z.ltb_spec (Z.of_nat (length tail)) 4) as [Hshort|]; [|done].
  rewrite !Nat2Z.id. unfold raw. rewrite !(assoc_L (++)), padding_zero; [done| |apply Htail; lia].
  rewrite !length_app, length_put_u16. simpl. unfold CHUNK_HEADER_SIZE. lia.
Qed.

Lemma chunk_value_read t f vl value tail :
  length value = vl ->
  chunk_value (put_u8 t ++ put_u8 f ++ put_u16 (Z.of_nat vl + 4) ++ value ++ tail)
    (mkChunkHeader t f (Z.of_nat vl)) = Ok value.
Proof.
  intros <-. unfold chunk_value, chunk_end. cbn [value_length]. rewrite Nat2Z.id.
  rewrite (assoc_L (++) (put_u8 t)), (assoc_L (++) _ (put_u16 _)). apply bslice_app.
  - by rewrite !length_app, length_put_u16.
  - rewrite !length_app, length_put_u16. reflexivity.
Qed.

(** A part of the value up to its end, [raw.slice(offset..chunk_end)]. *)
Lemma chunk_rest_read t f vl pre rest tail offset :
  length (pre ++ rest) = vl -> offset = (CHUNK_HEADER_SIZE + length pre)%nat ->
  @bslice Error (put_u8 t ++ put_u8 f ++ put_u16 (Z.of_nat vl + 4) ++ (pre ++ rest) ++ tail) offset
    (chunk_end (mkChunkHeader t f (Z.of_nat vl))) = Ok rest.
Proof.
  intros Hvl ->. unfold chunk_end. cbn [value_length]. rewrite Nat2Z.id.
  rewrite <-(assoc_L (++) pre), !(assoc_L (++)), <-(assoc_L (++) _ rest tail).
  rewrite length_app in Hvl.
  apply bslice_app; rewrite !length_app, length_put_u16; unfold CHUNK_HEADER_SIZE; simpl; lia.
Qed.

Lemma read_gaps_app l rest :
  Forall (fun g => is_u 16 (gap_start g) /\ is_u 16 (gap_end g)) l ->
  read_gaps (length l)
    (concat (map (fun g => put_u16 (gap_start g) ++ put_u16 (gap_end g)) l) ++ rest) = Ok (l, rest).
Proof.
  induction 1 as [|g l [H1 H2] Hl IH]; [done|]. cbn [length map concat read_gaps].
  rewrite <-!(assoc_L (++)), get_put_u16, bind_Ok by done.
  rewrite get_put_u16, bind_Ok, IH by done. by destruct g.
Qed.

(** A DATA chunk as the receiver sees it. *)
Definition received (now : Z) (c : ChunkPayloadData) : ChunkPayloadData :=
  mkChunkPayloadData (unordered c) (beginning_fragment c) (ending_fragment c) (immediate_sack c)
    (tsn c) (stream_identifier c) (stream_sequence_number c) (payload_type c) (user_data c)
    false 0 now 0 0 false None.

Definition on_wire (now : Z) (c : Chunk) : Chunk :=
  match c with CData d => CData (received now d) | _ => c end.

Lemma ppi_of_u32_of_ppi p : ppi_of_u32 (u32_of_ppi p) = p.
Proof. by destruct p. Qed.

(** The bytes of a chunk with a tail, in the shape the lemmas above use. *)
Lemma chunk_bytes_tail c tail :
  chunk_bytes c ++ tail
  = put_u8 (chunk_type c) ++ put_u8 (chunk_flags c)
      ++ put_u16 (Z.of_nat (Chunk.value_length c) + 4) ++ value_bytes c ++ tail.
Proof. unfold chunk_bytes. by rewrite <-!(assoc_L (++)). Qed.

Lemma data_read now d tail :
  wf_chunk (CData d) -> ((length tail < 4)%nat -> Forall (eq 0) tail) ->
  ChunkPayloadData.unmarshal now (chunk_bytes (CData d) ++ tail) = Ok (received now d).
Proof.
  intros Hwf Htail. pose proof (length_value_bytes _ Hwf) as Hl.
  destruct Hwf as [Hlen (H1 & H2 & H3)]. unfold ChunkPayloadData.unmarshal.
  rewrite chunk_bytes_tail, chunk_header_read by done. rewrite bind_Ok.
  cbn [typ flags value_length chunk_type]. change (negb (CT_PAYLOAD_DATA =? CT_PAYLOAD_DATA)) with false.
  cbv iota zeta. rewrite (proj2 (Z.ltb_ge _ _))
    by (cbn [Chunk.value_length]; unfold ChunkPayloadData.value_length, PAYLOAD_DATA_HEADER_SIZE; lia).
  rewrite chunk_value_read, bind_Ok by done. cbn [value_bytes].
  rewrite get_put_u32, bind_Ok by done. do 2 (rewrite get_put_u16, bind_Ok by done).
  rewrite get_put_u32, bind_Ok by (by destruct (payload_type d)).
  rewrite !(assoc_L (++) (put_u32 (tsn d))), !(assoc_L (++) _ _ (user_data d)).
  rewrite chunk_rest_read; [|by rewrite <-Hl; cbn [value_bytes]; rewrite !(assoc_L (++))
                            |by rewrite !length_app, !length_put_u32, !length_put_u16].
  rewrite bind_Ok. rewrite ppi_of_u32_of_ppi. unfold received. do 2 f_equal;
    cbn [chunk_flags]; unfold ChunkPayloadData.header, header_of; cbn [flags];
    destruct (ending_fragment d), (beginning_fragment d), (unordered d), (immediate_sack d); reflexivity.
Qed.

Lemma sack_read s tail :
  wf_chunk (CSack s) -> ((length tail < 4)%nat -> Forall (eq 0) tail) ->
  ChunkSelectiveAck.unmarshal (chunk_bytes (CSack s) ++ tail) = Ok s.
Proof.
  intros Hwf Htail. pose proof (length_value_bytes _ Hwf) as Hl.
  destruct Hwf as [Hlen (H1 & H2 & H3 & H4)]. unfold ChunkSelectiveAck.unmarshal.
  rewrite chunk_bytes_tail, chunk_header_read by done. rewrite bind_Ok.
  cbn [typ flags value_length chunk_type]. change (negb (CT_SACK =? CT_SACK)) with false. cbv iota.
  cbn [Chunk.value_length] in *. unfold ChunkSelectiveAck.value_length, SELECTIVE_ACK_HEADER_SIZE in *.
  rewrite (proj2 (Z.ltb_ge _ (Z.of_nat 12))) by lia.
  rewrite chunk_value_read, bind_Ok by done. cbn [value_bytes].
  do 2 (rewrite get_put_u32, bind_Ok by done).
  do 2 (rewrite get_put_u16, bind_Ok by (unfold is_u; lia)).
  rewrite (proj2 (Z.ltb_ge _ _)) by lia. rewrite !Nat2Z.id.
  rewrite read_gaps_app, bind_Ok by done.
  rewrite <-(app_nil_r (concat _)), read_u32s_app, bind_Ok by done. by destruct s.
Qed.

Lemma read_params_app fuel t f vl pre ps tail :
  length (pre ++ params_bytes ps) = vl -> (length tail < 4)%nat -> Forall wf_param ps ->
  (length ps <= fuel)%nat ->
  ChunkInit.read_params fuel
    (put_u8 t ++ put_u8 f ++ put_u16 (Z.of_nat vl + 4) ++ (pre ++ params_bytes ps) ++ tail)
    (mkChunkHeader t f (Z.of_nat vl)) (CHUNK_HEADER_SIZE + length pre)
    (Z.of_nat (length (params_bytes ps)) + Z.of_nat (length tail)) = Ok ps.
Proof.
  intros Hvl Htail Hps. revert fuel pre Hvl.
  induction Hps as [|p ps Hp Hps IH]; intros fuel pre Hvl Hfuel.
  { destruct fuel; cbn [ChunkInit.read_params params_bytes length].
    all: by rewrite (proj2 (Z.ltb_lt _ _)) by (unfold INIT_OPTIONAL_VAR_HEADER_LENGTH; lia). }
  pose proof (length_param_bytes p Hp) as Hlp. unfold PARAM_HEADER_LENGTH in Hlp.
  assert (4 <= length (params_bytes (p :: ps)))%nat as Hge.
  { destruct ps; [cbn [params_bytes]; lia|]. change (params_bytes (p :: p0 :: ps)) with
      (param_bytes p ++ replicate (get_padding_size (PARAM_HEADER_LENGTH + Param.value_length p)) 0
         ++ params_bytes (p0 :: ps)). rewrite length_app. lia. }
  destruct fuel as [|fuel]; [simpl in Hfuel; lia|]. cbn [ChunkInit.read_params].
  rewrite (proj2 (Z.ltb_ge _ _)) by (unfold INIT_OPTIONAL_VAR_HEADER_LENGTH; lia).
  rewrite chunk_rest_read, bind_Ok by done.
  set (pad := get_padding_size (PARAM_HEADER_LENGTH + Param.value_length p)).
  destruct ps as [|q ps].
  - cbn [params_bytes] in *. rewrite <-(app_nil_r (param_bytes p)) at 1.
    rewrite build_param_read, bind_Ok by done. fold pad.
    destruct fuel; cbn [ChunkInit.read_params];
      rewrite (proj2 (Z.ltb_lt _ _)) by (unfold INIT_OPTIONAL_VAR_HEADER_LENGTH, PARAM_HEADER_LENGTH; lia);
      done.
  - change (params_bytes (p :: q :: ps)) with
      (param_bytes p ++ replicate pad 0 ++ params_bytes (q :: ps)) in *.
    rewrite build_param_read, bind_Ok by done. fold pad.
    pose proof (IH fuel (pre ++ param_bytes p ++ replicate pad 0)) as Hrec.
    rewrite <-!(assoc_L (++)) in Hrec. rewrite <-!(assoc_L (++)).
    assert (length (pre ++ param_bytes p ++ replicate pad 0)
      = (length pre + (4 + Param.value_length p + pad))%nat) as HL
      by (rewrite !length_app, length_replicate, Hlp; lia).
    rewrite HL in Hrec. rewrite !length_app, length_replicate, Hlp. unfold PARAM_HEADER_LENGTH.
    replace (CHUNK_HEADER_SIZE + length pre + (4 + Param.value_length p + pad))%nat
      with (CHUNK_HEADER_SIZE + (length pre + (4 + Param.value_length p + pad)))%nat by lia.
    replace (Z.of_nat (4 + Param.value_length p + (pad + length (params_bytes (q :: ps))))
      + Z.of_nat (length tail) - Z.of_nat (4 + Param.value_length p + pad))
      with (Z.of_nat (length (params_bytes (q :: ps))) + Z.of_nat (length tail)) by lia.
    by rewrite Hrec by (done || simpl in *; lia).
Qed.

Lemma length_params_le ps : Forall wf_param ps -> (length ps <= length (params_bytes ps))%nat.
Proof.
  induction 1 as [|p ps Hp Hps IH]; [done|].
  pose proof (length_param_bytes p Hp) as Hl. unfold PARAM_HEADER_LENGTH in Hl.
  destruct ps as [|q ps]; [cbn [length params_bytes]; lia|].
  change (params_bytes (p :: q :: ps)) with
    (param_bytes p ++ replicate (get_padding_size (PARAM_HEADER_LENGTH + Param.value_length p)) 0
       ++ params_bytes (q :: ps)).
  rewrite !length_app. cbn [length] in *. lia.
Qed.

Lemma init_read i tail :
  wf_chunk (CInit i) -> tail_fits (CInit i) tail ->
  ChunkInit.unmarshal (chunk_bytes (CInit i) ++ tail) = Ok i.
Proof.
  intros Hwf [Htail Hshort]. pose proof (length_value_bytes _ Hwf) as Hl.
  destruct Hwf as [Hlen (H1 & H2 & H3 & H4 & H5 & H6)]. unfold ChunkInit.unmarshal.
  rewrite chunk_bytes_tail, chunk_header_read by done. rewrite bind_Ok.
  cbn [typ flags value_length chunk_type chunk_flags].
  assert (forall t, t = CT_INIT \/ t = CT_INIT_ACK -> negb ((t =? CT_INIT) || (t =? CT_INIT_ACK)) = false)
    as -> by (by intros t [-> | ->]) || idtac; [|by destruct (is_ack i); auto].
  cbn [Chunk.value_length] in *. unfold ChunkInit.value_length in *.
  rewrite (proj2 (Z.ltb_ge _ _)) by (unfold INIT_CHUNK_MIN_LENGTH; lia).
  change (negb (0 =? 0)) with false. cbv iota.
  rewrite chunk_value_read, bind_Ok by done. cbn [value_bytes].
  do 2 (rewrite get_put_u32, bind_Ok by done). do 2 (rewrite get_put_u16, bind_Ok by done).
  rewrite get_put_u32, bind_Ok by done. cbv zeta.
  set (fixed := put_u32 (initiate_tag i) ++ put_u32 (advertised_receiver_window_credit i)
    ++ put_u16 (num_outbound_streams i) ++ put_u16 (num_inbound_streams i) ++ put_u32 (initial_tsn i)).
  assert (value_bytes (CInit i) = fixed ++ params_bytes (params i)) as Hv
    by (unfold fixed; cbn [value_bytes]; by rewrite <-!(assoc_L (++))).
  cbn [value_bytes] in Hv. rewrite Hv.
  assert (length fixed = 16%nat) as Hf
    by (unfold fixed; by rewrite !length_app, !length_put_u32, !length_put_u16).
  pose proof (length_params_bytes _ H6) as Hp.
  set (vl := (4 + 4 + 2 + 2 + 4 + params_length (params i))%nat) in *.
  assert (length (fixed ++ params_bytes (params i)) = vl) as Hvl by (rewrite length_app; lia).
  pose proof (length_params_le _ H6).
  replace (CHUNK_HEADER_SIZE + INIT_CHUNK_MIN_LENGTH)%nat with (CHUNK_HEADER_SIZE + length fixed)%nat
    by (rewrite Hf; reflexivity).
  match goal with |- context [Z.of_nat (length ?raw) - _] =>
    replace (Z.of_nat (length raw) - Z.of_nat (CHUNK_HEADER_SIZE + length fixed))
      with (Z.of_nat (length (params_bytes (params i))) + Z.of_nat (length tail))
      by (rewrite !length_app, length_put_u16; cbn [length put_u8]; unfold CHUNK_HEADER_SIZE; lia)
  end.
  rewrite read_params_app; [|done|done|done|].
  - rewrite bind_Ok. destruct i as [[] ? ? ? ? ? ?]; reflexivity.
  - rewrite !length_app. lia.
Qed.

Lemma causes_read fuel t f vl pre es tail :
  length (pre ++ concat (map ErrorCause.marshal es)) = vl -> (length tail < 4)%nat ->
  Forall wf_cause es -> (length es <= fuel)%nat ->
  ErrorCause.read_all fuel
    (put_u8 t ++ put_u8 f ++ put_u16 (Z.of_nat vl + 4)
       ++ (pre ++ concat (map ErrorCause.marshal es)) ++ tail)
    (mkChunkHeader t f (Z.of_nat vl)) (CHUNK_HEADER_SIZE + length pre) = Ok es.
Proof.
  intros Hvl Htail Hes. revert fuel pre Hvl.
  assert (forall pre rest, length (pre ++ rest) = vl ->
    length (put_u8 t ++ put_u8 f ++ put_u16 (Z.of_nat vl + 4) ++ (pre ++ rest) ++ tail)
    = (4 + length pre + length rest + length tail)%nat) as Hraw.
  { intros pre rest Hvl. rewrite !length_app, length_put_u16. cbn [length put_u8]. lia. }
  induction Hes as [|e es He Hes IH]; intros fuel pre Hvl Hfuel.
  { destruct fuel; cbn [ErrorCause.read_all map concat] in *; rewrite Hraw by done;
      by rewrite (proj2 (Nat.ltb_lt _ _)) by (unfold CHUNK_HEADER_SIZE; simpl; lia). }
  destruct fuel as [|fuel]; [simpl in Hfuel; lia|]. cbn [ErrorCause.read_all].
  assert (length (ErrorCause.marshal e) = ErrorCause.cause_length e) as Hle.
  { unfold ErrorCause.marshal, ErrorCause.cause_length, ERROR_CAUSE_HEADER_LENGTH.
    rewrite !length_app, !length_put_u16. lia. }
  assert (4 <= ErrorCause.cause_length e)%nat
    by (unfold ErrorCause.cause_length, ERROR_CAUSE_HEADER_LENGTH; lia).
  rewrite Hraw by done. cbn [map concat] in *.
  rewrite (proj2 (Nat.ltb_ge _ _)) by (rewrite length_app, Hle; unfold CHUNK_HEADER_SIZE; lia).
  rewrite chunk_rest_read, bind_Ok by done. rewrite cause_read, bind_Ok by done.
  pose proof (IH fuel (pre ++ ErrorCause.marshal e)) as Hrec.
  rewrite <-!(assoc_L (++)) in Hrec. rewrite <-!(assoc_L (++)).
  rewrite (length_app pre (ErrorCause.marshal e)), Hle in Hrec.
  rewrite <-Nat.add_assoc. rewrite Hrec; [done|done|simpl in *; lia].
Qed.

Lemma length_causes_le es : (length es <= causes_length es)%nat.
Proof.
  induction es as [|e es IH]; [done|]. cbn [length causes_length foldr].
  fold (causes_length es). unfold ErrorCause.cause_length at 1, ERROR_CAUSE_HEADER_LENGTH. lia.
Qed.

Lemma forward_stream_read s rest :
  is_u 16 (identifier s) -> is_u 16 (sequence s) ->
  ChunkForwardTsnStream.unmarshal (ChunkForwardTsnStream.marshal s ++ rest) = Ok s.
Proof.
  intros H1 H2. unfold ChunkForwardTsnStream.unmarshal, ChunkForwardTsnStream.marshal.
  rewrite !length_app, !length_put_u16. unfold FORWARD_TSN_STREAM_LENGTH.
  rewrite (proj2 (Nat.ltb_ge _ _)) by lia. rewrite <-(assoc_L (++)).
  do 2 (rewrite get_put_u16, bind_Ok by done). by destruct s.
Qed.

Lemma forward_streams_read fuel t f vl pre ss tail remaining :
  length (pre ++ concat (map ChunkForwardTsnStream.marshal ss)) = vl ->
  Forall (fun s => is_u 16 (identifier s) /\ is_u 16 (sequence s)) ss -> (length ss <= fuel)%nat ->
  remaining = (4 * length ss + length tail)%nat -> Z.of_nat remaining < 2 ^ 64 ->
  ChunkForwardTsn.read_streams fuel
    (put_u8 t ++ put_u8 f ++ put_u16 (Z.of_nat vl + 4)
       ++ (pre ++ concat (map ChunkForwardTsnStream.marshal ss)) ++ tail)
    (mkChunkHeader t f (Z.of_nat vl)) (CHUNK_HEADER_SIZE + length pre) remaining = Ok ss.
Proof.
  intros Hvl Hss. revert fuel pre remaining Hvl.
  induction Hss as [|s ss [H1 H2] Hss IH]; intros fuel pre remaining Hvl Hfuel Hrem Hmax.
  { cbn [map concat] in Hvl. rewrite app_nil_r in Hvl.
    destruct fuel; cbn [ChunkForwardTsn.read_streams]; destruct (remaining =? 0)%nat; try done;
      unfold chunk_end; cbn [value_length]; rewrite Nat2Z.id, Hvl, Nat.eqb_refl; done. }
  destruct fuel as [|fuel]; [simpl in Hfuel; lia|]. cbn [ChunkForwardTsn.read_streams].
  rewrite (proj2 (Nat.eqb_neq _ _)) by (simpl in *; lia).
  assert (length (ChunkForwardTsnStream.marshal s) = 4%nat) as Hls
    by (unfold ChunkForwardTsnStream.marshal; by rewrite length_app, !length_put_u16).
  cbn [map concat] in *. rewrite (proj2 (Nat.eqb_neq _ _)).
  2: { unfold chunk_end. cbn [value_length]. rewrite Nat2Z.id, <-Hvl, !length_app. lia. }
  rewrite chunk_rest_read, bind_Ok by done. rewrite forward_stream_read, bind_Ok by done.
  unfold FORWARD_TSN_STREAM_LENGTH.
  rewrite checked_u_Ret by (unfold is_u; simpl in *; lia). unfold lift. rewrite bind_Ok.
  pose proof (IH fuel (pre ++ ChunkForwardTsnStream.marshal s)
    (Z.to_nat (Z.of_nat remaining - Z.of_nat 4))) as Hrec.
  rewrite <-!(assoc_L (++)) in Hrec. rewrite <-!(assoc_L (++)).
  rewrite (length_app pre (ChunkForwardTsnStream.marshal s)), Hls in Hrec.
  rewrite <-Nat.add_assoc. rewrite Hrec; [by destruct s|done|simpl in *; lia..].
Qed.

(** The length of a chunk with its tail. *)
Lemma length_chunk_tail c tail :
  wf_chunk c -> length (put_u8 (chunk_type c) ++ put_u8 (chunk_flags c)
      ++ put_u16 (Z.of_nat (Chunk.value_length c) + 4) ++ value_bytes c ++ tail)
    = (4 + Chunk.value_length c + length tail)%nat.
Proof.
  intros Hc. rewrite !length_app, length_put_u16, length_value_bytes by done.
  cbn [length put_u8]. lia.
Qed.

Lemma forward_tsn_read c tail :
  wf_chunk (CForwardTsn c) -> ((length tail < 4)%nat -> Forall (eq 0) tail) ->
  Z.of_nat (length tail) < 2 ^ 63 ->
  ChunkForwardTsn.unmarshal (chunk_bytes (CForwardTsn c) ++ tail) = Ok c.
Proof.
  intros Hwf Htail Hmax. pose proof (length_value_bytes _ Hwf) as Hl.
  pose proof (length_chunk_tail _ tail Hwf) as Hraw.
  destruct Hwf as [Hlen (H1 & H2)]. unfold ChunkForwardTsn.unmarshal.
  rewrite chunk_bytes_tail, chunk_header_read by done. rewrite bind_Ok. rewrite Hraw. clear Hraw.
  cbn [typ chunk_type]. change (negb (CT_FORWARD_TSN =? CT_FORWARD_TSN)) with false. cbv iota zeta.
  cbn [Chunk.value_length] in *. unfold ChunkForwardTsn.value_length, NEW_CUMULATIVE_TSN_LENGTH,
    FORWARD_TSN_STREAM_LENGTH in *.
  rewrite (proj2 (Nat.ltb_ge _ _)) by (unfold CHUNK_HEADER_SIZE; lia).
  rewrite chunk_value_read, bind_Ok by done. cbn [value_bytes] in *.
  rewrite get_put_u32, bind_Ok by done.
  replace (CHUNK_HEADER_SIZE + 4)%nat with (CHUNK_HEADER_SIZE + length (put_u32 (new_cumulative_tsn c)))%nat
    by by rewrite length_put_u32.
  rewrite forward_streams_read; [by destruct c|done|done|lia| |].
  all: rewrite length_put_u32; unfold CHUNK_HEADER_SIZE; lia.
Qed.

Lemma reconfig_read c tail :
  wf_chunk (CReconfig c) -> ((length tail < 4)%nat -> Forall (eq 0) tail) ->
  ChunkReconfig.unmarshal (chunk_bytes (CReconfig c) ++ tail) = Ok c.
Proof.
  intros Hwf Htail. pose proof (length_value_bytes _ Hwf) as Hl.
  destruct Hwf as [Hlen ((a & Ha & Hwa) & Hb)]. unfold ChunkReconfig.unmarshal.
  rewrite chunk_bytes_tail, chunk_header_read by done. rewrite bind_Ok. cbn [typ chunk_type].
  change (negb (CT_RECONFIG =? CT_RECONFIG)) with false. cbv iota.
  rewrite chunk_value_read, bind_Ok by done. cbn [value_bytes Chunk.value_length] in *.
  destruct c as [pa pb]. cbn [param_a param_b] in *. subst pa.
  unfold ChunkReconfig.value_length in *. cbn [param_a param_b] in *.
  set (pad := get_padding_size (PARAM_HEADER_LENGTH + Param.value_length a)) in *.
  pose proof (length_param_bytes a Hwa) as Hla.
  destruct pb as [b|].
  - change (params_bytes [a; b]) with (param_bytes a ++ replicate pad 0 ++ param_bytes b) in *.
    rewrite build_param_read, bind_Ok by done. cbv zeta. fold pad.
    unfold chunk_end at 1. cbn [value_length]. rewrite Nat2Z.id.
    rewrite (proj2 (Nat.ltb_lt _ _)) by (unfold PARAM_HEADER_LENGTH; lia).
    rewrite (assoc_L (++) (param_bytes a)).
    rewrite chunk_rest_read, bind_Ok; [| |rewrite length_app, length_replicate, Hla; lia].
    + rewrite <-(app_nil_r (param_bytes b)), build_param_read, bind_Ok by done. done.
    + rewrite <-Hl. by rewrite (assoc_L (++)).
  - cbn [params_bytes] in *. rewrite <-(app_nil_r (param_bytes a)) at 1.
    rewrite build_param_read, bind_Ok by done. cbv zeta. fold pad.
    unfold chunk_end at 1. cbn [value_length]. rewrite Nat2Z.id.
    by rewrite (proj2 (Nat.ltb_ge _ _)) by lia.
Qed.

Lemma causes_chunk_read c es tail :
  c = CAbort es \/ c = CError es -> Forall wf_cause es -> (length tail < 4)%nat ->
  let raw := put_u8 (chunk_type c) ++ put_u8 (chunk_flags c)
    ++ put_u16 (Z.of_nat (Chunk.value_length c) + 4) ++ value_bytes c ++ tail in
  ErrorCause.read_all (length raw) raw
    (mkChunkHeader (chunk_type c) (chunk_flags c) (Z.of_nat (Chunk.value_length c)))
    CHUNK_HEADER_SIZE = Ok es.
Proof.
  intros Hc Hes Htail raw.
  assert (value_bytes c = concat (map ErrorCause.marshal es)) as Hv by by destruct Hc as [-> | ->].
  assert (Chunk.value_length c = causes_length es) as Hvl by by destruct Hc as [-> | ->].
  unfold raw. rewrite Hv, Hvl.
  apply (causes_read _ _ _ (causes_length es) []); [apply length_causes|done|done|].
  rewrite !length_app, length_causes. pose proof (length_causes_le es). lia.
Qed.

Lemma unmarshal_chunk_read now c tail :
  wf_chunk c -> tail_fits c tail -> Z.of_nat (length tail) < 2 ^ 63 ->
  Packet.unmarshal_chunk now (chunk_type c) (chunk_bytes c ++ tail) = Ok (on_wire now c).
Proof.
  intros Hwf [Htail Hfit] Hmax. pose proof (length_value_bytes _ Hwf) as Hl.
  pose proof (length_chunk_tail _ tail Hwf) as Hraw. pose proof Hwf as [Hlen Hc].
  assert (forall e, unmarshal_empty (chunk_type c) e (chunk_bytes c ++ tail) = Ok tt) as Hempty.
  { intros e. unfold unmarshal_empty. rewrite chunk_bytes_tail, chunk_header_read by done.
    rewrite bind_Ok. cbn [typ]. by rewrite Z.eqb_refl. }
  unfold Packet.unmarshal_chunk.
  destruct c as [i|es|es|ps|ps|ck| |d|s|r|f|t| | |h v]; cbn [chunk_type] in Hempty |- *;
    try (cbn -[chunk_bytes]; rewrite Hempty; done).
  - assert (ChunkInit.unmarshal (chunk_bytes (CInit i) ++ tail) = Ok i) as Hi by by apply init_read.
    rewrite Hi. by destruct (is_ack i).
  - cbn -[chunk_bytes]. unfold ChunkAbort.unmarshal.
    rewrite chunk_bytes_tail, chunk_header_read by done. rewrite bind_Ok.
    cbn [typ chunk_type]. change (negb (CT_ABORT =? CT_ABORT)) with false. cbv iota.
    pose proof (causes_chunk_read (CAbort es) es tail ltac:(auto) Hc Hfit) as Hr.
    cbv zeta in Hr. cbn [chunk_type] in Hr. by rewrite Hr.
  - cbn -[chunk_bytes]. unfold ChunkError.unmarshal.
    rewrite chunk_bytes_tail, chunk_header_read by done. rewrite bind_Ok.
    cbn [typ chunk_type]. change (negb (CT_ERROR =? CT_ERROR)) with false. cbv iota.
    pose proof (causes_chunk_read (CError es) es tail ltac:(auto) Hc Hfit) as Hr.
    cbv zeta in Hr. cbn [chunk_type] in Hr. by rewrite Hr.
  - destruct Hc as [data ->]. cbn -[chunk_bytes]. unfold ChunkHeartbeat.unmarshal.
    rewrite chunk_bytes_tail, chunk_header_read by done. rewrite bind_Ok, Hraw.
    rewrite chunk_value_read by done. cbn -[Nat.add build_param params_bytes].
    pose proof (build_param_read (ParamHeartbeatInfo data) []) as Hb. rewrite app_nil_r in Hb.
    cbn [params_bytes]. rewrite Hb; [done|].
    split; [cbn in *; lia|done].
  - contradiction.
  - cbn -[chunk_bytes]. unfold ChunkCookieEcho.unmarshal.
    rewrite chunk_bytes_tail, chunk_header_read by done. rewrite bind_Ok.
    by rewrite chunk_value_read by done.
  - cbn -[chunk_bytes]. by rewrite data_read.
  - cbn -[chunk_bytes]. by rewrite sack_read.
  - cbn -[chunk_bytes]. by rewrite reconfig_read.
  - cbn -[chunk_bytes]. by rewrite forward_tsn_read.
  - subst tail. cbn -[chunk_bytes]. unfold ChunkShutdown.unmarshal.
    rewrite chunk_bytes_tail, chunk_header_read by done. rewrite bind_Ok, Hraw.
    rewrite chunk_value_read by done. cbn -[get_u32 put_u32].
    rewrite <-(app_nil_r (put_u32 t)), get_put_u32 by done. done.
  - destruct Hc as [Hv Hnot]. unfold known_types in Hnot. rewrite !not_elem_of_cons in Hnot.
    destruct Hnot as (?&?&?&?&?&?&?&?&?&?&?&?&?&?&_).
    rewrite !(proj2 (Z.eqb_neq _ _)) by done. unfold ChunkUnknown.unmarshal.
    rewrite chunk_bytes_tail, chunk_header_read by done. rewrite bind_Ok.
    rewrite chunk_value_read by done. destruct h. cbn in *. by subst.
Qed.

(** ** Packets are read back *)

Lemma chunk_marshal_to c writer :
  wf_chunk c -> Chunk.marshal_to c writer = Ok (writer ++ chunk_bytes c).
Proof.
  intros [Hlen Hc].
  assert (forall t f, ChunkHeader.marshal_to (header_of t f (Chunk.value_length c)) writer
    = Ok (writer ++ put_u8 t ++ put_u8 f ++ put_u16 (Z.of_nat (Chunk.value_length c) + 4))) as Hh.
  { intros t f. unfold ChunkHeader.marshal_to, header_of, CHUNK_HEADER_SIZE. cbn [typ flags value_length].
    rewrite as_u_small by (unfold is_u; lia). by rewrite checked_u_Ret by (unfold is_u; lia). }
  assert (chunk_bytes c = (put_u8 (chunk_type c) ++ put_u8 (chunk_flags c)
    ++ put_u16 (Z.of_nat (Chunk.value_length c) + 4)) ++ value_bytes c) as ->
    by (unfold chunk_bytes; by rewrite <-!(assoc_L (++))).
  rewrite (assoc_L (++) writer).
  destruct c as [i|es|es|ps|ps|ck| |d|s|r|f|t| | |h v]; cbn [Chunk.marshal_to];
    try (cbn [value_bytes]; rewrite app_nil_r; apply Hh); try contradiction.
  - unfold ChunkInit.marshal_to, ChunkInit.header. rewrite (Hh _ 0), bind_Ok.
    rewrite marshal_params_app by apply Hc. cbn [value_bytes]. by rewrite <-!(assoc_L (++)).
  - unfold ChunkAbort.marshal_to. by rewrite (Hh _ 0), bind_Ok.
  - unfold ChunkError.marshal_to. by rewrite (Hh _ 0), bind_Ok.
  - destruct Hc as [data ->]. unfold ChunkHeartbeat.marshal_to. rewrite (Hh _ 0), bind_Ok.
    cbn [ChunkHeartbeat.marshal_all]. rewrite param_marshal; [done|]. split; [cbn in *; lia|done].
  - unfold ChunkCookieEcho.marshal_to. by rewrite (Hh _ 0), bind_Ok.
  - unfold ChunkPayloadData.marshal_to. unfold ChunkPayloadData.header at 1. rewrite (Hh _ _), bind_Ok.
    reflexivity.
  - unfold ChunkSelectiveAck.marshal_to, ChunkSelectiveAck.header. rewrite (Hh _ 0), bind_Ok.
    cbn [value_bytes Chunk.value_length] in *. unfold ChunkSelectiveAck.value_length in Hlen.
    rewrite !as_u_small by (unfold is_u; lia). done.
  - unfold ChunkReconfig.marshal_to, ChunkReconfig.header. rewrite (Hh _ 0), bind_Ok.
    destruct Hc as [(a & Ha & Hwa) Hb]. cbn [value_bytes]. rewrite Ha, param_marshal, bind_Ok by done.
    destruct (param_b r) as [b|]; [|done]. rewrite param_marshal, bind_Ok by done. done.
  - unfold ChunkForwardTsn.marshal_to, ChunkForwardTsn.header. by rewrite (Hh _ 0), bind_Ok.
  - unfold ChunkShutdown.marshal_to. by rewrite (Hh _ 0), bind_Ok.
  - destruct Hc as [Hv _]. unfold ChunkUnknown.marshal_to.
    assert (ChunkHeader.marshal_to h writer
      = ChunkHeader.marshal_to (header_of (typ h) (flags h) (length v)) writer) as ->.
    { destruct h as [t f n]. cbn in *. subst n. unfold header_of.
      by rewrite as_u_small by (unfold is_u; lia). }
    by rewrite (Hh _ _), bind_Ok.
Qed.

Definition padded (c : Chunk) : bytes :=
  chunk_bytes c ++ replicate (get_padding_size (Chunk.value_length c)) 0.

Lemma get_padding_size_lt n : (get_padding_size n < 4)%nat.
Proof. unfold get_padding_size, PADDING_MULTIPLE. apply Nat.mod_upper_bound. lia. Qed.

Lemma padding_completes n : ((n + get_padding_size n) mod 4 = 0)%nat.
Proof.
  unfold get_padding_size, PADDING_MULTIPLE.
  pose proof (Nat.div_mod_eq n 4) as Hn. pose proof (Nat.mod_upper_bound n 4 ltac:(lia)).
  set (r := (n mod 4)%nat) in *. rewrite Hn.
  assert (r = 0 \/ r = 1 \/ r = 2 \/ r = 3)%nat as [-> | [-> | [-> | ->]]] by lia; cbn [Nat.sub];
    [change (4 mod 4)%nat with 0%nat|change (3 mod 4)%nat with 3%nat|change (2 mod 4)%nat with 2%nat
    |change (1 mod 4)%nat with 1%nat]; rewrite <-Nat.add_assoc, Nat.mul_comm; cbn [Nat.add].
  - rewrite Nat.add_0_r. apply Nat.Div0.mod_mul.
  - rewrite Nat.add_comm, Nat.Div0.mod_add. done.
  - rewrite Nat.add_comm, Nat.Div0.mod_add. done.
  - rewrite Nat.add_comm, Nat.Div0.mod_add. done.
Qed.

Lemma get_padding_size_add m n : (m mod 4 = 0)%nat -> get_padding_size (m + n) = get_padding_size n.
Proof.
  intros Hm. unfold get_padding_size, PADDING_MULTIPLE.
  by rewrite Nat.Div0.add_mod, Hm, Nat.add_0_l, Nat.Div0.mod_mod.
Qed.

Lemma length_chunk_bytes c : wf_chunk c -> length (chunk_bytes c) = (4 + Chunk.value_length c)%nat.
Proof. intros Hc. rewrite <-(app_nil_r (chunk_bytes c)), chunk_bytes_tail, length_chunk_tail by done. simpl. lia. Qed.

Lemma marshal_chunks_app cs writer :
  Forall wf_chunk cs -> (length writer mod 4 = 0)%nat ->
  Packet.marshal_chunks cs writer = Ok (writer ++ concat (map padded cs)).
Proof.
  intros Hcs. revert writer. induction Hcs as [|c cs Hc Hcs IH]; intros writer Hw.
  { cbn. by rewrite app_nil_r. }
  cbn [Packet.marshal_chunks]. rewrite chunk_marshal_to, bind_Ok by done.
  rewrite length_app, length_chunk_bytes by done.
  rewrite get_padding_size_add by done.
  assert (get_padding_size (4 + Chunk.value_length c) = get_padding_size (Chunk.value_length c)) as Hp
    by by apply (get_padding_size_add 4).
  rewrite Hp, IH.
  - cbn [map concat]. unfold padded at 2. by rewrite <-!(assoc_L (++)).
  - rewrite !length_app, length_replicate, length_chunk_bytes by done.
    replace (length writer + (4 + Chunk.value_length c) + get_padding_size (Chunk.value_length c))%nat
      with (length writer + ((4 + Chunk.value_length c) + get_padding_size (4 + Chunk.value_length c)))%nat
      by (rewrite Hp; lia).
    by rewrite Nat.Div0.add_mod, Hw, padding_completes.
Qed.

(** Only the last chunk of a packet may be one that is read to its end. *)
Definition ends_packet (c : Chunk) : bool :=
  match c with CInit _ | CAbort _ | CError _ | CShutdown _ => true | _ => false end.

Fixpoint arranged (cs : list Chunk) : Prop :=
  match cs with
  | [] | [_] => True
  | c :: cs => ends_packet c = false /\ arranged cs
  end.

Lemma unmarshal_chunks_read now fuel pre cs :
  Forall wf_chunk cs -> arranged cs -> (length cs <= fuel)%nat ->
  Z.of_nat (length (pre ++ concat (map padded cs))) < 2 ^ 63 ->
  Packet.unmarshal_chunks fuel now (pre ++ concat (map padded cs)) (length pre)
  = Ok (map (on_wire now) cs).
Proof.
  intros Hcs. revert fuel pre.
  induction Hcs as [|c cs Hc Hcs IH]; intros fuel pre Harr Hfuel Hmax.
  { destruct fuel; cbn [Packet.unmarshal_chunks map concat]; by rewrite app_nil_r, Nat.eqb_refl. }
  destruct fuel as [|fuel]; [simpl in Hfuel; lia|]. cbn [Packet.unmarshal_chunks map concat].
  pose proof (length_chunk_bytes c Hc) as Hlc. pose proof (get_padding_size_lt (Chunk.value_length c)).
  cbn [map concat] in Hmax. unfold padded at 1 in Hmax. rewrite !length_app, length_replicate in Hmax.
  set (pad := replicate (get_padding_size (Chunk.value_length c)) 0).
  set (rest := concat (map padded cs)) in *.
  assert (padded c ++ rest = chunk_bytes c ++ (pad ++ rest)) as Hraw
    by (unfold padded; by rewrite <-(assoc_L (++))).
  assert (length (pre ++ padded c ++ rest)
    = length pre + (4 + Chunk.value_length c) + get_padding_size (Chunk.value_length c) + length rest)%nat
    as Hlen by (rewrite Hraw; unfold pad; rewrite !length_app, length_replicate; lia).
  rewrite Hlen, (proj2 (Nat.eqb_neq _ _)), (proj2 (Nat.ltb_ge _ _)) by (unfold CHUNK_HEADER_SIZE; lia).
  assert (bindex (pre ++ padded c ++ rest) (length pre) = @Ok Error Z (chunk_type c)) as ->.
  { unfold bindex. replace (index _ _) with (Ret (chunk_type c)); [done|]. symmetry. apply index_Ret.
    rewrite lookup_app_r, Nat.sub_diag by lia. by rewrite Hraw. }
  rewrite bind_Ok, bslice_from_app, bind_Ok, Hraw by done.
  rewrite unmarshal_chunk_read; [|done| |unfold pad; rewrite length_app, length_replicate; lia].
  - rewrite bind_Ok. assert (Chunk.value_length (on_wire now c) = Chunk.value_length c) as ->
      by by destruct c.
    pose proof (IH fuel (pre ++ padded c)) as Hrec. rewrite <-(assoc_L (++)), Hraw in Hrec.
    assert (length (pre ++ padded c) = (length pre + (CHUNK_HEADER_SIZE + Chunk.value_length c
      + get_padding_size (Chunk.value_length c)))%nat) as HL
      by (unfold padded, CHUNK_HEADER_SIZE; rewrite !length_app, length_replicate; lia).
    rewrite HL in Hrec. rewrite Hrec; [done| |simpl in *; lia|].
    + destruct cs; [done|apply Harr].
    + rewrite <-Hraw, Hlen. lia.
  - split.
    + destruct cs as [|c' cs].
      * intros _. unfold rest. cbn [map concat]. rewrite app_nil_r. unfold pad. clear.
        induction (get_padding_size (Chunk.value_length c)); cbn [replicate]; by constructor.
      * apply Forall_cons in Hcs as [Hc' _]. intros Hshort. exfalso. revert Hshort. unfold rest.
        cbn [map concat]. unfold padded at 1. rewrite !length_app, length_chunk_bytes by done. lia.
    + destruct cs as [|c' cs].
      * unfold rest. cbn [map concat]. rewrite app_nil_r. unfold pad. rewrite length_replicate.
        destruct c; try done.
      * destruct Harr as [Hend _]. by destruct c.
Qed.

Section packets.
  Context (crc32c : bytes -> Z) (crc32c_u32 : forall raw, is_u 32 (crc32c raw)).

(** The header of a packet, and a packet with its checksum in place. *)
Definition packet_header (source_port destination_port tag : Z) : bytes :=
  put_u16 source_port ++ put_u16 destination_port ++ put_u32 tag.

Definition sealed (hdr body : bytes) : bytes :=
  hdr ++ to_le_bytes 4 (crc32c ((hdr ++ [0; 0; 0; 0]) ++ body)) ++ body.

Lemma length_packet_header s d t : length (packet_header s d t) = 8%nat.
Proof. unfold packet_header. by rewrite !length_app, !length_put_u16, length_put_u32. Qed.

Lemma unmarshal_sealed now s d t body :
  is_u 16 s -> is_u 16 d -> is_u 32 t ->
  Packet.unmarshal crc32c now (sealed (packet_header s d t) body)
  = (cs ← Packet.unmarshal_chunks (12 + length body) now (sealed (packet_header s d t) body) 12;
     Ok (mkPacket s d t cs None)).
Proof using crc32c_u32.
  intros Hs Hd Ht. pose proof (length_packet_header s d t) as Hh. unfold sealed.
  set (hdr := packet_header s d t) in *. set (sum := crc32c _).
  assert (length (to_le_bytes 4 sum) = 4%nat) as Hl by done.
  unfold Packet.unmarshal. rewrite !length_app, Hh, Hl.
  rewrite (proj2 (Nat.ltb_ge _ _)) by (unfold PACKET_HEADER_SIZE; lia).
  assert (hdr ++ to_le_bytes 4 sum ++ body
    = put_u16 s ++ put_u16 d ++ put_u32 t ++ to_le_bytes 4 sum ++ body) as Hraw
    by (unfold hdr, packet_header; by rewrite <-!(assoc_L (++))).
  rewrite Hraw at 1. rewrite get_u16_app, bind_Ok, get_u16_app, bind_Ok, get_u32_app, bind_Ok,
    get_u32_le_app, bind_Ok by (done || apply crc32c_u32).
  assert (Packet.generate_packet_checksum crc32c (hdr ++ to_le_bytes 4 sum ++ body) = Ok sum) as ->.
  { unfold Packet.generate_packet_checksum.
    pose proof (bslice_app (E:=Error) [] hdr (to_le_bytes 4 sum ++ body)) as Hb. rewrite app_nil_l in Hb.
    cbn [length] in Hb. rewrite Hb, bind_Ok by lia. rewrite (assoc_L (++)).
    rewrite bslice_from_app, bind_Ok by (rewrite length_app; lia).
    unfold sum. by rewrite <-(assoc_L (++)). }
  by rewrite bind_Ok, Z.eqb_refl.
Qed.

Definition wf_packet (p : Packet) : Prop :=
  is_u 16 (source_port p) /\ is_u 16 (destination_port p) /\ is_u 32 (verification_tag p)
  /\ Forall wf_chunk (chunks p) /\ arranged (chunks p)
  /\ Z.of_nat (length (concat (map padded (chunks p)))) < 2 ^ 62.


(** A SHUTDOWN and a FORWARD TSN without their cumulative TSN, followed by four
    bytes, and an INIT ACK whose unpadded parameter is followed by four bytes. *)
Definition short_chunks : list bytes :=
  [ [7; 0; 0; 4; 0; 0; 0; 0];
    [192; 0; 0; 4; 0; 0; 0; 0];
    [2; 0; 0; 25] ++ replicate 16 1 ++ [128; 2; 0; 5; 9] ++ replicate 7 0 ].

(** A peer can make the receiving task panic: three packets, with any ports and tag and a
    correct checksum, that [Packet::unmarshal] does not reject but panics on. The SHUTDOWN and
    FORWARD TSN decoders check the bytes left in the packet and then read from the shorter chunk
    value; the INIT decoder moves past the chunk's end by its last parameter's padding. *)
Theorem short_chunk_panics now s d t body :
  is_u 16 s -> is_u 16 d -> is_u 32 t -> body ∈ short_chunks ->
  exists why, Packet.unmarshal crc32c now (sealed (packet_header s d t) body) = Panics why.
Proof using crc32c_u32.
  intros Hs Hd Ht Hb. rewrite unmarshal_sealed by done. unfold sealed. set (sum := crc32c _).
  rewrite (assoc_L (++)).
  assert (length (packet_header s d t ++ to_le_bytes 4 sum) = 12%nat) as Hl
    by (rewrite length_app, length_packet_header; done).
  set (pre := packet_header s d t ++ to_le_bytes 4 sum) in *.
  assert (exists ct, body !! 0%nat = Some ct /\ (4 <= length body)%nat
    /\ Packet.unmarshal_chunk now ct body = Panics IndexOutOfBounds) as (ct & Hct & H4 & Hp).
  { unfold short_chunks in Hb. apply list_elem_of_In in Hb.
    destruct Hb as [<- | [<- | [<- | []]]]; [exists 7|exists 192|exists 2];
      (split; [reflexivity|split; [simpl; lia|vm_compute; reflexivity]]). }
  exists IndexOutOfBounds. cbn [Nat.add Packet.unmarshal_chunks]. rewrite length_app, Hl.
  rewrite (proj2 (Nat.eqb_neq _ _)), (proj2 (Nat.ltb_ge _ _)) by (unfold CHUNK_HEADER_SIZE; lia).
  assert (bindex (pre ++ body) 12 = @Ok Error Z ct) as ->.
  { unfold bindex. replace (index _ _) with (Ret ct); [done|]. symmetry. apply index_Ret.
    by rewrite lookup_app_r, Hl by lia. }
  by rewrite bind_Ok, bslice_from_app, bind_Ok, Hp by done.
Qed.
End packets.

Definition example_packet : Packet :=
  mkPacket 5000 5000 77
    [CSack (mkChunkSelectiveAck 9 4000 [mkGapAckBlock 2 3] [5]);
     CData (mkChunkPayloadData false true true false 10 1 2 Binary [1; 2; 3] false 0 0 1 4 false None)]
    None.

(** A 32-bit checksum for the examples. *)
Definition example_crc (raw : bytes) : Z := as_u 32 (foldr Z.add 0 raw).

Lemma example_crc_u32 raw : is_u 32 (example_crc raw).
Proof. apply as_u_range. lia. Qed.


(** ** Reading ends *)

Lemma get_u8_ends r : ends (@get_u8 Error r).
Proof. by destruct r. Qed.
Lemma get_u16_ends r : ends (@get_u16 Error r).
Proof. by destruct r as [|? [|? ?]]. Qed.
Lemma get_u32_ends r : ends (@get_u32 Error r).
Proof. by destruct r as [|? [|? [|? [|? ?]]]]. Qed.
Lemma get_u32_le_ends r : ends (@get_u32_le Error r).
Proof. by destruct r as [|? [|? [|? [|? ?]]]]. Qed.
Lemma bslice_ends r from to : ends (@bslice Error r from to).
Proof. unfold bslice, slice. by repeat case_match. Qed.
Lemma bslice_from_ends r from : ends (@bslice_from Error r from).
Proof. apply bslice_ends. Qed.
Lemma bindex_ends r i : ends (@bindex Error r i).
Proof. unfold bindex, index. by destruct (r !! i). Qed.
Lemma checked_u_ends w z : ends (@lift Error Z (checked_u w z)).
Proof. unfold checked_u. by case_match. Qed.

Create HintDb ends.
#[local] Hint Resolve get_u8_ends get_u16_ends get_u32_ends get_u32_le_ends bslice_ends
  bslice_from_ends bindex_ends checked_u_ends : ends.

(** Straight-line decoders: every step is one of the database's. *)
Ltac ends_step :=
  first
    [ solve [auto with ends nocore]
    | apply bind_ends; [|intros ? _]
    | match goal with
      | |- ends (Ok _) => discriminate
      | |- ends (Err _) => discriminate
      | |- ends (Panics _) => discriminate
      | |- ends (if ?b then _ else _) => destruct b
      | |- ends (let '(_, _) := ?p in _) => destruct p
      | |- ends (match ?x with _ => _ end) => destruct x
      end ].
Ltac ends := repeat ends_step.

Lemma read_algorithms_ends fuel n reader :
  (n <= 2 * fuel)%nat -> ends (read_algorithms fuel n reader).
Proof.
  revert n reader. induction fuel as [|fuel IH]; intros n reader Hn; cbn [read_algorithms];
    destruct (Nat.leb_spec n 1); try done; [lia|].
  apply bind_ends; [ends|intros [a r] _]. ends. apply IH. lia.
Qed.

Lemma read_u16s_ends n reader : ends (read_u16s n reader).
Proof. revert reader. induction n as [|n IH]; intros reader; cbn [read_u16s]; ends. Qed.

Lemma read_u32s_ends n reader : ends (read_u32s n reader).
Proof. revert reader. induction n as [|n IH]; intros reader; cbn [read_u32s]; ends. Qed.

Lemma read_gaps_ends n reader : ends (read_gaps n reader).
Proof. revert reader. induction n as [|n IH]; intros reader; cbn [read_gaps]; ends. Qed.

Lemma param_header_ends raw : ends (ParamHeader.unmarshal raw).
Proof. unfold ParamHeader.unmarshal. ends. Qed.

Lemma param_value_ends raw h : ends (param_value raw h).
Proof. apply bslice_ends. Qed.

#[local] Hint Resolve read_u16s_ends read_u32s_ends read_gaps_ends param_header_ends
  param_value_ends : ends.

Lemma build_param_ends raw : ends (build_param raw).
Proof.
  unfold build_param, ParamUnmarshal.forward_tsn_supported, ParamUnmarshal.supported_extensions,
    ParamUnmarshal.random, ParamUnmarshal.requested_hmac_algorithm, ParamUnmarshal.chunk_list,
    ParamUnmarshal.state_cookie, ParamUnmarshal.heartbeat_info, ParamUnmarshal.outgoing_reset_request,
    ParamUnmarshal.reconfig_response, ParamUnmarshal.unknown.
  ends. apply read_algorithms_ends. lia.
Qed.

Lemma padding_ends raw v n : ends (ChunkHeader.padding_is_zero raw v n).
Proof. unfold ChunkHeader.padding_is_zero. induction n as [|n IH]; ends. Qed.

#[local] Hint Resolve build_param_ends padding_ends : ends.

Lemma chunk_header_ends raw : ends (ChunkHeader.unmarshal raw).
Proof. unfold ChunkHeader.unmarshal. ends. Qed.

Lemma chunk_value_ends raw h : ends (chunk_value raw h).
Proof. apply bslice_ends. Qed.

#[local] Hint Resolve chunk_header_ends chunk_value_ends : ends.

Lemma read_params_ends fuel raw h offset remaining :
  remaining <= Z.of_nat fuel -> ends (ChunkInit.read_params fuel raw h offset remaining).
Proof.
  revert offset remaining. induction fuel as [|fuel IH]; intros offset remaining Hr;
    cbn [ChunkInit.read_params]; destruct (Z.ltb_spec remaining (Z.of_nat INIT_OPTIONAL_VAR_HEADER_LENGTH));
    unfold INIT_OPTIONAL_VAR_HEADER_LENGTH, PARAM_HEADER_LENGTH in *; try done; [lia|].
  ends. apply IH. lia.
Qed.

Lemma read_streams_ends fuel buf h offset remaining :
  (remaining <= 4 * fuel)%nat -> ends (ChunkForwardTsn.read_streams fuel buf h offset remaining).
Proof.
  revert offset remaining. induction fuel as [|fuel IH]; intros offset remaining Hr;
    cbn [ChunkForwardTsn.read_streams]; destruct (Nat.eqb_spec remaining 0);
    try done; [lia|]. destruct (offset =? chunk_end h)%nat; [done|].
  apply bind_ends; [ends|intros rest _].
  apply bind_ends; [unfold ChunkForwardTsnStream.unmarshal; ends|intros s _].
  apply bind_ends; [ends|]. intros left Hleft. apply bind_ends; [|done]. apply IH.
  unfold FORWARD_TSN_STREAM_LENGTH, checked_u in Hleft. case_match; simplify_eq/=. lia.
Qed.

Lemma read_causes_ends fuel raw h offset :
  (length raw <= offset + 4 * fuel)%nat -> ends (ErrorCause.read_all fuel raw h offset).
Proof.
  revert offset. induction fuel as [|fuel IH]; intros offset Hr; cbn [ErrorCause.read_all];
    destruct (Nat.ltb_spec (length raw) (offset + 4)); try done; [lia|].
  ends.
  - unfold ErrorCause.unmarshal. ends.
  - apply IH. unfold ErrorCause.cause_length, ERROR_CAUSE_HEADER_LENGTH. lia.
Qed.

Lemma unmarshal_chunk_ends now ct raw : ends (Packet.unmarshal_chunk now ct raw).
Proof.
  unfold Packet.unmarshal_chunk, ChunkInit.unmarshal, ChunkAbort.unmarshal, ChunkError.unmarshal,
    ChunkCookieEcho.unmarshal, ChunkHeartbeat.unmarshal, ChunkPayloadData.unmarshal,
    ChunkSelectiveAck.unmarshal, ChunkReconfig.unmarshal, ChunkForwardTsn.unmarshal,
    ChunkShutdown.unmarshal, ChunkUnknown.unmarshal, unmarshal_empty.
  ends; first [apply read_params_ends | apply read_causes_ends | apply read_streams_ends]; lia.
Qed.

Lemma unmarshal_chunks_ends fuel now raw offset :
  (length raw <= offset + 4 * fuel)%nat -> ends (Packet.unmarshal_chunks fuel now raw offset).
Proof.
  revert offset. induction fuel as [|fuel IH]; intros offset Hr; cbn [Packet.unmarshal_chunks];
    destruct (offset =? length raw)%nat; try done;
    destruct (Nat.ltb_spec (length raw) (offset + CHUNK_HEADER_SIZE)); unfold CHUNK_HEADER_SIZE in *;
    try done; [lia|].
  ends; [apply unmarshal_chunk_ends|]. apply IH. lia.
Qed.

(** C38: Reading a packet ends whatever its bytes are: every loop (over the chunks, the parameters of
    an INIT, the causes of an ABORT or ERROR, the streams of a FORWARD TSN) consumes bytes in every
    iteration, so the packet's length bounds them all. *)
Theorem packet_unmarshal_ends crc32c now raw : Packet.unmarshal crc32c now raw <> NoFuel.
Proof.
  change (ends (Packet.unmarshal crc32c now raw)).
  unfold Packet.unmarshal, Packet.generate_packet_checksum. ends.
  apply unmarshal_chunks_ends. lia.
Qed.

(** ** Serial numbers less than half of their range apart *)

Lemma residues_window w a b :
  0 < w -> Z.abs (a - b) < 2 ^ (w - 1) ->
  let ra := as_u w a in let rb := as_u w b in
  is_u w ra /\ is_u w rb
  /\ (ra - rb = a - b \/ ra - rb = a - b - 2 ^ w \/ ra - rb = a - b + 2 ^ w).
Proof.
  intros Hw H. simpl. unfold as_u. assert (0 < 2 ^ w) by lia.
  assert (2 ^ w = 2 * 2 ^ (w - 1)) as Hd by (rewrite <-Z.pow_succ_r by lia; f_equal; lia).
  pose proof (Z.div_mod a (2 ^ w) ltac:(lia)). pose proof (Z.div_mod b (2 ^ w) ltac:(lia)).
  pose proof (Z.mod_pos_bound a (2 ^ w) ltac:(lia)). pose proof (Z.mod_pos_bound b (2 ^ w) ltac:(lia)).
  set (qa := a / 2 ^ w) in *. set (qb := b / 2 ^ w) in *.
  assert (qa = qb \/ qa = qb + 1 \/ qb = qa + 1) as [-> | [-> | ->]] by nia;
    (split; [done|split; [done|lia]]).
Qed.

Ltac sna_window w :=
  match goal with
  | H : Z.abs (?a - ?b) < _ |- _ =>
      pose proof (residues_window w a b ltac:(lia) H) as (Ha & Hb & Hab); unfold is_u in Ha, Hb;
      set (ra := as_u w a) in *; set (rb := as_u w b) in *; clearbody ra rb
  end; cbn [Z.sub Z.pos_sub Pos.pred_double Z.opp Z.add] in *;
  unfold sna16lt, sna16gt, sna32lt, sna32gt in *;
  change (Z.shiftl 1 15) with (2 ^ 15); change (Z.shiftl 1 31) with (2 ^ 31).

Lemma sna16lt_window a b : Z.abs (a - b) < 2 ^ 15 -> sna16lt (as_u 16 a) (as_u 16 b) = (a <? b).
Proof. intros H. sna_window 16. lia. Qed.

Lemma sna16gt_window a b : Z.abs (a - b) < 2 ^ 15 -> sna16gt (as_u 16 a) (as_u 16 b) = (b <? a).
Proof. intros H. sna_window 16. lia. Qed.

Lemma sna16_eq_window a b : Z.abs (a - b) < 2 ^ 15 -> (as_u 16 a =? as_u 16 b) = (a =? b).
Proof. intros H. sna_window 16. lia. Qed.

Lemma sna16lte_window a b : Z.abs (a - b) < 2 ^ 15 -> sna16lte (as_u 16 a) (as_u 16 b) = (a <=? b).
Proof. intros H. unfold sna16lte. rewrite sna16lt_window, sna16_eq_window by done. lia. Qed.

Lemma sna32lt_window a b : Z.abs (a - b) < 2 ^ 31 -> sna32lt (as_u 32 a) (as_u 32 b) = (a <? b).
Proof. intros H. sna_window 32. lia. Qed.

Lemma sna32gt_window a b : Z.abs (a - b) < 2 ^ 31 -> sna32gt (as_u 32 a) (as_u 32 b) = (b <? a).
Proof. intros H. sna_window 32. lia. Qed.

Lemma sna32_eq_window a b : Z.abs (a - b) < 2 ^ 31 -> (as_u 32 a =? as_u 32 b) = (a =? b).
Proof. intros H. sna_window 32. lia. Qed.

Lemma sna32lte_window a b : Z.abs (a - b) < 2 ^ 31 -> sna32lte (as_u 32 a) (as_u 32 b) = (a <=? b).
Proof. intros H. unfold sna32lte. rewrite sna32lt_window, sna32_eq_window by done. lia. Qed.

Lemma sna32gte_window a b : Z.abs (a - b) < 2 ^ 31 -> sna32gte (as_u 32 a) (as_u 32 b) = (b <=? a).
Proof. intros H. unfold sna32gte. rewrite sna32gt_window, sna32_eq_window by done. lia. Qed.

(** Without a turn of the counter: numbers that are close as they are. *)
Lemma sna32lt_close a b : is_u 32 a -> is_u 32 b -> Z.abs (a - b) < 2 ^ 31 -> sna32lt a b = (a <? b).
Proof. intros Ha Hb H. rewrite <-(sna32lt_window a b H). by rewrite !as_u_small. Qed.
