(* ===== verification/F64.v ===== *)
(** * IEEE 754 binary64

    Rust's [f64], on the Standard Library's executable specification of
    floating-point arithmetic ([SpecFloat], no NaN payloads, rounding to nearest
    even): the operations the sources use, and the order theory their sorts and
    thresholds rely on. *)

From stdpp Require Import base list.
From Stdlib Require Import ZArith Lia SpecFloat Sorting.Sorted Permutation.
From S2P Require Import Prelude.
Local Open Scope Z_scope.

Abbreviation f64 := spec_float (only parsing).

Definition f64_prec : Z := 53.
Definition f64_emax : Z := 1024.

Definition f64_add : f64 -> f64 -> f64 := SFadd f64_prec f64_emax.
Definition f64_sub : f64 -> f64 -> f64 := SFsub f64_prec f64_emax.
Definition f64_mul : f64 -> f64 -> f64 := SFmul f64_prec f64_emax.
Definition f64_div : f64 -> f64 -> f64 := SFdiv f64_prec f64_emax.
Definition f64_sqrt : f64 -> f64 := SFsqrt f64_prec f64_emax.
Definition f64_abs : f64 -> f64 := SFabs.
Definition f64_ltb : f64 -> f64 -> bool := SFltb.
Definition f64_leb : f64 -> f64 -> bool := SFleb.
Definition f64_gtb (x y : f64) : bool := SFltb y x.

(** [z as f64] for an integer of any width used. *)
Definition f64_of_Z (z : Z) : f64 := binary_normalize f64_prec f64_emax z 0 false.

Definition f64_zero : f64 := S754_zero false.

Definition is_nan (x : f64) : bool := match x with S754_nan => true | _ => false end.

(** [x.max(y)]: the other operand when one is NaN. *)
Definition f64_max (x y : f64) : f64 :=
  if is_nan x then y else if is_nan y then x else if f64_ltb x y then y else x.

(** [x.powi(2)]. *)
Definition f64_square (x : f64) : f64 := f64_mul x x.

(** [l.iter().sum::<f64>()]; the sums of the sources have a term that is not
    [-0.0], so that it does not matter which zero they start from. *)
Definition f64_sum (l : list f64) : f64 := foldl f64_add f64_zero l.

(** [a.partial_cmp(b).unwrap_or(Equal)]. *)
Definition f64_cmp (a b : f64) : comparison :=
  match SFcompare a b with Some c => c | None => Eq end.

(** [x.ceil()] *)
Definition f64_ceil (x : f64) : f64 :=
  match x with
  | S754_finite s m e =>
      if 0 <=? e then x
      else
        let c := - ((- (if s then Zneg m else Zpos m)) / 2 ^ (- e)) in
        if c =? 0 then S754_zero s else f64_of_Z c
  | _ => x
  end.

(** [x as u64], which saturates. *)
Definition f64_as_u64 (x : f64) : Z :=
  match x with
  | S754_nan | S754_zero _ | S754_infinity true | S754_finite true _ _ => 0
  | S754_infinity false => 2 ^ 64 - 1
  | S754_finite false m e =>
      Z.min (2 ^ 64 - 1) (if 0 <=? e then Zpos m * 2 ^ e else Zpos m / 2 ^ (- e))
  end.

(** ** The order of the numbers

    [SFcompare] on numbers is the lexicographic order of [f64_key]. *)

Definition f64_key (x : f64) : Z * Z * Z :=
  match x with
  | S754_infinity true => (-2, 0, 0)
  | S754_finite true m e => (-1, - e, - Zpos m)
  | S754_zero _ => (0, 0, 0)
  | S754_nan => (0, 0, 0)
  | S754_finite false m e => (1, e, Zpos m)
  | S754_infinity false => (2, 0, 0)
  end.

Definition key_le (a b : Z * Z * Z) : Prop :=
  let '(a1, a2, a3) := a in
  let '(b1, b2, b3) := b in
  a1 < b1 \/ (a1 = b1 /\ (a2 < b2 \/ (a2 = b2 /\ a3 <= b3))).

Definition f64_le (x y : f64) : Prop := key_le (f64_key x) (f64_key y).

#[export] Instance f64_le_refl : Reflexive f64_le.
Proof. intros x. unfold f64_le, key_le. destruct (f64_key x) as [[? ?] ?]. lia. Qed.

#[export] Instance f64_le_trans : Transitive f64_le.
Proof.
  intros x y z. unfold f64_le, key_le.
  destruct (f64_key x) as [[? ?] ?], (f64_key y) as [[? ?] ?], (f64_key z) as [[? ?] ?]. lia.
Qed.

Lemma f64_le_total x y : f64_le x y \/ f64_le y x.
Proof.
  unfold f64_le, key_le. destruct (f64_key x) as [[? ?] ?], (f64_key y) as [[? ?] ?]. lia.
Qed.

(** The comparison the sorts use agrees with the order on numbers. *)
Lemma f64_cmp_le x y :
  is_nan x = false -> is_nan y = false -> f64_cmp x y <> Gt <-> f64_le x y.
Proof.
  intros Hx Hy. unfold f64_cmp, f64_le, key_le, f64_key.
  destruct x as [sx|sx| |sx mx ex], y as [sy|sy| |sy my ey]; try done;
    try (destruct sx, sy; simpl; split; intros; try done; lia);
    try (destruct sx; simpl; split; intros; try done; lia);
    try (destruct sy; simpl; split; intros; try done; lia);
    try (simpl; split; intros; try done; lia).
  simpl. fold (Pos.compare mx my). destruct sx, sy; try (split; intros; try done; lia).
  - destruct (Z.compare_spec ex ey); subst.
    + rewrite <- Pos.compare_antisym. destruct (Pos.compare_spec my mx); subst;
        split; intros; try done; lia.
    + split; intros; try done; lia.
    + split; intros; try done; lia.
  - destruct (Z.compare_spec ex ey); subst.
    + destruct (Pos.compare_spec mx my); subst; split; intros; try done; lia.
    + split; intros; try done; lia.
    + split; intros; try done; lia.
Qed.

(** ** NaN-freeness *)

Lemma shr_1_nonneg r : 0 <= shr_m r -> 0 <= shr_m (shr_1 r).
Proof. destruct r as [[|[]|[]] ? ?]; simpl; lia. Qed.

Lemma iter_pos_shr_nonneg p r : 0 <= shr_m r -> 0 <= shr_m (iter_pos shr_1 p r).
Proof.
  revert r. induction p as [p IH|p IH|]; intros r Hr; simpl.
  - apply IH, IH. by apply shr_1_nonneg.
  - by apply IH, IH.
  - by apply shr_1_nonneg.
Qed.

Lemma shr_nonneg r e n : 0 <= shr_m r -> 0 <= shr_m (fst (shr r e n)).
Proof. intros Hr. destruct n; simpl; try done. by apply iter_pos_shr_nonneg. Qed.

Lemma shr_record_of_loc_m m l : shr_m (shr_record_of_loc m l) = m.
Proof. by destruct l as [|[]]. Qed.

Lemma round_nearest_even_nonneg m l : 0 <= m -> 0 <= round_nearest_even m l.
Proof. intros ?. destruct l as [|[]]; simpl; try lia. destruct (Z.even m); lia. Qed.

Lemma binary_round_aux_not_nan prec emax s m e l :
  0 <= m -> is_nan (binary_round_aux prec emax s m e l) = false.
Proof.
  intros Hm. unfold binary_round_aux, shr_fexp.
  pose proof (shr_nonneg (shr_record_of_loc m l) e (fexp prec emax (Zdigits2 m + e) - e)) as H1.
  rewrite shr_record_of_loc_m in H1. specialize (H1 Hm).
  destruct (shr (shr_record_of_loc m l) e _) as [r1 e1]. simpl in H1.
  set (m2 := round_nearest_even (shr_m r1) (loc_of_shr_record r1)).
  assert (0 <= m2) as Hm2 by by apply round_nearest_even_nonneg.
  pose proof (shr_nonneg (shr_record_of_loc m2 loc_Exact) e1
    (fexp prec emax (Zdigits2 m2 + e1) - e1)) as H2.
  rewrite shr_record_of_loc_m in H2. specialize (H2 Hm2).
  destruct (shr (shr_record_of_loc m2 loc_Exact) e1 _) as [r2 e2]. simpl in H2.
  destruct (shr_m r2); [done| |lia]. by destruct (e2 <=? emax - prec).
Qed.

Lemma binary_normalize_not_nan prec emax m e s :
  is_nan (binary_normalize prec emax m e s) = false.
Proof.
  destruct m as [|m|m]; simpl; [done| |]; unfold binary_round;
    destruct (shl_align _ _ _); by apply binary_round_aux_not_nan.
Qed.

Lemma f64_of_Z_not_nan z : is_nan (f64_of_Z z) = false.
Proof. apply binary_normalize_not_nan. Qed.

Definition is_finite (x : f64) : bool :=
  match x with S754_zero _ | S754_finite _ _ _ => true | _ => false end.

Lemma f64_sub_not_nan x y : is_finite x = true -> is_nan y = false -> is_nan (f64_sub x y) = false.
Proof.
  intros Hx Hy. unfold f64_sub, SFsub.
  destruct x as [[]|[]| |[] mx ex], y as [[]|[]| |[] my ey]; try done;
    apply binary_normalize_not_nan.
Qed.

(** ** Integers are finite

    A 64-bit integer converts to a finite number, and to zero only if it is
    zero: the rounding never shifts all its digits out. *)

Lemma digits2_pos_bounds p : 2 ^ (Zpos (digits2_pos p) - 1) <= Zpos p < 2 ^ Zpos (digits2_pos p).
Proof.
  induction p as [p IH|p IH|]; simpl digits2_pos; [| |simpl; lia].
  all: rewrite Pos2Z.inj_succ; replace (Z.succ (Zpos (digits2_pos p)) - 1) with
    (Z.succ (Zpos (digits2_pos p) - 1)) by lia;
    rewrite !Z.pow_succ_r by lia; lia.
Qed.

Lemma Zdigits2_bounds m : 0 < m -> 2 ^ (Zdigits2 m - 1) <= m < 2 ^ Zdigits2 m /\ 0 < Zdigits2 m.
Proof. intros. destruct m as [|p|p]; try lia. simpl. pose proof (digits2_pos_bounds p). lia. Qed.

Lemma shr_1_m r : 0 <= shr_m r -> shr_m (shr_1 r) = shr_m r / 2.
Proof.
  destruct r as [[|[p|p|]|p] ? ?]; simpl; intros; try done; try lia.
  - apply Z.div_unique with 1; lia.
  - apply Z.div_unique with 0; lia.
Qed.

Lemma iter_pos_shr_m p r : 0 <= shr_m r -> shr_m (iter_pos shr_1 p r) = shr_m r / 2 ^ Zpos p.
Proof.
  revert r. induction p as [p IH|p IH|]; intros r Hr; simpl.
  - rewrite IH by (apply iter_pos_shr_nonneg; by apply shr_1_nonneg).
    rewrite IH by by apply shr_1_nonneg.
    rewrite shr_1_m by done. rewrite !Z.div_div by lia. f_equal.
    replace (Zpos p~1) with (1 + (Zpos p + Zpos p)) by lia.
    rewrite !Z.pow_add_r by lia. ring.
  - rewrite IH by by apply iter_pos_shr_nonneg. rewrite IH by done.
    rewrite Z.div_div by lia. f_equal.
    replace (Zpos p~0) with (Zpos p + Zpos p) by lia. by rewrite Z.pow_add_r by lia.
  - rewrite shr_1_m by done. done.
Qed.

(** A shift to the precision keeps a non-zero significand and moves the
    exponent by no more than the excess digits. *)
Lemma shr_fexp_pos m e l :
  0 < m -> -1074 <= e -> Zdigits2 m <= 100 ->
  let r := shr_fexp f64_prec f64_emax m e l in
  0 < shr_m r.1 <= m /\ e <= r.2 <= e + 100.
Proof.
  intros Hm He Hd. unfold shr_fexp. destruct (Zdigits2_bounds m Hm) as [[Hlo Hhi] Hd0].
  set (n := fexp f64_prec f64_emax (Zdigits2 m + e) - e).
  assert (n <= Z.max 0 (Zdigits2 m - 53)) as Hn.
  { subst n. unfold fexp, SpecFloat.emin, f64_prec, f64_emax. lia. }
  pose proof (shr_record_of_loc_m m l) as Hr.
  destruct n as [|p|p] eqn:E; simpl; rewrite ?Hr; try lia.
  rewrite iter_pos_shr_m, Hr by (rewrite Hr; lia). split; [|lia]. split.
  - apply Z.div_str_pos. split; [lia|]. transitivity (2 ^ (Zdigits2 m - 1)); [|done].
    apply Z.pow_le_mono_r; lia.
  - apply Z.div_le_upper_bound; [lia|]. nia.
Qed.

Lemma round_nearest_even_bounds m l : m <= round_nearest_even m l <= m + 1.
Proof. destruct l as [|[]]; simpl; try lia. destruct (Z.even m); lia. Qed.

Lemma Zdigits2_le m n : 0 < m < 2 ^ n -> 0 <= n -> Zdigits2 m <= n.
Proof.
  intros Hm Hn. destruct (Zdigits2_bounds m) as [[Hlo _] Hd]; [lia|].
  assert (2 ^ (Zdigits2 m - 1) < 2 ^ n) as Hlt by lia.
  apply Z.pow_lt_mono_r_iff in Hlt; lia.
Qed.

Lemma binary_round_aux_finite s m e l :
  0 < m < 2 ^ 98 -> -1074 <= e <= 700 ->
  exists m' e', binary_round_aux f64_prec f64_emax s m e l = S754_finite s m' e'.
Proof.
  intros Hm He. unfold binary_round_aux.
  pose proof (shr_fexp_pos m e l) as H1.
  destruct (shr_fexp f64_prec f64_emax m e l) as [r1 e1].
  cbv zeta in H1. cbn [fst snd] in H1.
  destruct H1 as [H1 H1']; [lia|lia|pose proof (Zdigits2_le m 98); lia|].
  set (m2 := round_nearest_even (shr_m r1) (loc_of_shr_record r1)).
  pose proof (round_nearest_even_bounds (shr_m r1) (loc_of_shr_record r1)) as Hm2.
  fold m2 in Hm2. pose proof (shr_fexp_pos m2 e1 loc_Exact) as H2.
  destruct (shr_fexp f64_prec f64_emax m2 e1 loc_Exact) as [r2 e2].
  cbv zeta in H2. cbn [fst snd] in H2.
  destruct H2 as [H2 H2']; [lia|lia|pose proof (Zdigits2_le m2 99); lia|].
  destruct (shr_m r2) as [|p|p]; try lia.
  exists p, e2. destruct (Z.leb_spec e2 (f64_emax - f64_prec)); [done|].
  unfold f64_emax, f64_prec in *. lia.
Qed.

Lemma shift_pos_pow d p : Zpos (Pos.iter xO p d) = Zpos p * 2 ^ Zpos d.
Proof. rewrite Z.mul_comm, <- Z.pow_pos_fold. apply shift_pos_correct. Qed.

Lemma binary_round_finite s p :
  Zpos p < 2 ^ 65 -> exists m e, binary_round f64_prec f64_emax s p 0 = S754_finite s m e.
Proof.
  intros Hp. unfold binary_round, shl_align.
  pose proof (digits2_pos_bounds p) as [Hlo Hhi].
  pose proof (Zdigits2_le (Zpos p) 65 ltac:(lia) ltac:(lia)) as Hd. simpl in Hd.
  rewrite Z.add_0_r, Z.sub_0_r.
  assert (fexp f64_prec f64_emax (Zpos (digits2_pos p)) = Zpos (digits2_pos p) - 53) as Hf.
  { unfold fexp, SpecFloat.emin, f64_prec, f64_emax. lia. }
  rewrite Hf. destruct (Zpos (digits2_pos p) - 53) as [|n|n] eqn:E;
    apply binary_round_aux_finite; try lia.
  rewrite shift_pos_pow.
  assert (Zpos p * 2 ^ Zpos n < 2 ^ Zpos (digits2_pos p) * 2 ^ Zpos n) by nia.
  rewrite <- Z.pow_add_r in * by lia.
  assert (2 ^ (Zpos (digits2_pos p) + Zpos n) <= 2 ^ 53) by (apply Z.pow_le_mono_r; lia). lia.
Qed.

Lemma f64_of_Z_finite z : Z.abs z < 2 ^ 65 -> is_finite (f64_of_Z z) = true.
Proof.
  intros Hz. unfold f64_of_Z. destruct z as [|p|p]; simpl binary_normalize; [done| |].
  - by destruct (binary_round_finite false p) as (m & e & ->); [lia|].
  - by destruct (binary_round_finite true p) as (m & e & ->); [lia|].
Qed.

Lemma f64_of_Z_pos z : 0 < z < 2 ^ 65 -> exists m e, f64_of_Z z = S754_finite false m e.
Proof.
  intros Hz. unfold f64_of_Z. destruct z as [|p|p]; try lia. apply binary_round_finite. lia.
Qed.

Lemma f64_add_not_nan x y : is_nan x = false -> is_finite y = true -> is_nan (f64_add x y) = false.
Proof.
  intros Hx Hy. unfold f64_add, SFadd.
  destruct x as [[]|[]| |[] mx ex], y as [[]|[]| |[] my ey]; try done;
    apply binary_normalize_not_nan.
Qed.

Lemma f64_div_pos_not_nan x z :
  is_nan x = false -> 0 < z < 2 ^ 65 -> is_nan (f64_div x (f64_of_Z z)) = false.
Proof.
  intros Hx Hz. destruct (f64_of_Z_pos z Hz) as (m & e & ->). unfold f64_div, SFdiv.
  destruct x as [?|?| |s mx ex]; try done.
  destruct (SFdiv_core_binary f64_prec f64_emax (Zpos mx) ex (Zpos m) e) as [[mz ez] lz] eqn:E.
  apply binary_round_aux_not_nan. revert E. unfold SFdiv_core_binary.
  set (m' := match _ with Z0 => _ | Zpos _ => _ | Zneg _ => _ end).
  assert (0 <= m') as Hm'.
  { subst m'. destruct (ex - e - _) eqn:Es; try lia. by apply Z.shiftl_nonneg. }
  pose proof (Z.div_pos m' (Zpos m) Hm' ltac:(lia)) as Hq. unfold Z.div in Hq.
  destruct (Z.div_eucl m' (Zpos m)) as [q r]. by intros [= <- <- <-].
Qed.

(** ** Exact integers *)

Lemma Zdigits2_eq m d : 2 ^ (d - 1) <= m < 2 ^ d -> 0 < d -> Zdigits2 m = d.
Proof.
  intros Hm Hd. destruct (Zdigits2_bounds m) as [[Hlo Hhi] Hd'].
  { pose proof (Z.pow_pos_nonneg 2 (d - 1)). lia. }
  assert (d - 1 < Zdigits2 m) by (apply (Z.pow_lt_mono_r_iff 2); lia).
  assert (Zdigits2 m - 1 < d) by (apply (Z.pow_lt_mono_r_iff 2); lia). lia.
Qed.

(** A significand of full width is not rounded. *)
Lemma shr_fexp_full m e :
  2 ^ 52 <= m < 2 ^ 53 -> -1074 <= e ->
  shr_fexp f64_prec f64_emax m e loc_Exact = (shr_record_of_loc m loc_Exact, e).
Proof.
  intros Hm He. unfold shr_fexp. rewrite (Zdigits2_eq m 53) by lia.
  replace (fexp f64_prec f64_emax (53 + e) - e) with 0
    by (unfold fexp, SpecFloat.emin, f64_prec, f64_emax; lia). done.
Qed.

Lemma binary_round_aux_full s m e :
  2 ^ 52 <= m < 2 ^ 53 -> -1074 <= e <= 971 ->
  binary_round_aux f64_prec f64_emax s m e loc_Exact = S754_finite s (Z.to_pos m) e.
Proof.
  intros Hm He. unfold binary_round_aux. rewrite shr_fexp_full by lia. cbn [shr_record_of_loc].
  simpl round_nearest_even. rewrite shr_fexp_full by lia. cbn [shr_record_of_loc shr_m].
  destruct m as [|p|p]; try lia. unfold f64_emax, f64_prec.
  destruct (Z.leb_spec e (1024 - 53)); [done|lia].
Qed.

Lemma binary_round_aux_even s m e :
  2 ^ 52 <= m < 2 ^ 53 -> -1074 <= e <= 970 ->
  binary_round_aux f64_prec f64_emax s (2 * m) e loc_Exact = S754_finite s (Z.to_pos m) (e + 1).
Proof.
  intros Hm He. rewrite <- (binary_round_aux_full s m (e + 1)) by lia.
  unfold binary_round_aux at 1. unfold shr_fexp at 1. rewrite (Zdigits2_eq (2 * m) 54) by lia.
  replace (fexp f64_prec f64_emax (54 + e) - e) with 1
    by (unfold fexp, SpecFloat.emin, f64_prec, f64_emax; lia).
  unfold binary_round_aux. rewrite (shr_fexp_full m) by lia.
  destruct m as [|p|p]; try lia. done.
Qed.

(** Integers below [2^53] are exact. *)
Lemma f64_of_Z_exact n :
  0 < n < 2 ^ 53 ->
  exists m e, f64_of_Z n = S754_finite false m e /\ 2 ^ 52 <= Zpos m < 2 ^ 53
    /\ -52 <= e <= 0 /\ Zpos m = n * 2 ^ (- e).
Proof.
  intros Hn. destruct n as [|p|p]; try lia. unfold f64_of_Z, binary_normalize, binary_round, shl_align.
  pose proof (digits2_pos_bounds p) as [Hlo Hhi].
  pose proof (Zdigits2_le (Zpos p) 53 ltac:(lia) ltac:(lia)) as Hd. simpl in Hd.
  rewrite Z.add_0_r, Z.sub_0_r.
  assert (fexp f64_prec f64_emax (Zpos (digits2_pos p)) = Zpos (digits2_pos p) - 53) as Hf.
  { unfold fexp, SpecFloat.emin, f64_prec, f64_emax. lia. }
  rewrite Hf. destruct (Zpos (digits2_pos p) - 53) as [|k|k] eqn:E; [|lia|].
  - replace (Zpos (digits2_pos p)) with 53 in * by lia.
    rewrite binary_round_aux_full by lia. exists p, 0. repeat split; simpl; lia.
  - assert (2 ^ 52 <= Zpos p * 2 ^ Zpos k < 2 ^ 53) as Hm.
    { replace 52 with (Zpos (digits2_pos p) - 1 + Zpos k) by lia.
      replace 53 with (Zpos (digits2_pos p) + Zpos k) by lia.
      rewrite !Z.pow_add_r by lia. pose proof (Z.pow_pos_nonneg 2 (Zpos k)). nia. }
    assert (Zpos (PosDef.Pos.iter xO p k) = Zpos p * 2 ^ Zpos k) as Hs by exact (shift_pos_pow k p).
    rewrite binary_round_aux_full by (rewrite ?Hs; lia).
    eexists _, (Zneg k). split; [reflexivity|]. rewrite Z2Pos.id, Hs by (rewrite ?Hs; lia).
    repeat split; lia.
Qed.

(** Dividing one by [2^20] only changes the exponent. *)
Lemma f64_div_pow20 n :
  0 < n < 2 ^ 53 ->
  exists m e, f64_div (f64_of_Z n) (f64_of_Z 1048576) = S754_finite false m e
    /\ -72 <= e <= -20 /\ Zpos m = n * 2 ^ (- e - 20).
Proof.
  intros Hn. destruct (f64_of_Z_exact n Hn) as (m & e & -> & Hm & He & Hmn).
  change (f64_of_Z 1048576) with (S754_finite false (2 ^ 52)%positive (-32)).
  unfold f64_div, SFdiv, SFdiv_core_binary.
  rewrite (Zdigits2_eq (Zpos m) 53) by lia. change (Zdigits2 (Zpos (2 ^ 52))) with 53.
  replace (Z.min _ _) with (e - 21)
    by (unfold fexp, SpecFloat.emin, f64_prec, f64_emax; lia).
  replace (e - -32 - (e - 21)) with 53 by lia.
  rewrite Z.shiftl_mul_pow2 by lia.
  replace (Zpos m * 2 ^ 53) with ((2 * Zpos m) * Zpos (2 ^ 52)) by lia.
  pose proof (Z.div_mul (2 * Zpos m) (Zpos (2 ^ 52)) ltac:(lia)) as Hq.
  pose proof (Z.mod_mul (2 * Zpos m) (Zpos (2 ^ 52)) ltac:(lia)) as Hr.
  unfold Z.div in Hq. unfold Z.modulo in Hr.
  destruct (Z.div_eucl _ _) as [q r]. subst q r.
  change (new_location (Zpos (2 ^ 52)) 0) with loc_Exact. cbn [xorb].
  rewrite binary_round_aux_even by lia. eexists _, _. split; [reflexivity|].
  split; [lia|]. rewrite Z2Pos.id by lia. rewrite Hmn. f_equal. f_equal. lia.
Qed.

Lemma f64_as_u64_of_Z n : 0 < n < 2 ^ 53 -> f64_as_u64 (f64_of_Z n) = n.
Proof.
  intros Hn. destruct (f64_of_Z_exact n Hn) as (m & e & -> & Hm & He & Hmn). simpl.
  destruct (Z.leb_spec 0 e).
  - replace e with 0 in * by lia. rewrite Z.mul_1_r in *. lia.
  - rewrite Hmn, Z.div_mul by (apply Z.pow_nonzero; lia). lia.
Qed.

(** [(n as f64 / 1048576.0).ceil() as u64] *)
Lemma f64_ceil_mebibytes n :
  0 <= n < 2 ^ 53 ->
  f64_as_u64 (f64_ceil (f64_div (f64_of_Z n) (f64_of_Z 1048576))) = (n + 1048575) / 1048576.
Proof.
  intros Hn. destruct (decide (n = 0)) as [->|Hn0]; [vm_compute; done|].
  destruct (f64_div_pow20 n) as (m & e & -> & He & Hm); [lia|]. unfold f64_ceil.
  destruct (Z.leb_spec 0 e); [lia|].
  assert (- (- Zpos m / 2 ^ (- e)) = (n + 1048575) / 1048576) as Hc.
  { rewrite Hm. replace (2 ^ (- e)) with (1048576 * 2 ^ (- e - 20)).
    2: { change 1048576 with (2 ^ 20). rewrite <- Z.pow_add_r by lia. f_equal. lia. }
    rewrite <- Z.mul_opp_l, Z.div_mul_cancel_r by (try apply Z.pow_nonzero; lia).
    pose proof (Z.div_mod (- n) 1048576). pose proof (Z.mod_pos_bound (- n) 1048576).
    apply (Z.div_unique_pos _ _ _ (1048575 - (- n) mod 1048576)); lia. }
  change (Zneg m) with (- Zpos m) in *. cbv zeta. rewrite Hc.
  assert (0 < (n + 1048575) / 1048576 <= n).
  { split; [apply Z.div_str_pos; lia|]. apply Z.div_le_upper_bound; lia. }
  destruct (Z.eqb_spec ((n + 1048575) / 1048576) 0); [lia|]. apply f64_as_u64_of_Z. lia.
Qed.

(** ** Sorting

    [slice::sort_by] is stable; insertion from the right is, too.  Any stable
    sort returns the same list when the comparison is a total preorder. *)

Fixpoint insert_by {A} (cmp : A -> A -> comparison) (x : A) (l : list A) : list A :=
  match l with
  | [] => [x]
  | y :: l' => match cmp x y with
               | Gt => y :: insert_by cmp x l'
               | _ => x :: l
               end
  end.

Definition sort_by {A} (cmp : A -> A -> comparison) (l : list A) : list A :=
  foldr (insert_by cmp) [] l.

Definition f64_sort (l : list f64) : list f64 := sort_by f64_cmp l.

Lemma insert_by_perm {A} cmp (x : A) l : Permutation (insert_by cmp x l) (x :: l).
Proof.
  induction l as [|y l IH]; simpl; [done|].
  destruct (cmp x y); try done. rewrite IH. apply perm_swap.
Qed.

Lemma sort_by_perm {A} cmp (l : list A) : Permutation (sort_by cmp l) l.
Proof.
  induction l as [|x l IH]; simpl; [done|]. by rewrite insert_by_perm, IH.
Qed.

Lemma length_f64_sort l : length (f64_sort l) = length l.
Proof. apply Permutation_length, sort_by_perm. Qed.

Lemma insert_f64_sorted x l :
  is_nan x = false -> Forall (fun y => is_nan y = false) l ->
  StronglySorted f64_le l -> StronglySorted f64_le (insert_by f64_cmp x l).
Proof.
  intros Hx Hl Hs. induction Hs as [|y l Hs IH Hy]; simpl; [by repeat constructor|].
  inversion_clear Hl as [|? ? Hny Hnl].
  pose proof (f64_cmp_le x y Hx Hny) as Hcmp.
  destruct (f64_cmp x y) eqn:E.
  1,2: assert (f64_le x y) by (by apply Hcmp);
    constructor; [by constructor|]; constructor; [done|];
    eapply Forall_impl; [exact Hy|]; intros z Hz; by transitivity y.
  constructor; [by apply IH|].
  assert (f64_le y x) as Hyx.
  { destruct (f64_le_total x y) as [Hle|]; [|done]. by apply Hcmp in Hle. }
  rewrite insert_by_perm. by constructor.
Qed.

Lemma f64_sort_sorted l :
  Forall (fun y => is_nan y = false) l -> StronglySorted f64_le (f64_sort l).
Proof.
  induction 1 as [|x l Hx Hl IH]; [constructor|].
  change (f64_sort (x :: l)) with (insert_by f64_cmp x (f64_sort l)).
  apply insert_f64_sorted; [done| |done].
  unfold f64_sort. by rewrite sort_by_perm.
Qed.

Lemma StronglySorted_lookup_le {A} (R : A -> A -> Prop) `{!Reflexive R} l i j x y :
  StronglySorted R l -> (i <= j)%nat -> l !! i = Some x -> l !! j = Some y -> R x y.
Proof.
  intros Hs. revert i j. induction Hs as [|a l Hs IH Ha]; intros i j Hij Hx Hy; [done|].
  destruct i as [|i], j as [|j]; simpl in *; simplify_eq; try lia.
  - reflexivity.
  - eapply Forall_lookup_1 in Ha; done.
  - apply (IH i j); [lia|done|done].
Qed.
