(* ===== verification/Reassembly.v ===== *)
(** * Reassembly of messages (vendored/webrtc-sctp/src/queue/reassembly_queue.rs)

    The queue in which a stream collects the fragments of its messages.  An
    ordered message is handed out when all of its fragments are there and all
    messages before it have been handed out; an unordered one as soon as it is
    complete.  The theorems show that the queue implements that contract whatever
    the order in which fragments arrive, get lost and are duplicated. *)

From stdpp Require Import base list sets gmap sorting.
From coqutil Require Export Datatypes.RecordSetters.
From Stdlib Require Import ZArith Lia.
From S2P Require Import Prelude Net Fallible SctpWire.
Export DoubleBraceUpdate.
Local Open Scope Z_scope.

(** ** [slice::sort_by] with a comparator that never says [Equal]

    For a strict order on distinct elements the sorted permutation is unique; it
    is computed by insertion. *)
Fixpoint insert_lt {A} (lt : A -> A -> bool) (x : A) (l : list A) : list A :=
  match l with
  | [] => [x]
  | y :: l => if lt x y then x :: y :: l else y :: insert_lt lt x l
  end.

Definition sort_lt {A} (lt : A -> A -> bool) (l : list A) : list A :=
  foldl (fun sorted x => insert_lt lt x sorted) [] l.

Definition sort_chunks_by_tsn (c : list ChunkPayloadData) : list ChunkPayloadData :=
  sort_lt (fun a b => sna32lt (tsn a) (tsn b)) c.

(** ** Fragments of one message *)

Record ChunkSet := mkChunkSet {
  ssn : Z;
  ppi : PayloadProtocolIdentifier;
  cs_chunks : list ChunkPayloadData }.

Definition sort_chunks_by_ssn (c : list ChunkSet) : list ChunkSet :=
  sort_lt (fun a b => sna16lt (ssn a) (ssn b)) c.

Module ChunkSet.
Definition new (ssn : Z) (ppi : PayloadProtocolIdentifier) : ChunkSet := mkChunkSet ssn ppi [].

(** Condition 3: the chunks after the first continue [last_tsn]. *)
Fixpoint contiguous (last_tsn : Z) (cs : list ChunkPayloadData) : outcome bool :=
  match cs with
  | [] => Ret true
  | c :: cs =>
      next ← checked_u 32 (last_tsn + 1);
      if negb (tsn c =? next) then Ret false else contiguous (tsn c) cs
  end.

Definition is_complete (s : ChunkSet) : outcome bool :=
  match cs_chunks s with
  | [] => Ret false
  | c :: cs =>
      if negb (beginning_fragment c) then Ret false
      else if negb (ending_fragment (List.last (c :: cs) c)) then Ret false
      else contiguous (tsn c) cs
  end.

Definition push (chunk : ChunkPayloadData) (s : ChunkSet) : outcome (bool * ChunkSet) :=
  if existsb (fun c => tsn c =? tsn chunk) (cs_chunks s) then Ret (false, s)
  else
    let s := mkChunkSet (ssn s) (ppi s) (sort_chunks_by_tsn (cs_chunks s ++ [chunk])) in
    ok ← is_complete s;
    Ret (ok, s).
End ChunkSet.

(** ** The queue of a stream *)

Record ReassemblyQueue := mkReassemblyQueue {
  si : Z;
  next_ssn : Z;
  rq_ordered : list ChunkSet;
  rq_unordered : list ChunkSet;
  unordered_chunks : list ChunkPayloadData;
  rq_n_bytes : nat }.

Module ReassemblyQueue.
Definition new (si : Z) : ReassemblyQueue := mkReassemblyQueue si 0 [] [] [] 0.

(** The scan of the unordered chunks: [start] is the beginning of a run with its
    length and last TSN, or nothing; the result is the first complete run. *)
Fixpoint find_run (i : nat) (start : option (nat * nat * Z)) (cs : list ChunkPayloadData)
    : outcome (option (nat * nat)) :=
  match cs with
  | [] => Ret None
  | c :: cs =>
      if beginning_fragment c then
        if ending_fragment c then Ret (Some (i, 1%nat)) else find_run (S i) (Some (i, 1%nat, tsn c)) cs
      else
        match start with
        | None => find_run (S i) None cs
        | Some (start_idx, n_chunks, last_tsn) =>
            next ← checked_u 32 (last_tsn + 1);
            if negb (tsn c =? next) then find_run (S i) None cs
            else if ending_fragment c then Ret (Some (start_idx, S n_chunks))
            else find_run (S i) (Some (start_idx, S n_chunks, tsn c)) cs
        end
  end.

Definition find_complete_unordered_chunk_set (q : ReassemblyQueue)
    : outcome (option ChunkSet * ReassemblyQueue) :=
  found ← find_run 0 None (unordered_chunks q);
  match found with
  | None => Ret (None, q)
  | Some (start_idx, n_chunks) =>
      let chunks := take n_chunks (drop start_idx (unordered_chunks q)) in
      c ← index chunks 0;
      Ret (Some (mkChunkSet 0 (payload_type c) chunks),
           q {{ unordered_chunks := take start_idx (unordered_chunks q)
                  ++ drop (start_idx + n_chunks) (unordered_chunks q) }})
  end.

(** [for s in &mut self.ordered { if s.ssn == .. { return s.push(chunk) } }] *)
Fixpoint push_into (chunk : ChunkPayloadData) (sets : list ChunkSet)
    : outcome (option (bool * list ChunkSet)) :=
  match sets with
  | [] => Ret None
  | s :: sets =>
      if ssn s =? stream_sequence_number chunk then
        '(ok, s) ← ChunkSet.push chunk s;
        Ret (Some (ok, s :: sets))
      else
        r ← push_into chunk sets;
        Ret (match r with None => None | Some (ok, sets) => Some (ok, s :: sets) end)
  end.

Definition push (chunk : ChunkPayloadData) (q : ReassemblyQueue) : outcome (bool * ReassemblyQueue) :=
  if negb (stream_identifier chunk =? si q) then Ret (false, q)
  else if unordered chunk then
    let q := q {{ rq_n_bytes := (rq_n_bytes q + length (user_data chunk))%nat }}
               {{ unordered_chunks := sort_chunks_by_tsn (unordered_chunks q ++ [chunk]) }} in
    '(cset, q) ← find_complete_unordered_chunk_set q;
    match cset with
    | Some cset => Ret (true, q {{ rq_unordered := rq_unordered q ++ [cset] }})
    | None => Ret (false, q)
    end
  else if sna16lt (stream_sequence_number chunk) (next_ssn q) then Ret (false, q)
  else
    let q := q {{ rq_n_bytes := (rq_n_bytes q + length (user_data chunk))%nat }} in
    r ← push_into chunk (rq_ordered q);
    match r with
    | Some (ok, sets) => Ret (ok, q {{ rq_ordered := sets }})
    | None =>
        let cset := ChunkSet.new (stream_sequence_number chunk) (payload_type chunk) in
        '(ok, cset) ← ChunkSet.push chunk cset;
        Ret (ok, q {{ rq_ordered := sort_chunks_by_ssn (rq_ordered q ++ [cset]) }})
    end.

Definition is_readable (q : ReassemblyQueue) : outcome bool :=
  match rq_unordered q, rq_ordered q with
  | _ :: _, _ => Ret true
  | [], cset :: _ =>
      complete ← ChunkSet.is_complete cset;
      Ret (complete && sna16lte (ssn cset) (next_ssn q))
  | [], [] => Ret false
  end.

(** [saturating] by hand in the source. *)
Definition subtract_num_bytes (n : nat) (q : ReassemblyQueue) : ReassemblyQueue :=
  q {{ rq_n_bytes := (rq_n_bytes q - n)%nat }}.

(** The set that [read] takes out. *)
Definition take_set (q : ReassemblyQueue) : outcome (option (ChunkSet * ReassemblyQueue)) :=
  match rq_unordered q, rq_ordered q with
  | cset :: rest, _ => Ret (Some (cset, q {{ rq_unordered := rest }}))
  | [], cset :: rest =>
      complete ← ChunkSet.is_complete cset;
      if negb complete then Ret None
      else if sna16gt (ssn cset) (next_ssn q) then Ret None
      else
        let q := if ssn cset =? next_ssn q
                 then q {{ next_ssn := as_u 16 (next_ssn q + 1) }} else q in
        Ret (Some (cset, q {{ rq_ordered := rest }}))
  | [], [] => Ret None
  end.

(** Copies the fragments into a buffer of [size] bytes of which [written] are
    filled, until one does not fit; [true] when all did. *)
Fixpoint copy_chunks (size : nat) (cs : list ChunkPayloadData) (written : bytes) (fits : bool)
    (q : ReassemblyQueue) : bool * bytes * ReassemblyQueue :=
  match cs with
  | [] => (fits, written, q)
  | c :: cs =>
      let to_copy := length (user_data c) in
      let q := subtract_num_bytes to_copy q in
      if fits then
        let n := Nat.min to_copy (size - length written) in
        copy_chunks size cs (written ++ take n (user_data c)) (to_copy <=? n)%nat q
      else copy_chunks size cs written false q
  end.

(** What [read] puts into the buffer and returns. *)
Inductive read_result :=
  | ReadOk (data : bytes) (ppi : PayloadProtocolIdentifier)
  | ReadErr (data : bytes) (e : Error).

Definition read (size : nat) (q : ReassemblyQueue) : outcome (read_result * ReassemblyQueue) :=
  r ← take_set q;
  match r with
  | None => Ret (ReadErr [] ErrTryAgain, q)
  | Some (cset, q) =>
      let '(fits, data, q) := copy_chunks size (cs_chunks cset) [] true q in
      Ret (if fits then ReadOk data (ppi cset) else ReadErr data (ErrShortBuffer size), q)
  end.

Definition chunk_bytes_of (cs : list ChunkPayloadData) : nat :=
  foldl (fun acc c => acc + length (user_data c))%nat 0%nat cs.

(** Splits the sets: those that stay, and the bytes of those that are dropped. *)
Fixpoint retain_ordered (last_ssn : Z) (sets : list ChunkSet) : outcome (list ChunkSet * nat) :=
  match sets with
  | [] => Ret ([], 0%nat)
  | s :: sets =>
      complete ← (if sna16lte (ssn s) last_ssn then ChunkSet.is_complete s else Ret true);
      '(kept, dropped) ← retain_ordered last_ssn sets;
      Ret (if (complete : bool) then (s :: kept, dropped)
           else (kept, chunk_bytes_of (cs_chunks s) + dropped)%nat)
  end.

Definition forward_tsn_for_ordered (last_ssn : Z) (q : ReassemblyQueue) : outcome ReassemblyQueue :=
  '(kept, num_bytes) ← retain_ordered last_ssn (rq_ordered q);
  let q := subtract_num_bytes num_bytes q in
  let q := q {{ rq_ordered := kept }} in
  Ret (if sna16lte (next_ssn q) last_ssn then q {{ next_ssn := as_u 16 (last_ssn + 1) }} else q).

(** The prefix of the unordered chunks up to the new cumulative TSN. *)
Fixpoint span_unordered (new_cumulative_tsn : Z) (cs : list ChunkPayloadData) : nat :=
  match cs with
  | [] => 0%nat
  | c :: cs => if sna32gt (tsn c) new_cumulative_tsn then 0%nat else S (span_unordered new_cumulative_tsn cs)
  end.

Definition forward_tsn_for_unordered (new_cumulative_tsn : Z) (q : ReassemblyQueue) : ReassemblyQueue :=
  let n := span_unordered new_cumulative_tsn (unordered_chunks q) in
  let q' := foldl (fun q c => subtract_num_bytes (length (user_data c)) q) q
              (take n (unordered_chunks q)) in
  q' {{ unordered_chunks := drop n (unordered_chunks q') }}.

Definition get_num_bytes (q : ReassemblyQueue) : nat := rq_n_bytes q.
End ReassemblyQueue.

(** ** Insertion into sorted lists *)

Lemma insert_lt_middle {A} (lt : A -> A -> bool) x l k :
  Forall (fun a => lt x a = false) l -> Forall (fun b => lt x b = true) k ->
  insert_lt lt x (l ++ k) = l ++ x :: k.
Proof.
  intros Hl Hk. induction Hl as [|a l Ha Hl IH]; simpl.
  - destruct Hk as [|b k Hb Hk]; simpl; [done|]. by rewrite Hb.
  - by rewrite Ha, IH.
Qed.

Lemma sort_lt_snoc {A} (lt : A -> A -> bool) l x :
  StronglySorted (fun a b => lt b a = false) l -> sort_lt lt (l ++ [x]) = insert_lt lt x l.
Proof.
  intros Hl. unfold sort_lt. rewrite foldl_app. simpl. f_equal.
  induction l as [|y l IH] using rev_ind; [done|].
  rewrite foldl_app. simpl. apply StronglySorted_app in Hl as (Hy & Hl & _).
  rewrite IH by done. rewrite <-(app_nil_r l) at 1. apply insert_lt_middle; [|done].
  apply Forall_forall. intros a Ha. apply Hy; [done|]. by left.
Qed.

(** The numbers below [n] with some property, around the number [i]. *)
Lemma filter_seq_split (P : nat -> Prop) `{forall x, Decision (P x)} a n i :
  (a <= i < a + n)%nat ->
  filter P (seq a n) = filter P (seq a (i - a)) ++ filter P [i] ++ filter P (seq (S i) (a + n - S i)).
Proof.
  intros Hi. rewrite <-!filter_app. f_equal.
  replace n with ((i - a) + (1 + (a + n - S i)))%nat at 1 by lia.
  rewrite seq_app. f_equal. replace (a + (i - a))%nat with i by lia. by rewrite seq_app, Nat.add_1_r.
Qed.

Lemma filter_agree {A} (P Q : A -> Prop) `{forall x, Decision (P x), forall x, Decision (Q x)} l :
  Forall (fun x => P x <-> Q x) l -> filter P l = filter Q l.
Proof.
  induction 1 as [|x l Hx Hl IH]; [done|]. rewrite !filter_cons, IH.
  by apply decide_ext.
Qed.

Lemma elem_of_filter_seq (P : nat -> Prop) `{forall x, Decision (P x)} a n i :
  i ∈ filter P (seq a n) <-> P i /\ (a <= i < a + n)%nat.
Proof. by rewrite list_elem_of_filter, elem_of_seq. Qed.

Lemma filter_seq_sorted (P : nat -> Prop) `{forall x, Decision (P x)} a n :
  StronglySorted lt (filter P (seq a n)).
Proof.
  revert a. induction n as [|n IH]; intros a; [constructor|]. cbn [seq]. rewrite filter_cons.
  destruct (decide (P a)); [|done]. constructor; [done|]. apply Forall_forall.
  intros x Hx. apply elem_of_filter_seq in Hx. lia.
Qed.

Lemma Forall2_weaken {A B} (P Q : A -> B -> Prop) l k :
  Forall2 P l k -> (forall a b, a ∈ l -> P a b -> Q a b) -> Forall2 Q l k.
Proof.
  intros H Hw. induction H as [|a b l k Hab H IH]; constructor; [apply Hw; [left|done]|].
  apply IH. intros a' b' Ha'. apply Hw. by right.
Qed.

(** ** Bytes in the queue *)

Lemma push_bytes c q ok q' :
  unordered c = false -> ReassemblyQueue.push c q = Ret (ok, q') ->
  (rq_n_bytes q' <= rq_n_bytes q + length (user_data c))%nat.
Proof.
  unfold ReassemblyQueue.push. intros Hu H. rewrite Hu in H.
  destruct (stream_identifier c =? si q); cbn [negb] in H; [|simplify_eq; lia].
  destruct (sna16lt _ _); [simplify_eq; lia|].
  apply bind_Ret_inv in H as (r & _ & H). destruct r as [[ok1 sets]|].
  - injection H as _ <-. cbn. destruct q; cbn; lia.
  - apply bind_Ret_inv in H as ([ok1 cset] & _ & H). injection H as _ <-. destruct q; cbn; lia.
Qed.

Lemma copy_chunks_bytes size cs written fits q :
  (rq_n_bytes (ReassemblyQueue.copy_chunks size cs written fits q).2 <= rq_n_bytes q)%nat.
Proof.
  revert written fits q. induction cs as [|c cs IH]; intros written fits q; cbn [ReassemblyQueue.copy_chunks];
    [done|].
  assert (rq_n_bytes (ReassemblyQueue.subtract_num_bytes (length (user_data c)) q) <= rq_n_bytes q)%nat
    by (destruct q; cbn; lia).
  destruct fits; (etrans; [apply IH|done]).
Qed.

Lemma read_bytes size q r q' :
  ReassemblyQueue.read size q = Ret (r, q') -> (rq_n_bytes q' <= rq_n_bytes q)%nat.
Proof.
  unfold ReassemblyQueue.read. intros H. apply bind_Ret_inv in H as (o & Ho & H).
  destruct o as [[cset q1]|]; [|by simplify_eq].
  assert (rq_n_bytes q1 = rq_n_bytes q) as <-.
  { unfold ReassemblyQueue.take_set in Ho. destruct (rq_unordered q), (rq_ordered q); simplify_eq; try done.
    apply bind_Ret_inv in Ho as (b & _ & Ho). repeat case_match; simplify_eq; by destruct q. }
  pose proof (copy_chunks_bytes size (cs_chunks cset) [] true q1) as Hle.
  destruct (ReassemblyQueue.copy_chunks size (cs_chunks cset) [] true q1) as [[fits data] q2].
  injection H as _ <-. exact Hle.
Qed.

(** ** The contract of ordered delivery

    Messages are numbered from zero; message [k] has sequence number [k] modulo
    2^16 and its fragments have consecutive TSNs. *)

Record message := mkMessage {
  m_tsn : Z;
  m_ppi : PayloadProtocolIdentifier;
  m_parts : list bytes }.

Definition m_data (m : message) : bytes := concat (m_parts m).

Definition wf_message (m : message) : Prop :=
  m_parts m <> [] /\ 0 <= m_tsn m /\ m_tsn m + Z.of_nat (length (m_parts m)) <= 2 ^ 32
  /\ Z.of_nat (length (m_parts m)) <= 2 ^ 31.

(** [c] carries part [i] of message [k]. *)
Record is_fragment (stream : Z) (k : nat) (m : message) (i : nat) (c : ChunkPayloadData) : Prop :=
  mkIsFragment {
    frag_stream : stream_identifier c = stream;
    frag_ordered : unordered c = false;
    frag_ssn : stream_sequence_number c = as_u 16 (Z.of_nat k);
    frag_ppi : payload_type c = m_ppi m;
    frag_tsn : tsn c = m_tsn m + Z.of_nat i;
    frag_data : m_parts m !! i = Some (user_data c);
    frag_begin : beginning_fragment c = (i =? 0)%nat;
    frag_end : ending_fragment c = (S i =? length (m_parts m))%nat }.

(** The parts that have arrived, and the number of messages handed out. *)
Record delivery := mkDelivery { seen : gset (nat * nat); next_msg : nat }.

Definition complete (d : delivery) (k : nat) (m : message) : Prop :=
  Forall (fun i => (k, i) ∈ seen d) (seq 0 (length (m_parts m))).

#[export] Instance complete_dec d k m : Decision (complete d k m).
Proof. unfold complete. apply _. Defined.

Definition spec_arrive (k i : nat) (d : delivery) : delivery :=
  mkDelivery ({[(k, i)]} ∪ seen d) (next_msg d).

(** The parts of message [k] that are there. *)
Definition parts_seen (d : delivery) (k : nat) (m : message) : list nat :=
  filter (fun i => (k, i) ∈ seen d) (seq 0 (length (m_parts m))).

(** *** Fragments of one message *)

Section one_message.
  Context (stream : Z) (k : nat) (m : message) (m_wf : wf_message m).

(** Sorted indices without a gap between the first and the last are all there. *)
Lemma contiguous_indices i0 idxs cs :
  Forall2 (is_fragment stream k m) (i0 :: idxs) cs -> StronglySorted lt (i0 :: idxs) ->
  match cs with
  | [] => False
  | c :: cs =>
      ChunkSet.contiguous (tsn c) cs = Ret (bool_decide (i0 :: idxs = seq i0 (S (length idxs))))
  end.
Proof using m_wf.
  revert i0 cs. induction idxs as [|i1 idxs IH]; intros i0 cs Hcs Hs;
    inversion Hcs as [|? c ? cs' Hc Hcs']; subst.
  { inversion Hcs'; subst. by rewrite bool_decide_true. }
  inversion Hcs' as [|? c' ? cs'' Hc' Hcs'']; subst.
  apply StronglySorted_inv in Hs as [Hs Hlt]. apply Forall_cons in Hlt as [Hlt _].
  assert (i1 < length (m_parts m))%nat as Hi1.
  { apply lookup_lt_is_Some. exists (user_data c'). apply (frag_data _ _ _ _ _ Hc'). }
  cbn [ChunkSet.contiguous].
  rewrite checked_u_Ret by (unfold is_u; rewrite (frag_tsn _ _ _ _ _ Hc);
    destruct m_wf as (_ & ? & ? & _); lia).
  cbn [mbind outcome_bind]. pose proof (IH i1 (c' :: cs'') ltac:(by constructor) Hs) as Hrec.
  cbn iota in Hrec. rewrite Hrec, (frag_tsn _ _ _ _ _ Hc), (frag_tsn _ _ _ _ _ Hc').
  destruct (Z.eqb_spec (m_tsn m + Z.of_nat i1) (m_tsn m + Z.of_nat i0 + 1)) as [He|He]; cbn [negb].
  - assert (i1 = S i0) as -> by lia. f_equal. apply bool_decide_ext. cbn [seq length]. split; congruence.
  - f_equal. symmetry. apply bool_decide_false. cbn [seq length]. intros [= ->]. lia.
Qed.

Lemma last_fragment idxs cs i0 c0 :
  Forall2 (is_fragment stream k m) idxs cs -> idxs <> [] ->
  is_fragment stream k m (List.last idxs i0) (List.last cs c0).
Proof using Type.
  clear m_wf.
  induction 1 as [|i c idxs cs Hc Hcs IH]; [done|]. intros _.
  destruct Hcs as [|i' c' idxs cs Hc' Hcs]; [done|]. by apply IH.
Qed.

Lemma parts_seen_complete d : complete d k m <-> parts_seen d k m = seq 0 (length (m_parts m)).
Proof using Type.
  clear m_wf.
  unfold complete, parts_seen. generalize (seq 0 (length (m_parts m))) as l. intros l. split.
  - induction 1 as [|i l Hi Hl IH]; [done|]. by rewrite filter_cons, decide_True, IH.
  - intros <-. apply Forall_forall. intros i Hi. by apply list_elem_of_filter in Hi as [? _].
Qed.

Lemma is_complete_fragments d s :
  Forall2 (is_fragment stream k m) (parts_seen d k m) (cs_chunks s) ->
  ChunkSet.is_complete s = Ret (bool_decide (complete d k m)).
Proof using m_wf.
  intros Hs. pose proof (parts_seen_complete d) as Hc. pose proof (filter_seq_sorted (fun i => (k, i) ∈ seen d) 0 (length (m_parts m))) as Hsort.
  fold (parts_seen d k m) in Hsort. rewrite (bool_decide_ext _ _ Hc).
  unfold ChunkSet.is_complete. pose proof m_wf as [Hne _].
  assert (length (m_parts m) <> 0%nat) as Hn by (by destruct (m_parts m)).
  destruct Hs as [|i0 c idxs cs H0 Hs].
  { rewrite bool_decide_false; [done|]. by destruct (length (m_parts m)). }
  rewrite (frag_begin _ _ _ _ _ H0). destruct (Nat.eqb_spec i0 0) as [->|H00]; cbn [negb].
  2:{ rewrite bool_decide_false; [done|]. destruct (length (m_parts m)); [done|]. cbn. congruence. }
  pose proof (last_fragment (0%nat :: idxs) (c :: cs) 0%nat c ltac:(by constructor) ltac:(done)) as Hl.
  rewrite (frag_end _ _ _ _ _ Hl).
  pose proof (contiguous_indices 0 idxs (c :: cs) ltac:(by constructor) Hsort) as Hcont. cbn iota in Hcont.
  destruct (Nat.eqb_spec (S (List.last (0%nat :: idxs) 0%nat)) (length (m_parts m))) as [He|He]; cbn [negb].
  - rewrite Hcont. f_equal. apply bool_decide_ext.
    enough (0%nat :: idxs = seq 0 (S (length idxs)) \/ 0%nat :: idxs = seq 0 (length (m_parts m)) ->
            S (length idxs) = length (m_parts m)) as Hlen.
    { split; intros Heq; rewrite Heq; [f_equal|f_equal; symmetry]; apply Hlen; auto. }
    intros [Heq|Heq].
    + rewrite Heq, seq_S, last_last in He. lia.
    + apply (f_equal length) in Heq. rewrite length_seq in Heq. done.
  - rewrite bool_decide_false; [done|]. intros Heq. rewrite Heq in He. apply He.
    destruct (length (m_parts m)) as [|n]; [done|]. by rewrite seq_S, last_last.
Qed.

(** The parts before and after part [i], which do not depend on its arrival. *)
Lemma parts_seen_split d i :
  (i < length (m_parts m))%nat ->
  exists before after,
    parts_seen (spec_arrive k i d) k m = before ++ i :: after
    /\ Forall (fun j => j < i)%nat before /\ Forall (fun j => i < j)%nat after
    /\ ((k, i) ∉ seen d -> parts_seen d k m = before ++ after).
Proof using Type.
  clear m_wf.
  intros Hi. exists (filter (fun j => (k, j) ∈ seen d) (seq 0 i)).
  exists (filter (fun j => (k, j) ∈ seen d) (seq (S i) (length (m_parts m) - S i))).
  unfold parts_seen. rewrite !(filter_seq_split _ 0 (length (m_parts m)) i) by lia.
  rewrite Nat.sub_0_r. split_and!.
  - f_equal; [|rewrite filter_cons, decide_True by (cbn; set_solver); cbn; f_equal];
      (apply filter_agree, Forall_forall; intros j Hj; apply elem_of_seq in Hj; cbn; split; [|set_solver];
       intros [[= ->]%elem_of_singleton|]%elem_of_union; [lia|done]).
  - apply Forall_forall. intros j [_ Hj]%elem_of_filter_seq. lia.
  - apply Forall_forall. intros j [_ Hj]%elem_of_filter_seq. lia.
  - intros Hn. by rewrite filter_cons, decide_False.
Qed.

Lemma parts_seen_again d i : (k, i) ∈ seen d -> parts_seen (spec_arrive k i d) k m = parts_seen d k m.
Proof using Type. clear m_wf. intros Hi. apply filter_agree, Forall_forall. intros j ?. cbn. set_solver. Qed.

Lemma fragment_lt i j ci cj :
  is_fragment stream k m i ci -> is_fragment stream k m j cj ->
  sna32lt (tsn ci) (tsn cj) = (i <? j)%nat.
Proof using m_wf.
  intros Hi Hj. rewrite (frag_tsn _ _ _ _ _ Hi), (frag_tsn _ _ _ _ _ Hj).
  pose proof (lookup_lt_Some _ _ _ (frag_data _ _ _ _ _ Hi)).
  pose proof (lookup_lt_Some _ _ _ (frag_data _ _ _ _ _ Hj)).
  destruct m_wf as (_ & ? & ? & ?). rewrite sna32lt_close by (unfold is_u; lia).
  destruct (Nat.ltb_spec i j); lia.
Qed.

Lemma fragments_exist i c idxs cs :
  is_fragment stream k m i c -> Forall2 (is_fragment stream k m) idxs cs ->
  existsb (fun c' => tsn c' =? tsn c) cs = bool_decide (i ∈ idxs).
Proof using Type.
  clear m_wf.
  intros Hc Hcs. induction Hcs as [|j c' idxs cs Hc' Hcs IH]; [done|]. cbn [existsb].
  rewrite IH, (frag_tsn _ _ _ _ _ Hc), (frag_tsn _ _ _ _ _ Hc').
  rewrite (bool_decide_ext (i ∈ j :: idxs) (i = j \/ i ∈ idxs)) by apply elem_of_cons.
  rewrite bool_decide_or. f_equal.
  destruct (Z.eqb_spec (m_tsn m + Z.of_nat j) (m_tsn m + Z.of_nat i)); symmetry;
    [apply bool_decide_true|apply bool_decide_false]; lia.
Qed.

Lemma fragments_sorted idxs cs :
  Forall2 (is_fragment stream k m) idxs cs -> StronglySorted lt idxs ->
  StronglySorted (fun a b => sna32lt (tsn b) (tsn a) = false) cs.
Proof using m_wf.
  induction 1 as [|i c idxs cs Hc Hcs IH]; intros Hs; [constructor|].
  apply StronglySorted_inv in Hs as [Hs Hi]. constructor; [by apply IH|].
  clear IH Hs. revert Hi. induction Hcs as [|j c' idxs cs Hc' Hcs IH]; intros Hi; [constructor|].
  apply Forall_cons in Hi as [Hij Hi]. constructor; [|by apply IH].
  rewrite (fragment_lt j i) by done. apply Nat.ltb_ge. lia.
Qed.

Lemma chunk_set_push d s i c :
  Forall2 (is_fragment stream k m) (parts_seen d k m) (cs_chunks s) -> is_fragment stream k m i c ->
  exists ok s', ChunkSet.push c s = Ret (ok, s') /\ ssn s' = ssn s /\ ppi s' = ppi s
    /\ Forall2 (is_fragment stream k m) (parts_seen (spec_arrive k i d) k m) (cs_chunks s').
Proof using m_wf.
  intros Hs Hc. pose proof (lookup_lt_Some _ _ _ (frag_data _ _ _ _ _ Hc)) as Hi.
  unfold ChunkSet.push. rewrite (fragments_exist i c (parts_seen d k m)) by done.
  case_bool_decide as Hin.
  { apply list_elem_of_filter in Hin as [Hin _]. exists false, s. split_and!; [done..|].
    by rewrite parts_seen_again. }
  assert ((k, i) ∉ seen d) as Hnew.
  { contradict Hin. apply list_elem_of_filter. split; [done|]. apply elem_of_seq. lia. }
  destruct (parts_seen_split d i Hi) as (before & after & Harr & Hb & Ha & Hd). specialize (Hd Hnew).
  pose proof (filter_seq_sorted (fun i => (k, i) ∈ seen d) 0 (length (m_parts m))) as Hsort.
  fold (parts_seen d k m) in Hsort.
  assert (Forall2 (is_fragment stream k m) (parts_seen (spec_arrive k i d) k m)
    (sort_chunks_by_tsn (cs_chunks s ++ [c]))) as Hnew'.
  { unfold sort_chunks_by_tsn.
    rewrite sort_lt_snoc by (by apply (fragments_sorted (parts_seen d k m))).
    rewrite Harr, Hd in *. apply Forall2_app_inv_l in Hs as (cb & ca & Hcb & Hca & ->).
    rewrite insert_lt_middle; [by apply Forall2_app; [|constructor]| |].
    - clear -Hcb Hb Hc m_wf. induction Hcb as [|j c' js cs Hc' Hcb IH]; [constructor|].
      apply Forall_cons in Hb as [Hj Hb]. constructor; [|by apply IH].
      rewrite (fragment_lt i j) by done. apply Nat.ltb_ge. lia.
    - clear -Hca Ha Hc m_wf. induction Hca as [|j c' js cs Hc' Hca IH]; [constructor|].
      apply Forall_cons in Ha as [Hj Ha]. constructor; [|by apply IH].
      rewrite (fragment_lt i j) by done. by apply Nat.ltb_lt. }
  erewrite is_complete_fragments by exact Hnew'. do 2 eexists. split; [reflexivity|]. done.
Qed.
End one_message.

(** *** The queue *)

Section delivery.
  Context (stream : Z) (msgs : list message) (msgs_wf : Forall wf_message msgs).

Definition spec_read (size : nat) (d : delivery) : ReassemblyQueue.read_result * delivery :=
  match msgs !! next_msg d with
  | Some m =>
      if decide (complete d (next_msg d) m) then
        ((if (length (m_data m) <=? size)%nat then ReassemblyQueue.ReadOk (m_data m) (m_ppi m)
          else ReassemblyQueue.ReadErr (take size (m_data m)) (ErrShortBuffer size)),
         mkDelivery (seen d) (S (next_msg d)))
      else (ReassemblyQueue.ReadErr [] ErrTryAgain, d)
  | None => (ReassemblyQueue.ReadErr [] ErrTryAgain, d)
  end.

(** The messages with such parts. *)
Definition started (d : delivery) (k : nat) : Prop :=
  match msgs !! k with Some m => parts_seen d k m <> [] | None => False end.

#[local] Instance started_dec d k : Decision (started d k).
Proof. unfold started. destruct (msgs !! k); apply _. Defined.

Definition pending (d : delivery) : list nat :=
  filter (started d) (seq (next_msg d) (length msgs - next_msg d)).

Definition set_for (d : delivery) (k : nat) (s : ChunkSet) : Prop :=
  exists m, msgs !! k = Some m /\ ssn s = as_u 16 (Z.of_nat k) /\ ppi s = m_ppi m
    /\ Forall2 (is_fragment stream k m) (parts_seen d k m) (cs_chunks s).

Record implements (d : delivery) (q : ReassemblyQueue) : Prop := mkImplements {
  impl_stream : si q = stream;
  impl_next : next_ssn q = as_u 16 (Z.of_nat (next_msg d));
  impl_unordered : rq_unordered q = [] /\ unordered_chunks q = [];
  impl_ordered : Forall2 (set_for d) (pending d) (rq_ordered q);
  impl_window : forall k i, (k, i) ∈ seen d -> Z.of_nat k < Z.of_nat (next_msg d) + 2 ^ 15 }.

Lemma push_into_hit c before s after :
  Forall (fun s => (ssn s =? stream_sequence_number c) = false) before ->
  (ssn s =? stream_sequence_number c) = true ->
  ReassemblyQueue.push_into c (before ++ s :: after)
  = ('(ok, s') ← ChunkSet.push c s; Ret (Some (ok, before ++ s' :: after))).
Proof.
  intros Hb Hs. induction Hb as [|s' before Hs' Hb IH]; cbn [app ReassemblyQueue.push_into].
  - by rewrite Hs.
  - rewrite Hs', IH. by destruct (ChunkSet.push c s) as [[ok s'']| |].
Qed.

Lemma push_into_miss c sets :
  Forall (fun s => (ssn s =? stream_sequence_number c) = false) sets ->
  ReassemblyQueue.push_into c sets = Ret None.
Proof. induction 1 as [|s sets Hs Hb IH]; [done|]. cbn [ReassemblyQueue.push_into]. by rewrite Hs, IH. Qed.

Lemma parts_seen_other d k i k' m : k' <> k -> parts_seen (spec_arrive k i d) k' m = parts_seen d k' m.
Proof.
  intros Hk. apply filter_agree, Forall_forall. intros j ?. cbn. split; [|set_solver].
  by intros [[= -> ->]%elem_of_singleton|?]%elem_of_union.
Qed.

Lemma started_other d k i k' : k' <> k -> started (spec_arrive k i d) k' <-> started d k'.
Proof. intros Hk. unfold started. destruct (msgs !! k'); [|done]. by rewrite parts_seen_other. Qed.

Lemma started_arrived d k i m :
  msgs !! k = Some m -> (i < length (m_parts m))%nat -> started (spec_arrive k i d) k.
Proof.
  intros Hm Hi. unfold started. rewrite Hm.
  destruct (parts_seen_split k m d i Hi) as (before & after & -> & _). by destruct before.
Qed.

Lemma set_for_other d k i k' s : k' <> k -> set_for d k' s -> set_for (spec_arrive k i d) k' s.
Proof.
  intros Hk (m & Hm & Hssn & Hppi & Hcs). exists m. split_and!; [done..|]. by rewrite parts_seen_other.
Qed.

Lemma pending_split d k i m :
  msgs !! k = Some m -> (i < length (m_parts m))%nat -> (next_msg d <= k)%nat ->
  exists before after,
    pending (spec_arrive k i d) = before ++ k :: after
    /\ Forall (fun j => j < k)%nat before /\ Forall (fun j => k < j)%nat after
    /\ pending d = before ++ (if decide (started d k) then [k] else []) ++ after.
Proof.
  intros Hm Hi Hk. pose proof (lookup_lt_Some _ _ _ Hm) as Hlt. unfold pending. cbn [next_msg spec_arrive].
  exists (filter (started d) (seq (next_msg d) (k - next_msg d))).
  exists (filter (started d) (seq (S k) (next_msg d + (length msgs - next_msg d) - S k))).
  rewrite !(filter_seq_split _ (next_msg d) (length msgs - next_msg d) k) by lia. split_and!.
  - f_equal; [|rewrite filter_cons, decide_True by (by eapply started_arrived); cbn [app filter]; f_equal];
      (apply filter_agree, Forall_forall; intros j Hj; apply elem_of_seq in Hj; apply started_other; lia).
  - apply Forall_forall. intros j [_ Hj]%elem_of_filter_seq. lia.
  - apply Forall_forall. intros j [_ Hj]%elem_of_filter_seq. lia.
  - f_equal.
Qed.

Lemma pending_window d q k :
  implements d q -> k ∈ pending d -> Z.of_nat (next_msg d) <= Z.of_nat k < Z.of_nat (next_msg d) + 2 ^ 15.
Proof.
  intros Hq [Hs Hk]%elem_of_filter_seq. split; [lia|]. unfold started in Hs.
  destruct (msgs !! k) as [m|]; [|done]. destruct (parts_seen d k m) as [|i l] eqn:Hp; [done|].
  assert (i ∈ parts_seen d k m) as Hi by (rewrite Hp; left).
  apply list_elem_of_filter in Hi as [Hi _]. by apply (impl_window d q Hq) in Hi.
Qed.

(** The sequence numbers of the sets, compared with that of message [k]. *)
Lemma sets_compare d q k js sets (R : nat -> nat -> Prop) (cmp : Z -> Z -> bool) v :
  implements d q -> Forall2 (set_for d) js sets -> Forall (fun j => j ∈ pending d) js ->
  Z.of_nat (next_msg d) <= Z.of_nat k < Z.of_nat (next_msg d) + 2 ^ 15 ->
  (forall j, Z.of_nat (next_msg d) <= Z.of_nat j < Z.of_nat (next_msg d) + 2 ^ 15 -> R j k ->
     cmp (as_u 16 (Z.of_nat j)) (as_u 16 (Z.of_nat k)) = v) ->
  Forall (fun j => R j k) js ->
  Forall (fun s => cmp (ssn s) (as_u 16 (Z.of_nat k)) = v) sets.
Proof.
  intros Hq Hsets Hp Hk Hcmp HR. induction Hsets as [|j s js sets Hs Hsets IH]; [constructor|].
  apply Forall_cons in Hp as [Hj Hp]. apply Forall_cons in HR as [HRj HR]. constructor; [|by apply IH].
  destruct Hs as (m & _ & -> & _). apply Hcmp; [|done]. by eapply pending_window.
Qed.

Lemma sets_sorted d q :
  implements d q -> StronglySorted (fun a b => sna16lt (ssn b) (ssn a) = false) (rq_ordered q).
Proof.
  intros Hq. pose proof (filter_seq_sorted (started d) (next_msg d) (length msgs - next_msg d)) as Hs.
  fold (pending d) in Hs. pose proof (impl_ordered d q Hq) as Ho.
  assert (Forall (fun j => j ∈ pending d) (pending d)) as Hp by by apply Forall_forall.
  revert Ho Hs Hp. generalize (pending d) at 1 2 4 as js. generalize (rq_ordered q) as sets.
  intros sets js Ho. induction Ho as [|j s js sets Hs Hsets IH]; intros Hsort Hp; [constructor|].
  apply StronglySorted_inv in Hsort as [Hsort Hj]. apply Forall_cons in Hp as [Hj' Hp].
  constructor; [by apply IH|]. destruct Hs as (m & _ & -> & _).
  pose proof (pending_window d q j Hq Hj').
  apply (sets_compare d q j js sets (fun a b => b < a)%nat (fun a b => sna16lt a b) false Hq); try done.
  intros j' Hw Hlt. rewrite sna16lt_window by lia. apply Z.ltb_ge. lia.
Qed.

Lemma message_wf k m : msgs !! k = Some m -> wf_message m.
Proof using msgs_wf. intros Hm. by apply (Forall_lookup_1 _ _ _ _ msgs_wf Hm). Qed.

Lemma set_not_equal a b :
  Z.abs (Z.of_nat a - Z.of_nat b) < 2 ^ 15 -> a <> b ->
  (as_u 16 (Z.of_nat a) =? as_u 16 (Z.of_nat b)) = false.
Proof. intros H Hab. rewrite sna16_eq_window by done. apply Z.eqb_neq. lia. Qed.

(** An arrival that touches only the sets of its own message. *)
Lemma sets_keep d k i js sets :
  Forall2 (set_for d) js sets -> k ∉ js -> Forall2 (set_for (spec_arrive k i d)) js sets.
Proof. intros H Hk. eapply Forall2_weaken; [done|]. intros j s Hj Hs. apply set_for_other; [|done]. by intros ->. Qed.

Lemma below_not_in k js : Forall (fun j => j < k)%nat js -> k ∉ js.
Proof. intros H Hk. apply (proj1 (Forall_forall _ _) H) in Hk. lia. Qed.
Lemma above_not_in k js : Forall (fun j => k < j)%nat js -> k ∉ js.
Proof. intros H Hk. apply (proj1 (Forall_forall _ _) H) in Hk. lia. Qed.

Lemma push_current d q k m i c :
  implements d q -> msgs !! k = Some m -> is_fragment stream k m i c ->
  Z.of_nat (next_msg d) <= Z.of_nat k < Z.of_nat (next_msg d) + 2 ^ 15 ->
  exists ok sets,
    (r ← ReassemblyQueue.push_into c (rq_ordered q);
     match r with
     | Some r => Ret r
     | None =>
         '(ok, cset) ← ChunkSet.push c (ChunkSet.new (stream_sequence_number c) (payload_type c));
         Ret (ok, sort_chunks_by_ssn (rq_ordered q ++ [cset]))
     end) = Ret (ok, sets)
    /\ Forall2 (set_for (spec_arrive k i d)) (pending (spec_arrive k i d)) sets.
Proof using msgs_wf.
  intros Hq Hm Hc Hw. pose proof (lookup_lt_Some _ _ _ (frag_data _ _ _ _ _ Hc)) as Hi.
  pose proof (message_wf k m Hm) as Hmw. pose proof (sets_sorted d q Hq) as Hsort.
  destruct (pending_split d k i m Hm Hi ltac:(lia)) as (before & after & Hp' & Hb & Ha & Hp).
  pose proof (impl_ordered d q Hq) as Ho. rewrite Hp in Ho. rewrite Hp'.
  assert (Forall (fun j => j ∈ pending d) before /\ Forall (fun j => j ∈ pending d) after) as [Hbp Hap].
  { rewrite Hp. split; apply Forall_forall; intros j Hj; rewrite !elem_of_app; auto. }
  apply Forall2_app_inv_l in Ho as (sb & sx & Hsb & Ho & Heq).
  apply Forall2_app_inv_l in Ho as (sk & sa & Hsk & Hsa & ->).
  assert (Forall (fun s => (ssn s =? stream_sequence_number c) = false) sb) as Hnb.
  { rewrite (frag_ssn _ _ _ _ _ Hc).
    apply (sets_compare d q k before sb lt (fun a b => a =? b) false Hq); try done.
    intros j Hj Hjk. apply set_not_equal; lia. }
  pose proof (sets_keep d k i before sb Hsb (below_not_in k before Hb)) as Hsb'.
  pose proof (sets_keep d k i after sa Hsa (above_not_in k after Ha)) as Hsa'.
  rewrite Heq in *. destruct (decide (started d k)) as [Hst|Hst].
  - inversion Hsk as [|? s ? ? Hs Hnil]; subst. inversion Hnil; subst. cbn [app].
    destruct Hs as (m' & Hm' & Hssn & Hppi & Hcs). rewrite Hm in Hm'. injection Hm' as <-.
    rewrite push_into_hit by (done || by rewrite Hssn, (frag_ssn _ _ _ _ _ Hc), Z.eqb_refl).
    destruct (chunk_set_push stream k m Hmw d s i c Hcs Hc) as (ok & s' & -> & Hssn' & Hppi' & Hcs').
    exists ok, (sb ++ s' :: sa). split; [done|]. apply Forall2_app; [done|]. constructor; [|done].
    exists m. split_and!; [done|congruence..|done].
  - inversion Hsk; subst. cbn [app]. assert (Forall (fun s => (ssn s =? stream_sequence_number c) = false) sa).
    { rewrite (frag_ssn _ _ _ _ _ Hc).
      apply (sets_compare d q k after sa gt (fun a b => a =? b) false Hq); try done.
      intros j Hj Hjk. apply set_not_equal; lia. }
    rewrite push_into_miss by by apply Forall_app. cbn [mbind outcome_bind].
    assert (parts_seen d k m = []) as Hnone.
    { unfold started in Hst. rewrite Hm in Hst. by destruct (parts_seen d k m); [|destruct Hst]. }
    destruct (chunk_set_push stream k m Hmw d
      (ChunkSet.new (stream_sequence_number c) (payload_type c)) i c) as (ok & s' & -> & Hssn' & Hppi' & Hcs');
      [rewrite Hnone; constructor|done|].
    exists ok, (sb ++ s' :: sa). split.
    + cbn [mbind outcome_bind]. unfold sort_chunks_by_ssn. rewrite sort_lt_snoc by done.
      rewrite insert_lt_middle; [done| |]; rewrite Hssn'; cbn [ssn ChunkSet.new];
        rewrite (frag_ssn _ _ _ _ _ Hc).
      * apply (sets_compare d q k before sb lt (fun a b => sna16lt b a) false Hq); try done.
        intros j Hj Hjk. rewrite sna16lt_window by lia. apply Z.ltb_ge. lia.
      * apply (sets_compare d q k after sa gt (fun a b => sna16lt b a) true Hq); try done.
        intros j Hj Hjk. rewrite sna16lt_window by lia. apply Z.ltb_lt. lia.
    + apply Forall2_app; [done|]. constructor; [|done]. exists m. split_and!; [done|..|done].
      * rewrite Hssn'. apply (frag_ssn _ _ _ _ _ Hc).
      * rewrite Hppi'. apply (frag_ppi _ _ _ _ _ Hc).
Qed.

Lemma push_refines d q k m i c :
  implements d q -> msgs !! k = Some m -> is_fragment stream k m i c ->
  Z.abs (Z.of_nat k - Z.of_nat (next_msg d)) < 2 ^ 15 ->
  exists ok q', ReassemblyQueue.push c q = Ret (ok, q') /\ implements (spec_arrive k i d) q'.
Proof using msgs_wf.
  intros Hq Hm Hc Hw. unfold ReassemblyQueue.push.
  rewrite (impl_stream d q Hq), (frag_stream _ _ _ _ _ Hc), Z.eqb_refl, (frag_ordered _ _ _ _ _ Hc),
    (impl_next d q Hq), (frag_ssn _ _ _ _ _ Hc), sna16lt_window by done. cbn [negb].
  assert (forall k' i', (k', i') ∈ seen (spec_arrive k i d) ->
    Z.of_nat k' < Z.of_nat (next_msg d) + 2 ^ 15) as Hwin.
  { intros k' i' [[= -> ->]%elem_of_singleton|Hin]%elem_of_union; [lia|].
    by apply (impl_window d q Hq) in Hin. }
  destruct (Z.ltb_spec (Z.of_nat k) (Z.of_nat (next_msg d))) as [Hold|Hcur].
  - exists false, q. split; [done|]. destruct Hq as [H1 H2 H3 H4 H5]. split; try done.
    assert (pending (spec_arrive k i d) = pending d) as ->.
    { apply filter_agree, Forall_forall. intros j Hj. apply elem_of_seq in Hj. apply started_other. lia. }
    apply sets_keep; [done|]. intros [_ Hk]%elem_of_filter_seq. lia.
  - destruct (push_current d q k m i c Hq Hm Hc ltac:(lia)) as (ok & sets & Hpush & Hsets).
    exists ok, (q {{ rq_n_bytes := (rq_n_bytes q + length (user_data c))%nat }} {{ rq_ordered := sets }}).
    split; [|by destruct Hq; split].
    rewrite <-(frag_ssn _ _ _ _ _ Hc).
    change (rq_ordered (q {{ rq_n_bytes := (rq_n_bytes q + length (user_data c))%nat }})) with (rq_ordered q).
    destruct (ReassemblyQueue.push_into c (rq_ordered q)) as [[[ok' sets']|]| |]; cbn [mbind outcome_bind] in *;
      [by simplify_eq| |done|done].
    destruct (ChunkSet.push c _) as [[ok' cset]| |]; cbn [mbind outcome_bind] in *; by simplify_eq.
Qed.

Lemma copy_chunks_spec size cs written q :
  (length written <= size)%nat ->
  exists n, ReassemblyQueue.copy_chunks size cs written true q
  = ((length (written ++ concat (map user_data cs)) <=? size)%nat,
     take size (written ++ concat (map user_data cs)), q {{ rq_n_bytes := n }}).
Proof.
  assert (forall cs written q, exists n, ReassemblyQueue.copy_chunks size cs written false q
    = (false, written, q {{ rq_n_bytes := n }})) as Hskip.
  { clear. induction cs as [|c cs IH]; intros written q; cbn [ReassemblyQueue.copy_chunks].
    - exists (rq_n_bytes q). by destruct q.
    - destruct (IH written (ReassemblyQueue.subtract_num_bytes (length (user_data c)) q)) as [n ->].
      exists n. by destruct q. }
  revert written q. induction cs as [|c cs IH]; intros written q Hw; cbn [ReassemblyQueue.copy_chunks map concat].
  { exists (rq_n_bytes q). rewrite app_nil_r, (proj2 (Nat.leb_le _ _)), take_ge by done. by destruct q. }
  rewrite (assoc_L (++)). destruct (Nat.leb_spec (length (user_data c)) (Nat.min (length (user_data c)) (size - length written))) as [Hfit|Hfit].
  - rewrite Nat.min_l, firstn_all by lia.
    destruct (IH (written ++ user_data c) (ReassemblyQueue.subtract_num_bytes (length (user_data c)) q)) as [n ->];
      [rewrite length_app; lia|]. exists n. by destruct q.
  - destruct (Hskip cs (written ++ take (Nat.min (length (user_data c)) (size - length written)) (user_data c))
      (ReassemblyQueue.subtract_num_bytes (length (user_data c)) q)) as [n ->]. exists n.
    rewrite (proj2 (Nat.leb_gt _ _)) by (rewrite !length_app; lia).
    rewrite Nat.min_r by lia. rewrite <-(assoc_L (++)), !take_app, (take_ge written) by done.
    replace (size - length written - length (user_data c))%nat with 0%nat by lia.
    rewrite take_0, app_nil_r. by destruct q.
Qed.

Lemma fragments_data k m d s :
  complete d k m -> Forall2 (is_fragment stream k m) (parts_seen d k m) (cs_chunks s) ->
  concat (map user_data (cs_chunks s)) = m_data m.
Proof.
  intros Hc Hs. rewrite (proj1 (parts_seen_complete _ _ _) Hc) in Hs. unfold m_data. f_equal.
  apply list_eq. intros i. rewrite list_lookup_fmap.
  pose proof (Forall2_length _ _ _ Hs) as Hl. rewrite length_seq in Hl.
  destruct (cs_chunks s !! i) as [c|] eqn:Hi; cbn [fmap option_fmap option_map].
  - pose proof (lookup_lt_Some _ _ _ Hi) as Hlt.
    assert (seq 0 (length (m_parts m)) !! i = Some i) as Hseq by (apply lookup_seq; lia).
    pose proof (Forall2_lookup_lr _ _ _ _ _ _ Hs Hseq Hi) as Hf. symmetry. apply (frag_data _ _ _ _ _ Hf).
  - apply lookup_ge_None in Hi. symmetry. apply lookup_ge_None. lia.
Qed.

Lemma not_started_incomplete d k m : msgs !! k = Some m -> ~ started d k -> ~ complete d k m.
Proof using msgs_wf.
  intros Hm Hs Hc. apply Hs. unfold started. rewrite Hm, (proj1 (parts_seen_complete _ _ _) Hc).
  pose proof (message_wf k m Hm) as [Hne _]. by destruct (m_parts m).
Qed.

Lemma pending_head d :
  match pending d with
  | [] => forall m, msgs !! next_msg d = Some m -> ~ complete d (next_msg d) m
  | k :: rest =>
      if decide (k = next_msg d) then rest = pending (mkDelivery (seen d) (S (next_msg d)))
      else forall m, msgs !! next_msg d = Some m -> ~ complete d (next_msg d) m
  end.
Proof using msgs_wf.
  unfold pending. cbn [next_msg seen].
  destruct (decide (next_msg d < length msgs)%nat) as [Hlt|Hge].
  2:{ replace (length msgs - next_msg d)%nat with 0%nat by lia. cbn. intros m Hm.
      apply lookup_lt_Some in Hm. lia. }
  replace (length msgs - next_msg d)%nat with (S (length msgs - S (next_msg d))) by lia.
  cbn [seq]. rewrite filter_cons. destruct (decide (started d (next_msg d))) as [Hs|Hs].
  - by rewrite decide_True.
  - destruct (filter (started d) (seq (S (next_msg d)) _)) as [|k rest] eqn:Hf.
    + intros m Hm. by apply not_started_incomplete.
    + assert (k ∈ filter (started d) (seq (S (next_msg d)) (length msgs - S (next_msg d)))) as Hk
        by (rewrite Hf; left).
      apply elem_of_filter_seq in Hk as [_ Hk]. rewrite decide_False by lia.
      intros m Hm. by apply not_started_incomplete.
Qed.

Lemma read_refines d q size :
  implements d q ->
  exists q', ReassemblyQueue.read size q = Ret ((spec_read size d).1, q')
    /\ implements (spec_read size d).2 q'.
Proof using msgs_wf.
  intros Hq. pose proof (pending_head d) as Hhead. pose proof (impl_ordered d q Hq) as Ho.
  assert ((forall m, msgs !! next_msg d = Some m -> ~ complete d (next_msg d) m) ->
    spec_read size d = (ReassemblyQueue.ReadErr [] ErrTryAgain, d)) as Hagain.
  { intros Hn. unfold spec_read. destruct (msgs !! next_msg d) as [m|] eqn:Hm; [|done].
    rewrite decide_False; [done|]. by apply Hn. }
  unfold ReassemblyQueue.read, ReassemblyQueue.take_set. rewrite (proj1 (impl_unordered d q Hq)).
  destruct (pending d) as [|k ks] eqn:Hp; inversion Ho as [|? s ? sets Hs Hsets Hsk Hnil]; subst.
  { rewrite Hagain by done. by exists q. }
  pose proof (pending_window d q k Hq ltac:(rewrite Hp; left)) as Hw.
  destruct Hs as (m & Hm & Hssn & Hppi & Hcs).
  rewrite (is_complete_fragments stream k m (message_wf k m Hm) d s Hcs). cbn [mbind outcome_bind].
  rewrite Hssn, (impl_next d q Hq), sna16gt_window, sna16_eq_window by lia.
  destruct (decide (k = next_msg d)) as [->|Hk].
  2:{ rewrite Hagain by done. exists q. split; [|done].
      case_bool_decide; cbn [negb]; [|done]. by rewrite (proj2 (Z.ltb_lt _ _)) by lia. }
  unfold spec_read. rewrite Hm, Z.ltb_irrefl, Z.eqb_refl.
  case_bool_decide as Hc; [|rewrite decide_False by done; by exists q].
  rewrite decide_True by done. cbn [negb].
  set (q1 := _ {{ rq_ordered := sets }}).
  rewrite bind_Ret. cbn [fst snd].
  destruct (copy_chunks_spec size (cs_chunks s) [] q1) as [n ->]; [simpl; lia|]. cbn [app].
  rewrite (fragments_data (next_msg d) m d s) by done.
  exists (q1 {{ rq_n_bytes := n }}). split.
  { destruct (Nat.leb_spec (length (m_data m)) size); [|done]. by rewrite take_ge, Hppi by done. }
  destruct Hq as [H1 H2 [H3 H4] _ H6]. split; try done.
  - cbn [next_msg]. change (next_ssn (q1 {{ rq_n_bytes := n }})) 
      with (as_u 16 (as_u 16 (Z.of_nat (next_msg d)) + 1)).
    unfold as_u. rewrite Zplus_mod_idemp_l. f_equal. lia.
  - cbn [rq_ordered]. change (rq_ordered (q1 {{ rq_n_bytes := n }})) with sets.
    rewrite <-Hhead. exact Hsets.
  - intros k' i' Hin. apply H6 in Hin. cbn [next_msg]. lia.
Qed.

(** *** Runs *)

(** A part arrives in some chunk, or the application reads into a buffer. *)
Inductive event :=
  | Arrive (k i : nat) (c : ChunkPayloadData)
  | Read (size : nat).

Fixpoint spec_run (evs : list event) (d : delivery) : list ReassemblyQueue.read_result * delivery :=
  match evs with
  | [] => ([], d)
  | Arrive k i _ :: evs => spec_run evs (spec_arrive k i d)
  | Read size :: evs =>
      let '(r, d) := spec_read size d in
      let '(rs, d) := spec_run evs d in (r :: rs, d)
  end.

Fixpoint queue_run (evs : list event) (q : ReassemblyQueue)
    : outcome (list ReassemblyQueue.read_result * ReassemblyQueue) :=
  match evs with
  | [] => Ret ([], q)
  | Arrive _ _ c :: evs => '(_, q) ← ReassemblyQueue.push c q; queue_run evs q
  | Read size :: evs =>
      '(r, q) ← ReassemblyQueue.read size q;
      '(rs, q) ← queue_run evs q;
      Ret (r :: rs, q)
  end.

(** Every chunk carries a part of a message less than 2^15 messages away from the
    one that is read next; parts may arrive in any order, repeatedly, or never. *)
Fixpoint admissible (evs : list event) (d : delivery) : Prop :=
  match evs with
  | [] => True
  | Arrive k i c :: evs =>
      (exists m, msgs !! k = Some m /\ is_fragment stream k m i c)
      /\ Z.abs (Z.of_nat k - Z.of_nat (next_msg d)) < 2 ^ 15
      /\ admissible evs (spec_arrive k i d)
  | Read size :: evs => admissible evs (spec_read size d).2
  end.

Lemma queue_run_refines evs d q :
  implements d q -> admissible evs d ->
  exists q', queue_run evs q = Ret ((spec_run evs d).1, q') /\ implements (spec_run evs d).2 q'.
Proof using msgs_wf.
  revert d q. induction evs as [|[k i c|size] evs IH]; intros d q Hq Hev; cbn [queue_run spec_run].
  - by exists q.
  - destruct Hev as ((m & Hm & Hc) & Hw & Hev).
    destruct (push_refines d q k m i c Hq Hm Hc Hw) as (ok & q1 & -> & Hq1). by apply IH.
  - destruct (read_refines d q size Hq) as (q1 & -> & Hq1). cbn [admissible] in Hev.
    destruct (spec_read size d) as [r d1]. cbn [fst snd mbind outcome_bind] in *.
    destruct (IH d1 q1 Hq1 Hev) as (q2 & -> & Hq2). destruct (spec_run evs d1) as [rs d2]. by exists q2.
Qed.

Definition nothing : delivery := mkDelivery ∅ 0.

Lemma implements_new : implements nothing (ReassemblyQueue.new stream).
Proof.
  split; try done.
  assert (pending nothing = []) as ->; [|constructor].
  apply elem_of_nil_inv. intros k [Hs _]%elem_of_filter_seq. unfold started in Hs.
  destruct (msgs !! k) as [m|]; [|done]. apply Hs, elem_of_nil_inv.
  intros i [Hi _]%list_elem_of_filter. set_solver.
Qed.

(** *** What the contract says about whole runs *)

Definition delivered (rs : list ReassemblyQueue.read_result) : list (bytes * PayloadProtocolIdentifier) :=
  omap (fun r => match r with ReassemblyQueue.ReadOk data ppi => Some (data, ppi) | _ => None end) rs.

Definition contents : list (bytes * PayloadProtocolIdentifier) := map (fun m => (m_data m, m_ppi m)) msgs.

(** Every read has room for every message. *)
Definition roomy (evs : list event) : Prop :=
  Forall (fun e => match e with
                   | Read size => Forall (fun m => length (m_data m) <= size)%nat msgs
                   | Arrive _ _ _ => True
                   end) evs.

Lemma spec_run_app evs evs' d :
  spec_run (evs ++ evs') d
  = ((spec_run evs d).1 ++ (spec_run evs' (spec_run evs d).2).1, (spec_run evs' (spec_run evs d).2).2).
Proof.
  revert d. induction evs as [|[k i c|size] evs IH]; intros d; cbn [spec_run app].
  - cbn [fst snd app]. by destruct (spec_run evs' d).
  - apply IH.
  - destruct (spec_read size d) as [r d1]. rewrite IH. by destruct (spec_run evs d1) as [rs d2].
Qed.

Lemma admissible_reads evs n size d :
  admissible evs d -> admissible (evs ++ replicate n (Read size)) d.
Proof.
  revert d. induction evs as [|[k i c|size'] evs IH]; intros d; cbn [admissible app].
  - intros _. revert d. induction n as [|n IH]; intros d; [done|]. apply IH.
  - intros (H1 & H2 & H3). auto.
  - apply IH.
Qed.

Lemma spec_run_delivers evs d :
  roomy evs ->
  (next_msg d <= next_msg (spec_run evs d).2)%nat
  /\ delivered (spec_run evs d).1
     = take (next_msg (spec_run evs d).2 - next_msg d) (drop (next_msg d) contents).
Proof.
  intros Hr. revert d. induction Hr as [|[k i c|size] evs Hsize Hr IH]; intros d; cbn [spec_run].
  - split; [done|]. by rewrite Nat.sub_diag.
  - apply (IH (spec_arrive k i d)).
  - unfold spec_read. destruct (msgs !! next_msg d) as [m|] eqn:Hm;
      [destruct (decide (complete d (next_msg d) m))|]; cbn iota.
    + assert (contents !! next_msg d = Some (m_data m, m_ppi m)) as Hc
        by (unfold contents; by rewrite list_lookup_fmap, Hm).
      pose proof (proj1 (Forall_lookup _ _) Hsize _ _ Hm) as Hfit. cbn beta in Hfit.
      rewrite (proj2 (Nat.leb_le _ _)) by done.
      destruct (IH (mkDelivery (seen d) (S (next_msg d)))) as [Hle Hd].
      destruct (spec_run evs _) as [rs d2]. cbn [fst snd next_msg delivered omap list_omap] in *.
      split; [lia|]. rewrite (drop_S _ _ _ Hc).
      replace (next_msg d2 - next_msg d)%nat with (S (next_msg d2 - S (next_msg d))) by lia.
      cbn [take]. by rewrite <-Hd.
    + destruct (IH d) as [Hle Hd]. by destruct (spec_run evs d) as [rs d2].
    + destruct (IH d) as [Hle Hd]. by destruct (spec_run evs d) as [rs d2].
Qed.

Lemma spec_run_seen evs d k i :
  (k, i) ∈ seen d \/ (exists c, Arrive k i c ∈ evs) -> (k, i) ∈ seen (spec_run evs d).2.
Proof.
  revert d. induction evs as [|[k' i' c'|size] evs IH]; intros d; cbn [spec_run].
  - intros [H|[c H]]; [done|]. by apply elem_of_nil in H.
  - intros [H|[c H]]; apply IH; [left; cbn; set_solver|].
    apply elem_of_cons in H as [[= -> -> ->]|H]; [left; cbn; set_solver|right; eauto].
  - intros H. destruct (spec_read size d) as [r d1] eqn:Hrd.
    assert (seen d1 = seen d) as Hs.
    { unfold spec_read in Hrd. repeat case_match; by simplify_eq. }
    pose proof (IH d1) as Hrec. destruct (spec_run evs d1) as [rs d2]. apply Hrec.
    destruct H as [H|[c H]]; [left; by rewrite Hs|].
    apply elem_of_cons in H as [?|H]; [done|right; eauto].
Qed.

Lemma spec_run_bounded evs d :
  (next_msg d <= length msgs)%nat -> (next_msg (spec_run evs d).2 <= length msgs)%nat.
Proof.
  revert d. induction evs as [|[k i c|size] evs IH]; intros d Hd; cbn [spec_run]; [done|by apply IH|].
  destruct (spec_read size d) as [r d1] eqn:Hrd.
  assert (next_msg d1 <= length msgs)%nat as Hd1.
  { unfold spec_read in Hrd. destruct (msgs !! next_msg d) as [m|] eqn:Hm; [|by simplify_eq].
    apply lookup_lt_Some in Hm. case_match; simplify_eq/=; lia. }
  pose proof (IH d1 Hd1) as Hrec. by destruct (spec_run evs d1) as [rs d2].
Qed.

Lemma reads_to_the_end size n d :
  (forall k m, msgs !! k = Some m -> complete d k m) -> (next_msg d <= length msgs)%nat ->
  (length msgs - next_msg d <= n)%nat ->
  next_msg (spec_run (replicate n (Read size)) d).2 = length msgs.
Proof.
  revert d. induction n as [|n IH]; intros d Hc Hle Hn; cbn [replicate spec_run]; [cbn; lia|].
  unfold spec_read. destruct (msgs !! next_msg d) as [m|] eqn:Hm.
  - rewrite decide_True by by apply Hc. pose proof (lookup_lt_Some _ _ _ Hm).
    pose proof (IH (mkDelivery (seen d) (S (next_msg d))) Hc ltac:(cbn; lia) ltac:(cbn; lia)) as Hrec.
    by destruct (spec_run _ _) as [rs d2].
  - pose proof (IH d Hc Hle) as Hrec. apply lookup_ge_None in Hm.
    destruct (spec_run _ _) as [rs d2]. apply Hrec. lia.
Qed.

Lemma readable_refines d q : implements d q -> exists b, ReassemblyQueue.is_readable q = Ret b.
Proof using msgs_wf.
  intros Hq. unfold ReassemblyQueue.is_readable. rewrite (proj1 (impl_unordered d q Hq)).
  pose proof (impl_ordered d q Hq) as Ho.
  destruct (pending d) as [|k ks]; inversion Ho as [|? s ? sets Hs Hsets]; subst; [by eexists|].
  destruct Hs as (m & Hm & _ & _ & Hcs).
  rewrite (is_complete_fragments stream k m (message_wf k m Hm) d s Hcs). by eexists.
Qed.


(** Ordered messages are delivered exactly once and in order. Once every part of every message
    has arrived, in any order and mixed with reads and repetitions, the reads so far and one more
    read per message have returned precisely the messages that were sent. *)
Theorem messages_delivered_in_order evs size :
  admissible evs nothing -> roomy (Read size :: evs) ->
  (forall k m i, msgs !! k = Some m -> (i < length (m_parts m))%nat -> exists c, Arrive k i c ∈ evs) ->
  exists rs q,
    queue_run (evs ++ replicate (length msgs) (Read size)) (ReassemblyQueue.new stream) = Ret (rs, q)
    /\ delivered rs = contents.
Proof using msgs_wf.
  intros Hadm Hroomy Hall. set (evs' := evs ++ replicate (length msgs) (Read size)).
  destruct (queue_run_refines evs' nothing (ReassemblyQueue.new stream) implements_new
    (admissible_reads evs (length msgs) size nothing Hadm)) as (q & Hrun & _).
  exists (spec_run evs' nothing).1, q. split; [done|].
  apply Forall_cons in Hroomy as [Hsize Hroomy].
  assert (roomy evs') as Hr by (apply Forall_app; split; [done|]; by apply Forall_replicate).
  pose proof (spec_run_delivers evs' nothing Hr) as [_ ->].
  pose proof (spec_run_delivers evs nothing Hroomy) as [_ Hmid].
  enough (next_msg (spec_run evs' nothing).2 = length msgs) as ->.
  { cbn [next_msg nothing]. rewrite drop_0, Nat.sub_0_r. apply take_ge. unfold contents. by rewrite length_map. }
  unfold evs'. rewrite spec_run_app. cbn [snd]. apply reads_to_the_end.
  - intros k m Hm. apply Forall_forall. intros i Hi. apply elem_of_seq in Hi.
    apply spec_run_seen. right. apply (Hall k m); [done|lia].
  - apply spec_run_bounded. cbn. lia.
  - lia.
Qed.
End delivery.

(** Two messages, the first in two parts; the second overtakes the first. *)
Definition demo_messages : list message := [mkMessage 10 Binary [[1; 2]; [3]]; mkMessage 12 PpiString [[4]]].

Definition demo_part (k i : nat) (t : Z) (p : PayloadProtocolIdentifier) (last : bool) (data : bytes) : event :=
  Arrive k i (mkChunkPayloadData false (i =? 0)%nat last false t 7 (Z.of_nat k) p data false 0 0 0 0 false None).

Definition demo_events : list event :=
  [demo_part 1 0 12 PpiString true [4]; Read 100; demo_part 0 1 11 Binary true [3];
   demo_part 0 0 10 Binary false [1; 2]; demo_part 0 1 11 Binary true [3]; Read 100].

Lemma demo_messages_wf : Forall wf_message demo_messages.
Proof. repeat constructor; cbn; lia || done. Qed.

Lemma demo_admissible : admissible 7 demo_messages demo_events nothing.
Proof.
  repeat (split; [eexists; split; [reflexivity|constructor; reflexivity]|split; [done|]]). done.
Qed.


