(* ===== verification/SctpQueues.v ===== *)
(** * The queues of an association (vendored/webrtc-sctp/src/queue/payload_queue.rs
    and pending_queue.rs)

    [PayloadQueue] holds DATA chunks by TSN, received ones that wait for earlier
    TSNs or sent ones that wait for their acknowledgement.  [PendingQueue] holds
    the chunks that the streams have written and that have no TSN yet, with a
    semaphore that blocks writers while it is full.  The flags [abandoned] and
    [all_inflight] that the fragments of a message share are in a store of cells,
    which a chunk refers to by [message_flags]. *)

From stdpp Require Import base list sets gmap sorting.
From coqutil Require Export Datatypes.RecordSetters.
From Stdlib Require Import ZArith Lia.
From S2P Require Import Prelude Net Fallible SctpWire.
Export DoubleBraceUpdate.
Local Open Scope Z_scope.

(** ** The shared flags of a message *)

Record MessageFlags := mkMessageFlags { fl_abandoned : bool; fl_all_inflight : bool }.

(** The cells, by the number the fragments carry. *)
Definition flag_cells : Type := list MessageFlags.

Definition cell (cells : flag_cells) (n : nat) : MessageFlags :=
  default (mkMessageFlags false false) (cells !! n).

Definition abandoned (cells : flag_cells) (c : ChunkPayloadData) : bool :=
  fl_abandoned (cell cells (message_flags c)) && fl_all_inflight (cell cells (message_flags c)).

Definition set_abandoned (v : bool) (c : ChunkPayloadData) (cells : flag_cells) : flag_cells :=
  alter (fun f => mkMessageFlags v (fl_all_inflight f)) (message_flags c) cells.

Definition set_all_inflight (c : ChunkPayloadData) (cells : flag_cells) : flag_cells :=
  if ending_fragment c
  then alter (fun f => mkMessageFlags (fl_abandoned f) true) (message_flags c) cells
  else cells.

(** ** Payload queue *)

Record PayloadQueue := mkPayloadQueue {
  pq_length : nat;
  chunk_map : gmap Z ChunkPayloadData;
  sorted : list Z;
  dup_tsn : list Z;
  pq_n_bytes : nat }.

Module PayloadQueue.
Definition new : PayloadQueue := mkPayloadQueue 0 ∅ [] [] 0.

Definition can_push (p : ChunkPayloadData) (cumulative_tsn : Z) (q : PayloadQueue) : bool :=
  negb (bool_decide (is_Some (chunk_map q !! tsn p)) || sna32lte (tsn p) cumulative_tsn).

(** [binary_search_by] with a comparator that never says [Equal], on a deque that
    is sorted for it: the number of elements before the new one. *)
Fixpoint insert_position (tsn : Z) (sorted : list Z) : nat :=
  match sorted with
  | [] => 0
  | element :: sorted => if sna32lt element tsn then S (insert_position tsn sorted) else 0
  end.

Definition insert_sorted (tsn : Z) (sorted : list Z) : list Z :=
  match head sorted, last sorted with
  | Some front, Some back =>
      if sna32gt tsn back then sorted ++ [tsn]
      else if sna32lt tsn front then tsn :: sorted
      else
        let pos := insert_position tsn sorted in
        take pos sorted ++ tsn :: drop pos sorted
  | _, _ => [tsn]
  end.

Definition push_no_check (p : ChunkPayloadData) (q : PayloadQueue) : PayloadQueue :=
  mkPayloadQueue (pq_length q + 1) (<[tsn p := p]> (chunk_map q)) (insert_sorted (tsn p) (sorted q))
    (dup_tsn q) (pq_n_bytes q + length (user_data p)).

Definition push (p : ChunkPayloadData) (cumulative_tsn : Z) (q : PayloadQueue) : bool * PayloadQueue :=
  if bool_decide (is_Some (chunk_map q !! tsn p)) || sna32lte (tsn p) cumulative_tsn
  then (false, q {{ dup_tsn := dup_tsn q ++ [tsn p] }})
  else (true, push_no_check p q).

(** [self.n_bytes -= n], an unsigned subtraction. *)
Definition sub_bytes (n : nat) (q : PayloadQueue) : outcome PayloadQueue :=
  if (pq_n_bytes q <? n)%nat then Panic ArithmeticOverflow
  else Ret (q {{ pq_n_bytes := (pq_n_bytes q - n)%nat }}).

Definition pop (tsn : Z) (q : PayloadQueue) : outcome (option ChunkPayloadData * PayloadQueue) :=
  match sorted q with
  | front :: rest =>
      if front =? tsn then
        let q := q {{ sorted := rest }} in
        match chunk_map q !! tsn with
        | Some c =>
            q ← sub_bytes (length (user_data c))
                  (q {{ chunk_map := delete tsn (chunk_map q) }} {{ pq_length := (pq_length q - 1)%nat }});
            Ret (Some c, q)
        | None => Ret (None, q)
        end
      else Ret (None, q)
  | [] => Ret (None, q)
  end.

Definition get (tsn : Z) (q : PayloadQueue) : option ChunkPayloadData := chunk_map q !! tsn.

Definition pop_duplicates (q : PayloadQueue) : list Z * PayloadQueue :=
  (dup_tsn q, q {{ dup_tsn := [] }}).

(** The loop over the TSNs after the first: [b] is the block that is growing. *)
Fixpoint grow_blocks (cumulative_tsn : Z) (b : GapAckBlock) (tsns : list Z) : outcome (list GapAckBlock) :=
  match tsns with
  | [] => Ret [b]
  | tsn :: tsns =>
      let diff := if tsn >=? cumulative_tsn then as_u 16 (tsn - cumulative_tsn) else 0 in
      next ← checked_u 16 (gap_end b + 1);
      if next =? diff then grow_blocks cumulative_tsn (mkGapAckBlock (gap_start b) next) tsns
      else
        blocks ← grow_blocks cumulative_tsn (mkGapAckBlock diff diff) tsns;
        Ret (b :: blocks)
  end.

Definition get_gap_ack_blocks (cumulative_tsn : Z) (q : PayloadQueue) : outcome (list GapAckBlock) :=
  if bool_decide (chunk_map q = ∅) then Ret []
  else
    match sorted q with
    | [] => Ret [mkGapAckBlock 0 0]
    | tsn :: tsns =>
        let diff := if tsn >=? cumulative_tsn then as_u 16 (tsn - cumulative_tsn) else 0 in
        grow_blocks cumulative_tsn (mkGapAckBlock diff diff) tsns
    end.

Definition mark_as_acked (t : Z) (q : PayloadQueue) : outcome (nat * PayloadQueue) :=
  match chunk_map q !! t with
  | Some c =>
      let n := length (user_data c) in
      let c := c {{ acked := true }} {{ retransmit := false }} {{ user_data := [] }} in
      q ← sub_bytes n q;
      Ret (n, q {{ chunk_map := <[t := c]> (chunk_map q) }})
  | None => Ret (0%nat, q)
  end.

Definition get_last_tsn_received (q : PayloadQueue) : option Z := last (sorted q).

Definition mark_all_to_retrasmit (cells : flag_cells) (q : PayloadQueue) : PayloadQueue :=
  q {{ chunk_map := (fun c => if acked c || abandoned cells c then c else c {{ retransmit := true }})
                      <$> chunk_map q }}.

Definition get_num_bytes (q : PayloadQueue) : nat := pq_n_bytes q.

(** [len], with its assertion. *)
Definition len (q : PayloadQueue) : outcome nat :=
  if (size (chunk_map q) =? pq_length q)%nat then Ret (size (chunk_map q)) else Panic ExplicitPanic.

Definition is_empty (q : PayloadQueue) : outcome bool :=
  n ← len q;
  Ret (n =? 0)%nat.
End PayloadQueue.

(** ** Pending queue *)

Definition QUEUE_BYTES_LIMIT : nat := Z.to_nat (128 * 1024).
Definition QUEUE_APPEND_LARGE : nat := Z.to_nat ((128 * 1024 * 2) / 3).

Lemma limit_positive : (3 <= QUEUE_BYTES_LIMIT)%nat.
Proof. unfold QUEUE_BYTES_LIMIT. lia. Qed.
#[global] Opaque QUEUE_BYTES_LIMIT QUEUE_APPEND_LARGE.

(** [permits] is what the semaphore has left; who holds [semaphore_lock] is not
    part of the state: it is held from the first to the last step of an append. *)
Record PendingQueue := mkPendingQueue {
  permits : nat;
  unordered_queue : list ChunkPayloadData;
  ordered_queue : list ChunkPayloadData;
  queue_len : nat;
  pend_n_bytes : nat;
  selected : bool;
  unordered_is_selected : bool }.

Module PendingQueue.
Definition new : PendingQueue := mkPendingQueue QUEUE_BYTES_LIMIT [] [] 0 0 false false.

Definition data_len (chunks : list ChunkPayloadData) : nat :=
  foldl (fun acc c => acc + length (user_data c))%nat 0%nat chunks.

(** [semaphore.acquire_many(n).await]: waits while there are too few permits. *)
Definition acquire_many (n : nat) (q : PendingQueue) : option PendingQueue :=
  if (permits q <? n)%nat then None else Some (q {{ permits := (permits q - n)%nat }}).

(** One chunk behind the others of its kind, with its permits taken: the body of
    [push] and of the loop in [append_large]; nothing when it has to wait. *)
Definition push (c : ChunkPayloadData) (q : PendingQueue) : option PendingQueue :=
  let n := length (user_data c) in
  q ← acquire_many n q;
  let q := if unordered c then q {{ unordered_queue := unordered_queue q ++ [c] }}
           else q {{ ordered_queue := ordered_queue q ++ [c] }} in
  Some (q {{ pend_n_bytes := (pend_n_bytes q + n)%nat }} {{ queue_len := (queue_len q + 1)%nat }}).

Definition append_unlimited (chunks : list ChunkPayloadData) (total_user_data_len : nat)
    (q : PendingQueue) : outcome PendingQueue :=
  match chunks with
  | [] => Panic UnwrapOnNone
  | first :: _ =>
      q ← (if unordered first then
             if negb (forallb (fun c => unordered c) chunks) then Panic ExplicitPanic
             else Ret (q {{ unordered_queue := unordered_queue q ++ chunks }})
           else
             if negb (forallb (fun c => negb (unordered c)) chunks) then Panic ExplicitPanic
             else Ret (q {{ ordered_queue := ordered_queue q ++ chunks }}));
      Ret (q {{ pend_n_bytes := (pend_n_bytes q + total_user_data_len)%nat }}
             {{ queue_len := (queue_len q + length chunks)%nat }})
  end.

(** [append] when it does not have to wait. *)
Definition is_large (chunks : list ChunkPayloadData) : bool :=
  (QUEUE_APPEND_LARGE <=? data_len chunks)%nat.

Fixpoint append_large (chunks : list ChunkPayloadData) (q : PendingQueue) : option PendingQueue :=
  match chunks with
  | [] => Some q
  | c :: rest => q ← push c q; append_large rest q
  end.

Definition append (chunks : list ChunkPayloadData) (q : PendingQueue) : outcome (option PendingQueue) :=
  match chunks with
  | [] => Ret (Some q)
  | _ =>
      if is_large chunks then Ret (append_large chunks q)
      else
        match acquire_many (data_len chunks) q with
        | None => Ret None
        | Some q => q ← append_unlimited chunks (data_len chunks) q; Ret (Some q)
        end
  end.

Definition peek (q : PendingQueue) : option ChunkPayloadData :=
  if selected q then
    if unordered_is_selected q then head (unordered_queue q) else head (ordered_queue q)
  else
    match head (unordered_queue q) with
    | Some c => Some c
    | None => head (ordered_queue q)
    end.

Definition pop_front (from_unordered : bool) (q : PendingQueue) : option ChunkPayloadData * PendingQueue :=
  if from_unordered then (head (unordered_queue q), q {{ unordered_queue := tail (unordered_queue q) }})
  else (head (ordered_queue q), q {{ ordered_queue := tail (ordered_queue q) }}).

(** [fetch_sub] wraps around. *)
Definition pop (beginning_fragment unordered : bool) (q : PendingQueue)
    : option ChunkPayloadData * PendingQueue :=
  let '(popped, q) :=
    if selected q then
      let '(popped, q) := pop_front (unordered_is_selected q) q in
      match popped with
      | Some p => (popped, if ending_fragment p then q {{ selected := false }} else q)
      | None => (popped, q)
      end
    else if negb beginning_fragment then (None, q)
    else
      let '(popped, q) := pop_front unordered q in
      match popped with
      | Some p =>
          (popped, if ending_fragment p then q
                   else q {{ selected := true }} {{ unordered_is_selected := unordered }})
      | None => (popped, q)
      end in
  match popped with
  | Some p =>
      let n := length (user_data p) in
      (popped, q {{ pend_n_bytes := (pend_n_bytes q - n)%nat }} {{ queue_len := (queue_len q - 1)%nat }}
                 {{ permits := (permits q + n)%nat }})
  | None => (popped, q)
  end.

Definition get_num_bytes (q : PendingQueue) : nat := pend_n_bytes q.
Definition len (q : PendingQueue) : nat := queue_len q.
Definition is_empty (q : PendingQueue) : bool := (queue_len q =? 0)%nat.
End PendingQueue.

(** ** Payload queues of close TSNs *)

Lemma abs_sub_comm a b : Z.abs (a - b) = Z.abs (b - a).
Proof. lia. Qed.

Lemma as_u_inj w a b : 0 < w -> Z.abs (a - b) < 2 ^ (w - 1) -> as_u w a = as_u w b -> a = b.
Proof.
  intros Hw H Heq. pose proof (residues_window w a b Hw H) as (_ & _ & ?).
  assert (2 ^ w = 2 * 2 ^ (w - 1)) by (rewrite <-Z.pow_succ_r by lia; f_equal; lia). lia.
Qed.

(** The bytes of user data in a map of chunks. *)
Definition map_bytes (m : gmap Z ChunkPayloadData) : nat :=
  map_fold (fun _ c n => length (user_data c) + n)%nat 0%nat m.

Lemma map_bytes_insert m t c :
  m !! t = None -> map_bytes (<[t := c]> m) = (length (user_data c) + map_bytes m)%nat.
Proof. intros H. unfold map_bytes. rewrite map_fold_insert_L; [done| |done]. intros. lia. Qed.

Lemma map_bytes_delete m t c :
  m !! t = Some c -> map_bytes m = (length (user_data c) + map_bytes (delete t m))%nat.
Proof. intros H. rewrite <-(map_bytes_insert _ t) by apply lookup_delete_eq. by rewrite insert_delete_id. Qed.

(** [q] holds the chunks with the TSNs [l], counted without a turn of the counter,
    and its counters are right. *)
Record holds (l : list Z) (q : PayloadQueue) : Prop := mkHolds {
  holds_increasing : StronglySorted Z.lt l;
  holds_close : forall x y, x ∈ l -> y ∈ l -> Z.abs (x - y) < 2 ^ 31;
  holds_sorted : sorted q = map (as_u 32) l;
  holds_keys : forall t, is_Some (chunk_map q !! t) <-> t ∈ sorted q;
  holds_tsn : forall t c, chunk_map q !! t = Some c -> tsn c = t;
  holds_length : pq_length q = size (chunk_map q);
  holds_bytes : pq_n_bytes q = map_bytes (chunk_map q) }.

Lemma holds_new : holds [] PayloadQueue.new.
Proof.
  split; try done; [constructor|intros x y H; by apply elem_of_nil in H|].
  intros t. cbn. rewrite lookup_empty, elem_of_nil. split; [by intros []|done].
Qed.

(** Where a TSN goes among those that are there. *)
Fixpoint insert_abs (x : Z) (l : list Z) : list Z :=
  match l with
  | [] => [x]
  | y :: l => if y <? x then y :: insert_abs x l else x :: y :: l
  end.

Lemma elem_of_insert_abs x y l : y ∈ insert_abs x l <-> y = x \/ y ∈ l.
Proof.
  induction l as [|z l IH]; cbn [insert_abs]; [by rewrite list_elem_of_singleton, elem_of_nil; naive_solver|].
  destruct (z <? x); rewrite !elem_of_cons, ?IH; naive_solver.
Qed.

Lemma insert_abs_sorted x l : StronglySorted Z.lt l -> x ∉ l -> StronglySorted Z.lt (insert_abs x l).
Proof.
  induction 1 as [|y l Hl IH Hy]; intros Hx; cbn [insert_abs]; [by repeat constructor|].
  apply not_elem_of_cons in Hx as [Hxy Hx]. destruct (Z.ltb_spec y x).
  - constructor; [by apply IH|]. apply Forall_forall. intros z [->|Hz]%elem_of_insert_abs; [done|].
    by apply (proj1 (Forall_forall _ _) Hy).
  - constructor; [by constructor|]. constructor; [lia|]. eapply Forall_impl; [done|]. cbn. lia.
Qed.

Lemma insert_abs_last x l :
  StronglySorted Z.lt l -> Forall (fun y => y < x) l -> insert_abs x l = l ++ [x].
Proof.
  intros _ H. induction H as [|y l Hy H IH]; [done|]. cbn [insert_abs app].
  by rewrite (proj2 (Z.ltb_lt _ _)), IH.
Qed.

Lemma insert_sorted_abs x l :
  StronglySorted Z.lt l -> x ∉ l -> (forall y, y ∈ l -> Z.abs (x - y) < 2 ^ 31) ->
  PayloadQueue.insert_sorted (as_u 32 x) (map (as_u 32) l) = map (as_u 32) (insert_abs x l).
Proof.
  intros Hl Hx Hclose. unfold PayloadQueue.insert_sorted.
  assert (forall k, (forall y, y ∈ k -> y ∈ l) -> StronglySorted Z.lt k ->
    let pos := PayloadQueue.insert_position (as_u 32 x) (map (as_u 32) k) in
    take pos (map (as_u 32) k) ++ as_u 32 x :: drop pos (map (as_u 32) k) = map (as_u 32) (insert_abs x k)) as Hpos.
  { induction k as [|y k IH]; intros Hk Hs; [done|]. cbn [map PayloadQueue.insert_position insert_abs].
    rewrite sna32lt_window by (rewrite abs_sub_comm; apply Hclose, Hk; left).
    apply StronglySorted_inv in Hs as [Hs _].
    destruct (y <? x); cbn [take drop app map]; [|done]. f_equal. apply IH; [|done].
    intros z Hz. apply Hk. by right. }
  destruct l as [|y l] using rev_ind; [done|]. clear IHl.
  rewrite map_app. cbn [map]. rewrite last_snoc.
  assert (exists front, head (map (as_u 32) l ++ [as_u 32 y]) = Some (as_u 32 front)
    /\ front ∈ l ++ [y] /\ Forall (Z.le front) (l ++ [y])) as (front & Hhead & Hfront & Hmin).
  { destruct l as [|f l]; cbn [map app head]; eexists; (split; [reflexivity|split; [left|]]).
    - repeat constructor. lia.
    - apply StronglySorted_inv in Hl as [_ Hl]. constructor; [lia|]. eapply Forall_impl; [done|]. cbn. lia. }
  rewrite Hhead. rewrite sna32gt_window by (apply Hclose, elem_of_app; right; left).
  rewrite sna32lt_window by by apply Hclose.
  destruct (Z.ltb_spec y x) as [Hback|Hback].
  { rewrite insert_abs_last; [by rewrite !map_app|done|].
    apply StronglySorted_app in Hl as (Hl & _). apply Forall_app. split; [|by constructor].
    apply Forall_forall. intros z Hz. pose proof (Hl z y Hz ltac:(left)). lia. }
  destruct (Z.ltb_spec x front) as [Hlt|Hge].
  - destruct l as [|f l]; cbn [map app insert_abs].
    + by rewrite (proj2 (Z.ltb_ge _ _)) by lia.
    + apply Forall_cons in Hmin as [Hf _]. rewrite (proj2 (Z.ltb_ge _ _)) by lia.
      cbn [map]. by rewrite map_app.
  - pose proof (Hpos (l ++ [y]) ltac:(done) Hl) as Hp. rewrite map_app in Hp. exact Hp.
Qed.

Lemma holds_fresh l q x :
  holds l q -> (forall y, y ∈ l -> Z.abs (x - y) < 2 ^ 31) ->
  bool_decide (is_Some (chunk_map q !! as_u 32 x)) = bool_decide (x ∈ l).
Proof.
  intros Hq Hclose. apply bool_decide_ext. rewrite (holds_keys l q Hq), (holds_sorted l q Hq).
  rewrite list_elem_of_fmap. split; [|by exists x].
  intros (y & Heq & Hy). apply as_u_inj in Heq; [by subst|lia|]. by apply Hclose.
Qed.

Lemma push_no_check_holds l q p x :
  holds l q -> tsn p = as_u 32 x -> x ∉ l -> (forall y, y ∈ l -> Z.abs (x - y) < 2 ^ 31) ->
  holds (insert_abs x l) (PayloadQueue.push_no_check p q).
Proof.
  intros Hq Hp Hx Hclose. pose proof (holds_fresh l q x Hq Hclose) as Hf.
  rewrite (bool_decide_false _ Hx), bool_decide_eq_false in Hf. apply eq_None_not_Some in Hf.
  destruct Hq as [H1 H2 H3 H4 H5 H6 H7]. unfold PayloadQueue.push_no_check. rewrite Hp.
  split; cbn [sorted chunk_map pq_length pq_n_bytes].
  - by apply insert_abs_sorted.
  - intros a b Ha Hb. rewrite elem_of_insert_abs in Ha, Hb.
    destruct Ha as [->|Ha], Hb as [->|Hb]; [lia|by apply Hclose|rewrite abs_sub_comm; by apply Hclose|by apply H2].
  - rewrite H3. by apply insert_sorted_abs.
  - intros t. rewrite H3, insert_sorted_abs by done. rewrite lookup_insert_is_Some', H4, H3.
    rewrite !list_elem_of_fmap. setoid_rewrite elem_of_insert_abs. naive_solver.
  - intros t c. rewrite lookup_insert_Some. naive_solver.
  - rewrite map_size_insert_None by done. lia.
  - rewrite map_bytes_insert by done. lia.
Qed.

Lemma push_holds l q p x cum :
  holds l q -> tsn p = as_u 32 x -> (forall y, y ∈ l -> Z.abs (x - y) < 2 ^ 31) ->
  Z.abs (x - cum) < 2 ^ 31 ->
  let fresh := bool_decide (x ∉ l) && (cum <? x) in
  PayloadQueue.can_push p (as_u 32 cum) q = fresh
  /\ (PayloadQueue.push p (as_u 32 cum) q).1 = fresh
  /\ holds (if fresh then insert_abs x l else l) (PayloadQueue.push p (as_u 32 cum) q).2.
Proof.
  intros Hq Hp Hclose Hcum. cbn zeta. unfold PayloadQueue.can_push, PayloadQueue.push.
  rewrite Hp, (holds_fresh l q x), sna32lte_window by done.
  rewrite bool_decide_not. replace (x <=? cum) with (negb (cum <? x)) by (destruct (Z.ltb_spec cum x), (Z.leb_spec x cum); lia || done).
  case_bool_decide as Hx; cbn [negb orb andb fst snd].
  - split_and!; [done..|]. by destruct Hq.
  - destruct (cum <? x); cbn [negb andb fst snd]; (split_and!; [done..|]); [|by destruct Hq].
    by apply push_no_check_holds.
Qed.

Lemma holds_nodup l q : holds l q -> NoDup (sorted q).
Proof.
  intros Hq. rewrite (holds_sorted l q Hq). apply NoDup_fmap_2_strong.
  - intros x y Hx Hy Heq. apply as_u_inj in Heq; [done|lia|]. by apply (holds_close l q Hq).
  - pose proof (holds_increasing l q Hq) as Hs. clear Hq.
    induction Hs as [|x l Hl IH Hx]; constructor; [|done].
    intros Hin. apply (proj1 (Forall_forall _ _) Hx) in Hin. lia.
Qed.

Lemma holds_size l q : holds l q -> size (chunk_map q) = length l.
Proof.
  intros Hq. assert (dom (chunk_map q) = (list_to_set (sorted q) : gset Z)) as Hdom.
  { apply set_eq. intros t. by rewrite elem_of_dom, elem_of_list_to_set, (holds_keys l q Hq). }
  rewrite <-size_dom, Hdom, size_list_to_set by (by apply (holds_nodup l)).
  by rewrite (holds_sorted l q Hq), length_map.
Qed.

Lemma len_holds l q : holds l q -> PayloadQueue.len q = Ret (length l).
Proof.
  intros Hq. unfold PayloadQueue.len.
  by rewrite (holds_length l q Hq), Nat.eqb_refl, (holds_size l).
Qed.

Lemma is_empty_holds l q : holds l q -> PayloadQueue.is_empty q = Ret (length l =? 0)%nat.
Proof. intros Hq. unfold PayloadQueue.is_empty. by rewrite (len_holds l). Qed.

Lemma holds_get l q x :
  holds l q -> x ∈ l -> exists c, PayloadQueue.get (as_u 32 x) q = Some c /\ tsn c = as_u 32 x.
Proof.
  intros Hq Hx. destruct (proj2 (holds_keys l q Hq (as_u 32 x))) as [c Hc].
  { rewrite (holds_sorted l q Hq). apply list_elem_of_fmap. by exists x. }
  exists c. split; [done|]. by apply (holds_tsn l q Hq).
Qed.

Lemma pop_front_holds x l q :
  holds (x :: l) q ->
  exists c q', PayloadQueue.pop (as_u 32 x) q = Ret (Some c, q')
    /\ chunk_map q !! as_u 32 x = Some c /\ chunk_map q' = delete (as_u 32 x) (chunk_map q)
    /\ dup_tsn q' = dup_tsn q /\ holds l q'.
Proof.
  intros Hq. destruct (holds_get _ _ x Hq ltac:(left)) as (c & Hc & _). unfold PayloadQueue.get in Hc.
  pose proof (holds_nodup _ _ Hq) as Hnd. pose proof (map_bytes_delete _ _ _ Hc) as Hb.
  pose proof (map_size_delete_Some (as_u 32 x) (chunk_map q) ltac:(by eexists)) as Hsz.
  assert (size (chunk_map q) <> 0%nat) as Hnz.
  { intros Hz. apply map_size_empty_inv in Hz. by rewrite Hz, lookup_empty in Hc. }
  destruct Hq as [H1 H2 H3 H4 H5 H6 H7]. unfold PayloadQueue.pop. rewrite H3 in Hnd, H4 |- *.
  cbn [map] in *. rewrite Z.eqb_refl.
  change (chunk_map (q {{ sorted := map (as_u 32) l }})) with (chunk_map q). rewrite Hc.
  unfold PayloadQueue.sub_bytes.
  match goal with |- context [(?n <? _)%nat] => change n with (pq_n_bytes q) end.
  rewrite (proj2 (Nat.ltb_ge _ _)) by lia. rewrite bind_Ret.
  do 2 eexists. split; [reflexivity|]. split_and!; [done..|].
  apply StronglySorted_inv in H1 as [H1 _]. apply NoDup_cons in Hnd as [Hnd _].
  split; unfold RecordSetters.constant; cbn; try done.
  - intros a b Ha Hb'. apply H2; by right.
  - intros t. rewrite lookup_delete_is_Some, H4, elem_of_cons. split; [naive_solver|].
    intros Ht. split; [|by right]. by intros <-.
  - intros t c'. rewrite lookup_delete_Some. naive_solver.
  - destruct q; cbn in *. lia.
  - destruct q; cbn in *. lia.
Qed.

Lemma pop_other_holds l q t :
  holds l q -> head l <> Some t -> (forall x, head l = Some x -> Z.abs (x - t) < 2 ^ 31) ->
  PayloadQueue.pop (as_u 32 t) q = Ret (None, q).
Proof.
  intros Hq Ht Hclose. unfold PayloadQueue.pop. rewrite (holds_sorted l q Hq).
  destruct l as [|x l]; cbn [map]; [done|]. destruct (Z.eqb_spec (as_u 32 x) (as_u 32 t)) as [He|He]; [|done].
  apply as_u_inj in He; [by subst|lia|]. by apply Hclose.
Qed.

(** Chunks that are replaced by others with the same TSN. *)
Lemma holds_map l q q' :
  holds l q -> sorted q' = sorted q -> pq_length q' = pq_length q ->
  (forall t, is_Some (chunk_map q' !! t) <-> is_Some (chunk_map q !! t)) ->
  (forall t c, chunk_map q' !! t = Some c -> tsn c = t) ->
  size (chunk_map q') = size (chunk_map q) -> pq_n_bytes q' = map_bytes (chunk_map q') -> holds l q'.
Proof.
  intros [H1 H2 H3 H4 H5 H6 H7] Hs Hl Hk Ht Hsz Hb. split; try done; [congruence| |congruence].
  intros t. by rewrite Hk, H4, Hs.
Qed.

Lemma mark_as_acked_holds l q t :
  holds l q ->
  exists q', PayloadQueue.mark_as_acked t q
      = Ret (match chunk_map q !! t with Some c => length (user_data c) | None => 0%nat end, q')
    /\ holds l q'
    /\ chunk_map q' = match chunk_map q !! t with
                      | Some c => <[t := c {{ acked := true }} {{ retransmit := false }} {{ user_data := [] }}]>
                                    (chunk_map q)
                      | None => chunk_map q
                      end.
Proof.
  intros Hq. unfold PayloadQueue.mark_as_acked.
  destruct (chunk_map q !! t) as [c|] eqn:Hc; [|by exists q].
  pose proof (map_bytes_delete _ _ _ Hc) as Hb. unfold PayloadQueue.sub_bytes.
  rewrite (holds_bytes l q Hq), (proj2 (Nat.ltb_ge _ _)) by lia. rewrite bind_Ret.
  eexists. split; [reflexivity|]. split; [|done].
  apply (holds_map l q); try done; unfold RecordSetters.constant; cbn.
  - intros t'. rewrite lookup_insert_is_Some'. split; [|naive_solver]. intros [<-|?]; [by eexists|done].
  - intros t' c'. rewrite lookup_insert_Some. intros [[<- <-]|[_ H]]; [|by apply (holds_tsn l q Hq)].
    cbn. by apply (holds_tsn l q Hq).
  - by rewrite map_size_insert_Some.
  - rewrite <-insert_delete_eq, map_bytes_insert by apply lookup_delete_eq.
    pose proof (holds_bytes l q Hq). destruct q; cbn in *. lia.
Qed.

Lemma map_bytes_fmap (f : ChunkPayloadData -> ChunkPayloadData) m :
  (forall c, user_data (f c) = user_data c) -> map_bytes (f <$> m) = map_bytes m.
Proof.
  intros Hf. induction m as [|t c m Hm IH] using map_ind; [by rewrite fmap_empty|].
  rewrite fmap_insert, !map_bytes_insert by (done || by rewrite lookup_fmap, Hm). by rewrite Hf, IH.
Qed.

Lemma mark_all_holds l q cells : holds l q -> holds l (PayloadQueue.mark_all_to_retrasmit cells q).
Proof.
  intros Hq. unfold PayloadQueue.mark_all_to_retrasmit.
  apply (holds_map l q); try done; unfold RecordSetters.constant; cbn.
  - intros t. by rewrite lookup_fmap, fmap_is_Some.
  - intros t c. rewrite lookup_fmap_Some. intros (c' & <- & Hc). apply (holds_tsn l q Hq) in Hc.
    by destruct (acked c' || abandoned cells c').
  - by rewrite map_size_fmap.
  - transitivity (pq_n_bytes q); [by destruct q|].
    rewrite (holds_bytes l q Hq). symmetry. apply map_bytes_fmap.
    intros c. by destruct (acked c || abandoned cells c).
Qed.

(** ** What the gap blocks of a SACK report *)

Definition reports (blocks : list GapAckBlock) (d : Z) : Prop :=
  Exists (fun b => gap_start b <= d <= gap_end b) blocks.

(** Blocks in ascending order with something missing between them. *)
Fixpoint separated (blocks : list GapAckBlock) : Prop :=
  match blocks with
  | [] => True
  | b :: rest =>
      gap_start b <= gap_end b
      /\ match rest with [] => True | b' :: _ => gap_end b + 1 < gap_start b' end
      /\ separated rest
  end.

Lemma grow_blocks_spec cum b l :
  0 <= cum -> StronglySorted Z.lt l -> 0 <= gap_start b <= gap_end b ->
  Forall (fun x => cum + gap_end b < x <= cum + 65535) l ->
  exists blocks, PayloadQueue.grow_blocks cum b l = Ret blocks
    /\ (forall d, reports blocks d <-> gap_start b <= d <= gap_end b \/ cum + d ∈ l)
    /\ separated blocks
    /\ match blocks with [] => False | b' :: _ => gap_start b' = gap_start b end.
Proof.
  intros Hcum Hl. revert b. induction Hl as [|x l Hl IH Hx]; intros b Hb Hr; cbn [PayloadQueue.grow_blocks].
  { exists [b]. split; [done|]. split; [|cbn; split_and!; [lia|done..]]. intros d. unfold reports.
    rewrite Exists_cons, Exists_nil, elem_of_nil. naive_solver. }
  apply Forall_cons in Hr as [Hxb Hr]. rewrite (proj2 (Z.geb_le _ _)) by lia.
  rewrite as_u_small, checked_u_Ret by (unfold is_u; lia). rewrite bind_Ret.
  assert (Forall (fun y => cum + (x - cum) < y <= cum + 65535) l) as Hrest.
  { apply Forall_forall. intros y Hy. apply (proj1 (Forall_forall _ _) Hx) in Hy as Hxy.
    apply (proj1 (Forall_forall _ _) Hr) in Hy. lia. }
  destruct (Z.eqb_spec (gap_end b + 1) (x - cum)) as [He|He].
  - destruct (IH (mkGapAckBlock (gap_start b) (gap_end b + 1))) as (blocks & -> & Hrep & Hsep & Hfirst);
      cbn [gap_start gap_end] in *; [lia|by rewrite He|].
    exists blocks. split_and!; try done. intros d. rewrite Hrep, elem_of_cons.
    split; [|naive_solver lia]. intros [Hd|?]; [|naive_solver].
    destruct (decide (d = gap_end b + 1)) as [->|]; [right; left; lia|left; lia].
  - destruct (IH (mkGapAckBlock (x - cum) (x - cum))) as (blocks & -> & Hrep & Hsep & Hfirst);
      cbn [gap_start gap_end] in *; [lia|done|].
    exists (b :: blocks). rewrite bind_Ret. split_and!; [done| | |done].
    + intros d. unfold reports in *. rewrite Exists_cons, Hrep, elem_of_cons.
      split; [intros [?|[?|?]]; [by left|right; left; lia|by right; right]|].
      intros [?|[?|?]]; [by left|right; left; lia|by right; right].
    + cbn [separated]. split; [lia|]. split; [|done]. destruct blocks as [|b' blocks]; [done|].
      rewrite Hfirst. lia.
Qed.

(** C18: The gap blocks are exact. For TSNs at most 65535 above the cumulative one and below the
    turn of the counter, the blocks a SACK is built from report a distance if and only if the chunk
    at that distance has been received, in ascending blocks with a gap between them. *)
Theorem gap_blocks_exact cum l q :
  holds l q -> 0 <= cum -> Forall (fun x => cum < x <= cum + 65535 /\ x < 2 ^ 32) l ->
  exists blocks, PayloadQueue.get_gap_ack_blocks cum q = Ret blocks
    /\ (forall d, reports blocks d <-> cum + d ∈ l) /\ separated blocks.
Proof.
  intros Hq Hcum Hl. unfold PayloadQueue.get_gap_ack_blocks.
  pose proof (holds_size l q Hq) as Hsz. rewrite (holds_sorted l q Hq).
  assert (map (as_u 32) l = l) as ->.
  { clear -Hl Hcum. induction Hl as [|x l Hx Hl IH]; [done|]. cbn [map]. rewrite IH, as_u_small; [done|].
    unfold is_u. lia. }
  case_bool_decide as Hempty.
  { rewrite Hempty, map_size_empty in Hsz. destruct l; [|done]. exists []. split_and!; [done| |done].
    intros d. unfold reports. by rewrite Exists_nil, elem_of_nil. }
  destruct l as [|x l]; [by apply map_size_empty_inv in Hsz|].
  pose proof (holds_increasing _ _ Hq) as Hs. apply StronglySorted_inv in Hs as [Hs Hx].
  apply Forall_cons in Hl as [Hxl Hl]. rewrite (proj2 (Z.geb_le _ _)), as_u_small by (unfold is_u; lia).
  destruct (grow_blocks_spec cum (mkGapAckBlock (x - cum) (x - cum)) l) as (blocks & -> & Hrep & Hsep & _);
    cbn [gap_start gap_end] in *; try done; [lia| |].
  { apply Forall_forall. intros y Hy. apply (proj1 (Forall_forall _ _) Hx) in Hy as Hxy.
    apply (proj1 (Forall_forall _ _) Hl) in Hy. lia. }
  exists blocks. split_and!; try done. intros d. rewrite Hrep, elem_of_cons. split; intros [?|?]; auto; left; lia.
Qed.

(** After a turn of the counter the distance is taken to be zero: with TSN 2^32 - 2
    acknowledged and TSN 1 received, the SACK acknowledges the cumulative TSN again. *)
Lemma gap_blocks_after_turn q :
  holds [2 ^ 32 + 1] q -> PayloadQueue.get_gap_ack_blocks (2 ^ 32 - 2) q = Ret [mkGapAckBlock 0 0].
Proof.
  intros Hq. unfold PayloadQueue.get_gap_ack_blocks. rewrite (holds_sorted _ q Hq).
  rewrite bool_decide_false; [done|]. intros He. pose proof (holds_size _ q Hq) as Hs.
  by rewrite He, map_size_empty in Hs.
Qed.

Definition demo_chunk_of (t : Z) : ChunkPayloadData :=
  mkChunkPayloadData false true true false t 1 0 Binary [t] false 0 0 0 0 false None.

Lemma gap_blocks_exact_witness :
  exists blocks,
    PayloadQueue.get_gap_ack_blocks 10
      (PayloadQueue.push_no_check (demo_chunk_of 14)
         (PayloadQueue.push_no_check (demo_chunk_of 12)
            (PayloadQueue.push_no_check (demo_chunk_of 15) PayloadQueue.new))) = Ret blocks
    /\ (forall d, reports blocks d <-> 10 + d ∈ [12; 14; 15]) /\ separated blocks.
Proof.
  apply (gap_blocks_exact 10 [12; 14; 15]); [|lia|repeat constructor; lia].
  apply (push_no_check_holds [12; 15] _ _ 14); [|done|set_solver by lia|set_solver by lia].
  apply (push_no_check_holds [15] _ _ 12); [|done|set_solver by lia|set_solver by lia].
  apply (push_no_check_holds [] _ _ 15); [apply holds_new|done|set_solver|set_solver].
Defined.

(** ** Messages leave the pending queue in one piece *)

(** The message that is being taken apart: nothing, or its kind. *)
Definition frame_step (open : option bool) (c : ChunkPayloadData) : option (option bool) :=
  match open with
  | None =>
      if beginning_fragment c then Some (if ending_fragment c then None else Some (unordered c)) else None
  | Some u =>
      if negb (beginning_fragment c) && eqb (unordered c) u
      then Some (if ending_fragment c then None else Some u) else None
  end.

Fixpoint frames (open : option bool) (cs : list ChunkPayloadData) : option (option bool) :=
  match cs with
  | [] => Some open
  | c :: cs => o ← frame_step open c; frames o cs
  end.

Lemma frames_app o cs cs' : frames o (cs ++ cs') = (o' ← frames o cs; frames o' cs').
Proof.
  revert o. induction cs as [|c cs IH]; intros o; [done|]. cbn [frames app].
  destruct (frame_step o c) as [o'|]; [|done]. apply IH.
Qed.

(** The message the next pop continues. *)
Definition current (q : PendingQueue) : option bool :=
  if selected q then Some (unordered_is_selected q) else None.

(** The state in which a queue of a kind starts. *)
Definition queue_start (u : bool) (q : PendingQueue) : option bool :=
  match current q with Some u' => if eqb u u' then Some u else None | None => None end.

Definition queue_of (u : bool) (q : PendingQueue) : list ChunkPayloadData :=
  if u then unordered_queue q else ordered_queue q.

(** [writing] is the kind of the large message whose first chunks have been
    appended and whose last one has not. *)
Record pending_wf (writing : option bool) (q : PendingQueue) : Prop := mkPendingWf {
  pend_kinds : forall u, Forall (fun c => unordered c = u) (queue_of u q);
  pend_frames : forall u,
    frames (queue_start u q) (queue_of u q)
    = Some (match writing with Some u' => if eqb u u' then Some u else None | None => None end);
  pend_len : queue_len q = (length (unordered_queue q) + length (ordered_queue q))%nat;
  pend_bytes : pend_n_bytes q
    = (PendingQueue.data_len (unordered_queue q) + PendingQueue.data_len (ordered_queue q))%nat;
  pend_permits : (permits q + pend_n_bytes q = QUEUE_BYTES_LIMIT)%nat }.

Lemma pending_wf_new : pending_wf None PendingQueue.new.
Proof. split; [intros []; constructor|intros []; reflexivity|reflexivity|reflexivity|cbn; lia]. Qed.

Lemma data_len_acc n cs :
  foldl (fun acc c => acc + length (user_data c))%nat n cs = (n + PendingQueue.data_len cs)%nat.
Proof.
  unfold PendingQueue.data_len. revert n. induction cs as [|c cs IH]; intros n; cbn [foldl]; [lia|].
  rewrite IH, (IH (0 + _)%nat). lia.
Qed.

Lemma data_len_cons c cs :
  PendingQueue.data_len (c :: cs) = (length (user_data c) + PendingQueue.data_len cs)%nat.
Proof. unfold PendingQueue.data_len at 1. cbn [foldl]. by rewrite data_len_acc. Qed.

Lemma data_len_app cs cs' :
  PendingQueue.data_len (cs ++ cs') = (PendingQueue.data_len cs + PendingQueue.data_len cs')%nat.
Proof. unfold PendingQueue.data_len at 1. by rewrite foldl_app, !data_len_acc. Qed.

(** The queue that the next pop takes from. *)
Lemma peek_pop writing q c :
  pending_wf writing q -> PendingQueue.peek q = Some c ->
  exists rest o, queue_of (unordered c) q = c :: rest
    /\ frame_step (queue_start (unordered c) q) c = Some o
    /\ queue_start (unordered c) q = current q
    /\ (current q = None -> beginning_fragment c = true).
Proof.
  intros Hq Hc. pose proof (pend_frames _ _ Hq) as Hf. pose proof (pend_kinds _ _ Hq) as Hk.
  assert (forall u rest, queue_of u q = c :: rest -> (queue_start u q = current q) ->
    exists rest o, queue_of (unordered c) q = c :: rest
      /\ frame_step (queue_start (unordered c) q) c = Some o
      /\ queue_start (unordered c) q = current q
      /\ (current q = None -> beginning_fragment c = true)) as Hfrom.
  { intros u rest Hu Hs. specialize (Hf u). pose proof (Hk u) as Hku. rewrite Hu in Hf, Hku.
    apply Forall_cons in Hku as [Hcu _]. cbn [frames] in Hf. rewrite Hcu.
    destruct (frame_step (queue_start u q) c) as [o|] eqn:Ho; [|done].
    exists rest, o. split_and!; try done. intros Hn. rewrite Hs, Hn in Ho. cbn in Ho.
    by destruct (beginning_fragment c). }
  unfold PendingQueue.peek in Hc. unfold current, queue_start in *. unfold current in *.
  destruct (selected q).
  - destruct (unordered_is_selected q).
    + destruct (unordered_queue q) as [|c' rest] eqn:Hu; [done|]. injection Hc as ->. by apply (Hfrom true rest).
    + destruct (ordered_queue q) as [|c' rest] eqn:Hu; [done|]. injection Hc as ->. by apply (Hfrom false rest).
  - destruct (unordered_queue q) as [|c' rest] eqn:Hu; cbn [head] in Hc.
    + destruct (ordered_queue q) as [|c' rest] eqn:Ho; [done|]. injection Hc as ->. by apply (Hfrom false rest).
    + injection Hc as ->. by apply (Hfrom true rest).
Qed.

Definition after_pop (u : bool) (c : ChunkPayloadData) (rest : list ChunkPayloadData) (q : PendingQueue)
    : PendingQueue :=
  mkPendingQueue (permits q + length (user_data c)) (if u then rest else unordered_queue q)
    (if u then ordered_queue q else rest) (queue_len q - 1) (pend_n_bytes q - length (user_data c))
    (negb (ending_fragment c)) (if selected q || ending_fragment c then unordered_is_selected q else u).

Lemma pop_result q c rest :
  queue_of (unordered c) q = c :: rest -> queue_start (unordered c) q = current q ->
  (current q = None -> beginning_fragment c = true) ->
  PendingQueue.pop (beginning_fragment c) (unordered c) q = (Some c, after_pop (unordered c) c rest q).
Proof.
  destruct q as [pm uq oq len nb sel us]. unfold PendingQueue.pop, queue_start, current, queue_of, after_pop.
  cbn [selected unordered_queue ordered_queue unordered_is_selected permits queue_len pend_n_bytes].
  intros Hrest Hstart Hbegin. destruct sel.
  - assert (us = unordered c) as -> by (by destruct us, (unordered c)).
    destruct (unordered c); subst; cbn; by destruct (ending_fragment c).
  - rewrite (Hbegin eq_refl). destruct (unordered c); subst; cbn; by destruct (ending_fragment c).
Qed.

(** What [peek] shows, [pop] returns.  The popped chunk continues the message that was
    begun, and the counters and the permits of the semaphore stay exact. *)
Lemma pending_pop_frames writing q c :
  pending_wf writing q -> PendingQueue.peek q = Some c ->
  exists q', PendingQueue.pop (beginning_fragment c) (unordered c) q = (Some c, q')
    /\ frame_step (current q) c = Some (current q')
    /\ pending_wf writing q'
    /\ queue_of (unordered c) q = c :: queue_of (unordered c) q'
    /\ queue_of (negb (unordered c)) q' = queue_of (negb (unordered c)) q.
Proof.
  intros Hq Hc. destruct (peek_pop writing q c Hq Hc) as (rest & o & Hrest & Hstep & Hstart & Hbegin).
  rewrite Hstart in Hstep. exists (after_pop (unordered c) c rest q). split; [by apply pop_result|].
  assert (frame_step (current q) c = Some (current (after_pop (unordered c) c rest q))) as Hstep'.
  { revert Hstep Hstart. unfold current, after_pop, queue_start, current, frame_step. cbn.
    destruct (selected q); cbn; [|destruct (beginning_fragment c); [|done]; by destruct (ending_fragment c)].
    destruct (negb (beginning_fragment c)), (eqb (unordered c) (unordered_is_selected q)); cbn; try done.
    destruct (ending_fragment c); [done|]. by destruct (unordered_is_selected q), (unordered c). }
  split; [done|]. rewrite Hstep' in Hstep. injection Hstep as <-.
  assert (queue_of (unordered c) (after_pop (unordered c) c rest q) = rest
    /\ queue_of (negb (unordered c)) (after_pop (unordered c) c rest q) = queue_of (negb (unordered c)) q)
    as [Hq1 Hq2] by (by destruct (unordered c)).
  split; [|by rewrite Hq1]. destruct Hq as [Hk Hf Hlen Hbytes Hperm].
  assert (queue_start (unordered c) (after_pop (unordered c) c rest q)
      = current (after_pop (unordered c) c rest q)
    /\ queue_start (negb (unordered c)) (after_pop (unordered c) c rest q) = None
    /\ queue_start (negb (unordered c)) q = None) as (Hs1 & Hs2 & Hs3).
  { revert Hstart Hstep'. unfold frame_step, queue_start, current, after_pop. cbn.
    destruct (selected q), (unordered c), (unordered_is_selected q), (ending_fragment c); done. }
  split.
  - intros u. destruct (decide (u = unordered c)) as [->|Hu].
    + rewrite Hq1. specialize (Hk (unordered c)). rewrite Hrest in Hk. by apply Forall_cons in Hk as [_ ?].
    + assert (u = negb (unordered c)) as -> by (by destruct u, (unordered c)). by rewrite Hq2.
  - intros u. destruct (decide (u = unordered c)) as [->|Hu].
    + rewrite Hq1, Hs1, <-(Hf (unordered c)), Hrest, Hstart. cbn [frames]. by rewrite Hstep'.
    + assert (u = negb (unordered c)) as -> by (by destruct u, (unordered c)). 
      rewrite Hq2, Hs2. specialize (Hf (negb (unordered c))). by rewrite Hs3 in Hf.
  - revert Hlen Hrest. unfold after_pop. cbn [pend_n_bytes unordered_queue ordered_queue queue_of permits queue_len].
    destruct (unordered c); cbn [pend_n_bytes unordered_queue ordered_queue queue_of permits queue_len]; intros -> ->; simpl; lia.
  - revert Hbytes Hrest. unfold after_pop. cbn [pend_n_bytes unordered_queue ordered_queue queue_of permits queue_len].
    destruct (unordered c); cbn [pend_n_bytes unordered_queue ordered_queue queue_of permits queue_len]; intros -> ->;
      rewrite data_len_cons; lia.
  - revert Hbytes Hperm Hrest. unfold after_pop. cbn [pend_n_bytes unordered_queue ordered_queue queue_of permits queue_len].
    destruct (unordered c); cbn [pend_n_bytes unordered_queue ordered_queue queue_of permits queue_len]; intros Hbytes Hperm Hrest;
      rewrite Hrest, data_len_cons in Hbytes; lia.
Qed.

(** The chunks of one whole message. *)
Definition whole (chunks : list ChunkPayloadData) : Prop :=
  exists u, Forall (fun c => unordered c = u) chunks /\ chunks <> [] /\ frames None chunks = Some None.

Lemma forallb_kind u chunks :
  Forall (fun c => unordered c = u) chunks ->
  forallb (fun c => if u then unordered c else negb (unordered c)) chunks = true.
Proof. induction 1 as [|c cs Hc Hcs IH]; [done|]. cbn [forallb]. rewrite IH, Hc. by destruct u. Qed.

(** The queue after chunks of one kind have gone in and their permits are taken. *)
Definition after_append (u : bool) (chunks : list ChunkPayloadData) (q : PendingQueue) : PendingQueue :=
  mkPendingQueue (permits q - PendingQueue.data_len chunks)
    (if u then unordered_queue q ++ chunks else unordered_queue q)
    (if u then ordered_queue q else ordered_queue q ++ chunks)
    (queue_len q + length chunks) (pend_n_bytes q + PendingQueue.data_len chunks)
    (selected q) (unordered_is_selected q).

Lemma after_append_wf writing writing' u chunks q :
  pending_wf writing q -> (PendingQueue.data_len chunks <= permits q)%nat ->
  Forall (fun c => unordered c = u) chunks ->
  (writing = None \/ writing = Some u) -> (writing' = None \/ writing' = Some u) ->
  frames writing chunks = Some writing' -> pending_wf writing' (after_append u chunks q).
Proof.
  intros [Hk Hf Hlen Hbytes Hperm] Hp Hu Hw Hw' Hfr.
  assert (forall u', queue_of u' (after_append u chunks q)
    = queue_of u' q ++ (if eqb u' u then chunks else [])) as Hqo
    by (intros u'; destruct u', u; cbn; by rewrite ?app_nil_r).
  split.
  - intros u'. rewrite Hqo. apply Forall_app. split; [done|].
    destruct (eqb_spec u' u) as [->|]; [done|constructor].
  - intros u'. change (queue_start u' (after_append u chunks q)) with (queue_start u' q).
    rewrite Hqo, frames_app, Hf. cbn [mbind option_bind].
    destruct (eqb_spec u' u) as [->|Hne]; cbn [frames].
    + destruct Hw as [-> | ->]; rewrite ?eqb_reflx, Hfr; destruct Hw' as [-> | ->]; by rewrite ?eqb_reflx.
    + destruct Hw as [-> | ->], Hw' as [-> | ->]; try done; by rewrite (proj2 (eqb_false_iff u' u)).
  - cbn. rewrite Hlen. destruct u; rewrite length_app; lia.
  - unfold after_append. cbn [pend_n_bytes unordered_queue ordered_queue]. rewrite Hbytes.
    destruct u; rewrite data_len_app; lia.
  - unfold after_append. cbn [pend_n_bytes permits]. lia.
Qed.

Lemma push_result c q q' :
  PendingQueue.push c q = Some q' ->
  q' = after_append (unordered c) [c] q /\ (PendingQueue.data_len [c] <= permits q)%nat.
Proof.
  unfold PendingQueue.push, PendingQueue.acquire_many. rewrite data_len_cons.
  change (PendingQueue.data_len []) with 0%nat.
  destruct (Nat.ltb_spec (permits q) (length (user_data c))); [done|]. cbn [mbind option_bind].
  intros [= <-]. split; [|lia]. destruct q, (unordered c); unfold after_append; cbn; f_equal; lia.
Qed.

Lemma after_append_app u cs cs' q :
  after_append u cs' (after_append u cs q) = after_append u (cs ++ cs') q.
Proof.
  unfold after_append. cbn [permits unordered_queue ordered_queue queue_len pend_n_bytes selected unordered_is_selected].
  rewrite data_len_app, length_app. f_equal; try lia; destruct u; by rewrite ?(assoc_L (++)).
Qed.

Lemma append_large_result u chunks q q' :
  Forall (fun c => unordered c = u) chunks -> PendingQueue.append_large chunks q = Some q' ->
  q' = after_append u chunks q /\ (PendingQueue.data_len chunks <= permits q)%nat.
Proof.
  intros Hu. revert q. induction Hu as [|c cs Hc Hu IH]; intros q; cbn [PendingQueue.append_large].
  - intros [= <-]. split; [|unfold PendingQueue.data_len; simpl; lia].
    destruct q, u; unfold after_append, PendingQueue.data_len; cbn; rewrite app_nil_r; f_equal; lia.
  - destruct (PendingQueue.push c q) as [q1|] eqn:Hp; [|done]. cbn [mbind option_bind]. intros Happ.
    apply push_result in Hp as [-> Hp]. rewrite Hc in *. apply IH in Happ as [-> Hp'].
    rewrite after_append_app. split; [done|]. unfold after_append in Hp'. cbn [permits] in Hp'.
    rewrite !data_len_cons in *. change (PendingQueue.data_len []) with 0%nat in *. lia.
Qed.

Lemma append_whole q chunks u q' :
  Forall (fun c => unordered c = u) chunks -> chunks <> [] ->
  PendingQueue.append chunks q = Ret (Some q') ->
  q' = after_append u chunks q /\ (PendingQueue.data_len chunks <= permits q)%nat.
Proof.
  intros Hu Hne. unfold PendingQueue.append.
  destruct chunks as [|c chunks]; [done|]. destruct (PendingQueue.is_large _).
  - intros Happ. apply (append_large_result u); [done|]. congruence.
  - unfold PendingQueue.acquire_many.
    destruct (Nat.ltb_spec (permits q) (PendingQueue.data_len (c :: chunks))); [done|].
    unfold PendingQueue.append_unlimited. pose proof (forallb_kind u (c :: chunks) Hu) as Hall.
    apply Forall_cons in Hu as [Hc _]. rewrite Hc. destruct u; rewrite Hall; cbn [negb]; rewrite !bind_Ret;
      intros [= <-]; (split; [by destruct q|done]).
Qed.

Lemma append_large_room u chunks q :
  Forall (fun c => unordered c = u) chunks -> (PendingQueue.data_len chunks <= permits q)%nat ->
  PendingQueue.append_large chunks q = Some (after_append u chunks q).
Proof.
  intros Hu. revert q. induction Hu as [|c cs Hc Hu IH]; intros q Hp; cbn [PendingQueue.append_large].
  { destruct q, u; unfold after_append, PendingQueue.data_len; cbn; rewrite app_nil_r; do 2 f_equal; lia. }
  rewrite data_len_cons in Hp.
  assert (PendingQueue.push c q = Some (after_append u [c] q)) as ->.
  { unfold PendingQueue.push, PendingQueue.acquire_many. rewrite (proj2 (Nat.ltb_ge _ _)) by lia.
    cbn [mbind option_bind]. unfold after_append. rewrite data_len_cons. change (PendingQueue.data_len []) with 0%nat.
    rewrite Hc. destruct q, u; cbn; do 2 f_equal; lia. }
  cbn [mbind option_bind]. rewrite IH, after_append_app; [done|].
  unfold after_append. cbn [permits]. rewrite data_len_cons. change (PendingQueue.data_len []) with 0%nat. lia.
Qed.

(** Chunks of one kind go in when there are permits for them. *)
Lemma append_room u chunks q :
  Forall (fun c => unordered c = u) chunks -> chunks <> [] -> (PendingQueue.data_len chunks <= permits q)%nat ->
  PendingQueue.append chunks q = Ret (Some (after_append u chunks q)).
Proof.
  intros Hu Hne Hp. unfold PendingQueue.append.
  destruct chunks as [|c chunks]; [done|]. destruct (PendingQueue.is_large _); [by rewrite (append_large_room u)|].
  unfold PendingQueue.acquire_many. rewrite (proj2 (Nat.ltb_ge _ _)) by done.
  unfold PendingQueue.append_unlimited. pose proof (forallb_kind u (c :: chunks) Hu) as Hall.
  apply Forall_cons in Hu as [Hc _]. rewrite Hc. destruct u; rewrite Hall; cbn [negb]; rewrite !bind_Ret; by destruct q.
Qed.

(** A history of the queue: what the writers have put in, what has been sent. *)
Record pend_state := mkPendState {
  ps_queue : PendingQueue;
  ps_writing : option bool;
  ps_written : list ChunkPayloadData;
  ps_popped : list ChunkPayloadData }.

(** Writers hold [semaphore_lock] for a whole message; the sender pops in between. *)
Inductive pend_step : pend_state -> pend_state -> Prop :=
  | step_append q chunks q' written popped :
      whole chunks -> PendingQueue.append chunks q = Ret (Some q') ->
      pend_step (mkPendState q None written popped) (mkPendState q' None (written ++ chunks) popped)
  | step_large q c q' writing writing' written popped :
      frame_step writing c = Some writing' -> PendingQueue.push c q = Some q' ->
      pend_step (mkPendState q writing written popped)
                (mkPendState q' writing' (written ++ [c]) popped)
  | step_pop q c q' writing written popped :
      PendingQueue.peek q = Some c ->
      PendingQueue.pop (beginning_fragment c) (unordered c) q = (Some c, q') ->
      pend_step (mkPendState q writing written popped)
                (mkPendState q' writing written (popped ++ [c])).

Definition of_kind (u : bool) (cs : list ChunkPayloadData) : list ChunkPayloadData :=
  filter (fun c => unordered c = u) cs.

Record pend_inv (s : pend_state) : Prop := mkPendInv {
  inv_wf : pending_wf (ps_writing s) (ps_queue s);
  inv_frames : frames None (ps_popped s) = Some (current (ps_queue s));
  inv_fifo : forall u, of_kind u (ps_written s) = of_kind u (ps_popped s) ++ queue_of u (ps_queue s) }.

Lemma of_kind_app u cs cs' : of_kind u (cs ++ cs') = of_kind u cs ++ of_kind u cs'.
Proof. apply filter_app. Qed.

Lemma of_kind_all u u' cs :
  Forall (fun c => unordered c = u) cs -> of_kind u' cs = if eqb u' u then cs else [].
Proof.
  induction 1 as [|c cs Hc Hcs IH]; [by destruct (eqb u' u)|]. unfold of_kind in *. rewrite filter_cons, IH, Hc.
  destruct u, u'; cbn; done.
Qed.

Lemma queue_of_append u' u chunks q :
  queue_of u' (after_append u chunks q) = queue_of u' q ++ (if eqb u' u then chunks else []).
Proof. destruct u', u; cbn; by rewrite ?app_nil_r. Qed.

Lemma append_inv writing writing' u chunks q written popped :
  pend_inv (mkPendState q writing written popped) -> (PendingQueue.data_len chunks <= permits q)%nat ->
  Forall (fun c => unordered c = u) chunks ->
  (writing = None \/ writing = Some u) -> (writing' = None \/ writing' = Some u) ->
  frames writing chunks = Some writing' ->
  pend_inv (mkPendState (after_append u chunks q) writing' (written ++ chunks) popped).
Proof.
  intros [Hwf Hfr Hfifo] Hp Hu Hw Hw' Hf. cbn [ps_written ps_popped ps_queue ps_writing] in *. split; cbn [ps_written ps_popped ps_queue ps_writing].
  - by apply (after_append_wf writing).
  - done.
  - intros u'. rewrite of_kind_app, Hfifo, (of_kind_all u _ chunks), queue_of_append by done.
    by rewrite (assoc_L (++)).
Qed.

Lemma pend_step_inv s s' : pend_inv s -> pend_step s s' -> pend_inv s'.
Proof.
  intros Hs Hstep. destruct Hstep as [q chunks q' w p (u & Hu & Hne & Hf) Happ
    |q c q' writing writing' w p Hf Hpush|q c q' writing w p Hpeek Hpop].
  - apply (append_whole q chunks u) in Happ as [-> Hp]; [|done..]. apply (append_inv None); auto.
  - apply push_result in Hpush as [-> Hp].
    assert ((writing = None \/ writing = Some (unordered c))
      /\ (writing' = None \/ writing' = Some (unordered c))) as [Hw Hw'].
    { unfold frame_step in Hf. destruct writing as [u|].
      - destruct (eqb_spec (unordered c) u) as [->|]; [|by rewrite andb_false_r in Hf].
        rewrite andb_true_r in Hf. destruct (beginning_fragment c); [done|]. cbn in Hf. injection Hf as <-.
        destruct (ending_fragment c); auto.
      - destruct (beginning_fragment c); [|done]. injection Hf as <-. destruct (ending_fragment c); auto. }
    apply (append_inv writing); auto. cbn [frames]. by rewrite Hf.
  - destruct Hs as [Hwf Hfr Hfifo]. cbn [ps_written ps_popped ps_queue ps_writing] in *.
    destruct (pending_pop_frames writing q c Hwf Hpeek) as (q1 & Hpop1 & Hstep & Hwf1 & Hq1 & Hq2).
    rewrite Hpop in Hpop1. injection Hpop1 as <-.
    split; cbn [ps_written ps_popped ps_queue ps_writing].
    + done.
    + rewrite frames_app, Hfr. cbn [mbind option_bind frames]. by rewrite Hstep.
    + intros u. rewrite of_kind_app, Hfifo, <-(assoc_L (++)). f_equal.
      rewrite (of_kind_all (unordered c)) by by constructor.
      destruct (eqb_spec u (unordered c)) as [->|Hne]; [by rewrite Hq1|].
      assert (u = negb (unordered c)) as -> by (by destruct u, (unordered c)). by rewrite Hq2.
Qed.

(** Messages leave the pending queue in one piece and in order. Whatever messages are written
    (large ones chunk by chunk, waiting for permits) and whenever chunks are taken to be sent, the
    chunks taken form whole messages one after the other, with at most the last one unfinished;
    those of each kind are the oldest ones written; and the permits of the semaphore are those of
    the bytes that are not queued. *)
Theorem pending_queue_keeps_messages s :
  rtc pend_step (mkPendState PendingQueue.new None [] []) s ->
  frames None (ps_popped s) = Some (current (ps_queue s))
  /\ (forall u, of_kind u (ps_written s) = of_kind u (ps_popped s) ++ queue_of u (ps_queue s))
  /\ (permits (ps_queue s) + PendingQueue.data_len (unordered_queue (ps_queue s))
       + PendingQueue.data_len (ordered_queue (ps_queue s)) = QUEUE_BYTES_LIMIT)%nat.
Proof.
  intros Hrun.
  assert (pend_inv s) as [Hwf Hfr Hfifo].
  { assert (pend_inv (mkPendState PendingQueue.new None [] [])) as H0
      by (split; [apply pending_wf_new|done|by intros []]).
    induction Hrun as [|s0 s1 s2 Hstep _ IH]; [done|]. by apply IH, (pend_step_inv s0). }
  split_and!; [done..|]. pose proof (pend_permits _ _ Hwf). pose proof (pend_bytes _ _ Hwf). lia.
Qed.

Lemma push_enough c q :
  (length (user_data c) <= permits q)%nat ->
  PendingQueue.push c q = Some (after_append (unordered c) [c] q).
Proof.
  intros H. destruct (PendingQueue.push c q) as [q'|] eqn:Hp; [by apply push_result in Hp as [-> _]|].
  unfold PendingQueue.push, PendingQueue.acquire_many in Hp. by rewrite (proj2 (Nat.ltb_ge _ _)) in Hp.
Qed.

(** Two messages are written and the first one is sent. *)
Definition demo_queue : PendingQueue :=
  after_append false [demo_chunk_of 4] (after_append false [demo_chunk_of 3] PendingQueue.new).

Definition demo_history : pend_state :=
  mkPendState (after_pop false (demo_chunk_of 3) [demo_chunk_of 4] demo_queue) None
    [demo_chunk_of 3; demo_chunk_of 4] [demo_chunk_of 3].

Lemma demo_history_run : rtc pend_step (mkPendState PendingQueue.new None [] []) demo_history.
Proof.
  pose proof limit_positive as Hl.
  eapply rtc_l; [apply (step_large _ (demo_chunk_of 3)); [reflexivity|apply push_enough; exact (Nat.le_trans 1 3 _ ltac:(lia) Hl)]|].
  eapply rtc_l; [apply (step_large _ (demo_chunk_of 4)); [reflexivity|apply push_enough]|].
  { unfold after_append. cbn [permits PendingQueue.new demo_chunk_of user_data length].
    rewrite data_len_cons. change (PendingQueue.data_len []) with 0%nat. simpl length. lia. }
  eapply rtc_l; [|apply rtc_refl]. apply (step_pop _ (demo_chunk_of 3) _ _ _ []); [reflexivity|].
  apply (pop_result demo_queue (demo_chunk_of 3) [demo_chunk_of 4]); reflexivity.
Qed.

