(* ===== verification/SctpTimers.v ===== *)
(** * Timers of an association (vendored/webrtc-sctp/src/timer/rtx_timer.rs and
    ack_timer.rs)

    A timer is a task that sleeps and a channel whose sender, kept in [close_tx],
    ends the task when it is dropped.  Starting and stopping are operations; that
    the sleep of a task is over is an event of the environment. *)

From stdpp Require Import base list.
From coqutil Require Export Datatypes.RecordSetters.
From Stdlib Require Import ZArith Lia.
From S2P Require Import Prelude F64.
Export DoubleBraceUpdate.
Local Open Scope Z_scope.

(** ** Round trip times (rtx_timer.rs) *)

Definition RTO_INITIAL : Z := 3000.
Definition RTO_MIN : Z := 1000.
Definition RTO_MAX : Z := 60000.
Definition RTO_ALPHA : Z := 1.
Definition RTO_BETA : Z := 2.
Definition RTO_BASE : Z := 8.
Definition MAX_INIT_RETRANS : Z := 8.
Definition NO_MAX_RETRANS : Z := 0.

Record RtoManager := mkRtoManager { srtt : Z; rttvar : f64; rto : Z; no_update : bool }.

Module RtoManager.
Definition new : RtoManager := mkRtoManager 0 f64_zero RTO_INITIAL false.

Definition set_new_rtt (rtt : Z) (m : RtoManager) : outcome (Z * RtoManager) :=
  if no_update m then Ret (srtt m, m)
  else
    m ← (if srtt m =? 0 then
           Ret (m {{ srtt := rtt }} {{ rttvar := f64_div (f64_of_Z rtt) (f64_of_Z 2) }})
         else
           diff ← checked_i 64 (as_i 64 (srtt m) - as_i 64 rtt);
           diff ← checked_i 64 (Z.abs diff);
           let rttvar' :=
             f64_div (f64_add (f64_mul (f64_of_Z (RTO_BASE - RTO_BETA)) (rttvar m))
                        (f64_mul (f64_of_Z RTO_BETA) (f64_of_Z diff)))
               (f64_of_Z RTO_BASE) in
           a ← checked_u 64 ((RTO_BASE - RTO_ALPHA) * srtt m);
           b ← checked_u 64 (RTO_ALPHA * rtt);
           c ← checked_u 64 (a + b);
           Ret (m {{ rttvar := rttvar' }} {{ srtt := c / RTO_BASE }}));
    sum ← checked_u 64 (srtt m + f64_as_u64 (f64_mul (f64_of_Z 4) (rttvar m)));
    let m := m {{ rto := Z.min (Z.max sum RTO_MIN) RTO_MAX }} in
    Ret (srtt m, m).

Definition get_rto (m : RtoManager) : Z := rto m.

Definition reset (m : RtoManager) : RtoManager :=
  if no_update m then m else mkRtoManager 0 f64_zero RTO_INITIAL (no_update m).

Definition set_rto (r : Z) (no_upd : bool) (m : RtoManager) : RtoManager :=
  m {{ rto := r }} {{ no_update := no_upd }}.
End RtoManager.

(** [rto << n_rtos] drops the bits above the 64th. *)
Definition calculate_next_timeout (rto : Z) (n_rtos : nat) : Z :=
  if (n_rtos <? 31)%nat then Z.min (as_u 64 (Z.shiftl rto (Z.of_nat n_rtos))) RTO_MAX else RTO_MAX.

(** ** Retransmission timers *)

Inductive RtxTimerId := T1Init | T1Cookie | T2Shutdown | T3RTX | Reconfig.

#[export] Instance RtxTimerId_eq_dec : EqDecision RtxTimerId.
Proof. solve_decision. Defined.

(** [rtx_task] is the sleeping task: the RTO it was started with and how often the
    timer has expired. *)
Record RtxTimer := mkRtxTimer {
  rtx_id : RtxTimerId;
  max_retrans : Z;
  rtx_close_tx : bool;
  rtx_task : option (Z * nat) }.

Module RtxTimer.
Definition new (id : RtxTimerId) (max_retrans : Z) : RtxTimer := mkRtxTimer id max_retrans false None.

Definition start (rto : Z) (t : RtxTimer) : bool * RtxTimer :=
  if rtx_close_tx t then (false, t)
  else (true, mkRtxTimer (rtx_id t) (max_retrans t) true (Some (rto, 0%nat))).

Definition stop (t : RtxTimer) : RtxTimer := mkRtxTimer (rtx_id t) (max_retrans t) false None.

(** The sleep of the task is over: whether the observer is told of a timeout, with
    its number, or of the failure, after which the task ends. *)
Definition expire (t : RtxTimer) : option (option nat * RtxTimer) :=
  match rtx_task t with
  | None => None
  | Some (rto, n_rtos) =>
      let n_rtos := S n_rtos in
      if (max_retrans t =? 0) || (Z.of_nat n_rtos <=? max_retrans t)
      then Some (Some n_rtos, mkRtxTimer (rtx_id t) (max_retrans t) (rtx_close_tx t) (Some (rto, n_rtos)))
      else Some (None, mkRtxTimer (rtx_id t) (max_retrans t) false None)
  end.

Definition is_running (t : RtxTimer) : bool := rtx_close_tx t.
End RtxTimer.

(** ** Acknowledgement timer *)

Definition ACK_INTERVAL : Z := 200.

(** [ack_task] tells whether a started task is still asleep. *)
Record AckTimer := mkAckTimer { interval : Z; ack_close_tx : bool; ack_task : bool }.

Module AckTimer.
Definition new (interval : Z) : AckTimer := mkAckTimer interval false false.

Definition start (t : AckTimer) : bool * AckTimer :=
  if ack_close_tx t then (false, t) else (true, mkAckTimer (interval t) true true).

Definition stop (t : AckTimer) : AckTimer := mkAckTimer (interval t) false false.

(** The task tells the observer and ends; nothing resets [close_tx]. *)
Definition expire (t : AckTimer) : option AckTimer :=
  if ack_task t then Some (mkAckTimer (interval t) (ack_close_tx t) false) else None.

Definition is_running (t : AckTimer) : bool := ack_close_tx t.
End AckTimer.

(** ** Bounds *)

(** The timeout doubles with every expiry up to its maximum, although the shift of a
    64-bit number is cut off at 31 expiries. *)
Lemma next_timeout_doubles r n :
  0 < r <= RTO_MAX -> calculate_next_timeout r n = Z.min (r * 2 ^ Z.of_nat n) RTO_MAX.
Proof.
  unfold calculate_next_timeout, RTO_MAX. intros Hr. destruct (Nat.ltb_spec n 31) as [Hn|Hn].
  - rewrite Z.shiftl_mul_pow2 by lia. rewrite as_u_small; [done|]. unfold is_u.
    assert (2 ^ Z.of_nat n <= 2 ^ 30) by (apply Z.pow_le_mono_r; lia). nia.
  - rewrite Z.min_r; [done|]. assert (2 ^ 31 <= 2 ^ Z.of_nat n) by (apply Z.pow_le_mono_r; lia). nia.
Qed.

Lemma set_new_rtt_bounds rtt m s m' :
  RtoManager.set_new_rtt rtt m = Ret (s, m') -> no_update m = false -> RTO_MIN <= rto m' <= RTO_MAX.
Proof.
  unfold RtoManager.set_new_rtt. intros H Hn. rewrite Hn in H.
  apply bind_Ret_inv in H as (m1 & _ & H). apply bind_Ret_inv in H as (sum & _ & H).
  injection H as _ <-. unfold RecordSetters.constant. cbn. unfold RTO_MIN, RTO_MAX. lia.
Qed.
