(* ===== verification/SctpStream.v ===== *)
(** * Streams of an association (vendored/webrtc-sctp/src/stream/mod.rs)

    A stream cuts messages into chunks for the pending queue of its association
    and hands out the messages its reassembly queue completes.  State it shares
    with the association (its state, the queue, the cells of message flags, the
    limit on messages) is an argument of the operations that use it. *)

From stdpp Require Import base list gmap.
From Stdlib Require Import ZArith Lia.
From S2P Require Import Prelude Net Fallible SctpWire Reassembly SctpQueues.
Local Open Scope Z_scope.

(** ** States of an association (association/mod.rs) *)

Inductive AssociationState :=
  | Closed | CookieWait | CookieEchoed | Established
  | ShutdownAckSent | ShutdownPending | ShutdownReceived | ShutdownSent.

#[export] Instance AssociationState_eq_dec : EqDecision AssociationState.
Proof. solve_decision. Defined.

Inductive ReliabilityType := Reliable | Rexmit | Timed.

#[export] Instance ReliabilityType_eq_dec : EqDecision ReliabilityType.
Proof. solve_decision. Defined.

(** [read_permit] is the permit [Notify::notify_one] leaves when nobody waits;
    [low_calls] counts the calls of the handler of a low buffer. *)
Record Stream := mkStream {
  max_payload_size : Z;
  s_identifier : Z;
  default_payload_type : PayloadProtocolIdentifier;
  reassembly_queue : ReassemblyQueue;
  sequence_number : Z;
  read_permit : bool;
  read_shutdown : bool;
  write_shutdown : bool;
  s_unordered : bool;
  reliability_type : ReliabilityType;
  reliability_value : Z;
  buffered_amount : nat;
  buffered_amount_low : nat;
  on_buffered_amount_low : bool;
  low_calls : nat }.

Inductive Shutdown := ShutdownRead | ShutdownWrite | ShutdownBoth.

#[export] Instance Shutdown_eq_dec : EqDecision Shutdown.
Proof. solve_decision. Defined.

Module Stream.
Definition new (stream_identifier max_payload_size : Z) : Stream :=
  mkStream max_payload_size stream_identifier PpiUnknown (ReassemblyQueue.new stream_identifier) 0
    false false false false Reliable 0 0 0 false 0.

Definition set_default_payload_type (p : PayloadProtocolIdentifier) (s : Stream) : Stream :=
  s {{ default_payload_type := p }}.

Definition set_reliability_params (unordered : bool) (rel_type : ReliabilityType) (rel_val : Z)
    (s : Stream) : Stream :=
  s {{ s_unordered := unordered }} {{ reliability_type := rel_type }} {{ reliability_value := rel_val }}.

Definition set_buffered_amount_low_threshold (th : nat) (s : Stream) : Stream :=
  s {{ buffered_amount_low := th }}.

(** [read_sctp] until it returns or waits for a notification ([None]). *)
Definition read_sctp (size : nat) (s : Stream)
    : outcome (option ReassemblyQueue.read_result * Stream) :=
  if read_shutdown s then Ret (Some (ReassemblyQueue.ReadOk [] PpiUnknown), s)
  else
    '(r, q) ← ReassemblyQueue.read size (reassembly_queue s);
    let s := s {{ reassembly_queue := q }} in
    match r with
    | ReassemblyQueue.ReadOk _ _ | ReassemblyQueue.ReadErr _ (ErrShortBuffer _) => Ret (Some r, s)
    | _ => Ret (None, s {{ read_permit := false }})
    end.

Definition notify (readable : bool) (s : Stream) : Stream :=
  if readable then s {{ read_permit := true }} else s.

Definition handle_data (pd : ChunkPayloadData) (s : Stream) : outcome Stream :=
  '(pushed, q) ← ReassemblyQueue.push pd (reassembly_queue s);
  readable ← (if (pushed : bool) then ReassemblyQueue.is_readable q else Ret false);
  Ret (notify readable (s {{ reassembly_queue := q }})).

Definition handle_forward_tsn_for_ordered (ssn : Z) (s : Stream) : outcome Stream :=
  if s_unordered s then Ret s
  else
    q ← ReassemblyQueue.forward_tsn_for_ordered ssn (reassembly_queue s);
    readable ← ReassemblyQueue.is_readable q;
    Ret (notify readable (s {{ reassembly_queue := q }})).

Definition handle_forward_tsn_for_unordered (new_cumulative_tsn : Z) (s : Stream) : outcome Stream :=
  if negb (s_unordered s) then Ret s
  else
    let q := ReassemblyQueue.forward_tsn_for_unordered new_cumulative_tsn (reassembly_queue s) in
    readable ← ReassemblyQueue.is_readable q;
    Ret (notify readable (s {{ reassembly_queue := q }})).

(** The loop of [packetize]: [i] bytes are in chunks, [rest] is what remains. *)
Fixpoint fragments (fuel : nat) (s : Stream) (ppi : PayloadProtocolIdentifier)
    (options : option UdpSendOptions) (unordered bypass : bool) (now : Z) (flags : nat)
    (i : nat) (rest : bytes) : outcome (list ChunkPayloadData) :=
  match rest with
  | [] => Ret []
  | _ =>
      match fuel with
      | O => OutOfFuel
      | S fuel =>
          let remaining := length rest in
          let fragment_size :=
            if bypass then remaining else Nat.min (Z.to_nat (max_payload_size s)) remaining in
          let chunk :=
            mkChunkPayloadData unordered (i =? 0)%nat (remaining - fragment_size =? 0)%nat false 0
              (s_identifier s) (sequence_number s) ppi (take fragment_size rest)
              false 0 now 0 flags false options in
          chunks ← fragments fuel s ppi options unordered bypass now flags
                     (i + fragment_size) (drop fragment_size rest);
          Ret (chunk :: chunks)
      end
  end.

Definition packetize (raw : bytes) (ppi : PayloadProtocolIdentifier) (options : option UdpSendOptions)
    (now : Z) (cells : flag_cells) (s : Stream)
    : outcome (list ChunkPayloadData * flag_cells * Stream) :=
  let unordered := negb (bool_decide (ppi = Dcep)) && s_unordered s in
  let flags := length cells in
  let cells := cells ++ [mkMessageFlags false false] in
  let bypass := match options with Some o => uso_bypass_sctp_fragmentation o | None => false end in
  chunks ← fragments (length raw) s ppi options unordered bypass now flags 0 raw;
  let s := if unordered then s else s {{ sequence_number := as_u 16 (sequence_number s + 1) }} in
  Ret (chunks, cells, s {{ buffered_amount := (buffered_amount s + length raw)%nat }}).

(** [prepare_write]: an error leaves everything as it is. *)
Definition prepare_write (state : AssociationState) (max_message_size : Z) (p : bytes)
    (ppi : PayloadProtocolIdentifier) (options : option UdpSendOptions) (now : Z)
    (cells : flag_cells) (s : Stream)
    : outcome (Error + list ChunkPayloadData * flag_cells * Stream) :=
  if write_shutdown s then Ret (inl ErrStreamClosed)
  else if max_message_size <? Z.of_nat (length p) then Ret (inl ErrOutboundPacketTooLarge)
  else
    match state with
    | ShutdownSent | ShutdownAckSent | ShutdownPending | ShutdownReceived => Ret (inl ErrStreamClosed)
    | _ => r ← packetize p ppi options now cells s; Ret (inr r)
    end.

Definition on_buffer_released (n_bytes_released : Z) (s : Stream) : Stream :=
  if n_bytes_released <=? 0 then s
  else
    let from_amount := buffered_amount s in
    let new_amount := (from_amount - Z.to_nat n_bytes_released)%nat in
    let s := s {{ buffered_amount := new_amount }} in
    if (buffered_amount_low s <? from_amount)%nat && (new_amount <=? buffered_amount_low s)%nat
       && on_buffered_amount_low s
    then s {{ low_calls := S (low_calls s) }} else s.

Definition get_num_bytes_in_reassembly_queue (s : Stream) : nat :=
  ReassemblyQueue.get_num_bytes (reassembly_queue s).

(** The chunk without data that stands for the end of the stream. *)
Definition reset_chunk (stream_identifier now : Z) : ChunkPayloadData :=
  mkChunkPayloadData false true true false 0 stream_identifier 0 PpiUnknown [] false 0 now 0 0 false None.
End Stream.

(** ** What [packetize] produces *)

Section packetize.
  Context (s : Stream) (ppi : PayloadProtocolIdentifier) (options : option UdpSendOptions)
    (u bypass : bool) (now : Z) (flags : nat) (size_pos : 0 < max_payload_size s).

(** The sizes of the fragments of a message. *)
Fixpoint parts_of (fuel : nat) (rest : bytes) : list bytes :=
  match rest, fuel with
  | [], _ | _, O => []
  | _, S fuel =>
      let n := if bypass then length rest else Nat.min (Z.to_nat (max_payload_size s)) (length rest) in
      take n rest :: parts_of fuel (drop n rest)
  end.

Definition fragment_of (i : nat) (last : bool) (part : bytes) : ChunkPayloadData :=
  mkChunkPayloadData u (i =? 0)%nat last false 0 (s_identifier s) (sequence_number s) ppi part
    false 0 now 0 flags false options.

Lemma parts_of_concat fuel rest : (length rest <= fuel)%nat -> concat (parts_of fuel rest) = rest.
Proof using size_pos.
  revert rest. induction fuel as [|fuel IH]; intros rest Hf; destruct rest as [|b rest]; try done;
    [simpl in Hf; lia|]. cbn [parts_of concat].
  set (n := if bypass then _ else _). rewrite IH; [apply take_drop|].
  rewrite length_drop. assert (0 < n)%nat by (unfold n; destruct bypass; simpl; lia). simpl in *. lia.
Qed.

Lemma fragments_spec fuel i rest :
  (length rest <= fuel)%nat ->
  exists cs, Stream.fragments fuel s ppi options u bypass now flags i rest = Ret cs
    /\ map user_data cs = parts_of fuel rest
    /\ forall j c, cs !! j = Some c ->
         c = fragment_of (if (j =? 0)%nat then i else 1) (S j =? length cs)%nat (user_data c).
Proof using size_pos.
  revert i rest. induction fuel as [|fuel IH]; intros i rest Hf; destruct rest as [|b rest]; try (simpl in Hf; lia).
  1,2: exists []; done.
  cbn [Stream.fragments parts_of]. set (n := if bypass then _ else _).
  assert (0 < n <= length (b :: rest))%nat as Hn by (unfold n; destruct bypass; simpl; lia).
  destruct (IH (i + n)%nat (drop n (b :: rest))) as (cs & -> & Hmap & Hcs).
  { rewrite length_drop. simpl in *. lia. }
  rewrite bind_Ret. eexists. split; [reflexivity|]. split; [cbn [map user_data]; by rewrite Hmap|].
  assert (cs = [] <-> length (b :: rest) = n) as Hend.
  { assert (cs = [] <-> map user_data cs = []) as -> by (by destruct cs). rewrite Hmap.
    destruct (drop n (b :: rest)) as [|b' rest'] eqn:Hd.
    - split; [intros _|by destruct fuel]. apply (f_equal length) in Hd. rewrite length_drop in Hd. simpl in *. lia.
    - assert (length (drop n (b :: rest)) <> 0%nat) as Hnz by (by rewrite Hd). rewrite length_drop in Hnz.
      destruct fuel as [|fuel]; [simpl in *; lia|]. cbn [parts_of]. split; [done|]. simpl in *. lia. }
  intros [|j] c Hj; cbn [lookup list_lookup] in Hj.
  - injection Hj as <-. unfold fragment_of. cbn [user_data Nat.eqb length]. f_equal.
    cbn [length] in Hend, Hn. destruct cs as [|c cs]; cbn [length Nat.eqb].
    + apply Nat.eqb_eq. rewrite <-(proj1 Hend eq_refl). lia.
    + apply Nat.eqb_neq. intros He. assert (S (length rest) = n) as Heq by lia. by apply Hend in Heq.
  - apply Hcs in Hj as ->. cbn [length user_data Nat.eqb].
    destruct j as [|j]; cbn [Nat.eqb]; [|done]. unfold fragment_of. cbn [user_data]. f_equal.
    destruct (Nat.eqb_spec (i + n) 0); [lia|done].
Qed.
End packetize.

(** The chunks of a message with consecutive TSNs, as they come out of a packet. *)
Definition number_from (t : Z) (cs : list ChunkPayloadData) : list ChunkPayloadData :=
  imap (fun i c => c {{ tsn := t + Z.of_nat i }}) cs.

(** The messages an ordered stream writes are what its peer's reassembly queue
    takes: fragment [i] of the [k]-th message is a part of it. *)
Lemma packetize_fragments s raw ppi options now cells chunks cells' s' k t :
  0 < max_payload_size s -> s_unordered s = false -> raw <> [] ->
  sequence_number s = as_u 16 (Z.of_nat k) ->
  Stream.packetize raw ppi options now cells s = Ret (chunks, cells', s') ->
  sequence_number s' = as_u 16 (Z.of_nat (S k))
  /\ exists m, m_tsn m = t /\ m_ppi m = ppi /\ m_data m = raw
       /\ length (m_parts m) = length chunks /\ m_parts m <> []
       /\ forall i c, number_from t chunks !! i = Some c ->
            forall now', is_fragment (s_identifier s) k m i (received now' c).
Proof.
  intros Hsize Hu Hraw Hseq. unfold Stream.packetize. rewrite Hu, andb_false_r.
  set (bypass := match options with Some o => _ | None => _ end).
  destruct (fragments_spec s ppi options false bypass now (length cells) Hsize (length raw) 0 raw)
    as (cs & -> & Hmap & Hcs); [done|]. rewrite bind_Ret. intros [= <- <- <-]. split.
  { unfold RecordSetters.constant. cbn. rewrite Hseq. unfold as_u. rewrite Zplus_mod_idemp_l. f_equal. lia. }
  pose proof (parts_of_concat s bypass Hsize (length raw) raw ltac:(done)) as Hcat.
  exists (mkMessage t ppi (map user_data cs)). unfold m_data. cbn [m_tsn m_ppi m_parts].
  rewrite length_map. split_and!; [done|done|by rewrite Hmap|done| |].
  - rewrite Hmap. intros He. rewrite He in Hcat. by subst.
  - intros i c Hi now'. unfold number_from in Hi. rewrite list_lookup_imap in Hi.
    destruct (cs !! i) as [c'|] eqn:Hc; [|done]. injection Hi as <-. pose proof (Hcs i c' Hc) as ->.
    split; cbn; try done.
    + by rewrite list_lookup_fmap, Hc.
    + by destruct i.
    + by rewrite length_map.
Qed.
