(* ===== verification/Association.v ===== *)
(** * The association (vendored/webrtc-sctp/src/association/association_internal.rs
    and mod.rs)

    The state machine of SCTP: handshake, transfer with acknowledgements and
    congestion control, partial reliability, stream resets and shutdown.  The
    definitions are the methods of [AssociationInternal], each the critical section
    of a caller that holds its lock; the tasks of [Association] call them.  What
    [SystemTime::now] and the random generator return are arguments; the order in
    which a [HashMap] is iterated is a parameter.  Arithmetic on 32-bit numbers is
    checked, as the build profile has it. *)

From stdpp Require Import base list gmap.
From Stdlib Require Import ZArith Lia.
From S2P Require Import Prelude Net Fallible SctpWire Reassembly SctpQueues SctpTimers SctpStream.
Local Open Scope Z_scope.

(** ** Constants and modes (mod.rs) *)

Definition INITIAL_MTU : Z := 1228.
Definition INITIAL_RECV_BUF_SIZE : Z := 1024 * 1024.
Definition COMMON_HEADER_SIZE : Z := 12.
Definition DATA_CHUNK_HEADER_SIZE : Z := 16.
Definition DEFAULT_MAX_MESSAGE_SIZE : Z := 65536.
Definition ACCEPT_CH_SIZE : nat := 16.

Inductive AckMode := Normal | NoDelay | AlwaysDelay.
Inductive AckState := Idle | Immediate | Delay.

#[export] Instance AckMode_eq_dec : EqDecision AckMode.
Proof. solve_decision. Defined.
#[export] Instance AckState_eq_dec : EqDecision AckState.
Proof. solve_decision. Defined.

Record AssociationStats := mkAssociationStats {
  n_datas : Z; n_sacks : Z; n_t3timeouts : Z; n_ack_timeouts : Z; n_fast_retrans : Z }.

(** [AtomicU64::fetch_add] wraps around. *)
Module AssociationStats.
Definition default : AssociationStats := mkAssociationStats 0 0 0 0 0.
Definition inc_datas (s : AssociationStats) : AssociationStats := s {{ n_datas := as_u 64 (n_datas s + 1) }}.
Definition inc_sacks (s : AssociationStats) : AssociationStats := s {{ n_sacks := as_u 64 (n_sacks s + 1) }}.
Definition inc_t3timeouts (s : AssociationStats) : AssociationStats :=
  s {{ n_t3timeouts := as_u 64 (n_t3timeouts s + 1) }}.
Definition inc_ack_timeouts (s : AssociationStats) : AssociationStats :=
  s {{ n_ack_timeouts := as_u 64 (n_ack_timeouts s + 1) }}.
Definition inc_fast_retrans (s : AssociationStats) : AssociationStats :=
  s {{ n_fast_retrans := as_u 64 (n_fast_retrans s + 1) }}.
End AssociationStats.

(** A stream is shared by the table of the association and the application: the
    table and the channel of accepted streams hold its number in [store]. *)
Record AssociationInternal := mkAssociationInternal {
  ai_state : AssociationState;
  max_message_size : Z;
  will_send_shutdown : bool;
  awake : bool;
  peer_verification_tag : Z;
  my_verification_tag : Z;
  my_next_tsn : Z;
  peer_last_tsn : Z;
  min_tsn2measure_rtt : Z;
  will_send_forward_tsn : bool;
  will_retransmit_fast : bool;
  will_retransmit_reconfig : bool;
  will_send_shutdown_ack : bool;
  will_send_shutdown_complete : bool;
  my_next_rsn : Z;
  reconfigs : gmap Z ChunkReconfig;
  reconfig_requests : gmap Z ParamOutgoingResetRequest;
  ai_source_port : Z;
  ai_destination_port : Z;
  my_max_num_inbound_streams : Z;
  my_max_num_outbound_streams : Z;
  my_cookie : option bytes;
  payload_queue : PayloadQueue;
  inflight_queue : PayloadQueue;
  pending_queue : PendingQueue;
  control_queue : list Packet;
  mtu : Z;
  ai_max_payload_size : Z;
  cumulative_tsn_ack_point : Z;
  advanced_peer_tsn_ack_point : Z;
  use_forward_tsn : bool;
  max_receive_buffer_size : Z;
  cwnd : Z;
  rwnd : Z;
  ssthresh : Z;
  partial_bytes_acked : Z;
  in_fast_recovery : bool;
  fast_recover_exit_point : Z;
  rto_mgr : RtoManager;
  t1init : option RtxTimer;
  t1cookie : option RtxTimer;
  t2shutdown : option RtxTimer;
  t3rtx : option RtxTimer;
  treconfig : option RtxTimer;
  ack_timer : option AckTimer;
  stored_init : option ChunkInit;
  stored_cookie_echo : option bytes;
  ai_streams : gmap Z nat;
  close_loop_open : bool;
  accept_ch : list nat;
  handshake_completed : list (option Error);
  delayed_ack_triggered : bool;
  immediate_ack_triggered : bool;
  stats : AssociationStats;
  ack_state : AckState;
  ack_mode : AckMode;
  store : list Stream;
  cells : flag_cells }.

(** ** Operations on the state

    A method may return an error after it has changed the state, and may panic. *)
Inductive res (A : Type) : Type :=
  | Done (a : A) (s : AssociationInternal)
  | Fails (e : Error) (s : AssociationInternal)
  | Crashes (why : panic_reason)
  | Hangs.
Arguments Done {A} a s.
Arguments Fails {A} e s.
Arguments Crashes {A} why.
Arguments Hangs {A}.

Definition op (A : Type) : Type := AssociationInternal -> res A.

#[export] Instance op_ret : MRet op := fun A a s => Done a s.
#[export] Instance op_bind : MBind op := fun A B f m s =>
  match m s with
  | Done a s => f a s
  | Fails e s => Fails e s
  | Crashes why => Crashes why
  | Hangs => Hangs
  end.

Definition get : op AssociationInternal := fun s => Done s s.
Definition modify (f : AssociationInternal -> AssociationInternal) : op unit := fun s => Done tt (f s).
Definition throw {A} (e : Error) : op A := fun s => Fails e s.
(** Waits, or iterates, for ever. *)
Definition hang {A} : op A := fun _ => Hangs.
Definition run {A} (m : outcome A) : op A := fun s =>
  match m with Ret a => Done a s | Panic why => Crashes why | OutOfFuel => Hangs end.
Definition attempt {A} (m : op A) : op (Error + A) := fun s =>
  match m s with
  | Done a s => Done (inr a) s
  | Fails e s => Done (inl e) s
  | Crashes why => Crashes why
  | Hangs => Hangs
  end.
Definition when (b : bool) (m : op unit) : op unit := if b then m else mret tt.

Fixpoint for_all {A} (l : list A) (body : A -> op unit) : op unit :=
  match l with
  | [] => mret tt
  | a :: l => _ ← body a; for_all l body
  end.

(** Checked arithmetic on [u32]. *)
Definition u32 (z : Z) : op Z := run (checked_u 32 z).

(** [self.field = value] *)
Notation "'assign' f v" :=
  (modify (fun s => apply_update (mk_update f (constant v)) s)) (at level 10, f at level 9, v at level 9).

(** [self.awake_write_loop_ch.try_send(())] on a channel with room for one. *)
Definition awake_write_loop : op unit := assign awake true.

Definition set_state (new_state : AssociationState) : op unit := assign ai_state new_state.

(** *** The timers, by what they are for *)

Definition timer (id : RtxTimerId) (s : AssociationInternal) : option RtxTimer :=
  match id with
  | T1Init => t1init s | T1Cookie => t1cookie s | T2Shutdown => t2shutdown s
  | T3RTX => t3rtx s | Reconfig => treconfig s
  end.

Definition set_timer (id : RtxTimerId) (t : RtxTimer) (s : AssociationInternal) : AssociationInternal :=
  match id with
  | T1Init => s {{ t1init := Some t }} | T1Cookie => s {{ t1cookie := Some t }}
  | T2Shutdown => s {{ t2shutdown := Some t }} | T3RTX => s {{ t3rtx := Some t }}
  | Reconfig => s {{ treconfig := Some t }}
  end.

(** [if let Some(t) = &self.t { t.start(self.rto_mgr.get_rto()).await; }] *)
Definition start_timer (id : RtxTimerId) : op unit :=
  modify (fun s =>
    match timer id s with
    | Some t => set_timer id (RtxTimer.start (RtoManager.get_rto (rto_mgr s)) t).2 s
    | None => s
    end).

Definition stop_timer (id : RtxTimerId) : op unit :=
  modify (fun s => match timer id s with Some t => set_timer id (RtxTimer.stop t) s | None => s end).

Definition start_ack_timer : op unit :=
  modify (fun s => s {{ ack_timer := (fun t => (AckTimer.start t).2) <$> ack_timer s }}).

Definition stop_ack_timer : op unit :=
  modify (fun s => s {{ ack_timer := AckTimer.stop <$> ack_timer s }}).

Definition close_all_timers : op unit :=
  _ ← stop_timer T1Init;
  _ ← stop_timer T1Cookie;
  _ ← stop_timer T2Shutdown;
  _ ← stop_timer T3RTX;
  _ ← stop_timer Reconfig;
  stop_ack_timer.

(** *** Streams *)

(** The stream with the identifier, in the table of the association. *)
Definition find_stream (stream_identifier : Z) (s : AssociationInternal) : option Stream :=
  h ← ai_streams s !! stream_identifier;
  store s !! (h : nat).

Definition update_stream (stream_identifier : Z) (f : Stream -> Stream) : op unit :=
  modify (fun s =>
    match ai_streams s !! stream_identifier with
    | Some h => s {{ store := alter f h (store s) }}
    | None => s
    end).

(** A call on the stream with the identifier, nothing where there is none. *)
Definition call_stream (stream_identifier : Z) (f : Stream -> outcome Stream) : op unit :=
  s ← get;
  match find_stream stream_identifier s with
  | Some st => st ← run (f st); update_stream stream_identifier (fun _ => st)
  | None => mret tt
  end.

(** [notify_waiters] wakes who waits and leaves no permit. *)
Definition unregister_stream (stream_identifier : Z) : op unit :=
  _ ← update_stream stream_identifier
        (fun st => st {{ read_shutdown := true }} {{ write_shutdown := true }});
  modify (fun s => s {{ ai_streams := delete stream_identifier (ai_streams s) }}).

(** [create_stream]: the new stream is dropped when it is to be accepted and the
    channel is full. *)
Definition create_stream (stream_identifier : Z) (accept : bool) : op (option nat) :=
  s ← get;
  if accept && (ACCEPT_CH_SIZE <=? length (accept_ch s))%nat then mret None
  else
    let h := length (store s) in
    _ ← assign store (store s ++ [Stream.new stream_identifier (ai_max_payload_size s)]);
    _ ← when accept (assign accept_ch (accept_ch s ++ [h]));
    _ ← assign ai_streams (<[stream_identifier := h]> (ai_streams s));
    mret (Some h).

Definition get_or_create_stream (stream_identifier : Z) : op (option nat) :=
  s ← get;
  match ai_streams s !! stream_identifier with
  | Some h => mret (Some h)
  | None => create_stream stream_identifier true
  end.

Definition open_stream (stream_identifier : Z) (default_payload_type : PayloadProtocolIdentifier) : op nat :=
  s ← get;
  match ai_streams s !! stream_identifier with
  | Some _ => throw ErrStreamAlreadyExist
  | None =>
      h ← create_stream stream_identifier false;
      match h with
      | Some h =>
          _ ← update_stream stream_identifier (Stream.set_default_payload_type default_payload_type);
          mret h
      | None => throw ErrStreamCreateFailed
      end
  end.

(** *** Packets *)

Definition create_packet_with_options (s : AssociationInternal) (chunks : list Chunk)
    (udp_send_options : option UdpSendOptions) : Packet :=
  mkPacket (ai_source_port s) (ai_destination_port s) (peer_verification_tag s) chunks udp_send_options.

Definition create_packet (s : AssociationInternal) (chunks : list Chunk) : Packet :=
  create_packet_with_options s chunks None.

Definition push_control (p : Packet) : op unit :=
  modify (fun s => s {{ control_queue := control_queue s ++ [p] }}).

Definition send_init : op unit :=
  s ← get;
  match stored_init s with
  | Some init =>
      _ ← push_control (mkPacket (ai_source_port s) (ai_destination_port s) 0 [CInit init] None);
      awake_write_loop
  | None => throw ErrInitNotStoredToSend
  end.

Definition send_cookie_echo : op unit :=
  s ← get;
  match stored_cookie_echo s with
  | Some cookie =>
      _ ← push_control (create_packet s [CCookieEcho cookie]);
      awake_write_loop
  | None => throw ErrCookieEchoNotStoredToSend
  end.

Definition generate_next_tsn : op Z :=
  s ← get;
  next ← u32 (my_next_tsn s + 1);
  _ ← assign my_next_tsn next;
  mret (my_next_tsn s).

Definition generate_next_rsn : op Z :=
  s ← get;
  next ← u32 (my_next_rsn s + 1);
  _ ← assign my_next_rsn next;
  mret (my_next_rsn s).

(** ** Handshake *)

Module AssociationInternal.
(** The random numbers are the first TSN and the verification tag. *)
Definition new (config_max_receive_buffer_size config_max_message_size local_port remote_port : Z)
    (random_tsn random_tag : Z) : AssociationInternal :=
  let max_receive_buffer_size :=
    if config_max_receive_buffer_size =? 0 then INITIAL_RECV_BUF_SIZE
    else config_max_receive_buffer_size in
  let max_message_size :=
    if config_max_message_size =? 0 then DEFAULT_MAX_MESSAGE_SIZE else config_max_message_size in
  let tsn := if random_tsn =? 0 then random_tsn + 1 else random_tsn in
  let mtu := INITIAL_MTU in
  {| ai_state := Closed; max_message_size := max_message_size; will_send_shutdown := false;
     awake := false; peer_verification_tag := 0; my_verification_tag := random_tag;
     my_next_tsn := tsn; peer_last_tsn := 0; min_tsn2measure_rtt := tsn;
     will_send_forward_tsn := false; will_retransmit_fast := false;
     will_retransmit_reconfig := false; will_send_shutdown_ack := false;
     will_send_shutdown_complete := false; my_next_rsn := tsn; reconfigs := ∅;
     reconfig_requests := ∅; ai_source_port := local_port; ai_destination_port := remote_port;
     my_max_num_inbound_streams := 65535; my_max_num_outbound_streams := 65535;
     my_cookie := None; payload_queue := PayloadQueue.new; inflight_queue := PayloadQueue.new;
     pending_queue := PendingQueue.new; control_queue := []; mtu := mtu;
     ai_max_payload_size := mtu - (COMMON_HEADER_SIZE + DATA_CHUNK_HEADER_SIZE);
     cumulative_tsn_ack_point := tsn - 1; advanced_peer_tsn_ack_point := tsn - 1;
     use_forward_tsn := false; max_receive_buffer_size := max_receive_buffer_size;
     cwnd := Z.min (4 * mtu) (Z.max (2 * mtu) 4380); rwnd := 0; ssthresh := 0;
     partial_bytes_acked := 0; in_fast_recovery := false; fast_recover_exit_point := 0;
     rto_mgr := RtoManager.new; t1init := None; t1cookie := None; t2shutdown := None;
     t3rtx := None; treconfig := None; ack_timer := None; stored_init := None;
     stored_cookie_echo := None; ai_streams := ∅; close_loop_open := true; accept_ch := [];
     handshake_completed := []; delayed_ack_triggered := false; immediate_ack_triggered := false;
     stats := AssociationStats.default; ack_state := Idle; ack_mode := Normal;
     store := []; cells := [] |}.
End AssociationInternal.

(** [Association::new]: the timers, and the INIT of a client. *)
Definition association_new (is_client : bool) : op unit :=
  ai ← get;
  let init := ChunkInit.set_supported_extensions
    (mkChunkInit false (my_verification_tag ai) (max_receive_buffer_size ai)
       (my_max_num_outbound_streams ai) (my_max_num_inbound_streams ai) (my_next_tsn ai) []) in
  _ ← assign t1init (Some (RtxTimer.new T1Init MAX_INIT_RETRANS));
  _ ← assign t1cookie (Some (RtxTimer.new T1Cookie MAX_INIT_RETRANS));
  _ ← assign t2shutdown (Some (RtxTimer.new T2Shutdown NO_MAX_RETRANS));
  _ ← assign t3rtx (Some (RtxTimer.new T3RTX NO_MAX_RETRANS));
  _ ← assign treconfig (Some (RtxTimer.new Reconfig NO_MAX_RETRANS));
  _ ← assign ack_timer (Some (AckTimer.new ACK_INTERVAL));
  when is_client
    (_ ← set_state CookieWait;
     _ ← assign stored_init (Some init);
     _ ← send_init;
     start_timer T1Init).

(** [initial_tsn] less one, around the turn. *)
Definition tsn_before (initial_tsn : Z) : Z :=
  if initial_tsn =? 0 then 2 ^ 32 - 1 else initial_tsn - 1.

Definition supports_forward_tsn (chunk_types : list Z) : bool :=
  existsb (fun t => t =? CT_FORWARD_TSN) chunk_types.

(** The first loop of [handle_init] over the parameters. *)
Definition init_forward_tsn (params : list Param) : bool :=
  existsb (fun p => match p with
                    | ParamSupportedExtensions types => supports_forward_tsn types
                    | _ => false
                    end) params.

Definition unrecognized_params (params : list Param) : list Param :=
  omap (fun p =>
    match ph_typ (Param.header p) with
    | UnknownParam param_type =>
        if Z.land (Z.shiftr param_type 14) 1 =? 1 then Some (ParamUnrecognized p) else None
    | _ => None
    end) params.

Definition handle_init (fresh_cookie : bytes) (p : Packet) (i : ChunkInit) : op (list Packet) :=
  s ← get;
  if negb (bool_decide (ai_state s = Closed)) && negb (bool_decide (ai_state s = CookieWait))
     && negb (bool_decide (ai_state s = CookieEchoed))
  then throw ErrHandleInitState
  else
    _ ← assign my_max_num_inbound_streams
          (Z.min (num_inbound_streams i) (my_max_num_inbound_streams s));
    _ ← assign my_max_num_outbound_streams
          (Z.min (num_outbound_streams i) (my_max_num_outbound_streams s));
    _ ← assign peer_verification_tag (initiate_tag i);
    if negb (ai_source_port s =? destination_port p) || negb (ai_destination_port s =? source_port p)
    then throw ErrHandleInitState
    else
      _ ← assign peer_last_tsn (tsn_before (initial_tsn i));
      _ ← when (init_forward_tsn (params i)) (assign use_forward_tsn true);
      s ← get;
      let init_ack :=
        mkChunkInit true (my_verification_tag s) (max_receive_buffer_size s)
          (my_max_num_outbound_streams s) (my_max_num_inbound_streams s) (my_next_tsn s)
          (unrecognized_params (params i)) in
      _ ← match my_cookie s with
          | None => assign my_cookie (Some fresh_cookie)
          | Some _ => mret tt
          end;
      s ← get;
      let init_ack :=
        match my_cookie s with
        | Some cookie =>
            mkChunkInit (is_ack init_ack) (initiate_tag init_ack)
              (advertised_receiver_window_credit init_ack) (num_outbound_streams init_ack)
              (num_inbound_streams init_ack) (initial_tsn init_ack) [ParamStateCookie cookie]
        | None => init_ack
        end in
      mret [create_packet s [CInit (ChunkInit.set_supported_extensions init_ack)]].

(** The loop of [handle_init_ack]: the last cookie and whether FORWARD-TSN is
    supported. *)
Definition last_cookie (params : list Param) : option bytes :=
  foldl (fun cookie p => match p with ParamStateCookie c => Some c | _ => cookie end) None params.

Definition init_ack_forward_tsn (params : list Param) : bool :=
  existsb (fun p => match p with
                    | ParamSupportedExtensions types => supports_forward_tsn types
                    | ParamForwardTsnSupported => true
                    | _ => false
                    end) params.

Definition handle_init_ack (p : Packet) (i : ChunkInit) : op (list Packet) :=
  s ← get;
  if negb (bool_decide (ai_state s = CookieWait)) then mret []
  else
    _ ← assign my_max_num_inbound_streams
          (Z.min (num_inbound_streams i) (my_max_num_inbound_streams s));
    _ ← assign my_max_num_outbound_streams
          (Z.min (num_outbound_streams i) (my_max_num_outbound_streams s));
    _ ← assign peer_verification_tag (initiate_tag i);
    _ ← assign peer_last_tsn (tsn_before (initial_tsn i));
    if negb (ai_source_port s =? destination_port p) || negb (ai_destination_port s =? source_port p)
    then mret []
    else
      _ ← assign rwnd (advertised_receiver_window_credit i);
      _ ← assign ssthresh (advertised_receiver_window_credit i);
      _ ← stop_timer T1Init;
      _ ← assign stored_init None;
      _ ← when (init_ack_forward_tsn (params i)) (assign use_forward_tsn true);
      match last_cookie (params i) with
      | Some cookie =>
          _ ← assign stored_cookie_echo (Some cookie);
          _ ← send_cookie_echo;
          _ ← start_timer T1Cookie;
          _ ← set_state CookieEchoed;
          mret []
      | None => throw ErrInitAckNoCookie
      end.

Definition handle_heartbeat (params : list Param) : op (list Packet) :=
  s ← get;
  match params with
  | ParamHeartbeatInfo info :: _ => mret [create_packet s [CHeartbeatAck [ParamHeartbeatInfo info]]]
  | _ => mret []
  end.

(** The end of the handshake, told to who opens the association. *)
Definition handshake_done (r : option Error) : op unit :=
  modify (fun s => s {{ handshake_completed := handshake_completed s ++ [r] }}).

Definition handle_cookie_echo (cookie : bytes) : op (list Packet) :=
  s ← get;
  match my_cookie s with
  | None => mret []
  | Some my_cookie =>
      match ai_state s with
      | Established =>
          if negb (bool_decide (my_cookie = cookie)) then mret [] else mret [create_packet s [CCookieAck]]
      | Closed | CookieWait | CookieEchoed =>
          if negb (bool_decide (my_cookie = cookie)) then mret []
          else
            _ ← stop_timer T1Init;
            _ ← assign stored_init None;
            _ ← stop_timer T1Cookie;
            _ ← assign stored_cookie_echo None;
            _ ← set_state Established;
            _ ← handshake_done None;
            mret [create_packet s [CCookieAck]]
      | _ => mret []
      end
  end.

Definition handle_cookie_ack : op (list Packet) :=
  s ← get;
  if negb (bool_decide (ai_state s = CookieEchoed)) then mret []
  else
    _ ← stop_timer T1Cookie;
    _ ← assign stored_cookie_echo None;
    _ ← set_state Established;
    _ ← handshake_done None;
    mret [].

Section hash_map.
  (** The order in which a [HashMap] is iterated. *)
  Context (iter : forall A, gmap Z A -> list (Z * A)).

Definition close : op unit :=
  s ← get;
  if bool_decide (ai_state s = Closed) then mret tt
  else
    _ ← set_state Closed;
    _ ← close_all_timers;
    _ ← assign close_loop_open false;
    for_all (map fst (iter _ (ai_streams s))) unregister_stream.

(** ** Receiving data *)

(** [bytes_queued += n as u32] over the streams, subtracted with saturation. *)
Fixpoint sum_u32 (l : list Z) (acc : Z) : op Z :=
  match l with
  | [] => mret acc
  | n :: l => acc ← u32 (acc + as_u 32 n); sum_u32 l acc
  end.

Definition stream_bytes (s : AssociationInternal) (si : Z) : Z :=
  match find_stream si s with
  | Some st => Z.of_nat (Stream.get_num_bytes_in_reassembly_queue st)
  | None => 0
  end.

Definition get_my_receiver_window_credit : op Z :=
  s ← get;
  bytes_queued ← sum_u32 (map (fun e => stream_bytes s e.1) (iter _ (ai_streams s))) 0;
  mret (Z.max 0 (max_receive_buffer_size s - bytes_queued)).

(** [reset_streams_if_any], with the packets it adds to the reply. *)
Fixpoint reset_each (respond : bool) (ids : list Z) : op (list Z) :=
  match ids with
  | [] => mret []
  | id :: ids =>
      s ← get;
      match find_stream id s with
      | Some st =>
          _ ← unregister_stream (s_identifier st);
          rest ← reset_each respond ids;
          mret (if respond then id :: rest else rest)
      | None => reset_each respond ids
      end
  end.

Definition reset_streams_if_any (p : ParamOutgoingResetRequest) (respond : bool) (reply : list Packet)
    : op (list Packet) :=
  s ← get;
  '(result, sis_to_reset) ←
     (if sna32lte (sender_last_tsn p) (peer_last_tsn s) then
        sis ← reset_each respond (stream_identifiers p);
        _ ← modify (fun s =>
              s {{ reconfig_requests :=
                     delete (reconfig_request_sequence_number p) (reconfig_requests s) }});
        mret (SuccessPerformed, sis)
      else mret (InProgress, []));
  reply ←
    (match sis_to_reset with
     | [] => mret reply
     | _ =>
         rsn ← generate_next_rsn;
         s ← get;
         tsn ← u32 (my_next_tsn s - 1);
         let c := mkChunkReconfig
                    (Some (ParamOutgoingReset
                             (mkParamOutgoingResetRequest rsn (reconfig_request_sequence_number p) tsn
                                sis_to_reset))) None in
         _ ← assign reconfigs (<[rsn := c]> (reconfigs s));
         mret (reply ++ [create_packet s [CReconfig c]])
     end);
  s ← get;
  mret (reply ++ [create_packet s
                    [CReconfig (mkChunkReconfig
                                  (Some (ParamReconfigResponse (reconfig_request_sequence_number p) result))
                                  None)]]).

Fixpoint reset_requests (reqs : list ParamOutgoingResetRequest) (reply : list Packet) : op (list Packet) :=
  match reqs with
  | [] => mret reply
  | r :: reqs => reply ← reset_streams_if_any r false reply; reset_requests reqs reply
  end.

(** [while self.payload_queue.pop(self.peer_last_tsn + 1).is_some() { ... }]; a
    successful [pop] shortens the list of TSNs. *)
Fixpoint advance_peer_last_tsn (fuel : nat) (reply : list Packet) : op (list Packet) :=
  s ← get;
  next ← u32 (peer_last_tsn s + 1);
  '(popped, q) ← run (PayloadQueue.pop next (payload_queue s));
  _ ← assign payload_queue q;
  match popped, fuel with
  | None, _ => mret reply
  | Some _, O => hang
  | Some _, S fuel =>
      _ ← assign peer_last_tsn next;
      s ← get;
      reply ← reset_requests (map snd (iter _ (reconfig_requests s))) reply;
      advance_peer_last_tsn fuel reply
  end.

Definition handle_peer_last_tsn_and_acknowledgement (sack_immediately : bool) : op (list Packet) :=
  s ← get;
  reply ← advance_peer_last_tsn (length (sorted (payload_queue s))) [];
  s ← get;
  empty ← run (PayloadQueue.is_empty (payload_queue s));
  let has_packet_loss := negb empty in
  _ ← (if negb (bool_decide (ack_state s = Immediate)) && negb sack_immediately
          && negb has_packet_loss && bool_decide (ack_mode s = Normal)
          || bool_decide (ack_mode s = AlwaysDelay)
       then
         if bool_decide (ack_state s = Idle) then assign delayed_ack_triggered true
         else assign immediate_ack_triggered true
       else assign immediate_ack_triggered true);
  mret reply.

Definition handle_data (d : ChunkPayloadData) : op (list Packet) :=
  _ ← modify (fun s => s {{ stats := AssociationStats.inc_datas (stats s) }});
  s ← get;
  let push := assign payload_queue (PayloadQueue.push d (peer_last_tsn s) (payload_queue s)).2 in
  accepted ←
    (if PayloadQueue.can_push d (peer_last_tsn s) (payload_queue s) then
       st ← get_or_create_stream (stream_identifier d);
       match st with
       | Some _ =>
           credit ← get_my_receiver_window_credit;
           if credit >? 0 then _ ← push; mret (Some true)
           else
             match PayloadQueue.get_last_tsn_received (payload_queue s) with
             | Some last_tsn =>
                 if sna32lt (tsn d) last_tsn then _ ← push; mret (Some true) else mret (Some false)
             | None => mret (Some false)
             end
       | None => mret None
       end
     else mret (Some false));
  match accepted with
  | None => mret []
  | Some stream_handle_data =>
      _ ← when stream_handle_data (call_stream (stream_identifier d) (Stream.handle_data d));
      handle_peer_last_tsn_and_acknowledgement (immediate_sack d)
  end.

(** ** Stream resets and FORWARD-TSN *)

Definition handle_reconfig_param (raw : Param) (reply : list Packet) : op (list Packet) :=
  match raw with
  | ParamOutgoingReset p =>
      _ ← modify (fun s =>
            s {{ reconfig_requests := <[reconfig_request_sequence_number p := p]> (reconfig_requests s) }});
      reset_streams_if_any p true reply
  | ParamReconfigResponse n _ =>
      _ ← modify (fun s => s {{ reconfigs := delete n (reconfigs s) }});
      s ← get;
      _ ← when (bool_decide (reconfigs s = ∅)) (stop_timer Reconfig);
      mret reply
  | _ => throw ErrParameterType
  end.

Definition handle_reconfig (c : ChunkReconfig) : op (list Packet) :=
  pp ← match param_a c with Some p => handle_reconfig_param p [] | None => mret [] end;
  match param_b c with Some p => handle_reconfig_param p pp | None => mret pp end.

(** [while sna32lt(self.peer_last_tsn, new) { ... }]; the fuel is the distance. *)
Fixpoint forward_peer_last_tsn (fuel : nat) (new_cumulative_tsn : Z) : op unit :=
  s ← get;
  if sna32lt (peer_last_tsn s) new_cumulative_tsn then
    match fuel with
    | O => hang
    | S fuel =>
        next ← u32 (peer_last_tsn s + 1);
        '(_, q) ← run (PayloadQueue.pop next (payload_queue s));
        _ ← assign payload_queue q;
        _ ← assign peer_last_tsn next;
        forward_peer_last_tsn fuel new_cumulative_tsn
    end
  else mret tt.

Definition tsn_distance (from to : Z) : nat := Z.to_nat (as_u 32 (to - from)).

Definition handle_forward_tsn (c : ChunkForwardTsn) : op (list Packet) :=
  s ← get;
  if negb (use_forward_tsn s) then
    mret [create_packet s [CError [mkErrorCause 0 []]]]
  else if sna32lte (new_cumulative_tsn c) (peer_last_tsn s) then
    _ ← assign ack_state Immediate;
    _ ← stop_ack_timer;
    _ ← awake_write_loop;
    mret []
  else
    _ ← forward_peer_last_tsn (tsn_distance (peer_last_tsn s) (new_cumulative_tsn c))
          (new_cumulative_tsn c);
    _ ← for_all (streams c) (fun forwarded =>
          call_stream (identifier forwarded)
            (Stream.handle_forward_tsn_for_ordered (sequence forwarded)));
    s ← get;
    _ ← for_all (iter _ (ai_streams s)) (fun e =>
          call_stream e.1 (Stream.handle_forward_tsn_for_unordered (new_cumulative_tsn c)));
    handle_peer_last_tsn_and_acknowledgement false.

Definition send_reset_request (now : Z) (stream_identifier : Z) : op unit :=
  s ← get;
  if negb (bool_decide (ai_state s = Established)) then throw ErrResetPacketInStateNotExist
  else
    match PendingQueue.push (Stream.reset_chunk stream_identifier now) (pending_queue s) with
    | Some q => _ ← assign pending_queue q; awake_write_loop
    | None => hang
    end.

(** ** Acknowledgements of sent data *)

(** [SystemTime::now().duration_since(since)?.as_millis() as u64], in a new RTT. *)
Definition measure_rtt (now : Z) (c : ChunkPayloadData) : op unit :=
  s ← get;
  _ ← assign min_tsn2measure_rtt (my_next_tsn s);
  if now <? since c then throw ErrInvalidSystemTime
  else
    '(_, m) ← run (RtoManager.set_new_rtt (as_u 64 ((now - since c) / 1000000)) (rto_mgr s));
    assign rto_mgr m.

(** The entry of a stream grows by what was acknowledged, [i64] amounts. *)
Definition add_acked (si n : Z) (acked_per_stream : gmap Z Z) : op (gmap Z Z) :=
  match acked_per_stream !! si with
  | Some amount => amount ← run (checked_i 64 (amount + n)); mret (<[si := amount]> acked_per_stream)
  | None => mret (<[si := n]> acked_per_stream)
  end.

(** The chunks up to the cumulative TSN leave the queue; each iteration that goes
    on shortens it. *)
Fixpoint pop_acked (now : Z) (fuel : nat) (i cumulative_tsn_ack : Z) (acked_per_stream : gmap Z Z)
    : op (gmap Z Z) :=
  if sna32lte i cumulative_tsn_ack then
    s ← get;
    '(popped, q) ← run (PayloadQueue.pop i (inflight_queue s));
    _ ← assign inflight_queue q;
    match popped, fuel with
    | None, _ => throw ErrInflightQueueTsnPop
    | Some _, O => hang
    | Some c, S fuel =>
        acked_per_stream ←
          (if negb (acked c) then
             first ← u32 (cumulative_tsn_ack_point s + 1);
             _ ← when (i =? first) (stop_timer T3RTX);
             acked_per_stream ←
               add_acked (stream_identifier c) (Z.of_nat (length (user_data c))) acked_per_stream;
             _ ← when ((nsent c =? 1) && sna32gte (tsn c) (min_tsn2measure_rtt s)) (measure_rtt now c);
             mret acked_per_stream
           else mret acked_per_stream);
        _ ← when (in_fast_recovery s && (tsn c =? fast_recover_exit_point s)) (assign in_fast_recovery false);
        i ← u32 (i + 1);
        pop_acked now fuel i cumulative_tsn_ack acked_per_stream
    end
  else mret acked_per_stream.

(** One TSN that a gap block reports. *)
Definition ack_reported (now cumulative_tsn_ack i : Z) (acked_per_stream : gmap Z Z) (htna : Z)
    : op (gmap Z Z * Z) :=
  tsn ← u32 (cumulative_tsn_ack + i);
  s ← get;
  let existed := PayloadQueue.get tsn (inflight_queue s) in
  let is_acked := match existed with Some c => acked c | None => false end in
  n_bytes_acked ←
    (if bool_decide (is_Some existed) && negb is_acked then
       '(n, q) ← run (PayloadQueue.mark_as_acked tsn (inflight_queue s));
       _ ← assign inflight_queue q;
       mret (Z.of_nat n)
     else mret 0);
  s ← get;
  match PayloadQueue.get tsn (inflight_queue s) with
  | None => throw ErrTsnRequestNotExist
  | Some c =>
      if negb is_acked then
        acked_per_stream ← add_acked (stream_identifier c) n_bytes_acked acked_per_stream;
        _ ← when (nsent c =? 1) (measure_rtt now c);
        mret (acked_per_stream, if sna32lt htna tsn then tsn else htna)
      else mret (acked_per_stream, htna)
  end.

Fixpoint ack_each (now cumulative_tsn_ack : Z) (is_ : list Z) (acked_per_stream : gmap Z Z) (htna : Z)
    : op (gmap Z Z * Z) :=
  match is_ with
  | [] => mret (acked_per_stream, htna)
  | i :: is_ =>
      '(acked_per_stream, htna) ← ack_reported now cumulative_tsn_ack i acked_per_stream htna;
      ack_each now cumulative_tsn_ack is_ acked_per_stream htna
  end.

(** [for g in &d.gap_ack_blocks { for i in g.start..=g.end { .. } }] *)
Definition reported (blocks : list GapAckBlock) : list Z :=
  concat (map (fun g => seqZ (gap_start g) (gap_end g - gap_start g + 1)) blocks).

Definition process_selective_ack (now : Z) (d : ChunkSelectiveAck) : op (gmap Z Z * Z) :=
  s ← get;
  i ← u32 (cumulative_tsn_ack_point s + 1);
  acked_per_stream ←
    pop_acked now (length (sorted (inflight_queue s))) i (cumulative_tsn_ack d) ∅;
  ack_each now (cumulative_tsn_ack d) (reported (gap_ack_blocks d)) acked_per_stream
    (cumulative_tsn_ack d).

Definition on_cumulative_tsn_ack_point_advanced (total_bytes_acked : Z) : op unit :=
  s ← get;
  empty ← run (PayloadQueue.is_empty (inflight_queue s));
  _ ← (if (empty : bool) then stop_timer T3RTX else start_timer T3RTX);
  if cwnd s <=? ssthresh s then
    when (negb (in_fast_recovery s) && negb (PendingQueue.is_empty (pending_queue s)))
      (w ← u32 (cwnd s + Z.min (as_u 32 total_bytes_acked) (cwnd s));
       assign cwnd w)
  else
    partial ← u32 (partial_bytes_acked s + as_u 32 total_bytes_acked);
    _ ← assign partial_bytes_acked partial;
    when ((partial >=? cwnd s) && negb (PendingQueue.is_empty (pending_queue s)))
      (_ ← assign partial_bytes_acked (partial - cwnd s);
       w ← u32 (cwnd s + mtu s);
       assign cwnd w).

(** The loop over the TSNs that a SACK reports missing. *)
Fixpoint count_misses (fuel : nat) (tsn max_tsn htna : Z) : op unit :=
  if sna32lt tsn max_tsn then
    s ← get;
    match PayloadQueue.get tsn (inflight_queue s), fuel with
    | None, _ => throw ErrTsnRequestNotExist
    | Some _, O => hang
    | Some c, S fuel =>
        _ ← when (negb (acked c) && negb (abandoned (cells s) c) && (miss_indicator c <? 3))
              (let c := c {{ miss_indicator := miss_indicator c + 1 }} in
               _ ← assign inflight_queue
                     ((inflight_queue s) {{ chunk_map := <[tsn := c]> (chunk_map (inflight_queue s)) }});
               when ((miss_indicator c =? 3) && negb (in_fast_recovery s))
                 (_ ← assign in_fast_recovery true;
                  _ ← assign fast_recover_exit_point htna;
                  four ← u32 (4 * mtu s);
                  _ ← assign ssthresh (Z.max (cwnd s / 2) four);
                  _ ← assign cwnd (Z.max (cwnd s / 2) four);
                  _ ← assign partial_bytes_acked 0;
                  assign will_retransmit_fast true));
        tsn ← u32 (tsn + 1);
        count_misses fuel tsn max_tsn htna
    end
  else mret tt.

Definition process_fast_retransmission (cum_tsn_ack_point htna : Z) (cum_tsn_ack_point_advanced : bool)
    : op unit :=
  s ← get;
  _ ← when (negb (in_fast_recovery s) || cum_tsn_ack_point_advanced)
        (max_tsn ← (if negb (in_fast_recovery s) then mret htna
                    else
                      n ← run (PayloadQueue.len (inflight_queue s));
                      m ← u32 (cum_tsn_ack_point + as_u 32 (Z.of_nat n));
                      u32 (m + 1));
         tsn ← u32 (cum_tsn_ack_point + 1);
         count_misses (size (chunk_map (inflight_queue s))) tsn max_tsn htna);
  s ← get;
  when (in_fast_recovery s && cum_tsn_ack_point_advanced) (assign will_retransmit_fast true).

(** [while let Some(c) = self.inflight_queue.get(i) { ... }]: the abandoned chunks
    that follow the advanced ack point. *)
Fixpoint advance_peer_ack_point (fuel : nat) (i : Z) : op unit :=
  s ← get;
  match PayloadQueue.get i (inflight_queue s), fuel with
  | None, _ => mret tt
  | Some c, fuel =>
      if negb (abandoned (cells s) c) then mret tt
      else
        match fuel with
        | O => hang
        | S fuel =>
            _ ← assign advanced_peer_tsn_ack_point i;
            i ← u32 (i + 1);
            advance_peer_ack_point fuel i
        end
  end.

(** RFC 3758, 3.5, C2 and C3. *)
Definition try_advance_peer_ack_point : op unit :=
  s ← get;
  i ← u32 (advanced_peer_tsn_ack_point s + 1);
  _ ← advance_peer_ack_point (size (chunk_map (inflight_queue s))) i;
  s ← get;
  when (sna32gt (advanced_peer_tsn_ack_point s) (cumulative_tsn_ack_point s))
    (assign will_send_forward_tsn true).

Definition postprocess_sack (state : AssociationState) (should_awake_write_loop : bool) : op unit :=
  s ← get;
  empty ← run (PayloadQueue.is_empty (inflight_queue s));
  should_awake_write_loop ←
    (if negb empty then _ ← start_timer T3RTX; mret should_awake_write_loop
     else if bool_decide (state = ShutdownPending) then
       _ ← assign will_send_shutdown true; _ ← set_state ShutdownSent; mret true
     else if bool_decide (state = ShutdownReceived) then
       _ ← assign will_send_shutdown_ack true; _ ← set_state ShutdownAckSent; mret true
     else mret should_awake_write_loop);
  when should_awake_write_loop awake_write_loop.

Definition sum_i64 (l : list Z) : op Z :=
  foldl (fun m n => acc ← m; run (checked_i 64 (acc + n))) (mret 0) l.

Definition handle_sack (now : Z) (d : ChunkSelectiveAck) : op (list Packet) :=
  s ← get;
  let state := ai_state s in
  if negb (bool_decide (state = Established)) && negb (bool_decide (state = ShutdownPending))
     && negb (bool_decide (state = ShutdownReceived))
  then mret []
  else
    _ ← modify (fun s => s {{ stats := AssociationStats.inc_sacks (stats s) }});
    if sna32gt (cumulative_tsn_ack_point s) (cumulative_tsn_ack d) then mret []
    else
      '(bytes_acked_per_stream, htna) ← process_selective_ack now d;
      total_bytes_acked ← sum_i64 (map snd (iter _ bytes_acked_per_stream));
      let advanced := sna32lt (cumulative_tsn_ack_point s) (cumulative_tsn_ack d) in
      _ ← when advanced
            (_ ← assign cumulative_tsn_ack_point (cumulative_tsn_ack d);
             on_cumulative_tsn_ack_point_advanced total_bytes_acked);
      _ ← for_all (iter _ bytes_acked_per_stream) (fun e =>
            update_stream e.1 (Stream.on_buffer_released e.2));
      s ← get;
      let bytes_outstanding := as_u 32 (Z.of_nat (PayloadQueue.get_num_bytes (inflight_queue s))) in
      _ ← (if bytes_outstanding >=? sack_receiver_window_credit d then assign rwnd 0
           else assign rwnd (sack_receiver_window_credit d - bytes_outstanding));
      _ ← process_fast_retransmission (cumulative_tsn_ack d) htna advanced;
      s ← get;
      _ ← when (use_forward_tsn s)
            (_ ← when (sna32lt (advanced_peer_tsn_ack_point s) (cumulative_tsn_ack_point s))
                   (assign advanced_peer_tsn_ack_point (cumulative_tsn_ack_point s));
             _ ← try_advance_peer_ack_point;
             awake_write_loop);
      _ ← postprocess_sack state advanced;
      mret [].

(** ** Shutdown *)

Definition handle_shutdown : op (list Packet) :=
  s ← get;
  _ ← match ai_state s with
      | Established =>
          empty ← run (PayloadQueue.is_empty (inflight_queue s));
          if negb empty then set_state ShutdownReceived
          else
            _ ← assign will_send_shutdown_ack true;
            _ ← set_state ShutdownAckSent;
            awake_write_loop
      | ShutdownSent =>
          _ ← assign will_send_shutdown_ack true;
          _ ← set_state ShutdownAckSent;
          awake_write_loop
      | _ => mret tt
      end;
  mret [].

Definition handle_shutdown_ack : op (list Packet) :=
  s ← get;
  _ ← when (bool_decide (ai_state s = ShutdownSent) || bool_decide (ai_state s = ShutdownAckSent))
        (_ ← stop_timer T2Shutdown;
         _ ← assign will_send_shutdown_complete true;
         awake_write_loop);
  mret [].

Definition handle_shutdown_complete : op (list Packet) :=
  s ← get;
  _ ← when (bool_decide (ai_state s = ShutdownAckSent))
        (_ ← stop_timer T2Shutdown;
         close);
  mret [].

(** [Association::shutdown] up to where it waits for the end. *)
Definition shutdown : op unit :=
  s ← get;
  if negb (bool_decide (ai_state s = Established)) then throw ErrShutdownNonEstablished
  else
    _ ← set_state ShutdownPending;
    when (pq_length (inflight_queue s) =? 0)%nat
      (_ ← assign will_send_shutdown true;
       _ ← awake_write_loop;
       set_state ShutdownSent).

(** ** Sending *)

Definition check_partial_reliability_status (now : Z) (c : ChunkPayloadData) : op unit :=
  s ← get;
  if negb (use_forward_tsn s) then mret tt
  else if bool_decide (payload_type c = Dcep) then mret tt
  else
    match find_stream (stream_identifier c) s with
    | Some st =>
        match reliability_type st with
        | Rexmit =>
            when (nsent c >=? reliability_value st) (assign cells (set_abandoned true c (cells s)))
        | Timed =>
            when ((since c <=? now) && (as_u 32 ((now - since c) / 1000000) >=? reliability_value st))
              (assign cells (set_abandoned true c (cells s)))
        | Reliable => mret tt
        end
    | None => mret tt
    end.

Definition move_pending_data_chunk_to_inflight_queue (now : Z) (beginning_fragment unordered : bool)
    : op (option ChunkPayloadData) :=
  s ← get;
  let '(popped, q) := PendingQueue.pop beginning_fragment unordered (pending_queue s) in
  _ ← assign pending_queue q;
  match popped with
  | Some c =>
      _ ← when (ending_fragment c) (modify (fun s => s {{ cells := set_all_inflight c (cells s) }}));
      tsn' ← generate_next_tsn;
      let c := c {{ tsn := tsn' }} {{ since := now }} {{ nsent := 1 }} in
      _ ← check_partial_reliability_status now c;
      _ ← modify (fun s => s {{ inflight_queue := PayloadQueue.push_no_check c (inflight_queue s) }});
      mret (Some c)
  | None => mret None
  end.

(** The loop over the pending chunks; each iteration that goes on takes one. *)
Fixpoint send_pending (now : Z) (fuel : nat) : op (list ChunkPayloadData * list Z) :=
  s ← get;
  match PendingQueue.peek (pending_queue s) with
  | None => mret ([], [])
  | Some c =>
      let data_len := length (user_data c) in
      if (data_len =? 0)%nat then
        match fuel with
        | O => hang
        | S fuel =>
            _ ← assign pending_queue
                  (PendingQueue.pop (beginning_fragment c) (unordered c) (pending_queue s)).2;
            '(chunks, sis_to_reset) ← send_pending now fuel;
            mret (chunks, stream_identifier c :: sis_to_reset)
        end
      else if Z.of_nat (PayloadQueue.get_num_bytes (inflight_queue s) + data_len) >? cwnd s then
        mret ([], [])
      else if Z.of_nat data_len >? rwnd s then mret ([], [])
      else
        match fuel with
        | O => hang
        | S fuel =>
            w ← u32 (rwnd s - as_u 32 (Z.of_nat data_len));
            _ ← assign rwnd w;
            chunk ← move_pending_data_chunk_to_inflight_queue now (beginning_fragment c) (unordered c);
            '(chunks, sis_to_reset) ← send_pending now fuel;
            mret (match chunk with Some c => c :: chunks | None => chunks end, sis_to_reset)
        end
  end.

Definition pending_chunks (q : PendingQueue) : nat :=
  length (unordered_queue q) + length (ordered_queue q).

Definition pop_pending_data_chunks_to_send (now : Z) : op (list ChunkPayloadData * list Z) :=
  s ← get;
  if PendingQueue.is_empty (pending_queue s) then mret ([], [])
  else
    '(chunks, sis_to_reset) ← send_pending now (pending_chunks (pending_queue s));
    match chunks with
    | [] =>
        s ← get;
        empty ← run (PayloadQueue.is_empty (inflight_queue s));
        if (empty : bool) then
          match PendingQueue.peek (pending_queue s) with
          | Some c =>
              chunk ← move_pending_data_chunk_to_inflight_queue now (beginning_fragment c) (unordered c);
              mret (match chunk with Some c => [c] | None => [] end, sis_to_reset)
          | None => mret ([], sis_to_reset)
          end
        else mret ([], sis_to_reset)
    | _ => mret (chunks, sis_to_reset)
    end.

(** The loop of [bundle_data_chunks_into_packets], with its variables as arguments:
    a chunk with options of its own is a packet by itself. *)
Fixpoint bundle (s : AssociationInternal) (cs : list ChunkPayloadData) (packets : list Packet)
    (chunks_to_send : list Chunk) (bytes_in_packet : Z) (packet_udp_options : option UdpSendOptions)
    : outcome (list Packet) :=
  match cs with
  | [] =>
      Ret (match chunks_to_send with
           | [] => packets
           | _ => packets ++ [create_packet_with_options s chunks_to_send packet_udp_options]
           end)
  | c :: cs =>
      match udp_send_options c with
      | Some options =>
          bundle s cs (packets ++ [create_packet_with_options s [CData c] (Some options)])
            chunks_to_send bytes_in_packet packet_udp_options
      | None =>
          let data_len := as_u 32 (Z.of_nat (length (user_data c))) in
          n ← checked_u 32 (bytes_in_packet + data_len);
          let '(packets, chunks_to_send, bytes_in_packet, packet_udp_options) :=
            if n >? mtu s
            then (packets ++ [create_packet_with_options s chunks_to_send packet_udp_options],
                  [], COMMON_HEADER_SIZE, None)
            else (packets, chunks_to_send, bytes_in_packet, packet_udp_options) in
          let packet_udp_options :=
            match packet_udp_options with None => udp_send_options c | o => o end in
          m ← checked_u 32 (DATA_CHUNK_HEADER_SIZE + data_len);
          bytes_in_packet ← checked_u 32 (bytes_in_packet + m);
          bundle s cs packets (chunks_to_send ++ [CData c]) bytes_in_packet packet_udp_options
      end
  end.

Definition bundle_data_chunks_into_packets (s : AssociationInternal) (cs : list ChunkPayloadData)
    : outcome (list Packet) :=
  bundle s cs [] [] COMMON_HEADER_SIZE None.

(** The loop of [get_data_packets_to_retransmit]; the chunk at [tsn] is there in
    every iteration that goes on. *)
Fixpoint retransmit_from (now : Z) (fuel : nat) (i awnd : Z) (bytes_to_send : nat)
    : op (list ChunkPayloadData) :=
  s ← get;
  t ← u32 (cumulative_tsn_ack_point s + i);
  t ← u32 (t + 1);
  match PayloadQueue.get t (inflight_queue s), fuel with
  | None, _ => mret []
  | Some _, O => hang
  | Some c, S fuel =>
      if negb (retransmit c) then
        i ← u32 (i + 1);
        retransmit_from now fuel i awnd bytes_to_send
      else
        let data_len := length (user_data c) in
        let done := (i =? 0) && (rwnd s <? as_u 32 (Z.of_nat data_len)) in
        if negb done && (Z.of_nat (bytes_to_send + data_len) >? awnd) then mret []
        else
          n ← u32 (nsent c + 1);
          let c := c {{ retransmit := false }} {{ nsent := n }} in
          _ ← assign inflight_queue
                ((inflight_queue s) {{ chunk_map := <[t := c]> (chunk_map (inflight_queue s)) }});
          _ ← check_partial_reliability_status now c;
          i ← u32 (i + 1);
          rest ← (if done then mret [] else retransmit_from now fuel i awnd (bytes_to_send + data_len));
          mret (c :: rest)
  end.

Definition get_data_packets_to_retransmit (now : Z) : op (list Packet) :=
  s ← get;
  chunks ← retransmit_from now (size (chunk_map (inflight_queue s))) 0 (Z.min (cwnd s) (rwnd s)) 0;
  s ← get;
  run (bundle_data_chunks_into_packets s chunks).

Definition gather_data_packets_to_retransmit (now : Z) (raw_packets : list Packet) : op (list Packet) :=
  ps ← get_data_packets_to_retransmit now;
  mret (raw_packets ++ ps).

Definition gather_outbound_data_and_reconfig_packets (now : Z) (raw_packets : list Packet)
    : op (list Packet) :=
  '(chunks, sis_to_reset) ← pop_pending_data_chunks_to_send now;
  raw_packets ←
    (match chunks with
     | [] => mret raw_packets
     | _ =>
         _ ← start_timer T3RTX;
         s ← get;
         ps ← run (bundle_data_chunks_into_packets s chunks);
         mret (raw_packets ++ ps)
     end);
  s ← get;
  let will_retransmit := will_retransmit_reconfig s in
  if negb (bool_decide (sis_to_reset = [])) || will_retransmit then
    _ ← when will_retransmit (assign will_retransmit_reconfig false);
    let raw_packets :=
      if will_retransmit
      then raw_packets ++ map (fun e => create_packet s [CReconfig e.2]) (iter _ (reconfigs s))
      else raw_packets in
    raw_packets ←
      (match sis_to_reset with
       | [] => mret raw_packets
       | _ =>
           rsn ← generate_next_rsn;
           s ← get;
           tsn ← u32 (my_next_tsn s - 1);
           let c := mkChunkReconfig
                      (Some (ParamOutgoingReset (mkParamOutgoingResetRequest rsn 0 tsn sis_to_reset))) None in
           _ ← assign reconfigs (<[rsn := c]> (reconfigs s));
           mret (raw_packets ++ [create_packet s [CReconfig c]])
       end);
    s ← get;
    _ ← when (negb (bool_decide (reconfigs s = ∅))) (start_timer Reconfig);
    mret raw_packets
  else mret raw_packets.

(** The loop over the chunks that three reports have missed, up to one packet. *)
Fixpoint fast_retransmit_from (now : Z) (fuel : nat) (i fast_retrans_size : Z)
    : op (list ChunkPayloadData) :=
  s ← get;
  t ← u32 (cumulative_tsn_ack_point s + i);
  t ← u32 (t + 1);
  match PayloadQueue.get t (inflight_queue s), fuel with
  | None, _ => mret []
  | Some _, O => hang
  | Some c, S fuel =>
      if acked c || abandoned (cells s) c || (nsent c >? 1) || (miss_indicator c <? 3) then
        i ← u32 (i + 1);
        fast_retransmit_from now fuel i fast_retrans_size
      else
        data_chunk_size ← u32 (DATA_CHUNK_HEADER_SIZE + as_u 32 (Z.of_nat (length (user_data c))));
        n ← u32 (fast_retrans_size + data_chunk_size);
        if mtu s <? n then mret []
        else
          _ ← assign stats (AssociationStats.inc_fast_retrans (stats s));
          k ← u32 (nsent c + 1);
          let c := c {{ nsent := k }} in
          _ ← assign inflight_queue
                ((inflight_queue s) {{ chunk_map := <[t := c]> (chunk_map (inflight_queue s)) }});
          _ ← check_partial_reliability_status now c;
          i ← u32 (i + 1);
          rest ← fast_retransmit_from now fuel i n;
          mret (c :: rest)
  end.

Definition gather_outbound_fast_retransmission_packets (now : Z) (raw_packets : list Packet)
    : op (list Packet) :=
  s ← get;
  if will_retransmit_fast s then
    _ ← assign will_retransmit_fast false;
    to_fast_retrans ← fast_retransmit_from now (size (chunk_map (inflight_queue s))) 0 COMMON_HEADER_SIZE;
    s ← get;
    mret (match to_fast_retrans with
          | [] => raw_packets
          | _ => raw_packets ++ [create_packet s (map CData to_fast_retrans)]
          end)
  else mret raw_packets.

Definition create_selective_ack_chunk : op ChunkSelectiveAck :=
  s ← get;
  credit ← get_my_receiver_window_credit;
  blocks ← run (PayloadQueue.get_gap_ack_blocks (peer_last_tsn s) (payload_queue s));
  let '(duplicates, q) := PayloadQueue.pop_duplicates (payload_queue s) in
  _ ← assign payload_queue q;
  mret (mkChunkSelectiveAck (peer_last_tsn s) credit blocks duplicates).

Definition gather_outbound_sack_packets (raw_packets : list Packet) : op (list Packet) :=
  s ← get;
  if bool_decide (ack_state s = Immediate) then
    _ ← assign ack_state Idle;
    sack ← create_selective_ack_chunk;
    s ← get;
    mret (raw_packets ++ [create_packet s [CSack sack]])
  else mret raw_packets.

(** The greatest SSN of every stream in the abandoned chunks. *)
Fixpoint collect_forward (fuel : nat) (s : AssociationInternal) (i : Z) (stream_map : gmap Z Z)
    : outcome (gmap Z Z) :=
  if sna32lte i (advanced_peer_tsn_ack_point s) then
    match PayloadQueue.get i (inflight_queue s), fuel with
    | None, _ => Ret stream_map
    | Some _, O => OutOfFuel
    | Some c, S fuel =>
        let stream_map :=
          match stream_map !! stream_identifier c with
          | Some ssn =>
              if sna16lt ssn (stream_sequence_number c)
              then <[stream_identifier c := stream_sequence_number c]> stream_map else stream_map
          | None => <[stream_identifier c := stream_sequence_number c]> stream_map
          end in
        i ← checked_u 32 (i + 1);
        collect_forward fuel s i stream_map
    end
  else Ret stream_map.

Definition create_forward_tsn (s : AssociationInternal) : outcome ChunkForwardTsn :=
  i ← checked_u 32 (cumulative_tsn_ack_point s + 1);
  stream_map ← collect_forward (size (chunk_map (inflight_queue s))) s i ∅;
  Ret (mkChunkForwardTsn (advanced_peer_tsn_ack_point s)
         (map (fun e => mkChunkForwardTsnStream e.1 e.2) (iter _ stream_map))).

Definition gather_outbound_forward_tsn_packets (raw_packets : list Packet) : op (list Packet) :=
  s ← get;
  if will_send_forward_tsn s then
    _ ← assign will_send_forward_tsn false;
    if sna32gt (advanced_peer_tsn_ack_point s) (cumulative_tsn_ack_point s) then
      fwd_tsn ← run (create_forward_tsn s);
      mret (raw_packets ++ [create_packet s [CForwardTsn fwd_tsn]])
    else mret raw_packets
  else mret raw_packets.

Definition gather_outbound_shutdown_packets (raw_packets : list Packet) : op (list Packet * bool) :=
  s ← get;
  if will_send_shutdown s then
    _ ← assign will_send_shutdown false;
    _ ← start_timer T2Shutdown;
    mret (raw_packets ++ [create_packet s [CShutdown (cumulative_tsn_ack_point s)]], true)
  else if will_send_shutdown_ack s then
    _ ← assign will_send_shutdown_ack false;
    _ ← start_timer T2Shutdown;
    mret (raw_packets ++ [create_packet s [CShutdownAck]], true)
  else if will_send_shutdown_complete s then
    _ ← assign will_send_shutdown_complete false;
    mret (raw_packets ++ [create_packet s [CShutdownComplete]], false)
  else mret (raw_packets, true).

Definition gather_outbound (now : Z) : op (list Packet * bool) :=
  s ← get;
  let raw_packets := control_queue s in
  _ ← assign control_queue [];
  match ai_state s with
  | Established =>
      raw_packets ← gather_data_packets_to_retransmit now raw_packets;
      raw_packets ← gather_outbound_data_and_reconfig_packets now raw_packets;
      raw_packets ← gather_outbound_fast_retransmission_packets now raw_packets;
      raw_packets ← gather_outbound_sack_packets raw_packets;
      raw_packets ← gather_outbound_forward_tsn_packets raw_packets;
      mret (raw_packets, true)
  | ShutdownPending | ShutdownSent | ShutdownReceived =>
      raw_packets ← gather_data_packets_to_retransmit now raw_packets;
      raw_packets ← gather_outbound_fast_retransmission_packets now raw_packets;
      raw_packets ← gather_outbound_sack_packets raw_packets;
      gather_outbound_shutdown_packets raw_packets
  | ShutdownAckSent => gather_outbound_shutdown_packets raw_packets
  | _ => mret (raw_packets, true)
  end.

(** ** Packets that arrive *)

Definition handle_chunk_start : op unit :=
  _ ← assign delayed_ack_triggered false;
  assign immediate_ack_triggered false.

Definition handle_chunk_end : op unit :=
  s ← get;
  if immediate_ack_triggered s then
    _ ← assign ack_state Immediate;
    _ ← stop_ack_timer;
    awake_write_loop
  else
    when (delayed_ack_triggered s)
      (_ ← assign ack_state Delay;
       start_ack_timer).

(** [e?] on a coder or decoder. *)
Definition propagate {A} (m : result A) : op A :=
  match m with
  | Ok a => mret a
  | Err e => throw e
  | Panics why => run (Panic why)
  | NoFuel => hang
  end.

(** [chunk.header().typ.0], for the chunks no handler takes. *)
Definition unhandled_type (c : Chunk) : Z :=
  match c with CUnknown hdr _ => typ hdr | CHeartbeatAck _ => CT_HEARTBEAT_ACK | _ => 0 end.

(** The last branch, by the upper two bits of the type. *)
Definition handle_unknown (c : Chunk) : op (list Packet) :=
  let report :=
    raw ← propagate (Chunk.marshal_to c []);
    s ← get;
    mret (create_packet s [CError [mkErrorCause UNRECOGNIZED_CHUNK_TYPE raw]]) in
  match Z.shiftr (unhandled_type c) 6 with
  | 0 => throw ErrChunkTypeUnhandled
  | 1 =>
      packet ← report;
      _ ← push_control packet;
      _ ← awake_write_loop;
      throw ErrChunkTypeUnhandled
  | 2 => mret []
  | 3 => packet ← report; mret [packet]
  | _ => run (Panic ExplicitPanic)
  end.

Definition handle_chunk (now : Z) (fresh_cookie : bytes) (p : Packet) (chunk : Chunk) : op unit :=
  _ ← propagate (Chunk.check chunk);
  packets ←
    match chunk with
    | CInit c => if is_ack c then handle_init_ack p c else handle_init fresh_cookie p c
    | CAbort _ => throw ErrChunk
    | CError _ => mret []
    | CHeartbeat params => handle_heartbeat params
    | CCookieEcho cookie => handle_cookie_echo cookie
    | CCookieAck => handle_cookie_ack
    | CData c => handle_data c
    | CSack c => handle_sack now c
    | CReconfig c => handle_reconfig c
    | CForwardTsn c => handle_forward_tsn c
    | CShutdown _ => handle_shutdown
    | CShutdownAck => handle_shutdown_ack
    | CShutdownComplete => handle_shutdown_complete
    | CHeartbeatAck _ | CUnknown _ _ => handle_unknown chunk
    end;
  match packets with
  | [] => mret tt
  | _ =>
      _ ← modify (fun s => s {{ control_queue := control_queue s ++ packets }});
      awake_write_loop
  end.

Fixpoint handle_chunks (now : Z) (fresh_cookie : bytes) (p : Packet) (cs : list Chunk) : op unit :=
  match cs with
  | [] => mret tt
  | c :: cs =>
      r ← attempt (handle_chunk now fresh_cookie p c);
      match r with
      | inl ErrChunk => throw ErrChunk
      | inl ErrChunkTypeUnhandled => mret tt
      | _ => handle_chunks now fresh_cookie p cs
      end
  end.

(** [handle_inbound] of a packet that was decoded. *)
Definition handle_packet (now : Z) (fresh_cookie : bytes) (p : Packet) : op unit :=
  match Packet.check_packet p with
  | Err _ => mret tt
  | _ =>
      _ ← handle_chunk_start;
      _ ← handle_chunks now fresh_cookie p (chunks p);
      handle_chunk_end
  end.

Definition handle_inbound (crc32c : bytes -> Z) (now : Z) (fresh_cookie : bytes) (raw : bytes) : op unit :=
  match Packet.unmarshal crc32c now raw with
  | Ok p => handle_packet now fresh_cookie p
  | Err _ => mret tt
  | Panics why => run (Panic why)
  | NoFuel => hang
  end.

(** ** Timeouts *)

Definition on_ack_timeout : op unit :=
  _ ← modify (fun s => s {{ stats := AssociationStats.inc_ack_timeouts (stats s) }});
  _ ← assign ack_state Immediate;
  awake_write_loop.

Definition on_retransmission_timeout (id : RtxTimerId) : op unit :=
  match id with
  | T1Init => _ ← attempt send_init; mret tt
  | T1Cookie => _ ← attempt send_cookie_echo; mret tt
  | T2Shutdown =>
      s ← get;
      match ai_state s with
      | ShutdownSent => _ ← assign will_send_shutdown true; awake_write_loop
      | ShutdownAckSent => _ ← assign will_send_shutdown_ack true; awake_write_loop
      | _ => mret tt
      end
  | T3RTX =>
      _ ← modify (fun s => s {{ stats := AssociationStats.inc_t3timeouts (stats s) }});
      s ← get;
      four ← u32 (4 * mtu s);
      _ ← assign ssthresh (Z.max (cwnd s / 2) four);
      _ ← assign cwnd (mtu s);
      _ ← when (use_forward_tsn s) try_advance_peer_ack_point;
      _ ← modify (fun s =>
            s {{ inflight_queue := PayloadQueue.mark_all_to_retrasmit (cells s) (inflight_queue s) }});
      awake_write_loop
  | Reconfig => _ ← assign will_retransmit_reconfig true; awake_write_loop
  end.

Definition on_retransmission_failure (id : RtxTimerId) : op unit :=
  match id with
  | T1Init => handshake_done (Some ErrHandshakeInitAck)
  | T1Cookie => handshake_done (Some ErrHandshakeCookieEcho)
  | _ => mret tt
  end.

(** The sleep of a timer's task is over (timer/rtx_timer.rs, timer/ack_timer.rs). *)
Definition rtx_timer_expires (id : RtxTimerId) : op unit :=
  s ← get;
  match timer id s ≫= RtxTimer.expire with
  | Some (Some _, t) => _ ← modify (set_timer id t); on_retransmission_timeout id
  | Some (None, t) => _ ← modify (set_timer id t); on_retransmission_failure id
  | None => mret tt
  end.

Definition ack_timer_expires : op unit :=
  s ← get;
  match ack_timer s ≫= AckTimer.expire with
  | Some t => _ ← assign ack_timer (Some t); on_ack_timeout
  | None => mret tt
  end.

(** ** What the application calls on its streams (stream/mod.rs) *)

Definition buffered_amount (s : AssociationInternal) : nat :=
  PendingQueue.get_num_bytes (pending_queue s) + PayloadQueue.get_num_bytes (inflight_queue s).

Definition send_payload_data (cs : list ChunkPayloadData) : op unit :=
  s ← get;
  if negb (bool_decide (ai_state s = Established)) then throw ErrPayloadDataStateNotExist
  else
    q ← run (PendingQueue.append cs (pending_queue s));
    match q with
    | Some q => _ ← assign pending_queue q; awake_write_loop
    | None => hang
    end.

(** [write_sctp] and [write_sctp_with_options] on the stream [h] of the store; a
    writer that finds too little room in the pending queue waits. *)
Definition write_sctp (now : Z) (h : nat) (p : bytes) (ppi : PayloadProtocolIdentifier)
    (options : option UdpSendOptions) : op nat :=
  s ← get;
  match store s !! h with
  | None => hang
  | Some st =>
      r ← run (Stream.prepare_write (ai_state s) (max_message_size s) p ppi options now (cells s) st);
      match r with
      | inl e => throw e
      | inr (cs, cells', st) =>
          _ ← assign cells cells';
          _ ← assign store (<[h := st]> (store s));
          _ ← send_payload_data cs;
          mret (length p)
      end
  end.

Definition read_sctp (h : nat) (size : nat) : op (option ReassemblyQueue.read_result) :=
  s ← get;
  match store s !! h with
  | None => hang
  | Some st =>
      '(r, st) ← run (Stream.read_sctp size st);
      _ ← assign store (<[h := st]> (store s));
      mret r
  end.

Definition shutdown_stream (now : Z) (h : nat) (how : Shutdown) : op unit :=
  s ← get;
  match store s !! h with
  | None => hang
  | Some st =>
      if read_shutdown st && write_shutdown st then mret tt
      else
        let st := if bool_decide (how = ShutdownWrite) || bool_decide (how = ShutdownBoth)
                  then st {{ write_shutdown := true }} else st in
        let st := if bool_decide (how = ShutdownRead) || bool_decide (how = ShutdownBoth)
                  then st {{ read_shutdown := true }} else st in
        _ ← assign store (<[h := st]> (store s));
        when (bool_decide (how = ShutdownBoth) || read_shutdown st && write_shutdown st)
          (send_reset_request now (s_identifier st))
  end.
End hash_map.
