(* ===== verification/AssociationLogic.v ===== *)
(** * Reasoning about operations of an association

    [post m s Q]: the operation [m] runs in state [s] to its end, without an error
    or a panic, and [Q] holds of its result and the new state.  The rules follow
    the way operations are composed. *)

From stdpp Require Import base list gmap.
From Stdlib Require Import ZArith Lia.
From S2P Require Import Prelude Net Fallible SctpWire Reassembly SctpQueues SctpTimers SctpStream Association.
Local Open Scope Z_scope.

Definition post {A} (m : op A) (s : AssociationInternal) (Q : A -> AssociationInternal -> Prop) : Prop :=
  match m s with Done a s' => Q a s' | _ => False end.

Section rules.
  Context {A B : Type}.

Lemma post_Done (m : op A) s Q : post m s Q <-> exists a s', m s = Done a s' /\ Q a s'.
Proof.
  unfold post. split.
  - destruct (m s) as [a s'|e s'|why|] eqn:Hm; try done. intros H. eauto.
  - by intros (a & s' & -> & ?).
Qed.

Lemma post_ret (a : A) s Q : Q a s -> post (mret a) s Q.
Proof. done. Qed.

Lemma post_bind (m : op A) (f : A -> op B) s Q :
  post m s (fun a s' => post (f a) s' Q) -> post (m ≫= f) s Q.
Proof. unfold post, mbind, op_bind. by destruct (m s). Qed.

Lemma post_get (f : AssociationInternal -> op B) s Q : post (f s) s Q -> post (get ≫= f) s Q.
Proof. done. Qed.

Lemma post_modify g (f : unit -> op B) s Q : post (f tt) (g s) Q -> post (modify g ≫= f) s Q.
Proof. done. Qed.

Lemma post_run (m : outcome A) (f : A -> op B) s Q a :
  m = Ret a -> post (f a) s Q -> post (run m ≫= f) s Q.
Proof. by intros ->. Qed.

Lemma post_mono (m : op A) s (P Q : A -> AssociationInternal -> Prop) :
  post m s P -> (forall a s', P a s' -> Q a s') -> post m s Q.
Proof. unfold post. destruct (m s); auto. Qed.

Lemma post_seq (m : op A) (f : A -> op B) s P Q :
  post m s P -> (forall a s', P a s' -> post (f a) s' Q) -> post (m ≫= f) s Q.
Proof. intros Hm Hf. apply post_bind. by eapply post_mono. Qed.

Lemma post_eq (m : op A) (f : A -> op B) s a s' Q :
  m s = Done a s' -> post (f a) s' Q -> post (m ≫= f) s Q.
Proof. intros Hm Hf. apply post_bind. unfold post. by rewrite Hm. Qed.
End rules.

Lemma post_u32 {B} z (f : Z -> op B) s Q : 0 <= z < 2 ^ 32 -> post (f z) s Q -> post (u32 z ≫= f) s Q.
Proof. intros Hz Hf. unfold u32. eapply post_run; [|exact Hf]. apply checked_u_Ret. exact Hz. Qed.

Lemma post_when_true {B} m (f : unit -> op B) s Q : post (m ≫= f) s Q -> post (when true m ≫= f) s Q.
Proof. done. Qed.
Lemma post_when_false {B} m (f : unit -> op B) s Q : post (f tt) s Q -> post (when false m ≫= f) s Q.
Proof. done. Qed.

(** ** Equations for the first step of an operation *)

Section equations.
  Context {A B : Type}.

Lemma bind_get (f : AssociationInternal -> op B) s : (get ≫= f) s = f s s.
Proof. done. Qed.
Lemma bind_modify g (f : unit -> op B) s : (modify g ≫= f) s = f tt (g s).
Proof. done. Qed.
Lemma bind_mret (a : A) (f : A -> op B) s : (mret a ≫= f) s = f a s.
Proof. done. Qed.
Lemma bind_run (m : outcome A) (f : A -> op B) s a : m = Ret a -> (run m ≫= f) s = f a s.
Proof. by intros ->. Qed.
Lemma bind_Done (m : op A) (f : A -> op B) s a s' : m s = Done a s' -> (m ≫= f) s = f a s'.
Proof. intros Hm. unfold mbind, op_bind. by rewrite Hm. Qed.
Lemma bind_assoc {C} (m : op A) (f : A -> op B) (g : B -> op C) s :
  ((m ≫= f) ≫= g) s = (m ≫= (fun a => f a ≫= g)) s.
Proof. unfold mbind, op_bind. by destruct (m s). Qed.
End equations.

Lemma bind_u32 {B} z (f : Z -> op B) s : 0 <= z < 2 ^ 32 -> (u32 z ≫= f) s = f z s.
Proof. intros Hz. unfold u32. apply bind_run. by apply checked_u_Ret. Qed.

(** Runs the steps that need no knowledge of the state. *)
Ltac op_step :=
  first
    [ rewrite bind_get | rewrite bind_modify | rewrite bind_mret
    | rewrite bind_assoc ]; cbv beta.
Ltac op_steps := repeat op_step.

(** Computes the fields of a state that is given by its constructor, and of the
    updates of it. *)
Ltac fields :=
  cbv beta iota delta
    [RecordSetters.apply_update RecordSetters.constant
      ai_state max_message_size will_send_shutdown awake peer_verification_tag my_verification_tag
      my_next_tsn peer_last_tsn min_tsn2measure_rtt will_send_forward_tsn will_retransmit_fast
      will_retransmit_reconfig will_send_shutdown_ack will_send_shutdown_complete my_next_rsn reconfigs
      reconfig_requests ai_source_port ai_destination_port my_max_num_inbound_streams
      my_max_num_outbound_streams my_cookie payload_queue inflight_queue pending_queue control_queue mtu
      ai_max_payload_size cumulative_tsn_ack_point advanced_peer_tsn_ack_point use_forward_tsn
      max_receive_buffer_size cwnd rwnd ssthresh partial_bytes_acked in_fast_recovery
      fast_recover_exit_point rto_mgr t1init t1cookie t2shutdown t3rtx treconfig ack_timer stored_init
      stored_cookie_echo ai_streams close_loop_open accept_ch handshake_completed delayed_ack_triggered
      immediate_ack_triggered stats ack_state ack_mode store cells].

(** ** Timers of the handshake *)

Lemma bind_stop_t1init {B} (f : unit -> op B) s :
  (stop_timer T1Init ≫= f) s = f tt (s {{ t1init := RtxTimer.stop <$> t1init s }}).
Proof. apply bind_Done. unfold stop_timer, modify. cbn [timer]. by destruct s, t1init. Qed.

Lemma bind_stop_t1cookie {B} (f : unit -> op B) s :
  (stop_timer T1Cookie ≫= f) s = f tt (s {{ t1cookie := RtxTimer.stop <$> t1cookie s }}).
Proof. apply bind_Done. unfold stop_timer, modify. cbn [timer]. by destruct s, t1cookie. Qed.

Lemma bind_start_t1cookie {B} (f : unit -> op B) s :
  (start_timer T1Cookie ≫= f) s
  = f tt (s {{ t1cookie := (fun t => (RtxTimer.start (RtoManager.get_rto (rto_mgr s)) t).2) <$> t1cookie s }}).
Proof. apply bind_Done. unfold start_timer, modify. cbn [timer]. by destruct s, t1cookie. Qed.

(** Runs an operation on a state given by its constructor. *)
Ltac op_run :=
  first [ op_step | rewrite bind_stop_t1init | rewrite bind_stop_t1cookie | rewrite bind_start_t1cookie ];
  fields.
Ltac op_runs := repeat op_run.
