(* ===== verification/AssociationRecv.v ===== *)
(** * The receiving side of an association

    What an association has received is a set of TSNs.  The invariant relates it
    to the cumulative TSN and the payload queue; every DATA chunk, in any order and
    repeated, adds its TSN, is handed to its stream the first time only, and the
    SACK that follows reports exactly the set. *)

From stdpp Require Import base list gmap sorting.
From Stdlib Require Import ZArith Lia.
From S2P Require Import Prelude Net Fallible SctpWire Reassembly SctpQueues SctpTimers SctpStream.
From S2P Require Import Association AssociationLogic.
Local Open Scope Z_scope.

(** ** The cumulative TSN *)

Lemma pq_set_id s : s {{ payload_queue := payload_queue s }} = s.
Proof. by destruct s. Qed.

Lemma recv_set_collapse s q q' p p' :
  s {{ payload_queue := q }} {{ peer_last_tsn := p }} {{ payload_queue := q' }} {{ peer_last_tsn := p' }}
  = s {{ payload_queue := q' }} {{ peer_last_tsn := p' }}.
Proof. by destruct s. Qed.

Lemma seqZ_S a n : seqZ a (Z.of_nat (S n)) = a :: seqZ (a + 1) (Z.of_nat n).
Proof. rewrite seqZ_cons by lia. f_equal. f_equal; lia. Qed.

Lemma pop_absent l q t :
  holds l q -> head l <> Some t -> is_u 32 t -> Forall (is_u 32) l ->
  PayloadQueue.pop t q = Ret (None, q).
Proof.
  intros Hq Ht Hu Hl. unfold PayloadQueue.pop. rewrite (holds_sorted l q Hq).
  destruct l as [|x l]; [done|]. apply Forall_cons in Hl as [Hx _]. cbn [map].
  rewrite (as_u_small 32 x) by done. destruct (Z.eqb_spec x t) as [->|]; done.
Qed.

Lemma head_is_least l x p :
  StronglySorted Z.lt l -> Forall (fun y => p < y < x) l -> head l <> Some (p + 1) -> p + 1 ∉ l.
Proof.
  intros Hs Hl Hh. destruct l as [|y l]; [set_solver|]. cbn in Hh.
  apply StronglySorted_inv in Hs as [_ Hs]. apply Forall_cons in Hl as [Hy _].
  assert (y <> p + 1) by (by intros ->). apply not_elem_of_cons. split; [lia|]. intros Hin.
  apply (proj1 (Forall_forall _ _) Hs) in Hin. lia.
Qed.

Section receiver.
  Context (iter : forall A, gmap Z A -> list (Z * A)).

Lemma advance_stops fuel reply s l :
  holds l (payload_queue s) -> 0 <= peer_last_tsn s < 2 ^ 32 - 1 ->
  Forall (fun x => peer_last_tsn s < x < 2 ^ 32 - 1) l -> head l <> Some (peer_last_tsn s + 1) ->
  advance_peer_last_tsn iter fuel reply s = Done reply s.
Proof.
  intros Hq Hp Hl Hh. destruct fuel; cbn [advance_peer_last_tsn]; op_step; rewrite bind_u32 by lia;
    (rewrite (bind_run _ _ _ (None, payload_queue s));
      [by op_steps; rewrite pq_set_id|]);
    (apply (pop_absent l); [done|done|unfold is_u; lia|]; eapply Forall_impl; [exact Hl|]; unfold is_u; cbn; lia).
Qed.

  Context (iter_all : forall A (m : gmap Z A), iter A m ≡ₚ map_to_list m).

Lemma iter_empty A : iter A ∅ = [].
Proof using iter_all. apply Permutation_nil. by rewrite iter_all, map_to_list_empty. Qed.

Lemma advance_spec fuel reply s l :
  holds l (payload_queue s) -> 0 <= peer_last_tsn s < 2 ^ 32 - 1 ->
  Forall (fun x => peer_last_tsn s < x < 2 ^ 32 - 1) l -> reconfig_requests s = ∅ ->
  (length l <= fuel)%nat ->
  exists n q,
    advance_peer_last_tsn iter fuel reply s
      = Done reply (s {{ payload_queue := q }} {{ peer_last_tsn := peer_last_tsn s + Z.of_nat n }})
    /\ l = seqZ (peer_last_tsn s + 1) (Z.of_nat n) ++ drop n l
    /\ holds (drop n l) q /\ dup_tsn q = dup_tsn (payload_queue s)
    /\ (peer_last_tsn s + Z.of_nat n + 1) ∉ drop n l.
Proof using iter_all.
  revert reply s l. induction fuel as [|fuel IH]; intros reply s l Hq Hp Hl Hr Hf;
    (destruct (decide (head l = Some (peer_last_tsn s + 1))) as [Hh|Hh];
      [destruct l as [|x l]; [done|injection Hh as ->]|]).
  1: simpl in Hf; lia.
  1, 3: exists 0%nat, (payload_queue s); rewrite (advance_stops _ _ _ l) by done;
    change (Z.of_nat 0) with 0; rewrite Z.add_0_r; split_and!; try done; [by destruct s|];
    by eapply head_is_least; [apply (holds_increasing _ _ Hq)|exact Hl|].
  apply Forall_cons in Hl as [Hx Hl].
  destruct (pop_front_holds _ _ _ Hq) as (c & q & Hpop & _ & _ & Hdup & Hq').
  rewrite as_u_small in Hpop by (unfold is_u; lia).
  cbn [advance_peer_last_tsn]. op_step. rewrite bind_u32 by lia. rewrite (bind_run _ _ _ _ Hpop).
  op_steps. set (s1 := s {{ payload_queue := q }} {{ peer_last_tsn := peer_last_tsn s + 1 }}).
  change (reconfig_requests s1) with (reconfig_requests s). rewrite Hr, iter_empty. cbn [map reset_requests].
  op_steps. pose proof (StronglySorted_inv (holds_increasing _ _ Hq)) as [_ Hs].
  destruct (IH reply s1 l) as (n & q' & -> & Hl' & Hq2 & Hd2 & Hn); try done.
  - change (peer_last_tsn s1) with (peer_last_tsn s + 1). lia.
  - change (peer_last_tsn s1) with (peer_last_tsn s + 1).
    apply Forall_forall. intros y Hy. pose proof (proj1 (Forall_forall _ _) Hs y Hy).
    pose proof (proj1 (Forall_forall _ _) Hl y Hy). cbn in *. lia.
  - simpl in Hf. lia.
  - change (peer_last_tsn s1) with (peer_last_tsn s + 1) in *.
    exists (S n), q'. unfold s1. rewrite recv_set_collapse.
    replace (peer_last_tsn s + Z.of_nat (S n)) with (peer_last_tsn s + 1 + Z.of_nat n) by lia.
    split_and!; [done| |done|by rewrite Hd2|done].
    rewrite seqZ_S. cbn [drop app]. by f_equal.
Qed.

(** ** Acknowledgement *)

(** The chunks that [l] makes available, and which kind of acknowledgement follows. *)
Lemma acknowledgement_spec sack_immediately s l :
  holds l (payload_queue s) -> 0 <= peer_last_tsn s < 2 ^ 32 - 1 ->
  Forall (fun x => peer_last_tsn s < x < 2 ^ 32 - 1) l -> reconfig_requests s = ∅ ->
  exists n q d i,
    handle_peer_last_tsn_and_acknowledgement iter sack_immediately s
      = Done [] (s {{ payload_queue := q }} {{ peer_last_tsn := peer_last_tsn s + Z.of_nat n }}
                   {{ delayed_ack_triggered := d }} {{ immediate_ack_triggered := i }})
    /\ l = seqZ (peer_last_tsn s + 1) (Z.of_nat n) ++ drop n l
    /\ holds (drop n l) q /\ dup_tsn q = dup_tsn (payload_queue s)
    /\ ((peer_last_tsn s + Z.of_nat n + 1) ∉ drop n l)
    /\ d || i = true
    /\ (ack_mode s = Normal -> drop n l <> [] \/ ack_state s <> Idle \/ sack_immediately = true -> i = true).
Proof using iter_all.
  intros Hq Hp Hl Hr. unfold handle_peer_last_tsn_and_acknowledgement. op_step.
  destruct (advance_spec (length (sorted (payload_queue s))) [] s l) as (n & q & Hadv & H1 & H2 & H3 & H4);
    try done.
  { rewrite (holds_sorted _ _ Hq). by rewrite length_map. }
  rewrite (bind_Done _ _ _ _ _ Hadv). op_step.
  set (s1 := s {{ payload_queue := q }} {{ peer_last_tsn := peer_last_tsn s + Z.of_nat n }}).
  change (payload_queue s1) with q. rewrite (bind_run _ _ _ _ (is_empty_holds _ _ H2)). op_steps.
  change (ack_state s1) with (ack_state s). change (ack_mode s1) with (ack_mode s).
  destruct (negb (bool_decide (ack_state s = Immediate)) && negb sack_immediately
            && negb (negb (length (drop n l) =? 0)%nat) && bool_decide (ack_mode s = Normal)
            || bool_decide (ack_mode s = AlwaysDelay)) eqn:Hd;
    [destruct (bool_decide (ack_state s = Idle)) eqn:Hi|].
  - exists n, q, true, (immediate_ack_triggered s). split_and!; try done.
    intros Hm Hor. rewrite Hm in Hd. apply bool_decide_eq_true in Hi.
    destruct sack_immediately, (drop n l); destruct (bool_decide (ack_state s = Immediate)); try done.
    by destruct Hor as [Hor|[Hor|Hor]].

  - exists n, q, (delayed_ack_triggered s), true. split_and!; try done. apply orb_true_r.
  - exists n, q, (delayed_ack_triggered s), true. split_and!; try done. apply orb_true_r.
Qed.

(** ** The receive window *)

Definition queued_bytes (s : AssociationInternal) : Z :=
  foldr Z.add 0 (map (fun e => stream_bytes s e.1) (map_to_list (ai_streams s))).

Lemma stream_bytes_nonneg s si : 0 <= stream_bytes s si.
Proof using Type. unfold stream_bytes. destruct (find_stream si s); lia. Qed.

Lemma sum_u32_spec l acc s :
  Forall (Z.le 0) l -> 0 <= acc -> acc + foldr Z.add 0 l < 2 ^ 32 ->
  sum_u32 l acc s = Done (acc + foldr Z.add 0 l) s.
Proof using Type.
  intros Hl. revert acc. induction Hl as [|n l Hn Hl IH]; intros acc Ha Hs; cbn [sum_u32 foldr] in *.
  - unfold mret, op_ret. f_equal. lia.
  - assert (0 <= foldr Z.add 0 l) by (clear -Hl; induction Hl; cbn; lia).
    rewrite as_u_small by (unfold is_u; lia). rewrite bind_u32 by lia. rewrite IH by lia. f_equal. lia.
Qed.

Lemma foldr_add_perm l l' : l ≡ₚ l' -> foldr Z.add 0 l = foldr Z.add 0 l'.
Proof using Type. induction 1; cbn; lia. Qed.

Lemma credit_spec s :
  queued_bytes s < 2 ^ 32 ->
  get_my_receiver_window_credit iter s = Done (Z.max 0 (max_receive_buffer_size s - queued_bytes s)) s.
Proof using iter_all.
  intros Hb. unfold get_my_receiver_window_credit. op_step.
  assert (foldr Z.add 0 (map (fun e => stream_bytes s e.1) (iter nat (ai_streams s))) = queued_bytes s) as Hsum.
  { apply foldr_add_perm. by rewrite iter_all. }
  rewrite (bind_Done _ _ _ (queued_bytes s) s); [done|].
  rewrite sum_u32_spec; rewrite ?Hsum; try done. apply Forall_fmap, Forall_true. intros e.
  apply stream_bytes_nonneg.
Qed.

(** ** DATA chunks *)

Definition deliver (h : nat) (st : Stream) (s : AssociationInternal) : AssociationInternal :=
  s {{ store := <[h := st]> (store s) }}.

Lemma alter_const {A} (x : A) (n : nat) (l : list A) : alter (fun _ => x) n l = <[n := x]> l.
Proof using Type. revert n. induction l as [|y l IH]; intros [|n]; cbn; try done. by f_equal. Qed.

Lemma call_stream_spec si h st st' f s :
  ai_streams s !! si = Some h -> store s !! h = Some st -> f st = Ret st' ->
  call_stream si f s = Done tt (deliver h st' s).
Proof using Type.
  intros Hsi Hh Hf. unfold call_stream. op_step. unfold find_stream. rewrite Hsi. cbn [mbind option_bind].
  rewrite Hh, (bind_run _ _ _ _ Hf). unfold update_stream, modify, deliver. rewrite Hsi.
  by rewrite alter_const.
Qed.

(** Whether a chunk is taken: its TSN is new, and there is room or it fills a gap. *)
Definition takes (s : AssociationInternal) (l : list Z) (x : Z) : bool :=
  bool_decide (x ∉ l) && (peer_last_tsn s <? x)
  && ((queued_bytes s <? max_receive_buffer_size s)
      || match last l with Some y => x <? y | None => false end).

(** The table of streams knows the stream, which can take the chunk. *)
Record takes_data (s : AssociationInternal) (d : ChunkPayloadData) (h : nat) (st st' : Stream) : Prop := {
  td_table : ai_streams s !! stream_identifier d = Some h;
  td_store : store s !! h = Some st;
  td_handle : Stream.handle_data d st = Ret st' }.

Lemma last_received l q : holds l q -> PayloadQueue.get_last_tsn_received q = as_u 32 <$> last l.
Proof using Type.
  intros Hq. unfold PayloadQueue.get_last_tsn_received. rewrite (holds_sorted _ _ Hq). apply fmap_last.
Qed.

Definition after_data (s : AssociationInternal) (taken : bool) (h : nat) (st' : Stream)
    (q : PayloadQueue) (p : Z) (dl im : bool) : AssociationInternal :=
  s {{ stats := AssociationStats.inc_datas (stats s) }}
    {{ store := if taken then <[h := st']> (store s) else store s }}
    {{ payload_queue := q }} {{ peer_last_tsn := p }}
    {{ delayed_ack_triggered := dl }} {{ immediate_ack_triggered := im }}.

(** The first half of [handle_data]: the chunk goes to the payload queue and its
    stream, or is left out. *)
Lemma take_data s l d x h st st' {B} (k : option bool -> op B) :
  holds l (payload_queue s) -> 0 <= peer_last_tsn s < 2 ^ 32 - 1 ->
  Forall (fun x => peer_last_tsn s < x < 2 ^ 32 - 1) l ->
  tsn d = x -> 0 <= x < 2 ^ 32 - 1 -> Z.abs (x - peer_last_tsn s) < 2 ^ 31 ->
  (forall y, y ∈ l -> Z.abs (x - y) < 2 ^ 31) -> takes_data s d h st st' -> queued_bytes s < 2 ^ 32 ->
  let push := assign payload_queue (PayloadQueue.push d (peer_last_tsn s) (payload_queue s)).2 in
  ((if PayloadQueue.can_push d (peer_last_tsn s) (payload_queue s) then
       st ← get_or_create_stream (stream_identifier d);
       match st with
       | Some _ =>
           credit ← get_my_receiver_window_credit iter;
           if credit >? 0 then _ ← push; mret (Some true)
           else
             match PayloadQueue.get_last_tsn_received (payload_queue s) with
             | Some last_tsn =>
                 if sna32lt (tsn d) last_tsn then _ ← push; mret (Some true) else mret (Some false)
             | None => mret (Some false)
             end
       | None => mret None
       end
     else mret (Some false)) ≫= k) s
  = k (Some (takes s l x))
      (if takes s l x then s {{ payload_queue := (PayloadQueue.push d (peer_last_tsn s) (payload_queue s)).2 }}
       else s).
Proof using iter_all.
  intros Hq Hp Hl Hx Hx0 Hxp Hxl Htd Hb push. unfold takes.
  assert (is_u 32 (peer_last_tsn s)) as Hpu by (unfold is_u; lia).
  destruct (push_holds l (payload_queue s) d x (peer_last_tsn s)) as (Hcan & _ & _); try done.
  { rewrite as_u_small; [done|unfold is_u; lia]. }
  rewrite as_u_small in Hcan by done. rewrite Hcan.
  destruct (bool_decide (x ∉ l) && (peer_last_tsn s <? x)) eqn:Hfresh; cbn [andb]; [|done].
  unfold get_or_create_stream. op_steps. rewrite (td_table _ _ _ _ _ Htd). op_steps.
  rewrite (bind_Done _ _ _ _ _ (credit_spec s Hb)).
  destruct (Z.ltb_spec (queued_bytes s) (max_receive_buffer_size s)) as [Hc|Hc]; cbn [orb].
  - rewrite (proj2 (Z.gtb_lt _ _)) by lia. by unfold push; op_steps.
  - replace (Z.max 0 (max_receive_buffer_size s - queued_bytes s) >? 0) with false
      by (symmetry; rewrite Z.gtb_ltb; apply Z.ltb_ge; lia).
    rewrite (last_received l) by done. destruct (last l) as [y|] eqn:Hy; cbn [fmap option_fmap option_map].
    + rewrite <-(as_u_small 32 (tsn d)) by (unfold is_u; lia). rewrite Hx, sna32lt_window.
      * destruct (x <? y); unfold push; by op_steps.
      * apply Hxl. rewrite last_lookup in Hy. by apply list_elem_of_lookup_2 in Hy.
    + by op_steps.
Qed.

Lemma handle_data_spec s l d x h st st' :
  holds l (payload_queue s) -> 0 <= peer_last_tsn s < 2 ^ 32 - 1 ->
  Forall (fun x => peer_last_tsn s < x < 2 ^ 32 - 1) l -> reconfig_requests s = ∅ ->
  tsn d = x -> 0 <= x < 2 ^ 32 - 1 -> Z.abs (x - peer_last_tsn s) < 2 ^ 31 ->
  (forall y, y ∈ l -> Z.abs (x - y) < 2 ^ 31) -> takes_data s d h st st' -> queued_bytes s < 2 ^ 32 ->
  let l1 := if takes s l x then insert_abs x l else l in
  exists n q dl im,
    handle_data iter d s
      = Done [] (after_data s (takes s l x) h st' q (peer_last_tsn s + Z.of_nat n) dl im)
    /\ l1 = seqZ (peer_last_tsn s + 1) (Z.of_nat n) ++ drop n l1
    /\ holds (drop n l1) q
    /\ ((peer_last_tsn s + Z.of_nat n + 1) ∉ drop n l1)
    /\ dl || im = true
    /\ (ack_mode s = Normal ->
        drop n l1 <> [] \/ ack_state s <> Idle \/ immediate_sack d = true -> im = true).
Proof using iter_all.
  intros Hq Hp Hl Hr Hx Hx0 Hxp Hxl Htd Hb l1. unfold handle_data. op_steps.
  set (s1 := s {{ stats := AssociationStats.inc_datas (stats s) }}).
  rewrite (take_data s1 l d x h st st') by (done || by destruct Htd).
  change (takes s1 l x) with (takes s l x). cbv iota.
  destruct (takes s l x) eqn:Htk; cbn [when].
  - set (s2 := s1 {{ payload_queue := _ }}).
    rewrite (bind_Done _ _ _ _ _ (call_stream_spec (stream_identifier d) h st st' _ s2
      (td_table _ _ _ _ _ Htd) (td_store _ _ _ _ _ Htd) (td_handle _ _ _ _ _ Htd))).
    set (s3 := deliver h st' s2). unfold takes in Htk. apply andb_true_iff in Htk as [Hfresh _].
    assert (holds l1 (payload_queue s3)) as Hq3.
    { destruct (push_holds l (payload_queue s) d x (peer_last_tsn s)) as (_ & _ & H); try done.
      { rewrite as_u_small; [done|unfold is_u; lia]. }
      rewrite Hfresh, as_u_small in H by (unfold is_u; lia). exact H. }
    destruct (acknowledgement_spec (immediate_sack d) s3 l1) as (n & q & dl & im & -> & H1 & H2 & H3 & H4 & H5 & H6);
      [done|done| |done|].
    { apply Forall_forall. intros y [->|Hy]%elem_of_insert_abs.
      - apply andb_true_iff in Hfresh as [_ Hlt%Z.ltb_lt]. split; [exact Hlt|lia].
      - by apply (proj1 (Forall_forall _ _) Hl). }
    exists n, q, dl, im. split_and!; try done. 
  - op_steps.
    destruct (acknowledgement_spec (immediate_sack d) s1 l) as (n & q & dl & im & -> & H1 & H2 & H3 & H4 & H5 & H6);
      [done..|].
    exists n, q, dl, im. by split_and!.
Qed.
End receiver.
