(* ===== verification/Transfer.v ===== *)
(** * The receiving association as a whole

    A transfer is the messages of the streams and the order in which their parts
    have TSNs.  Whatever the network does with the chunks of a transfer, the
    receiving association (its payload queue, streams and reassembly queues)
    acknowledges exactly what it has received and delivers what it has
    acknowledged, in order. *)

From stdpp Require Import base list gmap sorting.
From Stdlib Require Import ZArith Lia.
From S2P Require Import Prelude Net Fallible SctpWire Reassembly SctpQueues SctpTimers SctpStream.
From S2P Require Import Association AssociationLogic AssociationRecv.
Local Open Scope Z_scope.

(** ** Transfers *)

(** [tr_flow !! j = Some (si, k, i)]: the TSN [tr_base + j] is that of part [i] of
    message [k] of stream [si]. *)
Record transfer := mkTransfer {
  tr_base : Z;
  tr_sent : Z -> list message;
  tr_flow : list (Z * nat * nat) }.

Definition part_size (tr : transfer) (e : Z * nat * nat) : Z :=
  let '(si, k, i) := e in
  match tr_sent tr si !! k with
  | Some m => Z.of_nat (length (default [] (m_parts m !! i)))
  | None => 0
  end.

(** The bytes of the parts whose TSNs, counted from [t], are in a set. *)
Fixpoint bytes_in (tr : transfer) (t : Z) (es : list (Z * nat * nat)) (R : gset Z) : Z :=
  match es with
  | [] => 0
  | e :: es => (if decide (t ∈ R) then part_size tr e else 0) + bytes_in tr (t + 1) es R
  end.

Definition total_bytes (tr : transfer) : Z := foldr Z.add 0 (map (part_size tr) (tr_flow tr)).

Definition tr_end (tr : transfer) : Z := tr_base tr + Z.of_nat (length (tr_flow tr)).

Record wf_transfer (tr : transfer) : Prop := mkWfTransfer {
  wt_base : 1 <= tr_base tr;
  wt_end : tr_end tr < 2 ^ 32 - 1;
  wt_length : (Z.of_nat (length (tr_flow tr)) <= 65535);
  wt_messages : forall si, Forall wf_message (tr_sent tr si);
  wt_count : forall si, Z.of_nat (length (tr_sent tr si)) < 2 ^ 15;
  wt_flow : forall j si k i, tr_flow tr !! j = Some (si, k, i) ->
    exists m, tr_sent tr si !! k = Some m /\ (i < length (m_parts m))%nat
      /\ m_tsn m + Z.of_nat i = tr_base tr + Z.of_nat j;
  wt_parts : forall si k m i, tr_sent tr si !! k = Some m -> (i < length (m_parts m))%nat ->
    exists j, tr_flow tr !! j = Some (si, k, i);
  wt_bytes : total_bytes tr < 2 ^ 32 }.

(** [d] carries what the transfer has at its TSN. *)
Definition carries (tr : transfer) (d : ChunkPayloadData) : Prop :=
  exists j si k i m, tr_flow tr !! j = Some (si, k, i) /\ tr_sent tr si !! k = Some m
    /\ is_fragment si k m i d.

Lemma part_size_nonneg tr e : 0 <= part_size tr e.
Proof. destruct e as [[si k] i]. unfold part_size. destruct (tr_sent tr si !! k); lia. Qed.

Lemma bytes_in_bounds tr t es R : 0 <= bytes_in tr t es R <= foldr Z.add 0 (map (part_size tr) es).
Proof.
  revert t. induction es as [|e es IH]; intros t; cbn [bytes_in map foldr]; [lia|].
  pose proof (part_size_nonneg tr e). specialize (IH (t + 1)). case_decide; lia.
Qed.

Lemma bytes_in_fresh tr t es R x :
  x < t -> bytes_in tr t es ({[x]} ∪ R) = bytes_in tr t es R.
Proof.
  revert t. induction es as [|e es IH]; intros t Hx; cbn [bytes_in]; [done|]. rewrite IH by lia. f_equal.
  assert (t ∈ {[x]} ∪ R <-> t ∈ R) as Hiff by (rewrite elem_of_union, elem_of_singleton; split; [intros [?|?]; [lia|done]|auto]).
  by apply decide_ext.
Qed.

Lemma bytes_in_insert tr t es R j e :
  es !! j = Some e -> (t + Z.of_nat j) ∉ R ->
  bytes_in tr t es ({[t + Z.of_nat j]} ∪ R) = bytes_in tr t es R + part_size tr e.
Proof.
  revert t j. induction es as [|e' es IH]; intros t [|j] Hj Hx; try done; cbn [bytes_in].
  - injection Hj as ->. change (Z.of_nat 0) with 0 in *. rewrite Z.add_0_r in *.
    rewrite decide_True by set_solver. rewrite decide_False by done. rewrite bytes_in_fresh by lia. lia.
  - replace (t + Z.of_nat (S j)) with (t + 1 + Z.of_nat j) in * by lia.
    rewrite (IH (t + 1) j) by done.
    assert (t ∈ {[t + 1 + Z.of_nat j]} ∪ R <-> t ∈ R) as Hiff
      by (rewrite elem_of_union, elem_of_singleton; split; [intros [?|?]; [lia|done]|auto]).
    rewrite (decide_ext _ _ _ _ Hiff). lia.
Qed.

(** ** The bytes that wait in the streams *)

Lemma stream_bytes_other s h st' si :
  ai_streams s !! si <> Some h -> stream_bytes (deliver h st' s) si = stream_bytes s si.
Proof.
  intros Hh. unfold stream_bytes, find_stream. change (ai_streams (deliver h st' s)) with (ai_streams s).
  destruct (ai_streams s !! si) as [h'|]; [|done]. cbn [mbind option_bind].
  change (store (deliver h st' s)) with (<[h := st']> (store s)).
  rewrite list_lookup_insert_ne; [done|]. congruence.
Qed.

Lemma stream_bytes_same s h st si :
  ai_streams s !! si = Some h -> store s !! h = Some st ->
  stream_bytes s si = Z.of_nat (Stream.get_num_bytes_in_reassembly_queue st).
Proof. intros Hsi Hh. unfold stream_bytes, find_stream. rewrite Hsi. cbn [mbind option_bind]. by rewrite Hh. Qed.

Lemma queued_bytes_split s si h :
  ai_streams s !! si = Some h ->
  queued_bytes s
  = stream_bytes s si
    + foldr Z.add 0 (map (fun e => stream_bytes s e.1) (map_to_list (delete si (ai_streams s)))).
Proof.
  intros Hsi. unfold queued_bytes.
  assert (map_to_list (ai_streams s) ≡ₚ (si, h) :: map_to_list (delete si (ai_streams s))) as Hp.
  { rewrite <-map_to_list_insert by apply lookup_delete_eq. by rewrite insert_delete_id. }
  rewrite (foldr_add_perm _ _ (Permutation_map _ Hp)). done.
Qed.

Lemma queued_bytes_deliver s si h st st' :
  ai_streams s !! si = Some h -> store s !! h = Some st ->
  (forall si', ai_streams s !! si' = Some h -> si' = si) ->
  queued_bytes (deliver h st' s)
  = queued_bytes s - Z.of_nat (Stream.get_num_bytes_in_reassembly_queue st)
    + Z.of_nat (Stream.get_num_bytes_in_reassembly_queue st').
Proof.
  intros Hsi Hh Hinj. rewrite (queued_bytes_split s si h), (queued_bytes_split (deliver h st' s) si h) by done.
  rewrite (stream_bytes_same s h st), (stream_bytes_same (deliver h st' s) h st'); try done.
  2: { change (store (deliver h st' s)) with (<[h := st']> (store s)).
       apply list_lookup_insert_eq. by apply lookup_lt_Some in Hh. }
  change (ai_streams (deliver h st' s)) with (ai_streams s).
  rewrite (map_ext_in (fun e => stream_bytes (deliver h st' s) e.1) (fun e => stream_bytes s e.1)); [lia|].
  intros [si' h'] Hin. apply list_elem_of_In, elem_of_map_to_list, lookup_delete_Some in Hin as [Hne Hin].
  apply stream_bytes_other. cbn [fst]. intros Heq. by apply Hinj in Heq.
Qed.

(** ** Invariant of the receiver *)

Section receiver.
  Context (tr : transfer) (tr_wf : wf_transfer tr).

(** [R] is the set of TSNs that were taken; [D] is what the streams have of their
    messages. *)
Record receives (s : AssociationInternal) (R : gset Z) (D : Z -> delivery) : Prop := mkReceives {
  rc_last : tr_base tr - 1 <= peer_last_tsn s < tr_end tr;
  rc_queue : exists l, holds l (payload_queue s)
    /\ Forall (fun x => peer_last_tsn s + 1 < x < tr_end tr) l
    /\ (forall x, x ∈ R <-> tr_base tr <= x <= peer_last_tsn s \/ x ∈ l);
  rc_streams : forall si, tr_sent tr si <> [] ->
    exists h st, ai_streams s !! si = Some h /\ store s !! h = Some st
      /\ read_shutdown st = false /\ implements si (tr_sent tr si) (D si) (reassembly_queue st);
  rc_handles : forall si si' h, ai_streams s !! si = Some h -> ai_streams s !! si' = Some h -> si = si';
  rc_seen : forall si k i m, tr_sent tr si !! k = Some m -> (i < length (m_parts m))%nat ->
    (k, i) ∈ seen (D si) <-> m_tsn m + Z.of_nat i ∈ R;
  rc_next : forall si, (next_msg (D si) <= length (tr_sent tr si))%nat;
  rc_bytes : queued_bytes s <= bytes_in tr (tr_base tr) (tr_flow tr) R;
  rc_requests : reconfig_requests s = ∅ }.

Lemma stream_takes si k m i d st D :
  tr_sent tr si !! k = Some m -> is_fragment si k m i d ->
  implements si (tr_sent tr si) D (reassembly_queue st) -> (next_msg D <= length (tr_sent tr si))%nat ->
  exists st', Stream.handle_data d st = Ret st'
    /\ implements si (tr_sent tr si) (spec_arrive k i D) (reassembly_queue st')
    /\ read_shutdown st' = read_shutdown st
    /\ (Stream.get_num_bytes_in_reassembly_queue st'
          <= Stream.get_num_bytes_in_reassembly_queue st + length (user_data d))%nat.
Proof using tr_wf.
  intros Hm Hd Hst Hn. pose proof (lookup_lt_Some _ _ _ Hm). pose proof (wt_count tr tr_wf si).
  destruct (push_refines si (tr_sent tr si) (wt_messages tr tr_wf si) D (reassembly_queue st) k m i d)
    as (ok & q & Hpush & Hq); try done; [lia|].
  unfold Stream.handle_data. rewrite Hpush. cbn [mbind outcome_bind].
  destruct (readable_refines si (tr_sent tr si) (wt_messages tr tr_wf si) _ q Hq) as [b Hb].
  assert (exists b, (if ok then ReassemblyQueue.is_readable q else Ret false) = Ret b) as [b' ->]
    by (destruct ok; eauto).
  pose proof (push_bytes _ _ _ _ (frag_ordered _ _ _ _ _ Hd) Hpush) as Hbytes.
  cbn [mbind outcome_bind]. eexists. split; [reflexivity|].
  unfold Stream.notify, Stream.get_num_bytes_in_reassembly_queue, ReassemblyQueue.get_num_bytes.
  destruct b'; destruct st; cbn in *; done.
Qed.

Lemma carries_tsn d j si k i m :
  tr_flow tr !! j = Some (si, k, i) -> tr_sent tr si !! k = Some m -> is_fragment si k m i d ->
  tsn d = tr_base tr + Z.of_nat j /\ tr_base tr <= tsn d < tr_end tr.
Proof using tr_wf.
  intros Hj Hm Hd. destruct (wt_flow tr tr_wf j si k i Hj) as (m' & Hm' & _ & Ht). simplify_eq.
  rewrite (frag_tsn _ _ _ _ _ Hd). apply lookup_lt_Some in Hj. unfold tr_end. lia.
Qed.

(** A TSN belongs to one part only. *)
Lemma part_tsn_inj si k i m si' k' i' m' :
  tr_sent tr si !! k = Some m -> (i < length (m_parts m))%nat ->
  tr_sent tr si' !! k' = Some m' -> (i' < length (m_parts m'))%nat ->
  m_tsn m + Z.of_nat i = m_tsn m' + Z.of_nat i' -> (si, k, i) = (si', k', i').
Proof using tr_wf.
  intros Hm Hi Hm' Hi' Ht.
  destruct (wt_parts tr tr_wf si k m i Hm Hi) as [j Hj]. destruct (wt_parts tr tr_wf si' k' m' i' Hm' Hi') as [j' Hj'].
  destruct (wt_flow tr tr_wf _ _ _ _ Hj) as (m1 & Hm1 & _ & Ht1).
  destruct (wt_flow tr tr_wf _ _ _ _ Hj') as (m2 & Hm2 & _ & Ht2). simplify_eq.
  assert (j = j') by lia. congruence.
Qed.

(** The rest of a sorted list after a run of successors. *)
Lemma rest_above p n l :
  StronglySorted Z.lt l -> Forall (Z.lt p) l -> l = seqZ (p + 1) (Z.of_nat n) ++ drop n l ->
  (p + Z.of_nat n + 1) ∉ drop n l -> Forall (Z.lt (p + Z.of_nat n + 1)) (drop n l).
Proof using Type.
  intros Hs Hp Hl Hn. apply Forall_forall. intros y Hy.
  assert (y <> p + Z.of_nat n + 1) by congruence.
  assert (p + Z.of_nat n < y); [|lia]. destruct n as [|n].
  - rewrite drop_0 in Hy. apply (proj1 (Forall_forall _ _) Hp) in Hy. lia.
  - rewrite Hl in Hs. apply StronglySorted_app in Hs as (Hlt & _ & _).
    apply (Hlt (p + Z.of_nat (S n)) y); [|done]. apply elem_of_seqZ. lia.
Qed.

Definition arrived (D : Z -> delivery) (si : Z) (k i : nat) : Z -> delivery :=
  fun si' => if decide (si' = si) then spec_arrive k i (D si) else D si'.

Lemma receives_window s R D :
  receives s R D -> 0 <= peer_last_tsn s < 2 ^ 32 - 1 /\ queued_bytes s < 2 ^ 32.
Proof using tr_wf.
  intros Hs. pose proof (rc_last _ _ _ Hs). pose proof (wt_base tr tr_wf). pose proof (wt_end tr tr_wf).
  pose proof (rc_bytes _ _ _ Hs). pose proof (wt_bytes tr tr_wf).
  pose proof (bytes_in_bounds tr (tr_base tr) (tr_flow tr) R). unfold total_bytes in *. lia.
Qed.

(** A chunk that was not taken changes nothing. *)
Lemma receives_not_taken s R D h st' q p dl im l :
  receives s R D -> holds l q -> p = peer_last_tsn s ->
  Forall (fun x => peer_last_tsn s + 1 < x < tr_end tr) l ->
  (forall x, x ∈ R <-> tr_base tr <= x <= peer_last_tsn s \/ x ∈ l) ->
  receives (after_data s false h st' q p dl im) R D.
Proof using Type.
  intros [H1 H2 H3 H4 H5 H6 H7 H8] Hq -> Hl HR. split; try done. by exists l.
Qed.

(** A chunk that was taken. *)
Lemma receives_taken s R D j si k i m d h st st' q n dl im l1 :
  receives s R D -> tr_flow tr !! j = Some (si, k, i) -> tr_sent tr si !! k = Some m ->
  is_fragment si k m i d -> tsn d ∉ R ->
  ai_streams s !! si = Some h -> store s !! h = Some st -> read_shutdown st' = false ->
  implements si (tr_sent tr si) (spec_arrive k i (D si)) (reassembly_queue st') ->
  (Stream.get_num_bytes_in_reassembly_queue st'
     <= Stream.get_num_bytes_in_reassembly_queue st + length (user_data d))%nat ->
  StronglySorted Z.lt l1 -> Forall (fun x => peer_last_tsn s < x < tr_end tr) l1 ->
  (forall x, x ∈ {[tsn d]} ∪ R <-> tr_base tr <= x <= peer_last_tsn s \/ x ∈ l1) ->
  l1 = seqZ (peer_last_tsn s + 1) (Z.of_nat n) ++ drop n l1 -> holds (drop n l1) q ->
  (peer_last_tsn s + Z.of_nat n + 1) ∉ drop n l1 ->
  receives (after_data s true h st' q (peer_last_tsn s + Z.of_nat n) dl im) ({[tsn d]} ∪ R) (arrived D si k i).
Proof using tr_wf.
  intros [Hlast _ Hstr Hinj Hseen Hnext Hbytes Hreq] Hj Hm Hd Hx Hsi Hh Hrd Himpl Hb Hs1 Hl1 HR Heq Hq Hn.
  destruct (carries_tsn d j si k i m Hj Hm Hd) as [Htsn Hrange].
  assert (store (after_data s true h st' q (peer_last_tsn s + Z.of_nat n) dl im) = <[h := st']> (store s))
    as Hstore by done.
  pose proof (lookup_lt_Some _ _ _ (frag_data _ _ _ _ _ Hd)) as Hi.
  split; try done.
  - change (tr_base tr - 1 <= peer_last_tsn s + Z.of_nat n < tr_end tr). split; [lia|].
    destruct n as [|n]; [lia|]. assert (peer_last_tsn s + Z.of_nat (S n) ∈ l1) as Hin.
    { rewrite Heq. apply elem_of_app. left. apply elem_of_seqZ. lia. }
    by apply (proj1 (Forall_forall _ _) Hl1) in Hin as [_ ?].
  - exists (drop n l1). split; [done|]. change (peer_last_tsn (after_data _ _ _ _ _ _ _ _))
      with (peer_last_tsn s + Z.of_nat n). split.
    + apply Forall_forall. intros y Hy. split.
      * eapply (proj1 (Forall_forall _ _)); [|exact Hy]. apply rest_above; try done.
        eapply Forall_impl; [exact Hl1|]. by intros ? [? _].
      * apply (proj1 (Forall_forall _ _) Hl1). rewrite Heq. apply elem_of_app. by right.
    + intros y. rewrite HR, Heq at 1. rewrite elem_of_app, elem_of_seqZ. split; [|intros [?|?]; [|auto]].
      * intros [?|[?|?]]; [left; lia..|by right].
      * destruct (decide (y <= peer_last_tsn s)); [left; lia|right; left; lia].
  - intros si' Hne. destruct (Hstr si' Hne) as (h' & st1 & Hsi' & Hh' & Hrd' & Himpl'). unfold arrived.
    rewrite Hstore. destruct (decide (si' = si)) as [->|Hsi0].
    + exists h, st'. split_and!; try done. apply list_lookup_insert_eq. by apply lookup_lt_Some in Hh.
    + exists h', st1. split_and!; try done. rewrite list_lookup_insert_ne; [done|]. intros ->. eauto.
  - intros si' k' i' m' Hm' Hi'. rewrite elem_of_union, elem_of_singleton, (frag_tsn _ _ _ _ _ Hd).
    unfold arrived. destruct (decide (si' = si)) as [->|Hne].
    + cbn [seen spec_arrive]. rewrite elem_of_union, elem_of_singleton, (Hseen si k' i' m') by done.
      split; (intros [Heq'|?]; [left|by right]); [by simplify_eq|].
      by apply (part_tsn_inj si k' i' m' si k i m) in Heq'; simplify_eq.
    + rewrite (Hseen si' k' i' m') by done. split; [by right|]. intros [Heq'|?]; [|done].
      apply (part_tsn_inj si' k' i' m' si k i m) in Heq'; by simplify_eq.
  - intros si'. unfold arrived. destruct (decide (si' = si)) as [->|]; apply Hnext.
  - rewrite Htsn, (bytes_in_insert _ _ _ _ _ (si, k, i)) by (done || by rewrite <-Htsn).
    change (queued_bytes (deliver h st' s)
      <= bytes_in tr (tr_base tr) (tr_flow tr) R + part_size tr (si, k, i)).
    rewrite (queued_bytes_deliver s si h st st') by (done || intros; by eapply Hinj).
    assert (part_size tr (si, k, i) = Z.of_nat (length (user_data d))) as ->; [|lia].
    unfold part_size. by rewrite Hm, (frag_data _ _ _ _ _ Hd).
Qed.

  Context (iter : forall A, gmap Z A -> list (Z * A))
    (iter_all : forall A (m : gmap Z A), iter A m ≡ₚ map_to_list m).

Lemma handle_data_receives s R D d :
  receives s R D -> carries tr d ->
  exists taken h st q p dl im R' D',
    handle_data iter d s = Done [] (after_data s taken h st q p dl im)
    /\ receives (after_data s taken h st q p dl im) R' D'
    /\ R ⊆ R' /\ R' ⊆ {[tsn d]} ∪ R
    /\ (queued_bytes s < max_receive_buffer_size s -> tsn d ∈ R')
    /\ (forall si, next_msg (D' si) = next_msg (D si))
    /\ dl || im = true.
Proof using tr_wf iter_all.
  intros Hs (j & si & k & i & m & Hj & Hm & Hd).
  destruct (carries_tsn d j si k i m Hj Hm Hd) as [Htsn Hrange].
  destruct (receives_window s R D Hs) as [Hp Hqb]. pose proof (rc_last _ _ _ Hs) as Hlast.
  destruct (rc_queue _ _ _ Hs) as (l & Hq & Hl & HR).
  destruct (rc_streams _ _ _ Hs si) as (h & st & Hsi & Hh & Hrd & Himpl); [by intros He; rewrite He in Hm|].
  destruct (stream_takes si k m i d st (D si) Hm Hd Himpl (rc_next _ _ _ Hs si)) as (st' & Hst & Himpl' & Hrd' & Hb).
  pose proof (wt_base tr tr_wf) as Hbase. pose proof (wt_end tr tr_wf) as Hend. pose proof (wt_length tr tr_wf) as Hlen. unfold tr_end in *.
  assert (Forall (fun y => peer_last_tsn s < y < 2 ^ 32 - 1) l) as Hlw
    by (apply Forall_forall; intros y Hy; apply (proj1 (Forall_forall _ _) Hl) in Hy; lia).
  destruct (handle_data_spec iter iter_all s l d (tsn d) h st st') as (n & q & dl & im & Hrun & Heq & Hq' & Hn & Hack & _);
    try done; [exact (rc_requests _ _ _ Hs)|lia|lia| | |].
  { intros y Hy. apply (proj1 (Forall_forall _ _) Hl) in Hy. lia. }
  { split; [by rewrite (frag_stream _ _ _ _ _ Hd)|done..]. }
  destruct (takes s l (tsn d)) eqn:Htk.
  - unfold takes in Htk. apply andb_true_iff in Htk as [[Hnl%bool_decide_eq_true Hgt%Z.ltb_lt]%andb_true_iff _].
    assert (tsn d ∉ R) as HxR by (rewrite HR; intros [?|?]; [lia|done]).
    exists true, h, st', q, (peer_last_tsn s + Z.of_nat n), dl, im, ({[tsn d]} ∪ R), (arrived D si k i).
    split; [exact Hrun|]. split; [|split_and!; try done; [set_solver|set_solver|]].
    + eapply (receives_taken s R D j si k i m d h st st' q n dl im (insert_abs (tsn d) l)); try done.
      * by rewrite Hrd'.
      * apply insert_abs_sorted; [apply (holds_increasing _ _ Hq)|done].
      * apply Forall_forall. intros y [->|Hy]%elem_of_insert_abs; [unfold tr_end; lia|].
        apply (proj1 (Forall_forall _ _) Hl) in Hy. unfold tr_end. lia.
      * intros y. rewrite elem_of_union, elem_of_singleton, HR, elem_of_insert_abs. naive_solver.
    + intros si'. unfold arrived. by destruct (decide (si' = si)) as [->|].
  - assert (n = 0%nat) as ->.
    { destruct n as [|n]; [done|]. exfalso. assert (peer_last_tsn s + 1 ∈ l) as Hin.
      { rewrite Heq. apply elem_of_app. left. apply elem_of_seqZ. lia. }
      apply (proj1 (Forall_forall _ _) Hl) in Hin. lia. }
    exists false, h, st', q, (peer_last_tsn s + Z.of_nat 0), dl, im, R, D.
    split; [exact Hrun|]. split; [|split_and!; try done; [set_solver|]].
    + eapply receives_not_taken; try done. lia.
    + intros Hroom. unfold takes in Htk. rewrite (proj2 (Z.ltb_lt _ _) Hroom) in Htk. cbn [orb] in Htk.
      rewrite andb_true_r in Htk. apply HR.
      apply andb_false_iff in Htk as [Hin%bool_decide_eq_false|Hle%Z.ltb_ge]; [right|left; lia].
      by apply dec_stable.
Qed.

(** ** Packets of DATA chunks *)

(** A packet with chunks of the transfer. *)
Record data_packet (p : Packet) (ds : list ChunkPayloadData) : Prop := {
  dp_chunks : chunks p = map CData ds;
  dp_carries : Forall (carries tr) ds;
  dp_ports : source_port p <> 0 /\ destination_port p <> 0 }.

Definition tsns (ds : list ChunkPayloadData) : gset Z := list_to_set (map tsn ds).

(** What [after_data] and the acknowledgement of a packet leave alone. *)
Record same_sender (s s' : AssociationInternal) : Prop := {
  ss_state : ai_state s' = ai_state s;
  ss_inflight : inflight_queue s' = inflight_queue s;
  ss_pending : pending_queue s' = pending_queue s;
  ss_ack_point : cumulative_tsn_ack_point s' = cumulative_tsn_ack_point s;
  ss_fast : will_retransmit_fast s' = will_retransmit_fast s;
  ss_reconfig : will_retransmit_reconfig s' = will_retransmit_reconfig s;
  ss_forward : will_send_forward_tsn s' = will_send_forward_tsn s;
  ss_buffer : max_receive_buffer_size s' = max_receive_buffer_size s }.

Lemma same_sender_refl s : same_sender s s.
Proof using Type. done. Qed.
Lemma same_sender_trans s s' s'' : same_sender s s' -> same_sender s' s'' -> same_sender s s''.
Proof using Type. intros [] []. split; congruence. Qed.

Lemma handle_chunks_receives now cookie p ds s R D :
  receives s R D -> Forall (carries tr) ds ->
  exists s' R' D',
    handle_chunks iter now cookie p (map CData ds) s = Done tt s' /\ receives s' R' D'
    /\ same_sender s s' /\ R ⊆ R' /\ R' ⊆ tsns ds ∪ R
    /\ (total_bytes tr < max_receive_buffer_size s -> tsns ds ⊆ R')
    /\ (forall si, next_msg (D' si) = next_msg (D si)).
Proof using tr_wf iter_all.
  intros Hs Hds. revert s R D Hs. induction Hds as [|d ds Hd Hds IH]; intros s R D Hs.
  { exists s, R, D. split_and!; try done; set_solver. }
  destruct (handle_data_receives s R D d Hs Hd)
    as (taken & h & st & q & lt & dl & im & R1 & D1 & Hrun & Hs1 & HR1 & HR1' & Hroom & Hn1 & _).
  destruct (IH _ R1 D1 Hs1) as (s2 & R2 & D2 & Hrun2 & Hs2 & Hsame & HR2 & HR2' & Hroom2 & Hn2).
  exists s2, R2, D2. split.
  { cbn [map handle_chunks].
    rewrite (bind_Done _ _ s (inr tt) (after_data s taken h st q lt dl im)); [exact Hrun2|].
    unfold attempt, handle_chunk. cbn [Chunk.check propagate]. op_steps. by rewrite (bind_Done _ _ _ _ _ Hrun). }
  pose proof (rc_bytes _ _ _ Hs) as Hb. pose proof (bytes_in_bounds tr (tr_base tr) (tr_flow tr) R) as Hbb.
  split_and!; try done.
  - eapply same_sender_trans; [|exact Hsame]. done.
  - set_solver.
  - unfold tsns in *. set_solver.
  - intros Hbuf. change (max_receive_buffer_size (after_data _ _ _ _ _ _ _ _))
      with (max_receive_buffer_size s) in Hroom2. specialize (Hroom2 Hbuf).
    unfold total_bytes in Hbuf. unfold tsns in *. cbn [map list_to_set]. set_solver by lia.
  - intros si. by rewrite Hn2.
Qed.

Lemma receives_frame s s' R D :
  peer_last_tsn s' = peer_last_tsn s -> payload_queue s' = payload_queue s ->
  ai_streams s' = ai_streams s -> store s' = store s -> reconfig_requests s' = reconfig_requests s ->
  receives s R D -> receives s' R D.
Proof using Type.
  intros Hp Hq Ha Hst Hr [H1 H2 H3 H4 H5 H6 H7 H8].
  assert (queued_bytes s' = queued_bytes s) as Hb.
  { unfold queued_bytes, stream_bytes, find_stream. by rewrite Ha, Hst. }
  split; rewrite ?Hp, ?Hq, ?Ha, ?Hst, ?Hr, ?Hb; done.
Qed.

Lemma check_data_packet p ds : data_packet p ds -> Packet.check_packet p = Ok tt.
Proof using Type.
  intros [Hc _ [Hsp Hdp]]. unfold Packet.check_packet.
  rewrite (proj2 (Z.eqb_neq _ _) Hsp), (proj2 (Z.eqb_neq _ _) Hdp), Hc.
  generalize (length (map CData ds)). intros n. clear Hc. by induction ds.
Qed.

Lemma chunk_end_same s : exists s',
  handle_chunk_end s = Done tt s' /\ same_sender s s' /\ peer_last_tsn s' = peer_last_tsn s
  /\ payload_queue s' = payload_queue s /\ ai_streams s' = ai_streams s /\ store s' = store s
  /\ reconfig_requests s' = reconfig_requests s.
Proof using Type.
  unfold handle_chunk_end. op_step.
  destruct (immediate_ack_triggered s), (delayed_ack_triggered s); eexists; (split; [reflexivity|]); by split_and!.
Qed.

Lemma handle_packet_receives now cookie p ds s R D :
  receives s R D -> data_packet p ds ->
  exists s' R' D',
    handle_packet iter now cookie p s = Done tt s' /\ receives s' R' D' /\ same_sender s s'
    /\ R ⊆ R' /\ R' ⊆ tsns ds ∪ R
    /\ (total_bytes tr < max_receive_buffer_size s -> tsns ds ⊆ R')
    /\ (forall si, next_msg (D' si) = next_msg (D si)).
Proof using tr_wf iter_all.
  intros Hs Hp. unfold handle_packet. rewrite (check_data_packet p ds Hp), (dp_chunks _ _ Hp).
  set (s0 := s {{ delayed_ack_triggered := false }} {{ immediate_ack_triggered := false }}).
  rewrite (bind_Done _ _ _ tt s0) by done.
  destruct (handle_chunks_receives now cookie p ds s0 R D) as (s1 & R1 & D1 & Hrun & Hs1 & Hsame & H1 & H2 & H3 & H4).
  { by apply (receives_frame s). }
  { apply (dp_carries _ _ Hp). }
  rewrite (bind_Done _ _ _ _ _ Hrun).
  destruct (chunk_end_same s1) as (s2 & -> & Hsame2 & Hp2 & Hq2 & Ha2 & Hst2 & Hr2).
  exists s2, R1, D1. split_and!; try done.
  - by apply (receives_frame s1).
  - eapply same_sender_trans; [|exact Hsame2]. eapply same_sender_trans; [|exact Hsame]. done.
Qed.

(** ** Reads *)

Definition after_read (D : Z -> delivery) (si : Z) (size : nat) : Z -> delivery :=
  fun si' => if decide (si' = si) then (spec_read (tr_sent tr si) size (D si)).2 else D si'.

Lemma spec_read_next msgs size D :
  seen (spec_read msgs size D).2 = seen D
  /\ ((next_msg D <= length msgs)%nat -> (next_msg (spec_read msgs size D).2 <= length msgs)%nat).
Proof using Type.
  unfold spec_read. destruct (msgs !! next_msg D) as [m|] eqn:Hm; [|done]. apply lookup_lt_Some in Hm.
  case_decide; cbn [snd seen next_msg]; split; done || lia.
Qed.

(** What a call of [read_sctp] returns: nothing when it waits. *)
Definition returned (r : ReassemblyQueue.read_result) : option ReassemblyQueue.read_result :=
  match r with
  | ReassemblyQueue.ReadErr _ ErrTryAgain => None
  | r => Some r
  end.

Lemma read_receives si h size s R D :
  receives s R D -> tr_sent tr si <> [] -> ai_streams s !! si = Some h ->
  exists s', read_sctp h size s = Done (returned (spec_read (tr_sent tr si) size (D si)).1) s'
    /\ receives s' R (after_read D si size) /\ same_sender s s'.
Proof using tr_wf.
  intros Hs Hne Hsi. destruct (rc_streams _ _ _ Hs si Hne) as (h' & st & Hsi' & Hh & Hrd & Himpl). simplify_eq.
  destruct (read_refines si (tr_sent tr si) (wt_messages tr tr_wf si) (D si) (reassembly_queue st) size Himpl)
    as (q & Hread & Hq).
  unfold read_sctp. op_step. rewrite Hh.
  assert (exists st', Stream.read_sctp size st
      = Ret (returned (spec_read (tr_sent tr si) size (D si)).1, st')
    /\ read_shutdown st' = false /\ reassembly_queue st' = q) as (st' & Hst & Hrd' & Hq').
  { unfold Stream.read_sctp. rewrite Hrd, Hread. cbn [mbind outcome_bind].
    unfold spec_read. unfold returned. repeat case_match; simplify_eq/=;
      (eexists; split; [reflexivity|]; by destruct st). }
  rewrite (bind_run _ _ _ _ Hst). op_step. eexists. split; [reflexivity|].
  change (s {{ store := <[h := st']> (store s) }}) with (deliver h st' s).
  split; [|done]. destruct Hs as [H1 H2 H3 H4 H5 H6 H7 H8].
  pose proof (spec_read_next (tr_sent tr si) size (D si)) as [Hseen Hnext].
  split; try done.
  - intros si' Hne'. destruct (H3 si' Hne') as (h1 & st1 & Hsi1 & Hh1 & Hrd1 & Himpl1). unfold after_read.
    change (store (deliver h st' s)) with (<[h := st']> (store s)). destruct (decide (si' = si)) as [->|Hne0].
    + exists h, st'. rewrite Hq'. split_and!; try done. apply list_lookup_insert_eq. by apply lookup_lt_Some in Hh.
    + exists h1, st1. split_and!; try done. rewrite list_lookup_insert_ne; [done|]. intros ->. eauto.
  - intros si' k i m Hm Hi. unfold after_read. destruct (decide (si' = si)) as [->|]; rewrite ?Hseen; eauto.
  - intros si'. unfold after_read. destruct (decide (si' = si)) as [->|]; eauto.
  - rewrite (queued_bytes_deliver s si h st st') by (done || intros; by eapply H4).
    apply read_bytes in Hread. rewrite <-Hq' in Hread.
    unfold Stream.get_num_bytes_in_reassembly_queue, ReassemblyQueue.get_num_bytes. lia.
Qed.

(** ** Acknowledgements *)

(** The association has no data of its own to send. *)
Record nothing_to_send (s : AssociationInternal) : Prop := {
  ns_state : ai_state s = Established;
  ns_inflight : inflight_queue s = PayloadQueue.new;
  ns_pending : PendingQueue.is_empty (pending_queue s) = true;
  ns_ack_point : 0 <= cumulative_tsn_ack_point s < 2 ^ 32 - 1;
  ns_fast : will_retransmit_fast s = false;
  ns_reconfig : will_retransmit_reconfig s = false;
  ns_forward : will_send_forward_tsn s = false }.

Lemma nothing_to_send_same s s' : same_sender s s' -> nothing_to_send s -> nothing_to_send s'.
Proof using Type. intros [] []. split; congruence. Qed.

(** The TSNs that a SACK acknowledges. *)
Definition acknowledges (c : ChunkSelectiveAck) (x : Z) : Prop :=
  tr_base tr <= x <= cumulative_tsn_ack c \/ reports (gap_ack_blocks c) (x - cumulative_tsn_ack c).

Lemma sack_spec s R D :
  receives s R D ->
  exists c q, create_selective_ack_chunk iter s = Done c (s {{ payload_queue := q }})
    /\ receives (s {{ payload_queue := q }}) R D
    /\ cumulative_tsn_ack c = peer_last_tsn s
    /\ sack_receiver_window_credit c = Z.max 0 (max_receive_buffer_size s - queued_bytes s)
    /\ (forall x, acknowledges c x <-> x ∈ R).
Proof using tr_wf iter_all.
  intros Hs. destruct (receives_window s R D Hs) as [Hp Hb]. destruct (rc_queue _ _ _ Hs) as (l & Hq & Hl & HR).
  pose proof (wt_length tr tr_wf). pose proof (wt_end tr tr_wf). pose proof (rc_last _ _ _ Hs).
  pose proof (wt_base tr tr_wf).
  unfold create_selective_ack_chunk. op_step. rewrite (bind_Done _ _ _ _ _ (credit_spec iter iter_all s Hb)).
  destruct (gap_blocks_exact (peer_last_tsn s) l (payload_queue s)) as (blocks & Hblocks & Hrep & _); [done|lia| |].
  { eapply Forall_impl; [exact Hl|]. intros x Hx. unfold tr_end in *. cbn in Hx. lia. }
  rewrite (bind_run _ _ _ _ Hblocks). cbn [PayloadQueue.pop_duplicates]. op_step.
  eexists _, _. split; [reflexivity|]. cbn [cumulative_tsn_ack sack_receiver_window_credit gap_ack_blocks].
  split; [|split_and!; try done].
  - destruct Hs. split; try done. exists l. split_and!; try done. by destruct Hq.
  - intros x. unfold acknowledges. cbn [cumulative_tsn_ack gap_ack_blocks]. rewrite HR, Hrep.
    by replace (peer_last_tsn s + (x - peer_last_tsn s)) with x by lia.
Qed.

Lemma get_new t : PayloadQueue.get t PayloadQueue.new = None.
Proof using Type. apply lookup_empty. Qed.

(** Nothing is in flight: there is nothing to retransmit. *)
Lemma retransmit_none now ps s :
  inflight_queue s = PayloadQueue.new -> 0 <= cumulative_tsn_ack_point s < 2 ^ 32 - 1 ->
  gather_data_packets_to_retransmit now ps s = Done ps s.
Proof using Type.
  intros Hq Hc. unfold gather_data_packets_to_retransmit, get_data_packets_to_retransmit. op_steps.
  rewrite (bind_Done _ _ _ [] s); [op_steps; rewrite (bind_run _ _ _ []) by done; unfold mret, op_ret; by rewrite app_nil_r|].
  rewrite Hq. cbn [PayloadQueue.new chunk_map]. rewrite map_size_empty. cbn [retransmit_from]. op_step.
  rewrite !bind_u32 by lia. by rewrite Hq, get_new.
Qed.

Lemma nothing_pending now ps s :
  PendingQueue.is_empty (pending_queue s) = true -> will_retransmit_reconfig s = false ->
  gather_outbound_data_and_reconfig_packets iter now ps s = Done ps s.
Proof using Type.
  intros Hp Hr. unfold gather_outbound_data_and_reconfig_packets, pop_pending_data_chunks_to_send. op_steps.
  rewrite Hp. op_steps. by rewrite Hr.
Qed.

(** [gather_outbound] of an association with nothing to send: its replies, and the
    SACK if one is due. *)
Lemma gather_idle now s R D :
  receives s R D -> nothing_to_send s ->
  exists ps s', gather_outbound iter now s = Done (ps, true) s' /\ receives s' R D /\ same_sender s s'
    /\ (if decide (ack_state s = Immediate)
        then exists c, ps = control_queue s ++ [create_packet s [CSack c]]
               /\ (forall x, acknowledges c x <-> x ∈ R)
        else ps = control_queue s).
Proof using tr_wf iter_all.
  intros Hs [H1 H2 H3 H4 H5 H6 H7]. unfold gather_outbound. op_steps. rewrite H1.
  set (s0 := s {{ control_queue := [] }}).
  rewrite (bind_Done _ _ _ _ _ (retransmit_none now (control_queue s) s0 H2 H4)).
  rewrite (bind_Done _ _ _ _ _ (nothing_pending now (control_queue s) s0 H3 H6)).
  rewrite (bind_Done _ _ _ (control_queue s) s0).
  2: { unfold gather_outbound_fast_retransmission_packets. op_step.
       change (will_retransmit_fast s0) with (will_retransmit_fast s). by rewrite H5. }
  unfold gather_outbound_sack_packets. op_steps. change (ack_state s0) with (ack_state s).
  unfold gather_outbound_forward_tsn_packets.
  destruct (decide (ack_state s = Immediate)) as [Ha|Ha].
  - rewrite bool_decide_true by done. op_steps. set (s1 := s0 {{ ack_state := Idle }}).
    destruct (sack_spec s1 R D) as (c & q & Hc & Hs2 & _ & _ & Hex); [by apply (receives_frame s)|].
    rewrite (bind_Done _ _ _ _ _ Hc). op_steps. set (s2 := s1 {{ payload_queue := q }}) in *.
    change (will_send_forward_tsn s2) with (will_send_forward_tsn s). rewrite H7. op_steps.
    eexists _, s2. split; [reflexivity|]. split_and!; try done. by exists c.
  - rewrite bool_decide_false by done. op_steps.
    change (will_send_forward_tsn s0) with (will_send_forward_tsn s). rewrite H7. op_steps.
    eexists _, s0. split; [reflexivity|]. split_and!; try done. by apply (receives_frame s).
Qed.

(** ** Runs *)

(** A packet arrives, the application reads from a stream, the timer of delayed
    acknowledgements fires, or the write loop sends what there is to send. *)
Inductive recv_event :=
  | DataArrives (now : Z) (p : Packet)
  | Reads (si : Z) (size : nat)
  | AckTimerFires
  | SendsPackets (now : Z).

Inductive recv_output :=
  | ReadReturned (si : Z) (r : option ReassemblyQueue.read_result)
  | PacketsSent (ps : list Packet).

Definition recv_step (e : recv_event) : op (list recv_output) :=
  match e with
  | DataArrives now p => _ ← handle_packet iter now [] p; mret []
  | Reads si size =>
      s ← get;
      match ai_streams s !! si with
      | Some h => r ← read_sctp h size; mret [ReadReturned si r]
      | None => hang
      end
  | AckTimerFires => _ ← ack_timer_expires; mret []
  | SendsPackets now => '(ps, _) ← gather_outbound iter now; mret [PacketsSent ps]
  end.

Fixpoint recv_run (evs : list recv_event) : op (list recv_output) :=
  match evs with
  | [] => mret []
  | e :: evs => out ← recv_step e; outs ← recv_run evs; mret (out ++ outs)
  end.

(** Packets carry chunks of the transfer; buffers are long enough. *)
Definition recv_ok (e : recv_event) : Prop :=
  match e with
  | DataArrives _ p => exists ds, data_packet p ds
  | Reads si size =>
      tr_sent tr si <> [] /\ Forall (fun m => length (m_data m) <= size)%nat (tr_sent tr si)
  | _ => True
  end.

Definition data_of (p : Packet) : list ChunkPayloadData :=
  omap (fun c => match c with CData d => Some d | _ => None end) (chunks p).

(** The TSNs of the chunks that arrive. *)
Definition arrivals (evs : list recv_event) : gset Z :=
  ⋃ (map (fun e => match e with DataArrives _ p => tsns (data_of p) | _ => ∅ end) evs).

(** What the reads from a stream have returned. *)
Definition reads_of (si : Z) (out : list recv_output) : list ReassemblyQueue.read_result :=
  omap (fun o => match o with
                 | ReadReturned si' r => if decide (si' = si) then r else None
                 | PacketsSent _ => None
                 end) out.

Lemma data_of_packet p ds : data_packet p ds -> data_of p = ds.
Proof using Type.
  intros Hp. unfold data_of. rewrite (dp_chunks _ _ Hp). clear Hp. induction ds as [|d ds IH]; [done|].
  cbn [map omap list_omap]. by f_equal.
Qed.

(** One event: how far the deliveries get, and what the reads return. *)
Record progress (D D' : Z -> delivery) (out : list recv_output) : Prop := mkProgress {
  pr_next : forall si, (next_msg (D si) <= next_msg (D' si))%nat;
  pr_reads : forall si, delivered (reads_of si out)
    = take (next_msg (D' si) - next_msg (D si)) (drop (next_msg (D si)) (contents (tr_sent tr si))) }.

Lemma progress_none D D' out :
  (forall si, next_msg (D' si) = next_msg (D si)) -> (forall si, reads_of si out = []) -> progress D D' out.
Proof using Type.
  intros Hn Hr. split; intros si; rewrite Hn; [done|]. by rewrite Hr, Nat.sub_diag.
Qed.

Lemma progress_app D D1 D2 out out' : progress D D1 out -> progress D1 D2 out' -> progress D D2 (out ++ out').
Proof using Type.
  intros [Hn1 Hr1] [Hn2 Hr2]. split; intros si; specialize (Hn1 si); specialize (Hn2 si); [lia|].
  unfold reads_of, delivered in *. rewrite omap_app, omap_app, Hr1, Hr2.
  replace (next_msg (D2 si) - next_msg (D si))%nat
    with ((next_msg (D1 si) - next_msg (D si)) + (next_msg (D2 si) - next_msg (D1 si)))%nat by lia.
  rewrite <-take_take_drop, drop_drop.
  by replace (next_msg (D si) + (next_msg (D1 si) - next_msg (D si)))%nat with (next_msg (D1 si)) by lia.
Qed.

Lemma progress_read D si size :
  Forall (fun m => length (m_data m) <= size)%nat (tr_sent tr si) ->
  progress D (after_read D si size)
    [ReadReturned si (returned (spec_read (tr_sent tr si) size (D si)).1)].
Proof using Type.
  intros Hsize. split; intros si'; unfold after_read, reads_of; cbn [omap list_omap];
    (destruct (decide (si' = si)) as [->|Hne]; [|rewrite ?decide_False by done]); try done.
  - unfold spec_read. repeat case_match; cbn [snd next_msg]; lia.
  - rewrite decide_True by done. unfold spec_read.
    destruct (tr_sent tr si !! next_msg (D si)) as [m|] eqn:Hm; [|cbn; by rewrite Nat.sub_diag].
    case_decide; [|cbn; by rewrite Nat.sub_diag].
    pose proof (proj1 (Forall_lookup _ _) Hsize _ _ Hm) as Hfit. cbn beta in Hfit.
    rewrite (proj2 (Nat.leb_le _ _)) by done. cbn [fst snd next_msg returned delivered omap list_omap].
    rewrite (drop_S _ (m_data m, m_ppi m)); [|unfold contents; by rewrite list_lookup_fmap, Hm].
    replace (S (next_msg (D si)) - next_msg (D si))%nat with 1%nat by lia. done.
  - cbn. by rewrite Nat.sub_diag.
Qed.

Lemma ack_timer_same s : exists s',
  ack_timer_expires s = Done tt s' /\ same_sender s s' /\ peer_last_tsn s' = peer_last_tsn s
  /\ payload_queue s' = payload_queue s /\ ai_streams s' = ai_streams s /\ store s' = store s
  /\ reconfig_requests s' = reconfig_requests s.
Proof using Type.
  unfold ack_timer_expires. op_step. destruct (ack_timer s ≫= AckTimer.expire) as [t|];
    eexists; (split; [reflexivity|]); by split_and!.
Qed.

Lemma recv_step_receives e s R D :
  receives s R D -> nothing_to_send s -> recv_ok e ->
  exists out s' R' D',
    recv_step e s = Done out s' /\ receives s' R' D' /\ same_sender s s'
    /\ R ⊆ R' /\ R' ⊆ arrivals [e] ∪ R
    /\ (total_bytes tr < max_receive_buffer_size s -> arrivals [e] ⊆ R')
    /\ progress D D' out.
Proof using tr_wf iter_all.
  intros Hs Hn Hok. destruct e as [now p|si size| |now]; unfold arrivals; cbn [map recv_step].
  - destruct Hok as [ds Hp]. rewrite (data_of_packet p ds Hp).
    destruct (handle_packet_receives now [] p ds s R D Hs Hp) as (s' & R' & D' & Hrun & Hs' & Hsame & H1 & H2 & H3 & H4).
    rewrite (bind_Done _ _ _ _ _ Hrun). exists [], s', R', D'. split_and!; try done; [set_solver..|].
    by apply progress_none.
  - destruct Hok as [Hne Hsize]. destruct (rc_streams _ _ _ Hs si Hne) as (h & st & Hsi & _).
    destruct (read_receives si h size s R D Hs Hne Hsi) as (s' & Hrun & Hs' & Hsame).
    op_step. rewrite Hsi, (bind_Done _ _ _ _ _ Hrun). do 4 eexists. split; [reflexivity|].
    split_and!; try done; [set_solver..|]. by apply progress_read.
  - destruct (ack_timer_same s) as (s' & Hrun & Hsame & Hp & Hq & Ha & Hst & Hr).
    rewrite (bind_Done _ _ _ _ _ Hrun). exists [], s', R, D. split_and!; try done; [|set_solver..|by apply progress_none].
    by apply (receives_frame s).
  - destruct (gather_idle now s R D Hs Hn) as (ps & s' & Hrun & Hs' & Hsame & _).
    rewrite (bind_Done _ _ _ _ _ Hrun). exists [PacketsSent ps], s', R, D.
    split_and!; try done; [set_solver..|]. by apply progress_none.
Qed.

Lemma recv_run_receives evs s R D :
  receives s R D -> nothing_to_send s -> Forall recv_ok evs ->
  exists out s' R' D',
    recv_run evs s = Done out s' /\ receives s' R' D' /\ same_sender s s'
    /\ R ⊆ R' /\ R' ⊆ arrivals evs ∪ R
    /\ (total_bytes tr < max_receive_buffer_size s -> arrivals evs ⊆ R')
    /\ progress D D' out.
Proof using tr_wf iter_all.
  intros Hs Hn Hok. revert s R D Hs Hn. induction Hok as [|e evs He Hok IH]; intros s R D Hs Hn.
  { exists [], s, R, D. split_and!; try done; try set_solver. by apply progress_none. }
  destruct (recv_step_receives e s R D Hs Hn He) as (out & s1 & R1 & D1 & Hrun & Hs1 & Hsame & H1 & H2 & H3 & Hp1).
  destruct (IH s1 R1 D1 Hs1 (nothing_to_send_same _ _ Hsame Hn))
    as (outs & s2 & R2 & D2 & Hrun2 & Hs2 & Hsame2 & H4 & H5 & H6 & Hp2).
  cbn [recv_run]. rewrite (bind_Done _ _ _ _ _ Hrun), (bind_Done _ _ _ _ _ Hrun2).
  unfold arrivals in *. cbn [map] in *. rewrite (ss_buffer _ _ Hsame) in H6.
  exists (out ++ outs), s2, R2, D2. split; [done|]. split; [done|].
  split; [by eapply same_sender_trans|]. split; [set_solver|]. split; [set_solver|].
  split; [intros Hb; specialize (H3 Hb); specialize (H6 Hb); set_solver|].
  by eapply progress_app.
Qed.

(** An established association that has received nothing of the transfer yet and
    knows its streams. *)
Record ready (s : AssociationInternal) : Prop := mkReady {
  rd_sender : nothing_to_send s;
  rd_last : peer_last_tsn s = tr_base tr - 1;
  rd_queue : holds [] (payload_queue s);
  rd_streams : forall si, tr_sent tr si <> [] ->
    exists h st, ai_streams s !! si = Some h /\ store s !! h = Some st
      /\ read_shutdown st = false /\ reassembly_queue st = ReassemblyQueue.new si;
  rd_handles : forall si si' h, ai_streams s !! si = Some h -> ai_streams s !! si' = Some h -> si = si';
  rd_bytes : queued_bytes s = 0;
  rd_requests : reconfig_requests s = ∅;
  rd_nonempty : tr_flow tr <> [] }.

Lemma ready_receives s : ready s -> receives s ∅ (fun _ => nothing).
Proof using tr_wf.
  intros [_ Hp Hq Hst Hh Hb Hr Hne]. split; try done.
  - rewrite Hp. unfold tr_end. destruct (tr_flow tr); [done|]. cbn [length]. lia.
  - exists []. split_and!; try done. intros x. rewrite Hp, elem_of_nil. split; [set_solver|]. intros [?|?]; [lia|done].
  - intros si Hsi. destruct (Hst si Hsi) as (h & st & H1 & H2 & H3 & H4). exists h, st. split_and!; try done.
    rewrite H4. apply implements_new.
  - intros si. cbn. lia.
  - rewrite Hb. apply bytes_in_bounds.
Qed.


Lemma reads_reach n si size s R D k :
  receives s R D -> nothing_to_send s -> recv_ok (Reads si size) ->
  (forall j m, (j < k)%nat -> tr_sent tr si !! j = Some m -> complete (D si) j m) ->
  (k <= next_msg (D si) + n)%nat -> (k <= length (tr_sent tr si))%nat ->
  exists out s' D',
    recv_run (replicate n (Reads si size)) s = Done out s' /\ progress D D' out
    /\ (k <= next_msg (D' si))%nat.
Proof using tr_wf iter_all.
  intros Hs Hn Hok. revert s D Hs Hn. induction n as [|n IH]; intros s D Hs Hn Hc Hk Hlen.
  { exists [], s, D. split_and!; [done|by apply progress_none|lia]. }
  destruct Hok as [Hne Hsize]. destruct (rc_streams _ _ _ Hs si Hne) as (h & st & Hsi & _).
  destruct (read_receives si h size s R D Hs Hne Hsi) as (s1 & Hrun & Hs1 & Hsame).
  pose proof (spec_read_next (tr_sent tr si) size (D si)) as [Hseen _].
  assert (after_read D si size si = (spec_read (tr_sent tr si) size (D si)).2) as HD.
  { unfold after_read. by rewrite decide_True. }
  destruct (IH s1 (after_read D si size) Hs1 (nothing_to_send_same _ _ Hsame Hn)) as (out & s2 & D2 & Hrun2 & Hp2 & Hk2).
  - intros j m Hj Hm. rewrite HD. unfold complete. rewrite Hseen. by apply Hc.
  - rewrite HD. unfold spec_read. destruct (decide (next_msg (D si) < k)%nat) as [Hlt|Hge].
    + destruct (lookup_lt_is_Some_2 (tr_sent tr si) (next_msg (D si))) as [m Hm]; [lia|].
      rewrite Hm, decide_True by by apply Hc. cbn [snd next_msg]. lia.
    + repeat case_match; cbn [snd next_msg]; lia.
  - done.
  - eexists _, s2, D2. split; [|split; [|done]].
    + cbn [replicate recv_run recv_step]. rewrite bind_assoc, bind_get, Hsi, bind_assoc, (bind_Done _ _ _ _ _ Hrun).
      op_steps. by rewrite (bind_Done _ _ _ _ _ Hrun2).
    + eapply progress_app; [by apply progress_read|done].
Qed.

End receiver.

(** A stream with two messages: the second one and the first part of the first one
    arrive, out of order and repeated. *)
Definition demo_transfer : transfer :=
  mkTransfer 10 (fun si => if si =? 7 then demo_messages else []) 
    [(7, 0%nat, 0%nat); (7, 0%nat, 1%nat); (7, 1%nat, 0%nat)].

Definition demo_chunk (k i : nat) (t : Z) (p : PayloadProtocolIdentifier) (last : bool) (data : bytes)
    : ChunkPayloadData :=
  mkChunkPayloadData false (i =? 0)%nat last false t 7 (Z.of_nat k) p data false 0 0 1 0 false None.

Definition demo_packet (ds : list ChunkPayloadData) : Packet := mkPacket 5000 5000 88 (map CData ds) None.

Definition demo_receiver : AssociationInternal :=
  (AssociationInternal.new 0 0 5000 5000 200 88)
    {{ ai_state := Established }} {{ peer_last_tsn := 9 }} {{ ai_streams := {[7 := 0%nat]} }}
    {{ store := [Stream.new 7 1200] }}.

Definition demo_first := demo_chunk 0 0 10 Binary false [1; 2].
Definition demo_middle := demo_chunk 0 1 11 Binary true [3].
Definition demo_last := demo_chunk 1 0 12 PpiString true [4].

Lemma demo_transfer_wf : wf_transfer demo_transfer.
Proof.
  split; try done.
  - intros si. cbn. destruct (si =? 7); [apply demo_messages_wf|constructor].
  - intros si. cbn. by destruct (si =? 7).
  - intros [|[|[|j]]] si k i; cbn; intros [= <- <- <-]; eexists; (split; [reflexivity|]); cbn; lia.
  - intros si k m i. cbn. destruct (Z.eqb_spec si 7) as [->|]; [|done].
    destruct k as [|[|k]]; cbn; intros [= <-]; cbn; intros Hi.
    + destruct i as [|[|i]]; [by exists 0%nat|by exists 1%nat|lia].
    + destruct i as [|i]; [by exists 2%nat|lia].
Qed.

Lemma demo_carries :
  Forall (carries demo_transfer) [demo_first; demo_middle; demo_last].
Proof.
  repeat constructor; [exists 0%nat, 7, 0%nat, 0%nat|exists 1%nat, 7, 0%nat, 1%nat|exists 2%nat, 7, 1%nat, 0%nat];
    (eexists; split; [reflexivity|]; split; [reflexivity|]; by constructor).
Qed.

Lemma demo_ready : ready demo_transfer demo_receiver.
Proof.
  split.
  - by split.
  - done.
  - apply holds_new.
  - intros si. cbn. destruct (Z.eqb_spec si 7) as [->|]; [|done]. intros _. by exists 0%nat, (Stream.new 7 1200).
  - intros si si' h. change (ai_streams demo_receiver) with ({[7 := 0%nat]} : gmap Z nat).
    by intros [<- _]%lookup_singleton_Some [<- _]%lookup_singleton_Some.
  - vm_compute. reflexivity.
  - done.
  - done.
Qed.

Lemma demo_data ds : Forall (carries demo_transfer) ds -> data_packet demo_transfer (demo_packet ds) ds.
Proof. by split. Qed.

Definition demo_arrivals : list recv_event :=
  [DataArrives 0 (demo_packet [demo_last; demo_first]); AckTimerFires; SendsPackets 5;
   DataArrives 9 (demo_packet [demo_last])].

Lemma demo_arrivals_ok : Forall (recv_ok demo_transfer) demo_arrivals.
Proof.
  pose proof demo_carries as H. repeat apply Forall_cons in H as [? H].
  repeat constructor; (eexists; apply demo_data; by repeat constructor).
Qed.


