(* ===== verification/AssociationSend.v ===== *)
(** * The sending side of an association

    The chunks in flight have the TSNs between the acknowledged one and the next
    one to be assigned, without a gap.  A SACK that acknowledges some of them is
    processed without an error: it takes the chunks up to its cumulative TSN out,
    marks those that its gap blocks report, and computes the window that is left. *)

From stdpp Require Import base list gmap sorting.
From Stdlib Require Import ZArith Lia.
From S2P Require Import Prelude Net Fallible SctpWire Reassembly SctpQueues SctpTimers SctpStream.
From S2P Require Import Association AssociationLogic.
Local Open Scope Z_scope.

(** ** Round trip time measurements *)

(** Measurements of up to some 34 years do not overflow, one after the other. *)
Definition RTT_LIMIT : Z := 2 ^ 40.

Fixpoint measure_all (rtts : list Z) (m : RtoManager) : outcome RtoManager :=
  match rtts with
  | [] => Ret m
  | rtt :: rtts => '(_, m) ← RtoManager.set_new_rtt rtt m; measure_all rtts m
  end.

Definition measurable (m : RtoManager) : Prop :=
  forall rtts, Forall (fun r => 0 <= r <= RTT_LIMIT) rtts -> exists m', measure_all rtts m = Ret m'.

Lemma measurable_step m rtt :
  measurable m -> 0 <= rtt <= RTT_LIMIT ->
  exists srtt m', RtoManager.set_new_rtt rtt m = Ret (srtt, m') /\ measurable m'.
Proof.
  intros Hm Hr. destruct (RtoManager.set_new_rtt rtt m) as [[srtt m']|why|] eqn:He.
  - exists srtt, m'. split; [done|]. intros rtts Hrtts. destruct (Hm (rtt :: rtts)) as [m2 H2]; [by constructor|].
    cbn [measure_all] in H2. rewrite He in H2. by exists m2.
  - destruct (Hm [rtt]) as [m2 H2]; [by apply Forall_singleton|]. cbn [measure_all] in H2. by rewrite He in H2.
  - destruct (Hm [rtt]) as [m2 H2]; [by apply Forall_singleton|]. cbn [measure_all] in H2. by rewrite He in H2.
Qed.

Lemma fixed_rto_measurable m : no_update m = true -> measurable m.
Proof.
  intros Hm rtts Hr. exists m. induction Hr as [|r rtts _ _ IH]; [done|]. cbn [measure_all].
  unfold RtoManager.set_new_rtt. by rewrite Hm.
Qed.

(** The age of a chunk can be measured. *)
Definition aged (now : Z) (c : ChunkPayloadData) : Prop :=
  since c <= now <= since c + RTT_LIMIT * 1000000.

Lemma measure_rtt_spec now c s :
  measurable (rto_mgr s) -> aged now c ->
  exists m, measure_rtt now c s = Done tt (s {{ min_tsn2measure_rtt := my_next_tsn s }} {{ rto_mgr := m }})
    /\ measurable m.
Proof.
  intros Hm [Hlo Hhi]. unfold measure_rtt. op_steps. rewrite (proj2 (Z.ltb_ge _ _)) by lia.
  assert (0 <= (now - since c) / 1000000 <= RTT_LIMIT) as Hr.
  { split; [apply Z.div_pos; lia|]. apply Z.div_le_upper_bound; lia. }
  rewrite as_u_small by (unfold is_u, RTT_LIMIT in *; lia).
  destruct (measurable_step _ _ Hm Hr) as (srtt & m & Hset & Hm').
  rewrite (bind_run _ _ _ _ Hset). by exists m.
Qed.

(** ** Amounts per stream *)

Definition acc_sum (acc : gmap Z Z) : Z := map_fold (fun _ v n => v + n) 0 acc.

Definition acc_ok (acc : gmap Z Z) : Prop := map_Forall (fun _ v => 0 <= v) acc.

Lemma acc_sum_insert acc si v : acc !! si = None -> acc_sum (<[si := v]> acc) = v + acc_sum acc.
Proof. intros H. unfold acc_sum. rewrite map_fold_insert_L; [done| |done]. intros. lia. Qed.

Lemma acc_sum_delete acc si v : acc !! si = Some v -> acc_sum acc = v + acc_sum (delete si acc).
Proof. intros H. rewrite <-(acc_sum_insert _ si) by apply lookup_delete_eq. by rewrite insert_delete_id. Qed.

Lemma acc_sum_nonneg acc : acc_ok acc -> 0 <= acc_sum acc.
Proof.
  induction acc as [|si v acc Hsi IH] using map_ind; intros Hok; [done|].
  apply map_Forall_insert in Hok as [Hv Hok]; [|done]. rewrite acc_sum_insert by done.
  specialize (IH Hok). lia.
Qed.

Lemma add_acked_spec si n acc s :
  acc_ok acc -> 0 <= n -> acc_sum acc + n < 2 ^ 63 ->
  exists acc', add_acked si n acc s = Done acc' s /\ acc_ok acc' /\ acc_sum acc' = acc_sum acc + n.
Proof.
  intros Hok Hn Hs. unfold add_acked. destruct (acc !! si) as [v|] eqn:Hsi.
  - pose proof (Hok _ _ Hsi) as Hv. cbn in Hv. pose proof (acc_sum_delete _ _ _ Hsi) as Hd.
    assert (acc_ok (delete si acc)) as Hok' by by apply map_Forall_delete.
    pose proof (acc_sum_nonneg _ Hok').
    rewrite (bind_run _ _ _ (v + n)) by (apply checked_i_Ret; unfold is_i; lia).
    eexists. split; [reflexivity|]. split.
    + apply map_Forall_insert_2; [lia|done].
    + rewrite <-insert_delete_eq, acc_sum_insert by apply lookup_delete_eq. lia.
  - eexists. split; [reflexivity|]. split; [by apply map_Forall_insert_2|].
    rewrite acc_sum_insert by done. lia.
Qed.

(** ** Chunks in flight *)

(** The chunks with the TSNs from [a] up to [b], exclusive. *)
Record in_flight (now a b : Z) (q : PayloadQueue) : Prop := mkInFlight {
  if_holds : holds (seqZ a (b - a)) q;
  if_aged : map_Forall (fun _ c => aged now c) (chunk_map q);
  if_acked : map_Forall (fun _ c => acked c = true -> user_data c = []) (chunk_map q) }.

(** What processing acknowledgements changes, apart from its results. *)
Definition acked_state (s : AssociationInternal) (q : PayloadQueue) (t : option RtxTimer) (z : Z)
    (m : RtoManager) (f : bool) : AssociationInternal :=
  s {{ inflight_queue := q }} {{ t3rtx := t }} {{ min_tsn2measure_rtt := z }} {{ rto_mgr := m }}
    {{ in_fast_recovery := f }}.

Lemma when_stop_t3 (b : bool) s :
  exists t, when b (stop_timer T3RTX) s = Done tt (s {{ t3rtx := t }}).
Proof.
  destruct b; [|exists (t3rtx s); by destruct s].
  unfold when, stop_timer, modify, timer. destruct (t3rtx s) as [t|] eqn:Ht.
  - by eexists.
  - exists None. destruct s. cbn in Ht. by subst.
Qed.

Lemma when_measure (b : bool) now c s :
  measurable (rto_mgr s) -> aged now c ->
  exists z m, when b (measure_rtt now c) s = Done tt (s {{ min_tsn2measure_rtt := z }} {{ rto_mgr := m }})
    /\ measurable m.
Proof.
  intros Hm Hc. destruct b.
  - destruct (measure_rtt_spec now c s Hm Hc) as (m & H & Hm'). by exists (my_next_tsn s), m.
  - exists (min_tsn2measure_rtt s), (rto_mgr s). by destruct s.
Qed.

Lemma when_leave_recovery (b : bool) s :
  exists f, when b (assign in_fast_recovery false) s = Done tt (s {{ in_fast_recovery := f }}).
Proof. destruct b; [by exists false|]. exists (in_fast_recovery s). by destruct s. Qed.

Lemma in_flight_cons now a b q :
  in_flight now a b q -> a < b -> is_u 32 a ->
  exists c q', PayloadQueue.pop a q = Ret (Some c, q')
    /\ chunk_map q !! a = Some c /\ chunk_map q' = delete a (chunk_map q) /\ in_flight now (a + 1) b q'
    /\ (pq_n_bytes q = length (user_data c) + pq_n_bytes q')%nat /\ aged now c
    /\ (acked c = true -> user_data c = []).
Proof.
  intros [Hq Hage Hack] Hab Ha. rewrite seqZ_cons in Hq by lia.
  destruct (pop_front_holds _ _ _ Hq) as (c & q' & Hpop & Hc & Hmap & _ & Hq').
  rewrite as_u_small in Hpop, Hc, Hmap by done. exists c, q'. split_and!; try done.
  - split; [by replace (b - (a + 1)) with (Z.pred (b - a)) by lia| |]; rewrite Hmap; by apply map_Forall_delete.
  - rewrite (holds_bytes _ _ Hq), (holds_bytes _ _ Hq'), Hmap. by apply map_bytes_delete.
  - by apply Hage in Hc.
  - by apply Hack in Hc.
Qed.

(** What one popped chunk adds to the amounts and the measurements. *)
Lemma ack_popped now i c acc s s1 :
  0 <= cumulative_tsn_ack_point s < 2 ^ 32 - 1 -> measurable (rto_mgr s1) -> aged now c ->
  (acked c = true -> user_data c = []) -> acc_ok acc ->
  acc_sum acc + Z.of_nat (length (user_data c)) < 2 ^ 63 ->
  exists acc1 t z m,
    (if negb (acked c) then
       first ← u32 (cumulative_tsn_ack_point s + 1);
       _ ← when (i =? first) (stop_timer T3RTX);
       acked_per_stream ← add_acked (stream_identifier c) (Z.of_nat (length (user_data c))) acc;
       _ ← when ((nsent c =? 1) && sna32gte (tsn c) (min_tsn2measure_rtt s)) (measure_rtt now c);
       mret acked_per_stream
     else mret acc) s1 = Done acc1 (s1 {{ t3rtx := t }} {{ min_tsn2measure_rtt := z }} {{ rto_mgr := m }})
    /\ measurable m /\ acc_ok acc1 /\ acc_sum acc1 = acc_sum acc + Z.of_nat (length (user_data c)).
Proof.
  intros Hcum Hm Hage Hack Hok Hsum. destruct (acked c) eqn:Hac; cbn [negb].
  - exists acc, (t3rtx s1), (min_tsn2measure_rtt s1), (rto_mgr s1). rewrite (Hack eq_refl). cbn [length].
    split_and!; try done; [by destruct s1|lia].
  - rewrite bind_u32 by lia. destruct (when_stop_t3 (i =? cumulative_tsn_ack_point s + 1) s1) as [t Ht].
    rewrite (bind_Done _ _ _ _ _ Ht). set (s2 := s1 {{ t3rtx := t }}).
    destruct (add_acked_spec (stream_identifier c) (Z.of_nat (length (user_data c))) acc s2)
      as (acc1 & Hadd & Hok1 & Hs1); [done|lia|lia|].
    rewrite (bind_Done _ _ _ _ _ Hadd).
    destruct (when_measure ((nsent c =? 1) && sna32gte (tsn c) (min_tsn2measure_rtt s)) now c s2) as (z & m & Hme & Hm1);
      [done|done|].
    rewrite (bind_Done _ _ _ _ _ Hme). by exists acc1, t, z, m.
Qed.

Lemma pop_acked_spec now n : forall fuel i acc s b,
  0 <= cumulative_tsn_ack_point s < 2 ^ 32 - 1 -> 1 <= i -> i + Z.of_nat n <= b -> b < 2 ^ 32 ->
  Z.of_nat n <= 2 ^ 31 ->
  in_flight now i b (inflight_queue s) -> measurable (rto_mgr s) -> acc_ok acc ->
  acc_sum acc + Z.of_nat (pq_n_bytes (inflight_queue s)) < 2 ^ 63 -> (n <= fuel)%nat ->
  exists acc' q t z m f,
    pop_acked now fuel i (i + Z.of_nat n - 1) acc s = Done acc' (acked_state s q t z m f)
    /\ in_flight now (i + Z.of_nat n) b q /\ measurable m /\ acc_ok acc'
    /\ acc_sum acc' + Z.of_nat (pq_n_bytes q) = acc_sum acc + Z.of_nat (pq_n_bytes (inflight_queue s))
    /\ (forall x, i + Z.of_nat n <= x -> chunk_map q !! x = chunk_map (inflight_queue s) !! x).
Proof.
  induction n as [|n IH]; intros fuel i acc s b Hcum Hi Hb Hb32 Hw Hq Hm Hok Hsum Hf.
  { exists acc, (inflight_queue s), (t3rtx s), (min_tsn2measure_rtt s), (rto_mgr s), (in_fast_recovery s).
    replace (i + Z.of_nat 0 - 1) with (i - 1) by lia. replace (i + Z.of_nat 0) with i by lia.
    assert (sna32lte i (i - 1) = false) as Hlte.
    { rewrite <-(as_u_small 32 i), <-(as_u_small 32 (i - 1)) at 1 by (unfold is_u; lia).
      rewrite sna32lte_window by lia. apply Z.leb_gt. lia. }
    split_and!; try done. destruct fuel; cbn [pop_acked]; rewrite Hlte; by destruct s. }
  assert (sna32lte i (i + Z.of_nat (S n) - 1) = true) as Hlte.
  { rewrite <-(as_u_small 32 i), <-(as_u_small 32 (i + Z.of_nat (S n) - 1)) at 1 by (unfold is_u; lia).
    rewrite sna32lte_window by lia. apply Z.leb_le. lia. }
  destruct fuel as [|fuel]; [lia|]. cbn [pop_acked]. rewrite Hlte. op_step.
  destruct (in_flight_cons now i b _ Hq) as (c & q & Hpop & Hc & Hmap & Hq' & Hbytes & Hage & Hack); [lia|unfold is_u; lia|].
  rewrite (bind_run _ _ _ _ Hpop). op_steps. set (s1 := s {{ inflight_queue := q }}).
  destruct (ack_popped now i c acc s s1) as (acc1 & t & z & m & Hbody & Hm1 & Hok1 & Hsum1); try done; [lia|].
  rewrite (bind_Done _ _ _ _ _ Hbody).
  set (s2 := s1 {{ t3rtx := t }} {{ min_tsn2measure_rtt := z }} {{ rto_mgr := m }}).
  destruct (when_leave_recovery (in_fast_recovery s && (tsn c =? fast_recover_exit_point s)) s2) as [f Hl].
  rewrite (bind_Done _ _ _ _ _ Hl), bind_u32 by lia.
  destruct (IH fuel (i + 1) acc1 (s2 {{ in_fast_recovery := f }}) b) as (acc' & q' & t' & z' & m' & f' & Hrun & H1 & H2 & H3 & H4 & H5);
    try done; try lia.
  { change (pq_n_bytes (inflight_queue (s2 {{ in_fast_recovery := f }}))) with (pq_n_bytes q). lia. }
  exists acc', q', t', z', m', f'.
  replace (i + Z.of_nat (S n) - 1) with (i + 1 + Z.of_nat n - 1) by lia.
  replace (i + Z.of_nat (S n)) with (i + 1 + Z.of_nat n) by lia.
  split_and!; try done.
  - change (pq_n_bytes (inflight_queue (s2 {{ in_fast_recovery := f }}))) with (pq_n_bytes q) in H4. lia.
  - intros x Hx. rewrite H5 by done. change (chunk_map q !! x = chunk_map (inflight_queue s) !! x).
    rewrite Hmap. apply lookup_delete_ne. lia.
Qed.

(** [q'] has the chunks of [q], those in [ts] besides marked as acknowledged. *)
Definition marked (ts : list Z) (q q' : PayloadQueue) : Prop :=
  forall x, acked <$> chunk_map q' !! x
    = (fun c => acked c || bool_decide (x ∈ ts)) <$> chunk_map q !! x.

Lemma marked_nil q : marked [] q q.
Proof.
  intros x. destruct (chunk_map q !! x) as [c|]; [|done]. cbn. by rewrite orb_false_r.
Qed.

Lemma marked_cons t ts q q1 q2 : marked [t] q q1 -> marked ts q1 q2 -> marked (t :: ts) q q2.
Proof.
  intros H1 H2 x. rewrite H2. specialize (H1 x).
  destruct (chunk_map q !! x) as [c|], (chunk_map q1 !! x) as [c1|]; cbn in *; simplify_eq; [|done].
  f_equal. rewrite H1, <-orb_assoc. f_equal.
  destruct (decide (x = t)) as [->|Hne].
  - rewrite (bool_decide_true (t ∈ [t])), (bool_decide_true (t ∈ t :: ts)) by set_solver. done.
  - rewrite (bool_decide_false (x ∈ [t])) by set_solver. cbn [orb]. apply bool_decide_ext. set_solver.
Qed.

Lemma in_flight_get now a b q t :
  in_flight now a b q -> a <= t < b -> is_u 32 t -> exists c, PayloadQueue.get t q = Some c.
Proof.
  intros Hq Ht Hu. destruct (holds_get _ _ t (if_holds _ _ _ _ Hq)) as (c & Hc & _); [apply elem_of_seqZ; lia|].
  rewrite as_u_small in Hc by done. by exists c.
Qed.

Lemma mark_in_flight now a b q t c :
  in_flight now a b q -> PayloadQueue.get t q = Some c ->
  exists q', PayloadQueue.mark_as_acked t q = Ret (length (user_data c), q')
    /\ in_flight now a b q' /\ marked [t] q q'
    /\ (pq_n_bytes q = length (user_data c) + pq_n_bytes q')%nat
    /\ chunk_map q' !! t = Some (c {{ acked := true }} {{ retransmit := false }} {{ user_data := [] }}).
Proof.
  intros [Hq Hage Hack] Hc. unfold PayloadQueue.get in Hc.
  destruct (mark_as_acked_holds _ q t Hq) as (q' & Hmark & Hq' & Hmap). rewrite Hc in Hmark, Hmap.
  set (c' := c {{ acked := true }} {{ retransmit := false }} {{ user_data := [] }}) in *.
  exists q'. split; [done|]. split; [split; [done|..]; rewrite Hmap; apply map_Forall_insert_2; try done; by apply Hage in Hc|].
  split; [|split].
  - intros x. rewrite Hmap. destruct (decide (x = t)) as [->|Hne].
    + rewrite lookup_insert_eq, Hc. cbn [fmap option_fmap option_map].
      rewrite (bool_decide_true (t ∈ [t])) by set_solver. by rewrite orb_true_r.
    + rewrite lookup_insert_ne by done. destruct (chunk_map q !! x) as [cx|]; [|done]. cbn.
      rewrite bool_decide_false by set_solver. by rewrite orb_false_r.
  - rewrite (holds_bytes _ _ Hq), (holds_bytes _ _ Hq'), Hmap, <-insert_delete_eq.
    rewrite map_bytes_insert by apply lookup_delete_eq. rewrite (map_bytes_delete _ _ _ Hc). done.
  - rewrite Hmap. apply lookup_insert_eq.
Qed.

Definition reported_state (s : AssociationInternal) (q : PayloadQueue) (z : Z) (m : RtoManager)
    : AssociationInternal :=
  s {{ inflight_queue := q }} {{ min_tsn2measure_rtt := z }} {{ rto_mgr := m }}.

Lemma ack_reported_spec now cum i b acc htna s :
  0 <= cum -> 0 < i -> cum + i < b -> b < 2 ^ 32 -> b - cum <= 2 ^ 31 -> cum <= htna < b ->
  in_flight now (cum + 1) b (inflight_queue s) -> measurable (rto_mgr s) -> acc_ok acc ->
  acc_sum acc + Z.of_nat (pq_n_bytes (inflight_queue s)) < 2 ^ 63 ->
  exists acc' htna' q z m,
    ack_reported now cum i acc htna s = Done (acc', htna') (reported_state s q z m)
    /\ in_flight now (cum + 1) b q /\ measurable m /\ acc_ok acc' /\ cum <= htna' < b
    /\ acc_sum acc' + Z.of_nat (pq_n_bytes q) = acc_sum acc + Z.of_nat (pq_n_bytes (inflight_queue s))
    /\ marked [cum + i] (inflight_queue s) q.
Proof.
  intros Hcum Hi Hb Hb32 Hw Hh Hq Hm Hok Hsum. unfold ack_reported. rewrite bind_u32 by lia. op_step.
  destruct (in_flight_get now (cum + 1) b _ (cum + i) Hq) as [c Hc]; [lia|unfold is_u; lia|]. rewrite Hc.
  rewrite (bool_decide_true (is_Some (Some c))) by done. destruct (acked c) eqn:Hac; cbn [negb andb].
  - op_steps. rewrite Hc. exists acc, htna, (inflight_queue s), (min_tsn2measure_rtt s), (rto_mgr s).
    split_and!; try done; try lia; [by destruct s|]. intros x.
    destruct (decide (x = cum + i)) as [->|Hne].
    + unfold PayloadQueue.get in Hc. rewrite Hc. cbn. by rewrite Hac.
    + destruct (chunk_map (inflight_queue s) !! x) as [cx|]; [|done]. cbn.
      rewrite bool_decide_false by set_solver. by rewrite orb_false_r.
  - destruct (mark_in_flight now (cum + 1) b _ _ c Hq Hc) as (q & Hmark & Hq' & Hmk & Hbytes & Hget).
    rewrite bind_assoc, (bind_run _ _ _ _ Hmark). op_steps. set (s1 := s {{ inflight_queue := q }}).
    change (PayloadQueue.get (cum + i) (inflight_queue s1)) with (chunk_map q !! (cum + i)). rewrite Hget.
    set (c' := c {{ acked := true }} {{ retransmit := false }} {{ user_data := [] }}).
    destruct (add_acked_spec (stream_identifier c') (Z.of_nat (length (user_data c))) acc s1)
      as (acc1 & Hadd & Hok1 & Hs1); [done|lia|lia|].
    rewrite (bind_Done _ _ _ _ _ Hadd).
    destruct (when_measure (nsent c' =? 1) now c' s1) as (z & m & Hme & Hm1); [done| |].
    { by apply (if_aged _ _ _ _ Hq) in Hc. }
    rewrite (bind_Done _ _ _ _ _ Hme). do 5 eexists. split; [reflexivity|].
    split_and!; try done; try destruct (sna32lt _ _); try lia.
Qed.

Lemma ack_each_spec now cum b acc htna s is_ :
  0 <= cum -> b < 2 ^ 32 -> b - cum <= 2 ^ 31 -> cum <= htna < b -> Forall (fun i => 0 < i < b - cum) is_ ->
  in_flight now (cum + 1) b (inflight_queue s) -> measurable (rto_mgr s) -> acc_ok acc ->
  acc_sum acc + Z.of_nat (pq_n_bytes (inflight_queue s)) < 2 ^ 63 ->
  exists acc' htna' q z m,
    ack_each now cum is_ acc htna s = Done (acc', htna') (reported_state s q z m)
    /\ in_flight now (cum + 1) b q /\ measurable m /\ acc_ok acc' /\ cum <= htna' < b
    /\ acc_sum acc' + Z.of_nat (pq_n_bytes q) = acc_sum acc + Z.of_nat (pq_n_bytes (inflight_queue s))
    /\ marked (map (Z.add cum) is_) (inflight_queue s) q.
Proof.
  intros Hcum Hb Hw Hh His. revert acc htna s Hh. induction His as [|i is_ Hi His IH]; intros acc htna s Hh Hq Hm Hok Hsum.
  { exists acc, htna, (inflight_queue s), (min_tsn2measure_rtt s), (rto_mgr s).
    split_and!; try done; [by destruct s|lia..|apply marked_nil]. }
  cbn [ack_each map].
  destruct (ack_reported_spec now cum i b acc htna s) as (acc1 & h1 & q1 & z1 & m1 & Hrun & Hq1 & Hm1 & Hok1 & Hh1 & Hs1 & Hmk1);
    try done; try lia.
  rewrite (bind_Done _ _ _ _ _ Hrun).
  destruct (IH acc1 h1 (reported_state s q1 z1 m1)) as (acc2 & h2 & q2 & z2 & m2 & Hrun2 & Hq2 & Hm2 & Hok2 & Hh2 & Hs2 & Hmk2);
    try done.
  { change (pq_n_bytes (inflight_queue (reported_state s q1 z1 m1))) with (pq_n_bytes q1). lia. }
  change (pq_n_bytes (inflight_queue (reported_state s q1 z1 m1))) with (pq_n_bytes q1) in Hs2.
  exists acc2, h2, q2, z2, m2. split_and!; try done; try lia. by eapply marked_cons.
Qed.

(** ** The invariant and valid acknowledgements *)

Record sending (now : Z) (s : AssociationInternal) : Prop := mkSending {
  sg_window : 0 <= cumulative_tsn_ack_point s < my_next_tsn s
    /\ my_next_tsn s < 2 ^ 32 /\ my_next_tsn s - cumulative_tsn_ack_point s < 2 ^ 31;
  sg_advanced : 0 <= advanced_peer_tsn_ack_point s < my_next_tsn s
    /\ my_next_tsn s - advanced_peer_tsn_ack_point s < 2 ^ 31;
  sg_flight : in_flight now (cumulative_tsn_ack_point s + 1) (my_next_tsn s) (inflight_queue s);
  sg_rto : measurable (rto_mgr s);
  sg_bytes : Z.of_nat (pq_n_bytes (inflight_queue s)) < 2 ^ 31 }.

(** The SACK is not older than the last one and reports sent TSNs only. *)
Record valid_sack (s : AssociationInternal) (d : ChunkSelectiveAck) : Prop := {
  vs_cumulative : cumulative_tsn_ack_point s <= cumulative_tsn_ack d < my_next_tsn s;
  vs_reported : Forall (fun i => 0 < i < my_next_tsn s - cumulative_tsn_ack d) (reported (gap_ack_blocks d)) }.

Definition reported_tsns (d : ChunkSelectiveAck) : list Z :=
  map (Z.add (cumulative_tsn_ack d)) (reported (gap_ack_blocks d)).

(** The chunks of [q] above the cumulative TSN are those of the queue before, with
    the reported ones marked. *)
Definition acked_by (d : ChunkSelectiveAck) (q q' : PayloadQueue) : Prop :=
  forall x, cumulative_tsn_ack d < x ->
    acked <$> chunk_map q' !! x
    = (fun c => acked c || bool_decide (x ∈ reported_tsns d)) <$> chunk_map q !! x.

Lemma process_selective_ack_spec now d s :
  sending now s -> valid_sack s d ->
  exists acc htna q t z m f,
    process_selective_ack now d s = Done (acc, htna) (acked_state s q t z m f)
    /\ in_flight now (cumulative_tsn_ack d + 1) (my_next_tsn s) q /\ measurable m /\ acc_ok acc
    /\ cumulative_tsn_ack d <= htna < my_next_tsn s
    /\ acc_sum acc + Z.of_nat (pq_n_bytes q) = Z.of_nat (pq_n_bytes (inflight_queue s))
    /\ acked_by d (inflight_queue s) q.
Proof.
  intros [Hw _ Hq Hm Hb] [Hc Hr]. unfold process_selective_ack. op_step. rewrite bind_u32 by lia.
  set (n := Z.to_nat (cumulative_tsn_ack d - cumulative_tsn_ack_point s)).
  assert (cumulative_tsn_ack d = cumulative_tsn_ack_point s + 1 + Z.of_nat n - 1) as Hd by lia.
  destruct (pop_acked_spec now n (length (sorted (inflight_queue s))) (cumulative_tsn_ack_point s + 1) ∅ s (my_next_tsn s))
    as (acc & q & t & z & m & f & Hpop & Hq1 & Hm1 & Hok1 & Hs1 & Hsame); try done; try lia.
  { change (acc_sum ∅) with 0. lia. }
  { rewrite (holds_sorted _ _ (if_holds _ _ _ _ Hq)), length_map, length_seqZ. lia. }
  rewrite <-Hd in Hpop. rewrite (bind_Done _ _ _ _ _ Hpop). change (acc_sum ∅) with 0 in Hs1.
  replace (cumulative_tsn_ack_point s + 1 + Z.of_nat n) with (cumulative_tsn_ack d + 1) in Hq1, Hsame by lia.
  destruct (ack_each_spec now (cumulative_tsn_ack d) (my_next_tsn s) acc (cumulative_tsn_ack d) (acked_state s q t z m f)
    (reported (gap_ack_blocks d))) as (acc2 & h2 & q2 & z2 & m2 & Hrun & Hq2 & Hm2 & Hok2 & Hh2 & Hs2 & Hmk); try done; try lia.
  { change (pq_n_bytes (inflight_queue (acked_state s q t z m f))) with (pq_n_bytes q). lia. }
  change (pq_n_bytes (inflight_queue (acked_state s q t z m f))) with (pq_n_bytes q) in Hs2.
  exists acc2, h2, q2, t, z2, m2, f. split; [exact Hrun|]. split_and!; try done; try lia.
  intros x Hx. rewrite Hmk. change (inflight_queue (acked_state s q t z m f)) with q. by rewrite Hsame by lia.
Qed.

(** ** What follows the acknowledgements *)

Lemma sum_i64_spec l acc s :
  Forall (Z.le 0) l -> 0 <= acc -> acc + foldr Z.add 0 l < 2 ^ 63 ->
  foldl (fun m n => a ← m; run (checked_i 64 (a + n))) (mret acc) l s = Done (acc + foldr Z.add 0 l) s.
Proof.
  intros Hl. revert acc. induction Hl as [|n l Hn Hl IH]; intros acc Ha Hs; cbn [foldl foldr] in *.
  { unfold mret, op_ret. f_equal. lia. }
  assert (0 <= foldr Z.add 0 l) by (clear -Hl; induction Hl; cbn; lia).
  assert (forall m m' : op Z, (forall s, m s = m' s) -> forall s,
    foldl (fun m n => a ← m; run (checked_i 64 (a + n))) m l s
    = foldl (fun m n => a ← m; run (checked_i 64 (a + n))) m' l s) as Hext.
  { clear. induction l as [|n l IH]; intros m m' Hm s; cbn [foldl]; [done|]. apply IH. intros s'.
    unfold mbind, op_bind. by rewrite Hm. }
  rewrite (Hext _ (mret (acc + n))).
  - rewrite IH by lia. f_equal. lia.
  - intros s'. rewrite bind_mret. unfold run. rewrite checked_i_Ret by (unfold is_i; lia). done.
Qed.

Lemma acc_sum_list acc : acc_sum acc = foldr Z.add 0 (map snd (map_to_list acc)).
Proof.
  induction acc as [|si v acc Hsi IH] using map_ind; [by rewrite map_to_list_empty|].
  rewrite acc_sum_insert, IH by done.
  assert (map snd (map_to_list (<[si := v]> acc)) ≡ₚ v :: map snd (map_to_list acc)) as Hp.
  { change (v :: map snd (map_to_list acc)) with (map snd ((si, v) :: map_to_list acc)).
    apply Permutation_map. by apply map_to_list_insert. }
  assert (forall l l', l ≡ₚ l' -> foldr Z.add 0 l = foldr Z.add 0 l') as Hperm
    by (clear; induction 1; cbn; lia).
  by rewrite (Hperm _ _ Hp).
Qed.

Lemma release_each l s :
  exists st, for_all l (fun e : Z * Z => update_stream e.1 (Stream.on_buffer_released e.2)) s
    = Done tt (s {{ store := st }}).
Proof.
  revert s. induction l as [|e l IH]; intros s; cbn [for_all]; [exists (store s); by destruct s|].
  assert (exists st, update_stream e.1 (Stream.on_buffer_released e.2) s = Done tt (s {{ store := st }})) as [st Hst].
  { unfold update_stream, modify. destruct (ai_streams s !! e.1); [by eexists|]. exists (store s). by destruct s. }
  rewrite (bind_Done _ _ _ _ _ Hst). destruct (IH (s {{ store := st }})) as [st' ->]. by exists st'.
Qed.

Lemma start_t3 s : exists t, start_timer T3RTX s = Done tt (s {{ t3rtx := t }})
  /\ (forall u, t = Some u -> RtxTimer.is_running u = true).
Proof.
  unfold start_timer, modify, timer. destruct (t3rtx s) as [u|] eqn:Hu.
  - eexists. split; [reflexivity|]. intros u' [= <-]. unfold RtxTimer.start. by destruct (rtx_close_tx u) eqn:?.
  - exists None. split; [|done]. destruct s. cbn in Hu. by subst.
Qed.

Lemma stop_t3 s : exists t, stop_timer T3RTX s = Done tt (s {{ t3rtx := t }}).
Proof. apply (when_stop_t3 true). Qed.

Lemma ack_point_advanced_spec total s l :
  holds l (inflight_queue s) -> 0 <= total < 2 ^ 31 -> 0 <= cwnd s < 2 ^ 31 -> 0 <= mtu s <= 65535 ->
  0 <= partial_bytes_acked s -> partial_bytes_acked s + total < 2 ^ 32 ->
  exists t p w,
    on_cumulative_tsn_ack_point_advanced total s
      = Done tt (s {{ t3rtx := t }} {{ partial_bytes_acked := p }} {{ cwnd := w }})
    /\ 0 <= p /\ cwnd s <= w < 2 ^ 32.
Proof.
  intros Hq Ht Hw Hmtu Hp Hpt. unfold on_cumulative_tsn_ack_point_advanced. op_step.
  rewrite (bind_run _ _ _ _ (is_empty_holds _ _ Hq)).
  assert (exists t, (if (length l =? 0)%nat then stop_timer T3RTX else start_timer T3RTX) s
    = Done tt (s {{ t3rtx := t }})) as [t Ht3].
  { destruct (length l =? 0)%nat; [apply stop_t3|]. destruct (start_t3 s) as (t & H & _). eauto. }
  rewrite (bind_Done _ _ _ _ _ Ht3), as_u_small by (unfold is_u; lia). set (s1 := s {{ t3rtx := t }}).
  assert (s1 {{ partial_bytes_acked := partial_bytes_acked s }} {{ cwnd := cwnd s }} = s1) as Hid by done.
  destruct (cwnd s <=? ssthresh s).
  - destruct (negb (in_fast_recovery s) && negb (PendingQueue.is_empty (pending_queue s))); cbn [when].
    + rewrite bind_u32 by lia. exists t, (partial_bytes_acked s). eexists. split; [reflexivity|]. lia.
    + exists t, (partial_bytes_acked s), (cwnd s). split; [done|lia].
  - rewrite bind_u32 by lia. op_step.
    destruct ((partial_bytes_acked s + total >=? cwnd s) && negb (PendingQueue.is_empty (pending_queue s))) eqn:Hge;
      cbn [when].
    + apply andb_true_iff in Hge as [Hge%Z.geb_le _]. op_step. rewrite bind_u32 by lia.
      exists t, (partial_bytes_acked s + total - cwnd s), (cwnd s + mtu s). split; [done|lia].
    + exists t, (partial_bytes_acked s + total), (cwnd s). split; [done|lia].
Qed.

(** A chunk in flight is replaced by one that differs in its counters only. *)
Lemma replace_in_flight now a b q t c c' :
  in_flight now a b q -> PayloadQueue.get t q = Some c ->
  tsn c' = tsn c -> user_data c' = user_data c -> acked c' = acked c -> since c' = since c ->
  let q' := q {{ chunk_map := <[t := c']> (chunk_map q) }} in
  in_flight now a b q' /\ marked [] q q' /\ pq_n_bytes q' = pq_n_bytes q.
Proof.
  intros [Hq Hage Hack] Hc Ht Hu Ha Hs q'. unfold PayloadQueue.get in Hc.
  assert (chunk_map q' = <[t := c']> (chunk_map q)) as Hmap by done.
  split; [split|split; [|done]].
  - apply (holds_map _ q); try done; rewrite ?Hmap.
    + intros x. rewrite lookup_insert_is_Some'. split; [intros [<-|?]; eauto|auto].
    + intros x cx. rewrite lookup_insert_Some. intros [[<- <-]|[_ H]].
      * rewrite Ht. by apply (holds_tsn _ _ Hq).
      * by apply (holds_tsn _ _ Hq).
    + apply map_size_insert_Some. by exists c.
    + change (pq_n_bytes q') with (pq_n_bytes q). rewrite (holds_bytes _ _ Hq).
      rewrite <-insert_delete_eq, map_bytes_insert by apply lookup_delete_eq.
      rewrite Hu. by apply map_bytes_delete.
  - rewrite Hmap. apply map_Forall_insert_2; [|done]. unfold aged. rewrite Hs. by apply Hage in Hc.
  - rewrite Hmap. apply map_Forall_insert_2; [|done]. rewrite Hu, Ha. by apply Hack in Hc.
  - intros x. rewrite Hmap. destruct (decide (x = t)) as [->|Hne].
    + rewrite lookup_insert_eq, Hc. cbn. by rewrite orb_false_r, Ha.
    + rewrite lookup_insert_ne by done. apply marked_nil.
Qed.

Lemma marked_trans q q1 q2 : marked [] q q1 -> marked [] q1 q2 -> marked [] q q2.
Proof.
  intros H1 H2 x. rewrite H2. specialize (H1 x).
  destruct (chunk_map q !! x) as [c|], (chunk_map q1 !! x) as [c1|]; cbn in *; simplify_eq; [|done].
  by rewrite H1, !orb_false_r.
Qed.

Definition missed_state (s : AssociationInternal) (q : PayloadQueue) (fr : bool) (ep ss w p : Z) (rf : bool)
    : AssociationInternal :=
  s {{ inflight_queue := q }} {{ in_fast_recovery := fr }} {{ fast_recover_exit_point := ep }}
    {{ ssthresh := ss }} {{ cwnd := w }} {{ partial_bytes_acked := p }} {{ will_retransmit_fast := rf }}.

(** One missing chunk: its counter, and fast recovery at the third report. *)
Lemma count_miss now a b t c htna s :
  in_flight now a b (inflight_queue s) -> PayloadQueue.get t (inflight_queue s) = Some c ->
  0 <= mtu s <= 65535 ->
  exists q fr ep ss w p rf,
    when (negb (acked c) && negb (abandoned (cells s) c) && (miss_indicator c <? 3))
      (let c := c {{ miss_indicator := miss_indicator c + 1 }} in
       _ ← assign inflight_queue
             ((inflight_queue s) {{ chunk_map := <[t := c]> (chunk_map (inflight_queue s)) }});
       when ((miss_indicator c =? 3) && negb (in_fast_recovery s))
         (_ ← assign in_fast_recovery true;
          _ ← assign fast_recover_exit_point htna;
          four ← u32 (4 * mtu s);
          _ ← assign ssthresh (Z.max (cwnd s / 2) four);
          _ ← assign cwnd (Z.max (cwnd s / 2) four);
          _ ← assign partial_bytes_acked 0;
          assign will_retransmit_fast true)) s
      = Done tt (missed_state s q fr ep ss w p rf)
    /\ in_flight now a b q /\ marked [] (inflight_queue s) q /\ pq_n_bytes q = pq_n_bytes (inflight_queue s).
Proof.
  intros Hq Hc Hmtu.
  destruct (negb (acked c) && negb (abandoned (cells s) c) && (miss_indicator c <? 3)); cbn [when].
  - set (c' := c {{ miss_indicator := miss_indicator c + 1 }}).
    destruct (replace_in_flight now a b _ t c c' Hq Hc) as (Hq' & Hmk & Hb); try done.
    set (q' := (inflight_queue s) {{ chunk_map := <[t := c']> (chunk_map (inflight_queue s)) }}) in *.
    op_step. destruct ((miss_indicator c' =? 3) && negb (in_fast_recovery s)); cbn [when].
    + op_steps. rewrite bind_u32 by lia. op_steps.
      exists q', true, htna, (Z.max (cwnd s / 2) (4 * mtu s)), (Z.max (cwnd s / 2) (4 * mtu s)), 0, true. done.
    + exists q', (in_fast_recovery s), (fast_recover_exit_point s), (ssthresh s), (cwnd s),
        (partial_bytes_acked s), (will_retransmit_fast s). done.
  - exists (inflight_queue s), (in_fast_recovery s), (fast_recover_exit_point s), (ssthresh s), (cwnd s),
      (partial_bytes_acked s), (will_retransmit_fast s). split; [by destruct s|]. split_and!; try done. apply marked_nil.
Qed.

Lemma count_misses_spec now n : forall fuel t max_tsn htna s a b,
  in_flight now a b (inflight_queue s) -> a <= t -> 0 <= t -> max_tsn <= b -> 0 <= max_tsn ->
  b < 2 ^ 32 -> t <= b -> Z.abs (max_tsn - t) < 2 ^ 31 -> max_tsn - t <= Z.of_nat n -> (n <= fuel)%nat ->
  0 <= mtu s <= 65535 ->
  exists q fr ep ss w p rf,
    count_misses fuel t max_tsn htna s = Done tt (missed_state s q fr ep ss w p rf)
    /\ in_flight now a b q /\ marked [] (inflight_queue s) q /\ pq_n_bytes q = pq_n_bytes (inflight_queue s).
Proof.
  induction n as [|n IH]; intros fuel t max_tsn htna s a b Hq Ha Ht Hmax Hm0 Hb Htb Hw Hn Hf Hmtu;
    (destruct (Z.ltb_spec t max_tsn) as [Hlt|Hge];
      [|exists (inflight_queue s), (in_fast_recovery s), (fast_recover_exit_point s), (ssthresh s), (cwnd s),
          (partial_bytes_acked s), (will_retransmit_fast s);
        assert (sna32lt t max_tsn = false) as Hno
          by (rewrite sna32lt_close; [apply Z.ltb_ge; lia|unfold is_u; lia..|lia]);
        split; [destruct fuel; cbn [count_misses]; rewrite Hno; by destruct s|];
        split_and!; try done; apply marked_nil]); [lia|].
  assert (sna32lt t max_tsn = true) as Hyes
    by (rewrite sna32lt_close; [apply Z.ltb_lt; lia|unfold is_u; lia..|lia]).
  destruct fuel as [|fuel]; [lia|]. cbn [count_misses]. rewrite Hyes. op_step.
  destruct (in_flight_get now a b _ t Hq) as [c Hc]; [lia|unfold is_u; lia|]. rewrite Hc.
  destruct (count_miss now a b t c htna s Hq Hc Hmtu) as (q & fr & ep & ss & w & p & rf & Hrun & Hq1 & Hmk & Hb1).
  rewrite (bind_Done _ _ _ _ _ Hrun), bind_u32 by lia.
  destruct (IH fuel (t + 1) max_tsn htna (missed_state s q fr ep ss w p rf) a b)
    as (q' & fr' & ep' & ss' & w' & p' & rf' & Hrun' & Hq2 & Hmk2 & Hb2); try done; try lia.
  exists q', fr', ep', ss', w', p', rf'. split; [exact Hrun'|]. split_and!; try done.
  - by eapply marked_trans.
  - by rewrite Hb2.
Qed.

Lemma fast_retransmission_spec now cum b htna advanced s :
  in_flight now (cum + 1) b (inflight_queue s) -> 0 <= cum < b -> b < 2 ^ 32 -> b - cum < 2 ^ 31 ->
  cum <= htna < b -> 0 <= mtu s <= 65535 ->
  exists q fr ep ss w p rf,
    process_fast_retransmission cum htna advanced s = Done tt (missed_state s q fr ep ss w p rf)
    /\ in_flight now (cum + 1) b q /\ marked [] (inflight_queue s) q /\ pq_n_bytes q = pq_n_bytes (inflight_queue s).
Proof.
  intros Hq Hc Hb Hw Hh Hmtu. unfold process_fast_retransmission. op_step.
  pose proof (holds_size _ _ (if_holds _ _ _ _ Hq)) as Hsize. rewrite length_seqZ in Hsize.
  assert (exists q fr ep ss w p rf,
    when (negb (in_fast_recovery s) || advanced)
        (max_tsn ← (if negb (in_fast_recovery s) then mret htna
                    else
                      n ← run (PayloadQueue.len (inflight_queue s));
                      m ← u32 (cum + as_u 32 (Z.of_nat n));
                      u32 (m + 1));
         tsn ← u32 (cum + 1);
         count_misses (size (chunk_map (inflight_queue s))) tsn max_tsn htna) s
      = Done tt (missed_state s q fr ep ss w p rf)
    /\ in_flight now (cum + 1) b q /\ marked [] (inflight_queue s) q
    /\ pq_n_bytes q = pq_n_bytes (inflight_queue s)) as (q & fr & ep & ss & w & p & rf & Hrun & Hrest).
  { destruct (negb (in_fast_recovery s) || advanced); cbn [when].
    - assert (exists max_tsn, (if negb (in_fast_recovery s) then mret htna
        else n ← run (PayloadQueue.len (inflight_queue s)); m ← u32 (cum + as_u 32 (Z.of_nat n)); u32 (m + 1)) s
        = Done max_tsn s /\ cum <= max_tsn <= b) as (max_tsn & Hmax & Hmb).
      { destruct (negb (in_fast_recovery s)); [exists htna; split; [done|lia]|].
        exists b. split; [|lia]. rewrite (bind_run _ _ _ _ (len_holds _ _ (if_holds _ _ _ _ Hq))), length_seqZ.
        rewrite as_u_small by (unfold is_u; lia). rewrite bind_u32 by lia. unfold u32.
        rewrite checked_u_Ret by (unfold is_u; lia). unfold run. f_equal. lia. }
      rewrite (bind_Done _ _ _ _ _ Hmax), bind_u32 by lia.
      apply (count_misses_spec now (Z.to_nat (b - (cum + 1)))); try done; try lia.
    - exists (inflight_queue s), (in_fast_recovery s), (fast_recover_exit_point s), (ssthresh s), (cwnd s),
        (partial_bytes_acked s), (will_retransmit_fast s). split; [by destruct s|]. split_and!; try done.
      apply marked_nil. }
  rewrite (bind_Done _ _ _ _ _ Hrun). op_step.
  destruct (in_fast_recovery (missed_state s q fr ep ss w p rf) && advanced); cbn [when].
  - by exists q, fr, ep, ss, w, p, true.
  - by exists q, fr, ep, ss, w, p, rf.
Qed.

(** ** Partial reliability *)

Lemma get_in_flight now a b q t c :
  in_flight now a b q -> 0 <= a -> b < 2 ^ 32 -> PayloadQueue.get t q = Some c -> a <= t < b.
Proof.
  intros Hq Ha Hb Hc.
  assert (t ∈ sorted q) as Hin by (apply (holds_keys _ _ (if_holds _ _ _ _ Hq)); by exists c).
  rewrite (holds_sorted _ _ (if_holds _ _ _ _ Hq)) in Hin.
  apply list_elem_of_fmap in Hin as (x & Hx & Hxin). apply elem_of_seqZ in Hxin.
  rewrite as_u_small in Hx by (unfold is_u; lia). lia.
Qed.

Lemma advance_peer_spec now n : forall fuel i s a b,
  in_flight now a b (inflight_queue s) -> 0 <= a <= i -> i <= b -> b < 2 ^ 32 -> b - i <= Z.of_nat n ->
  (n <= fuel)%nat ->
  exists z, advance_peer_ack_point fuel i s = Done tt (s {{ advanced_peer_tsn_ack_point := z }})
    /\ (z = advanced_peer_tsn_ack_point s \/ i <= z < b).
Proof.
  induction n as [|n IH]; intros fuel i s a b Hq Ha Hi Hb Hn Hf.
  - exists (advanced_peer_tsn_ack_point s). split; [|by left].
    assert (PayloadQueue.get i (inflight_queue s) = None) as Hnone.
    { destruct (PayloadQueue.get i (inflight_queue s)) as [c|] eqn:Hc; [|done].
      apply (get_in_flight _ _ _ _ _ _ Hq) in Hc; lia. }
    destruct fuel; cbn [advance_peer_ack_point]; op_step; rewrite Hnone; by destruct s.
  - destruct fuel as [|fuel]; [lia|]. cbn [advance_peer_ack_point]. op_step.
    destruct (PayloadQueue.get i (inflight_queue s)) as [c|] eqn:Hc.
    2: { exists (advanced_peer_tsn_ack_point s). split; [by destruct s|by left]. }
    destruct (abandoned (cells s) c); cbn [negb].
    2: { exists (advanced_peer_tsn_ack_point s). split; [by destruct s|by left]. }
    pose proof (get_in_flight _ _ _ _ _ _ Hq ltac:(lia) Hb Hc).
    op_step. rewrite bind_u32 by lia.
    destruct (IH fuel (i + 1) (s {{ advanced_peer_tsn_ack_point := i }}) a b) as (z & Hrun & Hz); try done; try lia.
    exists z. split; [exact Hrun|]. right. destruct Hz as [->|Hz]; [|lia].
    change (advanced_peer_tsn_ack_point (s {{ advanced_peer_tsn_ack_point := i }})) with i. lia.
Qed.

Lemma forward_part now cum b s :
  in_flight now (cum + 1) b (inflight_queue s) -> cumulative_tsn_ack_point s = cum -> 0 <= cum < b ->
  b < 2 ^ 32 -> b - cum < 2 ^ 31 -> 0 <= advanced_peer_tsn_ack_point s < b ->
  b - advanced_peer_tsn_ack_point s < 2 ^ 31 ->
  exists z f w,
    when (use_forward_tsn s)
      (_ ← when (sna32lt (advanced_peer_tsn_ack_point s) (cumulative_tsn_ack_point s))
             (assign advanced_peer_tsn_ack_point (cumulative_tsn_ack_point s));
       _ ← try_advance_peer_ack_point;
       awake_write_loop) s
      = Done tt (s {{ advanced_peer_tsn_ack_point := z }} {{ will_send_forward_tsn := f }} {{ awake := w }})
    /\ 0 <= z < b /\ b - z < 2 ^ 31.
Proof.
  intros Hq Hcum Hc Hb Hw Ha Haw. destruct (use_forward_tsn s); cbn [when].
  2: { exists (advanced_peer_tsn_ack_point s), (will_send_forward_tsn s), (awake s). split; [by destruct s|lia]. }
  assert (exists z, when (sna32lt (advanced_peer_tsn_ack_point s) (cumulative_tsn_ack_point s))
    (assign advanced_peer_tsn_ack_point (cumulative_tsn_ack_point s)) s
    = Done tt (s {{ advanced_peer_tsn_ack_point := z }}) /\ cum <= z < b) as (z & Hz & Hzb).
  { rewrite Hcum, sna32lt_close by (unfold is_u; lia). destruct (Z.ltb_spec (advanced_peer_tsn_ack_point s) cum); cbn [when].
    - exists cum. split; [done|lia].
    - exists (advanced_peer_tsn_ack_point s). split; [by destruct s|lia]. }
  rewrite (bind_Done _ _ _ _ _ Hz). set (s1 := s {{ advanced_peer_tsn_ack_point := z }}).
  unfold try_advance_peer_ack_point. op_steps.
  change (advanced_peer_tsn_ack_point s1) with z. rewrite bind_u32 by lia. rewrite bind_assoc.
  pose proof (holds_size _ _ (if_holds _ _ _ _ Hq)) as Hsize. rewrite length_seqZ in Hsize.
  destruct (advance_peer_spec now (Z.to_nat (b - (z + 1))) (size (chunk_map (inflight_queue s1))) (z + 1) s1 (cum + 1) b)
    as (z' & Hrun & Hz'); try done; try lia.
  { change (inflight_queue s1) with (inflight_queue s). lia. }
  rewrite (bind_Done _ _ _ _ _ Hrun). op_steps. set (s2 := s1 {{ advanced_peer_tsn_ack_point := z' }}).
  assert (cum <= z' < b).
  { change (advanced_peer_tsn_ack_point s1) with z in Hz'. lia. }
  destruct (sna32gt (advanced_peer_tsn_ack_point s2) (cumulative_tsn_ack_point s2)); cbn [when].
  - exists z', true, true. split; [done|lia].
  - exists z', (will_send_forward_tsn s), true. split; [done|lia].
Qed.

(** ** The end of [handle_sack] *)

Definition closing_state (s : AssociationInternal) (t : option RtxTimer) (x y : bool) (st : AssociationState)
    (w : bool) : AssociationInternal :=
  s {{ t3rtx := t }} {{ will_send_shutdown := x }} {{ will_send_shutdown_ack := y }} {{ ai_state := st }}
    {{ awake := w }}.

Lemma postprocess_spec state b s l :
  holds l (inflight_queue s) ->
  exists t x y st w,
    postprocess_sack state b s = Done tt (closing_state s t x y st w)
    /\ (l <> [] -> forall u, t = Some u -> RtxTimer.is_running u = true)
    /\ (l <> [] -> st = ai_state s).
Proof.
  intros Hq. unfold postprocess_sack. op_step. rewrite (bind_run _ _ _ _ (is_empty_holds _ _ Hq)).
  destruct l as [|x l]; cbn [length Nat.eqb negb].
  - case_bool_decide; [|case_bool_decide]; op_steps; [| |destruct b; cbn [when]].
    + by exists (t3rtx s), true, (will_send_shutdown_ack s), ShutdownSent, true.
    + by exists (t3rtx s), (will_send_shutdown s), true, ShutdownAckSent, true.
    + by exists (t3rtx s), (will_send_shutdown s), (will_send_shutdown_ack s), (ai_state s), true.
    + exists (t3rtx s), (will_send_shutdown s), (will_send_shutdown_ack s), (ai_state s), (awake s).
      split; [by destruct s|done].
  - destruct (start_t3 s) as (t & Ht & Hrun). rewrite bind_assoc, (bind_Done _ _ _ _ _ Ht). op_steps.
    exists t, (will_send_shutdown s), (will_send_shutdown_ack s), (ai_state s).
    destruct b; cbn [when]; [by exists true|]. exists (awake s). by split_and!.
Qed.

(** ** SACKs *)

Lemma sna32gt_close a b : is_u 32 a -> is_u 32 b -> Z.abs (a - b) < 2 ^ 31 -> sna32gt a b = (b <? a).
Proof. intros Ha Hb H. rewrite <-(sna32gt_window a b H). by rewrite !as_u_small. Qed.

(** The counters of congestion control have room for one more SACK. *)
Record counters_fit (s : AssociationInternal) : Prop := {
  cf_cwnd : 0 <= cwnd s < 2 ^ 31;
  cf_mtu : 0 <= mtu s <= 65535;
  cf_partial : 0 <= partial_bytes_acked s < 2 ^ 31 }.

Definition takes_sacks (st : AssociationState) : Prop :=
  st = Established \/ st = ShutdownPending \/ st = ShutdownReceived.

Section sack.
  Context (iter : forall A, gmap Z A -> list (Z * A))
    (iter_all : forall A (m : gmap Z A), iter A m ≡ₚ map_to_list m).

Lemma total_acked acc s :
  acc_ok acc -> acc_sum acc < 2 ^ 63 -> sum_i64 (map snd (iter Z acc)) s = Done (acc_sum acc) s.
Proof using iter_all.
  intros Hok Hs. assert (forall l l', l ≡ₚ l' -> foldr Z.add 0 l = foldr Z.add 0 l') as Hperm
    by (clear; induction 1; cbn; lia).
  assert (map snd (iter Z acc) ≡ₚ map snd (map_to_list acc)) as Hp by (apply Permutation_map, iter_all).
  unfold sum_i64. rewrite acc_sum_list in *. rewrite sum_i64_spec; rewrite ?(Hperm _ _ Hp); [done| |lia|lia].
  rewrite Hp. apply Forall_fmap, Forall_forall. intros [si v] Hin%elem_of_map_to_list. by apply Hok in Hin.
Qed.

(** The part after the acknowledgements are processed, of a state [s] in which they
    are. *)
Lemma sack_tail now d s state advanced htna :
  let cum := cumulative_tsn_ack d in
  in_flight now (cum + 1) (my_next_tsn s) (inflight_queue s) -> cumulative_tsn_ack_point s = cum ->
  0 <= cum < my_next_tsn s -> my_next_tsn s < 2 ^ 32 -> my_next_tsn s - cum < 2 ^ 31 ->
  cum <= htna < my_next_tsn s -> 0 <= mtu s <= 65535 ->
  0 <= advanced_peer_tsn_ack_point s < my_next_tsn s -> my_next_tsn s - advanced_peer_tsn_ack_point s < 2 ^ 31 ->
  Z.of_nat (pq_n_bytes (inflight_queue s)) < 2 ^ 31 -> 0 <= sack_receiver_window_credit d ->
  measurable (rto_mgr s) ->
  exists s',
    (s ← get;
     let bytes_outstanding := as_u 32 (Z.of_nat (PayloadQueue.get_num_bytes (inflight_queue s))) in
     _ ← (if bytes_outstanding >=? sack_receiver_window_credit d then assign rwnd 0
          else assign rwnd (sack_receiver_window_credit d - bytes_outstanding));
     _ ← process_fast_retransmission cum htna advanced;
     s ← get;
     _ ← when (use_forward_tsn s)
           (_ ← when (sna32lt (advanced_peer_tsn_ack_point s) (cumulative_tsn_ack_point s))
                  (assign advanced_peer_tsn_ack_point (cumulative_tsn_ack_point s));
            _ ← try_advance_peer_ack_point;
            awake_write_loop);
     _ ← postprocess_sack state advanced;
     mret ([] : list Packet)) s = Done [] s'
    /\ sending now s' /\ cumulative_tsn_ack_point s' = cum /\ my_next_tsn s' = my_next_tsn s
    /\ marked [] (inflight_queue s) (inflight_queue s')
    /\ rwnd s' = Z.max 0 (sack_receiver_window_credit d - Z.of_nat (pq_n_bytes (inflight_queue s')))
    /\ (cum + 1 < my_next_tsn s -> forall u, t3rtx s' = Some u -> RtxTimer.is_running u = true).
Proof using Type.
  intros cum Hq Hpt Hcum Hn Hw Hh Hmtu Hadv Hadvw Hb Hcr Hm. op_step.
  unfold PayloadQueue.get_num_bytes. rewrite as_u_small by (unfold is_u; lia).
  set (r := Z.max 0 (sack_receiver_window_credit d - Z.of_nat (pq_n_bytes (inflight_queue s)))).
  rewrite (bind_Done _ _ _ tt (s {{ rwnd := r }})).
  2: { unfold r. destruct (Z.geb_spec (Z.of_nat (pq_n_bytes (inflight_queue s))) (sack_receiver_window_credit d)).
       - by rewrite Z.max_l by lia.
       - by rewrite Z.max_r by lia. }
  set (s1 := s {{ rwnd := r }}).
  destruct (fast_retransmission_spec now cum (my_next_tsn s) htna advanced s1)
    as (q & fr & ep & ss & w & p & rf & Hrun & Hq1 & Hmk & Hb1); try done.
  rewrite (bind_Done _ _ _ _ _ Hrun). op_step. set (s2 := missed_state s1 q fr ep ss w p rf).
  destruct (forward_part now cum (my_next_tsn s) s2) as (z & f & aw & Hfwd & Hz & Hzw); try done.
  rewrite (bind_Done _ _ _ _ _ Hfwd).
  set (s3 := s2 {{ advanced_peer_tsn_ack_point := z }} {{ will_send_forward_tsn := f }} {{ awake := aw }}).
  destruct (postprocess_spec state advanced s3 _ (if_holds _ _ _ _ Hq1)) as (t & x & y & st & aw' & Hpost & Ht3 & _).
  rewrite (bind_Done _ _ _ _ _ Hpost). exists (closing_state s3 t x y st aw'). split; [done|].
  change (pq_n_bytes (inflight_queue s1)) with (pq_n_bytes (inflight_queue s)) in Hb1.
  split_and!; try done.
  - split; [change (0 <= cumulative_tsn_ack_point s < my_next_tsn s
      /\ my_next_tsn s < 2 ^ 32 /\ my_next_tsn s - cumulative_tsn_ack_point s < 2 ^ 31); rewrite Hpt; lia|done| |done|].
    + change (in_flight now (cumulative_tsn_ack_point s + 1) (my_next_tsn s) q). by rewrite Hpt.
    + change (Z.of_nat (pq_n_bytes q) < 2 ^ 31). by rewrite Hb1.
  - change (r = Z.max 0 (sack_receiver_window_credit d - Z.of_nat (pq_n_bytes q))). by rewrite Hb1.
  - intros Hlt u Hu. apply Ht3; [|done]. rewrite seqZ_cons by lia. done.
Qed.

Lemma ack_point_part now old cum b total s :
  in_flight now (cum + 1) b (inflight_queue s) -> cumulative_tsn_ack_point s = old -> 0 <= old <= cum ->
  cum < 2 ^ 32 -> cum - old < 2 ^ 31 -> 0 <= total < 2 ^ 31 -> 0 <= cwnd s < 2 ^ 31 -> 0 <= mtu s <= 65535 ->
  0 <= partial_bytes_acked s < 2 ^ 31 ->
  exists t p w,
    when (sna32lt old cum)
      (_ ← assign cumulative_tsn_ack_point cum; on_cumulative_tsn_ack_point_advanced total) s
    = Done tt (s {{ cumulative_tsn_ack_point := cum }} {{ t3rtx := t }} {{ partial_bytes_acked := p }}
                 {{ cwnd := w }}).
Proof using Type.
  intros Hq Hold H1 H2 H3 Ht Hc Hm Hp. rewrite sna32lt_close by (unfold is_u; lia).
  destruct (Z.ltb_spec old cum); cbn [when].
  - op_step. set (s2 := s {{ cumulative_tsn_ack_point := cum }}).
    destruct (ack_point_advanced_spec total s2 _ (if_holds _ _ _ _ Hq)) as (t & p & w & Hrun & _);
      [done|done|done|exact (proj1 Hp)| |by exists t, p, w].
    change (partial_bytes_acked s2) with (partial_bytes_acked s). lia.
  - exists (t3rtx s), (partial_bytes_acked s), (cwnd s). replace cum with old by lia. rewrite <-Hold. by destruct s.
Qed.

End sack.

(** ** Acknowledgements of data that was never sent *)

(** The loop empties the queue, and then finds nothing to pop. *)
Lemma pop_acked_beyond now n : forall fuel i cum acc s b,
  0 <= cumulative_tsn_ack_point s < 2 ^ 32 - 1 -> 1 <= i -> b = i + Z.of_nat n -> b <= cum -> cum < 2 ^ 32 ->
  cum - i < 2 ^ 31 ->
  in_flight now i b (inflight_queue s) -> measurable (rto_mgr s) -> acc_ok acc ->
  acc_sum acc + Z.of_nat (pq_n_bytes (inflight_queue s)) < 2 ^ 63 -> (n <= fuel)%nat ->
  exists q t z m f,
    pop_acked now fuel i cum acc s = Fails ErrInflightQueueTsnPop (acked_state s q t z m f) /\ holds [] q.
Proof.
  induction n as [|n IH]; intros fuel i cum acc s b Hcum Hi Hb Hbc Hb32 Hw Hq Hm Hok Hsum Hf;
    (assert (sna32lte i cum = true) as Hlte
       by (rewrite <-(as_u_small 32 i), <-(as_u_small 32 cum) by (unfold is_u; lia);
           rewrite sna32lte_window by lia; apply Z.leb_le; lia)).
  { assert (holds [] (inflight_queue s)) as Hh.
    { pose proof (if_holds _ _ _ _ Hq) as Hh. by replace (b - i) with 0 in Hh by lia. }
    assert (PayloadQueue.pop i (inflight_queue s) = Ret (None, inflight_queue s)) as Hpop.
    { unfold PayloadQueue.pop. by rewrite (holds_sorted _ _ Hh). }
    exists (inflight_queue s), (t3rtx s), (min_tsn2measure_rtt s), (rto_mgr s), (in_fast_recovery s).
    split; [|done]. destruct fuel; cbn [pop_acked]; rewrite Hlte; op_step; rewrite (bind_run _ _ _ _ Hpop); by destruct s. }
  destruct fuel as [|fuel]; [lia|]. cbn [pop_acked]. rewrite Hlte. op_step.
  destruct (in_flight_cons now i b _ Hq) as (c & q & Hpop & Hc & Hmap & Hq' & Hbytes & Hage & Hack);
    [lia|unfold is_u; lia|].
  rewrite (bind_run _ _ _ _ Hpop). op_steps. set (s1 := s {{ inflight_queue := q }}).
  destruct (ack_popped now i c acc s s1) as (acc1 & t & z & m & Hbody & Hm1 & Hok1 & Hsum1); try done; [lia|].
  rewrite (bind_Done _ _ _ _ _ Hbody).
  set (s2 := s1 {{ t3rtx := t }} {{ min_tsn2measure_rtt := z }} {{ rto_mgr := m }}).
  destruct (when_leave_recovery (in_fast_recovery s && (tsn c =? fast_recover_exit_point s)) s2) as [f Hl].
  rewrite (bind_Done _ _ _ _ _ Hl), bind_u32 by lia.
  destruct (IH fuel (i + 1) cum acc1 (s2 {{ in_fast_recovery := f }}) b) as (q' & t' & z' & m' & f' & Hrun & Hnil);
    try done; try lia.
  { change (pq_n_bytes (inflight_queue (s2 {{ in_fast_recovery := f }}))) with (pq_n_bytes q). lia. }
  by exists q', t', z', m', f'.
Qed.

Section bogus.
  Context (iter : forall A, gmap Z A -> list (Z * A)).

Lemma bind_Fails {A B} (m : op A) (f : A -> op B) s e s' : m s = Fails e s' -> (m ≫= f) s = Fails e s'.
Proof using Type. intros Hm. unfold mbind, op_bind. by rewrite Hm. Qed.

(** A SACK that passes the first checks of [handle_sack]. *)
Lemma sack_fails now d s e s' :
  takes_sacks (ai_state s) -> 0 <= cumulative_tsn_ack_point s <= cumulative_tsn_ack d ->
  cumulative_tsn_ack d < 2 ^ 32 -> cumulative_tsn_ack d - cumulative_tsn_ack_point s < 2 ^ 31 ->
  process_selective_ack now d (s {{ stats := AssociationStats.inc_sacks (stats s) }}) = Fails e s' ->
  handle_sack iter now d s = Fails e s'.
Proof using Type.
  intros Hst Hc Hb Hw Hp. unfold handle_sack. op_step.
  replace (negb (bool_decide (ai_state s = Established)) && negb (bool_decide (ai_state s = ShutdownPending))
    && negb (bool_decide (ai_state s = ShutdownReceived))) with false
    by (destruct Hst as [-> | [-> | ->]]; done).
  op_step. rewrite sna32gt_close by (unfold is_u; lia).
  replace (cumulative_tsn_ack d <? cumulative_tsn_ack_point s) with false by (symmetry; apply Z.ltb_ge; lia).
  by apply bind_Fails.
Qed.

(** The chunk after the ack point is not in flight: nothing can be acknowledged. *)
Lemma gap_after_ack_point now d s l :
  takes_sacks (ai_state s) -> 0 <= cumulative_tsn_ack_point s < cumulative_tsn_ack d ->
  cumulative_tsn_ack d < 2 ^ 32 -> cumulative_tsn_ack d - cumulative_tsn_ack_point s < 2 ^ 31 ->
  holds l (inflight_queue s) -> Forall (fun x => cumulative_tsn_ack_point s + 1 < x < 2 ^ 32) l ->
  exists s', handle_sack iter now d s = Fails ErrInflightQueueTsnPop s'
    /\ cumulative_tsn_ack_point s' = cumulative_tsn_ack_point s /\ inflight_queue s' = inflight_queue s.
Proof using Type.
  intros Hst Hc Hb Hw Hq Hl. set (s0 := s {{ stats := AssociationStats.inc_sacks (stats s) }}).
  exists (s0 {{ inflight_queue := inflight_queue s }}). split; [|done].
  apply sack_fails; try done; [lia|]. fold s0. unfold process_selective_ack. op_step.
  change (cumulative_tsn_ack_point s0) with (cumulative_tsn_ack_point s). rewrite bind_u32 by lia.
  apply bind_Fails. set (i := cumulative_tsn_ack_point s + 1). assert (i = cumulative_tsn_ack_point s + 1) by done.
  assert (sna32lte i (cumulative_tsn_ack d) = true) as Hlte.
  { assert (is_u 32 i) as Hi32 by (unfold is_u; lia).
    assert (is_u 32 (cumulative_tsn_ack d)) as Hc32 by (unfold is_u; lia).
    rewrite <-(as_u_small 32 _ Hi32), <-(as_u_small 32 _ Hc32).
    rewrite sna32lte_window by lia. apply Z.leb_le. lia. }
  assert (PayloadQueue.pop i (inflight_queue s0) = Ret (None, inflight_queue s)) as Hpop.
  { unfold PayloadQueue.pop. change (inflight_queue s0) with (inflight_queue s). rewrite (holds_sorted _ _ Hq).
    destruct l as [|x l]; cbn [map]; [done|]. apply Forall_cons in Hl as [Hx _].
    rewrite as_u_small by (unfold is_u; lia). by rewrite (proj2 (Z.eqb_neq _ _)) by lia. }
  destruct (length (sorted (inflight_queue s0))); cbn [pop_acked]; rewrite Hlte; op_step;
    by rewrite (bind_run _ _ _ _ Hpop).
Qed.

(** C39: A SACK for data that was never sent disables the association. It is answered with an
    error, but only after everything in flight was taken out of the queue while the acknowledged
    TSN stays behind; from then on, whatever is sent later, every SACK that acknowledges anything
    new fails in the same way and changes neither. *)
Theorem bogus_sack_wedges now d s :
  sending now s -> takes_sacks (ai_state s) ->
  my_next_tsn s <= cumulative_tsn_ack d < 2 ^ 32 ->
  cumulative_tsn_ack d - cumulative_tsn_ack_point s < 2 ^ 31 ->
  exists s', handle_sack iter now d s = Fails ErrInflightQueueTsnPop s'
    /\ holds [] (inflight_queue s') /\ cumulative_tsn_ack_point s' = cumulative_tsn_ack_point s
    /\ forall now' d' l s'', 
         takes_sacks (ai_state s'') -> cumulative_tsn_ack_point s'' = cumulative_tsn_ack_point s ->
         holds l (inflight_queue s'') -> Forall (fun x => my_next_tsn s <= x < 2 ^ 32) l ->
         cumulative_tsn_ack_point s + 1 < my_next_tsn s ->
         cumulative_tsn_ack_point s < cumulative_tsn_ack d' < 2 ^ 32 ->
         cumulative_tsn_ack d' - cumulative_tsn_ack_point s < 2 ^ 31 ->
         exists s3, handle_sack iter now' d' s'' = Fails ErrInflightQueueTsnPop s3
           /\ cumulative_tsn_ack_point s3 = cumulative_tsn_ack_point s
           /\ inflight_queue s3 = inflight_queue s''.
Proof using Type.
  intros [Hw _ Hq Hm Hb] Hst Hd Hdw. set (s0 := s {{ stats := AssociationStats.inc_sacks (stats s) }}).
  destruct (pop_acked_beyond now (Z.to_nat (my_next_tsn s - (cumulative_tsn_ack_point s + 1)))
    (length (sorted (inflight_queue s0))) (cumulative_tsn_ack_point s + 1) (cumulative_tsn_ack d) ∅ s0 (my_next_tsn s))
    as (q & t & z & m & f & Hrun & Hnil); try done; try lia.
  { change (0 <= cumulative_tsn_ack_point s < 2 ^ 32 - 1). lia. }
  { change (acc_sum ∅) with 0. change (inflight_queue s0) with (inflight_queue s). lia. }
  { change (inflight_queue s0) with (inflight_queue s).
    rewrite (holds_sorted _ _ (if_holds _ _ _ _ Hq)), length_map, length_seqZ. lia. }
  exists (acked_state s0 q t z m f). split; [|split_and!; [done|done|]].
  - apply sack_fails; try done; [lia..|]. fold s0. unfold process_selective_ack. op_step.
    change (cumulative_tsn_ack_point s0) with (cumulative_tsn_ack_point s). rewrite bind_u32 by lia.
    by apply bind_Fails.
  - intros now' d' l s'' Hst'' Hpt Hl Hf Hin Hd' Hdw'. rewrite <-Hpt.
    apply (gap_after_ack_point now' d' s'' l); rewrite ?Hpt; try done; try lia.
    eapply Forall_impl; [exact Hf|]. cbn. lia.
Qed.
End bogus.

(** ** Congestion avoidance with nothing to send

    [partial_bytes_acked] is reduced only while chunks are pending.  An association
    whose window is above the threshold and whose writes never have to wait adds up
    all bytes it ever has acknowledged, until the 32-bit sum overflows. *)
Lemma partial_bytes_add_up total s l :
  holds l (inflight_queue s) -> ssthresh s < cwnd s -> PendingQueue.is_empty (pending_queue s) = true ->
  is_u 32 total -> is_u 32 (partial_bytes_acked s) ->
  if partial_bytes_acked s + total <? 2 ^ 32
  then exists t, on_cumulative_tsn_ack_point_advanced total s
         = Done tt (s {{ t3rtx := t }} {{ partial_bytes_acked := partial_bytes_acked s + total }})
  else on_cumulative_tsn_ack_point_advanced total s = Crashes ArithmeticOverflow.
Proof.
  intros Hq Hw Hp Ht Hpb. unfold is_u in *. unfold on_cumulative_tsn_ack_point_advanced.
  assert (exists t, (if (length l =? 0)%nat then stop_timer T3RTX else start_timer T3RTX) s
    = Done tt (s {{ t3rtx := t }})) as [t Ht3].
  { destruct (length l =? 0)%nat; [apply stop_t3|]. destruct (start_t3 s) as (t & H & _). eauto. }
  destruct (Z.ltb_spec (partial_bytes_acked s + total) (2 ^ 32)); [exists t|]; op_step;
    rewrite (bind_run _ _ _ _ (is_empty_holds _ _ Hq)), (bind_Done _ _ _ _ _ Ht3);
    rewrite (proj2 (Z.leb_gt _ _)) by lia; rewrite as_u_small by (unfold is_u; lia).
  - rewrite bind_u32 by lia. op_step. rewrite Hp, andb_false_r. done.
  - unfold u32, mbind, op_bind, run. by rewrite checked_u_panic by (unfold is_u; lia).
Qed.

(** Three chunks in flight; the first and the last are acknowledged. *)
Definition demo_sent (t : Z) : ChunkPayloadData :=
  mkChunkPayloadData false true true false t 7 0 Binary [1; 2] false 0 1000000 1 0 false None.

Definition demo_flight : PayloadQueue :=
  PayloadQueue.push_no_check (demo_sent 102)
    (PayloadQueue.push_no_check (demo_sent 101)
       (PayloadQueue.push_no_check (demo_sent 100) PayloadQueue.new)).

Definition demo_sender : AssociationInternal :=
  (AssociationInternal.new 0 0 5000 5000 100 77)
    {{ ai_state := Established }} {{ my_next_tsn := 103 }} {{ inflight_queue := demo_flight }}
    {{ rto_mgr := RtoManager.set_rto 1000 true RtoManager.new }}.

Definition demo_sack (cum : Z) (blocks : list GapAckBlock) : ChunkSelectiveAck :=
  mkChunkSelectiveAck cum 1000 blocks [].

Lemma demo_sending : sending 5000000 demo_sender.
Proof.
  split; try done; [split|by apply fixed_rto_measurable].
  - change (seqZ (cumulative_tsn_ack_point demo_sender + 1) (my_next_tsn demo_sender - (cumulative_tsn_ack_point demo_sender + 1)))
      with (insert_abs 102 (insert_abs 101 (insert_abs 100 []))).
    repeat (apply push_no_check_holds; [|done|set_solver by lia|]); [apply holds_new|..];
      intros y; rewrite ?elem_of_insert_abs, elem_of_nil; lia.
  - cbn. by repeat apply map_Forall_insert_2.
  - cbn. by repeat apply map_Forall_insert_2.
Qed.


Lemma bogus_sack_wedges_witness :
  exists s', handle_sack (fun A m => map_to_list m) 5000000 (demo_sack 103 []) demo_sender
      = Fails ErrInflightQueueTsnPop s'
    /\ holds [] (inflight_queue s') /\ cumulative_tsn_ack_point s' = 99.
Proof.
  destruct (bogus_sack_wedges (fun A m => map_to_list m) 5000000 (demo_sack 103 []) demo_sender)
    as (s' & H1 & H2 & H3 & _).
  - exact demo_sending.
  - by left.
  - change (103 <= 103 < 2 ^ 32). lia.
  - change (103 - 99 < 2 ^ 31). lia.
  - by exists s'.
Defined.
