(* ===== verification/Handshake.v ===== *)
(** * The handshake of two associations

    Two endpoints, of which one or both open the association (the transport of
    webrtc lets both), exchange INIT, INIT-ACK, COOKIE-ECHO and COOKIE-ACK over a
    network that loses, repeats and reorders packets, while their timers send
    again.  The operations are those of the association: [handle_packet],
    [gather_outbound] and the expiry of a timer. *)

From stdpp Require Import base list gmap relations.
From Stdlib Require Import ZArith Lia.
From S2P Require Import Prelude Net Fallible SctpWire Reassembly SctpQueues SctpTimers SctpStream.
From S2P Require Import Association AssociationLogic Transfer.
Local Open Scope Z_scope.

(** ** One packet with one chunk *)

Definition started (s : AssociationInternal) : AssociationInternal :=
  s {{ delayed_ack_triggered := false }} {{ immediate_ack_triggered := false }}.

Section packets.
  Context (iter : forall A, gmap Z A -> list (Z * A)).

Lemma single_chunk now cookie p ch s s' :
  Packet.check_packet p = Ok tt -> chunks p = [ch] ->
  handle_chunk iter now cookie p ch (started s) = Done tt s' ->
  immediate_ack_triggered s' = false -> delayed_ack_triggered s' = false ->
  handle_packet iter now cookie p s = Done tt s'.
Proof.
  intros Hp Hc Hrun Hi Hd. unfold handle_packet. rewrite Hp, Hc. cbn [handle_chunks].
  rewrite (bind_Done _ _ _ tt (started s)) by done.
  rewrite bind_assoc, (bind_Done _ _ _ (inr tt) s') by (unfold attempt; by rewrite Hrun).
  op_steps. unfold handle_chunk_end. op_step. by rewrite Hi, Hd.
Qed.

Lemma single_chunk_error now cookie p ch s s' e :
  Packet.check_packet p = Ok tt -> chunks p = [ch] ->
  handle_chunk iter now cookie p ch (started s) = Fails e s' -> e <> ErrChunk ->
  immediate_ack_triggered s' = false -> delayed_ack_triggered s' = false ->
  handle_packet iter now cookie p s = Done tt s'.
Proof.
  intros Hp Hc Hrun He Hi Hd. unfold handle_packet. rewrite Hp, Hc. cbn [handle_chunks].
  rewrite (bind_Done _ _ _ tt (started s)) by done.
  rewrite bind_assoc, (bind_Done _ _ _ (inl e) s') by (unfold attempt; by rewrite Hrun).
  destruct e; try done; op_steps; unfold handle_chunk_end; op_step; by rewrite Hi, Hd.
Qed.

(** ** Endpoints and their packets *)

(** The ports, the random numbers and the configured buffer of an endpoint. *)
Record side := mkSide { sd_local : Z; sd_remote : Z; sd_tag : Z; sd_random : Z; sd_config : Z }.

Definition sd_tsn (d : side) : Z := if sd_random d =? 0 then sd_random d + 1 else sd_random d.
Definition sd_buffer (d : side) : Z := if sd_config d =? 0 then INITIAL_RECV_BUF_SIZE else sd_config d.

Definition extensions : Param := ParamSupportedExtensions [CT_RECONFIG; CT_FORWARD_TSN].

Definition init_chunk (ack : bool) (d : side) (ps : list Param) : ChunkInit :=
  mkChunkInit ack (sd_tag d) (sd_buffer d) 65535 65535 (sd_tsn d) (ps ++ [extensions]).

Definition packet_of (d : side) (tag : Z) (c : Chunk) : Packet :=
  mkPacket (sd_local d) (sd_remote d) tag [c] None.

Definition init_packet (me : side) : Packet := packet_of me 0 (CInit (init_chunk false me [])).
Definition init_ack_packet (me peer : side) (k : bytes) : Packet :=
  packet_of me (sd_tag peer) (CInit (init_chunk true me [ParamStateCookie k])).
Definition cookie_echo_packet (me peer : side) (k : bytes) : Packet :=
  packet_of me (sd_tag peer) (CCookieEcho k).
Definition cookie_ack_packet (me peer : side) : Packet := packet_of me (sd_tag peer) CCookieAck.

(** What an endpoint can be configured with. *)
Record wf_side (d : side) : Prop := {
  ws_ports : sd_local d <> 0 /\ sd_remote d <> 0;
  ws_tag : sd_tag d <> 0;
  ws_random : 0 <= sd_random d < 2 ^ 32;
  ws_buffer : 1500 <= sd_buffer d }.

Definition facing (me peer : side) : Prop :=
  sd_local peer = sd_remote me /\ sd_remote peer = sd_local me.

(** The endpoint that [Association::new] makes with these numbers. *)
Definition open_side (is_client : bool) (max_message_size : Z) (d : side) : res unit :=
  association_new is_client
    (AssociationInternal.new (sd_config d) max_message_size (sd_local d) (sd_remote d) (sd_random d) (sd_tag d)).

Definition asleep (t : option RtxTimer) : Prop := t ≫= RtxTimer.expire = None.

(** What stays the same in an endpoint during the handshake. *)
Record endpoint (me : side) (s : AssociationInternal) : Prop := mkEndpoint {
  ep_ports : ai_source_port s = sd_local me /\ ai_destination_port s = sd_remote me;
  ep_numbers : my_verification_tag s = sd_tag me /\ my_next_tsn s = sd_tsn me
    /\ max_receive_buffer_size s = sd_buffer me;
  ep_streams : my_max_num_inbound_streams s = 65535 /\ my_max_num_outbound_streams s = 65535;
  ep_inflight : inflight_queue s = PayloadQueue.new;
  ep_pending : PendingQueue.is_empty (pending_queue s) = true;
  ep_point : 0 <= cumulative_tsn_ack_point s < 2 ^ 32 - 1;
  ep_quiet : will_retransmit_fast s = false /\ will_retransmit_reconfig s = false
    /\ will_send_forward_tsn s = false /\ ack_state s = Idle;
  ep_timers : asleep (t2shutdown s) /\ asleep (t3rtx s) /\ asleep (treconfig s);
  ep_init : forall i, stored_init s = Some i -> i = init_chunk false me [] }.

(** What changes. *)
Record view := mkView {
  v_state : AssociationState;
  v_peer : Z * Z * bool;
  v_cookie : option bytes;
  v_queue : list Packet;
  v_init : option ChunkInit;
  v_echo : option bytes;
  v_done : list (option Error);
  v_t1init : option RtxTimer;
  v_t1cookie : option RtxTimer;
  v_rto : Z }.

Definition view_of (s : AssociationInternal) : view :=
  mkView (ai_state s) (peer_verification_tag s, peer_last_tsn s, use_forward_tsn s) (my_cookie s)
    (control_queue s) (stored_init s) (stored_cookie_echo s) (handshake_completed s) (t1init s) (t1cookie s)
    (RtoManager.get_rto (rto_mgr s)).

(** ** The steps of an endpoint *)

Section steps.
  Context (me peer : side).

(** The peer's tag, its first TSN and its support of FORWARD-TSN. *)
Definition peer_numbers : Z * Z * bool := (sd_tag peer, tsn_before (sd_tsn peer), true).

Definition says (p : Packet) (v : view) : view := v {{ v_queue := v_queue v ++ [p] }}.

Definition opens (v : view) : view :=
  v {{ v_init := None }} {{ v_echo := None }} {{ v_state := Established }}
    {{ v_done := v_done v ++ [None] }} {{ v_t1cookie := RtxTimer.stop <$> v_t1cookie v }}.

Definition got_init (fresh : bytes) (v : view) : view :=
  match v_state v with
  | Closed | CookieWait | CookieEchoed =>
      let k := default fresh (v_cookie v) in
      says (init_ack_packet me peer k) (v {{ v_peer := peer_numbers }} {{ v_cookie := Some k }})
  | _ => v
  end.

Definition got_init_ack (k : bytes) (v : view) : view :=
  match v_state v with
  | CookieWait =>
      says (cookie_echo_packet me peer k)
        (v {{ v_peer := peer_numbers }} {{ v_t1init := RtxTimer.stop <$> v_t1init v }} {{ v_init := None }}
           {{ v_echo := Some k }}
           {{ v_t1cookie := (fun t => (RtxTimer.start (v_rto v) t).2) <$> v_t1cookie v }}
           {{ v_state := CookieEchoed }})
  | _ => v
  end.

Definition got_cookie_echo (k : bytes) (v : view) : view :=
  match v_cookie v with
  | Some k' =>
      if decide (k' = k) then
        match v_state v with
        | Established => says (cookie_ack_packet me peer) v
        | Closed | CookieWait | CookieEchoed =>
            says (cookie_ack_packet me peer)
              (opens (v {{ v_t1init := RtxTimer.stop <$> v_t1init v }}))
        | _ => v
        end
      else v
  | None => v
  end.

Definition got_cookie_ack (v : view) : view :=
  match v_state v with CookieEchoed => (opens v) {{ v_init := v_init v }} | _ => v end.
End steps.

(** [s'] is what [m] makes of [s], an endpoint that looks like [v]. *)
Definition leads (me : side) (m : op unit) (s : AssociationInternal) (v : view) : Prop :=
  exists s', m s = Done tt s' /\ endpoint me s' /\ view_of s' = v.

Definition opening (st : AssociationState) : Prop :=
  st = Closed \/ st = CookieWait \/ st = CookieEchoed \/ st = Established.

Section handlers.
  Context (me peer : side) (wf_peer : wf_side peer) (apart : facing me peer).

Lemma leads_chunk now fresh p ch s v :
  Packet.check_packet p = Ok tt -> chunks p = [ch] ->
  (exists s', handle_chunk iter now fresh p ch (started s) = Done tt s'
     /\ (immediate_ack_triggered s' = false /\ delayed_ack_triggered s' = false)
     /\ endpoint me s' /\ view_of s' = v) ->
  leads me (handle_packet iter now fresh p) s v.
Proof using Type.
  intros Hp Hc (s' & Hrun & [Hi Hd] & He & Hv). exists s'. split; [|done]. by eapply single_chunk.
Qed.

Lemma check_packet_of tag c :
  (match c with CInit i => is_ack i = false -> tag = 0 | _ => True end) ->
  Packet.check_packet (packet_of peer tag c) = Ok tt.
Proof using wf_peer.
  intros Ht. destruct (ws_ports _ wf_peer) as [Hl Hr]. unfold Packet.check_packet, packet_of. cbn [source_port destination_port chunks verification_tag length].
  rewrite (proj2 (Z.eqb_neq _ _) Hl), (proj2 (Z.eqb_neq _ _) Hr).
  destruct c as [i| | | | | | | | | | | | | |]; try done. destruct (is_ack i); [done|]. by rewrite Ht.
Qed.

Lemma check_init ack ps : Chunk.check (CInit (init_chunk ack peer ps)) = Ok tt.
Proof using wf_peer.
  unfold Chunk.check, ChunkInit.check. cbn. rewrite (proj2 (Z.eqb_neq _ _) (ws_tag _ wf_peer)).
  by rewrite (proj2 (Z.ltb_ge _ _) (ws_buffer _ wf_peer)).
Qed.

Lemma receive_init now fresh s :
  endpoint me s -> opening (ai_state s) ->
  leads me (handle_packet iter now fresh (init_packet peer)) s (got_init me peer fresh (view_of s)).
Proof using wf_peer apart.
  intros Hs Ho. destruct apart as [Hp1 Hp2].
  assert (Packet.check_packet (init_packet peer) = Ok tt) as Hck by by apply check_packet_of.
  assert (Hc : chunks (init_packet peer) = [CInit (init_chunk false peer [])]) by done.
  destruct (decide (ai_state s = Established)) as [He|He].
  - exists (started s). split; [|split; [by destruct Hs|by unfold got_init; cbn [v_state view_of]; rewrite He]].
    apply (single_chunk_error now fresh _ _ s (started s) ErrHandleInitState Hck Hc); [|done..].
    unfold handle_chunk. rewrite check_init. cbn [propagate]. op_steps. cbn [is_ack init_chunk].
    unfold handle_init. op_steps. change (ai_state (started s)) with (ai_state s). by rewrite He.
  - destruct s, Hs as [[] (? & ? & ?) [] ??????]. cbn in *. subst.
    apply (leads_chunk now fresh _ _ _ _ Hck Hc). unfold started. fields.
    unfold handle_chunk. rewrite check_init. cbn [propagate]. op_steps. cbn [is_ack init_chunk].
    unfold handle_init. op_steps. fields.
    replace (_ && _ && _) with false by (by destruct Ho as [-> | [-> | [-> | ->]]]).
    op_steps. fields. cbn [packet_of init_packet source_port destination_port].
    rewrite Hp1, Hp2, !Z.eqb_refl.
    cbn [negb orb params init_chunk app init_forward_tsn when existsb extensions supports_forward_tsn].
    op_steps. fields. destruct my_cookie as [k|]; op_steps; fields; cbn [app].
    all: eexists; split; [reflexivity|]; split; [done|]; split; [by split|].
    all: unfold view_of, got_init; fields; cbn [v_state]; by destruct Ho as [-> | [-> | [-> | ->]]].
Qed.

Lemma receive_init_ack now fresh k s :
  endpoint me s -> opening (ai_state s) ->
  leads me (handle_packet iter now fresh (init_ack_packet peer me k)) s (got_init_ack me peer k (view_of s)).
Proof using wf_peer apart.
  intros Hs Ho. destruct apart as [Hp1 Hp2].
  assert (Packet.check_packet (init_ack_packet peer me k) = Ok tt) as Hck by by apply check_packet_of.
  apply (leads_chunk now fresh _ (CInit (init_chunk true peer [ParamStateCookie k])) _ _ Hck eq_refl).
  unfold handle_chunk. rewrite check_init. cbn [propagate]. op_steps. cbn [is_ack init_chunk].
  destruct s, Hs as [[] (? & ? & ?) [] ??????]. cbn in *. subst. unfold started. fields.
  unfold handle_init_ack. op_steps. fields. case_bool_decide as Hw; cbn [negb].
  - op_steps. fields. cbn [packet_of init_ack_packet source_port destination_port].
    rewrite Hp1, Hp2, !Z.eqb_refl. cbn [negb orb].
    change (init_ack_forward_tsn _) with true. change (last_cookie _) with (Some k). cbn [when].
    subst. unfold send_cookie_echo, push_control, awake_write_loop, set_state. op_runs. eexists. split; [reflexivity|]. split; [done|]. split; [by split|reflexivity].
  - op_steps. eexists. split; [reflexivity|]. split; [done|]. split; [by split|].
    unfold view_of, got_init_ack. fields. cbn [v_state]. by destruct Ho as [-> | [-> | [-> | ->]]].
Qed.

Lemma receive_cookie_echo now fresh k s :
  endpoint me s -> opening (ai_state s) -> (my_cookie s <> None -> (view_of s).(v_peer) = peer_numbers peer) ->
  leads me (handle_packet iter now fresh (cookie_echo_packet peer me k)) s
    (got_cookie_echo me peer k (view_of s)).
Proof using wf_peer.
  intros Hs Ho Hk.
  assert (Packet.check_packet (cookie_echo_packet peer me k) = Ok tt) as Hck by by apply check_packet_of.
  apply (leads_chunk now fresh _ (CCookieEcho k) _ _ Hck eq_refl).
  unfold handle_chunk. cbn [propagate Chunk.check]. op_steps.
  destruct s, Hs as [[] (? & ? & ?) [] ??????]. cbn in *. subst. unfold started. fields.
  unfold handle_cookie_echo. op_steps. fields. unfold got_cookie_echo. cbn [view_of v_cookie]. fields.
  destruct my_cookie as [k'|]; [|op_steps; eexists; split; [reflexivity|]; split; [done|]; by split].
  specialize (Hk ltac:(done)). injection Hk as -> -> ->.
  destruct (decide (k' = k)) as [-> | Hne].
  - rewrite bool_decide_true by done.
    destruct Ho as [-> | [-> | [-> | ->]]]; cbn [negb v_state];
      unfold handshake_done, awake_write_loop, set_state; op_runs;
      (eexists; split; [reflexivity|]; split; [done|]; split; [by split|reflexivity]).
  - rewrite bool_decide_false by done.
    destruct Ho as [-> | [-> | [-> | ->]]]; cbn [negb]; op_steps;
      (eexists; split; [reflexivity|]; split; [done|]; by split).
Qed.

Lemma receive_cookie_ack now fresh s :
  endpoint me s -> opening (ai_state s) ->
  leads me (handle_packet iter now fresh (cookie_ack_packet peer me)) s (got_cookie_ack (view_of s)).
Proof using wf_peer.
  intros Hs Ho.
  assert (Packet.check_packet (cookie_ack_packet peer me) = Ok tt) as Hck by by apply check_packet_of.
  apply (leads_chunk now fresh _ CCookieAck _ _ Hck eq_refl).
  unfold handle_chunk. cbn [propagate Chunk.check]. op_steps.
  destruct s, Hs as [[] (? & ? & ?) [] ??????]. cbn in *. subst. unfold started. fields.
  unfold handle_cookie_ack. op_steps. fields. unfold got_cookie_ack. cbn [view_of v_state].
  destruct Ho as [-> | [-> | [-> | ->]]]; (case_bool_decide; try done); cbn [negb];
    unfold handshake_done, set_state; op_runs;
    (eexists; split; [reflexivity|]; split; [done|]; split; [by split|reflexivity]).
Qed.

(** The write loop takes the queue. *)
Lemma gathers now s :
  endpoint me s -> opening (ai_state s) ->
  exists s', gather_outbound iter now s = Done (control_queue s, true) s'
    /\ endpoint me s' /\ view_of s' = (view_of s) {{ v_queue := [] }}.
Proof using Type.
  intros Hs Ho. exists (s {{ control_queue := [] }}). split; [|by destruct Hs].
  destruct Hs as [_ _ _ Hi Hp Hc (Hf & Hr & Hw & Ha) _ _]. unfold gather_outbound. op_steps.
  set (s0 := s {{ control_queue := [] }}).
  destruct Ho as [-> | [-> | [-> | ->]]]; [done..|].
  rewrite (bind_Done _ _ _ _ _ (retransmit_none now (control_queue s) s0 Hi Hc)).
  rewrite (bind_Done _ _ _ _ _ (nothing_pending iter now (control_queue s) s0 Hp Hr)).
  unfold gather_outbound_fast_retransmission_packets, gather_outbound_sack_packets,
    gather_outbound_forward_tsn_packets. op_steps.
  change (will_retransmit_fast s0) with (will_retransmit_fast s). rewrite Hf. op_steps.
  change (ack_state s0) with (ack_state s). rewrite Ha, bool_decide_false by done. op_steps.
  change (will_send_forward_tsn s0) with (will_send_forward_tsn s). rewrite Hw. done.
Qed.

(** A timer sends the stored chunk again, or gives up. *)
Definition retries (id : RtxTimerId) (v : view) : view :=
  match id with
  | T1Init =>
      match v_t1init v ≫= RtxTimer.expire with
      | Some (Some _, t) =>
          let v' := v {{ v_t1init := Some t }} in
          match v_init v with Some _ => says (init_packet me) v' | None => v' end
      | Some (None, t) =>
          v {{ v_t1init := Some t }} {{ v_done := v_done v ++ [Some ErrHandshakeInitAck] }}
      | None => v
      end
  | T1Cookie =>
      match v_t1cookie v ≫= RtxTimer.expire with
      | Some (Some _, t) =>
          let v' := v {{ v_t1cookie := Some t }} in
          match v_echo v with Some k => says (cookie_echo_packet me peer k) v' | None => v' end
      | Some (None, t) =>
          v {{ v_t1cookie := Some t }} {{ v_done := v_done v ++ [Some ErrHandshakeCookieEcho] }}
      | None => v
      end
  | _ => v
  end.

Local Ltac expired :=
  eexists; split;
    [ cbv beta iota delta
        [on_retransmission_timeout on_retransmission_failure attempt send_init send_cookie_echo push_control
         awake_write_loop handshake_done mbind op_bind get modify mret op_ret]; fields; reflexivity
    | split; [split|] ].

Lemma expires id s :
  endpoint me s -> (stored_cookie_echo s <> None -> (view_of s).(v_peer) = peer_numbers peer) ->
  leads me (rtx_timer_expires id) s (retries id (view_of s)).
Proof using Type.
  intros Hs Hk. unfold leads, rtx_timer_expires. op_step.
  destruct s, Hs as [[] (? & ? & ?) [] ??? ? (H2 & H3 & H4) Hin]. cbn in *. subst. unfold asleep in *.
  destruct id; cbn [timer set_timer retries view_of v_t1init v_t1cookie]; fields.
  - destruct (t1init ≫= RtxTimer.expire) as [[[n|] t]|]; op_runs; [|by expired..].
    destruct stored_init as [i|]; [pose proof (Hin i eq_refl); subst i|]; by expired.
  - destruct (t1cookie ≫= RtxTimer.expire) as [[[n|] t]|]; op_runs; [|by expired..].
    destruct stored_cookie_echo as [k|]; [specialize (Hk ltac:(done)); injection Hk as -> -> ->|]; by expired.
  - rewrite H2. by expired.
  - rewrite H3. by expired.
  - rewrite H4. by expired.
Qed.
End handlers.

(** ** Agreement *)

Definition late (v : view) : Prop := v_state v = CookieEchoed \/ v_state v = Established.

Section agreement.
  Context (client : bool) (me peer : side).

(** A packet that I have sent or will send tells something about us both: [v] is
    how I look and [u] how the peer does. *)
Definition good (v u : view) (p : Packet) : Prop :=
  p = init_packet me
  \/ (exists k, p = init_ack_packet me peer k /\ v_cookie v = Some k)
  \/ (exists k, p = cookie_echo_packet me peer k /\ v_cookie u = Some k /\ late v)
  \/ (p = cookie_ack_packet me peer /\ v_state v = Established).

Record half (v u : view) (sent : list Packet) : Prop := mkHalf {
  hv_state : opening (v_state v);
  hv_role : if client then v_state v <> Closed else v_state v = Closed \/ v_state v = Established;
  hv_knows : v_cookie v <> None \/ late v -> v_peer v = peer_numbers peer;
  hv_echo : forall k, v_echo v = Some k -> v_cookie u = Some k /\ late v;
  hv_established : v_state v = Established -> late u;
  hv_done : filter (fun r => r = None) (v_done v) = if decide (v_state v = Established) then [None] else [];
  hv_wait : v_state v = CookieWait -> v_init v <> None;
  hv_echoed : v_state v = CookieEchoed -> v_echo v <> None;
  hv_sent : Forall (good v u) (v_queue v ++ sent) }.

Record grows (v v' : view) : Prop := mkGrows {
  gr_cookie : forall k, v_cookie v = Some k -> v_cookie v' = Some k;
  gr_late : late v -> late v';
  gr_established : v_state v = Established -> v_state v' = Established }.

Lemma grows_refl v : grows v v.
Proof. by split. Qed.

Lemma good_grows v v' u u' p : grows v v' -> grows u u' -> good v u p -> good v' u' p.
Proof.
  intros [H1 H2 H3] [H4 _ _] [?|[(k & ? & ?)|[(k & ? & ? & ?)|[? ?]]]].
  - by left.
  - right; left. eauto.
  - right; right; left. exists k. eauto.
  - right; right; right. eauto.
Qed.

(** My part of the invariant does not suffer from what the peer does. *)
Lemma half_peer v u u' sent : grows u u' -> half v u sent -> half v u' sent.
Proof.
  intros Hg [H1 Hrole H2 H3 H5 H6 H7 H8 H9]. pose proof Hg as [G1 G2 G3]. split; auto.
  - intros k Hk. destruct (H3 k Hk). eauto.
  - eapply Forall_impl; [exact H9|]. intros p. by apply good_grows, Hg; apply grows_refl.
Qed.

Lemma sent_says v v' u q sent p :
  grows v v' -> good v' u p -> Forall (good v u) (q ++ sent) -> Forall (good v' u) ((q ++ [p]) ++ sent).
Proof.
  intros Hg Hp. rewrite !Forall_app. intros [H1 H2].
  assert (forall p, good v u p -> good v' u p) as Hi by (intros p'; by apply good_grows, grows_refl).
  split_and!; [eauto using Forall_impl|by apply Forall_singleton|eauto using Forall_impl].
Qed.

Lemma sent_same v v' u l : grows v v' -> Forall (good v u) l -> Forall (good v' u) l.
Proof. intros Hg Hl. eapply Forall_impl; [exact Hl|]. intros p. by apply good_grows, grows_refl. Qed.

Lemma half_opened v u :
  v_cookie v = None -> v_state v = (if client then CookieWait else Closed) -> v_echo v = None ->
  v_done v = [] -> (client = true -> v_init v <> None) ->
  v_queue v = (if client then [init_packet me] else []) -> half v u [].
Proof.
  intros H1 H2 H3 H4 H5 H6.
  split; unfold late, opening; rewrite ?H1, ?H2, ?H3, ?H4, ?H6; destruct client; try done; auto.
  - by intros [?|[?|?]].
  - by intros [?|[?|?]].
  - apply Forall_singleton. by left.
Qed.

Lemma half_init fresh v u sent :
  half v u sent -> half (got_init me peer fresh v) u sent /\ grows v (got_init me peer fresh v).
Proof.
  intros [H1 Hrole H2 H3 H5 H6 H7 H8 H9]. unfold got_init.
  assert (forall k, v_cookie v = Some k -> default fresh (v_cookie v) = k) as Hk by by intros k ->.
  set (v' := says _ _).
  assert (v_state v <> Established -> half v' u sent /\ grows v v') as Hv'.
  { intros He. assert (grows v v') as Hg by (split; [intros k Hk'; cbn; by rewrite (Hk k Hk')|done..]).
    split; [|done]. split; auto. apply (sent_says v); [done| |done]. right; left. by eexists. }
  assert (half v u sent) by done. pose proof (grows_refl v).
  destruct H1 as [E | [E | [E | E]]]; rewrite E in *; auto.
Qed.

Lemma half_init_ack k v u sent :
  half v u sent -> v_cookie u = Some k ->
  half (got_init_ack me peer k v) u sent /\ grows v (got_init_ack me peer k v).
Proof.
  intros Hv Hk. unfold got_init_ack. destruct (v_state v) eqn:E; try (by split; [|apply grows_refl]).
  destruct Hv as [H1 Hrole H2 H3 H5 H6 H7 H8 H9].
  set (v' := says _ _).
  assert (grows v v') as Hg by (split; [done|by left|by rewrite E]).
  split; [|done]. split; try done.
  - by right; right; left.
  - rewrite E in Hrole. destruct client; [done|]. by destruct Hrole.
  - intros k' [= <-]. split; [done|]. by left.
  - change (v_done v') with (v_done v). by rewrite H6, E.
  - apply (sent_says v); [done| |done]. right; right; left. exists k. split_and!; [done..|]. by left.
Qed.

Lemma half_opens v v' u sent :
  half v u sent -> grows v v' -> late u -> v_state v <> Established ->
  v_state v' = Established -> v_peer v' = peer_numbers peer -> v_echo v' = None ->
  v_done v' = v_done v ++ [None] -> Forall (good v' u) (v_queue v' ++ sent) -> half v' u sent.
Proof.
  intros [H1 Hrole H2 H3 H5 H6 H7 H8 H9] Hg Hl Hne He Hp Hno Hd Hq. split; rewrite ?He, ?Hno; try done.
  - by right; right; right.
  - destruct client; [done|by right].
  - rewrite Hd, filter_app, H6, decide_False by done. by rewrite decide_True.
Qed.

Lemma half_cookie_echo k v u sent :
  half v u sent -> v_cookie v = Some k -> late u ->
  half (got_cookie_echo me peer k v) u sent /\ grows v (got_cookie_echo me peer k v).
Proof.
  intros Hv Hk Hl. unfold got_cookie_echo. rewrite Hk, decide_True by done.
  set (v1 := says _ v). set (v2 := says _ (opens _)).
  assert (v_state v <> Established -> half v2 u sent /\ grows v v2) as Hv2.
  { intros He. assert (grows v v2) as Hg by (split; [done|by right|done]). split; [|done].
    apply (half_opens v); try done.
    - apply (hv_knows _ _ _ Hv). left. by rewrite Hk.
    - apply (sent_says v); [done| |apply Hv]. by right; right; right. }
  assert (v_state v = Established -> half v1 u sent /\ grows v v1) as Hv1.
  { intros He. assert (grows v v1) as Hg by by split. split; [|done]. destruct Hv. split; auto.
    apply (sent_says v); [done| |done]. by right; right; right. }
  destruct (hv_state _ _ _ Hv) as [E | [E | [E | E]]]; rewrite E in *; auto.
Qed.

Lemma half_cookie_ack v u sent :
  half v u sent -> v_state u = Established -> half (got_cookie_ack v) u sent /\ grows v (got_cookie_ack v).
Proof.
  intros Hv Hu. unfold got_cookie_ack. destruct (v_state v) eqn:E; try (by split; [|apply grows_refl]).
  set (v' := _ {{ v_init := _ }}).
  assert (grows v v') as Hg by (split; [done|by right|by rewrite E]). split; [|done].
  assert (late v) as Hlv by by left.
  apply (half_opens v); try done.
  - by right.
  - by rewrite E.
  - apply (hv_knows _ _ _ Hv). by right.
  - apply (sent_same v); [done|apply Hv].
Qed.

Lemma half_sends v u sent :
  half v u sent -> half (v {{ v_queue := [] }}) u (sent ++ v_queue v) /\ grows v (v {{ v_queue := [] }}).
Proof.
  intros [H1 Hrole H2 H3 H5 H6 H7 H8 H9]. split; [|by split]. split; auto. cbn [v_queue app].
  change (Forall (good v u) (sent ++ v_queue v)). apply Forall_app in H9 as [? ?].
  by apply Forall_app.
Qed.

Lemma half_retries id v u sent :
  half v u sent -> half (retries me peer id v) u sent /\ grows v (retries me peer id v).
Proof.
  intros Hv. pose proof (grows_refl v) as Hr. pose proof Hv as [H1 Hrole H2 H3 H5 H6 H7 H8 H9].
  assert (forall v' e, v_state v' = v_state v -> v_cookie v' = v_cookie v -> v_peer v' = v_peer v ->
    v_echo v' = v_echo v -> v_init v' = v_init v -> v_queue v' = v_queue v ->
    v_done v' = v_done v \/ v_done v' = v_done v ++ [Some e] -> half v' u sent /\ grows v v') as Hsame.
  { intros v' e E1 E2 E3 E4 E5 E6 E7.
    assert (grows v v') as Hg by (unfold late in *; split; unfold late; by rewrite ?E1, ?E2). split; [|done].
    unfold late in *. split; unfold late; rewrite ?E1, ?E2, ?E3, ?E4, ?E5, ?E6; auto.
    - rewrite <-H6. destruct E7 as [-> | ->]; [done|]. rewrite filter_app. cbn. by rewrite app_nil_r.
    - by apply (sent_same v). }
  assert (forall p v', half v' u sent /\ grows v v' -> good v' u p ->
    half (says p v') u sent /\ grows v (says p v')) as Hsays.
  { intros p v' [[] Hg] Hp. assert (grows v' (says p v')) as Hg' by by split.
    split; [|by destruct Hg, Hg'; split; eauto]. split; auto. by apply (sent_says v'). }
  destruct id; cbn [retries]; try done.
  - destruct (v_t1init v ≫= RtxTimer.expire) as [[[n|] t]|]; [|by eapply Hsame; try done; right|done].
    destruct (v_init v) eqn:Hi; [apply Hsays|]; try (by apply (Hsame _ ErrHandshakeInitAck); try done; left).
    by left.
  - destruct (v_t1cookie v ≫= RtxTimer.expire) as [[[n|] t]|]; [|by eapply Hsame; try done; right|done].
    destruct (v_echo v) as [k|] eqn:Hk; [apply Hsays|];
      try (by apply (Hsame _ ErrHandshakeInitAck); try done; left).
    destruct (H3 k eq_refl). right; right; left. by exists k.
Qed.
End agreement.

(** ** Two endpoints and a network

    The network keeps every packet that was sent: any of them may arrive at any
    time, again or never. *)
Record world := mkWorld {
  w_left : AssociationInternal;
  w_right : AssociationInternal;
  w_from_left : list Packet;
  w_from_right : list Packet }.

Definition turn (w : world) : world :=
  mkWorld (w_right w) (w_left w) (w_from_right w) (w_from_left w).

Inductive act :=
  | Arrives (i : nat) (now : Z) (fresh_cookie : bytes)
  | Sends (now : Z)
  | Expires (id : RtxTimerId).

Definition finish {A B} (r : res A) (f : A -> AssociationInternal -> B) : option B :=
  match r with Done a s => Some (f a s) | _ => None end.

(** The left endpoint does something; nothing when it fails or panics. *)
Definition acts (a : act) (w : world) : option world :=
  match a with
  | Arrives i now fresh_cookie =>
      match w_from_right w !! i with
      | Some p =>
          finish (handle_packet iter now fresh_cookie p (w_left w)) (fun _ s =>
            mkWorld s (w_right w) (w_from_left w) (w_from_right w))
      | None => Some w
      end
  | Sends now =>
      finish (gather_outbound iter now (w_left w)) (fun ps s =>
        mkWorld s (w_right w) (w_from_left w ++ ps.1) (w_from_right w))
  | Expires id =>
      finish (rtx_timer_expires id (w_left w)) (fun _ s =>
        mkWorld s (w_right w) (w_from_left w) (w_from_right w))
  end.

(** [true]: the left one acts. *)
Definition hs_step (e : bool * act) (w : world) : option world :=
  if e.1 then acts e.2 w else turn <$> acts e.2 (turn w).

Fixpoint hs_run (evs : list (bool * act)) (w : world) : option world :=
  match evs with [] => Some w | e :: evs => hs_step e w ≫= hs_run evs end.

(** Each side is opened as a client or as a server. *)
Definition hs_start (left_client right_client : bool) (left_max right_max : Z) (dl dr : side) : option world :=
  match open_side left_client left_max dl, open_side right_client right_max dr with
  | Done _ s, Done _ t => Some (mkWorld s t [] [])
  | _, _ => None
  end.

Section network.
  Context (left_client right_client : bool) (dl dr : side).

Record world_inv (w : world) : Prop := mkWorldInv {
  wi_left : endpoint dl (w_left w);
  wi_right : endpoint dr (w_right w);
  wi_left_half : half left_client dl dr (view_of (w_left w)) (view_of (w_right w)) (w_from_left w);
  wi_right_half : half right_client dr dl (view_of (w_right w)) (view_of (w_left w)) (w_from_right w) }.

(** What an act makes of the left endpoint's view. *)
Definition reaction (fresh : bytes) (p : Packet) (v : view) : view :=
  match chunks p with
  | [CInit c] =>
      if is_ack c then got_init_ack dl dr (default [] (last_cookie (params c))) v
      else got_init dl dr fresh v
  | [CCookieEcho k] => got_cookie_echo dl dr k v
  | [CCookieAck] => got_cookie_ack v
  | _ => v
  end.

Definition acted (a : act) (w : world) : view :=
  let v := view_of (w_left w) in
  match a with
  | Sends _ => v {{ v_queue := [] }}
  | Expires id => retries dl dr id v
  | Arrives i _ fresh => match w_from_right w !! i with Some p => reaction fresh p v | None => v end
  end.

Definition sent_by (a : act) (w : world) : list Packet :=
  match a with Sends _ => control_queue (w_left w) | _ => [] end.

Lemma arrives_ok i now fresh w p :
  wf_side dl -> wf_side dr -> facing dl dr -> world_inv w -> w_from_right w !! i = Some p ->
  exists s, handle_packet iter now fresh p (w_left w) = Done tt s /\ endpoint dl s
    /\ view_of s = acted (Arrives i now fresh) w
    /\ half left_client dl dr (view_of s) (view_of (w_right w)) (w_from_left w)
    /\ grows (view_of (w_left w)) (view_of s).
Proof using Type.
  intros Hl Hr Hf [Hel Her Hhl Hhr] Hp. cbn [acted]. rewrite Hp.
  pose proof (hv_sent _ _ _ _ _ _ Hhr) as Hg. apply Forall_app in Hg as [_ Hg].
  pose proof (Forall_lookup_1 _ _ _ _ Hg Hp) as Hgood. pose proof (hv_state _ _ _ _ _ _ Hhl) as Ho.
  destruct Hgood as [-> | [(k & -> & Hk) | [(k & -> & Hk & Hlate) | [-> He]]]]; cbn [chunks packet_of].
  - destruct (receive_init dl dr Hr Hf now fresh (w_left w) Hel Ho) as (s & Hrun & He & Hv).
    exists s. rewrite Hv. by destruct (half_init left_client dl dr fresh _ _ _ Hhl).
  - destruct (receive_init_ack dl dr Hr Hf now fresh k (w_left w) Hel Ho) as (s & Hrun & He & Hv).
    exists s. rewrite Hv. by destruct (half_init_ack left_client dl dr k _ _ _ Hhl Hk).
  - destruct (receive_cookie_echo dl dr Hr now fresh k (w_left w) Hel Ho) as (s & Hrun & He & Hv).
    { intros Hc. apply (hv_knows _ _ _ _ _ _ Hhl). by left. }
    exists s. rewrite Hv. by destruct (half_cookie_echo left_client dl dr k _ _ _ Hhl Hk Hlate).
  - destruct (receive_cookie_ack dl dr Hr now fresh (w_left w) Hel Ho) as (s & Hrun & He' & Hv).
    exists s. rewrite Hv. by destruct (half_cookie_ack left_client dl dr _ _ _ Hhl He).
Qed.

Lemma acts_ok a w :
  wf_side dl -> wf_side dr -> facing dl dr -> world_inv w ->
  exists s, acts a w = Some (mkWorld s (w_right w) (w_from_left w ++ sent_by a w) (w_from_right w))
    /\ view_of s = acted a w
    /\ world_inv (mkWorld s (w_right w) (w_from_left w ++ sent_by a w) (w_from_right w)).
Proof using Type.
  intros Hl Hr Hf Hw. pose proof Hw as [Hel Her Hhl Hhr].
  assert (forall s sent, endpoint dl s -> half left_client dl dr (view_of s) (view_of (w_right w)) sent ->
    grows (view_of (w_left w)) (view_of s) -> world_inv (mkWorld s (w_right w) sent (w_from_right w))) as Hinv.
  { intros s sent He Hh Hg. split; try done. by eapply half_peer. }
  destruct a as [i now fresh|now|id]; cbn [acts sent_by]; rewrite ?app_nil_r.
  - destruct (w_from_right w !! i) as [p|] eqn:Hp.
    + destruct (arrives_ok i now fresh w p Hl Hr Hf Hw Hp) as (s & -> & He & Hv & Hh & Hg).
      exists s. split_and!; [done..|by apply Hinv].
    + exists (w_left w). cbn [acted]. rewrite Hp. by destruct w.
  - destruct (gathers dl now (w_left w) Hel (hv_state _ _ _ _ _ _ Hhl)) as (s & -> & He & Hv).
    exists s. destruct (half_sends left_client dl dr _ _ _ Hhl) as [Hh Hg]. rewrite <-Hv in Hh, Hg.
    split_and!; [done..|by apply Hinv].
  - destruct (expires dl dr id (w_left w) Hel) as (s & -> & He & Hv).
    { intros Hk. apply (hv_knows _ _ _ _ _ _ Hhl). right.
      destruct (stored_cookie_echo (w_left w)) as [k|] eqn:E; [|done].
      by apply (hv_echo _ _ _ _ _ _ Hhl k). }
    exists s. destruct (half_retries left_client dl dr id _ _ _ Hhl) as [Hh Hg]. rewrite <-Hv in Hh, Hg.
    split_and!; [done..|by apply Hinv].
Qed.

Lemma opened is_client max d :
  wf_side d ->
  exists s, open_side is_client max d = Done tt s /\ endpoint d s /\ v_cookie (view_of s) = None
    /\ v_state (view_of s) = (if is_client then CookieWait else Closed) /\ v_echo (view_of s) = None
    /\ v_done (view_of s) = [] /\ (is_client = true -> v_init (view_of s) <> None)
    /\ v_queue (view_of s) = (if is_client then [init_packet d] else []).
Proof using Type.
  intros [_ _ Hr _]. assert (0 < sd_tsn d < 2 ^ 32) as Ht by (unfold sd_tsn; destruct (Z.eqb_spec (sd_random d) 0); lia).
  unfold open_side, association_new, AssociationInternal.new. fold (sd_tsn d) (sd_buffer d).
  destruct is_client; op_runs; cbn [when]; unfold set_state, send_init, push_control, awake_write_loop; op_runs.
  all: eexists; split; [reflexivity|]; split; [split; cbn; try done; try lia; by intros i [= <-]|by split_and!].
Qed.
End network.

Lemma world_inv_turn cl cr dl dr w : world_inv cl cr dl dr w -> world_inv cr cl dr dl (turn w).
Proof using Type. by intros []. Qed.

Lemma facing_sym dl dr : facing dl dr -> facing dr dl.
Proof using Type. by intros []. Qed.

Section theorems.
  Context (cl cr : bool) (dl dr : side) (wf_l : wf_side dl) (wf_r : wf_side dr) (apart : facing dl dr).

Lemma hs_run_ok evs w :
  world_inv cl cr dl dr w -> exists w', hs_run evs w = Some w' /\ world_inv cl cr dl dr w'.
Proof using wf_l wf_r apart.
  revert w. induction evs as [|[[] a] evs IH]; intros w Hw; cbn [hs_run hs_step fst snd]; [eauto|..].
  - destruct (acts_ok cl cr dl dr a w wf_l wf_r apart Hw) as (s & -> & _ & Hw'). by apply IH.
  - destruct (acts_ok cr cl dr dl a (turn w) wf_r wf_l (facing_sym _ _ apart) (world_inv_turn _ _ _ _ _ Hw))
      as (s & -> & _ & Hw'). apply IH. by apply world_inv_turn in Hw'.
Qed.

Lemma hs_start_ok ml mr : exists w, hs_start cl cr ml mr dl dr = Some w /\ world_inv cl cr dl dr w.
Proof using wf_l wf_r.
  destruct (opened cl ml dl wf_l) as (s & Hs & H1 & H2 & H3 & H4 & H5 & H6 & H7).
  destruct (opened cr mr dr wf_r) as (t & Ht & G1 & G2 & G3 & G4 & G5 & G6 & G7).
  exists (mkWorld s t [] []). unfold hs_start. rewrite Hs, Ht. split; [done|].
  split; [done..|by apply half_opened|by apply half_opened].
Qed.

(** ** The handshake can always be completed *)

Definition both_established (w : world) : Prop :=
  ai_state (w_left w) = Established /\ ai_state (w_right w) = Established.

Definition finishes (w : world) : Prop := exists evs w', hs_run evs w = Some w' /\ both_established w'.

Lemma finishes_step e w w' : hs_step e w = Some w' -> finishes w' -> finishes w.
Proof using Type. intros He (evs & w2 & Hr & Hb). exists (e :: evs), w2. split; [|done]. cbn. by rewrite He. Qed.

Lemma turn_turn w : turn (turn w) = w.
Proof using Type. by destruct w. Qed.

Lemma hs_run_turn evs w :
  hs_run (map (fun e => (negb e.1, e.2)) evs) (turn w) = turn <$> hs_run evs w.
Proof using Type.
  revert w. induction evs as [|[[] a] evs IH]; intros w; cbn [hs_run map negb fst snd hs_step]; [done|..].
  - rewrite turn_turn. by destruct (acts a w) as [w'|]; [apply IH|].
  - destruct (acts a (turn w)) as [w'|]; [|done].
    specialize (IH (turn w')). by rewrite turn_turn in IH.
Qed.

Lemma finishes_turn w : finishes (turn w) -> finishes w.
Proof using Type.
  intros (evs & w' & Hr & H1 & H2). exists (map (fun e => (negb e.1, e.2)) evs), (turn w'). split; [|done].
  by rewrite <-(turn_turn w), hs_run_turn, Hr.
Qed.
End theorems.

(** A step of the left endpoint, in a chain of steps that completes the handshake. *)
Lemma finishes_act cl cr dl dr a w :
  wf_side dl -> wf_side dr -> facing dl dr -> world_inv cl cr dl dr w ->
  (forall w', world_inv cl cr dl dr w' -> view_of (w_left w') = acted dl dr a w -> w_right w' = w_right w ->
     w_from_left w' = w_from_left w ++ sent_by a w -> w_from_right w' = w_from_right w -> finishes w') ->
  finishes w.
Proof using Type.
  intros Hl Hr Hf Hw Hk. destruct (acts_ok cl cr dl dr a w Hl Hr Hf Hw) as (s & Ha & Hv & Hw').
  eapply (finishes_step (true, a)); [exact Ha|]. by apply Hk.
Qed.

(** What I have to say reaches the peer. *)
Lemma finishes_tells cl cr dl dr p w :
  wf_side dl -> wf_side dr -> facing dl dr -> world_inv cl cr dl dr w -> p ∈ v_queue (view_of (w_left w)) ->
  (forall w', world_inv cl cr dl dr w' -> view_of (w_left w') = (view_of (w_left w)) {{ v_queue := [] }} ->
     view_of (w_right w') = reaction dr dl [] p (view_of (w_right w)) -> finishes w') ->
  finishes w.
Proof using Type.
  intros Hl Hr Hf Hw Hp Hk.
  apply (finishes_act cl cr dl dr (Sends 0) w Hl Hr Hf Hw). intros w1 Hw1 Hv1 Hr1 Hs1 _.
  assert (p ∈ w_from_left w1) as (i & Hi)%list_elem_of_lookup_1 by (rewrite Hs1; apply elem_of_app; by right).
  apply finishes_turn.
  apply (finishes_act cr cl dr dl (Arrives i 0 []) (turn w1) Hr Hl (facing_sym _ _ Hf) (world_inv_turn _ _ _ _ _ Hw1)).
  intros w2 Hw2 Hv2 Hr2 _ _. apply finishes_turn, Hk; cbn [turn w_left w_right].
  - by apply world_inv_turn in Hw2.
  - by rewrite Hr2.
  - rewrite Hv2. cbn [acted turn w_from_right w_left]. by rewrite Hi, Hr1.
Qed.

Section completion.
  Context (cl cr : bool) (dl dr : side) (wf_l : wf_side dl) (wf_r : wf_side dr) (apart : facing dl dr).

(** The endpoint that waits for the acknowledgement of its cookie sends it again. *)
Lemma finishes_echoed k w :
  world_inv cl cr dl dr w -> v_state (view_of (w_left w)) = CookieEchoed ->
  v_cookie (view_of (w_right w)) = Some k ->
  cookie_echo_packet dl dr k ∈ v_queue (view_of (w_left w)) -> finishes w.
Proof using wf_l wf_r apart.
  intros Hw Hl Hk Hp. apply (finishes_tells cl cr dl dr _ w wf_l wf_r apart Hw Hp). intros w1 Hw1 Hv1 Hr1.
  assert (v_state (view_of (w_right w1)) = Established
    /\ cookie_ack_packet dr dl ∈ v_queue (view_of (w_right w1))) as [He Hq].
  { rewrite Hr1. unfold reaction. cbn [chunks cookie_echo_packet packet_of]. unfold got_cookie_echo.
    rewrite Hk, decide_True by done.
    destruct (hv_state _ _ _ _ _ _ (wi_right_half _ _ _ _ _ Hw)) as [E | [E | [E | E]]]; rewrite E;
      (split; [by rewrite ?E|apply elem_of_app; right; by left]). }
  apply finishes_turn.
  apply (finishes_tells cr cl dr dl _ (turn w1) wf_r wf_l (facing_sym _ _ apart) (world_inv_turn _ _ _ _ _ Hw1) Hq).
  intros w2 Hw2 Hv2 Hr2. exists [], w2. split; [done|].
  change (v_state (view_of (w_left w2)) = Established /\ v_state (view_of (w_right w2)) = Established).
  cbn [turn w_left w_right] in *. rewrite Hv2, Hr2, Hv1. split; [exact He|].
  unfold reaction. cbn [chunks cookie_ack_packet packet_of]. unfold got_cookie_ack.
  change (v_state ((view_of (w_left w)) {{ v_queue := [] }})) with (v_state (view_of (w_left w))).
  by rewrite Hl.
Qed.

(** The endpoint that waits for an answer to its INIT sends it again. *)
Lemma finishes_waiting w :
  world_inv cl cr dl dr w -> v_state (view_of (w_left w)) = CookieWait ->
  init_packet dl ∈ v_queue (view_of (w_left w)) -> finishes w.
Proof using wf_l wf_r apart.
  intros Hw Hl Hp. apply (finishes_tells cl cr dl dr _ w wf_l wf_r apart Hw Hp). intros w1 Hw1 Hv1 Hr1.
  assert (exists k, v_cookie (view_of (w_right w1)) = Some k
    /\ init_ack_packet dr dl k ∈ v_queue (view_of (w_right w1))) as (k & Hk & Hq).
  { rewrite Hr1. unfold reaction. cbn [chunks init_packet packet_of is_ack init_chunk]. unfold got_init.
    destruct (hv_state _ _ _ _ _ _ (wi_right_half _ _ _ _ _ Hw)) as [E | [E | [E | E]]]; rewrite E.
    4: { destruct (hv_established _ _ _ _ _ _ (wi_right_half _ _ _ _ _ Hw) E); congruence. }
    all: eexists; split; [done|apply elem_of_app; right; by left]. }
  apply finishes_turn.
  apply (finishes_tells cr cl dr dl _ (turn w1) wf_r wf_l (facing_sym _ _ apart) (world_inv_turn _ _ _ _ _ Hw1) Hq).
  intros w2 Hw2 Hv2 Hr2. apply finishes_turn. cbn [turn w_left w_right] in *.
  assert (view_of (w_right w2) = got_init_ack dl dr k (view_of (w_left w1))) as Hv by done.
  unfold got_init_ack in Hv.
  replace (v_state (view_of (w_left w1))) with CookieWait in Hv by (rewrite Hv1; by rewrite <-Hl).
  apply (finishes_echoed k); cbn [turn w_left w_right].
  - by apply world_inv_turn in Hw2.
  - by rewrite Hv.
  - by rewrite Hv2.
  - rewrite Hv. apply elem_of_app. right. by left.
Qed.

(** The timer that would send the chunk again still runs. *)
Definition can_retry (s : AssociationInternal) : Prop :=
  match ai_state s with
  | CookieWait => exists n t, t1init s ≫= RtxTimer.expire = Some (Some n, t)
  | CookieEchoed => exists n t, t1cookie s ≫= RtxTimer.expire = Some (Some n, t)
  | _ => True
  end.

Lemma finishes_retry w :
  world_inv cl cr dl dr w -> can_retry (w_left w) ->
  ai_state (w_left w) = CookieWait \/ ai_state (w_left w) = CookieEchoed -> finishes w.
Proof using wf_l wf_r apart.
  intros Hw Hc Hst. pose proof (wi_left_half _ _ _ _ _ Hw) as Hh.
  destruct Hst as [E|E]; unfold can_retry in Hc; rewrite E in Hc; destruct Hc as (n & t & Ht).
  - apply (finishes_act cl cr dl dr (Expires T1Init) w wf_l wf_r apart Hw). intros w1 Hw1 Hv1 _ _ _.
    cbn [acted retries] in Hv1. change (v_t1init (view_of (w_left w))) with (t1init (w_left w)) in Hv1.
    rewrite Ht in Hv1. destruct (v_init (view_of (w_left w))) eqn:Hi; [|by destruct (hv_wait _ _ _ _ _ _ Hh E)].
    apply finishes_waiting; [done|by rewrite Hv1|]. rewrite Hv1. apply elem_of_app. right. by left.
  - apply (finishes_act cl cr dl dr (Expires T1Cookie) w wf_l wf_r apart Hw). intros w1 Hw1 Hv1 Hr1 _ _.
    cbn [acted retries] in Hv1. change (v_t1cookie (view_of (w_left w))) with (t1cookie (w_left w)) in Hv1.
    rewrite Ht in Hv1.
    destruct (v_echo (view_of (w_left w))) as [k|] eqn:Hi; [|by destruct (hv_echoed _ _ _ _ _ _ Hh E)].
    apply (finishes_echoed k); [done|by rewrite Hv1| |].
    + rewrite Hr1. by apply (hv_echo _ _ _ _ _ _ Hh).
    + rewrite Hv1. apply elem_of_app. right. by left.
Qed.
End completion.

(** ** Results *)

Section results.
  Context (cl cr : bool) (dl dr : side) (wf_l : wf_side dl) (wf_r : wf_side dr) (apart : facing dl dr).

(** Everything that is under way gets lost. *)
Definition lost (w : world) : world := mkWorld (w_left w) (w_right w) [] [].

Lemma half_lost client me peer v u sent : half client me peer v u sent -> half client me peer v u [].
Proof using Type.
  intros [H1 Hrole H2 H3 H5 H6 H7 H8 H9]. split; auto. apply Forall_app in H9 as [? _]. by rewrite app_nil_r.
Qed.

Lemma world_inv_lost w : world_inv cl cr dl dr w -> world_inv cl cr dl dr (lost w).
Proof using Type. intros []. split; [done..| |]; by eapply half_lost. Qed.

(** [s] has the numbers of [t]. *)
Definition knows (s t : AssociationInternal) : Prop :=
  peer_verification_tag s = my_verification_tag t /\ peer_last_tsn s = tsn_before (my_next_tsn t)
  /\ use_forward_tsn s = true.

Definition agreed (s t : AssociationInternal) : Prop :=
  knows s t /\ knows t s /\ (ai_state t = CookieEchoed \/ ai_state t = Established)
  /\ filter (fun r => r = None) (handshake_completed s) = [None].

Lemma numbers_known peer s t :
  endpoint peer t -> v_peer (view_of s) = peer_numbers peer -> knows s t.
Proof using Type.
  intros [_ (H1 & H2 & _) _ _ _ _ _ _ _] [= E1 E2 E3]. unfold knows. by rewrite H1, H2.
Qed.

Lemma established_agreed c1 c2 me peer w :
  world_inv c1 c2 me peer w -> ai_state (w_left w) = Established ->
  agreed (w_left w) (w_right w) /\ (c2 = false -> ai_state (w_right w) = Established).
Proof using Type.
  intros [Hel Her Hhl Hhr] He. pose proof (hv_established _ _ _ _ _ _ Hhl He) as Hlate.
  split; [split_and!|].
  - apply (numbers_known peer); [done|]. apply (hv_knows _ _ _ _ _ _ Hhl). right. by right.
  - apply (numbers_known me); [done|]. apply (hv_knows _ _ _ _ _ _ Hhr). by right.
  - exact Hlate.
  - pose proof (hv_done _ _ _ _ _ _ Hhl) as Hd. by rewrite decide_True in Hd.
  - intros ->. pose proof (hv_role _ _ _ _ _ _ Hhr) as [E|E]; [|done]. destruct Hlate; congruence.
Qed.

(** C4: The two endpoints of an association agree. Whichever of them open it (one, or both at the
    same time as the WebRTC transport does), and however the packets of the handshake are lost,
    repeated or reordered and the timers expire, nothing fails or panics; and an endpoint that is
    established has reported so exactly once and knows the verification tag and the first TSN of
    the other, which knows those of the first and has at least sent back its cookie, or, when it is
    a server, is established itself. *)
Theorem handshake_agreement ml mr evs :
  exists w, hs_start cl cr ml mr dl dr ≫= hs_run evs = Some w
    /\ (ai_state (w_left w) = Established ->
        agreed (w_left w) (w_right w) /\ (cr = false -> ai_state (w_right w) = Established))
    /\ (ai_state (w_right w) = Established ->
        agreed (w_right w) (w_left w) /\ (cl = false -> ai_state (w_left w) = Established)).
Proof using wf_l wf_r apart.
  destruct (hs_start_ok cl cr dl dr wf_l wf_r ml mr) as (w0 & -> & Hw0).
  destruct (hs_run_ok cl cr dl dr wf_l wf_r apart evs w0 Hw0) as (w & Hr & Hw).
  exists w. split; [exact Hr|]. split.
  - by apply (established_agreed cl cr dl dr).
  - by apply (established_agreed cr cl dr dl (turn w)), world_inv_turn.
Qed.

(** C5: The handshake recovers from any losses. After any run as above, even if every packet under
    way is lost, there is a continuation that establishes both endpoints, as long as one of them
    is a client and the timers of those that wait have a retransmission left. *)
Theorem handshake_recovers ml mr evs w :
  cl || cr = true -> hs_start cl cr ml mr dl dr ≫= hs_run evs = Some w ->
  can_retry (w_left w) -> can_retry (w_right w) ->
  exists evs' w', hs_run evs' (lost w) = Some w' /\ both_established w'.
Proof using wf_l wf_r apart.
  intros Hclient Hrun Hcl Hcr.
  destruct (hs_start_ok cl cr dl dr wf_l wf_r ml mr) as (w0 & Hs & Hw0). rewrite Hs in Hrun.
  destruct (hs_run_ok cl cr dl dr wf_l wf_r apart evs w0 Hw0) as (w' & Hr & Hw).
  assert (w' = w) as -> by (cbn in Hrun; congruence). apply world_inv_lost in Hw.
  pose proof (wi_left_half _ _ _ _ _ Hw) as Hhl. pose proof (wi_right_half _ _ _ _ _ Hw) as Hhr.
  assert (ai_state (w_right w) = CookieWait \/ ai_state (w_right w) = CookieEchoed -> finishes (lost w)) as Hpeer.
  { intros Hst. apply finishes_turn. apply world_inv_turn in Hw.
    by apply (finishes_retry cr cl dr dl wf_r wf_l (facing_sym _ _ apart)). }
  destruct (hv_state _ _ _ _ _ _ Hhl) as [E | [E | [E | E]]].
  - apply Hpeer. pose proof (hv_role _ _ _ _ _ _ Hhl) as Hl. pose proof (hv_role _ _ _ _ _ _ Hhr) as Hrr.
    destruct cl; [done|]. cbn in Hclient. rewrite Hclient in Hrr.
    destruct (hv_state _ _ _ _ _ _ Hhr) as [E' | [E' | [E' | E']]]; [done|by left|by right|].
    destruct (hv_established _ _ _ _ _ _ Hhr E'); congruence.
  - apply (finishes_retry cl cr dl dr wf_l wf_r apart); [done..|by left].
  - apply (finishes_retry cl cr dl dr wf_l wf_r apart); [done..|by right].
  - destruct (hv_established _ _ _ _ _ _ Hhl E) as [E'|E']; [apply Hpeer; by right|]. by exists [], (lost w).
Qed.
End results.
End packets.

(** ** A concrete handshake *)

Definition demo_left : side := mkSide 5000 5000 11 100 0.
Definition demo_right : side := mkSide 5000 5000 22 0 0.

(** Both open; the first INIT of the right one arrives, and everything sent so far is
    lost. *)
Definition demo_handshake : list (bool * act) :=
  [(true, Sends 0); (false, Sends 0); (true, Arrives 0 1 [1; 2; 3]); (true, Sends 2)].

Definition demo_iter (A : Type) (m : gmap Z A) : list (Z * A) := map_to_list m.

Lemma demo_left_wf : wf_side demo_left.
Proof. by split; cbn; try lia. Qed.

Lemma demo_right_wf : wf_side demo_right.
Proof. by split; cbn; try lia. Qed.

(** The INIT-ACK of the left one brings back the cookie, which establishes it. *)
Definition demo_established : list (bool * act) :=
  demo_handshake ++ [(false, Arrives 1 3 []); (false, Sends 4); (true, Arrives 1 5 [])].

Definition demo_run (evs : list (bool * act)) : option world :=
  hs_start true true 0 0 demo_left demo_right ≫= hs_run demo_iter evs.

Lemma handshake_agreement_witness :
  exists w, demo_run demo_established = Some w
    /\ ai_state (w_left w) = Established /\ agreed (w_left w) (w_right w).
Proof.
  destruct (handshake_agreement demo_iter true true demo_left demo_right demo_left_wf demo_right_wf
    (conj eq_refl eq_refl) 0 0 demo_established) as (w & Hw & Ha & _).
  assert ((fun w => ai_state (w_left w)) <$> demo_run demo_established = Some Established) as He
    by (vm_compute; reflexivity).
  exists w. unfold demo_run in *. rewrite Hw in He. injection He as He. split; [exact Hw|]. split; [exact He|].
  apply Ha, He.
Defined.

Definition retry_left (s : AssociationInternal) : bool :=
  match t1init s ≫= RtxTimer.expire with Some (Some _, _) => bool_decide (ai_state s = CookieWait) | _ => false end.

Lemma retry_left_sound s : retry_left s = true -> can_retry s.
Proof.
  unfold retry_left, can_retry. destruct (t1init s ≫= RtxTimer.expire) as [[[n|] t]|]; try done.
  intros ->%bool_decide_eq_true. eauto.
Qed.

Lemma handshake_recovers_witness :
  exists w evs' w', demo_run demo_handshake = Some w /\ hs_run demo_iter evs' (lost w) = Some w'
    /\ both_established w'.
Proof.
  assert ((fun w => (retry_left (w_left w), retry_left (w_right w))) <$> demo_run demo_handshake
    = Some (true, true)) as Hr by (vm_compute; reflexivity).
  destruct (demo_run demo_handshake) as [w|] eqn:Hw; [|discriminate Hr]. injection Hr as H1 H2.
  destruct (handshake_recovers demo_iter true true demo_left demo_right demo_left_wf demo_right_wf
    (conj eq_refl eq_refl) 0 0 demo_handshake w eq_refl Hw (retry_left_sound _ H1) (retry_left_sound _ H2))
    as (evs' & w' & H & Hb).
  exists w, evs', w'. split; [reflexivity|]. by split.
Defined.
