(* ===== verification/Channel.v ===== *)
(** * Data channels over an association (vendored/webrtc-data)

    The messages of the Data Channel Establishment Protocol (message/), and the channel
    itself (data_channel/mod.rs): it opens a stream with a DATA_CHANNEL_OPEN, answers one
    with a DATA_CHANNEL_ACK, and maps the application's messages (strings or binary, also
    empty ones, which SCTP cannot send) to payload protocol identifiers.  The polling
    adapter for the async traits is left out. *)

From stdpp Require Import base list gmap strings.
From Stdlib Require Import ZArith Lia.
From coqutil Require Import Datatypes.RecordSetters.
From S2P Require Import Prelude Utf8 Net Fallible SctpWire Reassembly SctpQueues SctpTimers SctpStream.
From S2P Require Import Association AssociationLogic AssociationRecv Transfer.
Import DoubleBraceUpdate.
Local Open Scope Z_scope.
Local Open Scope list_scope.

Inductive DcError :=
  | UnexpectedEndOfBuffer (expected actual : nat)
  | InvalidMessageType (b : Z)
  | InvalidChannelType (b : Z)
  | InvalidPayloadProtocolIdentifier (b : Z)
  | DcStreamClosed
  | Sctp (e : Error)
  | FromUtf8Error.

(** ** Messages *)

Module ChannelType.
Inductive t :=
  | Reliable | ReliableUnordered | PartialReliableRexmit | PartialReliableRexmitUnordered
  | PartialReliableTimed | PartialReliableTimedUnordered.

Definition as_u8 (c : t) : Z :=
  match c with
  | Reliable => 0x00 | ReliableUnordered => 0x80 | PartialReliableRexmit => 0x01
  | PartialReliableRexmitUnordered => 0x81 | PartialReliableTimed => 0x02 | PartialReliableTimedUnordered => 0x82
  end.

Definition unmarshal (buf : bytes) : fallible DcError (t * bytes) :=
  match buf with
  | [] => Err (UnexpectedEndOfBuffer 1 0)
  | b0 :: buf =>
      match b0 with
      | 0x00 => Ok (Reliable, buf)
      | 0x80 => Ok (ReliableUnordered, buf)
      | 0x01 => Ok (PartialReliableRexmit, buf)
      | 0x81 => Ok (PartialReliableRexmitUnordered, buf)
      | 0x02 => Ok (PartialReliableTimed, buf)
      | 0x82 => Ok (PartialReliableTimedUnordered, buf)
      | _ => Err (InvalidChannelType b0)
      end
  end.
End ChannelType.
Abbreviation ChannelType := ChannelType.t.

Definition CHANNEL_OPEN_HEADER_LEN : nat := 11.

Record DataChannelOpen := mkDataChannelOpen {
  dco_channel_type : ChannelType;
  dco_priority : Z;
  dco_reliability_parameter : Z;
  dco_label : bytes;
  dco_protocol : bytes }.

Module DataChannelOpen.
(** Into a buffer of the right size. *)
Definition marshal (m : DataChannelOpen) : bytes :=
  put_u8 (ChannelType.as_u8 (dco_channel_type m)) ++ put_u16 (dco_priority m) ++ put_u32 (dco_reliability_parameter m)
    ++ put_u16 (as_u 16 (Z.of_nat (length (dco_label m)))) ++ put_u16 (as_u 16 (Z.of_nat (length (dco_protocol m))))
    ++ dco_label m ++ dco_protocol m.

(** [copy_to_slice] into a buffer of [n] bytes. *)
Definition copy (n : nat) (buf : bytes) : fallible DcError (bytes * bytes) :=
  if (length buf <? n)%nat then Panics IndexOutOfBounds else Ok (take n buf, drop n buf).

Definition unmarshal (buf : bytes) : fallible DcError DataChannelOpen :=
  if (length buf <? CHANNEL_OPEN_HEADER_LEN)%nat then Err (UnexpectedEndOfBuffer CHANNEL_OPEN_HEADER_LEN (length buf))
  else
    '(channel_type, buf) ← ChannelType.unmarshal buf;
    '(priority, buf) ← get_u16 buf;
    '(reliability_parameter, buf) ← get_u32 buf;
    '(label_len, buf) ← get_u16 buf;
    '(protocol_len, buf) ← get_u16 buf;
    let required_len := (Z.to_nat label_len + Z.to_nat protocol_len)%nat in
    if (length buf <? required_len)%nat then Err (UnexpectedEndOfBuffer required_len (length buf))
    else
      '(label, buf) ← copy (Z.to_nat label_len) buf;
      '(protocol, buf) ← copy (Z.to_nat protocol_len) buf;
      Ok (mkDataChannelOpen channel_type priority reliability_parameter label protocol).
End DataChannelOpen.

Inductive DcMessage := DcAck | DcOpen (m : DataChannelOpen).

Definition MESSAGE_TYPE_ACK : Z := 0x02.
Definition MESSAGE_TYPE_OPEN : Z := 0x03.

Module DcMessage.
Definition marshal (m : DcMessage) : bytes :=
  match m with
  | DcAck => [MESSAGE_TYPE_ACK]
  | DcOpen open => [MESSAGE_TYPE_OPEN] ++ DataChannelOpen.marshal open
  end.

Definition unmarshal (buf : bytes) : fallible DcError DcMessage :=
  match buf with
  | [] => Err (UnexpectedEndOfBuffer 1 0)
  | b :: buf =>
      if b =? MESSAGE_TYPE_ACK then Ok DcAck
      else if b =? MESSAGE_TYPE_OPEN then open ← DataChannelOpen.unmarshal buf; Ok (DcOpen open)
      else Err (InvalidMessageType b)
  end.
End DcMessage.

(** ** Channels *)

Record DcConfig := mkDcConfig {
  dc_channel_type : ChannelType;
  dc_negotiated : bool;
  dc_priority : Z;
  dc_reliability_parameter : Z;
  dc_label : string;
  dc_protocol : string;
  dc_max_message_size : Z }.

(** [dc_stream] is the number of the stream in the association's store. *)
Record DataChannel := mkDataChannel {
  dc_config : DcConfig;
  dc_stream : nat;
  messages_sent : nat;
  messages_received : nat;
  bytes_sent : nat;
  bytes_received : nat }.

(** Methods of a channel: errors are values, what the association did stays done. *)
Definition dc_op (A : Type) : Type := op (DcError + A).

#[export] Instance dc_op_ret : MRet dc_op := fun A a s => Done (inr a) s.
#[export] Instance dc_op_bind : MBind dc_op := fun A B f m s =>
  match m s with
  | Done (inr a) s => f a s
  | Done (inl e) s => Done (inl e) s
  | Fails e s => Fails e s
  | Crashes why => Crashes why
  | Hangs => Hangs
  end.

Definition dc_throw {A} (e : DcError) : dc_op A := fun s => Done (inl e) s.

(** [Error::Sctp(e)] *)
Definition sctp_call {A} (m : op A) : dc_op A := fun s =>
  match m s with
  | Done a s => Done (inr a) s
  | Fails e s => Done (inl (Sctp e)) s
  | Crashes why => Crashes why
  | Hangs => Hangs
  end.

Definition decoded {A} (r : fallible DcError A) : dc_op A := fun s =>
  match r with
  | Ok a => Done (inr a) s
  | Err e => Done (inl e) s
  | Panics why => Crashes why
  | NoFuel => Hangs
  end.

Module DataChannel.
Definition RECEIVE_MTU : nat := Z.to_nat 8192.

Definition new (stream : nat) (config : DcConfig) : DataChannel := mkDataChannel config stream 0 0 0 0.

(** [self.stream.set_..(..)]: a change of the shared stream. *)
Definition with_stream (h : nat) (f : Stream -> Stream) : dc_op unit :=
  fun s => Done (inr tt) (s {{ store := alter f h (store s) }}).

(** [client]: opens a channel on a stream; [dial] opens the stream first. *)
Definition client (now : Z) (stream : nat) (config : DcConfig) : dc_op DataChannel :=
  _ ← (if dc_negotiated config then mret tt
       else
         let msg := DcMessage.marshal
               (DcOpen (mkDataChannelOpen (dc_channel_type config) (dc_priority config) (dc_reliability_parameter config)
                          (bytes_of_string (dc_label config)) (bytes_of_string (dc_protocol config)))) in
         _ ← sctp_call (write_sctp now stream msg Dcep None);
         mret tt);
  mret (new stream config).

Definition dial (now : Z) (identifier : Z) (config : DcConfig) : dc_op DataChannel :=
  stream ← sctp_call (open_stream identifier Binary);
  client now stream config.

Definition write_data_channel_ack (now : Z) (stream : nat) : dc_op nat :=
  sctp_call (write_sctp now stream (DcMessage.marshal DcAck) Dcep None).

Definition reliability_of (t : ChannelType) : bool * ReliabilityType :=
  match t with
  | ChannelType.Reliable => (false, Reliable)
  | ChannelType.ReliableUnordered => (true, Reliable)
  | ChannelType.PartialReliableRexmit => (false, Rexmit)
  | ChannelType.PartialReliableRexmitUnordered => (true, Rexmit)
  | ChannelType.PartialReliableTimed => (false, Timed)
  | ChannelType.PartialReliableTimedUnordered => (true, Timed)
  end.

Definition commit_reliability_params (ch : DataChannel) : dc_op unit :=
  let '(unordered, reliability_type) := reliability_of (dc_channel_type (dc_config ch)) in
  with_stream (dc_stream ch)
    (Stream.set_reliability_params unordered reliability_type (dc_reliability_parameter (dc_config ch))).

(** [String::from_utf8] *)
Definition from_utf8 (b : bytes) : dc_op string :=
  if is_utf8 b then mret (string_of_bytes b) else dc_throw FromUtf8Error.

(** [server] on a stream whose next message has arrived; it waits ([None]) otherwise. *)
Definition server (now : Z) (stream : nat) (config : DcConfig) : dc_op (option DataChannel) :=
  r ← sctp_call (read_sctp stream RECEIVE_MTU);
  match r with
  | None => mret None
  | Some (ReassemblyQueue.ReadErr _ e) => dc_throw (Sctp e)
  | Some (ReassemblyQueue.ReadOk data ppi) =>
      if negb (bool_decide (ppi = Dcep)) then dc_throw (InvalidPayloadProtocolIdentifier (as_u 8 (u32_of_ppi ppi)))
      else
        msg ← decoded (DcMessage.unmarshal data);
        match msg with
        | DcAck => dc_throw (InvalidMessageType 0)
        | DcOpen dco =>
            label ← from_utf8 (dco_label dco);
            protocol ← from_utf8 (dco_protocol dco);
            let config := mkDcConfig (dco_channel_type dco) (dc_negotiated config) (dco_priority dco)
                            (dco_reliability_parameter dco) label protocol (dc_max_message_size config) in
            let ch := new stream config in
            _ ← write_data_channel_ack now stream;
            _ ← commit_reliability_params ch;
            mret (Some ch)
        end
  end.

(** [accept]: a channel that is there is returned as it is.  [accept_stream] waits when
    there is no stream: the association keeps the sender of the queue. *)
Definition accept (now : Z) (config : DcConfig) (existing_channels : list DataChannel) : dc_op (option DataChannel) :=
  s ← sctp_call get;
  match accept_ch s with
  | [] => mret None
  | h :: rest =>
      _ ← sctp_call (assign accept_ch rest);
      let id h := s_identifier <$> store s !! h in
      match List.find (fun ch => bool_decide (id (dc_stream ch) = id h)) existing_channels with
      | Some ch =>
          _ ← with_stream (dc_stream ch) (Stream.set_default_payload_type Binary);
          mret (Some ch)
      | None =>
          _ ← with_stream h (Stream.set_default_payload_type Binary);
          server now h config
      end
  end.

Definition handle_dcep (now : Z) (ch : DataChannel) (data : bytes) : dc_op unit :=
  msg ← decoded (DcMessage.unmarshal data);
  match msg with
  | DcOpen _ => _ ← write_data_channel_ack now (dc_stream ch); mret tt
  | DcAck => commit_reliability_params ch
  end.

(** The error of [handle_dcep] is only logged. *)
Definition logged (m : dc_op unit) : dc_op unit := fun s =>
  match m s with
  | Done _ s => Done (inr tt) s
  | r => r
  end.

Definition close (now : Z) (ch : DataChannel) : dc_op unit := sctp_call (shutdown_stream now (dc_stream ch) ShutdownBoth).

(** The loop of [read_data_channel]: the bytes read into a buffer of [size] bytes and
    whether they are a string; [None] when it waits for a message. *)
Fixpoint read_loop (fuel : nat) (now : Z) (ch : DataChannel) (size : nat) : dc_op (option (bytes * bool) * DataChannel) :=
  match fuel with
  | O => fun _ => Hangs
  | S fuel =>
      r ← sctp_call (read_sctp (dc_stream ch) size);
      match r with
      | None => mret (None, ch)
      | Some (ReassemblyQueue.ReadErr _ e) =>
          _ ← close now ch;
          dc_throw (Sctp e)
      | Some (ReassemblyQueue.ReadOk [] PpiUnknown) => mret (Some ([], false), ch)
      | Some (ReassemblyQueue.ReadOk data Dcep) =>
          _ ← logged (handle_dcep now ch data);
          read_loop fuel now ch size
      | Some (ReassemblyQueue.ReadOk data ppi) =>
          let is_string := bool_decide (ppi = PpiString) || bool_decide (ppi = StringEmpty) in
          let data := if bool_decide (ppi = StringEmpty) || bool_decide (ppi = BinaryEmpty) then [] else data in
          mret (Some (data, is_string),
                (ch {{ messages_received := S (messages_received ch) }}
                    {{ bytes_received := (bytes_received ch + length data)%nat }}))
      end
  end.

(** Every round takes one of the messages the stream has. *)
Definition rounds (h : nat) (s : AssociationInternal) : nat :=
  match store s !! h with
  | Some st => length (rq_ordered (reassembly_queue st)) + length (rq_unordered (reassembly_queue st))
  | None => 0
  end.

Definition read_data_channel (now : Z) (ch : DataChannel) (size : nat) : dc_op (option (bytes * bool) * DataChannel) :=
  s ← sctp_call get;
  read_loop (S (rounds (dc_stream ch) s)) now ch size.

Definition ppi_of (is_string : bool) (data : bytes) : PayloadProtocolIdentifier :=
  match is_string, data with
  | false, [] => BinaryEmpty
  | false, _ => Binary
  | true, [] => StringEmpty
  | true, _ => PpiString
  end.

Definition write_data_channel_with_options (now : Z) (ch : DataChannel) (data : bytes) (is_string : bool)
    (options : option UdpSendOptions) : dc_op (nat * DataChannel) :=
  let ppi := ppi_of is_string data in
  '(n, ch) ←
    (if (length data =? 0)%nat then
       _ ← sctp_call (write_sctp now (dc_stream ch) [0] ppi options);
       mret (0%nat, ch)
     else
       n ← sctp_call (write_sctp now (dc_stream ch) data ppi options);
       mret (n, (ch {{ bytes_sent := (bytes_sent ch + n)%nat }})));
  mret (n, (ch {{ messages_sent := S (messages_sent ch) }})).

Definition write_data_channel (now : Z) (ch : DataChannel) (data : bytes) (is_string : bool) : dc_op (nat * DataChannel) :=
  write_data_channel_with_options now ch data is_string None.
End DataChannel.

(** ** Round trip of the messages *)

Definition dc_message_ok (m : DcMessage) : Prop :=
  match m with
  | DcAck => True
  | DcOpen o =>
      is_u 16 (dco_priority o) /\ is_u 32 (dco_reliability_parameter o)
      /\ is_u 16 (Z.of_nat (length (dco_label o))) /\ is_u 16 (Z.of_nat (length (dco_protocol o)))
  end.

Lemma channel_type_roundtrip c rest :
  ChannelType.unmarshal (put_u8 (ChannelType.as_u8 c) ++ rest) = Ok (c, rest).
Proof. by destruct c. Qed.

Lemma dc_message_decodes m : dc_message_ok m -> DcMessage.unmarshal (DcMessage.marshal m) = Ok m.
Proof.
  destruct m as [|o]; [done|]. intros (Hp & Hr & Hl & Hq).
  unfold DcMessage.marshal, DcMessage.unmarshal. cbn [app]. change (MESSAGE_TYPE_OPEN =? MESSAGE_TYPE_ACK) with false.
  rewrite Z.eqb_refl. cbv iota. unfold DataChannelOpen.unmarshal, DataChannelOpen.marshal.
  rewrite (proj2 (Nat.ltb_ge _ _)).
  2: { rewrite !length_app. cbn [put_u8 put_u16 put_u32 to_be_bytes length]. unfold put_u16, put_u32.
       rewrite !length_to_be_bytes. unfold CHANNEL_OPEN_HEADER_LEN. cbn. lia. }
  rewrite channel_type_roundtrip. cbn [mbind fallible_bind]. unfold put_u16, put_u32.
  rewrite get_u16_app by done. cbn [mbind fallible_bind]. rewrite get_u32_app by done. cbn [mbind fallible_bind].
  unfold as_u. rewrite !Z.mod_small by done.
  rewrite get_u16_app by done. cbn [mbind fallible_bind]. rewrite get_u16_app by done. cbn [mbind fallible_bind].
  rewrite !Nat2Z.id, length_app, Nat.ltb_irrefl. unfold DataChannelOpen.copy.
  rewrite length_app, (proj2 (Nat.ltb_ge _ _)) by lia. cbn [mbind fallible_bind].
  rewrite take_app_length, drop_app_length, Nat.ltb_irrefl. cbn [mbind fallible_bind].
  rewrite firstn_all. by destruct o.
Qed.

(** ** What a write puts into the pending queue *)

(** The chunks of message [k] of stream [si], whatever TSNs they get. *)
Definition is_message (si : Z) (k : nat) (content : bytes * PayloadProtocolIdentifier)
    (chunks : list ChunkPayloadData) : Prop :=
  forall t, exists m, m_tsn m = t /\ m_ppi m = content.2 /\ m_data m = content.1
    /\ length (m_parts m) = length chunks /\ m_parts m <> []
    /\ forall i c, number_from t chunks !! i = Some c -> forall now', is_fragment si k m i (received now' c).

Lemma data_len_concat chunks : PendingQueue.data_len chunks = length (concat (map user_data chunks)).
Proof.
  induction chunks as [|c cs IH]; [done|]. rewrite data_len_cons, IH. cbn [map concat]. by rewrite length_app.
Qed.

Definition numbered (st : Stream) (k n : nat) : Stream :=
  st {{ sequence_number := as_u 16 (Z.of_nat k) }} {{ SctpStream.buffered_amount := n }}.

Lemma packetize_ordered st raw ppi options now cells k :
  0 < max_payload_size st -> s_unordered st = false -> raw <> [] -> sequence_number st = as_u 16 (Z.of_nat k) ->
  exists chunks cells' n, Stream.packetize raw ppi options now cells st = Ret (chunks, cells', numbered st (S k) n)
    /\ is_message (s_identifier st) k (raw, ppi) chunks
    /\ Forall (fun c => unordered c = false) chunks /\ chunks <> [] /\ PendingQueue.data_len chunks = length raw.
Proof.
  intros Hsize Hu Hraw Hseq.
  assert (exists chunks cells' n, Stream.packetize raw ppi options now cells st = Ret (chunks, cells', numbered st (S k) n)
    /\ Forall (fun c => unordered c = false) chunks /\ concat (map user_data chunks) = raw)
    as (chunks & cells' & n & Hp & Hall & Hcat).
  { unfold Stream.packetize. rewrite Hu, andb_false_r.
    set (bypass := match options with Some o => _ | None => _ end).
    destruct (fragments_spec st ppi options false bypass now (length cells) Hsize (length raw) 0 raw)
      as (cs & -> & Hmap & Hcs); [done|]. rewrite bind_Ret. do 3 eexists. split.
    { unfold numbered. rewrite Hseq.
      assert (as_u 16 (as_u 16 (Z.of_nat k) + 1) = as_u 16 (Z.of_nat (S k))) as ->.
      { unfold as_u. rewrite Zplus_mod_idemp_l. f_equal. lia. }
      by destruct st. }
    split; [|by rewrite Hmap, parts_of_concat]. apply Forall_lookup. intros j c Hj. by rewrite (Hcs _ _ Hj). }
  exists chunks, cells', n. split; [done|]. split.
  { intros t. destruct (packetize_fragments st raw ppi options now cells _ _ _ k t Hsize Hu Hraw Hseq Hp) as (_ & m & Hm).
    by exists m. }
  split_and!; [done| |].
  - intros ->. by simplify_eq/=.
  - by rewrite data_len_concat, Hcat.
Qed.

(** A stream that can send its [k]-th message, with room for [n] bytes. *)
Record writes (h : nat) (si : Z) (k n : nat) (s : AssociationInternal) : Prop := mkWrites {
  wr_state : ai_state s = Established;
  wr_stream : exists st, store s !! h = Some st /\ write_shutdown st = false /\ 0 < max_payload_size st
    /\ s_unordered st = false /\ s_identifier st = si /\ sequence_number st = as_u 16 (Z.of_nat k);
  wr_room : (n <= permits (pending_queue s))%nat }.

(** What has been received is as it was. *)
Record same_receiver (s s' : AssociationInternal) : Prop := mkSameReceiver {
  wo_peer : peer_last_tsn s' = peer_last_tsn s;
  wo_payload : payload_queue s' = payload_queue s;
  wo_streams : ai_streams s' = ai_streams s;
  wo_requests : reconfig_requests s' = reconfig_requests s;
  wo_limit : max_message_size s' = max_message_size s;
  wo_length : length (store s') = length (store s);
  wo_store : forall h st, store s !! h = Some st -> exists st', store s' !! h = Some st'
    /\ reassembly_queue st' = reassembly_queue st /\ read_shutdown st' = read_shutdown st }.

Lemma write_queues now h si k n p ppi options s :
  writes h si k (length p + n) s -> p <> [] -> Z.of_nat (length p) <= max_message_size s ->
  exists chunks s', write_sctp now h p ppi options s = Done (length p) s'
    /\ is_message si k (p, ppi) chunks
    /\ ordered_queue (pending_queue s') = ordered_queue (pending_queue s) ++ chunks
    /\ writes h si (S k) n s' /\ same_receiver s s'.
Proof.
  intros [Hst (st & Hh & Hw & Hsize & Hu & Hid & Hseq) Hroom] Hp Hmax.
  destruct (packetize_ordered st p ppi options now (cells s) k Hsize Hu Hp Hseq)
    as (chunks & cells' & m & Hpk & Hm & Hall & Hne & Hlen).
  unfold write_sctp. op_step. rewrite Hh.
  assert (Stream.prepare_write (ai_state s) (max_message_size s) p ppi options now (cells s) st
    = Ret (inr (chunks, cells', numbered st (S k) m))) as Hprep.
  { unfold Stream.prepare_write. rewrite Hw, Hst, (proj2 (Z.ltb_ge _ _)) by done. by rewrite Hpk. }
  rewrite (bind_run _ _ _ _ Hprep). op_steps. unfold send_payload_data. op_steps.
  change (ai_state (s {{ cells := cells' }} {{ store := <[h:=numbered st (S k) m]> (store s) }})) with (ai_state s).
  rewrite bool_decide_eq_true_2 by done. cbn [negb].
  change (pending_queue (s {{ cells := cells' }} {{ store := <[h:=numbered st (S k) m]> (store s) }})) with (pending_queue s).
  assert (PendingQueue.append chunks (pending_queue s) = Ret (Some (after_append false chunks (pending_queue s)))) as Happ.
  { apply append_room; [done|done|lia]. }
  rewrite bind_assoc, (bind_run _ _ _ _ Happ). unfold awake_write_loop. op_steps.
  exists chunks. eexists. split; [reflexivity|]. split; [by rewrite <-Hid|]. split; [done|].
  set (st' := numbered st (S k) m). pose proof (lookup_lt_Some _ _ _ Hh) as Hlt. split; split; try done.
  - exists st'. split_and!; try done. by apply list_lookup_insert_eq.
  - change (n <= permits (pending_queue s) - PendingQueue.data_len chunks)%nat. lia.
  - by apply length_insert.
  - intros h' st1 Hh'. change (exists st2, <[h := st']> (store s) !! h' = Some st2
      /\ reassembly_queue st2 = reassembly_queue st1 /\ read_shutdown st2 = read_shutdown st1).
    destruct (decide (h' = h)) as [->|Hne'].
    + rewrite list_lookup_insert_eq by done. exists st'. by simplify_eq.
    + rewrite list_lookup_insert_ne by done. by exists st1.
Qed.

Lemma sctp_bind {A B} (m : op A) (f : A -> dc_op B) s :
  (sctp_call m ≫= f) s
  = match m s with
    | Done a s => f a s
    | Fails e s => Done (inl (Sctp e)) s
    | Crashes why => Crashes why
    | Hangs => Hangs
    end.
Proof. unfold mbind, dc_op_bind, sctp_call. by destruct (m s). Qed.

Lemma sctp_Done {A B} (m : op A) (f : A -> dc_op B) s a s' : m s = Done a s' -> (sctp_call m ≫= f) s = f a s'.
Proof. intros Hm. by rewrite sctp_bind, Hm. Qed.

Lemma dc_Done {A B} (m : dc_op A) (f : A -> dc_op B) s a s' : m s = Done (inr a) s' -> (m ≫= f) s = f a s'.
Proof. intros Hm. unfold mbind, dc_op_bind. by rewrite Hm. Qed.

(** A message of the application as the stream has it. *)
Definition wire (m : bytes * bool) : bytes * PayloadProtocolIdentifier :=
  (match m.1 with [] => [0] | data => data end, DataChannel.ppi_of m.2 m.1).

Definition open_message (config : DcConfig) : bytes :=
  DcMessage.marshal
    (DcOpen (mkDataChannelOpen (dc_channel_type config) (dc_priority config) (dc_reliability_parameter config)
               (bytes_of_string (dc_label config)) (bytes_of_string (dc_protocol config)))).

Fixpoint write_all (now : Z) (ch : DataChannel) (ms : list (bytes * bool)) : dc_op DataChannel :=
  match ms with
  | [] => mret ch
  | (data, is_string) :: ms =>
      '(_, ch) ← DataChannel.write_data_channel now ch data is_string;
      write_all now ch ms
  end.

Fixpoint read_all (now : Z) (n : nat) (ch : DataChannel) (size : nat)
    : dc_op (list (option (bytes * bool)) * DataChannel) :=
  match n with
  | O => mret ([], ch)
  | S n =>
      '(r, ch) ← DataChannel.read_data_channel now ch size;
      '(rs, ch) ← read_all now n ch size;
      mret (r :: rs, ch)
  end.

Inductive are_messages (si : Z) : nat -> list (bytes * PayloadProtocolIdentifier) -> list (list ChunkPayloadData) -> Prop :=
  | no_messages k : are_messages si k [] []
  | more_messages k c l cs css : is_message si k c cs -> are_messages si (S k) l css -> are_messages si k (c :: l) (cs :: css).

Definition wire_bytes (ms : list (bytes * bool)) : nat := length (concat (map (fst ∘ wire) ms)).
Definition data_bytes (ms : list (bytes * bool)) : nat := length (concat (map fst ms)).

Lemma wire_not_empty m : (wire m).1 <> [].
Proof. destruct m as [[|b l] is_string]; done. Qed.

Lemma write_channel now ch si k n m s :
  writes (dc_stream ch) si k (length (wire m).1 + n) s -> Z.of_nat (length (wire m).1) <= max_message_size s ->
  exists chunks s', DataChannel.write_data_channel now ch m.1 m.2 s
      = Done (inr (length m.1, ch {{ bytes_sent := (bytes_sent ch + length m.1)%nat }}
                                  {{ messages_sent := S (messages_sent ch) }})) s'
    /\ is_message si k (wire m) chunks
    /\ ordered_queue (pending_queue s') = ordered_queue (pending_queue s) ++ chunks
    /\ writes (dc_stream ch) si (S k) n s' /\ same_receiver s s'.
Proof.
  intros Hw Hmax.
  destruct (write_queues now (dc_stream ch) si k n (wire m).1 (wire m).2 None s Hw (wire_not_empty m) Hmax)
    as (chunks & s' & Hrun & Hm & Hq & Hw' & Hs').
  exists chunks, s'. split; [|by destruct (wire m)].
  unfold DataChannel.write_data_channel, DataChannel.write_data_channel_with_options.
  destruct m as [[|b data] is_string]; cbn [wire fst snd length Nat.eqb] in *.
  - erewrite dc_Done; [|by rewrite (sctp_Done _ _ _ _ _ Hrun)]. cbv beta iota. destruct ch. unfold mret, dc_op_ret. cbn. by rewrite Nat.add_0_r.
  - erewrite dc_Done; [|by rewrite (sctp_Done _ _ _ _ _ Hrun)]. by destruct ch.
Qed.

Lemma write_all_queues now ms : forall ch si k n s,
  writes (dc_stream ch) si k (wire_bytes ms + n) s ->
  Forall (fun m => Z.of_nat (length (wire m).1) <= max_message_size s) ms ->
  exists css s' ch', write_all now ch ms s = Done (inr ch') s'
    /\ messages_sent ch' = (messages_sent ch + length ms)%nat /\ bytes_sent ch' = (bytes_sent ch + data_bytes ms)%nat
    /\ are_messages si k (map wire ms) css
    /\ ordered_queue (pending_queue s') = ordered_queue (pending_queue s) ++ concat css.
Proof.
  induction ms as [|m ms IH]; intros ch si k n s Hw Hmax.
  { exists [], s, ch. rewrite app_nil_r. unfold data_bytes. cbn. rewrite !Nat.add_0_r. repeat split. constructor. }
  apply Forall_cons in Hmax as [Hm Hmax]. unfold wire_bytes in Hw. cbn [map concat] in Hw. rewrite length_app in Hw.
  rewrite <-Nat.add_assoc in Hw. destruct (write_channel now ch si k _ m s Hw Hm) as (cs & s1 & Hrun & Hcs & Hq & Hw1 & Hs1).
  set (ch1 := ch {{ bytes_sent := _ }} {{ messages_sent := _ }}) in Hrun.
  destruct (IH ch1 si (S k) n s1) as (css & s2 & ch2 & Hrun2 & Hn & Hb & Hcss & Hq2); [done| |].
  { by rewrite (wo_limit _ _ Hs1). }
  exists (cs :: css), s2, ch2. destruct m as [data is_string]. cbn [write_all fst snd] in *.
  rewrite (dc_Done _ _ _ _ _ Hrun). split_and!; [done| | |by constructor|].
  - rewrite Hn. change (messages_sent ch1) with (S (messages_sent ch)). cbn [length]. lia.
  - rewrite Hb. change (bytes_sent ch1) with (bytes_sent ch + length data)%nat. unfold data_bytes. cbn [map concat fst].
    rewrite length_app. lia.
  - cbn [concat]. by rewrite Hq2, Hq, (assoc_L (++)).
Qed.

(** ** What is read from a channel *)

Lemma stream_read_frame size st r st' :
  Stream.read_sctp size st = Ret (r, st') ->
  st' = st {{ reassembly_queue := reassembly_queue st' }} {{ read_permit := read_permit st' }}.
Proof.
  unfold Stream.read_sctp. destruct (read_shutdown st); [intros [= <- <-]; by destruct st|].
  destruct (ReassemblyQueue.read size (reassembly_queue st)) as [[r' q]|why|]; [|done..]. rewrite bind_Ret.
  intros H. repeat case_match; simplify_eq; by destruct st.
Qed.

(** The reliability of the stream [h] is that of a kind of channel. *)
Definition committed (h : nat) (config : DcConfig) (s : AssociationInternal) : Prop :=
  exists st, store s !! h = Some st
    /\ (s_unordered st, reliability_type st) = DataChannel.reliability_of (dc_channel_type config)
    /\ reliability_value st = dc_reliability_parameter config.

(** A read changes what its stream has received. *)
Lemma read_frame h size s r s' :
  read_sctp h size s = Done r s' ->
  (forall h' si k n, writes h' si k n s -> writes h' si k n s')
  /\ ai_streams s' = ai_streams s /\ max_message_size s' = max_message_size s /\ pending_queue s' = pending_queue s
  /\ (forall h' config, committed h' config s -> committed h' config s').
Proof.
  unfold read_sctp. op_step. destruct (store s !! h) as [st|] eqn:Hh; [|done].
  destruct (Stream.read_sctp size st) as [[r' st']|why|] eqn:Hr; [|done..].
  rewrite (bind_run _ _ _ _ eq_refl). op_step. intros [= <- <-].
  match goal with |- context [ai_streams ?x = _] => set (s' := x) end.
  assert (forall (P : Stream -> Prop) h', (P st -> P st') -> (exists st1, store s !! h' = Some st1 /\ P st1) ->
    exists st1, store s' !! h' = Some st1 /\ P st1) as Hkeep.
  { intros P h' HP (st1 & H2 & H3). change (store s') with (<[h := st']> (store s)).
    destruct (decide (h' = h)) as [->|Hne].
    - rewrite list_lookup_insert_eq by by apply lookup_lt_Some in Hh. exists st'. split; [done|]. simplify_eq. auto.
    - rewrite list_lookup_insert_ne by done. by exists st1. }
  apply stream_read_frame in Hr. split; [|split_and!; try done].
  - intros h' si k n [H1 H2 H3]. split; try done. revert H2. apply Hkeep. rewrite Hr. by destruct st.
  - intros h' config. apply Hkeep. rewrite Hr. by destruct st.
Qed.

(** ** The rounds of a read *)

Lemma queue_read_takes size q data ppi q' :
  ReassemblyQueue.read size q = Ret (ReassemblyQueue.ReadOk data ppi, q') ->
  S (length (rq_ordered q') + length (rq_unordered q')) = (length (rq_ordered q) + length (rq_unordered q))%nat.
Proof.
  unfold ReassemblyQueue.read. destruct (ReassemblyQueue.take_set q) as [[[cset q1]|]|why|] eqn:Ht; try done.
  rewrite bind_Ret. cbv beta iota.
  assert (S (length (rq_ordered q1) + length (rq_unordered q1)) = length (rq_ordered q) + length (rq_unordered q))%nat as Hq1.
  { unfold ReassemblyQueue.take_set in Ht. destruct (rq_unordered q) as [|c l] eqn:Hu.
    - destruct (rq_ordered q) as [|c l] eqn:Ho; [done|].
      destruct (ChunkSet.is_complete c) as [[]|why|]; [|done..]. rewrite bind_Ret in Ht. cbn [negb] in Ht.
      destruct (sna16gt _ _); [done|]. destruct (ssn c =? next_ssn q); injection Ht as <- <-;
        destruct q; unfold RecordSetters.constant; simplify_eq/=; lia.
    - injection Ht as <- <-. destruct q; unfold RecordSetters.constant; simplify_eq/=; lia. }
  assert (forall cs w f q2 r, ReassemblyQueue.copy_chunks size cs w f q2 = r ->
    rq_ordered r.2 = rq_ordered q2 /\ rq_unordered r.2 = rq_unordered q2) as Hcopy.
  { induction cs as [|c cs IH]; intros w f q2 r; cbn [ReassemblyQueue.copy_chunks]; [by intros <-|].
    destruct f; intros Hr; apply IH in Hr as [-> ->]; by destruct q2. }
  destruct (ReassemblyQueue.copy_chunks size (cs_chunks cset) [] true q1) as [[fits w] q2] eqn:Hc.
  apply Hcopy in Hc as [Ho Hu]. cbn [snd] in Ho, Hu. destruct fits; intros [= _ _ <-]. by rewrite Ho, Hu.
Qed.

Lemma read_takes h size s data ppi s' :
  read_sctp h size s = Done (Some (ReassemblyQueue.ReadOk data ppi)) s' -> ppi <> PpiUnknown ->
  S (DataChannel.rounds h s') = DataChannel.rounds h s.
Proof.
  unfold read_sctp. op_step. destruct (store s !! h) as [st|] eqn:Hh; [|done].
  destruct (Stream.read_sctp size st) as [[r' st']|why|] eqn:Hr; [|done..].
  rewrite (bind_run _ _ _ _ eq_refl). op_step. intros [= -> <-] Hppi. unfold DataChannel.rounds. rewrite Hh.
  match goal with |- context [store ?x !! h] => change (store x) with (<[h := st']> (store s)) end.
  rewrite list_lookup_insert_eq by by apply lookup_lt_Some in Hh.
  unfold Stream.read_sctp in Hr. destruct (read_shutdown st); [by simplify_eq|].
  destruct (ReassemblyQueue.read size (reassembly_queue st)) as [[r q]|why|] eqn:Hq; [|done..]. rewrite bind_Ret in Hr.
  destruct r as [d p|d e]; [|by destruct e; simplify_eq]. cbv beta iota zeta in Hr.
  injection Hr as -> -> <-. apply queue_read_takes in Hq. by destruct st.
Qed.

Definition same_queues (s s' : AssociationInternal) : Prop :=
  forall h, reassembly_queue <$> store s' !! h = reassembly_queue <$> store s !! h.

Lemma rounds_same h s s' : same_queues s s' -> DataChannel.rounds h s' = DataChannel.rounds h s.
Proof.
  intros H. specialize (H h). unfold DataChannel.rounds.
  destruct (store s !! h), (store s' !! h); simplify_eq/=; congruence.
Qed.

Lemma write_queues_same now h p ppi options s :
  match write_sctp now h p ppi options s with Done _ s' | Fails _ s' => same_queues s s' | _ => True end.
Proof.
  unfold write_sctp. op_step. destruct (store s !! h) as [st|] eqn:Hh; [|done].
  destruct (Stream.prepare_write _ _ _ _ _ _ _ _) as [[e|[[cs cells'] st']]|why|] eqn:Hp; try done.
  rewrite (bind_run _ _ _ _ eq_refl). op_steps.
  assert (reassembly_queue st' = reassembly_queue st) as Hq.
  { unfold Stream.prepare_write in Hp. repeat case_match; try done;
      (destruct (Stream.packetize p ppi options now (cells s) st) as [[[cs1 c1] st1]|w|] eqn:Hpk; try done;
       rewrite bind_Ret in Hp; injection Hp as -> -> ->; unfold Stream.packetize in Hpk;
       destruct (Stream.fragments _ _ _ _ _ _ _ _ _ _) as [fs|w|]; try done; rewrite bind_Ret in Hpk;
       injection Hpk as _ _ <-; destruct (negb _ && _); by destruct st). }
  assert (forall s', store s' = <[h := st']> (store s) -> same_queues s s') as Hsame.
  { intros s' Hs' h'. rewrite Hs'. destruct (decide (h' = h)) as [->|].
    - rewrite list_lookup_insert_eq by by apply lookup_lt_Some in Hh. rewrite Hh. cbn. by rewrite Hq.
    - by rewrite list_lookup_insert_ne. }
  unfold send_payload_data. op_steps. destruct (negb (bool_decide _)); [by apply Hsame|]. rewrite bind_assoc.
  destruct (PendingQueue.append _ _) as [[q|]|w|]; try done.
  rewrite (bind_run _ _ _ _ eq_refl). unfold awake_write_loop. op_steps. by apply Hsame.
Qed.

Lemma handle_dcep_same now ch data s :
  match DataChannel.logged (DataChannel.handle_dcep now ch data) s with
  | Done (inr _) s' => same_queues s s'
  | Done (inl _) _ => False
  | _ => True
  end.
Proof.
  unfold DataChannel.logged, DataChannel.handle_dcep. destruct (DcMessage.unmarshal data) as [[|o]|e|why|]; try done.
  - erewrite dc_Done by reflexivity. unfold DataChannel.commit_reliability_params. destruct (DataChannel.reliability_of _) as [u r].
    unfold DataChannel.with_stream. intros h'.
    match goal with |- context [store ?x !! h'] => change (store x) with
      (alter (Stream.set_reliability_params u r (dc_reliability_parameter (dc_config ch))) (dc_stream ch) (store s)) end.
    destruct (decide (h' = dc_stream ch)) as [->|].
    + rewrite list_lookup_alter_eq. destruct (store s !! dc_stream ch) as [st|]; [by destruct st|done].
    + by rewrite list_lookup_alter_ne.
  - erewrite dc_Done by reflexivity. unfold DataChannel.write_data_channel_ack, sctp_call, mbind, dc_op_bind.
    pose proof (write_queues_same now (dc_stream ch) (DcMessage.marshal DcAck) Dcep None s) as H.
    by destruct (write_sctp _ _ _ _ _ _).
Qed.

(** [read_data_channel] has rounds enough: more of them change nothing. *)
Lemma read_loop_enough now ch size : forall n m s,
  (DataChannel.rounds (dc_stream ch) s < n)%nat -> (DataChannel.rounds (dc_stream ch) s < m)%nat ->
  DataChannel.read_loop n now ch size s = DataChannel.read_loop m now ch size s.
Proof.
  induction n as [|n IH]; intros [|m] s Hn Hm; try lia. cbn [DataChannel.read_loop].
  rewrite !sctp_bind.
  destruct (read_sctp (dc_stream ch) size s) as [[[data ppi|data e]|] s'|e s'|why|] eqn:Hr; try done.
  destruct ppi; try (by destruct data).
  pose proof (read_takes _ _ _ _ _ _ Hr ltac:(done)) as Hrounds.
  assert (forall data, (DataChannel.logged (DataChannel.handle_dcep now ch data) ≫= fun _ => DataChannel.read_loop n now ch size) s'
    = (DataChannel.logged (DataChannel.handle_dcep now ch data) ≫= fun _ => DataChannel.read_loop m now ch size) s') as Hnext.
  { clear - Hn Hm Hrounds IH. intros data. unfold mbind, dc_op_bind. pose proof (handle_dcep_same now ch data s') as H.
    destruct (DataChannel.logged _ s') as [[e|[]] s''|e s''|why|]; try done.
    apply IH; rewrite (rounds_same _ _ _ H); lia. }
  destruct data; apply Hnext.
Qed.

Section reading.
  Context (tr : transfer) (tr_wf : wf_transfer tr).

Lemma stream_bytes_receiver s s' si : same_receiver s s' -> stream_bytes s' si = stream_bytes s si.
Proof using Type.
  intros Hs. unfold stream_bytes, find_stream. rewrite (wo_streams _ _ Hs).
  destruct (ai_streams s !! si) as [h|]; [|done]. cbn [mbind option_bind].
  destruct (store s !! h) as [st|] eqn:Hh.
  - destruct (wo_store _ _ Hs h st Hh) as (st' & -> & Hq & _).
    unfold Stream.get_num_bytes_in_reassembly_queue. by rewrite Hq.
  - apply lookup_ge_None in Hh. rewrite (proj2 (lookup_ge_None (store s') h)); [done|]. by rewrite (wo_length _ _ Hs).
Qed.

Lemma receives_same s s' R D : same_receiver s s' -> receives tr s R D -> receives tr s' R D.
Proof using Type.
  intros Hs [H1 H2 H3 H4 H5 H6 H7 H8]. pose proof (wo_streams _ _ Hs) as Hstr.
  split; rewrite ?(wo_peer _ _ Hs), ?(wo_payload _ _ Hs), ?Hstr, ?(wo_requests _ _ Hs); try done.
  - intros si Hsi. destruct (H3 si Hsi) as (h & st & Hh & Hst & Hrd & Himpl).
    destruct (wo_store _ _ Hs h st Hst) as (st' & Hst' & Hq & Hr). exists h, st'. rewrite Hq, Hr. done.
  - assert (queued_bytes s' = queued_bytes s) as ->; [|done]. unfold queued_bytes. rewrite Hstr. f_equal.
    apply map_ext. intros e. by apply stream_bytes_receiver.
Qed.

(** Everything that was sent on the stream is there, and [k] messages have been read. *)
Record waiting (si : Z) (h k : nat) (s : AssociationInternal) (R : gset Z) (D : Z -> delivery) : Prop := mkWaiting {
  wa_receives : receives tr s R D;
  wa_handle : ai_streams s !! si = Some h;
  wa_complete : forall j m, tr_sent tr si !! j = Some m -> complete (D si) j m;
  wa_next : next_msg (D si) = k }.

Lemma waiting_same_receiver si h k s s' R D : same_receiver s s' -> waiting si h k s R D -> waiting si h k s' R D.
Proof using Type. intros Hs [H1 H2 H3 H4]. split; [by eapply receives_same|by rewrite (wo_streams _ _ Hs)|done..]. Qed.

Lemma waiting_read si h k s R D size data ppi :
  waiting si h k s R D -> contents (tr_sent tr si) !! k = Some (data, ppi) -> (length data <= size)%nat ->
  exists s' D', read_sctp h size s = Done (Some (ReassemblyQueue.ReadOk data ppi)) s' /\ waiting si h (S k) s' R D'
    /\ (forall h' config, committed h' config s -> committed h' config s').
Proof using tr_wf.
  intros [Hs Hh Hc Hk] Hm Hsize. unfold contents in Hm. rewrite list_lookup_fmap in Hm.
  destruct (tr_sent tr si !! k) as [m|] eqn:Htr; [|done]. injection Hm as <- <-.
  assert (tr_sent tr si <> []) as Hne by (intros He; by rewrite He in Htr).
  destruct (read_receives tr tr_wf si h size s R D Hs Hne Hh) as (s' & Hrun & Hs' & _).
  assert (spec_read (tr_sent tr si) size (D si)
    = (ReassemblyQueue.ReadOk (m_data m) (m_ppi m), mkDelivery (seen (D si)) (S k))) as Hread.
  { unfold spec_read. rewrite Hk, Htr, decide_True by by apply Hc. by rewrite (proj2 (Nat.leb_le _ _)). }
  rewrite Hread in Hrun. exists s', (after_read tr D si size). split; [done|].
  split; [|apply (read_frame _ _ _ _ _ Hrun)]. split.
  - done.
  - by rewrite (proj1 (proj2 (read_frame _ _ _ _ _ Hrun))).
  - intros j m' Hj. unfold after_read. rewrite decide_True, Hread by done. cbn [snd]. by apply (Hc j m').
  - unfold after_read. by rewrite decide_True, Hread.
Qed.

(** A message of the application is returned as it was written, and counted. *)
Lemma read_message now ch si k s R D size m :
  waiting si (dc_stream ch) k s R D -> contents (tr_sent tr si) !! k = Some (wire m) -> (length (wire m).1 <= size)%nat ->
  forall fuel, exists s' D', DataChannel.read_loop (S fuel) now ch size s
      = Done (inr (Some m, ch {{ messages_received := S (messages_received ch) }}
                              {{ bytes_received := (bytes_received ch + length m.1)%nat }})) s'
    /\ waiting si (dc_stream ch) (S k) s' R D'
    /\ (forall h' config, committed h' config s -> committed h' config s').
Proof using tr_wf.
  intros Hw Hm Hsize fuel. rewrite (surjective_pairing (wire m)) in Hm.
  destruct (waiting_read si (dc_stream ch) k s R D size _ _ Hw Hm Hsize) as (s' & D' & Hrun & Hw').
  exists s', D'. split; [|done]. cbn [DataChannel.read_loop]. rewrite (sctp_Done _ _ _ _ _ Hrun).
  by destruct m as [[|b data] []].
Qed.

Lemma read_data_channel_loop now ch size s :
  exists fuel, DataChannel.read_data_channel now ch size s = DataChannel.read_loop (S fuel) now ch size s.
Proof using Type. unfold DataChannel.read_data_channel. by eexists. Qed.

Lemma read_all_returns now ms size : forall ch si k s R D,
  waiting si (dc_stream ch) k s R D -> drop k (contents (tr_sent tr si)) = map wire ms ->
  Forall (fun m => (length (wire m).1 <= size)%nat) ms ->
  exists s' D' ch', read_all now (length ms) ch size s = Done (inr (map Some ms, ch')) s'
    /\ waiting si (dc_stream ch) (k + length ms) s' R D'
    /\ messages_received ch' = (messages_received ch + length ms)%nat
    /\ bytes_received ch' = (bytes_received ch + data_bytes ms)%nat.
Proof using tr_wf.
  induction ms as [|m ms IH]; intros ch si k s R D Hw Hd Hsize.
  { exists s, D, ch. cbn. unfold data_bytes. cbn. by rewrite !Nat.add_0_r. }
  apply Forall_cons in Hsize as [Hm Hsize]. cbn [map] in Hd.
  assert (contents (tr_sent tr si) !! k = Some (wire m)) as Hk.
  { rewrite <-(Nat.add_0_r k), <-lookup_drop, Hd. done. }
  destruct (read_data_channel_loop now ch size s) as [fuel Hloop].
  destruct (read_message now ch si k s R D size m Hw Hk Hm fuel) as (s1 & D1 & Hrun & Hw1 & _).
  rewrite <-Hloop in Hrun. set (ch1 := ch {{ messages_received := _ }} {{ bytes_received := _ }}) in Hrun.
  destruct (IH ch1 si (S k) s1 R D1) as (s2 & D2 & ch2 & Hrun2 & Hw2 & Hn & Hb); [done| |done|].
  { rewrite <-Nat.add_1_r, <-drop_drop, Hd. done. }
  exists s2, D2, ch2. cbn [length read_all map]. rewrite (dc_Done _ _ _ _ _ Hrun). cbv beta iota.
  rewrite (dc_Done _ _ _ _ _ Hrun2). split; [done|].
  rewrite Nat.add_succ_r, <-Nat.add_succ_l. split; [done|]. rewrite Hn, Hb.
  change (messages_received ch1) with (S (messages_received ch)).
  change (bytes_received ch1) with (bytes_received ch + length m.1)%nat.
  unfold data_bytes. cbn [map concat]. rewrite length_app. lia.
Qed.

(** ** Opening a channel *)

Record config_ok (config : DcConfig) : Prop := mkConfigOk {
  co_priority : is_u 16 (dc_priority config);
  co_reliability : is_u 32 (dc_reliability_parameter config);
  co_label : is_utf8 (bytes_of_string (dc_label config)) = true;
  co_protocol : is_utf8 (bytes_of_string (dc_protocol config)) = true;
  co_size : (length (open_message config) <= DataChannel.RECEIVE_MTU)%nat }.

Lemma open_message_decodes config :
  config_ok config ->
  DcMessage.unmarshal (open_message config)
  = Ok (DcOpen (mkDataChannelOpen (dc_channel_type config) (dc_priority config) (dc_reliability_parameter config)
                  (bytes_of_string (dc_label config)) (bytes_of_string (dc_protocol config)))).
Proof using Type.
  intros [H1 H2 _ _ Hsize]. apply dc_message_decodes. unfold open_message, DcMessage.marshal, DataChannelOpen.marshal in Hsize.
  cbn [dco_label dco_protocol] in Hsize. rewrite !length_app in Hsize.
  assert (Z.of_nat DataChannel.RECEIVE_MTU = 8192) as HM by done. set (mtu := DataChannel.RECEIVE_MTU) in *. clearbody mtu.
  cbn [dc_message_ok dco_priority dco_reliability_parameter dco_label dco_protocol].
  split_and!; [done|done|unfold is_u; lia..].
Qed.

Lemma commit_spec ch s st :
  store s !! dc_stream ch = Some st ->
  exists s', DataChannel.commit_reliability_params ch s = Done (inr tt) s' /\ same_receiver s s'
    /\ committed (dc_stream ch) (dc_config ch) s' /\ pending_queue s' = pending_queue s.
Proof using Type.
  intros Hh. unfold DataChannel.commit_reliability_params.
  destruct (DataChannel.reliability_of _) as [u r] eqn:Hrel. eexists. split; [reflexivity|]. split; [|split; [|done]].
  - split; try done.
    + apply length_alter.
    + intros h st1 Hst1.
      match goal with |- context [store ?x !! h] => change (store x) with
        (alter (Stream.set_reliability_params u r (dc_reliability_parameter (dc_config ch))) (dc_stream ch) (store s)) end.
      destruct (decide (h = dc_stream ch)) as [->|Hne].
      * rewrite list_lookup_alter_eq, Hst1. eexists. split; [reflexivity|]. by destruct st1.
      * rewrite list_lookup_alter_ne by done. eauto.
  - unfold committed. rewrite Hrel.
    match goal with |- context [store ?x !! _] => change (store x) with
        (alter (Stream.set_reliability_params u r (dc_reliability_parameter (dc_config ch))) (dc_stream ch) (store s)) end.
    rewrite list_lookup_alter_eq, Hh. eexists. split; [reflexivity|]. by destruct st.
Qed.

(** What [server] makes of the peer's parameters. *)
Definition accepted (config mine : DcConfig) : DcConfig :=
  mkDcConfig (dc_channel_type config) (dc_negotiated mine) (dc_priority config) (dc_reliability_parameter config)
    (dc_label config) (dc_protocol config) (dc_max_message_size mine).

Lemma server_accepts now si h k n s R D config mine :
  waiting si h 0 s R D -> contents (tr_sent tr si) !! 0%nat = Some (open_message config, Dcep) -> config_ok config ->
  writes h si k (1 + n) s -> 1 <= max_message_size s ->
  exists chunks s' D', DataChannel.server now h mine s = Done (inr (Some (DataChannel.new h (accepted config mine)))) s'
    /\ is_message si k (DcMessage.marshal DcAck, Dcep) chunks
    /\ ordered_queue (pending_queue s') = ordered_queue (pending_queue s) ++ chunks
    /\ committed h config s' /\ waiting si h 1 s' R D'.
Proof using tr_wf.
  intros Hw Hm Hok Hwr Hmax.
  destruct (waiting_read si h 0 s R D DataChannel.RECEIVE_MTU _ _ Hw Hm (co_size _ Hok)) as (s1 & D1 & Hrun & Hw1 & _).
  destruct (read_frame _ _ _ _ _ Hrun) as (Hkeep & _ & Hmax1 & Hpend & _).
  destruct (write_queues now h si k n (DcMessage.marshal DcAck) Dcep None s1 (Hkeep _ _ _ _ Hwr)) as
    (chunks & s2 & Hrun2 & Hack & Hq & Hwr2 & Hs2); [done|rewrite Hmax1; done|].
  destruct (wr_stream _ _ _ _ _ Hwr2) as (st & Hst & _).
  destruct (commit_spec (DataChannel.new h (accepted config mine)) s2 st Hst) as (s3 & Hrun3 & Hs3 & Hc & Hp3).
  exists chunks, s3, D1. split; [|split; [done|split; [by rewrite Hp3, Hq, Hpend|split; [done|]]]].
  2: { eapply waiting_same_receiver; [exact Hs3|]. by eapply waiting_same_receiver. }
  unfold DataChannel.server. rewrite (sctp_Done _ _ _ _ _ Hrun). rewrite bool_decide_eq_true_2 by done. cbn [negb].
  rewrite (open_message_decodes config Hok).
  erewrite dc_Done by reflexivity. cbv beta iota.
  cbn [dco_label dco_protocol dco_channel_type dco_priority dco_reliability_parameter].
  unfold DataChannel.from_utf8. rewrite (co_label _ Hok), (co_protocol _ Hok), !string_of_bytes_of_string.
  erewrite dc_Done by reflexivity. cbv beta. erewrite dc_Done by reflexivity. cbv beta zeta.
  unfold DataChannel.write_data_channel_ack. rewrite (sctp_Done _ _ _ _ _ Hrun2).
  by rewrite (dc_Done _ _ _ _ _ Hrun3).
Qed.
(** An acknowledgement is taken, commits the reliability and is not returned. *)
Lemma read_ack now ch si k s R D size fuel :
  waiting si (dc_stream ch) k s R D -> contents (tr_sent tr si) !! k = Some (DcMessage.marshal DcAck, Dcep) ->
  (1 <= size)%nat ->
  exists s' D', DataChannel.read_loop (S fuel) now ch size s = DataChannel.read_loop fuel now ch size s'
    /\ waiting si (dc_stream ch) (S k) s' R D' /\ committed (dc_stream ch) (dc_config ch) s'.
Proof using tr_wf.
  intros Hw Hm Hsize.
  destruct (waiting_read si (dc_stream ch) k s R D size _ _ Hw Hm Hsize) as (s1 & D1 & Hrun & Hw1 & _).
  assert (tr_sent tr si <> []) as Hne by (intros He; by rewrite He in Hm).
  destruct (rc_streams _ _ _ _ (wa_receives _ _ _ _ _ _ Hw1) si Hne) as (h & st & Hh & Hst & _).
  rewrite (wa_handle _ _ _ _ _ _ Hw1) in Hh. injection Hh as <-.
  destruct (commit_spec ch s1 st Hst) as (s2 & Hrun2 & Hs2 & Hc & _).
  exists s2, D1. split; [|by split; [eapply waiting_same_receiver|]].
  cbn [DataChannel.read_loop]. rewrite (sctp_Done _ _ _ _ _ Hrun). cbn [DcMessage.marshal].
  assert (DataChannel.logged (DataChannel.handle_dcep now ch [MESSAGE_TYPE_ACK]) s1 = Done (inr tt) s2) as Hlog.
  { unfold DataChannel.logged, DataChannel.handle_dcep. erewrite dc_Done by reflexivity. cbv beta iota. by rewrite Hrun2. }
  by rewrite (dc_Done _ _ _ _ _ Hlog).
Qed.

Lemma read_acks now m size n : forall ch si k s R D fuel,
  waiting si (dc_stream ch) k s R D ->
  (forall i, (i < n)%nat -> contents (tr_sent tr si) !! (k + i)%nat = Some (DcMessage.marshal DcAck, Dcep)) ->
  contents (tr_sent tr si) !! (k + n)%nat = Some (wire m) -> (length (wire m).1 <= size)%nat ->
  (n <> 0%nat \/ committed (dc_stream ch) (dc_config ch) s) ->
  exists s' D', DataChannel.read_loop (n + S fuel) now ch size s
      = Done (inr (Some m, ch {{ messages_received := S (messages_received ch) }}
                              {{ bytes_received := (bytes_received ch + length m.1)%nat }})) s'
    /\ waiting si (dc_stream ch) (S (k + n)) s' R D' /\ committed (dc_stream ch) (dc_config ch) s'.
Proof using tr_wf.
  induction n as [|n IH]; intros ch si k s R D fuel Hw Hacks Hm Hsize Hcom.
  { rewrite Nat.add_0_r in *. destruct Hcom as [Hn|Hcom]; [done|].
    destruct (read_message now ch si k s R D size m Hw Hm Hsize fuel) as (s' & D' & H1 & H2 & H3).
    exists s', D'. split; [exact H1|]. split; [exact H2|by apply H3]. }
  assert (1 <= length (wire m).1)%nat as Hpos by (pose proof (wire_not_empty m); destruct (wire m).1; cbn; done || lia).
  destruct (read_ack now ch si k s R D size (n + S fuel) Hw) as (s1 & D1 & Hrun & Hw1 & Hc1); [|lia|].
  { rewrite <-(Hacks 0%nat) by lia. by rewrite Nat.add_0_r. }
  change (S n + S fuel)%nat with (S (n + S fuel)). rewrite Hrun. replace (k + S n)%nat with (S k + n)%nat in * by lia.
  eapply IH; try done; [|by right]. intros i Hi. rewrite Nat.add_succ_l, <-Nat.add_succ_r. apply Hacks. lia.
Qed.
End reading.


(** A read of a channel passes over the acknowledgements of the peer, however many come first:
    it returns the first message of the application behind them, with its kind, counts that one
    only, and the first ACK has set the reliability of the stream to what the channel was opened
    with. The read ends by itself: no number of waiting messages exceeds the rounds it has. *)
Theorem acks_are_passed_over tr now m size n ch si k s R D :
  wf_transfer tr -> waiting tr si (dc_stream ch) k s R D ->
  (forall i, (i < S n)%nat -> contents (tr_sent tr si) !! (k + i)%nat = Some (DcMessage.marshal DcAck, Dcep)) ->
  contents (tr_sent tr si) !! (k + S n)%nat = Some (wire m) -> (length (wire m).1 <= size)%nat ->
  exists s' D', DataChannel.read_data_channel now ch size s
      = Done (inr (Some m, ch {{ messages_received := S (messages_received ch) }}
                              {{ bytes_received := (bytes_received ch + length m.1)%nat }})) s'
    /\ waiting tr si (dc_stream ch) (S (k + S n)) s' R D' /\ committed (dc_stream ch) (dc_config ch) s'.
Proof.
  intros Htr Hw Hacks Hm Hsize. set (fuel := DataChannel.rounds (dc_stream ch) s).
  destruct (read_acks tr Htr now m size (S n) ch si k s R D fuel Hw Hacks Hm Hsize) as (s' & D' & Hrun & Hw' & Hc); [by left|].
  exists s', D'. split; [|done]. rewrite <-Hrun. unfold DataChannel.read_data_channel. erewrite sctp_Done by reflexivity.
  apply read_loop_enough; unfold fuel; lia.
Qed.

(** *** Examples: contents that have arrived on stream 7, one part each *)

Definition one_part (l : list (bytes * PayloadProtocolIdentifier)) : list message :=
  imap (fun k c => mkMessage (10 + Z.of_nat k) c.2 [c.1]) l.

Definition sent_whole (l : list (bytes * PayloadProtocolIdentifier)) : transfer :=
  mkTransfer 10 (fun si => if si =? 7 then one_part l else []) (imap (fun k _ => (7, k, 0%nat)) l).

Definition whole_chunks (l : list (bytes * PayloadProtocolIdentifier)) : list ChunkPayloadData :=
  imap (fun k c => demo_chunk k 0 (10 + Z.of_nat k) c.2 true c.1) l.

Definition arrived_whole (l : list (bytes * PayloadProtocolIdentifier)) : AssociationInternal :=
  match recv_run (fun A m => map_to_list m) [DataArrives 0 (demo_packet (whole_chunks l))] demo_receiver with
  | Done _ s => s
  | _ => demo_receiver
  end.

Section whole.
  Context (l : list (bytes * PayloadProtocolIdentifier)) (l_small : (length l <= 100)%nat)
    (l_bytes : total_bytes (sent_whole l) < max_receive_buffer_size demo_receiver) (l_some : l <> [])
    (l_stream : ai_streams (arrived_whole l) !! 7 = Some 0%nat).

Lemma whole_message k m :
  one_part l !! k = Some m -> exists c, l !! k = Some c /\ m = mkMessage (10 + Z.of_nat k) c.2 [c.1].
Proof using Type.
  unfold one_part. rewrite list_lookup_imap. destruct (l !! k) as [c|]; [|done]. intros [= <-]. eauto.
Qed.

Lemma whole_flow j e : tr_flow (sent_whole l) !! j = Some e -> e = (7, j, 0%nat) /\ exists c, l !! j = Some c.
Proof using Type.
  cbn [sent_whole tr_flow]. rewrite list_lookup_imap. destruct (l !! j) as [c|]; [|done]. intros [= <-]. eauto.
Qed.

Lemma whole_wf : wf_transfer (sent_whole l).
Proof using l_small l_bytes.
  split.
  - done.
  - unfold tr_end. cbn [sent_whole tr_base tr_flow]. rewrite length_imap. lia.
  - cbn [sent_whole tr_flow]. rewrite length_imap. lia.
  - intros si. cbn. destruct (si =? 7); [|constructor]. apply Forall_lookup. intros k m Hm.
    pose proof (lookup_lt_Some _ _ _ Hm) as Hk. unfold one_part in Hk. rewrite length_imap in Hk.
    apply whole_message in Hm as (c & _ & ->). split; [done|]. cbn [m_tsn m_parts length]. lia.
  - intros si. cbn. destruct (si =? 7); [|done]. unfold one_part. rewrite length_imap. lia.
  - intros j si k i Hj. apply whole_flow in Hj as [[= -> -> ->] [c Hc]].
    exists (mkMessage (10 + Z.of_nat j) c.2 [c.1]). cbn. unfold one_part. rewrite list_lookup_imap, Hc. split; [done|].
    cbn. lia.
  - intros si k m i. cbn. destruct (Z.eqb_spec si 7) as [->|]; [|done]. intros Hm Hi.
    apply whole_message in Hm as (c & Hc & ->). cbn in Hi. assert (i = 0%nat) as -> by lia.
    exists k. by rewrite list_lookup_imap, Hc.
  - etrans; [exact l_bytes|]. vm_compute. reflexivity.
Qed.

Lemma whole_carried : Forall (carries (sent_whole l)) (whole_chunks l).
Proof using l_small.
  apply Forall_lookup. intros k d Hk. unfold whole_chunks in Hk. rewrite list_lookup_imap in Hk.
  destruct (l !! k) as [c|] eqn:Hc; [|done]. injection Hk as <-.
  exists k, 7, k, 0%nat, (mkMessage (10 + Z.of_nat k) c.2 [c.1]). cbn. unfold one_part. rewrite !list_lookup_imap, Hc.
  split; [done|]. split; [done|]. apply lookup_lt_Some in Hc. split; try done.
  - cbn. unfold as_u. rewrite Z.mod_small; [done|]. lia.
  - cbn. lia.
Qed.

Lemma whole_packet : data_packet (sent_whole l) (demo_packet (whole_chunks l)) (whole_chunks l).
Proof using l_small. split; [done|apply whole_carried|done]. Qed.

Lemma whole_waiting : exists R D, waiting (sent_whole l) 7 0 0 (arrived_whole l) R D.
Proof using l_small l_bytes l_some l_stream.
  assert (ready (sent_whole l) demo_receiver) as Hready.
  { destruct demo_ready as [H1 H2 H3 H4 H5 H6 H7 H8]. split; try done.
    - intros si. cbn. destruct (Z.eqb_spec si 7) as [->|]; [|done]. intros _. by exists 0%nat, (Stream.new 7 1200).
    - cbn. by destruct l. }
  destruct (recv_run_receives (sent_whole l) whole_wf (fun A m => map_to_list m) (fun A m => reflexivity _)
    [DataArrives 0 (demo_packet (whole_chunks l))] demo_receiver ∅ (fun _ => nothing)
    (ready_receives _ whole_wf _ Hready) (rd_sender _ _ Hready)) as (out & s' & R & D & Hrun & Hs & _ & _ & _ & Hall & Hp).
  { constructor; [|constructor]. exists (whole_chunks l). exact whole_packet. }
  exists R, D. specialize (Hall l_bytes).
  assert (out = [] /\ arrived_whole l = s') as [-> Hend].
  { unfold arrived_whole. rewrite Hrun. split; [|done]. revert Hrun. clear. cbn [recv_run recv_step].
    unfold mbind, op_bind. destruct (handle_packet _ _ _ _ _); intros H; by inversion H. }
  split; [by rewrite Hend|done| |].
  - intros j m Hj. pose proof Hj as Hm. cbn [sent_whole tr_sent] in Hm. change (7 =? 7) with true in Hm. cbv iota in Hm.
    apply whole_message in Hm as (c & Hc & ->). constructor; [|constructor].
    apply (rc_seen _ _ _ _ Hs 7 j 0 _ Hj); [cbn; lia|]. apply Hall. unfold arrivals. cbn [map union_list foldr].
    apply elem_of_union_l, elem_of_list_to_set, list_elem_of_lookup. exists j.
    rewrite (data_of_packet _ _ _ whole_packet), list_lookup_fmap. unfold whole_chunks. rewrite list_lookup_imap, Hc.
    cbn [fmap option_fmap option_map demo_chunk tsn m_tsn]. f_equal. change (Z.of_nat 0) with 0. lia.
  - pose proof (pr_reads _ _ _ _ Hp 7) as Hreads. apply (f_equal length) in Hreads. revert Hreads.
    rewrite length_take, length_drop. pose proof (rc_next _ _ _ _ Hs 7) as Hnext.
    cbn [nothing next_msg delivered reads_of omap list_omap length]. unfold contents. rewrite length_map. lia.
Qed.
End whole.

Definition demo_config : DcConfig := mkDcConfig ChannelType.PartialReliableRexmitUnordered false 256 3 "probe" "p" 65536.
Definition demo_mine : DcConfig := mkDcConfig ChannelType.Reliable false 0 0 String.EmptyString String.EmptyString 1000.
Definition demo_written : list (bytes * bool) := [([1; 2], false); ([], true)].
Definition demo_opened := (open_message demo_config, Dcep) :: map wire demo_written.

Lemma demo_writes l n :
  ai_state (arrived_whole l) = Established ->
  (exists st, store (arrived_whole l) !! 0%nat = Some st /\ write_shutdown st = false /\ max_payload_size st = 1200
    /\ s_unordered st = false /\ s_identifier st = 7 /\ sequence_number st = 0) ->
  (n <= permits (pending_queue (arrived_whole l)))%nat -> writes 0 7 0 n (arrived_whole l).
Proof. intros H1 (st & H2 & H3 & H4 & H5) H6. split; [done| |done]. exists st. rewrite H4. split_and!; by try apply H5. Qed.


Definition demo_acks := [(DcMessage.marshal DcAck, Dcep); (DcMessage.marshal DcAck, Dcep); wire ([7], true)].

