(* ===== verification/ReplayDetector.v ===== *)
(** * Replay detection

    vendored/webrtc-util/src/fixed_big_int/mod.rs and replay_detector/mod.rs: the shift
    register of a fixed number of bits, kept in 64-bit words, and the sliding window that
    the DTLS connection keeps for each epoch.

    The window is an implementation of a set: [replay_detector_refines] shows that, for a
    window of a multiple of 64 numbers, a check answers from the set of all numbers
    accepted so far.  For other sizes the mask of the last word is the wrong one and the
    window forgets ([odd_window_replays]). *)

From stdpp Require Import base list gmap.
From Stdlib Require Import ZArith Lia.
From coqutil Require Import Datatypes.RecordSetters.
From S2P Require Import Prelude.
Import DoubleBraceUpdate.
Local Open Scope Z_scope.

(** ** Words of bits *)

Record FixedBigInt := mkFixedBigInt { fb_bits : list Z; fb_n : Z; fb_msb_mask : Z }.

Module FixedBigInt.
Definition new (n : Z) : FixedBigInt :=
  let chunk_size := (n + 63) / 64 in
  let chunk_size := if chunk_size =? 0 then 1 else chunk_size in
  mkFixedBigInt (replicate (Z.to_nat chunk_size) 0) n
    (if n mod 64 =? 0 then 2 ^ 64 - 1 else Z.shiftl 1 (64 - n mod 64) - 1).

(** The bits that come into word [i] from the words below. *)
Definition carry (bits : list Z) (n : Z) (i : nat) : outcome Z :=
  let n_chunk := Z.to_nat (n / 64) in
  let n_n := n mod 64 in
  if (n_chunk <=? i)%nat then
    word ← index bits (i - n_chunk);
    let carry := as_u 64 (Z.shiftl word n_n) in
    if (n_chunk <? i)%nat then
      if n_n =? 0 then Ret carry
      else word ← index bits (i - n_chunk - 1); Ret (Z.lor carry (Z.shiftr word (64 - n_n)))
    else Ret carry
  else Ret 0.

(** [for i in (0..self.bits.len() as isize).rev()]; [i] words are left. *)
Fixpoint lsh_words (bits : list Z) (n : Z) (i : nat) : outcome (list Z) :=
  match i with
  | O => Ret bits
  | S i =>
      carry ← carry bits n i;
      word ← index bits i;
      let word := if 64 <=? n then carry else Z.lor (as_u 64 (Z.shiftl word n)) carry in
      lsh_words (<[i := word]> bits) n i
  end.

Definition lsh (b : FixedBigInt) (n : Z) : outcome FixedBigInt :=
  if n =? 0 then Ret b
  else
    bits ← lsh_words (fb_bits b) n (length (fb_bits b));
    let last := (length bits - 1)%nat in
    word ← index bits last;
    Ret (mkFixedBigInt (<[last := Z.land word (fb_msb_mask b)]> bits) (fb_n b) (fb_msb_mask b)).

Definition bit (b : FixedBigInt) (i : Z) : outcome Z :=
  if fb_n b <=? i then Ret 0
  else
    word ← index (fb_bits b) (Z.to_nat (i / 64));
    Ret (if negb (Z.land word (Z.shiftl 1 (i mod 64)) =? 0) then 1 else 0).

Definition set_bit (b : FixedBigInt) (i : Z) : outcome FixedBigInt :=
  if fb_n b <=? i then Ret b
  else
    let chunk := Z.to_nat (i / 64) in
    word ← index (fb_bits b) chunk;
    Ret (mkFixedBigInt (<[chunk := Z.lor word (Z.shiftl 1 (i mod 64))]> (fb_bits b)) (fb_n b) (fb_msb_mask b)).
End FixedBigInt.

(** ** The sliding window *)

Record SlidingWindowDetector := mkSlidingWindowDetector {
  sw_accepted : bool;
  sw_seq : Z;
  sw_latest_seq : Z;
  sw_max_seq : Z;
  sw_window_size : Z;
  sw_mask : FixedBigInt }.

Module SlidingWindowDetector.
Definition new (window_size max_seq : Z) : SlidingWindowDetector :=
  mkSlidingWindowDetector false 0 0 max_seq window_size (FixedBigInt.new window_size).

(** Whether [seq] is refused although it is not above the limit. *)
Definition too_old_or_seen (d : SlidingWindowDetector) (seq : Z) : outcome bool :=
  if seq <=? sw_latest_seq d then
    edge ← checked_u 64 (sw_window_size d + seq);
    if edge <=? sw_latest_seq d then Ret true
    else
      bit ← FixedBigInt.bit (sw_mask d) (sw_latest_seq d - seq);
      Ret (negb (bit =? 0))
  else Ret false.

Definition check (d : SlidingWindowDetector) (seq : Z) : outcome (bool * SlidingWindowDetector) :=
  let d := d {{ sw_accepted := false }} in
  if sw_max_seq d <? seq then Ret (false, d)
  else
    refused ← too_old_or_seen d seq;
    if refused : bool then Ret (false, d)
    else Ret (true, d {{ sw_accepted := true }} {{ sw_seq := seq }}).

Definition accept (d : SlidingWindowDetector) : outcome SlidingWindowDetector :=
  if negb (sw_accepted d) then Ret d
  else
    d ← (if sw_latest_seq d <? sw_seq d then
           mask ← FixedBigInt.lsh (sw_mask d) (sw_seq d - sw_latest_seq d);
           Ret (d {{ sw_mask := mask }} {{ sw_latest_seq := sw_seq d }})
         else Ret d);
    if sw_max_seq d =? 0 then Panic RemainderByZero
    else
      let diff := (sw_latest_seq d - sw_seq d) mod sw_max_seq d in
      mask ← FixedBigInt.set_bit (sw_mask d) diff;
      Ret (d {{ sw_mask := mask }}).
End SlidingWindowDetector.

(** ** Words as one row of bits *)

(** Bit [q] of the number, [false] outside. *)
Definition flat (bits : list Z) (q : Z) : bool :=
  if 0 <=? q then Z.testbit (default 0 (bits !! Z.to_nat (q / 64))) (q mod 64) else false.

Lemma flat_word bits k p :
  0 <= p < 64 -> flat bits (64 * Z.of_nat k + p) = Z.testbit (default 0 (bits !! k)) p.
Proof.
  intros Hp. unfold flat. rewrite (proj2 (Z.leb_le _ _)) by lia.
  rewrite Z.mul_comm, Z.div_add_l, Z.div_small, Z.add_0_r, Nat2Z.id by lia.
  by rewrite Z.add_comm, Z.mod_add, Z.mod_small by lia.
Qed.

Lemma flat_negative bits q : q < 0 -> flat bits q = false.
Proof. intros Hq. unfold flat. by rewrite (proj2 (Z.leb_gt _ _)). Qed.

Lemma word_testbit_high w p : is_u 64 w -> 64 <= p -> Z.testbit w p = false.
Proof.
  intros Hw Hp. unfold is_u in Hw. destruct (decide (w = 0)) as [->|Hn]; [apply Z.bits_0|].
  apply Z.bits_above_log2; [lia|]. assert (Z.log2 w < 64) by (apply Z.log2_lt_pow2; lia). lia.
Qed.

Lemma default_word bits k : Forall (is_u 64) bits -> is_u 64 (default 0 (bits !! k)).
Proof.
  intros Hb. destruct (bits !! k) eqn:Hk; [|done]. by eapply Forall_lookup_1 in Hk.
Qed.

Lemma index_default (bits : list Z) k : (k < length bits)%nat -> index bits k = Ret (default 0 (bits !! k)).
Proof. intros Hk. unfold index. by destruct (lookup_lt_is_Some_2 bits k Hk) as [w ->]. Qed.

Lemma shl_testbit w r p :
  0 <= r -> 0 <= p < 64 -> Z.testbit (as_u 64 (Z.shiftl w r)) p = if r <=? p then Z.testbit w (p - r) else false.
Proof.
  intros Hr Hp. unfold as_u. rewrite Z.mod_pow2_bits_low by lia. rewrite Z.shiftl_spec by lia.
  destruct (Z.leb_spec r p); [done|]. apply Z.testbit_neg_r. lia.
Qed.

Lemma shl_is_u w r : is_u 64 (as_u 64 (Z.shiftl w r)).
Proof. apply as_u_range. lia. Qed.

Lemma lor_is_u a b : is_u 64 a -> is_u 64 b -> is_u 64 (Z.lor a b).
Proof.
  unfold is_u. intros Ha Hb. split; [apply Z.lor_nonneg; lia|].
  destruct (decide (Z.lor a b = 0)) as [->|Hn]; [lia|].
  apply Z.log2_lt_pow2; [pose proof (proj2 (Z.lor_nonneg a b)); lia|]. rewrite Z.log2_lor by lia.
  assert (forall x, 0 <= x < 2 ^ 64 -> Z.log2 x < 64) as Hx.
  { intros x Hx. destruct (decide (x = 0)) as [->|]; [done|]. apply Z.log2_lt_pow2; lia. }
  pose proof (Hx a Ha). pose proof (Hx b Hb). lia.
Qed.

Lemma shr_is_u w r : 0 <= r -> is_u 64 w -> is_u 64 (Z.shiftr w r).
Proof.
  unfold is_u. intros Hr Hw. split; [apply Z.shiftr_nonneg; lia|].
  rewrite Z.shiftr_div_pow2 by lia. apply Z.div_lt_upper_bound; [lia|]. nia.
Qed.

(** The carry into word [k] already holds all the bits of the shifted number. *)
Lemma carry_spec bits n k :
  Forall (is_u 64) bits -> 0 < n -> (k < length bits)%nat ->
  exists c, FixedBigInt.carry bits n k = Ret c /\ is_u 64 c
    /\ forall p, 0 <= p < 64 -> Z.testbit c p = flat bits (64 * Z.of_nat k + p - n).
Proof.
  intros Hb Hn Hk. unfold FixedBigInt.carry.
  pose proof (Z.div_mod n 64 ltac:(lia)) as Hdm. pose proof (Z.mod_pos_bound n 64 ltac:(lia)) as Hr.
  assert (0 <= n / 64) as Hc0 by (apply Z.div_pos; lia).
  set (r := n mod 64) in *. remember (Z.to_nat (n / 64)) as c eqn:Hc.
  assert (n = 64 * Z.of_nat c + r) as Hn' by lia. clearbody r. clear Hdm Hc0 Hc.
  destruct (Nat.leb_spec c k) as [Hck|Hck].
  2: { exists 0. split; [done|]. split; [done|]. intros p Hp. rewrite Z.bits_0, flat_negative; [done|lia]. }
  rewrite (index_default bits (k - c)) by lia. cbn [mbind outcome_bind].
  set (w := default 0 (bits !! (k - c)%nat)).
  assert (is_u 64 w) as Hw by (by apply default_word).
  assert (forall p, 0 <= p < 64 -> r <= p -> flat bits (64 * Z.of_nat k + p - n) = Z.testbit w (p - r)) as Hlow.
  { intros p Hp Hrp. replace (64 * Z.of_nat k + p - n) with (64 * Z.of_nat (k - c) + (p - r)) by lia.
    apply flat_word. lia. }
  destruct (Nat.ltb_spec c k) as [Hlt|Hge].
  - destruct (Z.eqb_spec r 0) as [->|Hr0].
    + eexists. split; [reflexivity|]. split; [apply shl_is_u|]. intros p Hp. rewrite shl_testbit, Hlow by lia.
      by rewrite (proj2 (Z.leb_le 0 p)) by lia.
    + rewrite index_default by lia. cbn [mbind outcome_bind]. set (w' := default 0 _).
      assert (is_u 64 w') as Hw' by (by apply default_word).
      eexists. split; [reflexivity|]. split; [apply lor_is_u; [apply shl_is_u|apply shr_is_u; [lia|done]]|].
      intros p Hp. rewrite Z.lor_spec, shl_testbit, Z.shiftr_spec by lia.
      destruct (Z.leb_spec r p) as [Hle|Hgt].
      * rewrite Hlow, (word_testbit_high w') by (done || lia). by rewrite orb_false_r.
      * replace (64 * Z.of_nat k + p - n) with (64 * Z.of_nat (k - c - 1) + (p + (64 - r))) by lia.
        by rewrite flat_word by lia.
  - eexists. split; [reflexivity|]. split; [apply shl_is_u|]. intros p Hp. rewrite shl_testbit by lia.
    destruct (Z.leb_spec r p) as [Hle|Hgt]; [by rewrite Hlow|]. rewrite flat_negative; [done|lia].
Qed.

Lemma carry_agrees cur bits n k :
  length cur = length bits -> (forall j, (j <= k)%nat -> cur !! j = bits !! j) ->
  FixedBigInt.carry cur n k = FixedBigInt.carry bits n k.
Proof.
  intros Hl Hj. unfold FixedBigInt.carry. destruct (Nat.leb_spec (Z.to_nat (n / 64)) k); [|done].
  unfold index. rewrite !Hj by lia. done.
Qed.

(** The words from [i] on are shifted; those below are as they were. *)
Lemma lsh_words_spec bits n :
  Forall (is_u 64) bits -> 0 < n ->
  forall i cur, (i <= length bits)%nat -> length cur = length bits ->
  (forall j, (j < i)%nat -> cur !! j = bits !! j) ->
  exists out, FixedBigInt.lsh_words cur n i = Ret out /\ length out = length bits
    /\ forall k, (k < length bits)%nat ->
         if (k <? i)%nat
         then is_u 64 (default 0 (out !! k))
              /\ forall p, 0 <= p < 64 -> Z.testbit (default 0 (out !! k)) p = flat bits (64 * Z.of_nat k + p - n)
         else out !! k = cur !! k.
Proof.
  intros Hb Hn. induction i as [|i IH]; intros cur Hi Hl Hc; cbn [FixedBigInt.lsh_words].
  { exists cur. done. }
  rewrite (carry_agrees cur bits) by (done || (intros; apply Hc; lia)).
  destruct (carry_spec bits n i Hb Hn) as (c & -> & Hcu & Hct); [lia|]. cbn [mbind outcome_bind].
  rewrite index_default by lia. cbn [mbind outcome_bind]. rewrite Hc by lia.
  set (w := if 64 <=? n then c else _).
  assert (is_u 64 w /\ forall p, 0 <= p < 64 -> Z.testbit w p = flat bits (64 * Z.of_nat i + p - n)) as [Hwu Hwt].
  { unfold w. destruct (Z.leb_spec 64 n); [done|]. split; [apply lor_is_u; [apply shl_is_u|done]|].
    intros p Hp. rewrite Z.lor_spec, shl_testbit, Hct by lia. destruct (Z.leb_spec n p); [|done].
    replace (64 * Z.of_nat i + p - n) with (64 * Z.of_nat i + (p - n)) by lia. rewrite flat_word by lia.
    apply orb_diag. }
  destruct (IH (<[i := w]> cur)) as (out & -> & Hlo & Ho); [lia|by rewrite length_insert| |].
  { intros j Hj. rewrite list_lookup_insert_ne by lia. apply Hc. lia. }
  exists out. split; [done|]. split; [done|]. intros k Hk. specialize (Ho k Hk).
  destruct (Nat.ltb_spec k i); [by rewrite (proj2 (Nat.ltb_lt _ _)) by lia|].
  destruct (Nat.ltb_spec k (S i)).
  - replace k with i in * by lia. rewrite list_lookup_insert_eq in Ho by lia. rewrite Ho. done.
  - rewrite list_lookup_insert_ne in Ho by lia. done.
Qed.

(** ** The operations on whole words *)

Record wf_bits (b : FixedBigInt) : Prop := {
  wb_words : Forall (is_u 64) (fb_bits b);
  wb_size : fb_n b = 64 * Z.of_nat (length (fb_bits b));
  wb_some : (0 < length (fb_bits b))%nat;
  wb_mask : fb_msb_mask b = 2 ^ 64 - 1 }.

Lemma flat_at q : 0 <= q -> exists k p, q = 64 * Z.of_nat k + p /\ 0 <= p < 64.
Proof.
  intros Hq. exists (Z.to_nat (q / 64)), (q mod 64). pose proof (Z.div_mod q 64 ltac:(lia)).
  assert (0 <= q / 64) by (apply Z.div_pos; lia). pose proof (Z.mod_pos_bound q 64 ltac:(lia)). lia.
Qed.

Lemma div_at k p : 0 <= p < 64 -> Z.to_nat ((64 * Z.of_nat k + p) / 64) = k /\ (64 * Z.of_nat k + p) mod 64 = p.
Proof.
  intros Hp. rewrite Z.mul_comm. split.
  - rewrite Z.div_add_l, Z.div_small by lia. lia.
  - by rewrite Z.add_comm, Z.mod_add, Z.mod_small by lia.
Qed.

Lemma new_wf n :
  0 < n -> n mod 64 = 0 ->
  wf_bits (FixedBigInt.new n) /\ fb_n (FixedBigInt.new n) = n /\ forall q, flat (fb_bits (FixedBigInt.new n)) q = false.
Proof.
  intros Hn Hm. pose proof (Z.div_mod n 64 ltac:(lia)) as Hd. rewrite Hm in Hd.
  unfold FixedBigInt.new. rewrite Hm. cbn [Z.eqb].
  assert ((n + 63) / 64 = n / 64) as ->.
  { symmetry. apply (Z.div_unique _ _ _ 63); lia. }
  rewrite (proj2 (Z.eqb_neq _ _)) by lia. split; [|split; [done|]].
  - split; cbn [fb_bits fb_n fb_msb_mask]; rewrite ?length_replicate; try lia. by apply Forall_replicate.
  - intros q. unfold flat. destruct (0 <=? q); [|done]. cbn [fb_bits].
    destruct (replicate _ 0 !! _) eqn:Hq; [|apply Z.bits_0].
    apply lookup_replicate_1 in Hq as [-> _]. apply Z.bits_0.
Qed.

Lemma lsh_spec b n :
  wf_bits b -> 0 <= n ->
  exists b', FixedBigInt.lsh b n = Ret b' /\ wf_bits b' /\ fb_n b' = fb_n b
    /\ forall q, 0 <= q < fb_n b -> flat (fb_bits b') q = flat (fb_bits b) (q - n).
Proof.
  intros Hb Hn. unfold FixedBigInt.lsh. destruct (Z.eqb_spec n 0) as [->|Hn0].
  { exists b. split_and!; try done. intros q _. by rewrite Z.sub_0_r. }
  destruct Hb as [Hw Hs Hp Hm].
  destruct (lsh_words_spec (fb_bits b) n Hw ltac:(lia) (length (fb_bits b)) (fb_bits b))
    as (out & -> & Hl & Ho); [done..|]. cbn [mbind outcome_bind].
  assert (forall k, (k < length (fb_bits b))%nat -> is_u 64 (default 0 (out !! k))
    /\ forall p, 0 <= p < 64 -> Z.testbit (default 0 (out !! k)) p = flat (fb_bits b) (64 * Z.of_nat k + p - n)) as Ho'.
  { intros k Hk. specialize (Ho k Hk). by rewrite (proj2 (Nat.ltb_lt _ _)) in Ho. }
  rewrite index_default by lia. cbn [mbind outcome_bind].
  replace (<[_:=_]> out) with out; cycle 1.
  { symmetry. apply list_insert_id. destruct (lookup_lt_is_Some_2 out (length out - 1)) as [w Hlast]; [lia|].
    rewrite Hlast. cbn [default from_option id]. rewrite Hm. f_equal.
    change (2 ^ 64 - 1) with (Z.ones 64). rewrite Z.land_ones by lia. symmetry. apply Z.mod_small.
    destruct (Ho' (length out - 1)%nat) as [Hu _]; [lia|]. by rewrite Hlast in Hu. }
  eexists. split; [done|]. split; [split; cbn [fb_bits fb_n fb_msb_mask]; rewrite ?Hl; try done|].
  - apply Forall_lookup_2. intros k w Hk. destruct (Ho' k) as [Hu _]; [by rewrite <-Hl; eapply lookup_lt_Some|].
    by rewrite Hk in Hu.
  - split; [done|]. cbn [fb_bits]. intros q Hq. destruct (flat_at q) as (k & p & -> & Hp'); [lia|].
    rewrite flat_word by done. apply Ho'; [lia|done].
Qed.

Lemma land_bit w p : 0 <= p -> negb (Z.land w (Z.shiftl 1 p) =? 0) = Z.testbit w p.
Proof.
  intros Hp. rewrite Z.shiftl_1_l. destruct (Z.testbit w p) eqn:Ht.
  - apply negb_true_iff, Z.eqb_neq. intros H0. assert (Z.testbit (Z.land w (2 ^ p)) p = true) as Hl.
    { by rewrite Z.land_spec, Ht, Z.pow2_bits_true by lia. }
    by rewrite H0, Z.bits_0 in Hl.
  - apply negb_false_iff, Z.eqb_eq. apply Z.bits_inj'. intros i Hi. rewrite Z.land_spec, Z.bits_0.
    destruct (decide (i = p)) as [->|Hne]; [by rewrite Ht|].
    by rewrite Z.pow2_bits_false, andb_false_r by lia.
Qed.

Lemma bit_spec b i :
  wf_bits b -> 0 <= i < fb_n b -> FixedBigInt.bit b i = Ret (if flat (fb_bits b) i then 1 else 0).
Proof.
  intros Hb Hi. unfold FixedBigInt.bit. rewrite (proj2 (Z.leb_gt _ _)) by lia.
  destruct (flat_at i) as (k & p & -> & Hp); [lia|]. destruct (div_at k p Hp) as [-> ->].
  rewrite (wb_size _ Hb) in Hi. rewrite index_default by lia. cbn [mbind outcome_bind].
  by rewrite land_bit, flat_word by lia.
Qed.

Lemma set_bit_spec b i :
  wf_bits b -> 0 <= i < fb_n b ->
  exists b', FixedBigInt.set_bit b i = Ret b' /\ wf_bits b' /\ fb_n b' = fb_n b
    /\ forall q, 0 <= q -> flat (fb_bits b') q = (q =? i) || flat (fb_bits b) q.
Proof.
  intros Hb Hi. unfold FixedBigInt.set_bit. rewrite (proj2 (Z.leb_gt _ _)) by lia.
  destruct (flat_at i) as (k & p & -> & Hp); [lia|]. destruct (div_at k p Hp) as [-> ->].
  pose proof (wb_size _ Hb) as Hs. rewrite index_default by lia. cbn [mbind outcome_bind].
  eexists. split; [reflexivity|]. destruct Hb as [Hw _ Hps Hm]. split; [split; cbn; rewrite ?length_insert; try done|].
  { apply Forall_insert; [done|]. apply lor_is_u; [by apply default_word|]. rewrite Z.shiftl_1_l. split; [lia|].
    apply Z.pow_lt_mono_r; lia. }
  split; [done|]. cbn [fb_bits]. intros q Hq. destruct (flat_at q) as (k' & p' & -> & Hp'); [lia|].
  rewrite !flat_word by done. destruct (decide (k' = k)) as [->|Hk].
  - rewrite list_lookup_insert_eq by lia. cbn [default from_option id].
    rewrite Z.lor_spec, Z.shiftl_1_l, Z.pow2_bits_eqb by lia. rewrite orb_comm. f_equal.
    destruct (Z.eqb_spec p p'), (Z.eqb_spec (64 * Z.of_nat k + p') (64 * Z.of_nat k + p)); lia || done.
  - rewrite list_lookup_insert_ne by done.
    rewrite (proj2 (Z.eqb_neq _ _)) by lia. done.
Qed.

(** ** The set of numbers a window stands for *)

Inductive window_op := Check (seq : Z) | Accept.

(** The numbers accepted, and the one the last check allowed. *)
Record window := mkWindow { w_accepted : list Z; w_candidate : option Z }.

Definition newest (accepted : list Z) : Z := foldr Z.max 0 accepted.

Definition fresh (size limit : Z) (accepted : list Z) (seq : Z) : bool :=
  bool_decide (seq <= limit /\ (newest accepted < seq \/ (newest accepted - seq < size /\ seq ∉ accepted))).

Definition window_step (size limit : Z) (w : window) (o : window_op) : option bool * window :=
  match o with
  | Check seq =>
      let ok := fresh size limit (w_accepted w) seq in
      (Some ok, mkWindow (w_accepted w) (if ok then Some seq else None))
  | Accept =>
      (None, mkWindow match w_candidate w with
                      | Some seq => if bool_decide (seq ∈ w_accepted w) then w_accepted w else seq :: w_accepted w
                      | None => w_accepted w
                      end (w_candidate w))
  end.

Fixpoint window_run (size limit : Z) (w : window) (ops : list window_op) : list bool :=
  match ops with
  | [] => []
  | o :: ops => let '(r, w) := window_step size limit w o in option_list r ++ window_run size limit w ops
  end.

Definition detector_step (d : SlidingWindowDetector) (o : window_op) : outcome (option bool * SlidingWindowDetector) :=
  match o with
  | Check seq => '(ok, d) ← SlidingWindowDetector.check d seq; Ret (Some ok, d)
  | Accept => d ← SlidingWindowDetector.accept d; Ret (None, d)
  end.

Fixpoint detector_run (d : SlidingWindowDetector) (ops : list window_op) : outcome (list bool) :=
  match ops with
  | [] => Ret []
  | o :: ops => '(r, d) ← detector_step d o; rs ← detector_run d ops; Ret (option_list r ++ rs)
  end.

Lemma newest_nonneg l : 0 <= newest l.
Proof. induction l as [|x l IH]; cbn; unfold newest in *; lia. Qed.

Lemma newest_max l x : x ∈ l -> x <= newest l.
Proof.
  induction l as [|y l IH]; [by intros ?%elem_of_nil|]. intros [-> | Hx]%elem_of_cons; cbn; [lia|].
  specialize (IH Hx). unfold newest in IH. lia.
Qed.

Lemma newest_mark accepted seq :
  let accepted' := if bool_decide (seq ∈ accepted) then accepted else seq :: accepted in
  newest accepted' = Z.max (newest accepted) seq /\ forall x, x ∈ accepted' <-> x = seq \/ x ∈ accepted.
Proof.
  cbn. case_bool_decide as Hin.
  - pose proof (newest_max _ _ Hin). split; [lia|]. set_solver.
  - split; [unfold newest; cbn; lia|]. set_solver.
Qed.

Section refinement.
  Context (size limit : Z) (Hsize : 0 < size) (Hwords : size mod 64 = 0) (Hlimit : size < limit)
    (Hwidth : size + limit < 2 ^ 64).

(** The detector's window is the set: bit [q] tells whether the number [q] below the
    newest has been accepted. *)
Record window_sim (d : SlidingWindowDetector) (w : window) : Prop := {
  ws_bits : wf_bits (sw_mask d);
  ws_n : fb_n (sw_mask d) = size;
  ws_window : sw_window_size d = size;
  ws_max : sw_max_seq d = limit;
  ws_latest : sw_latest_seq d = newest (w_accepted w);
  ws_range : Forall (fun s => 0 <= s <= limit) (w_accepted w);
  ws_seen : forall q, 0 <= q < size ->
    flat (fb_bits (sw_mask d)) q = bool_decide (newest (w_accepted w) - q ∈ w_accepted w);
  ws_candidate : if sw_accepted d
    then w_candidate w = Some (sw_seq d) /\ 0 <= sw_seq d <= limit
         /\ newest (w_accepted w) - sw_seq d < size
    else w_candidate w = None }.

Lemma newest_limit w : Forall (fun s => 0 <= s <= limit) w -> newest w <= limit.
Proof using Hsize Hlimit. induction 1 as [|x l Hx Hl IH]; cbn; [lia|]. fold (newest l). lia. Qed.

Lemma new_sim : window_sim (SlidingWindowDetector.new size limit) (mkWindow [] None).
Proof using Hsize Hwords.
  by destruct (new_wf size Hsize Hwords) as (Hw & Hn & Hf).
Qed.

Lemma fresh_bounds accepted seq :
  fresh size limit accepted seq = true -> seq <= limit /\ newest accepted - seq < size.
Proof using Hsize. unfold fresh. intros [H1 H2]%bool_decide_eq_true. lia. Qed.

Lemma check_answer d w seq :
  window_sim d w -> 0 <= seq ->
  SlidingWindowDetector.check d seq
  = Ret (fresh size limit (w_accepted w) seq,
         if fresh size limit (w_accepted w) seq
         then d {{ sw_accepted := true }} {{ sw_seq := seq }} else d {{ sw_accepted := false }}).
Proof using Hsize Hlimit Hwidth.
  intros Hs Hseq. pose proof (newest_limit _ (ws_range _ _ Hs)) as Hnl.
  unfold SlidingWindowDetector.check, fresh. change (sw_max_seq (d {{ sw_accepted := false }})) with (sw_max_seq d).
  rewrite (ws_max _ _ Hs). destruct (Z.ltb_spec limit seq) as [Hl|Hl].
  { rewrite bool_decide_eq_false_2 by lia. done. }
  unfold SlidingWindowDetector.too_old_or_seen. cbn [sw_latest_seq sw_window_size sw_mask].
  change (sw_latest_seq (d {{ sw_accepted := false }})) with (sw_latest_seq d).
  rewrite (ws_latest _ _ Hs). destruct (Z.leb_spec seq (newest (w_accepted w))) as [Hle|Hgt].
  2: { rewrite bool_decide_eq_true_2 by lia. done. }
  change (sw_window_size (d {{ sw_accepted := false }})) with (sw_window_size d). rewrite (ws_window _ _ Hs).
  rewrite checked_u_Ret by (unfold is_u; lia). cbn [mbind outcome_bind].
  destruct (Z.leb_spec (size + seq) (newest (w_accepted w))) as [Hold|Hin].
  { rewrite bool_decide_eq_false_2 by lia. done. }
  change (sw_mask (d {{ sw_accepted := false }})) with (sw_mask d).
  rewrite bit_spec; [|apply (ws_bits _ _ Hs)|rewrite (ws_n _ _ Hs); lia].
  rewrite (ws_seen _ _ Hs) by lia.
  replace (newest (w_accepted w) - (newest (w_accepted w) - seq)) with seq by lia. cbn [mbind outcome_bind].
  destruct (decide (seq ∈ w_accepted w)) as [Hin'|Hnin].
  - rewrite (bool_decide_eq_true_2 (seq ∈ _)) by done. rewrite bool_decide_eq_false_2; [done|].
    intros [_ [?|[_ ?]]]; [lia|done].
  - rewrite (bool_decide_eq_false_2 (seq ∈ _)) by done. rewrite bool_decide_eq_true_2; [done|].
    split; [done|]. right. split; [lia|done].
Qed.

Lemma check_sim d w seq :
  window_sim d w -> 0 <= seq ->
  exists d', SlidingWindowDetector.check d seq = Ret (fresh size limit (w_accepted w) seq, d')
    /\ window_sim d' (window_step size limit w (Check seq)).2.
Proof using Hsize Hlimit Hwidth.
  intros Hs Hseq. rewrite (check_answer d w) by done. eexists. split; [reflexivity|].
  cbn [window_step snd]. pose proof (fresh_bounds (w_accepted w) seq) as Hb.
  destruct Hs, (fresh _ _ _ _); split; try done. cbn. destruct Hb; [done|]. unfold newest, constant in *. split; [done|]. lia.
Qed.

(** The head of the window moves to a newer number, of which nothing is marked yet. *)
Record moved (d d1 : SlidingWindowDetector) (w : window) : Prop := {
  mv_bits : wf_bits (sw_mask d1);
  mv_n : fb_n (sw_mask d1) = size;
  mv_fields : d1 = d {{ sw_mask := sw_mask d1 }} {{ sw_latest_seq := Z.max (newest (w_accepted w)) (sw_seq d) }};
  mv_seen : forall q, 0 <= q < size ->
    flat (fb_bits (sw_mask d1)) q
    = bool_decide (Z.max (newest (w_accepted w)) (sw_seq d) - q ∈ w_accepted w) }.

Lemma move_window d w :
  window_sim d w ->
  exists d1,
    (if sw_latest_seq d <? sw_seq d
     then mask ← FixedBigInt.lsh (sw_mask d) (sw_seq d - sw_latest_seq d);
          Ret (d {{ sw_mask := mask }} {{ sw_latest_seq := sw_seq d }})
     else Ret d) = Ret d1 /\ moved d d1 w.
Proof using Hsize Hwords Hlimit Hwidth.
  intros Hs. pose proof (ws_latest _ _ Hs) as Hl. destruct (Z.ltb_spec (sw_latest_seq d) (sw_seq d)) as [Hlt|Hge].
  - destruct (lsh_spec (sw_mask d) (sw_seq d - sw_latest_seq d)) as (m & -> & Hm & Hn & Hq); [by destruct Hs|lia|].
    cbn [mbind outcome_bind]. eexists. split; [reflexivity|].
    rewrite (ws_n _ _ Hs) in *. split; [done|done| |].
    + destruct d. cbn in *. unfold newest, constant in *. f_equal. lia.
    + intros q Hq'. cbn [sw_mask]. change (sw_mask _) with m. rewrite Hq by done. rewrite Hl in *.
      replace (Z.max _ _) with (sw_seq d) by lia.
      destruct (decide (q < sw_seq d - newest (w_accepted w))) as [Hnew|Hold].
      * rewrite flat_negative by lia. symmetry. apply bool_decide_eq_false. intros Hin%newest_max. lia.
      * rewrite (ws_seen _ _ Hs) by lia.
        by replace (newest (w_accepted w) - (q - _)) with (sw_seq d - q) by lia.
  - exists d. split; [done|]. rewrite Hl in Hge.
    assert (Z.max (newest (w_accepted w)) (sw_seq d) = newest (w_accepted w)) as Hm by lia.
    destruct Hs. split; rewrite ?Hm; try done. destruct d; cbn in *. by subst.
Qed.

(** Accepting shifts the window to a newer number and marks it. *)
Lemma accept_sim d w :
  window_sim d w ->
  exists d', SlidingWindowDetector.accept d = Ret d' /\ window_sim d' (window_step size limit w Accept).2.
Proof using Hsize Hwords Hlimit Hwidth.
  intros Hs. unfold SlidingWindowDetector.accept, window_step. pose proof (ws_candidate _ _ Hs) as Hc.
  destruct (sw_accepted d) eqn:Hacc; cbn [negb snd].
  2: { rewrite Hc. exists d. split; [done|]. destruct w; cbn in *. by subst. }
  destruct Hc as (Hc & Hr & Hin). rewrite Hc.
  destruct (move_window d w Hs) as (d1 & -> & [Hb Hn Hf Hseen]). cbn [mbind outcome_bind].
  destruct (newest_mark (w_accepted w) (sw_seq d)) as [Hnew Hel]. set (accepted' := if bool_decide (sw_seq d ∈ w_accepted w) then _ else _) in *.
  assert (sw_max_seq d1 = limit /\ sw_latest_seq d1 = newest accepted' /\ sw_seq d1 = sw_seq d
    /\ sw_window_size d1 = size /\ sw_accepted d1 = true) as (H1 & H2 & H3 & H4 & H5).
  { rewrite Hf, Hnew. destruct Hs. by destruct d. }
  clear Hf. rewrite H1, H2, H3, (proj2 (Z.eqb_neq _ _)), Z.mod_small by lia.
  destruct (set_bit_spec (sw_mask d1) (newest accepted' - sw_seq d)) as (m & -> & Hm & Hmn & Hmq); [done|lia|].
  cbn [mbind outcome_bind]. eexists. split; [reflexivity|]. rewrite <-Hnew in Hseen.
  split; destruct d1; cbn in *; unfold constant in *; subst; try done.
  - by rewrite Hmn.
  - unfold accepted'. destruct Hs. case_bool_decide; [done|]. by apply Forall_cons.
  - intros q Hq. rewrite Hmq, Hseen by lia. fold (newest accepted').
    apply eq_bool_prop_intro. rewrite orb_True, !bool_decide_spec, Hel.
    destruct (Z.eqb_spec q (newest accepted' - sw_seq d)); split; intros; destruct_or?; naive_solver lia.
  - split; [done|]. fold (newest accepted'). lia.
Qed.

Lemma run_sim ops d w :
  window_sim d w -> Forall (fun o => match o with Check seq => 0 <= seq | Accept => True end) ops ->
  detector_run d ops = Ret (window_run size limit w ops).
Proof using Hsize Hwords Hlimit Hwidth.
  intros Hs Ho. revert d w Hs. induction Ho as [|o ops Ho Hops IH]; intros d w Hs; [done|].
  cbn [detector_run window_run]. destruct o as [seq|].
  - destruct (check_sim d w seq Hs Ho) as (d' & Hd & Hs'). cbn [detector_step]. rewrite Hd.
    cbn [mbind outcome_bind window_step]. by rewrite (IH _ _ Hs').
  - destruct (accept_sim d w Hs) as (d' & Hd & Hs'). cbn [detector_step]. rewrite Hd.
    cbn [mbind outcome_bind window_step]. by rewrite (IH _ _ Hs').
Qed.
End refinement.

(** An accepted number is never fresh again. *)
Lemma fresh_once size limit accepted seq : seq ∈ accepted -> fresh size limit accepted seq = false.
Proof.
  intros Hin. pose proof (newest_max _ _ Hin). apply bool_decide_eq_false.
  intros [_ [?|[_ ?]]]; [lia|done].
Qed.

(** ** Properties *)

(** C16: for a window of whole 64-bit words below the limit of the sequence numbers (the
    connection uses 64 and [2^48 - 1]), the detector never panics and answers every
    sequence of checks and acceptances as the set of accepted numbers does: a number is
    refused when it is above the limit, was accepted before, or lies a whole window
    behind the newest one. *)
Theorem replay_detector_refines size limit ops :
  0 < size -> size mod 64 = 0 -> size < limit -> size + limit < 2 ^ 64 ->
  Forall (fun o => match o with Check seq => 0 <= seq | Accept => True end) ops ->
  detector_run (SlidingWindowDetector.new size limit) ops = Ret (window_run size limit (mkWindow [] None) ops).
Proof. intros Hs Hw Hl Hu Ho. apply run_sim; try done. by apply new_sim. Qed.

Lemma replay_detector_refines_witness :
  detector_run (SlidingWindowDetector.new 64 (2 ^ 48 - 1))
    [Check 5; Accept; Check 5; Check 200; Accept; Check 150; Accept; Check 136; Check 137; Check 150]
  = Ret [true; false; true; true; false; true; false].
Proof. rewrite replay_detector_refines; [vm_compute|..|repeat constructor]; done. Defined.

(** With a window that is not a multiple of 64 the mask of the last word keeps the wrong
    number of bits, and a number that was accepted is accepted again. *)
Lemma odd_window_replays :
  detector_run (SlidingWindowDetector.new 48 (2 ^ 48 - 1)) [Check 1; Accept; Check 20; Accept; Check 1]
  = Ret [true; true; true]
  /\ window_run 48 (2 ^ 48 - 1) (mkWindow [] None) [Check 1; Accept; Check 20; Accept; Check 1]
     = [true; true; false].
Proof. split; vm_compute; reflexivity. Qed.
