(* ===== verification/DtlsWire.v ===== *)
(** * DTLS wire format

    The records, handshake messages and extensions of vendored/dtls, read from a
    [std::io::Read] and written to a [std::io::Write] as in record_layer/,
    handshake/, extension/, alert/, change_cipher_spec/ and content.rs. *)

From stdpp Require Import base list strings.
From Stdlib Require Import ZArith Lia.
From S2P Require Import Prelude Utf8 Fallible.
Local Open Scope Z_scope.

(** error.rs.  [ErrIo], [ErrUtf8], [ErrSec1], [ErrAes], [ErrP256] and [ErrMpscSend] are the
    variants of the libraries' errors, without the text of the cause; [ErrOther] has it. *)
Inductive Error :=
  | ErrConnClosed
  | ErrDeadlineExceeded
  | ErrBufferTooSmall
  | ErrContextUnsupported
  | ErrDtlspacketInvalidLength
  | ErrHandshakeInProgress
  | ErrInvalidContentType
  | ErrInvalidMac
  | ErrInvalidPacketLength
  | ErrReservedExportKeyingMaterial
  | ErrCertificateVerifyNoCertificate
  | ErrCipherSuiteNoIntersection
  | ErrCipherSuiteUnset
  | ErrClientCertificateNotVerified
  | ErrClientCertificateRequired
  | ErrClientNoMatchingSrtpProfile
  | ErrClientRequiredButNoServerEms
  | ErrCompressionMethodUnset
  | ErrCookieMismatch
  | ErrCookieTooLong
  | ErrIdentityNoPsk
  | ErrInvalidCertificate
  | ErrInvalidCipherSpec
  | ErrInvalidCipherSuite
  | ErrInvalidClientKeyExchange
  | ErrInvalidCompressionMethod
  | ErrInvalidEcdsasignature
  | ErrInvalidEllipticCurveType
  | ErrInvalidExtensionType
  | ErrInvalidHashAlgorithm
  | ErrInvalidNamedCurve
  | ErrInvalidPrivateKey
  | ErrNamedCurveAndPrivateKeyMismatch
  | ErrInvalidSniFormat
  | ErrInvalidSignatureAlgorithm
  | ErrKeySignatureMismatch
  | ErrNilNextConn
  | ErrNoAvailableCipherSuites
  | ErrNoAvailableSignatureSchemes
  | ErrNoCertificates
  | ErrNoConfigProvided
  | ErrNoSupportedEllipticCurves
  | ErrUnsupportedProtocolVersion
  | ErrPskAndCertificate
  | ErrPskAndIdentityMustBeSetForClient
  | ErrRequestedButNoSrtpExtension
  | ErrServerMustHaveCertificate
  | ErrServerNoMatchingSrtpProfile
  | ErrServerRequiredButNoClientEms
  | ErrVerifyDataMismatch
  | ErrHandshakeMessageUnset
  | ErrInvalidFlight
  | ErrKeySignatureGenerateUnimplemented
  | ErrKeySignatureVerifyUnimplemented
  | ErrLengthMismatch
  | ErrNotEnoughRoomForNonce
  | ErrNotImplemented
  | ErrSequenceNumberOverflow
  | ErrUnableToMarshalFragmented
  | ErrInvalidFsmTransition
  | ErrApplicationDataEpochZero
  | ErrUnhandledContextType
  | ErrContextCanceled
  | ErrEmptyFragment
  | ErrAlertFatalOrClose
  | ErrFragmentBufferOverflow (new_size max_size : Z)
  | ErrIo
  | ErrUtf8
  | ErrSec1
  | ErrAes
  | ErrP256
  | ErrMpscSend
  | ErrOther (what : string).

Abbreviation result A := (fallible Error A).

(** ** [std::io::Read] and [byteorder] *)

(** [read_exact] of [n] bytes. *)
Definition read_exact (n : nat) (r : bytes) : result (bytes * bytes) :=
  if (n <=? length r)%nat then Ok (take n r, drop n r) else Err ErrIo.

Definition read_uint (n : nat) (r : bytes) : result (Z * bytes) :=
  '(b, r) ← read_exact n r;
  Ok (from_be_bytes b, r).

Definition read_u8 : bytes -> result (Z * bytes) := read_uint 1.
Definition read_u16 : bytes -> result (Z * bytes) := read_uint 2.
Definition read_u24 : bytes -> result (Z * bytes) := read_uint 3.
Definition read_u32 : bytes -> result (Z * bytes) := read_uint 4.

(** [for _ in 0..n { v.push(read()?) }] *)
Fixpoint read_many {A} (n : nat) (read : bytes -> result (A * bytes)) (r : bytes)
    : result (list A * bytes) :=
  match n with
  | O => Ok ([], r)
  | S n =>
      '(a, r) ← read r;
      '(l, r) ← read_many n read r;
      Ok (a :: l, r)
  end.

Definition read_with {A} (f : Z -> A) (read : bytes -> result (Z * bytes)) (r : bytes)
    : result (A * bytes) :=
  '(z, r) ← read r;
  Ok (f z, r).

(** Numbers as the casts of the writers make them; [byteorder] asserts that a
    number of three bytes fits. *)
Definition write_u8 (z : Z) : bytes := to_be_bytes 1 (as_u 8 z).
Definition write_u16 (z : Z) : bytes := to_be_bytes 2 (as_u 16 z).
Definition write_u32 (z : Z) : bytes := to_be_bytes 4 (as_u 32 z).
Definition write_u24 (z : Z) : result bytes :=
  if z <? 2 ^ 24 then Ok (to_be_bytes 3 z) else Panics ExplicitPanic.

(** [a + k * (n as u16)], checked. *)
Definition len_u16 (a k : Z) (n : nat) : result Z :=
  m ← lift (checked_u 16 (k * as_u 16 (Z.of_nat n)));
  lift (checked_u 16 (a + m)).

(** ** Numbers of the protocol *)

Inductive ContentType := CtChangeCipherSpec | CtAlert | CtHandshake | CtApplicationData | CtInvalid.

#[export] Instance ContentType_eq_dec : EqDecision ContentType.
Proof. solve_decision. Defined.

Module ContentType.
Definition from (val : Z) : ContentType :=
  match val with
  | 20 => CtChangeCipherSpec | 21 => CtAlert | 22 => CtHandshake | 23 => CtApplicationData
  | _ => CtInvalid
  end.
Definition as_u8 (t : ContentType) : Z :=
  match t with
  | CtChangeCipherSpec => 20 | CtAlert => 21 | CtHandshake => 22 | CtApplicationData => 23
  | CtInvalid => 24
  end.
End ContentType.

Inductive AlertLevel := Warning | Fatal | LevelInvalid.

#[export] Instance AlertLevel_eq_dec : EqDecision AlertLevel.
Proof. solve_decision. Defined.

Module AlertLevel.
Definition from (val : Z) : AlertLevel := match val with 1 => Warning | 2 => Fatal | _ => LevelInvalid end.
Definition as_u8 (l : AlertLevel) : Z := match l with Warning => 1 | Fatal => 2 | LevelInvalid => 3 end.
End AlertLevel.

Inductive AlertDescription :=
  | CloseNotify | UnexpectedMessage | BadRecordMac | DecryptionFailed | RecordOverflow
  | DecompressionFailure | HandshakeFailure | NoCertificate | BadCertificate
  | UnsupportedCertificate | CertificateRevoked | CertificateExpired | CertificateUnknown
  | IllegalParameter | UnknownCa | AccessDenied | DecodeError | DecryptError
  | ExportRestriction | ProtocolVersionAlert | InsufficientSecurity | InternalError
  | UserCanceled | NoRenegotiation | UnsupportedExtension | UnknownPskIdentity
  | DescriptionInvalid.

#[export] Instance AlertDescription_eq_dec : EqDecision AlertDescription.
Proof. solve_decision. Defined.

Module AlertDescription.
Definition from (val : Z) : AlertDescription :=
  match val with
  | 0 => CloseNotify | 10 => UnexpectedMessage | 20 => BadRecordMac | 21 => DecryptionFailed
  | 22 => RecordOverflow | 30 => DecompressionFailure | 40 => HandshakeFailure
  | 41 => NoCertificate | 42 => BadCertificate | 43 => UnsupportedCertificate
  | 44 => CertificateRevoked | 45 => CertificateExpired | 46 => CertificateUnknown
  | 47 => IllegalParameter | 48 => UnknownCa | 49 => AccessDenied | 50 => DecodeError
  | 51 => DecryptError | 60 => ExportRestriction | 70 => ProtocolVersionAlert
  | 71 => InsufficientSecurity | 80 => InternalError | 90 => UserCanceled
  | 100 => NoRenegotiation | 110 => UnsupportedExtension | 115 => UnknownPskIdentity
  | _ => DescriptionInvalid
  end.
Definition as_u8 (d : AlertDescription) : Z :=
  match d with
  | CloseNotify => 0 | UnexpectedMessage => 10 | BadRecordMac => 20 | DecryptionFailed => 21
  | RecordOverflow => 22 | DecompressionFailure => 30 | HandshakeFailure => 40
  | NoCertificate => 41 | BadCertificate => 42 | UnsupportedCertificate => 43
  | CertificateRevoked => 44 | CertificateExpired => 45 | CertificateUnknown => 46
  | IllegalParameter => 47 | UnknownCa => 48 | AccessDenied => 49 | DecodeError => 50
  | DecryptError => 51 | ExportRestriction => 60 | ProtocolVersionAlert => 70
  | InsufficientSecurity => 71 | InternalError => 80 | UserCanceled => 90
  | NoRenegotiation => 100 | UnsupportedExtension => 110 | UnknownPskIdentity => 115
  | DescriptionInvalid => 116
  end.
End AlertDescription.

Inductive HandshakeType :=
  | HtHelloRequest | HtClientHello | HtServerHello | HtHelloVerifyRequest | HtCertificate
  | HtServerKeyExchange | HtCertificateRequest | HtServerHelloDone | HtCertificateVerify
  | HtClientKeyExchange | HtFinished | HtInvalid.

#[export] Instance HandshakeType_eq_dec : EqDecision HandshakeType.
Proof. solve_decision. Defined.

Module HandshakeType.
Definition from (val : Z) : HandshakeType :=
  match val with
  | 0 => HtHelloRequest | 1 => HtClientHello | 2 => HtServerHello | 3 => HtHelloVerifyRequest
  | 11 => HtCertificate | 12 => HtServerKeyExchange | 13 => HtCertificateRequest
  | 14 => HtServerHelloDone | 15 => HtCertificateVerify | 16 => HtClientKeyExchange
  | 20 => HtFinished | _ => HtInvalid
  end.
Definition as_u8 (t : HandshakeType) : Z :=
  match t with
  | HtHelloRequest => 0 | HtClientHello => 1 | HtServerHello => 2 | HtHelloVerifyRequest => 3
  | HtCertificate => 11 | HtServerKeyExchange => 12 | HtCertificateRequest => 13
  | HtServerHelloDone => 14 | HtCertificateVerify => 15 | HtClientKeyExchange => 16
  | HtFinished => 20 | HtInvalid => 21
  end.
End HandshakeType.

Inductive CompressionMethodId := NullCompression | UnsupportedCompression.

#[export] Instance CompressionMethodId_eq_dec : EqDecision CompressionMethodId.
Proof. solve_decision. Defined.

Module CompressionMethodId.
Definition from (val : Z) : CompressionMethodId :=
  match val with 0 => NullCompression | _ => UnsupportedCompression end.
Definition as_u8 (c : CompressionMethodId) : Z :=
  match c with NullCompression => 0 | UnsupportedCompression => 1 end.
End CompressionMethodId.

Inductive ClientCertificateType := RsaSign | EcdsaSign | UnsupportedCertificateType.

#[export] Instance ClientCertificateType_eq_dec : EqDecision ClientCertificateType.
Proof. solve_decision. Defined.

Module ClientCertificateType.
Definition from (val : Z) : ClientCertificateType :=
  match val with 1 => RsaSign | 64 => EcdsaSign | _ => UnsupportedCertificateType end.
Definition as_u8 (c : ClientCertificateType) : Z :=
  match c with RsaSign => 1 | EcdsaSign => 64 | UnsupportedCertificateType => 65 end.
End ClientCertificateType.

Inductive EllipticCurveType := NamedCurveType | UnsupportedCurveType.

#[export] Instance EllipticCurveType_eq_dec : EqDecision EllipticCurveType.
Proof. solve_decision. Defined.

Module EllipticCurveType.
Definition from (val : Z) : EllipticCurveType :=
  match val with 3 => NamedCurveType | _ => UnsupportedCurveType end.
Definition as_u8 (c : EllipticCurveType) : Z :=
  match c with NamedCurveType => 3 | UnsupportedCurveType => 4 end.
End EllipticCurveType.

Inductive NamedCurve := UnsupportedCurve | P256 | P384 | X25519.

#[export] Instance NamedCurve_eq_dec : EqDecision NamedCurve.
Proof. solve_decision. Defined.

Module NamedCurve.
Definition from (val : Z) : NamedCurve :=
  match val with 0x17 => P256 | 0x18 => P384 | 0x1d => X25519 | _ => UnsupportedCurve end.
Definition as_u16 (c : NamedCurve) : Z :=
  match c with UnsupportedCurve => 0 | P256 => 0x17 | P384 => 0x18 | X25519 => 0x1d end.
End NamedCurve.

Inductive HashAlgorithm := Md2 | Md5 | Sha1 | Sha224 | Sha256 | Sha384 | Sha512 | Ed25519Hash | UnsupportedHash.

#[export] Instance HashAlgorithm_eq_dec : EqDecision HashAlgorithm.
Proof. solve_decision. Defined.

Module HashAlgorithm.
Definition from (val : Z) : HashAlgorithm :=
  match val with
  | 0 => Md2 | 1 => Md5 | 2 => Sha1 | 3 => Sha224 | 4 => Sha256 | 5 => Sha384 | 6 => Sha512
  | 8 => Ed25519Hash | _ => UnsupportedHash
  end.
Definition as_u8 (h : HashAlgorithm) : Z :=
  match h with
  | Md2 => 0 | Md5 => 1 | Sha1 => 2 | Sha224 => 3 | Sha256 => 4 | Sha384 => 5 | Sha512 => 6
  | Ed25519Hash => 8 | UnsupportedHash => 9
  end.
Definition insecure (h : HashAlgorithm) : bool :=
  match h with Md2 | Md5 | Sha1 => true | _ => false end.
Definition invalid (h : HashAlgorithm) : bool := match h with Md2 => true | _ => false end.
End HashAlgorithm.

Inductive SignatureAlgorithm := Rsa | Ecdsa | Ed25519 | UnsupportedSignature.

#[export] Instance SignatureAlgorithm_eq_dec : EqDecision SignatureAlgorithm.
Proof. solve_decision. Defined.

Module SignatureAlgorithm.
Definition from (val : Z) : SignatureAlgorithm :=
  match val with 1 => Rsa | 3 => Ecdsa | 7 => Ed25519 | _ => UnsupportedSignature end.
Definition as_u8 (s : SignatureAlgorithm) : Z :=
  match s with Rsa => 1 | Ecdsa => 3 | Ed25519 => 7 | UnsupportedSignature => 8 end.
End SignatureAlgorithm.

Record SignatureHashAlgorithm := mkSignatureHashAlgorithm {
  hash : HashAlgorithm;
  signature : SignatureAlgorithm }.

#[export] Instance SignatureHashAlgorithm_eq_dec : EqDecision SignatureHashAlgorithm.
Proof. solve_decision. Defined.

Inductive SrtpProtectionProfile :=
  | Srtp_Aes128_Cm_Hmac_Sha1_80 | Srtp_Aes128_Cm_Hmac_Sha1_32 | Srtp_Aead_Aes_128_Gcm
  | Srtp_Aead_Aes_256_Gcm | UnsupportedProfile.

#[export] Instance SrtpProtectionProfile_eq_dec : EqDecision SrtpProtectionProfile.
Proof. solve_decision. Defined.

Module SrtpProtectionProfile.
Definition from (val : Z) : SrtpProtectionProfile :=
  match val with
  | 1 => Srtp_Aes128_Cm_Hmac_Sha1_80 | 2 => Srtp_Aes128_Cm_Hmac_Sha1_32
  | 7 => Srtp_Aead_Aes_128_Gcm | 8 => Srtp_Aead_Aes_256_Gcm | _ => UnsupportedProfile
  end.
Definition as_u16 (p : SrtpProtectionProfile) : Z :=
  match p with
  | Srtp_Aes128_Cm_Hmac_Sha1_80 => 1 | Srtp_Aes128_Cm_Hmac_Sha1_32 => 2
  | Srtp_Aead_Aes_128_Gcm => 7 | Srtp_Aead_Aes_256_Gcm => 8 | UnsupportedProfile => 9
  end.
End SrtpProtectionProfile.

Inductive CipherSuiteId :=
  | Tls_Ecdhe_Ecdsa_With_Aes_128_Ccm | Tls_Ecdhe_Ecdsa_With_Aes_128_Ccm_8
  | Tls_Ecdhe_Ecdsa_With_Aes_128_Gcm_Sha256 | Tls_Ecdhe_Rsa_With_Aes_128_Gcm_Sha256
  | Tls_Ecdhe_Ecdsa_With_Aes_256_Cbc_Sha | Tls_Ecdhe_Rsa_With_Aes_256_Cbc_Sha
  | Tls_Psk_With_Aes_128_Ccm | Tls_Psk_With_Aes_128_Ccm_8 | Tls_Psk_With_Aes_128_Gcm_Sha256
  | Tls_Ecdhe_Rsa_With_ChaCha20_Poly1305_Sha256 | Tls_Ecdhe_Ecdsa_With_ChaCha20_Poly1305_Sha256
  | UnsupportedSuite.

#[export] Instance CipherSuiteId_eq_dec : EqDecision CipherSuiteId.
Proof. solve_decision. Defined.

Module CipherSuiteId.
Definition from (val : Z) : CipherSuiteId :=
  match val with
  | 0xc0ac => Tls_Ecdhe_Ecdsa_With_Aes_128_Ccm
  | 0xc0ae => Tls_Ecdhe_Ecdsa_With_Aes_128_Ccm_8
  | 0xc02b => Tls_Ecdhe_Ecdsa_With_Aes_128_Gcm_Sha256
  | 0xc02f => Tls_Ecdhe_Rsa_With_Aes_128_Gcm_Sha256
  | 0xc00a => Tls_Ecdhe_Ecdsa_With_Aes_256_Cbc_Sha
  | 0xc014 => Tls_Ecdhe_Rsa_With_Aes_256_Cbc_Sha
  | 0xc0a4 => Tls_Psk_With_Aes_128_Ccm
  | 0xc0a8 => Tls_Psk_With_Aes_128_Ccm_8
  | 0x00a8 => Tls_Psk_With_Aes_128_Gcm_Sha256
  | 0xcca8 => Tls_Ecdhe_Rsa_With_ChaCha20_Poly1305_Sha256
  | 0xcca9 => Tls_Ecdhe_Ecdsa_With_ChaCha20_Poly1305_Sha256
  | _ => UnsupportedSuite
  end.
Definition as_u16 (c : CipherSuiteId) : Z :=
  match c with
  | Tls_Ecdhe_Ecdsa_With_Aes_128_Ccm => 0xc0ac
  | Tls_Ecdhe_Ecdsa_With_Aes_128_Ccm_8 => 0xc0ae
  | Tls_Ecdhe_Ecdsa_With_Aes_128_Gcm_Sha256 => 0xc02b
  | Tls_Ecdhe_Rsa_With_Aes_128_Gcm_Sha256 => 0xc02f
  | Tls_Ecdhe_Ecdsa_With_Aes_256_Cbc_Sha => 0xc00a
  | Tls_Ecdhe_Rsa_With_Aes_256_Cbc_Sha => 0xc014
  | Tls_Psk_With_Aes_128_Ccm => 0xc0a4
  | Tls_Psk_With_Aes_128_Ccm_8 => 0xc0a8
  | Tls_Psk_With_Aes_128_Gcm_Sha256 => 0x00a8
  | Tls_Ecdhe_Rsa_With_ChaCha20_Poly1305_Sha256 => 0xcca8
  | Tls_Ecdhe_Ecdsa_With_ChaCha20_Poly1305_Sha256 => 0xcca9
  | UnsupportedSuite => 0xccaa
  end.
End CipherSuiteId.

Record ProtocolVersion := mkProtocolVersion { major : Z; minor : Z }.

#[export] Instance ProtocolVersion_eq_dec : EqDecision ProtocolVersion.
Proof. solve_decision. Defined.

Definition PROTOCOL_VERSION1_0 : ProtocolVersion := mkProtocolVersion 0xfe 0xff.
Definition PROTOCOL_VERSION1_2 : ProtocolVersion := mkProtocolVersion 0xfe 0xfd.

Definition write_version (v : ProtocolVersion) : bytes := write_u8 (major v) ++ write_u8 (minor v).
Definition read_version (r : bytes) : result (ProtocolVersion * bytes) :=
  '(major, r) ← read_u8 r;
  '(minor, r) ← read_u8 r;
  Ok (mkProtocolVersion major minor, r).

(** ** Extensions *)

Inductive ExtensionValue :=
  | EvServerName | EvSupportedEllipticCurves | EvSupportedPointFormats
  | EvSupportedSignatureAlgorithms | EvUseSrtp | EvUseExtendedMasterSecret
  | EvRenegotiationInfo | EvUnsupported.

Module ExtensionValue.
Definition from (val : Z) : ExtensionValue :=
  match val with
  | 0 => EvServerName | 10 => EvSupportedEllipticCurves | 11 => EvSupportedPointFormats
  | 13 => EvSupportedSignatureAlgorithms | 14 => EvUseSrtp | 23 => EvUseExtendedMasterSecret
  | 65281 => EvRenegotiationInfo | _ => EvUnsupported
  end.
Definition as_u16 (v : ExtensionValue) : Z :=
  match v with
  | EvServerName => 0 | EvSupportedEllipticCurves => 10 | EvSupportedPointFormats => 11
  | EvSupportedSignatureAlgorithms => 13 | EvUseSrtp => 14 | EvUseExtendedMasterSecret => 23
  | EvRenegotiationInfo => 65281 | EvUnsupported => 65282
  end.
End ExtensionValue.

(** The extensions with their fields; [supported] of the extended master secret is
    not sent. *)
Inductive Extension :=
  | ServerName (server_name : string)
  | SupportedEllipticCurves (elliptic_curves : list NamedCurve)
  | SupportedPointFormats (point_formats : list Z)
  | SupportedSignatureAlgorithms (signature_hash_algorithms : list SignatureHashAlgorithm)
  | UseSrtp (protection_profiles : list SrtpProtectionProfile)
  | UseExtendedMasterSecret (supported : bool)
  | RenegotiationInfo (renegotiated_connection : Z).

#[export] Instance Extension_eq_dec : EqDecision Extension.
Proof. solve_decision. Defined.

Definition write_algorithm (a : SignatureHashAlgorithm) : bytes :=
  write_u8 (HashAlgorithm.as_u8 (hash a)) ++ write_u8 (SignatureAlgorithm.as_u8 (signature a)).

Definition read_algorithm (r : bytes) : result (SignatureHashAlgorithm * bytes) :=
  '(hash, r) ← read_with HashAlgorithm.from read_u8 r;
  '(signature, r) ← read_with SignatureAlgorithm.from read_u8 r;
  Ok (mkSignatureHashAlgorithm hash signature, r).

Module ExtensionServerName.
Definition marshal (server_name : string) : result bytes :=
  let n := length (bytes_of_string server_name) in
  outer ← len_u16 (2 + 1 + 2) 1 n;
  inner ← len_u16 (1 + 2) 1 n;
  Ok (write_u16 outer ++ write_u16 inner ++ write_u8 0 ++ write_u16 (Z.of_nat n) ++ bytes_of_string server_name).

Definition unmarshal (r : bytes) : result (Extension * bytes) :=
  '(_, r) ← read_u16 r;
  '(_, r) ← read_u16 r;
  '(name_type, r) ← read_u8 r;
  if negb (name_type =? 0) then Err ErrInvalidSniFormat
  else
    '(buf_len, r) ← read_u16 r;
    '(buf, r) ← read_exact (Z.to_nat buf_len) r;
    if is_utf8 buf then Ok (ServerName (string_of_bytes buf), r) else Err ErrUtf8.
End ExtensionServerName.

Module ExtensionSupportedEllipticCurves.
Definition marshal (elliptic_curves : list NamedCurve) : result bytes :=
  outer ← len_u16 2 2 (length elliptic_curves);
  inner ← len_u16 0 2 (length elliptic_curves);
  Ok (write_u16 outer ++ write_u16 inner
        ++ concat (map (fun v => write_u16 (NamedCurve.as_u16 v)) elliptic_curves)).

Definition unmarshal (r : bytes) : result (Extension * bytes) :=
  '(_, r) ← read_u16 r;
  '(n, r) ← read_u16 r;
  '(elliptic_curves, r) ← read_many (Z.to_nat (n / 2)) (read_with NamedCurve.from read_u16) r;
  Ok (SupportedEllipticCurves elliptic_curves, r).
End ExtensionSupportedEllipticCurves.

Module ExtensionSupportedPointFormats.
Definition marshal (point_formats : list Z) : result bytes :=
  outer ← len_u16 1 1 (length point_formats);
  Ok (write_u16 outer ++ write_u8 (Z.of_nat (length point_formats)) ++ concat (map write_u8 point_formats)).

Definition unmarshal (r : bytes) : result (Extension * bytes) :=
  '(_, r) ← read_u16 r;
  '(n, r) ← read_u8 r;
  '(point_formats, r) ← read_many (Z.to_nat n) read_u8 r;
  Ok (SupportedPointFormats point_formats, r).
End ExtensionSupportedPointFormats.

Module ExtensionSupportedSignatureAlgorithms.
Definition marshal (algorithms : list SignatureHashAlgorithm) : result bytes :=
  outer ← len_u16 2 2 (length algorithms);
  inner ← len_u16 0 2 (length algorithms);
  Ok (write_u16 outer ++ write_u16 inner ++ concat (map write_algorithm algorithms)).

Definition unmarshal (r : bytes) : result (Extension * bytes) :=
  '(_, r) ← read_u16 r;
  '(n, r) ← read_u16 r;
  '(algorithms, r) ← read_many (Z.to_nat (n / 2)) read_algorithm r;
  Ok (SupportedSignatureAlgorithms algorithms, r).
End ExtensionSupportedSignatureAlgorithms.

Module ExtensionUseSrtp.
Definition marshal (protection_profiles : list SrtpProtectionProfile) : result bytes :=
  outer ← len_u16 (2 + 1) 2 (length protection_profiles);
  inner ← len_u16 0 2 (length protection_profiles);
  Ok (write_u16 outer ++ write_u16 inner
        ++ concat (map (fun v => write_u16 (SrtpProtectionProfile.as_u16 v)) protection_profiles)
        ++ write_u8 0).

Definition unmarshal (r : bytes) : result (Extension * bytes) :=
  '(_, r) ← read_u16 r;
  '(n, r) ← read_u16 r;
  '(protection_profiles, r) ← read_many (Z.to_nat (n / 2)) (read_with SrtpProtectionProfile.from read_u16) r;
  '(_, r) ← read_u8 r;
  Ok (UseSrtp protection_profiles, r).
End ExtensionUseSrtp.

Module ExtensionUseExtendedMasterSecret.
Definition marshal : result bytes := Ok (write_u16 0).
Definition unmarshal (r : bytes) : result (Extension * bytes) :=
  '(_, r) ← read_u16 r;
  Ok (UseExtendedMasterSecret true, r).
End ExtensionUseExtendedMasterSecret.

Module ExtensionRenegotiationInfo.
Definition marshal (renegotiated_connection : Z) : result bytes :=
  Ok (write_u16 1 ++ write_u8 renegotiated_connection).
Definition unmarshal (r : bytes) : result (Extension * bytes) :=
  '(l, r) ← read_u16 r;
  if negb (l =? 1) then Err ErrInvalidPacketLength
  else
    '(renegotiated_connection, r) ← read_u8 r;
    Ok (RenegotiationInfo renegotiated_connection, r).
End ExtensionRenegotiationInfo.

Module Extension.
Definition extension_value (e : Extension) : ExtensionValue :=
  match e with
  | ServerName _ => EvServerName
  | SupportedEllipticCurves _ => EvSupportedEllipticCurves
  | SupportedPointFormats _ => EvSupportedPointFormats
  | SupportedSignatureAlgorithms _ => EvSupportedSignatureAlgorithms
  | UseSrtp _ => EvUseSrtp
  | UseExtendedMasterSecret _ => EvUseExtendedMasterSecret
  | RenegotiationInfo _ => EvRenegotiationInfo
  end.

Definition size (e : Extension) : nat :=
  (2 + match e with
       | ServerName n => 2 + 2 + 1 + 2 + length (bytes_of_string n)
       | SupportedEllipticCurves l => 2 + 2 + length l * 2
       | SupportedPointFormats l => 2 + 1 + length l
       | SupportedSignatureAlgorithms l => 2 + 2 + length l * 2
       | UseSrtp l => 2 + 2 + length l * 2 + 1
       | UseExtendedMasterSecret _ => 2
       | RenegotiationInfo _ => 3
       end)%nat.

Definition marshal (e : Extension) : result bytes :=
  body ← match e with
         | ServerName n => ExtensionServerName.marshal n
         | SupportedEllipticCurves l => ExtensionSupportedEllipticCurves.marshal l
         | SupportedPointFormats l => ExtensionSupportedPointFormats.marshal l
         | SupportedSignatureAlgorithms l => ExtensionSupportedSignatureAlgorithms.marshal l
         | UseSrtp l => ExtensionUseSrtp.marshal l
         | UseExtendedMasterSecret _ => ExtensionUseExtendedMasterSecret.marshal
         | RenegotiationInfo c => ExtensionRenegotiationInfo.marshal c
         end;
  Ok (write_u16 (ExtensionValue.as_u16 (extension_value e)) ++ body).

Definition unmarshal (r : bytes) : result (Extension * bytes) :=
  '(v, r) ← read_u16 r;
  match ExtensionValue.from v with
  | EvServerName => ExtensionServerName.unmarshal r
  | EvSupportedEllipticCurves => ExtensionSupportedEllipticCurves.unmarshal r
  | EvSupportedPointFormats => ExtensionSupportedPointFormats.unmarshal r
  | EvSupportedSignatureAlgorithms => ExtensionSupportedSignatureAlgorithms.unmarshal r
  | EvUseSrtp => ExtensionUseSrtp.unmarshal r
  | EvUseExtendedMasterSecret => ExtensionUseExtendedMasterSecret.unmarshal r
  | EvRenegotiationInfo => ExtensionRenegotiationInfo.unmarshal r
  | EvUnsupported => Err ErrInvalidExtensionType
  end.

(** [for extension in &self.extensions { extension.marshal(..)? }] *)
Fixpoint marshal_all (l : list Extension) : result bytes :=
  match l with
  | [] => Ok []
  | e :: l => b ← marshal e; rest ← marshal_all l; Ok (b ++ rest)
  end.

(** [while offset < extension_buffer_len { .. }]: the extensions that can be read; the
    numbers of the others are logged. *)
Fixpoint unmarshal_all (fuel : nat) (buf : bytes) (offset : nat) : result (list Extension) :=
  if (offset <? length buf)%nat then
    match fuel with
    | O => NoFuel
    | S fuel =>
        extension_reader ← bslice_from buf offset;
        found ← match unmarshal extension_reader with
                | Ok (e, _) => Ok [e]
                | Err _ => _ ← bindex buf offset; _ ← bindex buf (offset + 1); Ok []
                | Panics why => Panics why
                | NoFuel => NoFuel
                end;
        hi ← bindex buf (offset + 2);
        lo ← bindex buf (offset + 3);
        rest ← unmarshal_all fuel buf (offset + (4 + Z.to_nat (from_be_bytes [hi; lo])));
        Ok (found ++ rest)
    end
  else Ok [].
End Extension.

(** ** Handshake messages *)

(** [gmt_unix_time]: the system time, in nanoseconds since the epoch. *)
Record HandshakeRandom := mkHandshakeRandom { gmt_unix_time : Z; random_bytes : bytes }.

#[export] Instance HandshakeRandom_eq_dec : EqDecision HandshakeRandom.
Proof. solve_decision. Defined.

Definition RANDOM_BYTES_LENGTH : nat := 28.

Module HandshakeRandom.
Definition size : nat := 4 + RANDOM_BYTES_LENGTH.

Definition marshal (h : HandshakeRandom) : bytes :=
  let secs := if gmt_unix_time h <? 0 then 0 else gmt_unix_time h / 1000000000 in
  write_u32 secs ++ random_bytes h.

Definition unmarshal (r : bytes) : result (HandshakeRandom * bytes) :=
  '(secs, r) ← read_u32 r;
  '(random_bytes, r) ← read_exact RANDOM_BYTES_LENGTH r;
  Ok (mkHandshakeRandom (secs * 1000000000) random_bytes, r).
End HandshakeRandom.

Module CompressionMethods.
Definition size (ids : list CompressionMethodId) : nat := 1 + length ids.

Definition marshal (ids : list CompressionMethodId) : bytes :=
  write_u8 (Z.of_nat (length ids)) ++ concat (map (fun id => write_u8 (CompressionMethodId.as_u8 id)) ids).

Definition unmarshal (r : bytes) : result (list CompressionMethodId * bytes) :=
  '(n, r) ← read_u8 r;
  '(ids, r) ← read_many (Z.to_nat n) (read_with CompressionMethodId.from read_u8) r;
  Ok (filter (fun id => id <> UnsupportedCompression) ids, r).
End CompressionMethods.

Record HandshakeMessageClientHello := mkClientHello {
  ch_version : ProtocolVersion;
  ch_random : HandshakeRandom;
  ch_cookie : bytes;
  ch_cipher_suites : list CipherSuiteId;
  ch_compression_methods : list CompressionMethodId;
  ch_extensions : list Extension }.

Module HandshakeMessageClientHello.
Definition size (m : HandshakeMessageClientHello) : nat :=
  (2 + HandshakeRandom.size + 1 + (1 + length (ch_cookie m)) + (2 + 2 * length (ch_cipher_suites m))
   + CompressionMethods.size (ch_compression_methods m) + 2
   + sum_list (map Extension.size (ch_extensions m)))%nat.

Definition marshal (m : HandshakeMessageClientHello) : result bytes :=
  if (255 <? length (ch_cookie m))%nat then Err ErrCookieTooLong
  else
    suites_len ← len_u16 0 2 (length (ch_cipher_suites m));
    extension_buffer ← Extension.marshal_all (ch_extensions m);
    Ok (write_version (ch_version m) ++ HandshakeRandom.marshal (ch_random m) ++ write_u8 0
          ++ write_u8 (Z.of_nat (length (ch_cookie m))) ++ ch_cookie m
          ++ write_u16 suites_len
          ++ concat (map (fun c => write_u16 (CipherSuiteId.as_u16 c)) (ch_cipher_suites m))
          ++ CompressionMethods.marshal (ch_compression_methods m)
          ++ write_u16 (Z.of_nat (length extension_buffer)) ++ extension_buffer).

Definition unmarshal (r : bytes) : result (HandshakeMessageClientHello * bytes) :=
  '(version, r) ← read_version r;
  '(random, r) ← HandshakeRandom.unmarshal r;
  '(_, r) ← read_u8 r;
  '(cookie_len, r) ← read_u8 r;
  '(cookie, r) ← read_exact (Z.to_nat cookie_len) r;
  '(n, r) ← read_u16 r;
  '(cipher_suites, r) ← read_many (Z.to_nat (n / 2)) (read_with CipherSuiteId.from read_u16) r;
  '(compression_methods, r) ← CompressionMethods.unmarshal r;
  '(n, r) ← read_u16 r;
  '(extension_buffer, r) ← read_exact (Z.to_nat n) r;
  extensions ← Extension.unmarshal_all (length extension_buffer) extension_buffer 0;
  Ok (mkClientHello version random cookie cipher_suites compression_methods extensions, r).
End HandshakeMessageClientHello.

Record HandshakeMessageServerHello := mkServerHello {
  sh_version : ProtocolVersion;
  sh_random : HandshakeRandom;
  sh_cipher_suite : CipherSuiteId;
  sh_compression_method : CompressionMethodId;
  sh_extensions : list Extension }.

Module HandshakeMessageServerHello.
Definition size (m : HandshakeMessageServerHello) : nat :=
  (2 + HandshakeRandom.size + 1 + 2 + 1 + 2 + sum_list (map Extension.size (sh_extensions m)))%nat.

Definition marshal (m : HandshakeMessageServerHello) : result bytes :=
  extension_buffer ← Extension.marshal_all (sh_extensions m);
  Ok (write_version (sh_version m) ++ HandshakeRandom.marshal (sh_random m) ++ write_u8 0
        ++ write_u16 (CipherSuiteId.as_u16 (sh_cipher_suite m))
        ++ write_u8 (CompressionMethodId.as_u8 (sh_compression_method m))
        ++ write_u16 (Z.of_nat (length extension_buffer)) ++ extension_buffer).

Definition unmarshal (r : bytes) : result (HandshakeMessageServerHello * bytes) :=
  '(version, r) ← read_version r;
  '(random, r) ← HandshakeRandom.unmarshal r;
  '(session_id_len, r) ← read_u8 r;
  '(_, r) ← read_exact (Z.to_nat session_id_len) r;
  '(cipher_suite, r) ← read_with CipherSuiteId.from read_u16 r;
  '(compression_method, r) ← read_with CompressionMethodId.from read_u8 r;
  '(n, r) ← read_u16 r;
  '(extension_buffer, r) ← read_exact (Z.to_nat n) r;
  extensions ← Extension.unmarshal_all (length extension_buffer) extension_buffer 0;
  Ok (mkServerHello version random cipher_suite compression_method extensions, r).
End HandshakeMessageServerHello.

Record HandshakeMessageHelloVerifyRequest := mkHelloVerifyRequest {
  hvr_version : ProtocolVersion;
  hvr_cookie : bytes }.

Module HandshakeMessageHelloVerifyRequest.
Definition size (m : HandshakeMessageHelloVerifyRequest) : nat := 1 + 1 + 1 + length (hvr_cookie m).

Definition marshal (m : HandshakeMessageHelloVerifyRequest) : result bytes :=
  if (255 <? length (hvr_cookie m))%nat then Err ErrCookieTooLong
  else Ok (write_version (hvr_version m) ++ write_u8 (Z.of_nat (length (hvr_cookie m))) ++ hvr_cookie m).

Definition unmarshal (r : bytes) : result (HandshakeMessageHelloVerifyRequest * bytes) :=
  '(version, r) ← read_version r;
  '(cookie_length, cookie) ← read_u8 r;
  if (length cookie <? Z.to_nat cookie_length)%nat then Err ErrBufferTooSmall
  else Ok (mkHelloVerifyRequest version cookie, []).
End HandshakeMessageHelloVerifyRequest.

Definition CERTIFICATE_LENGTH_FIELD_SIZE : nat := 3.

Module HandshakeMessageCertificate.
Definition payload_size (certificate : list bytes) : nat :=
  sum_list (map (fun r => CERTIFICATE_LENGTH_FIELD_SIZE + length r)%nat certificate).
Definition size (certificate : list bytes) : nat := 3 + payload_size certificate.

Fixpoint marshal_all (certificate : list bytes) : result bytes :=
  match certificate with
  | [] => Ok []
  | c :: cs => n ← write_u24 (as_u 32 (Z.of_nat (length c))); rest ← marshal_all cs; Ok (n ++ c ++ rest)
  end.

(** [payload_size as u32] *)
Definition marshal (certificate : list bytes) : result bytes :=
  n ← write_u24 (as_u 32 (Z.of_nat (payload_size certificate)));
  rest ← marshal_all certificate;
  Ok (n ++ rest).

Fixpoint unmarshal_all (fuel : nat) (payload_size offset : nat) (r : bytes) : result (list bytes * bytes) :=
  if (offset <? payload_size)%nat then
    match fuel with
    | O => NoFuel
    | S fuel =>
        '(certificate_len, r) ← read_u24 r;
        let offset := (offset + CERTIFICATE_LENGTH_FIELD_SIZE)%nat in
        '(buf, r) ← read_exact (Z.to_nat certificate_len) r;
        '(rest, r) ← unmarshal_all fuel payload_size (offset + Z.to_nat certificate_len) r;
        Ok (buf :: rest, r)
    end
  else Ok ([], r).

Definition unmarshal (r : bytes) : result (list bytes * bytes) :=
  '(payload_size, r) ← read_u24 r;
  unmarshal_all (S (length r)) (Z.to_nat payload_size) 0 r.
End HandshakeMessageCertificate.

Record HandshakeMessageServerKeyExchange := mkServerKeyExchange {
  ske_identity_hint : bytes;
  ske_elliptic_curve_type : EllipticCurveType;
  ske_named_curve : NamedCurve;
  ske_public_key : bytes;
  ske_algorithm : SignatureHashAlgorithm;
  ske_signature : bytes }.

Definition is_empty {A} (l : list A) : bool := match l with [] => true | _ => false end.

(** [((data[0] as u16) << 8) | data[1] as u16] at an offset. *)
Definition u16_at (data : bytes) (i : nat) : result Z :=
  hi ← bindex data i;
  lo ← bindex data (i + 1);
  Ok (from_be_bytes [hi; lo]).

Module HandshakeMessageServerKeyExchange.
Definition size (m : HandshakeMessageServerKeyExchange) : nat :=
  if negb (is_empty (ske_identity_hint m)) then (2 + length (ske_identity_hint m))%nat
  else (1 + 2 + 1 + length (ske_public_key m) + 2 + 2 + length (ske_signature m))%nat.

Definition marshal (m : HandshakeMessageServerKeyExchange) : result bytes :=
  if negb (is_empty (ske_identity_hint m)) then
    Ok (write_u16 (Z.of_nat (length (ske_identity_hint m))) ++ ske_identity_hint m)
  else
    Ok (write_u8 (EllipticCurveType.as_u8 (ske_elliptic_curve_type m))
          ++ write_u16 (NamedCurve.as_u16 (ske_named_curve m))
          ++ write_u8 (Z.of_nat (length (ske_public_key m))) ++ ske_public_key m
          ++ write_algorithm (ske_algorithm m)
          ++ write_u16 (Z.of_nat (length (ske_signature m))) ++ ske_signature m).

Definition unmarshal (data : bytes) : result (HandshakeMessageServerKeyExchange * bytes) :=
  psk_length ← u16_at data 0;
  if (length data =? Z.to_nat psk_length + 2)%nat then
    hint ← bslice_from data 2;
    Ok (mkServerKeyExchange hint UnsupportedCurveType UnsupportedCurve []
          (mkSignatureHashAlgorithm UnsupportedHash UnsupportedSignature) [], [])
  else
    t ← bindex data 0;
    tail ← bslice_from data 1;
    if (length tail <? 2)%nat then Err ErrBufferTooSmall
    else
      curve ← u16_at data 1;
      if (length data <? 4)%nat then Err ErrBufferTooSmall
      else
        public_key_length ← bindex data 3;
        let offset := (4 + Z.to_nat public_key_length)%nat in
        if (length data <? offset)%nat then Err ErrBufferTooSmall
        else
          public_key ← bslice data 4 offset;
          if (length data <=? offset)%nat then Err ErrBufferTooSmall
          else
            hash_algorithm ← bindex data offset;
            let offset := S offset in
            if (length data <=? offset)%nat then Err ErrBufferTooSmall
            else
              signature_algorithm ← bindex data offset;
              let offset := S offset in
              if (length data <? offset + 2)%nat then Err ErrBufferTooSmall
              else
                signature_length ← u16_at data offset;
                let offset := (offset + 2)%nat in
                if (length data <? offset + Z.to_nat signature_length)%nat then Err ErrBufferTooSmall
                else
                  signature ← bslice data offset (offset + Z.to_nat signature_length);
                  Ok (mkServerKeyExchange [] (EllipticCurveType.from t) (NamedCurve.from curve) public_key
                        (mkSignatureHashAlgorithm (HashAlgorithm.from hash_algorithm)
                           (SignatureAlgorithm.from signature_algorithm))
                        signature, []).
End HandshakeMessageServerKeyExchange.

Record HandshakeMessageCertificateRequest := mkCertificateRequest {
  cr_certificate_types : list ClientCertificateType;
  cr_signature_hash_algorithms : list SignatureHashAlgorithm }.

Module HandshakeMessageCertificateRequest.
Definition size (m : HandshakeMessageCertificateRequest) : nat :=
  (1 + length (cr_certificate_types m) + 2 + length (cr_signature_hash_algorithms m) * 2 + 2)%nat.

Definition marshal (m : HandshakeMessageCertificateRequest) : result bytes :=
  n ← len_u16 0 2 (length (cr_signature_hash_algorithms m));
  Ok (write_u8 (Z.of_nat (length (cr_certificate_types m)))
        ++ concat (map (fun v => write_u8 (ClientCertificateType.as_u8 v)) (cr_certificate_types m))
        ++ write_u16 n ++ concat (map write_algorithm (cr_signature_hash_algorithms m)) ++ [0; 0]).

(** [(0..n).step_by(2)] has half as many steps as [n], rounded up. *)
Definition unmarshal (r : bytes) : result (HandshakeMessageCertificateRequest * bytes) :=
  '(n, r) ← read_u8 r;
  '(certificate_types, r) ← read_many (Z.to_nat n) (read_with ClientCertificateType.from read_u8) r;
  '(n, r) ← read_u16 r;
  '(algorithms, r) ← read_many (Z.to_nat ((n + 1) / 2)) read_algorithm r;
  Ok (mkCertificateRequest certificate_types algorithms, r).
End HandshakeMessageCertificateRequest.

Record HandshakeMessageCertificateVerify := mkCertificateVerify {
  cv_algorithm : SignatureHashAlgorithm;
  cv_signature : bytes }.

Module HandshakeMessageCertificateVerify.
Definition size (m : HandshakeMessageCertificateVerify) : nat := 1 + 1 + 2 + length (cv_signature m).

Definition marshal (m : HandshakeMessageCertificateVerify) : result bytes :=
  Ok (write_algorithm (cv_algorithm m) ++ write_u16 (Z.of_nat (length (cv_signature m))) ++ cv_signature m).

Definition unmarshal (r : bytes) : result (HandshakeMessageCertificateVerify * bytes) :=
  '(algorithm, r) ← read_algorithm r;
  '(signature_length, r) ← read_u16 r;
  '(signature, r) ← read_exact (Z.to_nat signature_length) r;
  Ok (mkCertificateVerify algorithm signature, r).
End HandshakeMessageCertificateVerify.

Record HandshakeMessageClientKeyExchange := mkClientKeyExchange {
  cke_identity_hint : bytes;
  cke_public_key : bytes }.

Module HandshakeMessageClientKeyExchange.
Definition size (m : HandshakeMessageClientKeyExchange) : nat :=
  if negb (is_empty (cke_public_key m)) then (1 + length (cke_public_key m))%nat
  else (2 + length (cke_identity_hint m))%nat.

Definition marshal (m : HandshakeMessageClientKeyExchange) : result bytes :=
  if (negb (is_empty (cke_identity_hint m)) && negb (is_empty (cke_public_key m)))
     || (is_empty (cke_identity_hint m) && is_empty (cke_public_key m))
  then Err ErrInvalidClientKeyExchange
  else if negb (is_empty (cke_public_key m)) then
    Ok (write_u8 (Z.of_nat (length (cke_public_key m))) ++ cke_public_key m)
  else Ok (write_u16 (Z.of_nat (length (cke_identity_hint m))) ++ cke_identity_hint m).

Definition unmarshal (data : bytes) : result (HandshakeMessageClientKeyExchange * bytes) :=
  psk_length ← u16_at data 0;
  if (length data =? Z.to_nat psk_length + 2)%nat then
    hint ← bslice_from data 2;
    Ok (mkClientKeyExchange hint [], [])
  else
    public_key_length ← bindex data 0;
    if negb (length data =? Z.to_nat public_key_length + 1)%nat then Err ErrBufferTooSmall
    else
      public_key ← bslice_from data 1;
      Ok (mkClientKeyExchange [] public_key, []).
End HandshakeMessageClientKeyExchange.

Inductive HandshakeMessage :=
  | ClientHello (m : HandshakeMessageClientHello)
  | ServerHello (m : HandshakeMessageServerHello)
  | HelloVerifyRequest (m : HandshakeMessageHelloVerifyRequest)
  | Certificate (certificate : list bytes)
  | ServerKeyExchange (m : HandshakeMessageServerKeyExchange)
  | CertificateRequest (m : HandshakeMessageCertificateRequest)
  | ServerHelloDone
  | CertificateVerify (m : HandshakeMessageCertificateVerify)
  | ClientKeyExchange (m : HandshakeMessageClientKeyExchange)
  | Finished (verify_data : bytes).

Module HandshakeMessage.
Definition handshake_type (m : HandshakeMessage) : HandshakeType :=
  match m with
  | ClientHello _ => HtClientHello
  | ServerHello _ => HtServerHello
  | HelloVerifyRequest _ => HtHelloVerifyRequest
  | Certificate _ => HtCertificate
  | ServerKeyExchange _ => HtServerKeyExchange
  | CertificateRequest _ => HtCertificateRequest
  | ServerHelloDone => HtServerHelloDone
  | CertificateVerify _ => HtCertificateVerify
  | ClientKeyExchange _ => HtClientKeyExchange
  | Finished _ => HtFinished
  end.

Definition size (m : HandshakeMessage) : nat :=
  match m with
  | ClientHello m => HandshakeMessageClientHello.size m
  | ServerHello m => HandshakeMessageServerHello.size m
  | HelloVerifyRequest m => HandshakeMessageHelloVerifyRequest.size m
  | Certificate c => HandshakeMessageCertificate.size c
  | ServerKeyExchange m => HandshakeMessageServerKeyExchange.size m
  | CertificateRequest m => HandshakeMessageCertificateRequest.size m
  | ServerHelloDone => 0
  | CertificateVerify m => HandshakeMessageCertificateVerify.size m
  | ClientKeyExchange m => HandshakeMessageClientKeyExchange.size m
  | Finished v => length v
  end.

Definition marshal (m : HandshakeMessage) : result bytes :=
  match m with
  | ClientHello m => HandshakeMessageClientHello.marshal m
  | ServerHello m => HandshakeMessageServerHello.marshal m
  | HelloVerifyRequest m => HandshakeMessageHelloVerifyRequest.marshal m
  | Certificate c => HandshakeMessageCertificate.marshal c
  | ServerKeyExchange m => HandshakeMessageServerKeyExchange.marshal m
  | CertificateRequest m => HandshakeMessageCertificateRequest.marshal m
  | ServerHelloDone => Ok []
  | CertificateVerify m => HandshakeMessageCertificateVerify.marshal m
  | ClientKeyExchange m => HandshakeMessageClientKeyExchange.marshal m
  | Finished v => Ok v
  end.
End HandshakeMessage.

(** [message.unmarshal(reader)?], by the type of the header. *)
Definition unmarshal_message (t : HandshakeType) (r : bytes) : result (HandshakeMessage * bytes) :=
  match t with
  | HtClientHello => '(m, r) ← HandshakeMessageClientHello.unmarshal r; Ok (ClientHello m, r)
  | HtServerHello => '(m, r) ← HandshakeMessageServerHello.unmarshal r; Ok (ServerHello m, r)
  | HtHelloVerifyRequest =>
      '(m, r) ← HandshakeMessageHelloVerifyRequest.unmarshal r; Ok (HelloVerifyRequest m, r)
  | HtCertificate => '(m, r) ← HandshakeMessageCertificate.unmarshal r; Ok (Certificate m, r)
  | HtServerKeyExchange =>
      '(m, r) ← HandshakeMessageServerKeyExchange.unmarshal r; Ok (ServerKeyExchange m, r)
  | HtCertificateRequest =>
      '(m, r) ← HandshakeMessageCertificateRequest.unmarshal r; Ok (CertificateRequest m, r)
  | HtServerHelloDone => Ok (ServerHelloDone, r)
  | HtCertificateVerify =>
      '(m, r) ← HandshakeMessageCertificateVerify.unmarshal r; Ok (CertificateVerify m, r)
  | HtClientKeyExchange =>
      '(m, r) ← HandshakeMessageClientKeyExchange.unmarshal r; Ok (ClientKeyExchange m, r)
  | HtFinished => Ok (Finished r, [])
  | HtHelloRequest | HtInvalid => Err ErrNotImplemented
  end.

Record HandshakeHeader := mkHandshakeHeader {
  hh_type : HandshakeType;
  hh_length : Z;
  hh_message_sequence : Z;
  hh_fragment_offset : Z;
  hh_fragment_length : Z }.

#[export] Instance HandshakeHeader_eq_dec : EqDecision HandshakeHeader.
Proof. solve_decision. Defined.

Definition HANDSHAKE_HEADER_LENGTH : nat := 12.

Module HandshakeHeader.
Definition size : nat := 1 + 3 + 2 + 3 + 3.

Definition marshal (h : HandshakeHeader) : result bytes :=
  len ← write_u24 (hh_length h);
  offset ← write_u24 (hh_fragment_offset h);
  flen ← write_u24 (hh_fragment_length h);
  Ok (write_u8 (HandshakeType.as_u8 (hh_type h)) ++ len ++ write_u16 (hh_message_sequence h) ++ offset ++ flen).

Definition unmarshal (r : bytes) : result (HandshakeHeader * bytes) :=
  '(handshake_type, r) ← read_with HandshakeType.from read_u8 r;
  '(length, r) ← read_u24 r;
  '(message_sequence, r) ← read_u16 r;
  '(fragment_offset, r) ← read_u24 r;
  '(fragment_length, r) ← read_u24 r;
  Ok (mkHandshakeHeader handshake_type length message_sequence fragment_offset fragment_length, r).
End HandshakeHeader.

Record Handshake := mkHandshake {
  handshake_header : HandshakeHeader;
  handshake_message : HandshakeMessage }.

Module Handshake.
Definition new (m : HandshakeMessage) : Handshake :=
  let n := as_u 32 (Z.of_nat (HandshakeMessage.size m)) in
  mkHandshake (mkHandshakeHeader (HandshakeMessage.handshake_type m) n 0 0 n) m.

Definition size (h : Handshake) : nat := HandshakeHeader.size + HandshakeMessage.size (handshake_message h).

Definition marshal (h : Handshake) : result bytes :=
  header ← HandshakeHeader.marshal (handshake_header h);
  message ← HandshakeMessage.marshal (handshake_message h);
  Ok (header ++ message).

Definition unmarshal (r : bytes) : result (Handshake * bytes) :=
  '(header, r) ← HandshakeHeader.unmarshal r;
  '(message, r) ← unmarshal_message (hh_type header) r;
  Ok (mkHandshake header message, r).
End Handshake.

(** ** Records *)

Record Alert := mkAlert { alert_level : AlertLevel; alert_description : AlertDescription }.

#[export] Instance Alert_eq_dec : EqDecision Alert.
Proof. solve_decision. Defined.

Module Alert.
Definition marshal (a : Alert) : bytes :=
  write_u8 (AlertLevel.as_u8 (alert_level a)) ++ write_u8 (AlertDescription.as_u8 (alert_description a)).

Definition unmarshal (r : bytes) : result (Alert * bytes) :=
  '(level, r) ← read_with AlertLevel.from read_u8 r;
  '(description, r) ← read_with AlertDescription.from read_u8 r;
  Ok (mkAlert level description, r).
End Alert.

Module ChangeCipherSpec.
Definition unmarshal (r : bytes) : result (unit * bytes) :=
  '(data, r) ← read_u8 r;
  if negb (data =? 1) then Err ErrInvalidCipherSpec else Ok (tt, r).
End ChangeCipherSpec.

Inductive Content :=
  | ContentChangeCipherSpec
  | ContentAlert (a : Alert)
  | ContentHandshake (h : Handshake)
  | ContentApplicationData (data : bytes).

Module Content.
Definition content_type (c : Content) : ContentType :=
  match c with
  | ContentChangeCipherSpec => CtChangeCipherSpec
  | ContentAlert _ => CtAlert
  | ContentHandshake _ => CtHandshake
  | ContentApplicationData _ => CtApplicationData
  end.

Definition size (c : Content) : nat :=
  match c with
  | ContentChangeCipherSpec => 1
  | ContentAlert _ => 2
  | ContentHandshake h => Handshake.size h
  | ContentApplicationData data => length data
  end.

Definition marshal (c : Content) : result bytes :=
  match c with
  | ContentChangeCipherSpec => Ok (write_u8 1)
  | ContentAlert a => Ok (Alert.marshal a)
  | ContentHandshake h => Handshake.marshal h
  | ContentApplicationData data => Ok data
  end.

Definition unmarshal (content_type : ContentType) (r : bytes) : result Content :=
  match content_type with
  | CtChangeCipherSpec => _ ← ChangeCipherSpec.unmarshal r; Ok ContentChangeCipherSpec
  | CtAlert => '(a, _) ← Alert.unmarshal r; Ok (ContentAlert a)
  | CtHandshake => '(h, _) ← Handshake.unmarshal r; Ok (ContentHandshake h)
  | CtApplicationData => Ok (ContentApplicationData r)
  | CtInvalid => Err ErrInvalidContentType
  end.
End Content.

Record RecordLayerHeader := mkRecordLayerHeader {
  content_type : ContentType;
  protocol_version : ProtocolVersion;
  epoch : Z;
  sequence_number : Z;
  content_len : Z }.

#[export] Instance RecordLayerHeader_eq_dec : EqDecision RecordLayerHeader.
Proof. solve_decision. Defined.

Definition RECORD_LAYER_HEADER_SIZE : nat := 13.
Definition MAX_SEQUENCE_NUMBER : Z := 0x0000FFFFFFFFFFFF.

Module RecordLayerHeader.
(** [to_be_bytes] of the 64-bit number without its first two bytes. *)
Definition marshal (h : RecordLayerHeader) : result bytes :=
  if MAX_SEQUENCE_NUMBER <? sequence_number h then Err ErrSequenceNumberOverflow
  else
    Ok (write_u8 (ContentType.as_u8 (content_type h)) ++ write_version (protocol_version h)
          ++ write_u16 (epoch h) ++ drop 2 (to_be_bytes 8 (sequence_number h)) ++ write_u16 (content_len h)).

Definition unmarshal (r : bytes) : result (RecordLayerHeader * bytes) :=
  '(content_type, r) ← read_with ContentType.from read_u8 r;
  '(version, r) ← read_version r;
  '(epoch, r) ← read_u16 r;
  '(be, r) ← read_exact 6 r;
  let sequence_number := from_be_bytes ([0; 0] ++ be) in
  if negb (bool_decide (version = PROTOCOL_VERSION1_0)) && negb (bool_decide (version = PROTOCOL_VERSION1_2))
  then Err ErrUnsupportedProtocolVersion
  else
    '(content_len, r) ← read_u16 r;
    Ok (mkRecordLayerHeader content_type version epoch sequence_number content_len, r).
End RecordLayerHeader.

Record RecordLayer := mkRecordLayer {
  record_layer_header : RecordLayerHeader;
  content : Content }.

Module RecordLayer.
Definition new (protocol_version : ProtocolVersion) (epoch : Z) (content : Content) : RecordLayer :=
  mkRecordLayer
    (mkRecordLayerHeader (Content.content_type content) protocol_version epoch 0
       (as_u 16 (Z.of_nat (Content.size content))))
    content.

Definition marshal (r : RecordLayer) : result bytes :=
  header ← RecordLayerHeader.marshal (record_layer_header r);
  body ← Content.marshal (content r);
  Ok (header ++ body).

Definition unmarshal (raw : bytes) : result RecordLayer :=
  '(header, r) ← RecordLayerHeader.unmarshal raw;
  content ← match content_type header with
            | CtAlert => '(a, _) ← Alert.unmarshal r; Ok (ContentAlert a)
            | CtApplicationData => Ok (ContentApplicationData r)
            | CtChangeCipherSpec => _ ← ChangeCipherSpec.unmarshal r; Ok ContentChangeCipherSpec
            | CtHandshake => '(h, _) ← Handshake.unmarshal r; Ok (ContentHandshake h)
            | CtInvalid => Err (ErrOther "Invalid Content Type")
            end;
  Ok (mkRecordLayer header content).
End RecordLayer.

(** The records of a datagram. *)
Fixpoint unpack_records (fuel : nat) (buf : bytes) (offset : nat) : result (list bytes) :=
  if (length buf =? offset)%nat then Ok []
  else
    match fuel with
    | O => NoFuel
    | S fuel =>
        if (length buf - offset <=? RECORD_LAYER_HEADER_SIZE)%nat then Err ErrInvalidPacketLength
        else
          len ← u16_at buf (offset + RECORD_LAYER_HEADER_SIZE - 2);
          let pkt_len := (RECORD_LAYER_HEADER_SIZE + Z.to_nat len)%nat in
          if (length buf <? offset + pkt_len)%nat then Err ErrInvalidPacketLength
          else
            pkt ← bslice buf offset (offset + pkt_len);
            rest ← unpack_records fuel buf (offset + pkt_len);
            Ok (pkt :: rest)
    end.

Definition unpack_datagram (buf : bytes) : result (list bytes) := unpack_records (length buf) buf 0.
