(* ===== verification/DtlsCodec.v ===== *)
(** * Round trips of the DTLS wire format

    What the coders of DtlsWire write is what their decoders read, for every record
    the handshake and the connection can send. *)

From stdpp Require Import base list strings.
From Stdlib Require Import ZArith Lia.
From S2P Require Import Prelude Utf8 Fallible DtlsWire.
Local Open Scope Z_scope.

#[export] Instance Ok_inj E A : Inj (=) (=) (@Ok E A).
Proof. by injection 1. Qed.

(** ** Reading what was written *)

Lemma read_exact_front n l rest : n = length l -> read_exact n (l ++ rest) = Ok (l, rest).
Proof.
  intros ->. unfold read_exact. rewrite (proj2 (Nat.leb_le _ _)) by (rewrite length_app; lia).
  by rewrite take_app_length, drop_app_length.
Qed.

Lemma read_nothing r : read_exact (Z.to_nat 0) r = Ok ([], r).
Proof. done. Qed.

Lemma read_uint_app n z rest :
  0 <= z < 256 ^ Z.of_nat n -> read_uint n (to_be_bytes n z ++ rest) = Ok (z, rest).
Proof.
  intros Hz. unfold read_uint. rewrite read_exact_front by (by rewrite length_to_be_bytes).
  cbn [mbind fallible_bind]. by rewrite from_to_be_bytes, Z.mod_small.
Qed.

Lemma read_u8_app z rest : is_u 8 z -> read_u8 (write_u8 z ++ rest) = Ok (z, rest).
Proof. intros Hz. unfold write_u8. rewrite as_u_small by done. by apply read_uint_app. Qed.

Lemma read_u16_app z rest : is_u 16 z -> read_u16 (write_u16 z ++ rest) = Ok (z, rest).
Proof. intros Hz. unfold write_u16. rewrite as_u_small by done. by apply read_uint_app. Qed.

Lemma read_u32_app z rest : is_u 32 z -> read_u32 (write_u32 z ++ rest) = Ok (z, rest).
Proof. intros Hz. unfold write_u32. rewrite as_u_small by done. by apply read_uint_app. Qed.

Lemma read_u24_app z rest : is_u 24 z -> read_u24 (to_be_bytes 3 z ++ rest) = Ok (z, rest).
Proof. intros Hz. by apply read_uint_app. Qed.

Lemma read_with_app {A} (f : Z -> A) read w z rest :
  read (w ++ rest) = Ok (z, rest) -> read_with f read (w ++ rest) = Ok (f z, rest).
Proof. unfold read_with. by intros ->. Qed.

Lemma read_many_app {A} (read : bytes -> result (A * bytes)) (write : A -> bytes) n l rest :
  n = length l -> Forall (fun a => forall r, read (write a ++ r) = Ok (a, r)) l ->
  read_many n read (concat (map write l) ++ rest) = Ok (l, rest).
Proof.
  intros -> Hl. induction Hl as [|a l Ha Hl IH]; [done|].
  cbn [length read_many map concat]. rewrite <-(assoc_L (++)), Ha. cbn [mbind fallible_bind]. by rewrite IH.
Qed.

Lemma write_u24_Ok z : z < 2 ^ 24 -> write_u24 z = Ok (to_be_bytes 3 z).
Proof. intros Hz. unfold write_u24. by rewrite (proj2 (Z.ltb_lt _ _) Hz). Qed.

Lemma len_u16_Ok a k n :
  0 <= a -> 0 <= k -> a + k * Z.of_nat n < 2 ^ 16 -> Z.of_nat n < 2 ^ 16 -> len_u16 a k n = Ok (a + k * Z.of_nat n).
Proof.
  intros Ha Hk Hb Hn. unfold len_u16. rewrite as_u_small by (unfold is_u; lia).
  rewrite checked_u_Ret by (unfold is_u; nia). cbn [lift mbind fallible_bind].
  by rewrite checked_u_Ret by (unfold is_u; nia).
Qed.

Lemma length_write_u8 z : length (write_u8 z) = 1%nat.
Proof. apply length_to_be_bytes. Qed.
Lemma length_write_u16 z : length (write_u16 z) = 2%nat.
Proof. apply length_to_be_bytes. Qed.
Lemma length_write_u32 z : length (write_u32 z) = 4%nat.
Proof. apply length_to_be_bytes. Qed.

Lemma length_concat_map {A} (write : A -> bytes) k l :
  (forall a, length (write a) = k) -> length (concat (map write l)) = (length l * k)%nat.
Proof. intros Hw. induction l as [|a l IH]; [done|]. cbn [map concat length]. rewrite length_app, Hw, IH. lia. Qed.

(** The lengths of what is written. *)
Ltac lengths :=
  rewrite ?length_app, ?length_write_u8, ?length_write_u16, ?length_write_u32, ?length_to_be_bytes,
    ?(length_concat_map _ 1) by (intros; rewrite ?length_app, ?length_write_u8, ?length_write_u16; done).

(** Reads the next field. *)
Ltac bounds := unfold is_u in *; lia.
Ltac read_field :=
  first
    [ rewrite read_u8_app by bounds | rewrite read_u16_app by bounds | rewrite read_u32_app by bounds
    | rewrite read_u24_app by bounds ];
  cbn [mbind fallible_bind].
Ltac read_fields := rewrite <-?(assoc_L (++)); repeat read_field.

(** ** Numbers *)

Definition known_algorithm (a : SignatureHashAlgorithm) : Prop :=
  hash a <> UnsupportedHash /\ signature a <> UnsupportedSignature.

Lemma read_algorithm_app a rest :
  known_algorithm a -> read_algorithm (write_algorithm a ++ rest) = Ok (a, rest).
Proof.
  intros [Hh Hs]. unfold read_algorithm, write_algorithm. rewrite <-(assoc_L (++)).
  destruct a as [h s]; cbn [hash signature] in *.
  rewrite (read_with_app _ _ _ _ _ (read_u8_app (HashAlgorithm.as_u8 h) _ ltac:(destruct h; done))).
  cbn [mbind fallible_bind].
  rewrite (read_with_app _ _ _ _ _ (read_u8_app (SignatureAlgorithm.as_u8 s) _ ltac:(destruct s; done))).
  cbn [mbind fallible_bind]. by destruct h, s.
Qed.

Lemma length_write_algorithm a : length (write_algorithm a) = 2%nat.
Proof. done. Qed.

Lemma read_curve_app c rest :
  read_with NamedCurve.from read_u16 (write_u16 (NamedCurve.as_u16 c) ++ rest) = Ok (c, rest).
Proof. rewrite (read_with_app _ _ _ _ _ (read_u16_app (NamedCurve.as_u16 c) _ ltac:(by destruct c))). by destruct c. Qed.

Lemma read_profile_app p rest :
  p <> UnsupportedProfile ->
  read_with SrtpProtectionProfile.from read_u16 (write_u16 (SrtpProtectionProfile.as_u16 p) ++ rest) = Ok (p, rest).
Proof.
  rewrite (read_with_app _ _ _ _ _ (read_u16_app (SrtpProtectionProfile.as_u16 p) _ ltac:(by destruct p))).
  by destruct p.
Qed.

Lemma read_suite_app c rest :
  c <> UnsupportedSuite ->
  read_with CipherSuiteId.from read_u16 (write_u16 (CipherSuiteId.as_u16 c) ++ rest) = Ok (c, rest).
Proof.
  rewrite (read_with_app _ _ _ _ _ (read_u16_app (CipherSuiteId.as_u16 c) _ ltac:(by destruct c))).
  by destruct c.
Qed.

Lemma read_certificate_type_app c rest :
  c <> UnsupportedCertificateType ->
  read_with ClientCertificateType.from read_u8 (write_u8 (ClientCertificateType.as_u8 c) ++ rest) = Ok (c, rest).
Proof.
  rewrite (read_with_app _ _ _ _ _ (read_u8_app (ClientCertificateType.as_u8 c) _ ltac:(by destruct c))).
  by destruct c.
Qed.

(** ** Extensions *)

Definition wf_extension (e : Extension) : Prop :=
  match e with
  | ServerName n => is_utf8 (bytes_of_string n) = true /\ Z.of_nat (length (bytes_of_string n)) <= 65530
  | SupportedEllipticCurves l => Z.of_nat (length l) <= 32766
  | SupportedPointFormats l => Z.of_nat (length l) <= 255 /\ is_bytes l
  | SupportedSignatureAlgorithms l => Z.of_nat (length l) <= 32766 /\ Forall known_algorithm l
  | UseSrtp l => Z.of_nat (length l) <= 32766 /\ Forall (fun p => p <> UnsupportedProfile) l
  | UseExtendedMasterSecret supported => supported = true
  | RenegotiationInfo c => is_u 8 c
  end.

(** An extension is its number, the length of its body, and the body. *)
Record writes_extension (e : Extension) (b : bytes) : Prop := {
  we_marshal : Extension.marshal e = Ok b;
  we_size : length b = Extension.size e;
  we_length : exists v body, b = write_u16 v ++ write_u16 (Z.of_nat (length body)) ++ body
    /\ Z.of_nat (length body) < 2 ^ 16;
  we_unmarshal : forall rest, Extension.unmarshal (b ++ rest) = Ok (e, rest) }.

Lemma half_double n : Z.to_nat ((0 + 2 * n) / 2) = Z.to_nat n.
Proof. f_equal. rewrite Z.add_0_l, Z.mul_comm. by rewrite Z.div_mul. Qed.

Lemma writes_extension_intro e v outer body :
  Extension.marshal e = Ok (write_u16 v ++ write_u16 outer ++ body) -> outer = Z.of_nat (length body) ->
  Extension.size e = (4 + length body)%nat -> Z.of_nat (length body) < 2 ^ 16 ->
  (forall rest, Extension.unmarshal (write_u16 v ++ write_u16 outer ++ body ++ rest) = Ok (e, rest)) ->
  exists b, writes_extension e b.
Proof.
  intros Hm -> Hs Hb Hu. eexists. split; [exact Hm| |by exists v, body|].
  - rewrite !length_app, !length_write_u16. lia.
  - intros rest. rewrite <-!(assoc_L (++)). apply Hu.
Qed.

(** The number of an extension tells its decoder. *)
Lemma unmarshal_number v rest :
  is_u 16 v ->
  Extension.unmarshal (write_u16 v ++ rest)
  = match ExtensionValue.from v with
    | EvServerName => ExtensionServerName.unmarshal rest
    | EvSupportedEllipticCurves => ExtensionSupportedEllipticCurves.unmarshal rest
    | EvSupportedPointFormats => ExtensionSupportedPointFormats.unmarshal rest
    | EvSupportedSignatureAlgorithms => ExtensionSupportedSignatureAlgorithms.unmarshal rest
    | EvUseSrtp => ExtensionUseSrtp.unmarshal rest
    | EvUseExtendedMasterSecret => ExtensionUseExtendedMasterSecret.unmarshal rest
    | EvRenegotiationInfo => ExtensionRenegotiationInfo.unmarshal rest
    | EvUnsupported => Err ErrInvalidExtensionType
    end.
Proof. intros Hv. unfold Extension.unmarshal. by rewrite read_u16_app. Qed.

Ltac extension_lengths :=
  rewrite ?length_app, ?length_write_u8, ?length_write_u16, ?(length_concat_map _ 2), ?(length_concat_map _ 1)
    by done.

Lemma server_name_writes n : wf_extension (ServerName n) -> exists b, writes_extension (ServerName n) b.
Proof.
  intros [Hu Hn]. set (b := bytes_of_string n) in *.
  eapply (writes_extension_intro _ 0 (5 + 1 * Z.of_nat (length b))).
  - unfold Extension.marshal, ExtensionServerName.marshal. fold b. rewrite !len_u16_Ok by lia. reflexivity.
  - extension_lengths. lia.
  - unfold Extension.size. fold b. extension_lengths. lia.
  - extension_lengths. lia.
  - intros rest. rewrite unmarshal_number by done. unfold ExtensionServerName.unmarshal. cbn [ExtensionValue.from].
    read_fields. cbn [negb Z.eqb]. read_fields. rewrite read_exact_front by lia. cbn [mbind fallible_bind].
    rewrite Hu. unfold b. by rewrite string_of_bytes_of_string.
Qed.

Lemma curves_writes l :
  wf_extension (SupportedEllipticCurves l) -> exists b, writes_extension (SupportedEllipticCurves l) b.
Proof.
  cbn [wf_extension]. intros Hl. eapply (writes_extension_intro _ 10 (2 + 2 * Z.of_nat (length l))).
  - unfold Extension.marshal, ExtensionSupportedEllipticCurves.marshal. rewrite !len_u16_Ok by lia. reflexivity.
  - extension_lengths. lia.
  - unfold Extension.size. extension_lengths. lia.
  - extension_lengths. lia.
  - intros rest. rewrite unmarshal_number by done. cbn [ExtensionValue.from].
    unfold ExtensionSupportedEllipticCurves.unmarshal. read_fields. rewrite half_double.
    rewrite read_many_app; [done|lia|]. apply Forall_true. intros. apply read_curve_app.
Qed.

Lemma point_formats_writes l :
  wf_extension (SupportedPointFormats l) -> exists b, writes_extension (SupportedPointFormats l) b.
Proof.
  intros [Hl Hb]. eapply (writes_extension_intro _ 11 (1 + 1 * Z.of_nat (length l))).
  - unfold Extension.marshal, ExtensionSupportedPointFormats.marshal. rewrite !len_u16_Ok by lia. reflexivity.
  - extension_lengths. lia.
  - unfold Extension.size. extension_lengths. lia.
  - extension_lengths. lia.
  - intros rest. rewrite unmarshal_number by done. cbn [ExtensionValue.from].
    unfold ExtensionSupportedPointFormats.unmarshal. read_fields.
    rewrite read_many_app; [done|lia|]. eapply Forall_impl; [exact Hb|]. intros z Hz r. by apply read_u8_app.
Qed.

Lemma algorithms_writes l :
  wf_extension (SupportedSignatureAlgorithms l) ->
  exists b, writes_extension (SupportedSignatureAlgorithms l) b.
Proof.
  intros [Hl Hk]. eapply (writes_extension_intro _ 13 (2 + 2 * Z.of_nat (length l))).
  - unfold Extension.marshal, ExtensionSupportedSignatureAlgorithms.marshal. rewrite !len_u16_Ok by lia. reflexivity.
  - extension_lengths. lia.
  - unfold Extension.size. extension_lengths. lia.
  - extension_lengths. lia.
  - intros rest. rewrite unmarshal_number by done. cbn [ExtensionValue.from].
    unfold ExtensionSupportedSignatureAlgorithms.unmarshal. read_fields. rewrite half_double.
    rewrite read_many_app; [done|lia|]. eapply Forall_impl; [exact Hk|]. intros a Ha r. by apply read_algorithm_app.
Qed.

Lemma srtp_writes l : wf_extension (UseSrtp l) -> exists b, writes_extension (UseSrtp l) b.
Proof.
  intros [Hl Hk]. eapply (writes_extension_intro _ 14 (3 + 2 * Z.of_nat (length l))).
  - unfold Extension.marshal, ExtensionUseSrtp.marshal. rewrite !len_u16_Ok by lia. reflexivity.
  - extension_lengths. lia.
  - unfold Extension.size. extension_lengths. lia.
  - extension_lengths. lia.
  - intros rest. rewrite unmarshal_number by done. cbn [ExtensionValue.from].
    unfold ExtensionUseSrtp.unmarshal. read_fields. rewrite half_double.
    rewrite read_many_app; [|lia|eapply Forall_impl; [exact Hk|]; intros a Ha r; by apply read_profile_app].
    cbn [mbind fallible_bind]. by read_fields.
Qed.

Lemma extension_writes e : wf_extension e -> exists b, writes_extension e b.
Proof.
  destruct e as [n|l|l|l|l|supported|c];
    [apply server_name_writes|apply curves_writes|apply point_formats_writes|apply algorithms_writes
    |apply srtp_writes| |].
  - intros ->. by apply (writes_extension_intro _ 23 0 []).
  - cbn [wf_extension]. intros Hc. apply (writes_extension_intro _ 65281 1 (write_u8 c)); try done.
    intros rest. rewrite unmarshal_number by done. cbn [ExtensionValue.from].
    unfold ExtensionRenegotiationInfo.unmarshal. read_fields. cbn [negb Z.eqb Pos.eqb]. by read_fields.
Qed.

(** The loop over the extensions of a hello. *)
Lemma bindex_app {E} (pre : bytes) x post i : i = length pre -> @bindex E (pre ++ x :: post) i = Ok x.
Proof. intros ->. unfold bindex, index. by rewrite list_lookup_middle. Qed.

Lemma u16_at_app pre z post i :
  i = length pre -> is_u 16 z -> u16_at (pre ++ write_u16 z ++ post) i = Ok z.
Proof.
  intros -> Hz. pose proof (read_u16_app z [] Hz) as Hr. rewrite app_nil_r in Hr.
  pose proof (length_write_u16 z) as Hl. destruct (write_u16 z) as [|hi [|lo [|? ?]]]; try done.
  unfold u16_at. cbn [app]. rewrite (bindex_app pre hi _ (length pre) eq_refl). cbn [mbind fallible_bind].
  rewrite (cons_middle hi), (assoc_L (++)), (bindex_app (pre ++ [hi]) lo) by (rewrite length_app; cbn; lia).
  cbn [mbind fallible_bind]. change (@Ok Error _ (from_be_bytes [hi; lo], @nil Z) = Ok (z, [])) in Hr. by injection Hr as ->.
Qed.

Lemma unmarshal_all_split l b t :
  Forall2 writes_extension l b ->
  forall pre fuel,
  Extension.unmarshal_all (length b + fuel) (pre ++ concat b ++ t) (length pre)
  = rest ← Extension.unmarshal_all fuel ((pre ++ concat b) ++ t) (length (pre ++ concat b)); Ok (l ++ rest).
Proof.
  induction 1 as [|e w l ws He Hl IH]; intros pre fuel.
  - cbn [concat app length Nat.add]. rewrite app_nil_r. by destruct (Extension.unmarshal_all _ _ _).
  - destruct He as [Hm Hs (v & body & -> & Hb) Hu]. cbn [concat length Nat.add Extension.unmarshal_all].
    rewrite (proj2 (Nat.ltb_lt _ _)) by (rewrite !length_app, !length_write_u16; lia).
    rewrite bslice_from_app by done. cbn [mbind fallible_bind]. rewrite <-(assoc_L (++)), Hu. cbn [mbind fallible_bind].
    set (w := write_u16 v ++ write_u16 (Z.of_nat (length body)) ++ body).
    assert (u16_at (pre ++ w ++ concat ws ++ t) (length pre + 2) = Ok (Z.of_nat (length body))) as H16.
    { unfold w. rewrite <-!(assoc_L (++)), (assoc_L (++) pre). apply u16_at_app; [|bounds].
      rewrite length_app, length_write_u16. lia. }
    unfold u16_at in H16. replace (length pre + 2 + 1)%nat with (length pre + 3)%nat in H16 by lia.
    destruct (bindex _ (length pre + 2)) as [hi| | |]; try done. cbn [mbind fallible_bind] in *.
    destruct (bindex _ (length pre + 3)) as [lo| | |]; try done. cbn [mbind fallible_bind] in *.
    injection H16 as ->. specialize (IH (pre ++ w) fuel).
    replace (length pre + S (S (S (S (Z.to_nat (Z.of_nat (length body)))))))%nat with (length (pre ++ w))
      by (unfold w; rewrite !length_app, !length_write_u16; lia).
    rewrite (assoc_L (++) pre w (concat ws ++ t)), IH, <-!(assoc_L (++)).
    generalize (Extension.unmarshal_all fuel (pre ++ w ++ concat ws ++ t) (length (pre ++ w ++ concat ws))).
    by intros [].
Qed.

Lemma written_length l b : Forall2 writes_extension l b -> (length b <= length (concat b))%nat.
Proof.
  induction 1 as [|e w l ws He Hl IH]; [done|]. destruct He as [_ _ (v & body & -> & _) _].
  cbn [concat length]. rewrite !length_app, length_write_u16. lia.
Qed.

Lemma unmarshal_all_app l b :
  Forall2 writes_extension l b -> Extension.unmarshal_all (length (concat b)) (concat b) 0 = Ok l.
Proof.
  intros Hl. pose proof (written_length _ _ Hl) as Hn.
  pose proof (unmarshal_all_split l b [] Hl [] (length (concat b) - length b)) as H.
  cbn [app length] in H. rewrite !app_nil_r in H.
  replace (length b + _)%nat with (length (concat b)) in H by lia. rewrite H.
  destruct (length (concat b) - length b)%nat; cbn [Extension.unmarshal_all];
    rewrite Nat.ltb_irrefl; cbn [mbind fallible_bind]; by rewrite app_nil_r.
Qed.

Definition extensions_size (l : list Extension) : nat := sum_list (map Extension.size l).

Lemma extensions_written l :
  Forall wf_extension l ->
  exists b bs, Forall2 writes_extension l bs /\ b = concat bs
    /\ Extension.marshal_all l = Ok b /\ length b = extensions_size l
    /\ Extension.unmarshal_all (length b) b 0 = Ok l.
Proof.
  intros Hl. assert (exists bs, Forall2 writes_extension l bs) as [bs Hbs].
  { induction Hl as [|e l He Hl [bs IH]]; [by exists []|].
    destruct (extension_writes e He) as [b Hb]. exists (b :: bs). by constructor. }
  exists (concat bs), bs. split_and!; [done|done| | |].
  - clear Hl. induction Hbs as [|e b l bs He Hbs IH]; [done|]. cbn [Extension.marshal_all concat].
    rewrite (we_marshal _ _ He). cbn [mbind fallible_bind]. by rewrite IH.
  - clear Hl. induction Hbs as [|e b l bs He Hbs IH]; [done|]. unfold extensions_size in *. cbn [map sum_list concat].
    rewrite length_app, IH, (we_size _ _ He). done.
  - by apply unmarshal_all_app.
Qed.

(** ** Handshake messages *)

(** [marshal] writes [size] bytes, which [unmarshal] takes off the front of any input. *)
Definition codes {A} (marshal : result bytes) (size : nat) (unmarshal : bytes -> result (A * bytes)) (a : A) : Prop :=
  exists b, marshal = Ok b /\ length b = size /\ forall rest, unmarshal (b ++ rest) = Ok (a, rest).

(** The same for a decoder that takes the rest of its input. *)
Definition codes_whole {A} (marshal : result bytes) (size : nat) (unmarshal : bytes -> result (A * bytes)) (a : A) : Prop :=
  exists b, marshal = Ok b /\ length b = size /\ unmarshal b = Ok (a, []).

Definition wf_version (v : ProtocolVersion) : Prop := is_u 8 (major v) /\ is_u 8 (minor v).

Definition wf_random (h : HandshakeRandom) : Prop :=
  length (random_bytes h) = RANDOM_BYTES_LENGTH
  /\ exists secs, is_u 32 secs /\ gmt_unix_time h = secs * 1000000000.

Lemma read_version_app v rest : wf_version v -> read_version (write_version v ++ rest) = Ok (v, rest).
Proof. intros [Hj Hn]. unfold read_version, write_version. read_fields. by destruct v. Qed.

Lemma read_random_app h rest :
  wf_random h -> HandshakeRandom.unmarshal (HandshakeRandom.marshal h ++ rest) = Ok (h, rest).
Proof.
  destruct h as [t b]. intros (Hb & secs & Hs & Ht). cbn [random_bytes gmt_unix_time] in *. subst t.
  unfold HandshakeRandom.unmarshal, HandshakeRandom.marshal. cbn [random_bytes gmt_unix_time].
  destruct (Z.ltb_spec (secs * 1000000000) 0); [bounds|]. rewrite Z.div_mul by done.
  read_fields. rewrite read_exact_front by done. done.
Qed.

Lemma length_random h : wf_random h -> length (HandshakeRandom.marshal h) = HandshakeRandom.size.
Proof.
  intros [Hb _]. unfold HandshakeRandom.marshal. rewrite length_app, length_write_u32, Hb. done.
Qed.

Definition wf_methods (ids : list CompressionMethodId) : Prop :=
  Z.of_nat (length ids) <= 255 /\ Forall (fun id => id <> UnsupportedCompression) ids.

Lemma filter_all {A} (P : A -> Prop) `{forall a, Decision (P a)} (l : list A) : Forall P l -> filter P l = l.
Proof. induction 1 as [|a l Ha Hl IH]; [done|]. by rewrite filter_cons_True, IH. Qed.

Lemma read_method_app id rest :
  id <> UnsupportedCompression ->
  read_with CompressionMethodId.from read_u8 (write_u8 (CompressionMethodId.as_u8 id) ++ rest) = Ok (id, rest).
Proof. by destruct id. Qed.

Lemma read_methods_app ids rest :
  wf_methods ids -> CompressionMethods.unmarshal (CompressionMethods.marshal ids ++ rest) = Ok (ids, rest).
Proof.
  intros [Hl Hk]. unfold CompressionMethods.unmarshal, CompressionMethods.marshal. read_fields.
  rewrite read_many_app; [|lia|].
  - cbn [mbind fallible_bind]. by rewrite filter_all.
  - eapply Forall_impl; [exact Hk|]. intros id Hid r. by apply read_method_app.
Qed.

Definition wf_client_hello (m : HandshakeMessageClientHello) : Prop :=
  wf_version (ch_version m) /\ wf_random (ch_random m) /\ Z.of_nat (length (ch_cookie m)) <= 255
  /\ Z.of_nat (length (ch_cipher_suites m)) <= 32767 /\ Forall (fun c => c <> UnsupportedSuite) (ch_cipher_suites m)
  /\ wf_methods (ch_compression_methods m)
  /\ Forall wf_extension (ch_extensions m) /\ Z.of_nat (extensions_size (ch_extensions m)) < 2 ^ 16.

(** What comes before the extensions of a hello, and what is read after it. *)
Lemma client_hello_head m eb :
  wf_client_hello m -> Extension.marshal_all (ch_extensions m) = Ok eb ->
  exists head,
    HandshakeMessageClientHello.marshal m = Ok (head ++ write_u16 (Z.of_nat (length eb)) ++ eb)
    /\ (length head + 2 + extensions_size (ch_extensions m))%nat = HandshakeMessageClientHello.size m
    /\ forall buf rest, Z.of_nat (length buf) < 2 ^ 16 ->
         HandshakeMessageClientHello.unmarshal (head ++ write_u16 (Z.of_nat (length buf)) ++ buf ++ rest)
         = extensions ← Extension.unmarshal_all (length buf) buf 0;
           Ok (mkClientHello (ch_version m) (ch_random m) (ch_cookie m) (ch_cipher_suites m)
                 (ch_compression_methods m) extensions, rest).
Proof.
  intros (Hv & Hr & Hc & Hs & Hsk & Hm & He & Hes) Hem.
  unfold HandshakeMessageClientHello.marshal. rewrite (proj2 (Nat.ltb_ge _ _)) by lia.
  rewrite len_u16_Ok, Hem by lia. cbn [mbind fallible_bind].
  exists (write_version (ch_version m) ++ HandshakeRandom.marshal (ch_random m) ++ write_u8 0
          ++ write_u8 (Z.of_nat (length (ch_cookie m))) ++ ch_cookie m
          ++ write_u16 (0 + 2 * Z.of_nat (length (ch_cipher_suites m)))
          ++ concat (map (fun c => write_u16 (CipherSuiteId.as_u16 c)) (ch_cipher_suites m))
          ++ CompressionMethods.marshal (ch_compression_methods m)).
  split_and!.
  - by rewrite <-!(assoc_L (++)).
  - unfold HandshakeMessageClientHello.size, CompressionMethods.size, CompressionMethods.marshal, write_version.
    extension_lengths. rewrite (length_random _ Hr). unfold extensions_size. lia.
  - intros buf rest Hbuf. unfold HandshakeMessageClientHello.unmarshal. rewrite <-!(assoc_L (++)).
    rewrite read_version_app by done. cbn [mbind fallible_bind]. rewrite read_random_app by done.
    cbn [mbind fallible_bind]. read_fields. rewrite read_exact_front by lia. cbn [mbind fallible_bind]. read_fields.
    rewrite half_double. rewrite read_many_app;
      [|lia|eapply Forall_impl; [exact Hsk|]; intros c Hck r; by apply read_suite_app].
    cbn [mbind fallible_bind]. rewrite read_methods_app by done. cbn [mbind fallible_bind].
    read_fields. by rewrite read_exact_front by lia.
Qed.

Lemma client_hello_codes m :
  wf_client_hello m ->
  codes (HandshakeMessageClientHello.marshal m) (HandshakeMessageClientHello.size m)
    HandshakeMessageClientHello.unmarshal m.
Proof.
  intros Hwf. pose proof Hwf as (_ & _ & _ & _ & _ & _ & He & Hes).
  destruct (extensions_written _ He) as (eb & bs & _ & _ & Hem & Hel & Heu).
  destruct (client_hello_head m eb Hwf Hem) as (head & Hm & Hl & Hu). eexists. split; [exact Hm|]. split.
  - rewrite !length_app, length_write_u16. lia.
  - intros rest. rewrite <-!(assoc_L (++)), Hu by lia. rewrite Heu. by destruct m.
Qed.

Definition wf_server_hello (m : HandshakeMessageServerHello) : Prop :=
  wf_version (sh_version m) /\ wf_random (sh_random m) /\ sh_cipher_suite m <> UnsupportedSuite
  /\ sh_compression_method m <> UnsupportedCompression
  /\ Forall wf_extension (sh_extensions m) /\ Z.of_nat (extensions_size (sh_extensions m)) < 2 ^ 16.

Lemma server_hello_codes m :
  wf_server_hello m ->
  codes (HandshakeMessageServerHello.marshal m) (HandshakeMessageServerHello.size m)
    HandshakeMessageServerHello.unmarshal m.
Proof.
  intros (Hv & Hr & Hc & Hm & He & Hes).
  destruct (extensions_written _ He) as (eb & bs & _ & _ & Hem & Hel & Heu).
  unfold HandshakeMessageServerHello.marshal. rewrite Hem. cbn [mbind fallible_bind].
  eexists. split; [reflexivity|]. split.
  - unfold HandshakeMessageServerHello.size, write_version.
    extension_lengths. rewrite (length_random _ Hr), Hel. unfold extensions_size. lia.
  - intros rest. unfold HandshakeMessageServerHello.unmarshal. rewrite <-!(assoc_L (++)).
    rewrite read_version_app by done. cbn [mbind fallible_bind]. rewrite read_random_app by done.
    cbn [mbind fallible_bind]. read_fields. rewrite read_nothing. cbn [mbind fallible_bind].
    rewrite read_suite_app by done. cbn [mbind fallible_bind].
    rewrite read_method_app by done. cbn [mbind fallible_bind]. rewrite <-Hel in Hes. read_fields.
    rewrite read_exact_front by lia. cbn [mbind fallible_bind]. rewrite Heu. by destruct m.
Qed.

(** [HelloVerifyRequest], [Finished] and the key exchanges take what is left of the record. *)
Lemma hello_verify_request_codes m :
  wf_version (hvr_version m) -> Z.of_nat (length (hvr_cookie m)) <= 255 ->
  codes_whole (HandshakeMessageHelloVerifyRequest.marshal m)
    (HandshakeMessageHelloVerifyRequest.size m) HandshakeMessageHelloVerifyRequest.unmarshal m.
Proof.
  intros Hv Hc. unfold HandshakeMessageHelloVerifyRequest.marshal. rewrite (proj2 (Nat.ltb_ge _ _)) by lia.
  eexists. split; [reflexivity|]. split.
  - unfold HandshakeMessageHelloVerifyRequest.size, write_version. extension_lengths. lia.
  - unfold HandshakeMessageHelloVerifyRequest.unmarshal.
    rewrite read_version_app by done. cbn [mbind fallible_bind]. read_fields.
    rewrite (proj2 (Nat.ltb_ge _ _)) by lia. by destruct m.
Qed.

Definition wf_certificate (c : list bytes) : Prop :=
  Z.of_nat (HandshakeMessageCertificate.payload_size c) < 2 ^ 24.

Lemma certificates_written c :
  wf_certificate c ->
  exists b, HandshakeMessageCertificate.marshal_all c = Ok b
    /\ length b = HandshakeMessageCertificate.payload_size c
    /\ forall fuel offset rest, (length c <= fuel)%nat ->
         HandshakeMessageCertificate.unmarshal_all fuel (offset + length b) offset (b ++ rest) = Ok (c, rest).
Proof.
  unfold wf_certificate, HandshakeMessageCertificate.payload_size.
  induction c as [|x c IH]; cbn [map sum_list].
  - intros _. exists []. split_and!; try done. intros fuel offset rest _.
    rewrite Nat.add_0_r. destruct fuel; cbn [HandshakeMessageCertificate.unmarshal_all]; by rewrite Nat.ltb_irrefl.
  - intros Hx. unfold CERTIFICATE_LENGTH_FIELD_SIZE, id in *. destruct IH as (b & Hb & Hl & Hu); [lia|].
    cbn [HandshakeMessageCertificate.marshal_all]. rewrite as_u_small by bounds.
    rewrite write_u24_Ok, Hb by lia. cbn [mbind fallible_bind].
    eexists. split; [reflexivity|]. split; [rewrite !length_app, length_to_be_bytes; lia|].
    intros fuel offset rest Hf. cbn [length] in Hf. destruct fuel as [|fuel]; [lia|].
    rewrite !length_app, length_to_be_bytes. cbn [HandshakeMessageCertificate.unmarshal_all].
    rewrite (proj2 (Nat.ltb_lt _ _)) by lia. read_fields. rewrite read_exact_front by lia. cbn [mbind fallible_bind].
    unfold CERTIFICATE_LENGTH_FIELD_SIZE.
    specialize (Hu fuel (offset + 3 + Z.to_nat (Z.of_nat (length x)))%nat rest ltac:(lia)).
    replace (offset + (3 + (length x + length b)))%nat
      with (offset + 3 + Z.to_nat (Z.of_nat (length x)) + length b)%nat by lia.
    by rewrite Hu.
Qed.

Lemma certificate_codes c :
  wf_certificate c ->
  codes (HandshakeMessageCertificate.marshal c) (HandshakeMessageCertificate.size c)
    HandshakeMessageCertificate.unmarshal c.
Proof.
  intros Hc. destruct (certificates_written c Hc) as (b & Hb & Hl & Hu). unfold wf_certificate in Hc.
  unfold HandshakeMessageCertificate.marshal. rewrite as_u_small by bounds.
  rewrite write_u24_Ok, Hb by lia. cbn [mbind fallible_bind]. eexists. split; [reflexivity|]. split.
  - rewrite length_app, length_to_be_bytes, Hl. done.
  - intros rest. unfold HandshakeMessageCertificate.unmarshal. read_fields. rewrite Nat2Z.id, <-Hl.
    apply (Hu _ 0%nat). rewrite length_app, Hl. unfold HandshakeMessageCertificate.payload_size.
    clear. induction c as [|x c IH]; [cbn; lia|]. cbn [length map sum_list]. unfold CERTIFICATE_LENGTH_FIELD_SIZE, id in *. lia.
Qed.

Definition wf_certificate_request (m : HandshakeMessageCertificateRequest) : Prop :=
  Z.of_nat (length (cr_certificate_types m)) <= 255
  /\ Forall (fun c => c <> UnsupportedCertificateType) (cr_certificate_types m)
  /\ Z.of_nat (length (cr_signature_hash_algorithms m)) <= 32767
  /\ Forall known_algorithm (cr_signature_hash_algorithms m).

(** The two bytes of the empty list of authorities are not read. *)
Lemma certificate_request_codes m :
  wf_certificate_request m ->
  exists b, HandshakeMessageCertificateRequest.marshal m = Ok b
    /\ length b = HandshakeMessageCertificateRequest.size m
    /\ HandshakeMessageCertificateRequest.unmarshal b = Ok (m, [0; 0]).
Proof.
  intros (Hc & Hck & Ha & Hak). unfold HandshakeMessageCertificateRequest.marshal.
  rewrite len_u16_Ok by lia. cbn [mbind fallible_bind]. eexists. split; [reflexivity|]. split.
  - unfold HandshakeMessageCertificateRequest.size. extension_lengths.
    rewrite (length_concat_map write_algorithm 2) by done. cbn [length]. lia.
  - unfold HandshakeMessageCertificateRequest.unmarshal. read_fields.
    rewrite read_many_app; [|lia|eapply Forall_impl; [exact Hck|]; intros c Hk r; by apply read_certificate_type_app].
    cbn [mbind fallible_bind]. read_fields.
    rewrite read_many_app; [by destruct m| |eapply Forall_impl; [exact Hak|]; intros c Hk r; by apply read_algorithm_app].
    rewrite Z.add_0_l, Z.mul_comm, Z.div_add_l by done. change (1 / 2) with 0. lia.
Qed.

Definition wf_certificate_verify (m : HandshakeMessageCertificateVerify) : Prop :=
  known_algorithm (cv_algorithm m) /\ Z.of_nat (length (cv_signature m)) < 2 ^ 16.

Lemma certificate_verify_codes m :
  wf_certificate_verify m ->
  codes (HandshakeMessageCertificateVerify.marshal m) (HandshakeMessageCertificateVerify.size m)
    HandshakeMessageCertificateVerify.unmarshal m.
Proof.
  intros [Hk Hs]. eexists. split; [reflexivity|]. split.
  - unfold HandshakeMessageCertificateVerify.size, write_algorithm. extension_lengths. lia.
  - intros rest. unfold HandshakeMessageCertificateVerify.unmarshal. rewrite <-!(assoc_L (++)).
    rewrite read_algorithm_app by done. cbn [mbind fallible_bind]. read_fields.
    rewrite read_exact_front by lia. by destruct m.
Qed.

Lemma write_u16_bytes z : is_u 16 z -> exists hi lo, write_u16 z = [hi; lo] /\ from_be_bytes [hi; lo] = z.
Proof.
  intros Hz. pose proof (read_u16_app z [] Hz) as Hr. rewrite app_nil_r in Hr.
  pose proof (length_write_u16 z) as Hl. destruct (write_u16 z) as [|hi [|lo [|? ?]]]; try done.
  change (@Ok Error _ (from_be_bytes [hi; lo], @nil Z) = Ok (z, [])) in Hr. injection Hr as Hr. by exists hi, lo.
Qed.

Lemma write_u8_byte z : is_u 8 z -> write_u8 z = [z].
Proof. intros Hz. unfold write_u8. rewrite as_u_small by done. cbn. by rewrite Z.mod_small. Qed.

Lemma hint_written hint :
  Z.of_nat (length hint) < 2 ^ 16 ->
  length (write_u16 (Z.of_nat (length hint)) ++ hint) = (2 + length hint)%nat
  /\ u16_at (write_u16 (Z.of_nat (length hint)) ++ hint) 0 = Ok (Z.of_nat (length hint))
  /\ @bslice_from Error (write_u16 (Z.of_nat (length hint)) ++ hint) 2 = Ok hint.
Proof.
  intros Hh. rewrite length_app, length_write_u16. split_and!; [done|by apply (u16_at_app []); [|bounds]|].
  by apply bslice_from_app.
Qed.

Definition wf_client_key_exchange (m : HandshakeMessageClientKeyExchange) : Prop :=
  (cke_identity_hint m = [] /\ 0 < Z.of_nat (length (cke_public_key m)) <= 255
   /\ is_bytes (cke_public_key m))
  \/ (cke_public_key m = [] /\ 0 < Z.of_nat (length (cke_identity_hint m)) < 2 ^ 16).

Lemma is_empty_length {A} (l : list A) : is_empty l = (length l =? 0)%nat.
Proof. by destruct l. Qed.

(** A key of [n] bytes is never taken for a hint: [256 * n] is more than what follows. *)
Lemma client_key_exchange_codes m :
  wf_client_key_exchange m ->
  codes_whole (HandshakeMessageClientKeyExchange.marshal m) (HandshakeMessageClientKeyExchange.size m)
    HandshakeMessageClientKeyExchange.unmarshal m.
Proof.
  destruct m as [hint key]. unfold codes_whole, HandshakeMessageClientKeyExchange.marshal,
    HandshakeMessageClientKeyExchange.size, HandshakeMessageClientKeyExchange.unmarshal.
  intros [(Hh & Hk & Hb)|(Hk & Hh)]; cbn [cke_identity_hint cke_public_key] in *; subst.
  - rewrite (is_empty_length key), (proj2 (Nat.eqb_neq _ _)) by lia. cbn [is_empty negb andb orb].
    rewrite write_u8_byte by bounds. eexists. split; [reflexivity|]. split; [done|].
    destruct key as [|k key]; [cbn in Hk; lia|]. unfold is_bytes in Hb. apply Forall_cons in Hb as [Hk0 _].
    cbn [length app] in *. set (n := length key) in *.
    change (u16_at _ 0) with (@Ok Error _ (from_be_bytes [Z.of_nat (S n); k])). cbn [mbind fallible_bind].
    assert (from_be_bytes [Z.of_nat (S n); k] = Z.of_nat (S n) * 256 + k) as -> by (cbn; lia).
    rewrite (proj2 (Nat.eqb_neq _ _)) by (cbn [length]; fold n; bounds).
    change (bindex _ 0) with (@Ok Error _ (Z.of_nat (S n))). cbn [mbind fallible_bind length]. fold n.
    rewrite (proj2 (Nat.eqb_eq _ _)) by lia. cbn [negb].
    change (Z.of_nat (S n) :: k :: key) with ([Z.of_nat (S n)] ++ k :: key).
    by rewrite bslice_from_app.
  - rewrite (is_empty_length hint), (proj2 (Nat.eqb_neq _ _)) by lia. cbn [is_empty negb andb orb].
    eexists. split; [reflexivity|].
    destruct (hint_written hint) as (Hl & Hu & Hs); [lia|]. split; [done|].
    rewrite Hu, Hl. cbn [mbind fallible_bind]. rewrite (proj2 (Nat.eqb_eq _ _)) by lia. by rewrite Hs.
Qed.

Definition wf_server_key_exchange (m : HandshakeMessageServerKeyExchange) : Prop :=
  (ske_identity_hint m = [] /\ ske_elliptic_curve_type m = NamedCurveType
   /\ Z.of_nat (length (ske_public_key m)) <= 255 /\ known_algorithm (ske_algorithm m)
   /\ Z.of_nat (length (ske_signature m)) < 2 ^ 16
   /\ Z.of_nat (HandshakeMessageServerKeyExchange.size m) <> 770)
  \/ (0 < Z.of_nat (length (ske_identity_hint m)) < 2 ^ 16
      /\ m = mkServerKeyExchange (ske_identity_hint m) UnsupportedCurveType UnsupportedCurve []
               (mkSignatureHashAlgorithm UnsupportedHash UnsupportedSignature) []).

(** The decoder on the fields of a key: every field is where the ones before it end. *)
Lemma server_key_fields curve hi lo key h s l1 l2 signature :
  NamedCurve.from (from_be_bytes [hi; lo]) = curve ->
  Z.of_nat (8 + length key + length signature) <> 2 + from_be_bytes [3; hi] ->
  0 <= from_be_bytes [3; hi] -> from_be_bytes [l1; l2] = Z.of_nat (length signature) ->
  HandshakeMessageServerKeyExchange.unmarshal
    ([3; hi; lo; Z.of_nat (length key)] ++ key ++ [h; s; l1; l2] ++ signature)
  = Ok (mkServerKeyExchange [] NamedCurveType curve key
          (mkSignatureHashAlgorithm (HashAlgorithm.from h) (SignatureAlgorithm.from s)) signature, []).
Proof.
  intros Hc Hp Hp0 Hs. set (data := _ ++ _). unfold HandshakeMessageServerKeyExchange.unmarshal.
  assert (length data = 8 + length key + length signature)%nat as Hl
    by (unfold data; rewrite !length_app; cbn [length]; lia).
  change (u16_at data 0) with (@Ok Error _ (from_be_bytes [3; hi])). cbn [mbind fallible_bind].
  rewrite (proj2 (Nat.eqb_neq _ _)) by lia.
  change (bindex data 0) with (@Ok Error _ 3). cbn [mbind fallible_bind].
  assert (@bslice_from Error data 1 = Ok ([hi; lo; Z.of_nat (length key)] ++ key ++ [h; s; l1; l2] ++ signature)) as ->
    by (by apply (bslice_from_app [3])).
  cbn [mbind fallible_bind]. rewrite (proj2 (Nat.ltb_ge _ 2)) by (cbn [app length]; lia).
  change (u16_at data 1) with (@Ok Error _ (from_be_bytes [hi; lo])). cbn [mbind fallible_bind]. rewrite Hc, Hl.
  rewrite (proj2 (Nat.ltb_ge _ 4)) by lia.
  change (bindex data 3) with (@Ok Error _ (Z.of_nat (length key))). cbn [mbind fallible_bind]. rewrite Nat2Z.id.
  rewrite (proj2 (Nat.ltb_ge _ _)) by lia.
  assert (@bslice Error data 4 (4 + length key) = Ok key) as -> by (by apply (bslice_app [3; hi; lo; Z.of_nat (length key)])).
  cbn [mbind fallible_bind]. rewrite (proj2 (Nat.leb_gt _ _)) by lia.
  assert (forall pre x post i, data = pre ++ x :: post -> i = length pre -> @bindex Error data i = Ok x) as Hi
    by (intros ? ? ? ? -> ->; by apply bindex_app).
  rewrite (Hi ([3; hi; lo; Z.of_nat (length key)] ++ key) h ([s; l1; l2] ++ signature) (4 + length key)%nat);
    [|unfold data; by rewrite <-(assoc_L (++))|by rewrite length_app].
  cbn [mbind fallible_bind]. rewrite (proj2 (Nat.leb_gt _ _)) by lia.
  rewrite (Hi ([3; hi; lo; Z.of_nat (length key)] ++ key ++ [h]) s ([l1; l2] ++ signature) (S (4 + length key)));
    [|unfold data; by rewrite <-!(assoc_L (++))|rewrite !length_app; cbn [length]; lia].
  cbn [mbind fallible_bind]. rewrite (proj2 (Nat.ltb_ge _ _)) by lia. unfold u16_at at 1.
  rewrite (Hi ([3; hi; lo; Z.of_nat (length key)] ++ key ++ [h; s]) l1 ([l2] ++ signature) (S (S (4 + length key))));
    [|unfold data; by rewrite <-!(assoc_L (++))|rewrite !length_app; cbn [length]; lia].
  cbn [mbind fallible_bind].
  rewrite (Hi ([3; hi; lo; Z.of_nat (length key)] ++ key ++ [h; s; l1]) l2 signature (S (S (4 + length key)) + 1)%nat);
    [|unfold data; by rewrite <-!(assoc_L (++))|rewrite !length_app; cbn [length]; lia].
  cbn [mbind fallible_bind]. rewrite Hs, Nat2Z.id. rewrite (proj2 (Nat.ltb_ge _ _)) by lia.
  replace data with (([3; hi; lo; Z.of_nat (length key)] ++ key ++ [h; s; l1; l2]) ++ signature ++ [])
    by (unfold data; by rewrite app_nil_r, <-!(assoc_L (++))).
  rewrite bslice_app; [done|rewrite !length_app; cbn [length]; lia|rewrite !length_app; cbn [length]; lia].
Qed.

Lemma server_key_exchange_codes m :
  wf_server_key_exchange m ->
  codes_whole (HandshakeMessageServerKeyExchange.marshal m) (HandshakeMessageServerKeyExchange.size m)
    HandshakeMessageServerKeyExchange.unmarshal m.
Proof.
  unfold codes_whole, HandshakeMessageServerKeyExchange.marshal. intros [(Hh & Ht & Hk & Ha & Hs & Hn)|[Hh Hm]].
  - unfold HandshakeMessageServerKeyExchange.size in *.
    destruct m as [hint t curve key [h s] sig]. cbn in Hh, Ht, Hk, Hs. subst hint t.
    cbn [ske_identity_hint is_empty negb ske_elliptic_curve_type ske_named_curve ske_public_key ske_algorithm
           ske_signature EllipticCurveType.as_u8] in *.
    unfold write_algorithm. cbn [hash signature].
    rewrite (write_u8_byte 3), (write_u8_byte (Z.of_nat (length key))) by bounds.
    rewrite !write_u8_byte by (by destruct h, s).
    assert (write_u16 (NamedCurve.as_u16 curve) = [0; NamedCurve.as_u16 curve]) as -> by (by destruct curve).
    destruct (write_u16_bytes (Z.of_nat (length sig))) as (l1 & l2 & -> & Hl); [bounds|].
    eexists. split; [reflexivity|]. split; [rewrite !length_app; cbn [length]; lia|].
    etrans; [apply (server_key_fields curve 0 (NamedCurve.as_u16 curve) key
                      (HashAlgorithm.as_u8 h) (SignatureAlgorithm.as_u8 s) l1 l2 sig)|].
    + by destruct curve.
    + change (from_be_bytes [3; 0]) with 768. lia.
    + done.
    + done.
    + destruct Ha as [Hh Ha]. cbn [hash signature] in *. by destruct h, s.
  - destruct m as [hint t curve key a signature]. cbn [ske_identity_hint] in *.
    injection Hm as -> -> -> -> ->. unfold HandshakeMessageServerKeyExchange.size. cbn [ske_identity_hint].
    rewrite (is_empty_length hint), (proj2 (Nat.eqb_neq _ _)) by lia. cbn [negb].
    eexists. split; [reflexivity|].
    destruct (hint_written hint) as (Hl & Hu & Hs); [lia|]. split; [done|].
    unfold HandshakeMessageServerKeyExchange.unmarshal.
    rewrite Hu, Hl. cbn [mbind fallible_bind]. rewrite (proj2 (Nat.eqb_eq _ _)) by lia. by rewrite Hs.
Qed.

Definition wf_message (m : HandshakeMessage) : Prop :=
  match m with
  | ClientHello m => wf_client_hello m
  | ServerHello m => wf_server_hello m
  | HelloVerifyRequest m => wf_version (hvr_version m) /\ Z.of_nat (length (hvr_cookie m)) <= 255
  | Certificate c => wf_certificate c
  | ServerKeyExchange m => wf_server_key_exchange m
  | CertificateRequest m => wf_certificate_request m
  | ServerHelloDone => True
  | CertificateVerify m => wf_certificate_verify m
  | ClientKeyExchange m => wf_client_key_exchange m
  | Finished v => True
  end.

Lemma codes_end {A} (marshal : result bytes) (size : nat) (unmarshal : bytes -> result (A * bytes)) (a : A) :
  codes marshal size unmarshal a -> codes_whole marshal size unmarshal a.
Proof. intros (b & Hm & Hl & Hu). exists b. split_and!; [done|done|]. by rewrite <-(Hu []), app_nil_r. Qed.

Lemma message_codes m :
  wf_message m ->
  exists b rest, HandshakeMessage.marshal m = Ok b /\ length b = HandshakeMessage.size m
    /\ unmarshal_message (HandshakeMessage.handshake_type m) b = Ok (m, rest).
Proof.
  assert (forall A (a : A) (f : A -> HandshakeMessage) marshal size unmarshal,
    codes_whole marshal size unmarshal a ->
    exists b rest, marshal = Ok b /\ length b = size
      /\ ('(m, r) ← unmarshal b; Ok (f m, r)) = @Ok Error _ (f a, rest)) as Hcodes.
  { intros A a f mar sz un (b & -> & Hl & Hu). exists b, []. by rewrite Hu. }
  destruct m; cbn [wf_message HandshakeMessage.marshal HandshakeMessage.size unmarshal_message
                     HandshakeMessage.handshake_type].
  - intros Hm. by apply Hcodes, codes_end, client_hello_codes.
  - intros Hm. by apply Hcodes, codes_end, server_hello_codes.
  - intros [Hv Hc]. by apply Hcodes, hello_verify_request_codes.
  - intros Hm. by apply Hcodes, codes_end, certificate_codes.
  - intros Hm. by apply Hcodes, server_key_exchange_codes.
  - intros Hm. destruct (certificate_request_codes m Hm) as (b & -> & Hl & Hu). exists b, [0; 0]. by rewrite Hu.
  - intros _. by exists [], [].
  - intros Hm. by apply Hcodes, codes_end, certificate_verify_codes.
  - intros Hm. by apply Hcodes, client_key_exchange_codes.
  - intros _. by exists verify_data, [].
Qed.

(** ** Records *)

Definition wf_handshake (h : Handshake) : Prop :=
  let header := handshake_header h in
  hh_type header = HandshakeMessage.handshake_type (handshake_message h) /\ wf_message (handshake_message h)
  /\ is_u 24 (hh_length header) /\ is_u 16 (hh_message_sequence header)
  /\ is_u 24 (hh_fragment_offset header) /\ is_u 24 (hh_fragment_length header).

Lemma handshake_header_codes h :
  is_u 24 (hh_length h) -> is_u 16 (hh_message_sequence h) -> is_u 24 (hh_fragment_offset h) ->
  is_u 24 (hh_fragment_length h) -> HandshakeType.from (HandshakeType.as_u8 (hh_type h)) = hh_type h ->
  codes (HandshakeHeader.marshal h) HandshakeHeader.size HandshakeHeader.unmarshal h.
Proof.
  intros Hl Hs Ho Hf Ht. unfold codes, HandshakeHeader.marshal. rewrite !write_u24_Ok by bounds.
  cbn [mbind fallible_bind]. eexists. split; [reflexivity|]. split.
  - rewrite !length_app, length_write_u8, length_write_u16, !length_to_be_bytes. done.
  - intros rest. unfold HandshakeHeader.unmarshal. rewrite <-!(assoc_L (++)).
    rewrite (read_with_app _ _ _ _ _ (read_u8_app (HandshakeType.as_u8 (hh_type h)) _ ltac:(by destruct (hh_type h)))).
    cbn [mbind fallible_bind]. rewrite Ht. read_fields. by destruct h.
Qed.

Lemma handshake_codes h :
  wf_handshake h ->
  exists b rest, Handshake.marshal h = Ok b /\ length b = Handshake.size h /\ Handshake.unmarshal b = Ok (h, rest).
Proof.
  intros (Ht & Hm & Hl & Hs & Ho & Hf).
  destruct (handshake_header_codes (handshake_header h)) as (hb & Hhb & Hhl & Hhu); try done.
  { rewrite Ht. by destruct (handshake_message h). }
  destruct (message_codes _ Hm) as (b & rest & Hb & Hbl & Hbu).
  unfold Handshake.marshal, Handshake.unmarshal, Handshake.size. rewrite Hhb, Hb. cbn [mbind fallible_bind].
  eexists _, rest. split; [reflexivity|]. split; [rewrite length_app; lia|].
  rewrite Hhu. cbn [mbind fallible_bind]. rewrite Ht, Hbu. by destruct h.
Qed.

Definition wf_content (c : Content) : Prop :=
  match c with
  | ContentChangeCipherSpec => True
  | ContentAlert a => alert_level a <> LevelInvalid /\ alert_description a <> DescriptionInvalid
  | ContentHandshake h => wf_handshake h
  | ContentApplicationData data => True
  end.

Definition wf_record (r : RecordLayer) : Prop :=
  let header := record_layer_header r in
  content_type header = Content.content_type (content r) /\ wf_content (content r)
  /\ (protocol_version header = PROTOCOL_VERSION1_0 \/ protocol_version header = PROTOCOL_VERSION1_2)
  /\ is_u 16 (epoch header) /\ is_u 48 (sequence_number header) /\ is_u 16 (content_len header).

Lemma sequence_number_bytes z :
  is_u 48 z -> length (drop 2 (to_be_bytes 8 z)) = 6%nat /\ from_be_bytes ([0; 0] ++ drop 2 (to_be_bytes 8 z)) = z.
Proof.
  intros Hz. split; [by rewrite length_drop, length_to_be_bytes|].
  etrans; [|etrans; [apply (from_to_be_bytes 8 z)|apply Z.mod_small; bounds]].
  f_equal. rewrite <-(take_drop 2 (to_be_bytes 8 z)) at 2. f_equal.
  cbn. rewrite !Z.div_div by done. by rewrite !(Z.div_small z) by bounds.
Qed.

Lemma record_header_codes h :
  (protocol_version h = PROTOCOL_VERSION1_0 \/ protocol_version h = PROTOCOL_VERSION1_2) ->
  is_u 16 (epoch h) -> is_u 48 (sequence_number h) -> is_u 16 (content_len h) -> content_type h <> CtInvalid ->
  codes (RecordLayerHeader.marshal h) RECORD_LAYER_HEADER_SIZE RecordLayerHeader.unmarshal h.
Proof.
  intros Hv He Hs Hl Ht. destruct (sequence_number_bytes _ Hs) as [Hn Hb].
  unfold codes, RecordLayerHeader.marshal, MAX_SEQUENCE_NUMBER. rewrite (proj2 (Z.ltb_ge _ _)) by bounds.
  eexists. split; [reflexivity|]. split.
  - unfold write_version. rewrite !length_app, Hn, !length_write_u8, !length_write_u16. done.
  - intros rest. unfold RecordLayerHeader.unmarshal. rewrite <-!(assoc_L (++)).
    rewrite (read_with_app _ _ _ _ _ (read_u8_app (ContentType.as_u8 (content_type h)) _
      ltac:(by destruct (content_type h)))).
    cbn [mbind fallible_bind]. rewrite read_version_app by (by destruct Hv as [-> | ->]).
    cbn [mbind fallible_bind]. read_fields. rewrite read_exact_front by done. cbn [mbind fallible_bind].
    rewrite Hb. replace (negb _ && negb _) with false by (by destruct Hv as [-> | ->]).
    read_fields. destruct h as [[] ? ? ? ?]; done.
Qed.

(** What the record layer writes for a record, and that it reads it back. *)
Definition carries (r : RecordLayer) (raw : bytes) : Prop :=
  RecordLayer.marshal r = Ok raw /\ RecordLayer.unmarshal raw = Ok r
  /\ length raw = (RECORD_LAYER_HEADER_SIZE + Content.size (content r))%nat.

Lemma record_carried r : wf_record r -> exists raw, carries r raw.
Proof.
  intros (Ht & Hc & Hv & He & Hs & Hl).
  destruct (record_header_codes (record_layer_header r)) as (hb & Hhb & Hhl & Hhu); try done.
  { rewrite Ht. by destruct (content r). }
  unfold carries, RecordLayer.marshal, RecordLayer.unmarshal. rewrite Hhb. cbn [mbind fallible_bind].
  destruct r as [header c]. cbn [content record_layer_header] in *.
  assert (forall body, length body = Content.size c ->
    length (hb ++ body) = (RECORD_LAYER_HEADER_SIZE + Content.size c)%nat) as Hlen
    by (intros; rewrite length_app; lia).
  destruct c as [|[l d]|h|data]; cbn [Content.marshal Content.content_type wf_content] in *.
  - eexists. split; [reflexivity|]. split; [|by apply Hlen]. rewrite Hhu. cbn [mbind fallible_bind]. by rewrite Ht.
  - eexists. split; [reflexivity|]. split; [|by apply Hlen]. rewrite Hhu. cbn [mbind fallible_bind]. rewrite Ht.
    destruct Hc as [Hcl Hcd]. cbn [alert_level alert_description] in *. by destruct l, d.
  - destruct (handshake_codes h Hc) as (b & rest & -> & Hbl & Hbu). cbn [mbind fallible_bind].
    eexists. split; [reflexivity|]. split; [|by apply Hlen].
    rewrite Hhu. cbn [mbind fallible_bind]. rewrite Ht, Hbu. done.
  - eexists. split; [reflexivity|]. split; [|by apply Hlen]. rewrite Hhu. cbn [mbind fallible_bind]. by rewrite Ht.
Qed.

(** A record of [n] bytes of content says so in the last two bytes of its header. *)
Lemma content_len_at pre r raw post :
  wf_record r -> carries r raw ->
  u16_at (pre ++ raw ++ post) (length pre + RECORD_LAYER_HEADER_SIZE - 2) = Ok (content_len (record_layer_header r)).
Proof.
  intros (Ht & Hc & Hv & He & Hs & Hl) (Hm & _ & _). unfold RecordLayer.marshal, RecordLayerHeader.marshal in Hm.
  destruct (_ <? _) in Hm; [done|]. cbn [mbind fallible_bind] in Hm.
  destruct (Content.marshal (content r)) as [body| | |]; try done. cbn [mbind fallible_bind] in Hm.
  apply (inj Ok) in Hm as <-. destruct (sequence_number_bytes _ Hs) as [Hn _].
  match goal with |- context [write_u8 ?t ++ write_version ?v ++ write_u16 ?e ++ ?q ++ write_u16 ?l] =>
    replace (pre ++ (_ ++ body) ++ post)
      with ((pre ++ write_u8 t ++ write_version v ++ write_u16 e ++ q) ++ write_u16 l ++ body ++ post)
      by (by rewrite <-!(assoc_L (++))) end.
  apply u16_at_app; [|done]. unfold write_version, RECORD_LAYER_HEADER_SIZE.
  rewrite !length_app, Hn, !length_write_u8, !length_write_u16. lia.
Qed.

Lemma unpack_records_app pre rs raws fuel :
  Forall wf_record rs -> Forall2 carries rs raws ->
  Forall (fun r => content_len (record_layer_header r) = Z.of_nat (Content.size (content r))
                   /\ (0 < Content.size (content r))%nat) rs ->
  (length (concat raws) <= fuel)%nat ->
  unpack_records fuel (pre ++ concat raws) (length pre) = Ok raws.
Proof.
  intros Hwf Hc Hl. revert pre fuel Hwf Hl.
  induction Hc as [|r raw rs raws Hr Hc IH]; intros pre fuel Hwf Hl Hf.
  - cbn [concat]. rewrite app_nil_r. destruct fuel; cbn [unpack_records]; by rewrite Nat.eqb_refl.
  - apply Forall_cons in Hwf as [Hwr Hwf]. apply Forall_cons in Hl as [[Hlr Hp] Hl].
    pose proof Hr as (_ & _ & Hlen). cbn [concat] in Hf |- *. rewrite length_app in Hf.
    destruct fuel as [|fuel]; [unfold RECORD_LAYER_HEADER_SIZE in *; lia|]. cbn [unpack_records].
    rewrite !length_app, (proj2 (Nat.eqb_neq _ _)), (proj2 (Nat.leb_gt _ _)) by lia.
    rewrite (content_len_at _ r) by done. cbn [mbind fallible_bind]. rewrite Hlr, Nat2Z.id, <-Hlen.
    rewrite (proj2 (Nat.ltb_ge _ _)) by lia. rewrite bslice_app by done. cbn [mbind fallible_bind].
    rewrite (assoc_L (++)). rewrite <-length_app, IH by (try done; unfold RECORD_LAYER_HEADER_SIZE in *; lia).
    done.
Qed.

(** ** Hellos that end in the middle of an extension *)

(** One to three bytes are never an extension, and the loop reads four. *)
Lemma unmarshal_short t :
  (length t <= 3)%nat -> exists e, Extension.unmarshal t = Err e.
Proof.
  intros Ht. destruct t as [|a [|b [|c [|d t]]]]; try (by eexists); [| |cbn in Ht; lia].
  - unfold Extension.unmarshal. change (read_u16 [a; b]) with (@Ok Error _ (from_be_bytes [a; b], @nil Z)).
    cbn [mbind fallible_bind]. destruct (ExtensionValue.from _); by eexists.
  - unfold Extension.unmarshal. change (read_u16 [a; b; c]) with (@Ok Error _ (from_be_bytes [a; b], [c])).
    cbn [mbind fallible_bind]. destruct (ExtensionValue.from _); by eexists.
Qed.

Lemma bindex_past {E} (b : bytes) i : (length b <= i)%nat -> @bindex E b i = Panics IndexOutOfBounds.
Proof. intros Hi. unfold bindex, index. by rewrite lookup_ge_None_2. Qed.

Lemma unmarshal_all_short pre t fuel :
  (1 <= length t <= 3)%nat -> Extension.unmarshal_all (S fuel) (pre ++ t) (length pre) = Panics IndexOutOfBounds.
Proof.
  intros Ht. cbn [Extension.unmarshal_all]. rewrite (proj2 (Nat.ltb_lt _ _)) by (rewrite length_app; lia).
  rewrite bslice_from_app by done. cbn [mbind fallible_bind].
  destruct (unmarshal_short t) as [e ->]; [lia|].
  assert (forall i, (exists x, @bindex Error (pre ++ t) i = Ok x) \/ @bindex Error (pre ++ t) i = Panics IndexOutOfBounds) as Hi.
  { intros i. unfold bindex, index. destruct (_ !! i); [left; by eexists|by right]. }
  destruct (Hi (length pre)) as [[x ->] | ->]; [|done]. cbn [mbind fallible_bind].
  destruct (Hi (length pre + 1)%nat) as [[y ->] | ->]; [|done]. cbn [mbind fallible_bind].
  destruct (Hi (length pre + 2)%nat) as [[z ->] | ->]; [|done]. cbn [mbind fallible_bind].
  by rewrite bindex_past by (rewrite length_app; lia).
Qed.

Lemma truncated_block_panics l eb t :
  Forall wf_extension l -> Extension.marshal_all l = Ok eb -> (1 <= length t <= 3)%nat ->
  Extension.unmarshal_all (length (eb ++ t)) (eb ++ t) 0 = Panics IndexOutOfBounds.
Proof.
  intros Hl He Ht. destruct (extensions_written l Hl) as (b & bs & Hb & -> & Hm & _).
  rewrite Hm in He. apply (inj Ok) in He as <-.
  pose proof (written_length _ _ Hb) as Hn. rewrite length_app.
  replace (length (concat bs) + length t)%nat
    with (length bs + S (length (concat bs) - length bs + length t - 1))%nat by lia.
  pose proof (unmarshal_all_split l bs t Hb []) as Hs. cbn [app length] in Hs. rewrite Hs.
  by rewrite unmarshal_all_short.
Qed.

(** ** Properties *)

(** records written one after the other into a datagram are split by
    [unpack_datagram] into the same records, each of which decodes to what was written:
    every handshake message with its extensions, alerts, change-cipher-spec and
    application data, with the 48-bit sequence number and the length in the header. *)
Theorem datagram_roundtrip rs :
  Forall wf_record rs ->
  Forall (fun r => content_len (record_layer_header r) = Z.of_nat (Content.size (content r))
                   /\ (0 < Content.size (content r))%nat) rs ->
  exists raws,
    Forall2 (fun r raw => RecordLayer.marshal r = Ok raw /\ RecordLayer.unmarshal raw = Ok r) rs raws
    /\ unpack_datagram (concat raws) = Ok raws.
Proof.
  intros Hwf Hl.
  assert (exists raws, Forall2 carries rs raws) as [raws Hc].
  { clear Hl. induction Hwf as [|r rs Hr Hwf [raws IH]]; [by exists []|].
    destruct (record_carried r Hr) as [raw Hraw]. exists (raw :: raws). by constructor. }
  exists raws. split.
  - eapply Forall2_impl; [exact Hc|]. intros r raw (Hm & Hu & _). done.
  - by apply (unpack_records_app [] rs).
Qed.

(** a ClientHello whose extension block ends with one to three bytes that are not an
    extension stops the decoder with an index out of bounds, whatever valid extensions
    come before. *)
Theorem truncated_extension_panics m eb t rest :
  wf_client_hello m -> Extension.marshal_all (ch_extensions m) = Ok eb ->
  (1 <= length t <= 3)%nat -> Z.of_nat (length eb + length t) < 2 ^ 16 ->
  exists head,
    HandshakeMessageClientHello.marshal m = Ok (head ++ write_u16 (Z.of_nat (length eb)) ++ eb)
    /\ HandshakeMessageClientHello.unmarshal
         (head ++ write_u16 (Z.of_nat (length (eb ++ t))) ++ (eb ++ t) ++ rest)
       = Panics IndexOutOfBounds.
Proof.
  intros Hwf He Ht Hl. pose proof Hwf as (_ & _ & _ & _ & _ & _ & Hwe & _).
  destruct (client_hello_head m eb Hwf He) as (head & Hm & _ & Hu). exists head. split; [done|].
  rewrite Hu by (rewrite length_app; lia). by rewrite (truncated_block_panics (ch_extensions m)).
Qed.

(** A flight of records to try the theorems on: a ClientHello with extensions, an alert and
    application data, and the hello a fuzzer would send. *)
Definition sample_hello : HandshakeMessageClientHello :=
  mkClientHello PROTOCOL_VERSION1_2 (mkHandshakeRandom (1700000000 * 1000000000) (replicate 28 7)) [1; 2; 3]
    [Tls_Ecdhe_Ecdsa_With_Aes_128_Gcm_Sha256] [NullCompression]
    [ServerName "netpoke.local"; SupportedEllipticCurves [X25519; P256]; SupportedPointFormats [0];
     SupportedSignatureAlgorithms [mkSignatureHashAlgorithm Sha256 Ecdsa]; UseExtendedMasterSecret true].

Definition sample_records : list RecordLayer :=
  map (RecordLayer.new PROTOCOL_VERSION1_2 0)
    [ContentHandshake (Handshake.new (ClientHello sample_hello)); ContentAlert (mkAlert Fatal HandshakeFailure);
     ContentApplicationData [104; 105]].

Lemma sample_hello_wf : wf_client_hello sample_hello.
Proof.
  split; [by repeat split|]. split; [split; [done|by exists 1700000000]|]. split; [done|]. split; [done|].
  split; [by repeat constructor|]. split; [split; [done|by repeat constructor]|].
  split; [by repeat (constructor || split)|done].
Qed.

Lemma record_new_wf c :
  wf_content c -> Z.of_nat (Content.size c) < 2 ^ 16 -> wf_record (RecordLayer.new PROTOCOL_VERSION1_2 0 c).
Proof.
  intros Hc Hs. unfold wf_record, RecordLayer.new. cbn -[as_u]. rewrite as_u_small by bounds.
  split_and!; [done|done|by right|done|done|bounds].
Qed.

Lemma sample_records_wf : Forall wf_record sample_records.
Proof.
  apply Forall_cons_2; [apply record_new_wf; [|done]|repeat (apply Forall_cons_2; [by apply record_new_wf|]); constructor].
  split; [done|]. split; [apply sample_hello_wf|done].
Qed.

