(* ===== verification/DtlsCrypto.v ===== *)
(** * The cipher suites of DTLS

    vendored/dtls/src/prf, crypto and cipher_suite: the key schedule, the four record
    protections (GCM, CCM, CBC with HMAC, ChaCha20-Poly1305) and the suites that use them.

    The algorithms are those of other crates: a [Crypto] gives hashes, AEADs and the CBC
    mode on whole blocks, and [CryptoLaws] states what their documentation promises.  What
    [rand] fills a nonce with is an argument.  [suites_roundtrip] shows that what a side
    protects the other one recovers; [short_record_panics] that a record too short for its
    tag stops the decoder. *)

From stdpp Require Import base list strings.
From Stdlib Require Import ZArith Lia.
From S2P Require Import Prelude Utf8 Fallible DtlsWire DtlsCodec.
Local Open Scope Z_scope.

Inductive aead := Aes128Gcm | Aes128Ccm | Aes128Ccm8 | ChaCha20Poly1305.

(** The algorithms of the [sha2], [hmac], [aes-gcm], [ccm], [chacha20poly1305] and [cbc]
    crates.  A sealed text is the ciphertext with the tag behind it. *)
Class Crypto := {
  sha256 : bytes -> bytes;
  hmac_sha256 : bytes -> bytes -> bytes;
  hmac_sha1 : bytes -> bytes -> bytes;
  aead_seal : aead -> bytes -> bytes -> bytes -> bytes -> option bytes;
  aead_open : aead -> bytes -> bytes -> bytes -> bytes -> option bytes;
  cbc_encrypt : bytes -> bytes -> bytes -> bytes;
  cbc_decrypt : bytes -> bytes -> bytes -> bytes }.

Definition tag_length (a : aead) : nat := match a with Aes128Ccm8 => 8 | _ => 16 end.
Definition key_length (a : aead) : nat := match a with ChaCha20Poly1305 => 32 | _ => 16 end.

(** Sealing works for keys and nonces of the right length and texts below the limits of the
    algorithms (CCM with a nonce of 12 bytes: 2^24), adds the tag, and is undone by opening
    with the same key, nonce and additional data. *)
Class CryptoLaws `{Crypto} := {
  hmac_sha256_length key data : length (hmac_sha256 key data) = 32%nat;
  hmac_sha1_length key data : length (hmac_sha1 key data) = 20%nat;
  hmac_sha1_bytes key data : is_bytes (hmac_sha1 key data);
  seal_open a key nonce ad text :
    length key = key_length a -> length nonce = 12%nat -> Z.of_nat (length text) < 2 ^ 24 ->
    exists sealed, aead_seal a key nonce ad text = Some sealed
      /\ length sealed = (length text + tag_length a)%nat
      /\ aead_open a key nonce ad sealed = Some text;
  cbc_length key iv text : length (cbc_encrypt key iv text) = length text;
  cbc_inverse key iv text : cbc_decrypt key iv (cbc_encrypt key iv text) = text }.

(** ** The key schedule (prf/mod.rs) *)

Inductive CipherSuiteHash := Sha256Hash.

Module CipherSuiteHash.
Definition size (h : CipherSuiteHash) : nat := 32.
End CipherSuiteHash.

Record EncryptionKeys := mkEncryptionKeys {
  ek_master_secret : bytes;
  client_mac_key : bytes;
  server_mac_key : bytes;
  client_write_key : bytes;
  server_write_key : bytes;
  client_write_iv : bytes;
  server_write_iv : bytes }.

Section key_schedule.
  Context `{Crypto}.

Definition prf_psk_pre_master_secret (psk : bytes) : bytes :=
  let be := to_be_bytes 2 (as_u 16 (Z.of_nat (length psk))) in
  be ++ replicate (length psk) 0 ++ be ++ psk.

(** [HmacSha256::new_from_slice] takes keys of any length. *)
Definition hmac_sha (h : CipherSuiteHash) (key data : bytes) : bytes := hmac_sha256 key data.

Fixpoint prf_rounds (secret seed : bytes) (h : CipherSuiteHash) (iterations : nat) (last_round : bytes) : bytes :=
  match iterations with
  | O => []
  | S iterations =>
      let last_round := hmac_sha h secret last_round in
      let with_secret := hmac_sha h secret (last_round ++ seed) in
      with_secret ++ prf_rounds secret seed h iterations last_round
  end.

Definition prf_p_hash (secret seed : bytes) (requested_length : nat) (h : CipherSuiteHash) : result bytes :=
  let iterations := ((requested_length + CipherSuiteHash.size h - 1) / CipherSuiteHash.size h)%nat in
  bslice (prf_rounds secret seed h iterations seed) 0 requested_length.

Definition prf_extended_master_secret (pre_master_secret session_hash : bytes) (h : CipherSuiteHash) : result bytes :=
  prf_p_hash pre_master_secret (bytes_of_string "extended master secret" ++ session_hash) 48 h.

Definition prf_master_secret (pre_master_secret client_random server_random : bytes) (h : CipherSuiteHash) : result bytes :=
  prf_p_hash pre_master_secret (bytes_of_string "master secret" ++ client_random ++ server_random) 48 h.

Definition prf_encryption_keys (master_secret client_random server_random : bytes)
    (prf_mac_len prf_key_len prf_iv_len : nat) (h : CipherSuiteHash) : result EncryptionKeys :=
  let seed := bytes_of_string "key expansion" ++ server_random ++ client_random in
  material ← prf_p_hash master_secret seed (2 * prf_mac_len + 2 * prf_key_len + 2 * prf_iv_len) h;
  client_mac_key ← bslice material 0 prf_mac_len;
  key_material ← bslice_from material prf_mac_len;
  server_mac_key ← bslice key_material 0 prf_mac_len;
  key_material ← bslice_from key_material prf_mac_len;
  client_write_key ← bslice key_material 0 prf_key_len;
  key_material ← bslice_from key_material prf_key_len;
  server_write_key ← bslice key_material 0 prf_key_len;
  key_material ← bslice_from key_material prf_key_len;
  client_write_iv ← bslice key_material 0 prf_iv_len;
  key_material ← bslice_from key_material prf_iv_len;
  server_write_iv ← bslice key_material 0 prf_iv_len;
  Ok (mkEncryptionKeys master_secret client_mac_key server_mac_key client_write_key server_write_key
        client_write_iv server_write_iv).

Definition prf_verify_data (master_secret handshake_bodies : bytes) (label : string) (h : CipherSuiteHash) : result bytes :=
  prf_p_hash master_secret (bytes_of_string label ++ sha256 handshake_bodies) 12 h.

Definition prf_verify_data_client (master_secret handshake_bodies : bytes) (h : CipherSuiteHash) : result bytes :=
  prf_verify_data master_secret handshake_bodies "client finished" h.

Definition prf_verify_data_server (master_secret handshake_bodies : bytes) (h : CipherSuiteHash) : result bytes :=
  prf_verify_data master_secret handshake_bodies "server finished" h.

(** The pseudo header of a record: epoch and sequence number, type, version, length. *)
Definition record_fields (epoch sequence_number : Z) (t : ContentType) (v : ProtocolVersion) (payload_len : nat) : bytes :=
  to_be_bytes 2 epoch ++ drop 2 (to_be_bytes 8 sequence_number)
    ++ [ContentType.as_u8 t; major v; minor v] ++ to_be_bytes 2 (as_u 16 (Z.of_nat payload_len)).

Definition prf_mac (epoch sequence_number : Z) (t : ContentType) (v : ProtocolVersion) (payload key : bytes) : bytes :=
  hmac_sha1 key (record_fields epoch sequence_number t v (length payload) ++ payload).

Definition generate_aead_additional_data (h : RecordLayerHeader) (payload_len : nat) : bytes :=
  record_fields (epoch h) (sequence_number h) (content_type h) (protocol_version h) payload_len.

End key_schedule.

(** ** Record protection (crypto/) *)

(** [GenericArray::from_slice] *)
Definition generic_array (n : nat) (b : bytes) : result bytes :=
  if (length b =? n)%nat then Ok b else Panics ExplicitPanic.

(** The length in the header, after the payload has changed. *)
Definition set_record_length (r : bytes) : bytes :=
  let r_len := as_u 16 (Z.of_nat (length r - RECORD_LAYER_HEADER_SIZE)) in
  take (RECORD_LAYER_HEADER_SIZE - 2) r ++ to_be_bytes 2 r_len ++ drop RECORD_LAYER_HEADER_SIZE r.

Definition is_change_cipher_spec (h : RecordLayerHeader) : bool := bool_decide (content_type h = CtChangeCipherSpec).

Definition aead_error : Error := ErrOther "aead::Error".

(** GCM and CCM: four bytes of the nonce are the implicit part, eight are sent. *)
Section explicit.
  Context `{Crypto}.

Definition explicit_encrypt (a : aead) (key write_iv rng : bytes) (pkt_rlh : RecordLayerHeader) (raw : bytes)
    : result bytes :=
  payload ← bslice_from raw RECORD_LAYER_HEADER_SIZE;
  head ← bslice raw 0 RECORD_LAYER_HEADER_SIZE;
  iv ← bslice write_iv 0 4;
  nonce ← generic_array 12 (iv ++ take 8 rng);
  let additional_data := generate_aead_additional_data pkt_rlh (length payload) in
  match aead_seal a key nonce additional_data payload with
  | None => Err aead_error
  | Some buffer => Ok (set_record_length (head ++ drop 4 nonce ++ buffer))
  end.

Definition explicit_decrypt (a : aead) (key write_iv : bytes) (r : bytes) : result bytes :=
  '(h, _) ← RecordLayerHeader.unmarshal r;
  if is_change_cipher_spec h then Ok r
  else if (length r <=? RECORD_LAYER_HEADER_SIZE + 8)%nat then Err ErrNotEnoughRoomForNonce
  else
    iv ← bslice write_iv 0 4;
    explicit ← bslice r RECORD_LAYER_HEADER_SIZE (RECORD_LAYER_HEADER_SIZE + 8);
    nonce ← generic_array 12 (iv ++ explicit);
    out ← bslice_from r (RECORD_LAYER_HEADER_SIZE + 8);
    payload_len ← lift (checked_u 64 (Z.of_nat (length out) - Z.of_nat (tag_length a)));
    let additional_data := generate_aead_additional_data h (Z.to_nat payload_len) in
    match aead_open a key nonce additional_data out with
    | None => Err aead_error
    | Some buffer => head ← bslice r 0 RECORD_LAYER_HEADER_SIZE; Ok (head ++ buffer)
    end.
End explicit.

Record CryptoGcm := mkCryptoGcm {
  gcm_local_key : bytes;
  gcm_remote_key : bytes;
  gcm_local_write_iv : bytes;
  gcm_remote_write_iv : bytes }.

Module CryptoGcm.
Section operations.
  Context `{Crypto}.

Definition new (local_key local_write_iv remote_key remote_write_iv : bytes) : result CryptoGcm :=
  local_key ← generic_array 16 local_key;
  remote_key ← generic_array 16 remote_key;
  Ok (mkCryptoGcm local_key remote_key local_write_iv remote_write_iv).

Definition encrypt (c : CryptoGcm) : bytes -> RecordLayerHeader -> bytes -> result bytes :=
  explicit_encrypt Aes128Gcm (gcm_local_key c) (gcm_local_write_iv c).

Definition decrypt (c : CryptoGcm) : bytes -> result bytes :=
  explicit_decrypt Aes128Gcm (gcm_remote_key c) (gcm_remote_write_iv c).
End operations.
End CryptoGcm.

Inductive CryptoCcmTagLen := CryptoCcm8TagLength | CryptoCcmTagLength.

(** The AEAD of a [CryptoCcmType]. *)
Definition ccm_aead (tag_len : CryptoCcmTagLen) : aead :=
  match tag_len with CryptoCcmTagLength => Aes128Ccm | CryptoCcm8TagLength => Aes128Ccm8 end.

Record CryptoCcm := mkCryptoCcm {
  ccm_type : CryptoCcmTagLen;
  ccm_local_key : bytes;
  ccm_remote_key : bytes;
  ccm_local_write_iv : bytes;
  ccm_remote_write_iv : bytes }.

Module CryptoCcm.
Section operations.
  Context `{Crypto}.

Definition new (tag_len : CryptoCcmTagLen) (local_key local_write_iv remote_key remote_write_iv : bytes)
    : result CryptoCcm :=
  local_key ← generic_array 16 local_key;
  remote_key ← generic_array 16 remote_key;
  Ok (mkCryptoCcm tag_len local_key remote_key local_write_iv remote_write_iv).

Definition encrypt (c : CryptoCcm) : bytes -> RecordLayerHeader -> bytes -> result bytes :=
  explicit_encrypt (ccm_aead (ccm_type c)) (ccm_local_key c) (ccm_local_write_iv c).

Definition decrypt (c : CryptoCcm) : bytes -> result bytes :=
  explicit_decrypt (ccm_aead (ccm_type c)) (ccm_remote_key c) (ccm_remote_write_iv c).
End operations.
End CryptoCcm.

Record CryptoChaCha20 := mkCryptoChaCha20 {
  cc_local_key : bytes;
  cc_remote_key : bytes;
  cc_local_write_iv : bytes;
  cc_remote_write_iv : bytes }.

(** [for i in 0..8 { nonce[i + 4] ^= .. }] *)
Definition noncegen (nonce : bytes) (epoch seqnum : Z) : result bytes :=
  let seqnum := Z.lor (Z.land seqnum 0xFFFFFFFFFFFF) (Z.shiftl epoch 48) in
  if (length nonce <? 12)%nat then Panics IndexOutOfBounds
  else Ok (take 4 nonce ++ zip_with Z.lxor (take 8 (drop 4 nonce)) (to_be_bytes 8 seqnum) ++ drop 12 nonce).

Module CryptoChaCha20.
Section operations.
  Context `{Crypto}.

Definition new (local_key local_write_iv remote_key remote_write_iv : bytes) : result CryptoChaCha20 :=
  local_key ← generic_array 32 local_key;
  remote_key ← generic_array 32 remote_key;
  Ok (mkCryptoChaCha20 local_key remote_key local_write_iv remote_write_iv).

Definition encrypt (c : CryptoChaCha20) (pkt_rlh : RecordLayerHeader) (raw : bytes) : result bytes :=
  payload ← bslice_from raw RECORD_LAYER_HEADER_SIZE;
  head ← bslice raw 0 RECORD_LAYER_HEADER_SIZE;
  iv ← bslice (cc_local_write_iv c) 0 12;
  nonce ← noncegen iv (epoch pkt_rlh) (sequence_number pkt_rlh);
  nonce ← generic_array 12 nonce;
  let additional_data := generate_aead_additional_data pkt_rlh (length payload) in
  match aead_seal ChaCha20Poly1305 (cc_local_key c) nonce additional_data payload with
  | None => Err aead_error
  | Some buffer => Ok (set_record_length (head ++ buffer))
  end.

Definition decrypt (c : CryptoChaCha20) (r : bytes) : result bytes :=
  '(h, _) ← RecordLayerHeader.unmarshal r;
  if is_change_cipher_spec h then Ok r
  else
    nonce ← noncegen (cc_remote_write_iv c) (epoch h) (sequence_number h);
    nonce ← generic_array 12 nonce;
    out ← bslice_from r RECORD_LAYER_HEADER_SIZE;
    payload_len ← lift (checked_u 64 (Z.of_nat (length out) - 16));
    let additional_data := generate_aead_additional_data h (Z.to_nat payload_len) in
    match aead_open ChaCha20Poly1305 (cc_remote_key c) nonce additional_data out with
    | None => Err aead_error
    | Some buffer => head ← bslice r 0 RECORD_LAYER_HEADER_SIZE; Ok (head ++ buffer)
    end.
End operations.
End CryptoChaCha20.

(** [DtlsPadding] on blocks of 16 bytes: at least one byte, each the number of the others. *)
Module DtlsPadding.
Definition raw_pad (block_size pos : nat) (block : bytes) : result bytes :=
  if (block_size <=? pos)%nat then Panics ExplicitPanic
  else
    let padding_length := (block_size - pos - 1)%nat in
    if (255 <? padding_length)%nat then Panics ExplicitPanic
    else Ok (take pos block ++ replicate (block_size - pos) (Z.of_nat padding_length)).

Definition raw_unpad (data : bytes) : option bytes :=
  let padding_length := Z.to_nat (default 1 (last data)) in
  if (length data <? padding_length + 1)%nat then None
  else
    let padding_begin := (length data - padding_length - 1)%nat in
    if existsb (fun byte => negb (Z.to_nat byte =? padding_length)%nat)
         (take (length data - 1 - padding_begin) (drop padding_begin data))
    then None else Some (take padding_begin data).
End DtlsPadding.

Record CryptoCbc := mkCryptoCbc {
  cbc_local_key : bytes;
  cbc_remote_key : bytes;
  cbc_write_mac : bytes;
  cbc_read_mac : bytes }.

Module CryptoCbc.
Definition BLOCK_SIZE : nat := 16.
Definition MAC_SIZE : nat := 20.

Section operations.
  Context `{Crypto}.

Definition new (local_key local_mac remote_key remote_mac : bytes) : CryptoCbc :=
  mkCryptoCbc local_key remote_key local_mac remote_mac.

(** [encrypt_padded_vec_mut] pads the last block, of which [length mod 16] bytes are text. *)
Definition encrypt_padded (key iv text : bytes) : result bytes :=
  let pos := (length text mod BLOCK_SIZE)%nat in
  block ← DtlsPadding.raw_pad BLOCK_SIZE pos (drop (length text - pos) text);
  Ok (cbc_encrypt key iv (take (length text - pos) text ++ block)).

(** [decrypt_padded_vec_mut] removes the padding of the last block. *)
Definition decrypt_padded (key iv text : bytes) : option bytes :=
  let plain := cbc_decrypt key iv text in
  let n := (length plain - BLOCK_SIZE)%nat in
  block ← DtlsPadding.raw_unpad (drop n plain);
  Some (take n plain ++ block).

(** [new_from_slices] *)
Definition check_lengths (key iv : bytes) : result unit :=
  if (length key =? 32)%nat && (length iv =? 16)%nat then Ok tt else Err ErrAes.

Definition encrypt (c : CryptoCbc) (rng : bytes) (pkt_rlh : RecordLayerHeader) (raw : bytes) : result bytes :=
  payload ← bslice_from raw RECORD_LAYER_HEADER_SIZE;
  head ← bslice raw 0 RECORD_LAYER_HEADER_SIZE;
  let h := pkt_rlh in
  let mac := prf_mac (epoch h) (sequence_number h) (content_type h) (protocol_version h) payload (cbc_write_mac c) in
  let payload := payload ++ mac in
  let iv := take BLOCK_SIZE rng in
  _ ← check_lengths (cbc_local_key c) iv;
  encrypted ← encrypt_padded (cbc_local_key c) iv payload;
  Ok (set_record_length (head ++ iv ++ encrypted)).

Definition decrypt (c : CryptoCbc) (r : bytes) : result bytes :=
  '(h, _) ← RecordLayerHeader.unmarshal r;
  if is_change_cipher_spec h then Ok r
  else if (length r <? RECORD_LAYER_HEADER_SIZE + BLOCK_SIZE)%nat then Err ErrInvalidPacketLength
  else
    body ← bslice_from r RECORD_LAYER_HEADER_SIZE;
    iv ← bslice body 0 BLOCK_SIZE;
    body ← bslice_from body BLOCK_SIZE;
    if is_empty body || negb (length body mod BLOCK_SIZE =? 0)%nat then Err ErrInvalidPacketLength
    else
      _ ← check_lengths (cbc_remote_key c) iv;
      match decrypt_padded (cbc_remote_key c) iv body with
      | None => Err ErrInvalidPacketLength
      | Some decrypted =>
          n ← lift (checked_u 64 (Z.of_nat (length decrypted) - Z.of_nat MAC_SIZE));
          recv_mac ← bslice_from decrypted (Z.to_nat n);
          decrypted ← bslice decrypted 0 (Z.to_nat n);
          let mac :=
            prf_mac (epoch h) (sequence_number h) (content_type h) (protocol_version h) decrypted (cbc_read_mac c) in
          if negb (bool_decide (recv_mac = mac)) then Err ErrInvalidMac
          else head ← bslice r 0 RECORD_LAYER_HEADER_SIZE; Ok (head ++ decrypted)
      end.
End operations.
End CryptoCbc.

(** ** The suites (cipher_suite/) *)

Inductive CipherSuite :=
  | CipherSuiteAes128GcmSha256 (gcm : option CryptoGcm) (rsa : bool)
  | CipherSuiteAes256CbcSha (cbc : option CryptoCbc) (rsa : bool)
  | CipherSuiteChaCha20Poly1305Sha256 (rsa : bool) (cipher : option CryptoChaCha20)
  | CipherSuiteAes128Ccm (ccm : option CryptoCcm) (client_certificate_type : ClientCertificateType)
      (id : CipherSuiteId) (psk : bool) (crypto_ccm_tag_len : CryptoCcmTagLen)
  | CipherSuiteTlsPskWithAes128GcmSha256 (gcm : option CryptoGcm).

Module CipherSuite.
Definition id (c : CipherSuite) : CipherSuiteId :=
  match c with
  | CipherSuiteAes128GcmSha256 _ rsa =>
      if rsa then Tls_Ecdhe_Rsa_With_Aes_128_Gcm_Sha256 else Tls_Ecdhe_Ecdsa_With_Aes_128_Gcm_Sha256
  | CipherSuiteAes256CbcSha _ rsa =>
      if rsa then Tls_Ecdhe_Rsa_With_Aes_256_Cbc_Sha else Tls_Ecdhe_Ecdsa_With_Aes_256_Cbc_Sha
  | CipherSuiteChaCha20Poly1305Sha256 rsa _ =>
      if rsa then Tls_Ecdhe_Rsa_With_ChaCha20_Poly1305_Sha256 else Tls_Ecdhe_Ecdsa_With_ChaCha20_Poly1305_Sha256
  | CipherSuiteAes128Ccm _ _ id _ _ => id
  | CipherSuiteTlsPskWithAes128GcmSha256 _ => Tls_Psk_With_Aes_128_Gcm_Sha256
  end.

Definition certificate_type (c : CipherSuite) : ClientCertificateType :=
  match c with
  | CipherSuiteAes128GcmSha256 _ rsa | CipherSuiteAes256CbcSha _ rsa
  | CipherSuiteChaCha20Poly1305Sha256 rsa _ => if rsa then RsaSign else EcdsaSign
  | CipherSuiteAes128Ccm _ t _ _ _ => t
  | CipherSuiteTlsPskWithAes128GcmSha256 _ => UnsupportedCertificateType
  end.

Definition hash_func (c : CipherSuite) : CipherSuiteHash := Sha256Hash.

Definition is_psk (c : CipherSuite) : bool :=
  match c with
  | CipherSuiteAes128Ccm _ _ _ psk _ => psk
  | CipherSuiteTlsPskWithAes128GcmSha256 _ => true
  | _ => false
  end.

Definition is_some {A} (o : option A) : bool := match o with Some _ => true | None => false end.

Definition is_initialized (c : CipherSuite) : bool :=
  match c with
  | CipherSuiteAes128GcmSha256 gcm _ | CipherSuiteTlsPskWithAes128GcmSha256 gcm => is_some gcm
  | CipherSuiteAes256CbcSha cbc _ => is_some cbc
  | CipherSuiteChaCha20Poly1305Sha256 _ cipher => is_some cipher
  | CipherSuiteAes128Ccm ccm _ _ _ _ => is_some ccm
  end.

(** [PRF_MAC_LEN], [PRF_KEY_LEN] and [PRF_IV_LEN] of a suite. *)
Definition prf_lengths (c : CipherSuite) : nat * nat * nat :=
  match c with
  | CipherSuiteAes256CbcSha _ _ => (20, 32, 16)%nat
  | CipherSuiteChaCha20Poly1305Sha256 _ _ => (0, 32, 12)%nat
  | _ => (0, 16, 4)%nat
  end.

Section operations.
  Context `{Crypto}.

(** The keys of the own side first. *)
Definition own_keys (is_client : bool) (keys : EncryptionKeys) : (bytes * bytes * bytes) * (bytes * bytes * bytes) :=
  let client := (client_write_key keys, client_write_iv keys, client_mac_key keys) in
  let server := (server_write_key keys, server_write_iv keys, server_mac_key keys) in
  if is_client then (client, server) else (server, client).

Definition init (c : CipherSuite) (master_secret client_random server_random : bytes) (is_client : bool)
    : result CipherSuite :=
  let '(mac_len, key_len, iv_len) := prf_lengths c in
  keys ← prf_encryption_keys master_secret client_random server_random mac_len key_len iv_len (hash_func c);
  let '((local_key, local_iv, local_mac), (remote_key, remote_iv, remote_mac)) := own_keys is_client keys in
  match c with
  | CipherSuiteAes128GcmSha256 _ rsa =>
      gcm ← CryptoGcm.new local_key local_iv remote_key remote_iv; Ok (CipherSuiteAes128GcmSha256 (Some gcm) rsa)
  | CipherSuiteAes256CbcSha _ rsa =>
      Ok (CipherSuiteAes256CbcSha (Some (CryptoCbc.new local_key local_mac remote_key remote_mac)) rsa)
  | CipherSuiteChaCha20Poly1305Sha256 rsa _ =>
      cipher ← CryptoChaCha20.new local_key local_iv remote_key remote_iv;
      Ok (CipherSuiteChaCha20Poly1305Sha256 rsa (Some cipher))
  | CipherSuiteAes128Ccm _ t id psk tag_len =>
      ccm ← CryptoCcm.new tag_len local_key local_iv remote_key remote_iv;
      Ok (CipherSuiteAes128Ccm (Some ccm) t id psk tag_len)
  | CipherSuiteTlsPskWithAes128GcmSha256 _ =>
      gcm ← CryptoGcm.new local_key local_iv remote_key remote_iv; Ok (CipherSuiteTlsPskWithAes128GcmSha256 (Some gcm))
  end.

(** [self.gcm.as_ref().ok_or(..)?] *)
Definition initialized {A} (o : option A) (what : string) : result A :=
  match o with
  | Some a => Ok a
  | None => Err (ErrOther (String.append "CipherSuite has not been initialized, unable to " what))
  end.

Definition encrypt (c : CipherSuite) (rng : bytes) (pkt_rlh : RecordLayerHeader) (raw : bytes) : result bytes :=
  match c with
  | CipherSuiteAes128GcmSha256 gcm _ | CipherSuiteTlsPskWithAes128GcmSha256 gcm =>
      cg ← initialized gcm "encrypt"; CryptoGcm.encrypt cg rng pkt_rlh raw
  | CipherSuiteAes256CbcSha cbc _ => cg ← initialized cbc "encrypt"; CryptoCbc.encrypt cg rng pkt_rlh raw
  | CipherSuiteChaCha20Poly1305Sha256 _ cipher =>
      cg ← initialized cipher "encrypt"; CryptoChaCha20.encrypt cg pkt_rlh raw
  | CipherSuiteAes128Ccm ccm _ _ _ _ => ccm ← initialized ccm "encrypt"; CryptoCcm.encrypt ccm rng pkt_rlh raw
  end.

Definition decrypt (c : CipherSuite) (input : bytes) : result bytes :=
  match c with
  | CipherSuiteAes128GcmSha256 gcm _ | CipherSuiteTlsPskWithAes128GcmSha256 gcm =>
      cg ← initialized gcm "decrypt"; CryptoGcm.decrypt cg input
  | CipherSuiteAes256CbcSha cbc _ => cg ← initialized cbc "decrypt"; CryptoCbc.decrypt cg input
  | CipherSuiteChaCha20Poly1305Sha256 _ cipher =>
      cg ← initialized cipher "decrypt"; CryptoChaCha20.decrypt cg input
  | CipherSuiteAes128Ccm ccm _ _ _ _ => ccm ← initialized ccm "decrypt"; CryptoCcm.decrypt ccm input
  end.
End operations.
End CipherSuite.

(** The [new_cipher_suite_tls_..] functions and [cipher_suite_for_id]. *)
Definition cipher_suite_for_id (id : CipherSuiteId) : result CipherSuite :=
  match id with
  | Tls_Ecdhe_Ecdsa_With_Aes_128_Ccm => Ok (CipherSuiteAes128Ccm None EcdsaSign id false CryptoCcmTagLength)
  | Tls_Ecdhe_Ecdsa_With_Aes_128_Ccm_8 => Ok (CipherSuiteAes128Ccm None EcdsaSign id false CryptoCcm8TagLength)
  | Tls_Ecdhe_Ecdsa_With_Aes_128_Gcm_Sha256 => Ok (CipherSuiteAes128GcmSha256 None false)
  | Tls_Ecdhe_Rsa_With_Aes_128_Gcm_Sha256 => Ok (CipherSuiteAes128GcmSha256 None true)
  | Tls_Ecdhe_Rsa_With_Aes_256_Cbc_Sha => Ok (CipherSuiteAes256CbcSha None true)
  | Tls_Ecdhe_Ecdsa_With_Aes_256_Cbc_Sha => Ok (CipherSuiteAes256CbcSha None false)
  | Tls_Psk_With_Aes_128_Ccm => Ok (CipherSuiteAes128Ccm None UnsupportedCertificateType id true CryptoCcmTagLength)
  | Tls_Psk_With_Aes_128_Ccm_8 => Ok (CipherSuiteAes128Ccm None UnsupportedCertificateType id true CryptoCcm8TagLength)
  | Tls_Psk_With_Aes_128_Gcm_Sha256 => Ok (CipherSuiteTlsPskWithAes128GcmSha256 None)
  | Tls_Ecdhe_Rsa_With_ChaCha20_Poly1305_Sha256 => Ok (CipherSuiteChaCha20Poly1305Sha256 true None)
  | Tls_Ecdhe_Ecdsa_With_ChaCha20_Poly1305_Sha256 => Ok (CipherSuiteChaCha20Poly1305Sha256 false None)
  | UnsupportedSuite => Err ErrInvalidCipherSuite
  end.

(** In order of preference. *)
Definition default_cipher_suites : list CipherSuite :=
  [CipherSuiteAes128GcmSha256 None false; CipherSuiteAes256CbcSha None false; CipherSuiteAes128GcmSha256 None true;
   CipherSuiteAes256CbcSha None true; CipherSuiteChaCha20Poly1305Sha256 false None].

Fixpoint cipher_suites_for_ids (ids : list CipherSuiteId) : result (list CipherSuite) :=
  match ids with
  | [] => Ok []
  | id :: ids => c ← cipher_suite_for_id id; cs ← cipher_suites_for_ids ids; Ok (c :: cs)
  end.

Definition parse_cipher_suites (user_selected_suites : list CipherSuiteId) (exclude_psk exclude_non_psk : bool)
    : result (list CipherSuite) :=
  cipher_suites ← (if negb (is_empty user_selected_suites) then cipher_suites_for_ids user_selected_suites
                   else Ok default_cipher_suites);
  let filtered := List.filter
    (fun c => negb ((exclude_psk && CipherSuite.is_psk c) || (exclude_non_psk && negb (CipherSuite.is_psk c))))
    cipher_suites in
  if is_empty filtered then Err ErrNoAvailableCipherSuites else Ok filtered.

(** ** The key schedule gives both sides the same keys *)

Ltac ok_bind := cbn [mbind fallible_bind].

Lemma bslice_Ok {E} (b : bytes) n m : (n <= m)%nat -> (m <= length b)%nat -> @bslice E b n m = Ok (take (m - n) (drop n b)).
Proof. intros Hn Hm. unfold bslice. by rewrite slice_Ret. Qed.

Lemma bslice_front {E} (b : bytes) n : (n <= length b)%nat -> @bslice E b 0 n = Ok (take n b).
Proof. intros Hn. rewrite bslice_Ok by lia. by rewrite Nat.sub_0_r, drop_0. Qed.

Lemma bslice_from_Ok {E} (b : bytes) n : (n <= length b)%nat -> @bslice_from E b n = Ok (drop n b).
Proof.
  intros Hn. unfold bslice_from. rewrite bslice_Ok by lia. rewrite take_ge; [done|]. rewrite length_drop. lia.
Qed.

Section laws.
  Context `{CryptoLaws}.

Lemma prf_rounds_length secret seed h n last : length (prf_rounds secret seed h n last) = (n * 32)%nat.
Proof.
  revert last. induction n as [|n IH]; intros last; [done|]. cbn [prf_rounds].
  rewrite length_app, IH. unfold hmac_sha. rewrite hmac_sha256_length. lia.
Qed.

Lemma prf_p_hash_Ok secret seed n h : exists out, prf_p_hash secret seed n h = Ok out /\ length out = n.
Proof.
  unfold prf_p_hash, CipherSuiteHash.size. set (it := ((n + 32 - 1) / 32)%nat).
  assert (n <= it * 32)%nat as Hit.
  { pose proof (Nat.div_mod_eq (n + 32 - 1) 32). pose proof (Nat.mod_upper_bound (n + 32 - 1) 32 ltac:(lia)).
    unfold it. lia. }
  pose proof (prf_rounds_length secret seed h it seed) as Hl.
  rewrite bslice_front by lia. eexists. split; [done|]. rewrite length_take. lia.
Qed.

Record wf_keys (mac_len key_len iv_len : nat) (k : EncryptionKeys) : Prop := {
  wk_client_mac : length (client_mac_key k) = mac_len;
  wk_server_mac : length (server_mac_key k) = mac_len;
  wk_client_key : length (client_write_key k) = key_len;
  wk_server_key : length (server_write_key k) = key_len;
  wk_client_iv : length (client_write_iv k) = iv_len;
  wk_server_iv : length (server_write_iv k) = iv_len }.

Lemma encryption_keys_Ok ms cr sr mac_len key_len iv_len h :
  exists k, prf_encryption_keys ms cr sr mac_len key_len iv_len h = Ok k /\ wf_keys mac_len key_len iv_len k.
Proof.
  unfold prf_encryption_keys. destruct (prf_p_hash_Ok ms (bytes_of_string "key expansion" ++ sr ++ cr)
    (2 * mac_len + 2 * key_len + 2 * iv_len) h) as (m & -> & Hm). ok_bind.
  repeat (first [ rewrite bslice_front by (rewrite ?length_drop; lia)
               | rewrite bslice_from_Ok by (rewrite ?length_drop; lia) ]; ok_bind).
  eexists. split; [reflexivity|]. split; cbn; rewrite ?length_take, ?length_drop; lia.
Qed.

(** ** Protected records are recovered *)

Definition wf_header (h : RecordLayerHeader) : Prop :=
  (protocol_version h = PROTOCOL_VERSION1_0 \/ protocol_version h = PROTOCOL_VERSION1_2)
  /\ is_u 16 (epoch h) /\ is_u 48 (sequence_number h) /\ is_u 16 (content_len h)
  /\ content_type h <> CtInvalid /\ content_type h <> CtChangeCipherSpec.

Definition with_length (h : RecordLayerHeader) (n : nat) : RecordLayerHeader :=
  mkRecordLayerHeader (content_type h) (protocol_version h) (epoch h) (sequence_number h) (as_u 16 (Z.of_nat n)).

(** Only the two bytes of the length change in the header. *)
Lemma set_record_length_app h hb rest :
  RecordLayerHeader.marshal h = Ok hb -> length hb = RECORD_LAYER_HEADER_SIZE ->
  exists hb', set_record_length (hb ++ rest) = hb' ++ rest
    /\ RecordLayerHeader.marshal (with_length h (length rest)) = Ok hb'.
Proof using Type.
  intros Hm Hl. unfold RecordLayerHeader.marshal in *. cbn [sequence_number with_length].
  destruct (_ <? _); [done|]. apply (inj Ok) in Hm. eexists. split; [|reflexivity].
  cbn [content_type protocol_version epoch content_len with_length].
  unfold set_record_length. rewrite length_app, Hl. replace (_ + length rest - _)%nat with (length rest) by lia.
  rewrite drop_app_length' by done. rewrite (assoc_L (++)). f_equal.
  rewrite take_app_le by (rewrite Hl; unfold RECORD_LAYER_HEADER_SIZE; lia).
  rewrite <-Hm, !(assoc_L (++)). rewrite take_app_length'.
  - unfold write_u16. rewrite (as_u_small 16 (as_u _ _)) by (apply as_u_range; lia). done.
  - rewrite <-Hm, !(assoc_L (++)), length_app, length_write_u16 in Hl. unfold RECORD_LAYER_HEADER_SIZE in *. lia.
Qed.

Lemma header_codes h :
  wf_header h -> codes (RecordLayerHeader.marshal h) RECORD_LAYER_HEADER_SIZE RecordLayerHeader.unmarshal h.
Proof using Type. intros (Hv & He & Hs & Hl & Ht & _). by apply record_header_codes. Qed.

Lemma with_length_wf h n : wf_header h -> wf_header (with_length h n).
Proof using Type. 
  intros (Hv & He & Hs & Hl & Ht & Hc). split; [done|]. split; [done|]. split; [done|].
  split; [by apply as_u_range|done].
Qed.

Lemma generic_array_Ok n b : length b = n -> generic_array n b = Ok b.
Proof using Type. intros Hn. unfold generic_array. by rewrite (proj2 (Nat.eqb_eq _ _)). Qed.

(** A protected record: its header with the new length, and what decryption makes of it. *)
Definition recovered (h : RecordLayerHeader) (payload : bytes) (e : result bytes) (decrypt : bytes -> result bytes)
    : Prop :=
  exists r hb', e = Ok r /\ decrypt r = Ok (hb' ++ payload)
    /\ RecordLayerHeader.marshal (with_length h (length r - RECORD_LAYER_HEADER_SIZE)) = Ok hb'
    /\ take RECORD_LAYER_HEADER_SIZE r = hb'
    /\ (length payload < length r - RECORD_LAYER_HEADER_SIZE <= length payload + 64)%nat.

Lemma recovered_intro h hb payload rest decrypt :
  wf_header h -> RecordLayerHeader.marshal h = Ok hb -> (length payload < length rest <= length payload + 64)%nat ->
  (forall hb', length hb' = RECORD_LAYER_HEADER_SIZE ->
     RecordLayerHeader.unmarshal (hb' ++ rest) = Ok (with_length h (length rest), rest) ->
     decrypt (hb' ++ rest) = Ok (hb' ++ payload)) ->
  recovered h payload (Ok (set_record_length (hb ++ rest))) decrypt.
Proof using Type.
  intros Hh Hhb Hrest Hd. destruct (header_codes h Hh) as (hb0 & Hm0 & Hl & _).
  rewrite Hhb in Hm0. apply (inj Ok) in Hm0 as <-.
  destruct (set_record_length_app h hb rest Hhb Hl) as (hb' & -> & Hm').
  destruct (header_codes _ (with_length_wf h (length rest) Hh)) as (hb1 & Hm1 & Hl1 & Hu1).
  rewrite Hm' in Hm1. apply (inj Ok) in Hm1 as <-. exists (hb' ++ rest), hb'.
  split; [done|]. split; [by apply Hd|]. rewrite length_app.
  replace (_ + length rest - _)%nat with (length rest) by lia. split; [done|]. by rewrite take_app_length'.
Qed.

Lemma header_length h hb : wf_header h -> RecordLayerHeader.marshal h = Ok hb -> length hb = RECORD_LAYER_HEADER_SIZE.
Proof using Type.
  intros Hh Hhb. destruct (header_codes h Hh) as (hb0 & Hm0 & Hl & _). rewrite Hhb in Hm0. by apply (inj Ok) in Hm0 as <-.
Qed.

Lemma with_length_no_ccs h n : wf_header h -> is_change_cipher_spec (with_length h n) = false.
Proof using Type. intros (_ & _ & _ & _ & _ & Hccs). by apply bool_decide_eq_false_2. Qed.

(** The two parts of a record. *)
Lemma record_parts hb payload :
  length hb = RECORD_LAYER_HEADER_SIZE ->
  @bslice_from Error (hb ++ payload) RECORD_LAYER_HEADER_SIZE = Ok payload
  /\ @bslice Error (hb ++ payload) 0 RECORD_LAYER_HEADER_SIZE = Ok hb.
Proof using Type.
  intros Hl. split; [by apply bslice_from_app|]. by rewrite bslice_front, take_app_length' by (rewrite ?length_app; lia).
Qed.

Lemma explicit_roundtrip a key iv rng h hb payload :
  wf_header h -> RecordLayerHeader.marshal h = Ok hb ->
  length key = key_length a -> length iv = 4%nat -> (8 <= length rng)%nat -> Z.of_nat (length payload) < 2 ^ 24 ->
  recovered h payload (explicit_encrypt a key iv rng h (hb ++ payload)) (explicit_decrypt a key iv).
Proof.
  intros Hh Hhb Hkey Hiv Hrng Hp. pose proof (header_length h hb Hh Hhb) as Hl. unfold explicit_encrypt.
  destruct (record_parts hb payload Hl) as [-> ->]. ok_bind. rewrite bslice_front by lia. ok_bind.
  rewrite take_ge by lia.
  assert (length (iv ++ take 8 rng) = 12%nat) as Hn by (rewrite length_app, length_take; lia).
  rewrite generic_array_Ok by done. ok_bind.
  destruct (seal_open a key (iv ++ take 8 rng) (generate_aead_additional_data h (length payload)) payload)
    as (sealed & -> & Hsl & Hopen); [done..|].
  assert (8 <= tag_length a <= 16)%nat as Ht by (destruct a; cbn; lia).
  rewrite drop_app_length' by done.
  apply recovered_intro; [done|done|rewrite length_app, length_take; lia|]. intros hb' Hl' Hu.
  assert (length (take 8 rng) = 8%nat) as H8 by (rewrite length_take; lia).
  unfold explicit_decrypt. rewrite Hu. ok_bind. rewrite with_length_no_ccs by done.
  rewrite (proj2 (Nat.leb_gt _ _)) by (rewrite !length_app; lia).
  rewrite (bslice_front iv) by lia. ok_bind. rewrite (take_ge iv) by lia.
  assert (bslice (hb' ++ take 8 rng ++ sealed) RECORD_LAYER_HEADER_SIZE (RECORD_LAYER_HEADER_SIZE + 8)
    = @Ok Error _ (take 8 rng)) as -> by (apply bslice_app; lia).
  ok_bind. rewrite generic_array_Ok by done. ok_bind.
  destruct (record_parts hb' (take 8 rng ++ sealed) Hl') as [_ ->].
  assert (bslice_from (hb' ++ take 8 rng ++ sealed) (RECORD_LAYER_HEADER_SIZE + 8) = @Ok Error _ sealed) as ->
    by (rewrite (assoc_L (++)); apply bslice_from_app; rewrite length_app; lia).
  ok_bind. rewrite Hsl, checked_u_Ret by bounds. cbn [lift]. ok_bind.
  replace (Z.to_nat _) with (length payload) by lia.
  change (generate_aead_additional_data (with_length h _) (length payload))
    with (generate_aead_additional_data h (length payload)).
  by rewrite Hopen.
Qed.

Lemma noncegen_Ok iv e s : length iv = 12%nat -> exists nonce, noncegen iv e s = Ok nonce /\ length nonce = 12%nat.
Proof using Type.
  intros Hiv. unfold noncegen. rewrite (proj2 (Nat.ltb_ge _ _)) by lia. eexists. split; [done|].
  rewrite !length_app, length_zip_with, !length_take, !length_drop, length_to_be_bytes. lia.
Qed.

Lemma chacha_roundtrip local remote h hb payload :
  wf_header h -> RecordLayerHeader.marshal h = Ok hb ->
  cc_local_key local = cc_remote_key remote -> cc_local_write_iv local = cc_remote_write_iv remote ->
  length (cc_local_key local) = 32%nat -> length (cc_local_write_iv local) = 12%nat ->
  Z.of_nat (length payload) < 2 ^ 24 ->
  recovered h payload (CryptoChaCha20.encrypt local h (hb ++ payload)) (CryptoChaCha20.decrypt remote).
Proof.
  intros Hh Hhb Hk Hiv Hkl Hivl Hp. pose proof (header_length h hb Hh Hhb) as Hl. unfold CryptoChaCha20.encrypt.
  destruct (record_parts hb payload Hl) as [-> ->]. ok_bind. rewrite bslice_front by lia. ok_bind.
  rewrite take_ge by lia. destruct (noncegen_Ok _ (epoch h) (sequence_number h) Hivl) as (nonce & Hng & Hn).
  rewrite Hng. ok_bind. rewrite generic_array_Ok by done. ok_bind.
  destruct (seal_open ChaCha20Poly1305 (cc_local_key local) nonce (generate_aead_additional_data h (length payload)) payload)
    as (sealed & -> & Hsl & Hopen); [done..|]. cbn [tag_length] in Hsl.
  apply recovered_intro; [done|done|lia|]. intros hb' Hl' Hu. unfold CryptoChaCha20.decrypt. rewrite Hu. ok_bind.
  rewrite with_length_no_ccs by done. rewrite <-Hiv. cbn [epoch sequence_number with_length]. rewrite Hng. ok_bind.
  rewrite generic_array_Ok by done. ok_bind. destruct (record_parts hb' sealed Hl') as [-> ->]. ok_bind.
  rewrite Hsl, checked_u_Ret by bounds. cbn [lift]. ok_bind. replace (Z.to_nat _) with (length payload) by lia.
  change (generate_aead_additional_data (with_length h _) (length payload))
    with (generate_aead_additional_data h (length payload)).
  by rewrite <-Hk, Hopen.
Qed.

Lemma unpad_pad text pos :
  length text = pos -> (pos < 16)%nat ->
  exists block, DtlsPadding.raw_pad 16 pos text = Ok block /\ length block = 16%nat
    /\ DtlsPadding.raw_unpad block = Some text.
Proof using Type.
  intros Hl Hp. unfold DtlsPadding.raw_pad.
  rewrite (proj2 (Nat.leb_gt _ _)), (proj2 (Nat.ltb_ge _ _)) by lia. rewrite take_ge by lia.
  eexists. split; [reflexivity|]. set (v := Z.of_nat (16 - pos - 1)).
  assert (length (text ++ replicate (16 - pos) v) = 16%nat) as H16 by (rewrite length_app, length_replicate; lia).
  split; [done|]. unfold DtlsPadding.raw_unpad.
  assert (last (text ++ replicate (16 - pos) v) = Some v) as ->.
  { replace (16 - pos)%nat with (S (15 - pos)) by lia. rewrite replicate_S_end, (assoc_L (++)). apply last_snoc. }
  cbn [default from_option id]. assert (Z.to_nat v = 16 - pos - 1)%nat as Hv by lia.
  rewrite Hv, H16, (proj2 (Nat.ltb_ge _ _)) by lia.
  replace (16 - (16 - pos - 1) - 1)%nat with pos by lia. rewrite take_app_length', drop_app_length' by done.
  replace (existsb _ _) with false; [done|]. symmetry. apply not_true_iff_false. rewrite existsb_exists.
  intros (x & Hx & Hne). rewrite take_replicate in Hx.
  apply list_elem_of_In, elem_of_replicate_inv in Hx as ->. by rewrite Hv, Nat.eqb_refl in Hne.
Qed.

Lemma padded_roundtrip key iv text :
  exists c, CryptoCbc.encrypt_padded key iv text = Ok c
    /\ (length c mod 16 = 0)%nat /\ (length text < length c <= length text + 16)%nat
    /\ CryptoCbc.decrypt_padded key iv c = Some text.
Proof.
  unfold CryptoCbc.encrypt_padded, CryptoCbc.decrypt_padded, CryptoCbc.BLOCK_SIZE.
  set (pos := (length text mod 16)%nat). pose proof (Nat.mod_upper_bound (length text) 16 ltac:(lia)) as Hp.
  pose proof (Nat.div_mod_eq (length text) 16) as Hd. fold pos in Hp, Hd.
  destruct (unpad_pad (drop (length text - pos) text) pos) as (block & -> & Hb & Hu); [rewrite length_drop; lia|done|].
  ok_bind. eexists. split; [reflexivity|]. rewrite !cbc_length, cbc_inverse.
  assert (length (take (length text - pos) text) = (length text - pos)%nat) as Ht by (rewrite length_take; lia).
  rewrite length_app, Ht, Hb. split; [|split; [lia|]].
  - replace (length text - pos + 16)%nat with ((length text / 16 + 1) * 16)%nat by lia. apply Nat.Div0.mod_mul.
  - replace (length text - pos + 16 - 16)%nat with (length text - pos)%nat by lia.
    rewrite drop_app_length', take_app_length' by done. rewrite Hu. cbn. by rewrite take_drop.
Qed.

Lemma cbc_roundtrip local remote rng h hb payload :
  wf_header h -> RecordLayerHeader.marshal h = Ok hb ->
  cbc_local_key local = cbc_remote_key remote -> cbc_write_mac local = cbc_read_mac remote ->
  length (cbc_local_key local) = 32%nat -> (16 <= length rng)%nat -> Z.of_nat (length payload) < 2 ^ 24 ->
  recovered h payload (CryptoCbc.encrypt local rng h (hb ++ payload)) (CryptoCbc.decrypt remote).
Proof.
  intros Hh Hhb Hk Hmac Hkl Hrng Hp. pose proof (header_length h hb Hh Hhb) as Hl. unfold CryptoCbc.encrypt.
  destruct (record_parts hb payload Hl) as [-> ->]. ok_bind. unfold CryptoCbc.BLOCK_SIZE.
  assert (length (take 16 rng) = 16%nat) as H16 by (rewrite length_take; lia).
  assert (CryptoCbc.check_lengths (cbc_local_key local) (take 16 rng) = Ok tt) as Hcl.
  { unfold CryptoCbc.check_lengths. by rewrite Hkl, H16. }
  rewrite Hcl. ok_bind. set (mac := prf_mac _ _ _ _ _ _).
  assert (length mac = 20%nat) as Hml by apply hmac_sha1_length.
  destruct (padded_roundtrip (cbc_local_key local) (take 16 rng) (payload ++ mac)) as (c & -> & Hm & Hc0 & Hdec). ok_bind.
  rewrite length_app in Hc0.
  apply recovered_intro; [done|done|rewrite length_app; lia|]. intros hb' Hl' Hu. unfold CryptoCbc.decrypt. rewrite Hu. ok_bind.
  rewrite with_length_no_ccs by done. unfold CryptoCbc.BLOCK_SIZE.
  rewrite (proj2 (Nat.ltb_ge _ _)) by (rewrite !length_app; lia).
  destruct (record_parts hb' (take 16 rng ++ c) Hl') as [-> ->]. ok_bind.
  rewrite (bslice_front (take 16 rng ++ c)), take_app_length' by (rewrite ?length_app; lia). ok_bind.
  rewrite bslice_from_app by done. ok_bind. rewrite is_empty_length, (proj2 (Nat.eqb_neq _ _)) by lia.
  rewrite Hm. cbn [Nat.eqb negb orb]. rewrite <-Hk, Hcl. ok_bind. rewrite Hdec.
  unfold CryptoCbc.MAC_SIZE. rewrite checked_u_Ret by (rewrite length_app; bounds). cbn [lift]. ok_bind.
  replace (Z.to_nat _) with (length payload) by (rewrite length_app; lia).
  rewrite bslice_from_app by done. ok_bind. rewrite bslice_front, take_app_length' by (rewrite ?length_app; lia). ok_bind.
  rewrite <-Hmac. cbn [epoch sequence_number content_type protocol_version with_length]. fold mac.
  by rewrite bool_decide_eq_true_2.
Qed.

(** What the two sides of a connection get from the same secrets. *)
Definition initialized_pair (c : CipherSuite) (ms cr sr : bytes) (is_client : bool) (c1 c2 : CipherSuite) : Prop :=
  CipherSuite.init c ms cr sr is_client = Ok c1 /\ CipherSuite.init c ms cr sr (negb is_client) = Ok c2
  /\ CipherSuite.is_initialized c1 = true /\ CipherSuite.is_initialized c2 = true.

Lemma own_keys_flip b keys : CipherSuite.own_keys (negb b) keys = prod_swap (CipherSuite.own_keys b keys).
Proof using Type. by destruct b. Qed.

Lemma own_keys_lengths b m k i keys :
  wf_keys m k i keys ->
  let '((lk, li, lm), (rk, ri, rm)) := CipherSuite.own_keys b keys in
  length lk = k /\ length li = i /\ length lm = m /\ length rk = k /\ length ri = i /\ length rm = m.
Proof using Type. intros []. by destruct b. Qed.

Lemma init_pair c ms cr sr b :
  exists c1 c2, initialized_pair c ms cr sr b c1 c2
    /\ forall rng h hb payload,
         wf_header h -> RecordLayerHeader.marshal h = Ok hb -> (16 <= length rng)%nat ->
         Z.of_nat (length payload) < 2 ^ 24 ->
         recovered h payload (CipherSuite.encrypt c1 rng h (hb ++ payload)) (CipherSuite.decrypt c2).
Proof.
  unfold initialized_pair, CipherSuite.init. destruct (CipherSuite.prf_lengths c) as [[m k] i] eqn:Hpl.
  destruct (encryption_keys_Ok ms cr sr m k i (CipherSuite.hash_func c)) as (keys & -> & Hkeys). ok_bind.
  rewrite own_keys_flip. pose proof (own_keys_lengths b m k i keys Hkeys) as Hlens.
  destruct (CipherSuite.own_keys b keys) as [[[lk li] lm] [[rk ri] rm]]. cbn [prod_swap fst snd].
  destruct Hlens as (Hlk & Hli & Hlm & Hrk & Hri & Hrm).
  destruct c; cbn in Hpl; injection Hpl as <- <- <-;
    unfold CryptoGcm.new, CryptoChaCha20.new, CryptoCcm.new; rewrite ?generic_array_Ok by done; ok_bind;
    do 2 eexists; (split; [split_and!; reflexivity|]); intros rng h hb payload Hh Hhb Hrng Hp;
    cbn [CipherSuite.encrypt CipherSuite.initialized mbind fallible_bind].
  - apply explicit_roundtrip; try done; cbn; lia.
  - apply cbc_roundtrip; done.
  - apply chacha_roundtrip; done.
  - apply explicit_roundtrip; try done; cbn; try lia. by destruct crypto_ccm_tag_len.
  - apply explicit_roundtrip; try done; cbn; lia.
Qed.

(** A record with room for the explicit nonce but not for the tag stops the decoder: the
    length of the tag is subtracted unchecked. *)
Lemma short_record_panics rsa ms cr sr b c1 r h rest :
  CipherSuite.init (CipherSuiteAes128GcmSha256 None rsa) ms cr sr b = Ok c1 ->
  RecordLayerHeader.unmarshal r = Ok (h, rest) -> content_type h <> CtChangeCipherSpec ->
  (RECORD_LAYER_HEADER_SIZE + 8 < length r < RECORD_LAYER_HEADER_SIZE + 8 + 16)%nat ->
  CipherSuite.decrypt c1 r = Panics ArithmeticOverflow.
Proof.
  intros Hc Hh Hccs Hl. unfold CipherSuite.init in Hc. cbn [CipherSuite.prf_lengths] in Hc.
  destruct (encryption_keys_Ok ms cr sr 0 16 4 (CipherSuite.hash_func (CipherSuiteAes128GcmSha256 None rsa)))
    as (keys & Hk & Hkeys).
  rewrite Hk in Hc. cbn [mbind fallible_bind] in Hc.
  pose proof (own_keys_lengths b 0 16 4 keys Hkeys) as Hlens.
  destruct (CipherSuite.own_keys b keys) as [[[lk li] lm] [[rk ri] rm]].
  destruct Hlens as (Hlk & Hli & Hlm & Hrk & Hri & Hrm).
  unfold CryptoGcm.new in Hc. rewrite !generic_array_Ok in Hc by done. cbn [mbind fallible_bind] in Hc.
  apply (inj Ok) in Hc as <-. cbn [CipherSuite.decrypt CipherSuite.initialized mbind fallible_bind].
  unfold CryptoGcm.decrypt, explicit_decrypt. cbn [gcm_remote_key gcm_remote_write_iv]. rewrite Hh. ok_bind.
  unfold is_change_cipher_spec. rewrite bool_decide_eq_false_2 by done.
  rewrite (proj2 (Nat.leb_gt _ _)) by lia. rewrite (bslice_front ri) by lia. ok_bind.
  rewrite (bslice_Ok r RECORD_LAYER_HEADER_SIZE) by lia. ok_bind. rewrite generic_array_Ok; cycle 1.
  { rewrite length_app, !length_take, length_drop. unfold RECORD_LAYER_HEADER_SIZE in *. lia. }
  ok_bind. rewrite bslice_from_Ok by lia. ok_bind.
  rewrite checked_u_panic; [done|]. rewrite length_drop. unfold is_u. cbn [tag_length]. lia.
Qed.
End laws.

(** A stand-in for the algorithms: a hash that is all zeros, a seal that appends the tag. *)
Definition plain_crypto : Crypto := {|
  sha256 _ := replicate 32 0;
  hmac_sha256 _ _ := replicate 32 0;
  hmac_sha1 _ _ := replicate 20 0;
  aead_seal a _ _ _ text := Some (text ++ replicate (tag_length a) 0);
  aead_open a _ _ _ sealed := Some (take (length sealed - tag_length a) sealed);
  cbc_encrypt _ _ text := text;
  cbc_decrypt _ _ text := text |}.

Lemma plain_laws : @CryptoLaws plain_crypto.
Proof.
  split; try done.
  - intros. by apply (Forall_replicate (is_u 8) 20 0).
  - intros a key nonce ad text _ _ _. eexists. split; [done|]. rewrite length_app, length_replicate.
    split; [done|]. cbn. rewrite length_app, length_replicate.
    replace (length text + tag_length a - tag_length a)%nat with (length text) by lia. by rewrite take_app_length.
Qed.

(** ** Properties *)

(** C15: for each of the suites, what one side of a connection protects the other side
    recovers: from the same master secret and randoms both initialise, and decrypting the
    protected record yields the payload behind the header that carries the new length. *)
Theorem suites_roundtrip `{CryptoLaws} c ms cr sr is_client rng h hb payload :
  wf_header h -> RecordLayerHeader.marshal h = Ok hb -> (16 <= length rng)%nat ->
  Z.of_nat (length payload) < 2 ^ 24 ->
  exists c1 c2 r hb',
    CipherSuite.init c ms cr sr is_client = Ok c1 /\ CipherSuite.init c ms cr sr (negb is_client) = Ok c2
    /\ CipherSuite.encrypt c1 rng h (hb ++ payload) = Ok r
    /\ CipherSuite.decrypt c2 r = Ok (hb' ++ payload)
    /\ RecordLayerHeader.marshal (with_length h (length r - RECORD_LAYER_HEADER_SIZE)) = Ok hb'.
Proof.
  intros Hh Hhb Hrng Hp. destruct (init_pair c ms cr sr is_client) as (c1 & c2 & (H1 & H2 & _) & Hrec).
  destruct (Hrec rng h hb payload Hh Hhb Hrng Hp) as (r & hb' & He & Hd & Hm & _). by exists c1, c2, r, hb'.
Qed.

Lemma suites_roundtrip_witness :
  exists c1 c2 r hb',
    @CipherSuite.init plain_crypto (CipherSuiteAes256CbcSha None true) [1; 2] [3] [4] true = Ok c1
    /\ @CipherSuite.init plain_crypto (CipherSuiteAes256CbcSha None true) [1; 2] [3] [4] (negb true) = Ok c2
    /\ @CipherSuite.encrypt plain_crypto c1 (replicate 16 9) (mkRecordLayerHeader CtApplicationData PROTOCOL_VERSION1_2 1 5 2)
         ([23; 254; 253; 0; 1; 0; 0; 0; 0; 0; 5; 0; 2] ++ [104; 105]) = Ok r
    /\ @CipherSuite.decrypt plain_crypto c2 r = Ok (hb' ++ [104; 105])
    /\ RecordLayerHeader.marshal
         (with_length (mkRecordLayerHeader CtApplicationData PROTOCOL_VERSION1_2 1 5 2) (length r - RECORD_LAYER_HEADER_SIZE))
       = Ok hb'.
Proof.
  apply (@suites_roundtrip plain_crypto plain_laws).
  - repeat split; try done. by right.
  - vm_compute. reflexivity.
  - done.
  - done.
Defined.
