(* ===== verification/DtlsRecord.v ===== *)
(** * The record layer of a DTLS connection

    vendored/dtls/src/fragment_buffer, handshake/handshake_cache.rs and the part of
    conn/mod.rs between the socket and the handshake: records are numbered, fragmented,
    protected and packed into datagrams on one side; split, checked for replays, decrypted,
    reassembled and dispatched on the other.

    A [Conn] is what the tasks of a connection share.  The outgoing task returns the
    datagrams it hands to the socket, the reader queues what it delivers to the application
    and the packets (alerts) it asks the outgoing task to send.  [rng epoch seq] is what
    [rand] fills the nonce of that record with. *)

From stdpp Require Import base list gmap strings.
From Stdlib Require Import ZArith Lia.
From coqutil Require Import Datatypes.RecordSetters.
From S2P Require Import Prelude Utf8 Fallible ReplayDetector DtlsWire DtlsCodec DtlsCrypto.
Import DoubleBraceUpdate.
Local Open Scope Z_scope.

(** ** Reassembly of handshake messages (fragment_buffer/mod.rs) *)

Definition FRAGMENT_BUFFER_MAX_SIZE : Z := 2000000.

Record Fragment := mkFragment {
  fr_record_layer_header : RecordLayerHeader;
  fr_handshake_header : HandshakeHeader;
  fr_data : bytes }.

Record FragmentBuffer := mkFragmentBuffer {
  fb_cache : gmap Z (list Fragment);
  fb_current_message_sequence_number : Z }.

(** A fallible step of an operation that keeps what it did before it failed. *)
Definition attempt {S A B} (s : S) (r : result A) (k : A -> result B * S) : result B * S :=
  match r with
  | Ok a => k a
  | Err e => (Err e, s)
  | Panics why => (Panics why, s)
  | NoFuel => (NoFuel, s)
  end.

(** [append_message]: the first fragment at the offset, in front of what follows it.  The
    offset and the length of a fragment are 24-bit fields. *)
Fixpoint append_message (fuel : nat) (target_offset : Z) (frags : list Fragment) (raw_message : bytes)
    : outcome (option bytes) :=
  match fuel with
  | O => OutOfFuel
  | S fuel =>
      match List.find (fun f => hh_fragment_offset (fr_handshake_header f) =? target_offset) frags with
      | None => Ret None
      | Some f =>
          let h := fr_handshake_header f in
          let fragment_end := hh_fragment_offset h + hh_fragment_length h in
          rest ← (if negb (fragment_end =? hh_length h) && negb (hh_fragment_length h =? 0)
                  then append_message fuel fragment_end frags raw_message
                  else Ret (Some raw_message));
          Ret (rest ← rest; Some (fr_data f ++ rest))
      end
  end.

Module FragmentBuffer.
Definition new : FragmentBuffer := mkFragmentBuffer ∅ 0.

Definition size (b : FragmentBuffer) : nat :=
  map_fold (fun _ frags n => (sum_list (map (fun f => length (fr_data f)) frags) + n)%nat) 0%nat (fb_cache b).

(** [self.cache.entry(..).or_default()] and [x.push(..)]. *)
Definition insert (b : FragmentBuffer) (f : Fragment) : FragmentBuffer :=
  let seq := hh_message_sequence (fr_handshake_header f) in
  b {{ fb_cache := <[seq := default [] (fb_cache b !! seq) ++ [f]]> (fb_cache b) }}.

(** [while !buf.is_empty()]: the handshake messages of a record. *)
Fixpoint push_messages (fuel : nat) (b : FragmentBuffer) (record_layer_header : RecordLayerHeader) (buf : bytes)
    : result bool * FragmentBuffer :=
  if is_empty buf then (Ok true, b)
  else
    match fuel with
    | O => (NoFuel, b)
    | S fuel =>
        attempt b (HandshakeHeader.unmarshal buf) (fun '(handshake_header, _) =>
          let fin := Nat.min (HANDSHAKE_HEADER_LENGTH + Z.to_nat (hh_length handshake_header)) (length buf) in
          attempt b (bslice buf HANDSHAKE_HEADER_LENGTH fin) (fun data =>
            let b := insert b (mkFragment record_layer_header handshake_header data) in
            attempt b (bslice_from buf fin) (fun buf => push_messages fuel b record_layer_header buf)))
    end.

Definition push (b : FragmentBuffer) (buf : bytes) : result bool * FragmentBuffer :=
  let new_size := Z.of_nat (size b + length buf) in
  if FRAGMENT_BUFFER_MAX_SIZE <=? new_size
  then (Err (ErrFragmentBufferOverflow new_size FRAGMENT_BUFFER_MAX_SIZE), b)
  else
    attempt b (RecordLayerHeader.unmarshal buf) (fun '(record_layer_header, _) =>
      if negb (bool_decide (content_type record_layer_header = CtHandshake)) then (Ok false, b)
      else attempt b (bslice_from buf RECORD_LAYER_HEADER_SIZE) (fun buf =>
        push_messages (length buf) b record_layer_header buf)).

Definition pop (b : FragmentBuffer) : result ((bytes * Z) * FragmentBuffer) :=
  let seq_num := fb_current_message_sequence_number b in
  match fb_cache b !! seq_num with
  | None => Err ErrEmptyFragment
  | Some frags =>
      raw_message ← lift (append_message (S (length frags)) 0 frags []);
      match raw_message with
      | None => Err ErrEmptyFragment
      | Some raw_message =>
          first ← lift (index frags 0);
          let header := fr_handshake_header first in
          let first_header := header {{ hh_fragment_offset := 0 }} {{ hh_fragment_length := hh_length header }} in
          raw_header ← match HandshakeHeader.marshal first_header with
                       | Err _ => Err ErrEmptyFragment
                       | r => r
                       end;
          next ← lift (checked_u 16 (seq_num + 1));
          Ok ((raw_header ++ raw_message, epoch (fr_record_layer_header first)),
              mkFragmentBuffer (delete seq_num (fb_cache b)) next)
      end
  end.
End FragmentBuffer.

(** ** The messages of the handshake (handshake/handshake_cache.rs) *)

Record HandshakeCacheItem := mkHandshakeCacheItem {
  ci_typ : HandshakeType;
  ci_is_client : bool;
  ci_epoch : Z;
  ci_message_sequence : Z;
  ci_data : bytes }.

Record HandshakeCachePullRule := mkRule {
  rule_typ : HandshakeType;
  rule_epoch : Z;
  rule_is_client : bool;
  rule_optional : bool }.

Abbreviation HandshakeCache := (list HandshakeCacheItem).

Module HandshakeCache.
Definition push (cache : HandshakeCache) (data : bytes) (epoch message_sequence : Z) (typ : HandshakeType)
    (is_client : bool) : bool * HandshakeCache :=
  if existsb (fun i => (ci_message_sequence i =? message_sequence) && Bool.eqb (ci_is_client i) is_client) cache
  then (false, cache)
  else (true, cache ++ [mkHandshakeCacheItem typ is_client epoch message_sequence data]).

(** The item a rule asks for: of those that match the last message. *)
Definition find_item (cache : HandshakeCache) (r : HandshakeCachePullRule) : option HandshakeCacheItem :=
  foldl (fun item c =>
           if bool_decide (ci_typ c = rule_typ r) && Bool.eqb (ci_is_client c) (rule_is_client r)
              && (ci_epoch c =? rule_epoch r)
           then match item with
                | Some x => if ci_message_sequence x <? ci_message_sequence c then Some c else item
                | None => Some c
                end
           else item) None cache.

Definition pull (cache : HandshakeCache) (rules : list HandshakeCachePullRule) : list HandshakeCacheItem :=
  omap (find_item cache) rules.

Definition pull_and_merge (cache : HandshakeCache) (rules : list HandshakeCachePullRule) : bytes :=
  concat (map ci_data (pull cache rules)).

(** The first loop of [full_pull_map]: the items by type, the last one inserted first. *)
Fixpoint pull_items (cache : HandshakeCache) (rules : list HandshakeCachePullRule)
    (ci : list (HandshakeType * HandshakeCacheItem)) : result (list (HandshakeType * HandshakeCacheItem)) :=
  match rules with
  | [] => Ok ci
  | r :: rules =>
      match find_item cache r with
      | None => if negb (rule_optional r) then Err (ErrOther "Missing mandatory message") else pull_items cache rules ci
      | Some c => pull_items cache rules ((rule_typ r, c) :: ci)
      end
  end.

Definition get {A} (t : HandshakeType) (l : list (HandshakeType * A)) : option A :=
  snd <$> List.find (fun p => bool_decide (fst p = t)) l.

(** The second loop: the messages, which have to follow each other. *)
Fixpoint pull_messages (ci : list (HandshakeType * HandshakeCacheItem)) (rules : list HandshakeCachePullRule) (seq : Z)
    (out : list (HandshakeType * HandshakeMessage)) : result (Z * list (HandshakeType * HandshakeMessage)) :=
  match rules with
  | [] => Ok (seq, out)
  | r :: rules =>
      match get (rule_typ r) ci with
      | None => pull_messages ci rules seq out
      | Some i =>
          '(raw_handshake, _) ← Handshake.unmarshal (ci_data i);
          if negb (as_u 16 seq =? hh_message_sequence (handshake_header raw_handshake))
          then Err (ErrOther "There is a gap. Some messages are not arrived.")
          else pull_messages ci rules (seq + 1) ((rule_typ r, handshake_message raw_handshake) :: out)
      end
  end.

Definition full_pull_map (cache : HandshakeCache) (start_seq : Z) (rules : list HandshakeCachePullRule)
    : result (Z * list (HandshakeType * HandshakeMessage)) :=
  ci ← pull_items cache rules [];
  pull_messages ci rules start_seq [].

Definition session_rules (epoch : Z) : list HandshakeCachePullRule :=
  [mkRule HtClientHello epoch true false; mkRule HtServerHello epoch false false;
   mkRule HtCertificate epoch false false; mkRule HtServerKeyExchange epoch false false;
   mkRule HtCertificateRequest epoch false false; mkRule HtServerHelloDone epoch false false;
   mkRule HtCertificate epoch true false; mkRule HtClientKeyExchange epoch true false].

Definition session_hash `{Crypto} (cache : HandshakeCache) (hf : CipherSuiteHash) (epoch : Z) (additional : bytes) : bytes :=
  sha256 (pull_and_merge cache (session_rules epoch) ++ additional).
End HandshakeCache.

(** ** The connection *)

Record Packet := mkPacket {
  pk_record : RecordLayer;
  pk_should_encrypt : bool;
  pk_reset_local_sequence_number : bool }.

(** [State], [DTLSConn] and [ConnReaderContext] as far as the record layer uses them.
    [decrypted] are the payloads sent to the application, [packets] the requests of the
    reader to the outgoing task, [reading] tells whether the task of the reader runs. *)
Record Conn := mkConn {
  is_client : bool;
  local_epoch : Z;
  remote_epoch : Z;
  local_sequence_number : list Z;
  cipher_suite : option CipherSuite;
  cache : HandshakeCache;
  handshake_completed_successfully : bool;
  closed : bool;
  reading : bool;
  maximum_transmission_unit : nat;
  replay_protection_window : Z;
  replay_detector : list SlidingWindowDetector;
  decrypted : list bytes;
  encrypted_packets : list bytes;
  fragment_buffer : FragmentBuffer;
  packets : list Packet }.

(** *** Outgoing *)

(** [(0..num_bytes).step_by(split_len)] panics for a step of zero. *)
Fixpoint split_from (fuel : nat) (b : bytes) (split_len i : nat) : list bytes :=
  match fuel with
  | O => []
  | S fuel =>
      if (i <? length b)%nat
      then take (Nat.min (i + split_len) (length b) - i) (drop i b) :: split_from fuel b split_len (i + split_len)
      else []
  end.

Definition split_bytes (b : bytes) (split_len : nat) : result (list bytes) :=
  if (split_len =? 0)%nat then Panics ExplicitPanic else Ok (split_from (length b) b split_len 0).

Fixpoint compact (mtu : nat) (current : bytes) (raw_packets : list bytes) : list bytes :=
  match raw_packets with
  | [] => [current]
  | raw_packet :: raw_packets =>
      if negb (is_empty current) && (mtu <=? length current + length raw_packet)%nat
      then current :: compact mtu raw_packet raw_packets
      else compact mtu (current ++ raw_packet) raw_packets
  end.

Definition compact_raw_packets (raw_packets : list bytes) (mtu : nat) : list bytes := compact mtu [] raw_packets.

Fixpoint fragments_from (header : HandshakeHeader) (offset : Z) (content_fragments : list bytes) : result (list bytes) :=
  match content_fragments with
  | [] => Ok []
  | content_fragment :: content_fragments =>
      let n := Z.of_nat (length content_fragment) in
      raw ← HandshakeHeader.marshal
              (header {{ hh_fragment_offset := as_u 32 offset }} {{ hh_fragment_length := as_u 32 n }});
      rest ← fragments_from header (offset + n) content_fragments;
      Ok ((raw ++ content_fragment) :: rest)
  end.

Definition fragment_handshake (mtu : nat) (h : Handshake) : result (list bytes) :=
  content ← HandshakeMessage.marshal (handshake_message h);
  content_fragments ← split_bytes content mtu;
  let content_fragments := if is_empty content_fragments then [[]] else content_fragments in
  fragments_from (handshake_header h) 0 content_fragments.

(** [while lsn.len() <= epoch { lsn.push(0) }] *)
Definition extend_to (lsn : list Z) (e : Z) : list Z := lsn ++ replicate (S (Z.to_nat e) - length lsn) 0.

(** [lsn[epoch] += 1; lsn[epoch] - 1] *)
Definition next_sequence_number (lsn : list Z) (e : Z) : result (Z * list Z) :=
  n ← lift (index lsn (Z.to_nat e));
  n' ← lift (checked_u 64 (n + 1));
  Ok (n' - 1, <[Z.to_nat e := n']> lsn).

Section connection.
  Context `{Crypto} (rng : Z -> Z -> bytes).

(** [if p.should_encrypt { .. }] *)
Definition protect (c : Conn) (should_encrypt : bool) (h : RecordLayerHeader) (raw_packet : bytes) : result bytes :=
  if should_encrypt then
    match cipher_suite c with
    | Some cs => CipherSuite.encrypt cs (rng (epoch h) (sequence_number h)) h raw_packet
    | None => Ok raw_packet
    end
  else Ok raw_packet.

Definition process_packet (c : Conn) (p : Packet) : result bytes * Conn :=
  let header := record_layer_header (pk_record p) in
  let lsn := extend_to (local_sequence_number c) (epoch header) in
  attempt c (next_sequence_number lsn (epoch header)) (fun '(seq, lsn) =>
    let c := c {{ local_sequence_number := lsn }} in
    if MAX_SEQUENCE_NUMBER <? seq then (Err ErrSequenceNumberOverflow, c)
    else
      let header := header {{ sequence_number := seq }} in
      let record := (pk_record p) {{ record_layer_header := header }} in
      (raw_packet ← RecordLayer.marshal record; protect c (pk_should_encrypt p) header raw_packet, c)).

Fixpoint process_fragments (c : Conn) (p : Packet) (handshake_fragments : list bytes) : result (list bytes) * Conn :=
  match handshake_fragments with
  | [] => (Ok [], c)
  | fragment :: handshake_fragments =>
      let header := record_layer_header (pk_record p) in
      attempt c (next_sequence_number (local_sequence_number c) (epoch header)) (fun '(seq, lsn) =>
        let c := c {{ local_sequence_number := lsn }} in
        if MAX_SEQUENCE_NUMBER <? seq then (Err ErrSequenceNumberOverflow, c)
        else
          let record_layer_header :=
            mkRecordLayerHeader (content_type header) (protocol_version header) (epoch header) seq
              (as_u 16 (Z.of_nat (length fragment))) in
          attempt c (record_layer_header_bytes ← RecordLayerHeader.marshal record_layer_header;
                     protect c (pk_should_encrypt p) record_layer_header (record_layer_header_bytes ++ fragment))
            (fun raw_packet =>
               let '(rest, c) := process_fragments c p handshake_fragments in
               (rest ← rest; Ok (raw_packet :: rest), c)))
  end.

Definition process_handshake_packet (c : Conn) (p : Packet) (h : Handshake) : result (list bytes) * Conn :=
  attempt c (fragment_handshake (maximum_transmission_unit c) h) (fun handshake_fragments =>
    let e := epoch (record_layer_header (pk_record p)) in
    let c := c {{ local_sequence_number := extend_to (local_sequence_number c) e }} in
    process_fragments c p handshake_fragments).

(** [for p in &mut pkts { .. }] *)
Fixpoint process_packets (c : Conn) (pkts : list Packet) : result (list bytes) * Conn :=
  match pkts with
  | [] => (Ok [], c)
  | p :: pkts =>
      let '(raw, c) :=
        match content (pk_record p) with
        | ContentHandshake h =>
            attempt c (handshake_raw ← RecordLayer.marshal (pk_record p);
                       bslice_from handshake_raw RECORD_LAYER_HEADER_SIZE) (fun data =>
              let '(_, items) :=
                HandshakeCache.push (cache c) data (epoch (record_layer_header (pk_record p)))
                  (hh_message_sequence (handshake_header h)) (hh_type (handshake_header h)) (is_client c) in
              process_handshake_packet (c {{ cache := items }}) p h)
        | _ => let '(raw, c) := process_packet c p in (raw ← raw; Ok [raw], c)
        end in
      attempt c raw (fun raw =>
        let '(rest, c) := process_packets c pkts in
        (rest ← rest; Ok (raw ++ rest), c))
  end.

(** The datagrams given to the socket. *)
Definition handle_outgoing_packets (c : Conn) (pkts : list Packet) : result (list bytes) * Conn :=
  let '(raw_packets, c) := process_packets c pkts in
  (raw_packets ← raw_packets;
   Ok (if is_empty raw_packets then [] else compact_raw_packets raw_packets (maximum_transmission_unit c)), c).
End connection.

(** *** Incoming *)

(** What a handler makes of a fallible call whose errors it handles itself. *)
Definition handle {A B} (r : result A) (ok : A -> outcome B) (err : Error -> outcome B) : outcome B :=
  match r with
  | Ok a => ok a
  | Err e => err e
  | Panics why => Panic why
  | NoFuel => OutOfFuel
  end.

(** [(bool, Option<Alert>, Option<Error>)] and the connection. *)
Abbreviation incoming := ((bool * option Alert * option Error) * Conn)%type.

Definition ignored (c : Conn) : incoming := ((false, None, None), c).

Definition enqueue_packet (enqueue : bool) (pkt : bytes) (c : Conn) : Conn :=
  if enqueue then c {{ encrypted_packets := encrypted_packets c ++ [pkt] }} else c.

(** [while replay_detector.len() <= epoch { push(SlidingWindowDetector::new(..)) }] *)
Definition extend_detectors (c : Conn) (e : Z) : Conn :=
  c {{ replay_detector := replay_detector c
         ++ replicate (S (Z.to_nat e) - length (replay_detector c))
              (SlidingWindowDetector.new (replay_protection_window c) MAX_SEQUENCE_NUMBER) }}.

(** [ctx.replay_detector[h.epoch as usize].check(h.sequence_number)] *)
Definition check_replay (c : Conn) (e seq : Z) : outcome (bool * Conn) :=
  d ← index (replay_detector c) (Z.to_nat e);
  '(ok, d) ← SlidingWindowDetector.check d seq;
  Ret (ok, c {{ replay_detector := <[Z.to_nat e := d]> (replay_detector c) }}).

(** [ctx.replay_detector[h.epoch as usize].accept()] *)
Definition accept_at (ds : list SlidingWindowDetector) (e : Z) : outcome (list SlidingWindowDetector) :=
  d ← index ds (Z.to_nat e);
  d ← SlidingWindowDetector.accept d;
  Ret (<[Z.to_nat e := d]> ds).

Definition accept_replay (c : Conn) (e : Z) : outcome Conn :=
  ds ← accept_at (replay_detector c) e;
  Ret (c {{ replay_detector := ds }}).

Definition invalid_cipher_suite (c : Conn) : bool :=
  match cipher_suite c with None => true | Some cs => negb (CipherSuite.is_initialized cs) end.

(** [while let Ok((out, epoch)) = ctx.fragment_buffer.pop()]; every message popped leaves
    the buffer with one entry less. *)
Fixpoint pop_messages (fuel : nat) (c : Conn) : outcome Conn :=
  match fuel with
  | O => OutOfFuel
  | S fuel =>
      handle (FragmentBuffer.pop (fragment_buffer c))
        (fun '((out, e), b) =>
           let c := c {{ fragment_buffer := b }} in
           handle (Handshake.unmarshal out)
             (fun '(raw_handshake, _) =>
                let header := handshake_header raw_handshake in
                let '(_, items) :=
                  HandshakeCache.push (cache c) out e (hh_message_sequence header) (hh_type header) (negb (is_client c)) in
                pop_messages fuel (c {{ cache := items }}))
             (fun _ => pop_messages fuel c))
        (fun _ => Ret c)
  end.

Definition alert_and_error (a : Alert) (e : option Error) (c : Conn) : incoming := ((false, Some a, e), c).

Section reader.
  Context `{Crypto}.

(** [match r.content { .. }] *)
Definition handle_content (c : Conn) (h : RecordLayerHeader) (e : Z) (pkt : bytes) (enqueue : bool) (content : Content)
    : outcome incoming :=
  match content with
  | ContentAlert a =>
      let a := if bool_decide (alert_description a = CloseNotify) then mkAlert Warning CloseNotify else a in
      c ← accept_replay c (epoch h);
      Ret (alert_and_error a (Some (ErrOther "Error of Alert")) c)
  | ContentChangeCipherSpec =>
      if invalid_cipher_suite c then Ret (ignored (enqueue_packet enqueue pkt c))
      else
        new_remote_epoch ← checked_u 16 (epoch h + 1);
        next ← checked_u 16 (e + 1);
        if next =? new_remote_epoch then
          c ← accept_replay (c {{ remote_epoch := new_remote_epoch }}) (epoch h);
          Ret (ignored c)
        else Ret (ignored c)
  | ContentApplicationData data =>
      if epoch h =? 0 then
        Ret (alert_and_error (mkAlert Fatal UnexpectedMessage) (Some ErrApplicationDataEpochZero) c)
      else
        c ← accept_replay c (epoch h);
        Ret (ignored (c {{ decrypted := decrypted c ++ [data] }}))
  | ContentHandshake _ =>
      Ret (alert_and_error (mkAlert Fatal UnexpectedMessage) (Some ErrUnhandledContextType) c)
  end.

(** What follows decryption. *)
Definition handle_plain_packet (c : Conn) (h : RecordLayerHeader) (e : Z) (pkt : bytes) (enqueue : bool)
    : outcome incoming :=
  let '(pushed, b) := FragmentBuffer.push (fragment_buffer c) pkt in
  let c := c {{ fragment_buffer := b }} in
  handle pushed
    (fun is_handshake : bool =>
       if is_handshake then
         c ← accept_replay c (epoch h);
         c ← pop_messages (S (size (fb_cache (fragment_buffer c)))) c;
         Ret ((true, None, None), c)
       else
         handle (RecordLayer.unmarshal pkt)
           (fun r => handle_content c h e pkt enqueue (content r))
           (fun err => Ret (alert_and_error (mkAlert Fatal DecodeError) (Some err) c)))
    (fun _ => Ret (ignored c)).

Definition handle_incoming_packet (c : Conn) (pkt : bytes) (enqueue : bool) : outcome incoming :=
  handle (RecordLayerHeader.unmarshal pkt)
    (fun '(h, _) =>
       let e := remote_epoch c in
       if e <? epoch h then
         if e + 1 <? epoch h then Ret (ignored c) else Ret (ignored (enqueue_packet enqueue pkt c))
       else
         let c := extend_detectors c (epoch h) in
         '(ok, c) ← check_replay c (epoch h) (sequence_number h);
         if negb ok then Ret (ignored c)
         else if negb (epoch h =? 0) then
           if invalid_cipher_suite c then Ret (ignored (enqueue_packet enqueue pkt c))
           else
             match cipher_suite c with
             | None => handle_plain_packet c h e pkt enqueue
             | Some cs =>
                 handle (CipherSuite.decrypt cs pkt)
                   (fun pkt => handle_plain_packet c h e pkt enqueue)
                   (fun _ => if CipherSuite.is_psk cs
                             then Ret (alert_and_error (mkAlert Fatal UnknownPskIdentity) None c)
                             else Ret (ignored c))
             end
         else handle_plain_packet c h e pkt enqueue)
    (fun _ => Ret (ignored c)).

Definition alert_packet (c : Conn) (a : Alert) : Packet :=
  mkPacket (RecordLayer.new PROTOCOL_VERSION1_2 (local_epoch c) (ContentAlert a))
    (handshake_completed_successfully c) false.

(** What the reader does with the result of a record: whether a handshake message arrived. *)
Definition handle_incoming_result (r : incoming) : result bool * Conn :=
  let '((hs, alert, err), c) := r in
  match alert with
  | Some a =>
      let c := c {{ packets := packets c ++ [alert_packet c a] }} in
      if bool_decide (alert_level a = Fatal) || bool_decide (alert_description a = CloseNotify)
      then (Err ErrAlertFatalOrClose, c)
      else match err with Some err => (Err err, c) | None => (Ok hs, c) end
  | None => match err with Some err => (Err err, c) | None => (Ok hs, c) end
  end.

(** [for pkt in pkts { .. }], in [read_and_buffer] and in [handle_queued_packets]. *)
Fixpoint handle_records (enqueue : bool) (c : Conn) (pkts : list bytes) (has_handshake : bool) : outcome (result bool * Conn) :=
  match pkts with
  | [] => Ret (Ok has_handshake, c)
  | pkt :: pkts =>
      r ← handle_incoming_packet c pkt enqueue;
      let '(hs, c) := handle_incoming_result r in
      match hs with
      | Ok hs => handle_records enqueue c pkts (has_handshake || hs)
      | other => Ret (other, c)
      end
  end.

(** One datagram, up to the rendezvous with the handshake. *)
Definition read_and_buffer (c : Conn) (buf : bytes) : outcome (result bool * Conn) :=
  handle (unpack_datagram buf) (fun pkts => handle_records true c pkts false) (fun e => Ret (Err e, c)).

(** [let pkts = ctx.encrypted_packets.drain(..).collect();] and [handle_queued_packets],
    which does not ask whether a handshake message arrived. *)
Definition handle_queued_packets (c : Conn) : outcome (result unit * Conn) :=
  let pkts := encrypted_packets c in
  '(r, c) ← handle_records false (c {{ encrypted_packets := [] }}) pkts false;
  Ret (_ ← r; Ok tt, c).

(** The task of the reader ends on [ErrAlertFatalOrClose] and goes on after any other
    error.  Its end drops [decrypted_tx]. *)
Definition end_of_reader {A} (r : result A) (c : Conn) : Conn :=
  match r with
  | Err ErrAlertFatalOrClose => c {{ reading := false }}
  | _ => c
  end.

Definition receive (c : Conn) (buf : bytes) : outcome (bool * Conn) :=
  if reading c then
    '(r, c) ← read_and_buffer c buf;
    Ret (match r with Ok hs => hs | _ => false end, end_of_reader r c)
  else Ret (false, c).

Definition receive_queued (c : Conn) : outcome Conn :=
  if reading c then
    '(r, c) ← handle_queued_packets c;
    Ret (end_of_reader r c)
  else Ret c.
End reader.

(** *** The interface of the application *)

Section interface.
  Context `{Crypto} (rng : Z -> Z -> bytes).

Definition application_packet (c : Conn) (p : bytes) : Packet :=
  mkPacket (RecordLayer.new PROTOCOL_VERSION1_2 (local_epoch c) (ContentApplicationData p)) true false.

(** [write] and, with options for the socket, [write_with_options]: the datagrams sent. *)
Definition write (c : Conn) (p : bytes) : result (list bytes) * Conn :=
  if closed c then (Err ErrConnClosed, c)
  else if negb (handshake_completed_successfully c) then (Err ErrHandshakeInProgress, c)
  else handle_outgoing_packets rng c [application_packet c p].

Definition notify (c : Conn) (level : AlertLevel) (desc : AlertDescription) : result (list bytes) * Conn :=
  handle_outgoing_packets rng c [alert_packet c (mkAlert level desc)].

(** [close]: the first call sends a close_notify and ends the reader. *)
Definition close (c : Conn) : result (list bytes) * Conn :=
  if closed c then (Ok [], c)
  else
    let '(r, c) := notify (c {{ closed := true }}) Warning CloseNotify in
    attempt c r (fun datagrams => (Ok datagrams, c {{ reading := false }})).

(** [read] into a buffer of [n] bytes: the next payload; without one it waits while the
    reader runs. *)
Definition read (c : Conn) (n : nat) : option (result bytes * Conn) :=
  if negb (handshake_completed_successfully c) then Some (Err ErrHandshakeInProgress, c)
  else
    match decrypted c with
    | [] => if reading c then None else Some (Err ErrAlertFatalOrClose, c)
    | val :: rest =>
        let c := c {{ decrypted := rest }} in
        Some (if (n <? length val)%nat then Err ErrBufferTooSmall else Ok val, c)
    end.
End interface.
