(* ===== verification/DtlsSending.v ===== *)
(** * The numbers of the records a DTLS connection sends

    Whatever the tasks of a connection ask the outgoing task to send, in whatever order and
    with whatever errors in between, no two records leave with the same epoch and sequence
    number.  The nonce of the ChaCha20 suite is made of the two. *)

From stdpp Require Import base list strings.
From Stdlib Require Import ZArith Lia.
From coqutil Require Import Datatypes.RecordSetters.
From S2P Require Import Prelude Utf8 Fallible DtlsWire DtlsCodec DtlsCrypto DtlsRecord.
Import DoubleBraceUpdate.
Local Open Scope Z_scope.

(** The eight bytes of a record that hold its epoch and sequence number. *)
Definition record_number (raw : bytes) : bytes := take 8 (drop 3 raw).

Definition number_bytes (n : Z * Z) : bytes := write_u16 n.1 ++ drop 2 (to_be_bytes 8 n.2).

Definition wf_number (n : Z * Z) : Prop := is_u 16 n.1 /\ is_u 48 n.2.

Definition has_number (raw : bytes) (n : Z * Z) : Prop :=
  (RECORD_LAYER_HEADER_SIZE <= length raw)%nat /\ wf_number n /\ record_number raw = number_bytes n.

Lemma number_bytes_inj n m : wf_number n -> wf_number m -> number_bytes n = number_bytes m -> n = m.
Proof.
  destruct n as [e s], m as [e' s']. intros [He Hs] [He' Hs'] Heq. unfold number_bytes in Heq. cbn [fst snd] in *.
  apply app_inj_1 in Heq as [H1 H2]; [|by rewrite !length_write_u16].
  apply (f_equal from_be_bytes) in H1. unfold write_u16 in H1. rewrite !as_u_small in H1 by done.
  rewrite !from_to_be_bytes, !Z.mod_small in H1 by bounds.
  destruct (sequence_number_bytes s Hs) as [_ Hr], (sequence_number_bytes s' Hs') as [_ Hr'].
  rewrite <-Hr, <-Hr', H2, H1. done.
Qed.

(** *** Protection keeps the number *)

Lemma header_number h hb rest :
  is_u 16 (epoch h) -> is_u 48 (sequence_number h) -> RecordLayerHeader.marshal h = Ok hb ->
  has_number (hb ++ rest) (epoch h, sequence_number h).
Proof.
  intros He Hs Hm. unfold RecordLayerHeader.marshal in Hm. destruct (_ <? _); [done|]. apply (inj Ok) in Hm as <-.
  destruct (sequence_number_bytes _ Hs) as [Hn _].
  split; [|split; [done|]].
  - unfold write_version, RECORD_LAYER_HEADER_SIZE. rewrite !length_app, Hn, !length_write_u8, !length_write_u16. lia.
  - unfold record_number, number_bytes. cbn [fst snd]. rewrite <-!(assoc_L (++)), (assoc_L (++) (write_u8 _)).
    rewrite drop_app_length', (assoc_L (++) (write_u16 _)), take_app_length'; [done|..].
    + by rewrite length_app, length_write_u16, Hn.
    + unfold write_version. by rewrite !length_app, !length_write_u8.
Qed.

Lemma set_record_length_number raw head rest n :
  @bslice Error raw 0 RECORD_LAYER_HEADER_SIZE = Ok head -> has_number raw n ->
  has_number (set_record_length (head ++ rest)) n.
Proof.
  intros Hb (Hl & Hw & Hn). rewrite bslice_front in Hb by done. apply (inj Ok) in Hb as <-.
  assert (length (take RECORD_LAYER_HEADER_SIZE raw) = RECORD_LAYER_HEADER_SIZE) as H13 by (rewrite length_take; lia).
  assert (length (take 11 raw) = 11%nat) as H11 by (rewrite length_take; unfold RECORD_LAYER_HEADER_SIZE in *; lia).
  unfold set_record_length. rewrite take_app_le, take_take by (rewrite H13; unfold RECORD_LAYER_HEADER_SIZE; lia).
  rewrite drop_app_length' by done. change (_ `min` _)%nat with 11%nat.
  split; [rewrite !length_app, length_to_be_bytes; unfold RECORD_LAYER_HEADER_SIZE in *; lia|]. split; [done|].
  unfold record_number in *. rewrite drop_app_le, take_app_le by (rewrite ?length_drop; lia).
  by rewrite <-Hn, skipn_firstn_comm, take_take.
Qed.

Lemma encrypt_number `{Crypto} cs rng h raw r n :
  CipherSuite.encrypt cs rng h raw = Ok r -> has_number raw n -> has_number r n.
Proof.
  intros He Hn. unfold CipherSuite.encrypt, CryptoGcm.encrypt, CryptoCcm.encrypt, CryptoChaCha20.encrypt,
    CryptoCbc.encrypt, explicit_encrypt in He.
  destruct cs; repeat (apply bind_Ok_inv in He as (? & ? & He)); repeat case_match; try done;
    apply (inj Ok) in He as <-; by eapply set_record_length_number.
Qed.

Lemma protect_number `{Crypto} rng c b h raw r n :
  protect rng c b h raw = Ok r -> has_number raw n -> has_number r n.
Proof.
  intros Hp Hn. unfold protect in Hp. destruct b, (cipher_suite c); try by apply (inj Ok) in Hp as <-.
  by eapply encrypt_number.
Qed.

(** *** Every number is taken from the counter of its epoch once *)

Definition next_of (lsn : list Z) (e : Z) : Z := default 0 (lsn !! Z.to_nat e).

(** The records [raws] were numbered while the counters went from [lsn] to [lsn']. *)
Record numbered (lsn lsn' : list Z) (raws : list bytes) : Prop := {
  nb_mono : forall e, 0 <= e -> next_of lsn e <= next_of lsn' e;
  nb_u64 : Forall (is_u 64) lsn -> Forall (is_u 64) lsn';
  nb_numbers : Forall (is_u 64) lsn -> exists ns,
    Forall2 has_number raws ns /\ NoDup ns
    /\ Forall (fun n => next_of lsn n.1 <= n.2 < next_of lsn' n.1) ns }.

Lemma numbered_nil lsn lsn' raws : numbered lsn lsn' raws -> numbered lsn lsn' [].
Proof. intros [Hm Hu _]. split; [done|done|]. intros _. exists []. repeat constructor. Qed.

Lemma numbered_refl lsn : numbered lsn lsn [].
Proof. split; [done|done|]. intros _. exists []. repeat constructor. Qed.

Lemma numbered_app lsn1 lsn2 lsn3 raws1 raws2 :
  numbered lsn1 lsn2 raws1 -> numbered lsn2 lsn3 raws2 -> numbered lsn1 lsn3 (raws1 ++ raws2).
Proof.
  intros [Hm Hu Hn] [Hm' Hu' Hn']. split; [|by auto|].
  - intros e He. specialize (Hm e He). specialize (Hm' e He). lia.
  - intros Hw. destruct (Hn Hw) as (ns & H1 & H2 & H3), (Hn' (Hu Hw)) as (ns' & H1' & H2' & H3').
    assert (forall n, n ∈ ns ++ ns' -> 0 <= n.1) as Hpos.
    { intros n Hin. assert (Forall2 has_number (raws1 ++ raws2) (ns ++ ns')) as Hall by (by apply Forall2_app).
      apply list_elem_of_lookup in Hin as [i Hi]. destruct (Forall2_lookup_r _ _ _ _ _ Hall Hi) as (x & _ & _ & [[? _] _] & _).
      done. }
    rewrite Forall_forall in H3, H3'. exists (ns ++ ns'). split; [by apply Forall2_app|]. split.
    + apply NoDup_app. split; [done|]. split; [|done]. intros n Hin Hin'.
      specialize (H3 n Hin). specialize (H3' n Hin'). lia.
    + apply Forall_forall. intros n Hin. pose proof (Hpos n Hin) as Hp. specialize (Hm _ Hp). specialize (Hm' _ Hp).
      apply elem_of_app in Hin as [Hin|Hin]; [specialize (H3 n Hin)|specialize (H3' n Hin)]; lia.
Qed.

Lemma next_of_extend lsn e e' : next_of (extend_to lsn e) e' = next_of lsn e'.
Proof.
  unfold next_of, extend_to. destruct (decide (Z.to_nat e' < length lsn)%nat) as [Hlt|Hge].
  - by rewrite lookup_app_l.
  - rewrite lookup_app_r, (lookup_ge_None_2 lsn) by lia. destruct (replicate _ _ !! _) eqn:Hr; [|done].
    by apply lookup_replicate in Hr as [-> _].
Qed.

Lemma numbered_extend lsn e : numbered lsn (extend_to lsn e) [].
Proof.
  split.
  - intros e' _. by rewrite next_of_extend.
  - intros Hw. apply Forall_app. split; [done|]. by apply Forall_replicate.
  - intros _. exists []. repeat constructor.
Qed.

Lemma next_sequence_number_Ok lsn e n lsn' :
  next_sequence_number lsn e = Ok (n, lsn') ->
  lsn !! Z.to_nat e = Some n /\ lsn' = <[Z.to_nat e := n + 1]> lsn /\ is_u 64 (n + 1).
Proof.
  unfold next_sequence_number, index. destruct (lsn !! Z.to_nat e) as [m|]; [|done]. cbn [lift mbind fallible_bind].
  intros H. apply bind_Ok_inv in H as (m' & Hc & H). unfold checked_u in Hc. case_decide; [|done].
  apply (inj Ok) in Hc as <-. apply (inj Ok) in H. injection H as <- <-. by replace (m + 1 - 1) with m by lia.
Qed.

(** A number is taken from the counter, and given to a record or lost. *)
Lemma numbered_next lsn e n lsn' (raw : option bytes) :
  next_sequence_number lsn e = Ok (n, lsn') -> is_u 16 e ->
  (forall r, raw = Some r -> is_u 64 n -> has_number r (e, n)) -> numbered lsn lsn' (option_list raw).
Proof.
  intros Hn He Hr. apply next_sequence_number_Ok in Hn as (Hl & -> & Hu).
  assert (next_of lsn e = n) as Hold by (unfold next_of; by rewrite Hl).
  assert (forall e', 0 <= e' ->
    next_of (<[Z.to_nat e := n + 1]> lsn) e' = if decide (e' = e) then n + 1 else next_of lsn e') as Hnew.
  { intros e' He'. unfold next_of. case_decide as Heq.
    - subst. rewrite list_lookup_insert_eq; [done|]. by eapply lookup_lt_Some.
    - rewrite list_lookup_insert_ne; [done|]. bounds. }
  split.
  - intros e' He'. rewrite Hnew by done. case_decide; [subst; lia|done].
  - intros Hw. by apply Forall_insert.
  - intros Hw. assert (is_u 64 n) as Hn by (by eapply (Forall_lookup_1 _ _ _ _ Hw)).
    exists (option_list ((fun _ => (e, n)) <$> raw)). destruct raw as [r|]; cbn; [|repeat constructor].
    split; [constructor; [by apply Hr|constructor]|]. split; [apply NoDup_singleton|].
    constructor; [|done]. cbn [fst snd]. rewrite Hnew by bounds. rewrite decide_True by done. lia.
Qed.

Definition sent_by {A} (r : result (list A)) : list A := match r with Ok raws => raws | _ => [] end.

Definition wf_packet (p : Packet) : Prop := is_u 16 (epoch (record_layer_header (pk_record p))).

Section outgoing.
  Context `{Crypto} (rng : Z -> Z -> bytes).

Lemma process_packet_numbered c p r c' :
  wf_packet p -> process_packet rng c p = (r, c') ->
  numbered (local_sequence_number c) (local_sequence_number c') (sent_by (raw ← r; Ok [raw])).
Proof.
  intros Hp Hr. unfold process_packet in Hr. set (lsn := extend_to _ _) in Hr.
  destruct (next_sequence_number lsn _) as [[n lsn']|e|why|] eqn:Hn; cbn [attempt] in Hr; try simplify_eq;
    try apply numbered_refl.
  apply (numbered_app _ lsn _ [] _); [apply numbered_extend|].
  destruct (Z.ltb_spec MAX_SEQUENCE_NUMBER n) as [Hmax|Hmax]; try simplify_eq.
  { by apply (numbered_next lsn _ n lsn' None Hn Hp). }
  remember (RecordLayer.marshal _ ≫= _) as m eqn:Hm. 
  match goal with |- numbered _ _ ?raws =>
    replace raws with (option_list (match m with Ok raw => Some raw | _ => None end)) by (clear; by destruct m) end.
  apply (numbered_next lsn _ n lsn' _ Hn Hp). intros raw Hraw Hu. destruct m as [raw'| | |]; simplify_eq.
  symmetry in Hm.
  apply bind_Ok_inv in Hm as (plain & Hplain & Hprot). eapply protect_number; [done|].
  unfold RecordLayer.marshal in Hplain. apply bind_Ok_inv in Hplain as (hb & Hhb & Hplain).
  apply bind_Ok_inv in Hplain as (body & _ & Hplain). apply (inj Ok) in Hplain as <-.
  apply (header_number _ hb body) in Hhb; [done|done|]. cbn. unfold constant, MAX_SEQUENCE_NUMBER in *. bounds.
Qed.

Lemma process_fragments_numbered p fragments c r c' :
  wf_packet p -> process_fragments rng c p fragments = (r, c') ->
  numbered (local_sequence_number c) (local_sequence_number c') (sent_by r).
Proof.
  intros Hp. revert c r c'. induction fragments as [|f fragments IH]; intros c r c' Hr; cbn [process_fragments] in Hr.
  { simplify_eq. apply numbered_refl. }
  destruct (next_sequence_number (local_sequence_number c) _) as [[n lsn']|e|why|] eqn:Hn;
    cbn [attempt] in Hr; try simplify_eq; try apply numbered_refl.
  destruct (Z.ltb_spec MAX_SEQUENCE_NUMBER n) as [Hmax|Hmax]; try simplify_eq.
  { by apply (numbered_next _ _ n lsn' None Hn Hp). }
  set (h := mkRecordLayerHeader _ _ _ _ _) in Hr. remember (RecordLayerHeader.marshal h ≫= _) as m eqn:Hm in Hr.
  assert (numbered (local_sequence_number c) lsn' (option_list (match m with Ok raw => Some raw | _ => None end))) as Hnum.
  { apply (numbered_next _ _ n lsn' _ Hn Hp). intros raw Hraw Hu. destruct m as [raw'| | |]; simplify_eq.
    symmetry in Hm. apply bind_Ok_inv in Hm as (hb & Hhb & Hprot). eapply protect_number; [done|].
    apply (header_number _ hb f) in Hhb; [done|done|]. cbn. unfold MAX_SEQUENCE_NUMBER in *. bounds. }
  destruct m as [raw| | |]; cbn [attempt] in Hr; try simplify_eq; try done.
  destruct (process_fragments _ _ p fragments) as [rest c1] eqn:Hrest. apply IH in Hrest. simplify_eq.
  pose proof (numbered_app _ _ _ _ _ Hnum Hrest) as Hall. destruct rest; [done| | |]; by eapply numbered_nil.
Qed.

Lemma process_handshake_packet_numbered c p h r c' :
  wf_packet p -> process_handshake_packet rng c p h = (r, c') ->
  numbered (local_sequence_number c) (local_sequence_number c') (sent_by r).
Proof.
  intros Hp Hr. unfold process_handshake_packet in Hr.
  destruct (fragment_handshake _ _); cbn [attempt] in Hr; try simplify_eq; try apply numbered_refl.
  apply process_fragments_numbered in Hr; [|done]. eapply (numbered_app _ _ _ [] _); [apply numbered_extend|exact Hr].
Qed.

Lemma process_packets_numbered pkts c r c' :
  Forall wf_packet pkts -> process_packets rng c pkts = (r, c') ->
  numbered (local_sequence_number c) (local_sequence_number c') (sent_by r).
Proof.
  intros Hp. revert c r c'. induction Hp as [|p pkts Hp _ IH]; intros c r c' Hr; cbn [process_packets] in Hr.
  { simplify_eq. apply numbered_refl. }
  match type of Hr with (let '(_, _) := ?m in _) = _ => destruct m as [raw c1] eqn:Hm end.
  assert (numbered (local_sequence_number c) (local_sequence_number c1) (sent_by raw)) as Hnum.
  { destruct (content (pk_record p)) as [|a|h|data];
      [destruct (process_packet rng c p) as [r1 c2] eqn:Hpp; try simplify_eq; by eapply process_packet_numbered..| |
       destruct (process_packet rng c p) as [r1 c2] eqn:Hpp; try simplify_eq; by eapply process_packet_numbered].
    match type of Hm with attempt _ ?x _ = _ => destruct x end; cbn [attempt] in Hm; try simplify_eq; try apply numbered_refl.
    destruct (HandshakeCache.push _ _ _ _ _ _) as [b items]. by apply process_handshake_packet_numbered in Hm. }
  destruct raw as [raw| | |]; cbn [attempt] in Hr; try simplify_eq; try done.
  destruct (process_packets rng c1 pkts) as [rest c2] eqn:Hrest. apply IH in Hrest. simplify_eq.
  pose proof (numbered_app _ _ _ _ _ Hnum Hrest) as Hall. destruct rest; [done| | |]; by eapply numbered_nil.
Qed.
End outgoing.

(** A datagram holds records one after the other. *)
Lemma compact_groups mtu raws g :
  exists groups, compact mtu (concat g) raws = map (@concat Z) groups /\ concat groups = g ++ raws.
Proof.
  revert g. induction raws as [|raw raws IH]; intros g; cbn [compact].
  { exists [g]. cbn. by rewrite !app_nil_r. }
  destruct (_ && _).
  - destruct (IH [raw]) as (groups & Hc & Hg). cbn [concat] in Hc. rewrite app_nil_r in Hc.
    exists (g :: groups). rewrite Hc. cbn. by rewrite Hg.
  - destruct (IH (g ++ [raw])) as (groups & Hc & Hg). rewrite concat_app in Hc. cbn [concat] in Hc.
    rewrite app_nil_r in Hc. exists groups. rewrite Hc, Hg, <-(assoc_L (++)). done.
Qed.

(** The datagrams [sent] that a series of requests puts on the socket.  Between two requests
    the other tasks may do anything to the connection but touch its counters. *)
Inductive sends `{Crypto} : list Z -> list bytes -> list Z -> Prop :=
  | sends_nothing lsn : sends lsn [] lsn
  | sends_request rng c pkts r c' sent lsn' :
      Forall wf_packet pkts -> handle_outgoing_packets rng c pkts = (r, c') ->
      sends (local_sequence_number c') sent lsn' ->
      sends (local_sequence_number c) (sent_by r ++ sent) lsn'.

Lemma outgoing_groups `{Crypto} rng c pkts r c' :
  Forall wf_packet pkts -> handle_outgoing_packets rng c pkts = (r, c') ->
  exists groups, sent_by r = map (@concat Z) groups
    /\ numbered (local_sequence_number c) (local_sequence_number c') (concat groups).
Proof.
  intros Hp Hr. unfold handle_outgoing_packets in Hr.
  destruct (process_packets rng c pkts) as [raws c1] eqn:Hpp. apply process_packets_numbered in Hpp; [|done].
  simplify_eq. destruct raws as [raws| | |]; [|exists []; done..]. cbn [mbind fallible_bind sent_by] in *.
  destruct raws as [|raw raws]; [exists []; done|]. cbn [is_empty]. unfold compact_raw_packets.
  destruct (compact_groups (maximum_transmission_unit c') (raw :: raws) []) as (groups & Hc & Hg).
  exists groups. cbn [concat] in Hc. rewrite Hc, Hg. done.
Qed.

Lemma sends_numbered `{Crypto} lsn sent lsn' :
  sends lsn sent lsn' -> exists groups, sent = map (@concat Z) groups /\ numbered lsn lsn' (concat groups).
Proof.
  induction 1 as [lsn|rng c pkts r c' sent lsn' Hp Hr _ (groups & -> & Hn)].
  { exists []. split; [done|]. apply numbered_refl. }
  destruct (outgoing_groups rng c pkts r c' Hp Hr) as (g & -> & Hn').
  exists (g ++ groups). rewrite map_app, concat_app. split; [done|]. by eapply numbered_app.
Qed.

(** ** Properties *)

Definition sample_conn (is_client : bool) (cs : option CipherSuite) : Conn :=
  mkConn is_client 1 1 [3; 1] cs [] true false true 1200 64 [] [] [] FragmentBuffer.new [].

Definition sample_suite : CipherSuite :=
  CipherSuiteChaCha20Poly1305Sha256 false
    (Some (mkCryptoChaCha20 (replicate 32 1) (replicate 32 2) (replicate 12 3) (replicate 12 4))).

(** C13: the datagrams that any series of requests puts on the socket consist of records
    whose epoch and sequence number are pairwise different, whatever suite is in force,
    however the handshake messages are fragmented, and whichever requests fail half-way. *)
Theorem sent_numbers_differ `{Crypto} lsn sent lsn' :
  sends lsn sent lsn' -> Forall (is_u 64) lsn ->
  exists groups, sent = map (@concat Z) groups
    /\ Forall (fun raw => RECORD_LAYER_HEADER_SIZE <= length raw)%nat (concat groups)
    /\ NoDup (map record_number (concat groups)).
Proof.
  intros Hs Hu. destruct (sends_numbered lsn sent lsn' Hs) as (groups & -> & Hn). exists groups. split; [done|].
  destruct (nb_numbers _ _ _ Hn Hu) as (ns & Hns & Hnd & _). split.
  - eapply Forall2_Forall_l; [done|]. apply Forall_true. by intros n raw [? _].
  - assert (map record_number (concat groups) = map number_bytes ns) as ->.
    { clear -Hns. induction Hns as [|raw n raws ns (_ & _ & Hraw) _ IH]; [done|]. cbn. by rewrite Hraw, IH. }
    assert (Forall wf_number ns) as Hwf.
    { eapply Forall2_Forall_r; [done|]. apply Forall_true. by intros raw n (_ & ? & _). }
    rewrite Forall_forall in Hwf. apply (NoDup_fmap_2_strong number_bytes); [|done].
    intros n m Hin Hin'. apply number_bytes_inj; auto.
Qed.

Lemma sent_numbers_differ_witness :
  exists groups, @sent_by bytes (Ok [[23; 254; 253; 0; 1; 0; 0; 0; 0; 0; 1; 0; 17; 7] ++ replicate 16 0;
                              [23; 254; 253; 0; 1; 0; 0; 0; 0; 0; 2; 0; 17; 7] ++ replicate 16 0])
                 = map (@concat Z) groups
    /\ Forall (fun raw => RECORD_LAYER_HEADER_SIZE <= length raw)%nat (concat groups)
    /\ NoDup (map record_number (concat groups)).
Proof.
  apply (@sent_numbers_differ plain_crypto [3; 1] _ [3; 3]); [|by repeat constructor].
  pose (c := sample_conn true (Some sample_suite)).
  apply (@sends_request plain_crypto (fun _ _ => []) c [application_packet c [7]]
           (Ok [[23; 254; 253; 0; 1; 0; 0; 0; 0; 0; 1; 0; 17; 7] ++ replicate 16 0])
           (c {{ local_sequence_number := [3; 2] }}) [_]); [by repeat constructor|vm_compute; reflexivity|].
  apply (@sends_request plain_crypto (fun _ _ => []) (c {{ local_sequence_number := [3; 2] }}) [application_packet c [7]]
           (Ok [[23; 254; 253; 0; 1; 0; 0; 0; 0; 0; 2; 0; 17; 7] ++ replicate 16 0])
           (c {{ local_sequence_number := [3; 3] }}) []); [by repeat constructor|vm_compute; reflexivity|].
  apply sends_nothing.
Defined.
