(* ===== verification/DtlsReceiving.v ===== *)
(** * What a DTLS connection delivers

    The reader of a connection gives application data upwards: at most once for a record
    number, and only what the suite in force opened ([deliveries]).  Between two connections
    with the keys of one handshake, whatever arrives of at most a window of messages, in
    whatever order and however often, is delivered exactly once. *)

From stdpp Require Import base list gmap strings.
From Stdlib Require Import ZArith Lia.
From coqutil Require Import Datatypes.RecordSetters.
From S2P Require Import Prelude Utf8 Fallible ReplayDetector DtlsWire DtlsCodec DtlsCrypto DtlsRecord DtlsSending.
Import DoubleBraceUpdate.
Local Open Scope Z_scope.

Lemma handle_Ret {A B} (r : result A) (ok : A -> outcome B) err b :
  handle r ok err = Ret b -> (exists a, r = Ok a /\ ok a = Ret b) \/ (exists e, r = Err e /\ err e = Ret b).
Proof. destruct r; cbn; naive_solver. Qed.

Lemma outcome_bind_Ret {A B} (m : outcome A) (f : A -> outcome B) b :
  (m ≫= f) = Ret b <-> exists a, m = Ret a /\ f a = Ret b.
Proof. destruct m; cbn; split; naive_solver. Qed.

(** ** The replay detectors of the epochs *)

Section windows.
  Context (size : Z) (Hsize : 0 < size) (Hwords : size mod 64 = 0) (Hlimit : size < MAX_SEQUENCE_NUMBER).

Local Lemma Hwidth : size + MAX_SEQUENCE_NUMBER < 2 ^ 64.
Proof using Hlimit. unfold MAX_SEQUENCE_NUMBER in *. lia. Qed.

Abbreviation sim := (window_sim size MAX_SEQUENCE_NUMBER).
Abbreviation no_window := (mkWindow [] None).

Definition accepted_in (ws : list window) (e : Z) : list Z :=
  default [] (w_accepted <$> ws !! Z.to_nat e).

(** The detectors hold, for each epoch, the numbers [acc] that were accepted. *)
Definition tracks (ds : list SlidingWindowDetector) (acc : Z -> list Z) : Prop :=
  exists ws, Forall2 sim ds ws /\ forall e, 0 <= e -> accepted_in ws e = acc e.

(** The last check of epoch [e] allowed [seq]. *)
Definition allows (ds : list SlidingWindowDetector) (acc : Z -> list Z) (e seq : Z) : Prop :=
  exists ws, Forall2 sim ds ws /\ (forall e, 0 <= e -> accepted_in ws e = acc e)
    /\ ws !! Z.to_nat e = Some (mkWindow (acc e) (Some seq)) /\ seq ∉ acc e.

Definition mark (acc : Z -> list Z) (e seq : Z) : Z -> list Z :=
  fun e' => if decide (e' = e) then seq :: acc e else acc e'.

Definition extend_windows (ws : list window) (e : Z) : list window :=
  ws ++ replicate (S (Z.to_nat e) - length ws) no_window.

Lemma extend_sim c ws e :
  replay_protection_window c = size -> Forall2 sim (replay_detector c) ws ->
  Forall2 sim (replay_detector (extend_detectors c e)) (extend_windows ws e).
Proof using Hsize Hwords.
  intros Hw Hs. unfold extend_detectors, extend_windows. cbn. unfold constant. apply Forall2_app; [done|].
  rewrite <-(Forall2_length _ _ _ Hs), Hw. apply Forall2_replicate, new_sim; done.
Qed.

Lemma accepted_extend ws e e' : accepted_in (extend_windows ws e) e' = accepted_in ws e'.
Proof using Type.
  unfold accepted_in, extend_windows. destruct (decide (Z.to_nat e' < length ws)%nat) as [Hlt|Hge].
  - by rewrite lookup_app_l.
  - rewrite lookup_app_r, (lookup_ge_None_2 ws) by lia. destruct (replicate _ _ !! _) eqn:Hr; [|done].
    by apply lookup_replicate in Hr as [-> _].
Qed.

Lemma accepted_insert ws e w e' :
  (Z.to_nat e < length ws)%nat -> 0 <= e -> 0 <= e' ->
  accepted_in (<[Z.to_nat e := w]> ws) e' = if decide (e' = e) then w_accepted w else accepted_in ws e'.
Proof using Type.
  intros Hlt He He'. unfold accepted_in. case_decide as Heq.
  - subst. by rewrite list_lookup_insert_eq.
  - rewrite list_lookup_insert_ne by lia. done.
Qed.

(** [check] answers whether the number is fresh and changes the detectors only. *)
Lemma check_tracks c acc e seq :
  replay_protection_window c = size -> tracks (replay_detector c) acc -> 0 <= e -> 0 <= seq ->
  exists ds, check_replay (extend_detectors c e) e seq
             = Ret (fresh size MAX_SEQUENCE_NUMBER (acc e) seq, c {{ replay_detector := ds }})
    /\ tracks ds acc
    /\ (fresh size MAX_SEQUENCE_NUMBER (acc e) seq = true -> allows ds acc e seq).
Proof using Hsize Hwords Hlimit.
  intros Hw (ws & Hs & Hacc) He Hseq. apply (extend_sim c ws e Hw) in Hs. set (ws1 := extend_windows ws e) in *.
  assert (forall e', 0 <= e' -> accepted_in ws1 e' = acc e') as Hacc1.
  { intros. unfold ws1. rewrite accepted_extend. auto. }
  assert (Z.to_nat e < length ws1)%nat as Hlt.
  { unfold ws1, extend_windows. rewrite length_app, length_replicate. lia. }
  destruct (lookup_lt_is_Some_2 ws1 (Z.to_nat e) Hlt) as [w Hlw].
  destruct (Forall2_lookup_r _ _ _ _ _ Hs Hlw) as (d & Hd & Hdw).
  assert (w_accepted w = acc e) as Hwa by (rewrite <-Hacc1 by done; unfold accepted_in; by rewrite Hlw).
  destruct (check_sim size MAX_SEQUENCE_NUMBER Hsize Hlimit Hwidth d w seq Hdw Hseq) as (d' & Hcheck & Hsim).
  rewrite Hwa in Hcheck. cbn [window_step snd] in Hsim. rewrite Hwa in Hsim.
  set (w' := mkWindow _ _) in Hsim. exists (<[Z.to_nat e := d']> (replay_detector (extend_detectors c e))).
  assert (Forall2 sim (<[Z.to_nat e := d']> (replay_detector (extend_detectors c e))) (<[Z.to_nat e := w']> ws1)) as Hs'
    by (by apply Forall2_insert).
  assert (forall e', 0 <= e' -> accepted_in (<[Z.to_nat e := w']> ws1) e' = acc e') as Hacc'.
  { intros e' He'. rewrite accepted_insert by done. case_decide; [by subst|auto]. }
  split; [|split].
  - unfold check_replay, index. rewrite Hd. cbn [mbind outcome_bind]. by rewrite Hcheck.
  - by exists (<[Z.to_nat e := w']> ws1).
  - intros Hfresh. exists (<[Z.to_nat e := w']> ws1). split; [done|]. split; [done|]. split.
    + rewrite list_lookup_insert_eq by done. unfold w'. by rewrite Hfresh.
    + intros Hin. by rewrite fresh_once in Hfresh.
Qed.

Lemma allows_tracks ds acc e seq : allows ds acc e seq -> tracks ds acc.
Proof using Type. intros (ws & Hs & Hacc & _). by exists ws. Qed.

(** [accept] marks the number the check allowed. *)
Lemma accept_tracks ds acc e seq :
  allows ds acc e seq -> 0 <= e -> exists ds', accept_at ds e = Ret ds' /\ tracks ds' (mark acc e seq).
Proof using Hsize Hwords Hlimit.
  intros (ws & Hs & Hacc & Hw & Hnew) He. destruct (Forall2_lookup_r _ _ _ _ _ Hs Hw) as (d & Hd & Hdw).
  destruct (accept_sim size MAX_SEQUENCE_NUMBER Hsize Hwords Hlimit Hwidth d _ Hdw) as (d' & Haccept & Hsim).
  cbn [window_step snd w_candidate w_accepted] in Hsim. rewrite bool_decide_eq_false_2 in Hsim by done.
  exists (<[Z.to_nat e := d']> ds). unfold accept_at, index. rewrite Hd. cbn [mbind outcome_bind]. rewrite Haccept.
  split; [done|]. eexists. split; [by apply Forall2_insert|].
  intros e' He'. rewrite accepted_insert by (try done; by eapply lookup_lt_Some). unfold mark.
  case_decide; [done|auto].
Qed.
End windows.

(** ** What the reader makes of a record *)

Section reader.
  Context `{Crypto}.

(** The fields that only the reader changes. *)
Record same_reader (c c' : Conn) : Prop := {
  sr_window : replay_protection_window c' = replay_protection_window c;
  sr_detectors : replay_detector c' = replay_detector c;
  sr_queued : encrypted_packets c' = encrypted_packets c;
  sr_decrypted : decrypted c' = decrypted c }.

(** The ways in which the handling of a record with header [h], decrypted to [plain], ends. *)
Inductive settled (c : Conn) (h : RecordLayerHeader) (plain : bytes) (c' : Conn) : Prop :=
  | settled_dropped : same_reader c c' -> settled c h plain c'
  | settled_queued :
      invalid_cipher_suite c = true ->
      same_reader (c {{ encrypted_packets := encrypted_packets c ++ [plain] }}) c' -> settled c h plain c'
  | settled_accepted ds :
      accept_at (replay_detector c) (epoch h) = Ret ds ->
      same_reader (c {{ replay_detector := ds }}) c' -> settled c h plain c'
  | settled_delivered ds r data :
      accept_at (replay_detector c) (epoch h) = Ret ds ->
      RecordLayer.unmarshal plain = Ok r -> content r = ContentApplicationData data -> epoch h <> 0 ->
      same_reader (c {{ replay_detector := ds }} {{ decrypted := decrypted c ++ [data] }}) c' -> settled c h plain c'.

Lemma pop_messages_same fuel c c' : pop_messages fuel c = Ret c' -> same_reader c c'.
Proof using Type.
  revert c. induction fuel as [|fuel IH]; intros c Hp; [done|]. cbn [pop_messages] in Hp.
  apply handle_Ret in Hp as [([[out e] b] & _ & Hp)|(err & _ & Hp)]; [|by injection Hp as <-].
  apply handle_Ret in Hp as [([h rest] & _ & Hp)|(err & _ & Hp)].
  - destruct (HandshakeCache.push _ _ _ _ _ _) as [pushed items]. by apply IH in Hp as [].
  - by apply IH in Hp as [].
Qed.

Lemma accept_replay_Ret c e c' :
  accept_replay c e = Ret c' -> exists ds, accept_at (replay_detector c) e = Ret ds /\ c' = c {{ replay_detector := ds }}.
Proof using Type.
  intros Ha. apply outcome_bind_Ret in Ha as (ds & Hd & Hc). exists ds. split; [done|]. by injection Hc as <-.
Qed.

Lemma handle_content_settled c h e pkt enqueue r res c' :
  RecordLayer.unmarshal pkt = Ok r ->
  handle_content c h e pkt enqueue (content r) = Ret (res, c') -> settled c h pkt c'.
Proof using Type.
  intros Hr Hc. destruct (content r) as [|a|hs|data] eqn:Hcontent; cbn [handle_content] in Hc.
  - destruct (invalid_cipher_suite c) eqn:Hinv.
    { injection Hc as <- <-. destruct enqueue; [by apply settled_queued|by apply settled_dropped]. }
    apply outcome_bind_Ret in Hc as (n1 & _ & Hc). apply outcome_bind_Ret in Hc as (n2 & _ & Hc).
    destruct (_ =? _); [|injection Hc as <- <-; by apply settled_dropped].
    apply outcome_bind_Ret in Hc as (c1 & Ha & Hc). apply accept_replay_Ret in Ha as (ds & Ha & ->).
    injection Hc as <- <-. by apply settled_accepted with ds.
  - apply outcome_bind_Ret in Hc as (c1 & Ha & Hc). apply accept_replay_Ret in Ha as (ds & Ha & ->).
    injection Hc as <- <-. by apply settled_accepted with ds.
  - injection Hc as <- <-. by apply settled_dropped.
  - destruct (Z.eqb_spec (epoch h) 0); [injection Hc as <- <-; by apply settled_dropped|].
    apply outcome_bind_Ret in Hc as (c1 & Ha & Hc). apply accept_replay_Ret in Ha as (ds & Ha & ->).
    injection Hc as <- <-. by eapply (settled_delivered _ _ _ _ ds r data).
Qed.

Lemma handle_plain_packet_settled c h e pkt enqueue res c' :
  handle_plain_packet c h e pkt enqueue = Ret (res, c') -> settled c h pkt c'.
Proof using Type.
  intros Hc. unfold handle_plain_packet in Hc. destruct (FragmentBuffer.push _ _) as [pushed b].
  apply handle_Ret in Hc as [(is_handshake & _ & Hc)|(err & _ & Hc)]; [|injection Hc as <- <-; by apply settled_dropped].
  destruct is_handshake.
  - apply outcome_bind_Ret in Hc as (c1 & Ha & Hc). apply accept_replay_Ret in Ha as (ds & Ha & ->).
    apply outcome_bind_Ret in Hc as (c2 & Hpop & Hc). injection Hc as <- <-.
    apply pop_messages_same in Hpop. apply settled_accepted with ds; [done|]. by destruct Hpop.
  - apply handle_Ret in Hc as [(r & Hr & Hc)|(err & _ & Hc)]; [|injection Hc as <- <-; by apply settled_dropped].
    by apply handle_content_settled in Hc as [[]|? []|? ? []|? ? ? ? ? ? ? []]; [..|done];
      [apply settled_dropped|apply settled_queued|eapply settled_accepted|eapply settled_delivered].
Qed.
End reader.

(** *** Numbers of records made of bytes *)

Lemma read_exact_bytes n r b rest :
  is_bytes r -> read_exact n r = Ok (b, rest) -> is_bytes b /\ is_bytes rest /\ length b = n.
Proof.
  unfold read_exact. intros Hr Hb. destruct (Nat.leb_spec n (length r)); [|done]. apply (inj Ok) in Hb.
  injection Hb as <- <-. split; [by apply Forall_take|]. split; [by apply Forall_drop|]. rewrite length_take. lia.
Qed.

Lemma read_uint_bytes n r z rest :
  is_bytes r -> read_uint n r = Ok (z, rest) -> 0 <= z < 256 ^ Z.of_nat n /\ is_bytes rest.
Proof.
  intros Hr Hz. apply bind_Ok_inv in Hz as ([b r'] & Hb & Hz). apply (inj Ok) in Hz. injection Hz as <- <-.
  apply read_exact_bytes in Hb as (Hb & Hrest & <-); [|done]. split; [by apply from_be_bytes_range|done].
Qed.

Lemma header_number_range r h rest :
  is_bytes r -> RecordLayerHeader.unmarshal r = Ok (h, rest) -> 0 <= epoch h /\ 0 <= sequence_number h.
Proof.
  intros Hr Hh. unfold RecordLayerHeader.unmarshal, read_with, read_version, read_u8, read_u16 in Hh.
  repeat (apply bind_Ok_inv in Hh as ([? ?] & Hread & Hh);
    repeat (apply bind_Ok_inv in Hread as ([? ?] & ? & Hread)); try (apply (inj Ok) in Hread; injection Hread as <- <-)).
  apply read_uint_bytes in H as [_ H]; [|done]. apply read_uint_bytes in H0 as [_ H0]; [|done].
  apply read_uint_bytes in H1 as [_ H1]; [|done]. apply read_exact_bytes in H2 as (H2 & H4 & _); [|done].
  apply read_exact_bytes in Hread as (Hl & _ & _); [|done].
  destruct (_ && _); [done|]. apply bind_Ok_inv in Hh as ([len ?] & _ & Hh). apply (inj Ok) in Hh. injection Hh as <- <-.
  cbn [epoch sequence_number]. split; [by apply from_be_bytes_range|].
  apply from_be_bytes_range. by repeat (apply Forall_cons_2; [done|]).
Qed.

Lemma unpack_records_bytes fuel buf offset pkts :
  is_bytes buf -> unpack_records fuel buf offset = Ok pkts -> Forall is_bytes pkts.
Proof.
  intros Hb. revert offset pkts. induction fuel as [|fuel IH]; intros offset pkts Hu; cbn [unpack_records] in Hu.
  { destruct (_ =? _)%nat; [|done]. by apply (inj Ok) in Hu as <-. }
  destruct (_ =? _)%nat; [by apply (inj Ok) in Hu as <-|]. destruct (_ <=? _)%nat; [done|].
  apply bind_Ok_inv in Hu as (len & _ & Hu). destruct (_ <? _)%nat; [done|].
  apply bind_Ok_inv in Hu as (pkt & Hpkt & Hu). apply bind_Ok_inv in Hu as (rest & Hrest & Hu).
  apply (inj Ok) in Hu as <-. constructor; [|by eapply IH].
  unfold bslice, slice in Hpkt. case_decide; [|done]. apply (inj Ok) in Hpkt as <-.
  by apply Forall_take, Forall_drop.
Qed.

(** ** At most once *)

(** A payload given to the application: the record it came in and the suite that opened it. *)
Record Delivery := mkDelivery {
  dv_record : bytes;
  dv_header : RecordLayerHeader;
  dv_suite : CipherSuite;
  dv_data : bytes }.

Definition dv_number (d : Delivery) : Z * Z := (epoch (dv_header d), sequence_number (dv_header d)).

Definition opened `{Crypto} (d : Delivery) : Prop :=
  exists rest plain r,
    RecordLayerHeader.unmarshal (dv_record d) = Ok (dv_header d, rest) /\ epoch (dv_header d) <> 0
    /\ CipherSuite.is_initialized (dv_suite d) = true /\ CipherSuite.decrypt (dv_suite d) (dv_record d) = Ok plain
    /\ RecordLayer.unmarshal plain = Ok r /\ content r = ContentApplicationData (dv_data d).

Section once.
  Context `{Crypto} (size : Z) (Hsize : 0 < size) (Hwords : size mod 64 = 0) (Hlimit : size < MAX_SEQUENCE_NUMBER).

(** What holds of a connection that received the records [received] and delivered [log]. *)
Record reader_inv (received : list bytes) (c : Conn) (log : list Delivery) : Prop := {
  ri_window : replay_protection_window c = size;
  ri_tracks : exists acc, tracks size (replay_detector c) acc
    /\ Forall (fun d => 0 <= epoch (dv_header d)
                        /\ sequence_number (dv_header d) ∈ acc (epoch (dv_header d))) log;
  ri_queued : Forall (fun p => p ∈ received /\ is_bytes p) (encrypted_packets c);
  ri_opened : Forall (fun d => opened d /\ dv_record d ∈ received) log;
  ri_once : NoDup (map dv_number log) }.

Lemma mark_mono acc e seq x e' : x ∈ acc e' -> x ∈ mark acc e seq e'.
Proof using Type. unfold mark. case_decide; [subst; by right|done]. Qed.

Lemma same_reader_inv received c c' log : same_reader c c' -> reader_inv received c log -> reader_inv received c' log.
Proof using Type. intros [Hw Hd Hq _] []. split; rewrite ?Hw, ?Hd, ?Hq; done. Qed.

Lemma queued_inv received c c' log pkt :
  pkt ∈ received -> is_bytes pkt -> reader_inv received c log ->
  same_reader (c {{ encrypted_packets := encrypted_packets c ++ [pkt] }}) c' -> reader_inv received c' log.
Proof using Type.
  intros Hin Hb [Hw Ht Hq Ho Hn] [Hw' Hd' Hq' _]. cbn in *. unfold constant in *. split; rewrite ?Hw', ?Hd'; try done.
  rewrite Hq'. apply Forall_app. split; [done|]. by repeat constructor.
Qed.

(** The end of the handling of a record whose number the detector allowed. *)
Lemma settled_inv received c log pkt h rest plain c' acc :
  pkt ∈ received -> is_bytes pkt -> RecordLayerHeader.unmarshal pkt = Ok (h, rest) ->
  reader_inv received c log ->
  allows size (replay_detector c) acc (epoch h) (sequence_number h) -> 0 <= epoch h ->
  Forall (fun d => 0 <= epoch (dv_header d) /\ sequence_number (dv_header d) ∈ acc (epoch (dv_header d))) log ->
  (invalid_cipher_suite c = true -> plain = pkt) ->
  (epoch h <> 0 -> exists cs, CipherSuite.is_initialized cs = true /\ CipherSuite.decrypt cs pkt = Ok plain) ->
  settled c h plain c' ->
  exists new, reader_inv received c' (log ++ new) /\ decrypted c' = decrypted c ++ map dv_data new.
Proof using Hsize Hwords Hlimit.
  intros Hin Hb Hh Hi Hal He Hlog Hplain Hcs [Hs|Hinv Hs|ds Ha Hs|ds r data Ha Hr Hdata Hne Hs].
  - exists []. rewrite !app_nil_r. split; [by eapply same_reader_inv|apply Hs].
  - exists []. rewrite !app_nil_r. rewrite (Hplain Hinv) in Hs. split; [by eapply queued_inv|apply Hs].
  - destruct (accept_tracks size Hsize Hwords Hlimit _ _ _ _ Hal He) as (ds' & Ha' & Ht). rewrite Ha in Ha'. simplify_eq.
    exists []. rewrite !app_nil_r. split; [|apply Hs]. destruct Hi, Hs as [Hw' Hd' Hq' _]. cbn in *. unfold constant in *.
    split; rewrite ?Hw', ?Hq'; try done. rewrite Hd'. eexists. split; [done|]. eapply Forall_impl; [done|]. cbn.
    intros d [? ?]. split; [done|]. by apply mark_mono.
  - destruct (accept_tracks size Hsize Hwords Hlimit _ _ _ _ Hal He) as (ds' & Ha' & Ht). rewrite Ha in Ha'. simplify_eq.
    destruct (Hcs Hne) as (cs & Hcsi & Hdec). destruct Hal as (_ & _ & _ & _ & Hnew).
    exists [mkDelivery pkt h cs data]. split; [|apply Hs]. destruct Hi, Hs as [Hw' Hd' Hq' _]. cbn in *. unfold constant in *.
    split; rewrite ?Hw', ?Hq'; try done.
    + rewrite Hd'. eexists. split; [done|]. apply Forall_app. split.
      * eapply Forall_impl; [done|]. cbn. intros d [? ?]. split; [done|]. by apply mark_mono.
      * repeat constructor; cbn; [done|]. unfold mark. rewrite decide_True by done. by left.
    + apply Forall_app. split; [done|]. repeat constructor; cbn; [|done]. by exists rest, plain, r.
    + rewrite map_app. apply NoDup_app. split; [done|]. split; [|apply NoDup_singleton].
      intros n Hn [= ->]%list_elem_of_singleton. apply list_elem_of_fmap in Hn as (d & Hd & Hdin).
      rewrite Forall_forall in Hlog. destruct (Hlog d Hdin) as [_ Hacc]. unfold dv_number in Hd. cbn in Hd.
      injection Hd as He' Hs'. by rewrite <-He', <-Hs' in Hacc.
Qed.

Lemma enqueue_inv received c log pkt enqueue :
  pkt ∈ received -> is_bytes pkt -> reader_inv received c log -> reader_inv received (enqueue_packet enqueue pkt c) log.
Proof using Type. intros Hin Hb Hi. destruct enqueue; [by eapply queued_inv|done]. Qed.

Lemma handle_incoming_packet_inv received c log pkt enqueue res c' :
  pkt ∈ received -> is_bytes pkt -> reader_inv received c log ->
  handle_incoming_packet c pkt enqueue = Ret (res, c') ->
  exists new, reader_inv received c' (log ++ new) /\ decrypted c' = decrypted c ++ map dv_data new.
Proof using Hsize Hwords Hlimit.
  intros Hin Hb Hi Hc. unfold handle_incoming_packet in Hc.
  assert (forall c2, reader_inv received c2 log -> decrypted c2 = decrypted c ->
    exists new, reader_inv received c2 (log ++ new) /\ decrypted c2 = decrypted c ++ map dv_data new) as Hnone.
  { intros c2 H2 Hd. exists []. by rewrite !app_nil_r. }
  apply handle_Ret in Hc as [([h rest] & Hh & Hc)|(err & _ & Hc)]; [|injection Hc as <- <-; by apply Hnone].
  destruct (header_number_range pkt h rest Hb Hh) as [He Hseq].
  destruct (_ <? _).
  { destruct (_ <? _); injection Hc as <- <-; [by apply Hnone|]. apply Hnone; [by apply enqueue_inv|by destruct enqueue]. }
  destruct (ri_tracks _ _ _ Hi) as (acc & Ht & Hlog).
  destruct (check_tracks size Hsize Hwords Hlimit c acc _ _ (ri_window _ _ _ Hi) Ht He Hseq) as (ds & Hcheck & Ht' & Hal).
  rewrite Hcheck in Hc. cbn [mbind outcome_bind] in Hc. set (c1 := c {{ replay_detector := ds }}) in *.
  assert (reader_inv received c1 log) as Hi1 by (destruct Hi; split; try done; by exists acc).
  destruct (fresh _ _ _ _); cbn [negb] in Hc; [|injection Hc as <- <-; by apply Hnone]. specialize (Hal eq_refl).
  assert (forall plain, handle_plain_packet c1 h (remote_epoch c) plain enqueue = Ret (res, c') ->
    (invalid_cipher_suite c1 = true -> plain = pkt) ->
    (epoch h <> 0 -> exists cs, CipherSuite.is_initialized cs = true /\ CipherSuite.decrypt cs pkt = Ok plain) ->
    exists new, reader_inv received c' (log ++ new) /\ decrypted c' = decrypted c ++ map dv_data new) as Hplain.
  { intros plain Hp Hinv Hcs. apply handle_plain_packet_settled in Hp.
    by apply (settled_inv received c1 log pkt h rest plain c' acc). }
  destruct (Z.eqb_spec (epoch h) 0) as [He0|Hne]; cbn [negb] in Hc; [by apply (Hplain pkt)|].
  destruct (invalid_cipher_suite c1) eqn:Hinv.
  { injection Hc as <- <-. apply Hnone; [by apply enqueue_inv|by destruct enqueue]. }
  unfold invalid_cipher_suite in Hinv. destruct (cipher_suite c1) as [cs|]; [|done]. apply negb_false_iff in Hinv.
  apply handle_Ret in Hc as [(plain & Hdec & Hc)|(err & _ & Hc)].
  - apply (Hplain plain); [done|done|]. intros _. by exists cs.
  - destruct (CipherSuite.is_psk cs); injection Hc as <- <-; by apply Hnone.
Qed.

Lemma handle_incoming_result_same r hs c : handle_incoming_result r = (hs, c) -> same_reader r.2 c.
Proof using Type.
  destruct r as [[[b a] e] c0]. cbn. destruct a as [a|]; [destruct (_ || _)|]; [|destruct e..]; by intros [= <- <-].
Qed.

Lemma handle_records_inv received enqueue pkts c log hs r c' :
  Forall (fun p => p ∈ received /\ is_bytes p) pkts -> reader_inv received c log ->
  handle_records enqueue c pkts hs = Ret (r, c') ->
  exists new, reader_inv received c' (log ++ new) /\ decrypted c' = decrypted c ++ map dv_data new.
Proof using Hsize Hwords Hlimit.
  intros Hp. revert c log hs. induction Hp as [|pkt pkts [Hin Hb] _ IH]; intros c log hs Hi Hr; cbn [handle_records] in Hr.
  { injection Hr as <- <-. exists []. by rewrite !app_nil_r. }
  apply outcome_bind_Ret in Hr as ([res c1] & Hc1 & Hr).
  destruct (handle_incoming_packet_inv received c log pkt enqueue res c1 Hin Hb Hi Hc1) as (new & Hi1 & Hd1).
  destruct (handle_incoming_result (res, c1)) as [hs' c2] eqn:Hres. apply handle_incoming_result_same in Hres.
  cbn [snd] in Hres. pose proof (same_reader_inv _ _ _ _ Hres Hi1) as Hi2. rewrite <-(sr_decrypted _ _ Hres) in Hd1.
  destruct hs' as [hs'| | |]; [|injection Hr as <- <-; by exists new..].
  destruct (IH c2 (log ++ new) _ Hi2 Hr) as (new' & Hi' & Hd'). exists (new ++ new').
  rewrite (assoc_L (++)), map_app, (assoc_L (++)), <-Hd1. done.
Qed.
End once.

(** A run of the reader over datagrams, with the payloads it delivers.  The queue is handled
    again when the handshake asks for it.  The other tasks (the outgoing one, the handshake,
    the application) may change everything in between but the detectors and the queue. *)
Definition delivered (c c' : Conn) : list bytes := drop (length (decrypted c)) (decrypted c').

Record other_task (c c' : Conn) : Prop := {
  ot_window : replay_protection_window c' = replay_protection_window c;
  ot_detectors : replay_detector c' = replay_detector c;
  ot_queued : encrypted_packets c' = encrypted_packets c }.

Inductive reader_run `{Crypto} : Conn -> list bytes -> list bytes -> Conn -> Prop :=
  | run_end c : reader_run c [] [] c
  | run_datagram c buf hs c1 bufs payloads c' :
      is_bytes buf -> receive c buf = Ret (hs, c1) -> reader_run c1 bufs payloads c' ->
      reader_run c (buf :: bufs) (delivered c c1 ++ payloads) c'
  | run_queued c c1 bufs payloads c' :
      receive_queued c = Ret c1 -> reader_run c1 bufs payloads c' ->
      reader_run c bufs (delivered c c1 ++ payloads) c'
  | run_other c c1 bufs payloads c' :
      other_task c c1 -> reader_run c1 bufs payloads c' -> reader_run c bufs payloads c'.

Definition records_of (bufs : list bytes) : list bytes :=
  concat (map (fun buf => sent_by (unpack_datagram buf)) bufs).

Section runs.
  Context `{Crypto} (size : Z) (Hsize : 0 < size) (Hwords : size mod 64 = 0) (Hlimit : size < MAX_SEQUENCE_NUMBER).

Lemma end_of_reader_same {A} (r : result A) c : same_reader c (end_of_reader r c).
Proof using Type. destruct r as [|[]| |]; done. Qed.

Lemma delivered_new c c' new : decrypted c' = decrypted c ++ map dv_data new -> delivered c c' = map dv_data new.
Proof using Type. intros Hd. unfold delivered. by rewrite Hd, drop_app_length. Qed.

Lemma receive_inv received c log buf hs c' :
  is_bytes buf -> (forall p, p ∈ records_of [buf] -> p ∈ received) -> reader_inv size received c log ->
  receive c buf = Ret (hs, c') ->
  exists new, reader_inv size received c' (log ++ new) /\ delivered c c' = map dv_data new.
Proof using Hsize Hwords Hlimit.
  intros Hb Hin Hi Hr. unfold receive in Hr. destruct (reading c).
  2: { injection Hr as <- <-. exists []. rewrite app_nil_r. split; [done|]. unfold delivered. by rewrite drop_all. }
  apply outcome_bind_Ret in Hr as ([r c1] & Hr1 & Hr). injection Hr as _ <-.
  unfold read_and_buffer in Hr1. apply handle_Ret in Hr1 as [(pkts & Hu & Hr1)|(e & _ & Hr1)].
  - apply (handle_records_inv size Hsize Hwords Hlimit received) with (log := log) in Hr1 as (new & Hi1 & Hd1); [|..|done].
    + exists new. split; [eapply same_reader_inv; [apply end_of_reader_same|done]|].
      apply delivered_new. rewrite <-Hd1. by destruct (end_of_reader_same r c1).
    + apply Forall_forall. intros p Hp. split.
      * apply Hin. unfold records_of. cbn. by rewrite Hu, app_nil_r.
      * pose proof (unpack_records_bytes _ _ _ _ Hb Hu) as Hall. rewrite Forall_forall in Hall. by apply Hall.
  - injection Hr1 as <- <-. exists []. rewrite app_nil_r.
    split; [eapply same_reader_inv; [apply end_of_reader_same|done]|].
    apply (delivered_new _ _ []). rewrite app_nil_r. by destruct (end_of_reader_same (@Err Error bool e) c).
Qed.

Lemma receive_queued_inv received c log c' :
  reader_inv size received c log -> receive_queued c = Ret c' ->
  exists new, reader_inv size received c' (log ++ new) /\ delivered c c' = map dv_data new.
Proof using Hsize Hwords Hlimit.
  intros Hi Hr. unfold receive_queued in Hr. destruct (reading c).
  2: { injection Hr as <-. exists []. rewrite app_nil_r. split; [done|]. unfold delivered. by rewrite drop_all. }
  apply outcome_bind_Ret in Hr as ([r c1] & Hr1 & Hr). injection Hr as <-.
  unfold handle_queued_packets in Hr1. apply outcome_bind_Ret in Hr1 as ([r2 c2] & Hr2 & Hr1). injection Hr1 as <- <-.
  apply (handle_records_inv size Hsize Hwords Hlimit received) with (log := log) in Hr2 as (new & Hi1 & Hd1);
    [|by destruct Hi|destruct Hi; split; try done; constructor].
  exists new. split; [eapply same_reader_inv; [apply end_of_reader_same|done]|].
  apply delivered_new. change (decrypted (c {{ encrypted_packets := [] }})) with (decrypted c) in Hd1. rewrite <-Hd1. by destruct (end_of_reader_same (r2 ≫= (fun _ => Ok tt)) c2).
Qed.

Lemma reader_run_inv received c bufs payloads c' log :
  reader_run c bufs payloads c' -> (forall p, p ∈ records_of bufs -> p ∈ received) -> reader_inv size received c log ->
  exists new, payloads = map dv_data new /\ reader_inv size received c' (log ++ new).
Proof using Hsize Hwords Hlimit.
  intros Hrun. revert log. induction Hrun as [c|c buf hs c1 bufs payloads c' Hb Hr _ IH|c c1 bufs payloads c' Hr _ IH
    |c c1 bufs payloads c' [Hw Hd Hq] _ IH]; intros log Hin Hi.
  - exists []. by rewrite app_nil_r.
  - apply (receive_inv received) with (log := log) in Hr as (new & Hi1 & ->); [|done| |done].
    2: { intros p Hp. apply Hin. unfold records_of in *. cbn in *. rewrite app_nil_r in Hp. apply elem_of_app. by left. }
    destruct (IH (log ++ new)) as (new' & -> & Hi'); [|done|].
    { intros p Hp. apply Hin. unfold records_of in *. cbn. apply elem_of_app. by right. }
    exists (new ++ new'). by rewrite map_app, (assoc_L (++)).
  - apply (receive_queued_inv received) with (log := log) in Hr as (new & Hi1 & ->); [|done].
    destruct (IH (log ++ new)) as (new' & -> & Hi'); [done|done|].
    exists (new ++ new'). by rewrite map_app, (assoc_L (++)).
  - apply IH; [done|]. destruct Hi. split; rewrite ?Hw, ?Hd, ?Hq; done.
Qed.
End runs.


Definition sample_datagram : bytes := [23; 254; 253; 0; 1; 0; 0; 0; 0; 0; 1; 0; 17; 7] ++ replicate 16 0.


(** ** Exactly once within a window *)

(** The record [raw] carries the payload [p] under the number [s] of epoch 1, for a peer
    with the suite [cs]. *)
Definition carries_payload `{Crypto} (cs : CipherSuite) (s : Z) (p raw : bytes) : Prop :=
  unpack_datagram raw = Ok [raw]
  /\ exists h rest plain plain_rest,
    RecordLayerHeader.unmarshal raw = Ok (h, rest) /\ epoch h = 1 /\ sequence_number h = s
    /\ CipherSuite.decrypt cs raw = Ok plain /\ RecordLayerHeader.unmarshal plain = Ok (h, plain_rest)
    /\ content_type h = CtApplicationData /\ plain_rest = p
    /\ Z.of_nat (length plain) = 13 + Z.of_nat (length p).

Definition MAX_PAYLOAD : Z := 2 ^ 14.

Lemma unpack_single h hb body :
  wf_header h -> RecordLayerHeader.marshal h = Ok hb -> content_len h = Z.of_nat (length body) -> (0 < length body)%nat ->
  unpack_datagram (hb ++ body) = Ok [hb ++ body].
Proof.
  intros Hh Hm Hlen Hb. pose proof (header_length h hb Hh Hm) as Hl. unfold unpack_datagram.
  assert (length (hb ++ body) = RECORD_LAYER_HEADER_SIZE + length body)%nat as Hlb by (rewrite length_app; lia).
  remember (length (hb ++ body)) as n eqn:Hn in |- * at 1. destruct n as [|[|n]]; [unfold RECORD_LAYER_HEADER_SIZE in *; lia..|].
  cbn [unpack_records]. rewrite Hlb, Nat.sub_0_r, (proj2 (Nat.leb_gt _ _)) by lia.
  replace (_ =? 0)%nat with false by (symmetry; apply Nat.eqb_neq; lia).
  assert (u16_at (hb ++ body) (0 + RECORD_LAYER_HEADER_SIZE - 2) = Ok (Z.of_nat (length body))) as ->.
  { destruct Hh as (_ & _ & Hs & Hu & _). rewrite Hlen in Hu. unfold RecordLayerHeader.marshal in Hm.
    destruct (_ <? _) in Hm; [done|]. apply (inj Ok) in Hm as <-. destruct (sequence_number_bytes _ Hs) as [Hq _].
    rewrite Hlen, !(assoc_L (++)), <-(assoc_L (++) _ (write_u16 (Z.of_nat _))). apply u16_at_app; [|done].
    unfold write_version. rewrite !length_app, Hq, !length_write_u8, length_write_u16. done. }
  cbn [mbind fallible_bind]. rewrite Nat2Z.id, (proj2 (Nat.ltb_ge _ _)) by lia.
  rewrite bslice_front, take_ge by lia. cbn [mbind fallible_bind]. by rewrite Nat.add_0_l, Nat.eqb_refl.
Qed.

Section messages.
  Context `{CryptoLaws} (rng : Z -> Z -> bytes) (Hrng : forall e s, (16 <= length (rng e s))%nat).

(** [a] is ready to send the record number [n], and [b], which has the keys to open it, has
    seen no later one. *)
Record established (size : Z) (a b : Conn) (n : Z) : Prop := {
  es_open : closed a = false;
  es_completed : handshake_completed_successfully a = true;
  es_epoch : local_epoch a = 1;
  es_next : next_of (local_sequence_number a) 1 = n;
  es_suites : exists suite ms cr sr c1 c2,
    initialized_pair suite ms cr sr (is_client a) c1 c2
    /\ cipher_suite a = Some c1 /\ cipher_suite b = Some c2;
  es_reading : reading b = true;
  es_remote_epoch : 1 <= remote_epoch b;
  es_room : Z.of_nat (FragmentBuffer.size (fragment_buffer b)) + 13 + MAX_PAYLOAD < FRAGMENT_BUFFER_MAX_SIZE;
  es_window : replay_protection_window b = size;
  es_seen : exists acc, tracks size (replay_detector b) acc /\ forall s, s ∈ acc 1 -> s < n }.

Lemma init_det c ms cr sr b c1 c2 c1' c2' :
  initialized_pair c ms cr sr b c1 c2 -> initialized_pair c ms cr sr b c1' c2' -> c1' = c1 /\ c2' = c2.
Proof using Type.
  intros (H1 & H2 & _) (H1' & H2' & _). rewrite H1 in H1'. rewrite H2 in H2'.
  apply (inj Ok) in H1'. by apply (inj Ok) in H2'.
Qed.

Definition payload_header (n : Z) (p : bytes) : RecordLayerHeader :=
  mkRecordLayerHeader CtApplicationData PROTOCOL_VERSION1_2 1 n (as_u 16 (Z.of_nat (length p))).

Lemma payload_header_wf n p : is_u 48 n -> wf_header (payload_header n p).
Proof using Type.
  intros Hn. split; [by right|]. split; [done|]. split; [done|]. split; [by apply as_u_range|done].
Qed.

(** What is sealed under a number opens to the payload on the other side. *)
Lemma sealed_payload suite ms cr sr b c1 c2 nonce n hb p :
  initialized_pair suite ms cr sr b c1 c2 -> is_u 48 n -> (16 <= length nonce)%nat -> Z.of_nat (length p) <= MAX_PAYLOAD ->
  RecordLayerHeader.marshal (payload_header n p) = Ok hb ->
  exists raw, CipherSuite.encrypt c1 nonce (payload_header n p) (hb ++ p) = Ok raw /\ carries_payload c2 n p raw.
Proof.
  intros Hpair Hn Hnonce Hp Hhb. unfold MAX_PAYLOAD in Hp.
  destruct (init_pair suite ms cr sr b) as (c1' & c2' & Hpair' & Hrec).
  destruct (init_det _ _ _ _ _ _ _ _ _ Hpair Hpair') as [-> ->]. pose proof (payload_header_wf n p Hn) as Hwf.
  destruct (Hrec nonce _ hb p Hwf Hhb Hnonce) as (raw & hb' & He & Hd & Hm & Ht & Hlen); [lia|].
  set (h := with_length _ _) in Hm. pose proof (with_length_wf _ (length raw - RECORD_LAYER_HEADER_SIZE) Hwf) as Hwf'. fold h in Hwf'.
  exists raw. split; [done|]. destruct (header_codes h Hwf') as (hb1 & Hm1 & Hl1 & Hu1).
  rewrite Hm in Hm1. apply (inj Ok) in Hm1 as <-.
  assert (raw = hb' ++ drop RECORD_LAYER_HEADER_SIZE raw) as Hraw by (by rewrite <-Ht, take_drop).
  split.
  - rewrite Hraw. apply (unpack_single h); [done|done| |rewrite length_drop; lia].
    rewrite length_drop. unfold h. cbn [content_len with_length]. apply as_u_small. bounds.
  - exists h, (drop RECORD_LAYER_HEADER_SIZE raw), (hb' ++ p), p. split; [by rewrite Hraw at 1|].
    do 2 (split; [done|]). do 4 (split; [done|]). rewrite length_app, Hl1. unfold RECORD_LAYER_HEADER_SIZE. lia.
Qed.

Lemma next_of_numbered lsn e n :
  next_of lsn e = n -> is_u 48 n ->
  next_sequence_number (extend_to lsn e) e = Ok (n, <[Z.to_nat e := n + 1]> (extend_to lsn e))
  /\ next_of (<[Z.to_nat e := n + 1]> (extend_to lsn e)) e = n + 1.
Proof using Type.
  intros Hn Hu. rewrite <-(next_of_extend lsn e e) in Hn.
  assert (Z.to_nat e < length (extend_to lsn e))%nat as Hlt by (unfold extend_to; rewrite length_app, length_replicate; lia).
  destruct (lookup_lt_is_Some_2 _ _ Hlt) as [m Hm]. unfold next_of in Hn. rewrite Hm in Hn. cbn in Hn. subst m.
  split; [|unfold next_of; by rewrite list_lookup_insert_eq].
  unfold next_sequence_number, index. rewrite Hm. cbn [lift mbind fallible_bind].
  rewrite checked_u_Ret by bounds. cbn [lift mbind fallible_bind]. by replace (n + 1 - 1) with n by lia.
Qed.

Lemma write_carries size a b n p :
  established size a b n -> is_u 48 n -> Z.of_nat (length p) <= MAX_PAYLOAD ->
  exists raw c2 lsn, write rng a p = (Ok [raw], a {{ local_sequence_number := lsn }})
    /\ next_of lsn 1 = n + 1 /\ cipher_suite b = Some c2 /\ CipherSuite.is_initialized c2 = true
    /\ carries_payload c2 n p raw.
Proof using All.
  intros [] Hn Hp. destruct es_suites0 as (suite & ms & cr & sr & c1 & c2 & Hpair & Ha & Hb).
  destruct (next_of_numbered _ 1 n es_next0 Hn) as [Hnext Hnext'].
  destruct (header_codes _ (payload_header_wf n p Hn)) as (hb & Hhb & _).
  destruct (sealed_payload suite ms cr sr _ c1 c2 (rng 1 n) n hb p Hpair Hn (Hrng 1 n) Hp Hhb) as (raw & He & Hc).
  exists raw, c2, (<[Z.to_nat 1 := n + 1]> (extend_to (local_sequence_number a) 1)).
  split; [|split; [done|]; split; [done|]; split; [apply Hpair|done]].
  unfold write, handle_outgoing_packets, application_packet. rewrite es_open0, es_completed0, es_epoch0. cbn [negb process_packets].
  cbn [pk_record content RecordLayer.new]. unfold process_packet. cbn [pk_record record_layer_header RecordLayer.new epoch].
  rewrite Hnext. cbn [attempt]. rewrite (proj2 (Z.ltb_ge _ _)) by (unfold MAX_SEQUENCE_NUMBER; bounds).
  unfold RecordLayer.marshal.
  match goal with |- context [RecordLayerHeader.marshal ?x] => change (RecordLayerHeader.marshal x)
    with (RecordLayerHeader.marshal (payload_header n p)) end.
  rewrite Hhb. cbn [mbind fallible_bind].
  match goal with |- context [Content.marshal ?x] => change (Content.marshal x) with (@Ok Error bytes p) end.
  cbn [mbind fallible_bind]. unfold protect. cbn [pk_should_encrypt].
  change (cipher_suite (a {{ local_sequence_number := _ }})) with (cipher_suite a). rewrite Ha.
  match goal with |- context [CipherSuite.encrypt c1 ?r ?h _] =>
    change (CipherSuite.encrypt c1 r h (hb ++ p)) with (CipherSuite.encrypt c1 (rng 1 n) (payload_header n p) (hb ++ p)) end.
  rewrite He. cbn [mbind fallible_bind attempt app is_empty]. done.
Qed.

Lemma handle_plain_payload c h e plain p enqueue ds :
  Z.of_nat (FragmentBuffer.size (fragment_buffer c) + length plain) < FRAGMENT_BUFFER_MAX_SIZE ->
  RecordLayerHeader.unmarshal plain = Ok (h, p) -> content_type h = CtApplicationData -> epoch h <> 0 ->
  accept_at (replay_detector c) (epoch h) = Ret ds ->
  handle_plain_packet c h e plain enqueue
  = Ret (ignored (c {{ replay_detector := ds }} {{ decrypted := decrypted c ++ [p] }})).
Proof using Type.
  intros Hroom Hh Hty He Ha. unfold handle_plain_packet, FragmentBuffer.push.
  rewrite (proj2 (Z.leb_gt _ _)) by lia. rewrite Hh. cbn [attempt]. rewrite bool_decide_eq_false_2 by (by rewrite Hty).
  cbn [negb handle]. unfold RecordLayer.unmarshal. rewrite Hh. cbn [mbind fallible_bind]. rewrite Hty.
  cbn [mbind fallible_bind handle content handle_content]. rewrite (proj2 (Z.eqb_neq _ _)) by done.
  unfold accept_replay.
  change (replay_detector (c {{ fragment_buffer := _ }})) with (replay_detector c). rewrite Ha.
  cbn [mbind outcome_bind]. by destruct c.
Qed.

(** What a receiver with the suite [cs] needs to take payloads. *)
Record ready (size : Z) (cs : CipherSuite) (b : Conn) : Prop := {
  rd_reading : reading b = true;
  rd_remote_epoch : 1 <= remote_epoch b;
  rd_window : replay_protection_window b = size;
  rd_suite : cipher_suite b = Some cs;
  rd_initialized : CipherSuite.is_initialized cs = true;
  rd_room : Z.of_nat (FragmentBuffer.size (fragment_buffer b)) + 13 + MAX_PAYLOAD < FRAGMENT_BUFFER_MAX_SIZE }.

(** A record that carries a payload is delivered when its number is fresh, and only then. *)
Lemma receive_carries size b c2 acc s p raw :
  0 < size -> size mod 64 = 0 -> size < MAX_SEQUENCE_NUMBER ->
  ready size c2 b -> tracks size (replay_detector b) acc -> 0 <= s -> Z.of_nat (length p) <= MAX_PAYLOAD -> carries_payload c2 s p raw ->
  let ok := fresh size MAX_SEQUENCE_NUMBER (acc 1) s in
  exists ds, receive b raw = Ret (false, b {{ replay_detector := ds }}
                                           {{ decrypted := decrypted b ++ (if ok then [p] else []) }})
    /\ tracks size ds (if ok then mark acc 1 s else acc).
Proof using Type.
  intros Hsize Hwords Hlimit [Hr Hep Hw Hcs Hci Hroom] Ht Hs Hp (Hu & h & rest & plain & prest & Hh & He & Hseq & Hd & Hh' & Hty & -> & Hl) ok.
  unfold receive, read_and_buffer. rewrite Hr, Hu. cbn [handle handle_records]. unfold handle_incoming_packet. rewrite Hh.
  cbn [handle]. rewrite He, Hseq, (proj2 (Z.ltb_ge _ _)) by lia.
  destruct (check_tracks size Hsize Hwords Hlimit b acc 1 s Hw Ht ltac:(lia) Hs) as (ds & -> & Ht' & Hal). fold ok in Hal |- *.
  cbn [mbind outcome_bind]. destruct ok; cbn [negb].
  2: { exists ds. split; [|done]. cbn. rewrite app_nil_r. by destruct b. }
  specialize (Hal eq_refl). cbn [Z.eqb negb].
  destruct (accept_tracks size Hsize Hwords Hlimit ds acc 1 s Hal ltac:(lia)) as (ds' & Ha & Htm).
  unfold invalid_cipher_suite. change (cipher_suite (b {{ replay_detector := ds }})) with (cipher_suite b).
  rewrite Hcs, Hci. cbn [negb]. rewrite Hd. cbn [handle].
  rewrite (handle_plain_payload (b {{ replay_detector := ds }}) h (remote_epoch b) plain p true ds'); [|..|by rewrite He|by rewrite He];
    [| |done|done].
  - exists ds'. split; [|done]. cbn. by destruct b.
  - change (fragment_buffer (b {{ replay_detector := ds }})) with (fragment_buffer b). lia.
Qed.

(** *** Series of messages *)

Fixpoint writes (a : Conn) (ps : list bytes) : result (list bytes) * Conn :=
  match ps with
  | [] => (Ok [], a)
  | p :: ps =>
      let '(r, a) := write rng a p in
      attempt a r (fun datagrams =>
        let '(rest, a) := writes a ps in
        (rest ← rest; Ok (datagrams ++ rest), a))
  end.

Fixpoint receives (b : Conn) (bufs : list bytes) : outcome Conn :=
  match bufs with
  | [] => Ret b
  | buf :: bufs => '(_, b) ← receive b buf; receives b bufs
  end.

(** The numbers of a list in the order in which they appear first. *)
Fixpoint first_arrivals (seen : list nat) (arrivals : list nat) : list nat :=
  match arrivals with
  | [] => []
  | i :: arrivals =>
      if bool_decide (i ∈ seen) then first_arrivals seen arrivals else i :: first_arrivals (i :: seen) arrivals
  end.

Lemma established_next size a b n lsn :
  established size a b n -> next_of lsn 1 = n + 1 -> established size (a {{ local_sequence_number := lsn }}) b (n + 1).
Proof using Type.
  intros [] Hl. split; try done. destruct es_seen0 as (acc & Ht & Hlt). exists acc. split; [done|].
  intros s Hs. specialize (Hlt s Hs). lia.
Qed.

Lemma writes_carry size b c2 ps a n :
  cipher_suite b = Some c2 ->
  established size a b n -> 0 <= n -> n + Z.of_nat (length ps) <= 2 ^ 48 ->
  Forall (fun p => Z.of_nat (length p) <= MAX_PAYLOAD) ps ->
  exists ds a', writes a ps = (Ok ds, a') /\ established size a' b (n + Z.of_nat (length ps))
    /\ length ds = length ps
    /\ forall i p d, ps !! i = Some p -> ds !! i = Some d -> carries_payload c2 (n + Z.of_nat i) p d.
Proof using All.
  intros Hc2 He Hn Hlen Hps. revert a n He Hn Hlen. induction Hps as [|p ps Hp _ IH]; intros a n He Hn Hlen; cbn [writes].
  { exists [], a. cbn. by rewrite Z.add_0_r. }
  cbn [length] in Hlen.
  destruct (write_carries size a b n p He) as (raw & c2' & lsn & -> & Hnext & Hc2' & _ & Hcarry); [bounds|done|]. simplify_eq.
  cbn [attempt]. destruct (IH _ (n + 1) (established_next _ _ _ _ _ He Hnext)) as (ds & a' & -> & He' & Hl & Hall); [lia..|].
  exists (raw :: ds), a'. cbn [mbind fallible_bind app length]. split; [done|].
  split; [by replace (n + Z.of_nat (S (length ps))) with (n + 1 + Z.of_nat (length ps)) by lia|]. split; [by rewrite Hl|].
  intros [|i] q d Hq Hd; cbn in Hq, Hd; simplify_eq.
  - by rewrite Z.add_0_r.
  - replace (n + Z.of_nat (S i)) with (n + 1 + Z.of_nat i) by lia. by apply Hall.
Qed.

Lemma newest_below l k : 0 < k -> (forall s, s ∈ l -> s < k) -> newest l < k.
Proof using Type.
  intros Hk. induction l as [|x l IH]; intros Hl; cbn; [done|]. fold (newest l).
  specialize (IH (fun s Hs => Hl s (list_elem_of_further _ _ _ Hs))). specialize (Hl x (list_elem_of_here _ _)). lia.
Qed.

(** Within a window of numbers only those seen are refused. *)
Lemma fresh_in_window size acc n len s :
  len <= size -> 0 <= n -> n + len <= 2 ^ 48 -> (forall x, x ∈ acc -> x < n + len) -> n <= s < n + len ->
  fresh size MAX_SEQUENCE_NUMBER acc s = bool_decide (s ∉ acc).
Proof using Type.
  intros Hlen Hn Hmax Hacc Hs. pose proof (newest_below acc (n + len) ltac:(lia) Hacc) as Hnew.
  case_bool_decide as Hin.
  - apply bool_decide_eq_true. unfold MAX_SEQUENCE_NUMBER. split; [lia|]. right. split; [lia|done].
  - apply fresh_once. destruct (decide (s ∈ acc)); [done|by contradict Hin].
Qed.

Section arrivals.
  Context (size : Z) (Hsize : 0 < size) (Hwords : size mod 64 = 0) (Hlimit : size < MAX_SEQUENCE_NUMBER).
  Context (c2 : CipherSuite) (n : Z) (ps ds : list bytes) (Hn : 0 <= n).
  Context (Hwin : Z.of_nat (length ps) <= size) (Hmax : n + Z.of_nat (length ps) <= 2 ^ 48).
  Context (Hlen : length ds = length ps) (Hps : Forall (fun p => Z.of_nat (length p) <= MAX_PAYLOAD) ps).
  Context (Hcarry : forall i p d, ps !! i = Some p -> ds !! i = Some d -> carries_payload c2 (n + Z.of_nat i) p d).

(** The numbers seen are those of the messages [seen] and older ones. *)
Definition seen_so_far (acc : Z -> list Z) (seen : list nat) : Prop :=
  Forall (fun i => i < length ps)%nat seen
  /\ forall s, (s ∈ acc 1 -> s < n \/ exists i, i ∈ seen /\ s = n + Z.of_nat i)
              /\ (forall i, i ∈ seen -> n + Z.of_nat i ∈ acc 1).

Lemma receive_arrival b acc seen i p :
  ready size c2 b -> tracks size (replay_detector b) acc -> seen_so_far acc seen -> ps !! i = Some p ->
  let new := negb (bool_decide (i ∈ seen)) in
  exists d dets acc', ds !! i = Some d
    /\ receive b d = Ret (false, b {{ replay_detector := dets }} {{ decrypted := decrypted b ++ (if new then [p] else []) }})
    /\ tracks size dets acc' /\ seen_so_far acc' (if new then i :: seen else seen).
Proof using Hsize Hwords Hlimit Hn Hwin Hmax Hlen Hps Hcarry.
  intros Hb Ht [Hrange Hseen] Hi new. pose proof (lookup_lt_Some _ _ _ Hi) as Hilt.
  destruct (lookup_lt_is_Some_2 ds i) as [d Hd]; [lia|]. exists d. pose proof (Hcarry i p d Hi Hd) as Hc.
  pose proof (Forall_lookup_1 _ _ _ _ Hps Hi) as Hp. cbn in Hp. rewrite Forall_forall in Hrange.
  destruct (receive_carries size b c2 acc (n + Z.of_nat i) p d Hsize Hwords Hlimit Hb Ht ltac:(lia) Hp Hc) as (dets & Hr & Ht').
  assert (forall x, x ∈ acc 1 -> x < n + Z.of_nat (length ps)) as Hbelow.
  { intros x Hx. destruct (proj1 (Hseen x) Hx) as [?|(k & Hk & ->)]; [lia|]. specialize (Hrange k Hk). lia. }
  rewrite (fresh_in_window size (acc 1) n (Z.of_nat (length ps)) (n + Z.of_nat i)) in Hr, Ht' by (done || lia).
  assert (bool_decide (n + Z.of_nat i ∉ acc 1) = new) as Hnew.
  { unfold new. rewrite <-bool_decide_not. apply bool_decide_ext. split; intros Hx Hy; apply Hx.
    - by apply (proj2 (Hseen 0)).
    - destruct (proj1 (Hseen _) Hy) as [?|(k & Hk & Heq)]; [lia|]. by replace i with k by lia. }
  rewrite Hnew in Hr, Ht'. exists dets, (if new then mark acc 1 (n + Z.of_nat i) else acc).
  split; [done|]. split; [done|]. split; [done|]. clear Hr Ht' Hnew. destruct new.
  - split; [constructor; [done|by apply Forall_forall]|]. unfold mark. rewrite decide_True by done. intros s. split.
    + intros [->|Hs]%elem_of_cons; [right; exists i; split; [by left|done]|].
      destruct (proj1 (Hseen s) Hs) as [?|(k & Hk & ->)]; [by left|]. right. exists k. split; [by right|done].
    + intros k [->|Hk]%elem_of_cons; [by left|]. right. by apply (proj2 (Hseen 0)).
  - split; [by apply Forall_forall|done].
Qed.

Lemma receives_arrivals arrivals b acc seen :
  Forall (fun i => i < length ps)%nat arrivals ->
  ready size c2 b -> tracks size (replay_detector b) acc -> seen_so_far acc seen ->
  exists dets acc' seen',
    receives b (omap (fun i => ds !! i) arrivals)
    = Ret (b {{ replay_detector := dets }}
             {{ decrypted := decrypted b ++ omap (fun i => ps !! i) (first_arrivals seen arrivals) }})
    /\ tracks size dets acc' /\ seen_so_far acc' seen'.
Proof using Hsize Hwords Hlimit Hn Hwin Hmax Hlen Hps Hcarry.
  intros Ha. revert b acc seen. induction Ha as [|i arrivals Hi _ IH]; intros b acc seen Hb Ht Hs.
  { exists (replay_detector b), acc, seen. cbn. rewrite app_nil_r. by destruct b. }
  destruct (lookup_lt_is_Some_2 ps i Hi) as [p Hp].
  destruct (receive_arrival b acc seen i p Hb Ht Hs Hp) as (d & dets & acc' & Hd & Hr & Ht' & Hs').
  change (i :: arrivals) with ([i] ++ arrivals). rewrite omap_app. cbn [omap list_omap]. rewrite Hd. cbn [app receives].
  rewrite Hr. cbn [mbind outcome_bind].
  match goal with |- context [receives ?c (omap _ arrivals)] => set (b1 := c) in * end.
  destruct (IH b1 acc' (if negb (bool_decide (i ∈ seen)) then i :: seen else seen)) as (dets' & acc'' & seen'' & -> & Ht'' & Hs''); [by destruct Hb, b|done|done|].
  exists dets', acc'', seen''. split; [|done]. subst b1. cbn [first_arrivals]. case_bool_decide; cbn [negb].
  - cbn. rewrite app_nil_r. by destruct b.
  - replace (omap (fun i => ps !! i) (i :: first_arrivals (i :: seen) arrivals))
      with (p :: omap (fun i => ps !! i) (first_arrivals (i :: seen) arrivals)) by (cbn; by rewrite Hp).
    destruct b. cbn. unfold constant. by rewrite <-(assoc_L (++)).
Qed.
End arrivals.

Lemma established_ready size a b n : established size a b n -> exists c2, cipher_suite b = Some c2 /\ ready size c2 b.
Proof using Type.
  intros []. destruct es_suites0 as (suite & ms & cr & sr & c1 & c2 & (_ & _ & _ & Hi) & _ & Hc2). by exists c2.
Qed.
End messages.


Definition sample_pair : Conn * Conn :=
  match @CipherSuite.init plain_crypto (CipherSuiteAes128GcmSha256 None true) [1] [2] [3] true,
        @CipherSuite.init plain_crypto (CipherSuiteAes128GcmSha256 None true) [1] [2] [3] false with
  | Ok c1, Ok c2 => (sample_conn true (Some c1), sample_conn false (Some c2))
  | _, _ => (sample_conn true None, sample_conn false None)
  end.

