(* ===== verification/DtlsFragments.v ===== *)
(** * Fragmented handshake messages, and messages that are not protected

    What [fragment_handshake] cuts a message into, [FragmentBuffer] puts together again,
    whatever the order of the fragments and however often they arrive; as long as one is
    missing, nothing is given upwards.  And what a datagram that needs no key does to an
    established connection. *)

From stdpp Require Import base list gmap strings.
From Stdlib Require Import ZArith Lia.
From coqutil Require Import Datatypes.RecordSetters.
From S2P Require Import Prelude Utf8 Fallible ReplayDetector DtlsWire DtlsCodec DtlsCrypto DtlsRecord DtlsSending DtlsReceiving.
Import DoubleBraceUpdate.
Local Open Scope Z_scope.

(** ** The pieces of a message *)

Lemma split_from_chunks fuel b n i :
  (0 < n)%nat -> (i <= length b)%nat -> (length b - i <= fuel)%nat ->
  concat (split_from fuel b n i) = drop i b /\ Forall (fun chunk => chunk <> []) (split_from fuel b n i).
Proof.
  intros Hn. revert i. induction fuel as [|fuel IH]; intros i Hi Hf; cbn [split_from].
  { rewrite drop_ge by lia. done. }
  destruct (Nat.ltb_spec i (length b)) as [Hlt|Hge]; [|rewrite drop_ge by lia; done].
  assert (take (Nat.min (i + n) (length b) - i) (drop i b) <> []) as Hne.
  { intros Hnil%(f_equal length). rewrite length_take, length_drop in Hnil. cbn in Hnil. lia. }
  cbn [concat]. destruct (decide (i + n <= length b)%nat) as [Hle|Hgt].
  - destruct (IH (i + n)%nat) as [-> Hall]; [lia..|]. split; [|by constructor].
    rewrite <-(take_drop n (drop i b)) at 2. rewrite drop_drop. f_equal. f_equal. lia.
  - assert (split_from fuel b n (i + n) = []) as ->.
    { destruct fuel as [|fuel]; [done|]. cbn [split_from]. by rewrite (proj2 (Nat.ltb_ge _ _)) by lia. }
    split; [|by constructor]. cbn. rewrite app_nil_r, take_ge; [done|]. rewrite length_drop. lia.
Qed.

Lemma filter_later k (l : list nat) :
  k ∈ l -> (length (filter (fun j => S k <= j) l) < length (filter (fun j => k <= j) l))%nat.
Proof.
  assert (forall l : list nat, (length (filter (fun j => S k <= j) l) <= length (filter (fun j => k <= j) l))%nat) as Hle.
  { clear l. intros l. induction l as [|x l IH]; [done|]. rewrite !filter_cons. repeat case_decide; cbn; lia. }
  induction l as [|x l IH]; [by intros ?%elem_of_nil|]. rewrite !filter_cons. specialize (Hle l).
  intros [<-|Hin]%elem_of_cons; repeat case_decide; cbn; try lia; specialize (IH Hin); lia.
Qed.

Section fragments.
  Context (header : HandshakeHeader) (chunks : list bytes).
  Context (Hchunks : chunks = [[]] \/ (chunks <> [] /\ Forall (fun chunk => chunk <> []) chunks)).

Definition offset_of (k : nat) : nat := length (concat (take k chunks)).

(** The header of a fragment. *)
Definition fragment_header (k : nat) (chunk : bytes) : HandshakeHeader :=
  header {{ hh_fragment_offset := Z.of_nat (offset_of k) }} {{ hh_fragment_length := Z.of_nat (length chunk) }}.

Definition is_fragment (k : nat) (f : Fragment) : Prop :=
  exists chunk, chunks !! k = Some chunk /\ fr_data f = chunk /\ fr_handshake_header f = fragment_header k chunk.

Lemma offset_next k chunk : chunks !! k = Some chunk -> offset_of (S k) = (offset_of k + length chunk)%nat.
Proof using Type.
  intros Hk. unfold offset_of. rewrite (take_S_r _ _ _ Hk), concat_app, length_app. cbn. by rewrite app_nil_r.
Qed.

Lemma offset_end : offset_of (length chunks) = length (concat chunks).
Proof using Type. unfold offset_of. by rewrite take_ge. Qed.

Lemma chunk_nonempty k chunk : chunks !! k = Some chunk -> (1 < length chunks)%nat -> (0 < length chunk)%nat.
Proof using Hchunks.
  intros Hk Hl. destruct Hchunks as [->|[_ Hall]]; [cbn in Hl; lia|].
  pose proof (Forall_lookup_1 _ _ _ _ Hall Hk) as Hne. destruct chunk; [done|cbn; lia].
Qed.

Lemma offset_mono j k : (j < k)%nat -> (k <= length chunks)%nat -> (1 < length chunks)%nat -> (offset_of j < offset_of k)%nat.
Proof using Hchunks.
  intros Hjk. induction Hjk as [|k Hjk IH]; intros Hk Hl.
  - destruct (lookup_lt_is_Some_2 chunks j ltac:(lia)) as [chunk Hc].
    rewrite (offset_next _ _ Hc). pose proof (chunk_nonempty _ _ Hc Hl). lia.
  - destruct (lookup_lt_is_Some_2 chunks k ltac:(lia)) as [chunk Hc].
    rewrite (offset_next _ _ Hc). specialize (IH ltac:(lia) Hl). lia.
Qed.

Lemma offset_inj j k :
  (j < length chunks)%nat -> (k < length chunks)%nat -> offset_of j = offset_of k -> j = k.
Proof using Hchunks.
  intros Hj Hk Heq. destruct (decide (1 < length chunks)%nat) as [Hl|Hl]; [|lia].
  destruct (Nat.lt_trichotomy j k) as [Hlt|[|Hlt]]; [|done|].
  - pose proof (offset_mono j k Hlt ltac:(lia) Hl). lia.
  - pose proof (offset_mono k j Hlt ltac:(lia) Hl). lia.
Qed.

Lemma find_fragment k arrivals L :
  Forall2 is_fragment arrivals L -> (k < length chunks)%nat ->
  match List.find (fun f => hh_fragment_offset (fr_handshake_header f) =? Z.of_nat (offset_of k)) L with
  | Some f => k ∈ arrivals /\ is_fragment k f
  | None => k ∉ arrivals
  end.
Proof using Hchunks.
  intros HL Hk. induction HL as [|j f arrivals L Hf _ IH]; cbn [List.find]; [by intros ?%elem_of_nil|].
  destruct Hf as (chunk & Hc & Hd & Hh). rewrite Hh. cbn. unfold constant.
  pose proof (lookup_lt_Some _ _ _ Hc) as Hj.
  destruct (Z.eqb_spec (Z.of_nat (offset_of j)) (Z.of_nat (offset_of k))) as [Heq|Hne].
  - assert (j = k) as -> by (apply offset_inj; [done..|lia]). split; [by left|]. by exists chunk.
  - destruct (List.find _ L) as [g|].
    + destruct IH as [Hin Hg]. split; [by right|done].
    + intros [->|Hin]%elem_of_cons; [done|]. by apply IH.
Qed.

  Context (Hlength : hh_length header = Z.of_nat (length (concat chunks))).

Definition all_from (k : nat) (arrivals : list nat) : bool :=
  forallb (fun j => bool_decide (j ∈ arrivals)) (seq k (length chunks - k)).

Lemma append_fragments fuel k arrivals L :
  Forall2 is_fragment arrivals L -> (k < length chunks)%nat ->
  (length (filter (fun j => k <= j)%nat arrivals) < fuel)%nat ->
  append_message fuel (Z.of_nat (offset_of k)) L []
  = Ret (if all_from k arrivals then Some (concat (drop k chunks)) else None).
Proof using Hchunks Hlength.
  intros HL. revert k. induction fuel as [|fuel IH]; intros k Hk Hfuel; [lia|]. cbn [append_message].
  pose proof (find_fragment k arrivals L HL Hk) as Hfind. unfold all_from.
  replace (length chunks - k)%nat with (S (length chunks - S k)) by lia. cbn [seq forallb].
  destruct (List.find _ L) as [f|]; [|by rewrite bool_decide_eq_false_2].
  destruct Hfind as [Hin (chunk & Hc & Hd & Hh)]. rewrite bool_decide_eq_true_2 by done. cbn [andb]. rewrite Hh, Hd.
  cbn [hh_fragment_offset hh_fragment_length hh_length fragment_header]. rewrite (drop_S _ _ _ Hc). cbn [concat].
  change (hh_fragment_offset (fragment_header k chunk)) with (Z.of_nat (offset_of k)).
  change (hh_fragment_length (fragment_header k chunk)) with (Z.of_nat (length chunk)).
  change (hh_length (fragment_header k chunk)) with (hh_length header).
  rewrite <-Nat2Z.inj_add, <-(offset_next _ _ Hc), Hlength, <-offset_end.
  destruct (decide (S k = length chunks)) as [Hlast|Hmore].
  - rewrite Hlast, Z.eqb_refl. cbn [negb andb mbind outcome_bind option_bind]. rewrite Nat.sub_diag. cbn [seq forallb].
    by rewrite drop_ge by lia.
  - assert (1 < length chunks)%nat as Hl by lia. pose proof (chunk_nonempty _ _ Hc Hl) as Hpos.
    pose proof (offset_mono (S k) (length chunks) ltac:(lia) ltac:(lia) Hl) as Hmono.
    rewrite (proj2 (Z.eqb_neq (Z.of_nat (offset_of (S k))) _)), (proj2 (Z.eqb_neq (Z.of_nat (length chunk)) 0)) by lia.
    cbn [negb andb]. rewrite IH; [|lia|].
    + unfold all_from. cbn [mbind outcome_bind]. by destruct (forallb _ _).
    + eapply Nat.lt_le_trans; [|apply Nat.lt_succ_r, Hfuel].
      by apply filter_later.
Qed.
End fragments.

(** ** The buffer *)

Definition stored (frags : list Fragment) : nat := sum_list (map (fun f => length (fr_data f)) frags).

Lemma stored_app l k : stored (l ++ k) = (stored l + stored k)%nat.
Proof. unfold stored. rewrite map_app. induction l as [|f l IH]; [done|]. cbn in *. unfold id in *. lia. Qed.

Lemma size_insert b f : FragmentBuffer.size (FragmentBuffer.insert b f) = (FragmentBuffer.size b + length (fr_data f))%nat.
Proof.
  unfold FragmentBuffer.insert. set (seq := hh_message_sequence _).
  unfold FragmentBuffer.size. change (fb_cache (b {{ fb_cache := ?x }})) with x.
  set (g := fun (_ : Z) frags n => (sum_list (map (fun f => length (fr_data f)) frags) + n)%nat).
  assert (forall j1 j2 z1 z2 y, g j1 z1 (g j2 z2 y) = g j2 z2 (g j1 z1 y)) as Hcomm by (intros; unfold g; lia).
  rewrite <-insert_delete_eq, map_fold_insert_L; [|by intros; apply Hcomm|apply lookup_delete_eq].
  destruct (fb_cache b !! seq) as [frags|] eqn:Hs.
  - rewrite (map_fold_delete_L g 0%nat seq frags (fb_cache b)); [|by intros; apply Hcomm|done].
    cbn [default from_option id]. unfold g at 1 3. fold (stored (frags ++ [f])) (stored frags). rewrite stored_app.
    unfold stored at 2. cbn. unfold id. lia.
  - rewrite delete_id by done. cbn. unfold id. lia.
Qed.

Definition wf_fragment_header (h : HandshakeHeader) : Prop :=
  is_u 24 (hh_length h) /\ is_u 16 (hh_message_sequence h) /\ is_u 24 (hh_fragment_offset h)
  /\ is_u 24 (hh_fragment_length h) /\ HandshakeType.from (HandshakeType.as_u8 (hh_type h)) = hh_type h.

Lemma push_fragment b rh rhb fh fhb data :
  wf_header rh -> content_type rh = CtHandshake -> RecordLayerHeader.marshal rh = Ok rhb ->
  wf_fragment_header fh -> HandshakeHeader.marshal fh = Ok fhb -> Z.of_nat (length data) <= hh_length fh ->
  Z.of_nat (FragmentBuffer.size b + length (rhb ++ fhb ++ data)) < FRAGMENT_BUFFER_MAX_SIZE ->
  FragmentBuffer.push b (rhb ++ fhb ++ data) = (Ok true, FragmentBuffer.insert b (mkFragment rh fh data)).
Proof.
  intros Hrh Hty Hrhb (Hl & Hs & Ho & Hf & Ht) Hfhb Hdata Hroom.
  destruct (header_codes rh Hrh) as (rhb' & Hrhb' & Hrl & Hru). rewrite Hrhb in Hrhb'. apply (inj Ok) in Hrhb' as <-.
  destruct (handshake_header_codes fh Hl Hs Ho Hf Ht) as (fhb' & Hfhb' & Hfl & Hfu). rewrite Hfhb in Hfhb'. apply (inj Ok) in Hfhb' as <-.
  unfold FragmentBuffer.push. rewrite (proj2 (Z.leb_gt _ _)) by lia. rewrite Hru. cbn [attempt].
  rewrite bool_decide_eq_true_2 by done. cbn [negb]. rewrite bslice_from_app by done. cbn [attempt].
  change HandshakeHeader.size with HANDSHAKE_HEADER_LENGTH in Hfl.
  assert (length (fhb ++ data) = S (S (10 + length data))) as Hlen by (rewrite length_app, Hfl; done).
  remember (length (fhb ++ data)) as n eqn:Hn in |- * at 1. rewrite Hlen in Hn. subst n. cbn [FragmentBuffer.push_messages].
  rewrite is_empty_length, Hlen. cbn [Nat.eqb]. rewrite Hfu. cbn [attempt]. rewrite <-Hlen, length_app, Hfl.
  replace (Nat.min _ _) with (HANDSHAKE_HEADER_LENGTH + length data)%nat by lia.
  rewrite (bslice_Ok (fhb ++ data)) by (rewrite ?length_app; lia). cbn [attempt].
  rewrite drop_app_length' by done. rewrite take_ge by lia.
  rewrite (bslice_from_Ok (fhb ++ data)) by (rewrite ?length_app; lia). cbn [attempt].
  rewrite drop_ge by (rewrite length_app; lia). done.
Qed.

Lemma offset_of_app pre cf k : offset_of (pre ++ cf) (length pre + k) = (length (concat pre) + offset_of cf k)%nat.
Proof. unfold offset_of. rewrite take_app_add', concat_app, length_app by done. done. Qed.

Lemma fragments_from_spec header cf pre frags :
  fragments_from header (Z.of_nat (length (concat pre))) cf = Ok frags ->
  Z.of_nat (length (concat (pre ++ cf))) < 2 ^ 24 ->
  length frags = length cf
  /\ forall k chunk, cf !! k = Some chunk ->
       exists fhb, HandshakeHeader.marshal (fragment_header header (pre ++ cf) (length pre + k) chunk) = Ok fhb
         /\ frags !! k = Some (fhb ++ chunk).
Proof.
  revert pre frags. induction cf as [|c cf IH]; intros pre frags Hf Hlen; cbn [fragments_from] in Hf.
  { apply (inj Ok) in Hf as <-. done. }
  apply bind_Ok_inv in Hf as (raw & Hraw & Hf). apply bind_Ok_inv in Hf as (rest & Hrest & Hf). apply (inj Ok) in Hf as <-.
  replace (pre ++ c :: cf) with ((pre ++ [c]) ++ cf) in * by (by rewrite <-(assoc_L (++))).
  assert (Z.of_nat (length (concat pre)) + Z.of_nat (length c) = Z.of_nat (length (concat (pre ++ [c])))) as Hnext.
  { rewrite concat_app, length_app. cbn. rewrite app_nil_r. lia. }
  rewrite Hnext in Hrest. destruct (IH _ _ Hrest Hlen) as [Hl Hall]. split; [cbn; by rewrite Hl|].
  rewrite concat_app, length_app in Hlen. intros [|k] chunk Hk; cbn in Hk; simplify_eq.
  - exists raw. split; [|done]. rewrite <-Hraw. rewrite !as_u_small by bounds.
    assert (offset_of ((pre ++ [chunk]) ++ cf) (length pre + 0) = length (concat pre)) as Ho
      by (rewrite <-(assoc_L (++)), offset_of_app; unfold offset_of; cbn; lia).
    unfold fragment_header. by rewrite Ho.
  - destruct (Hall k chunk Hk) as (fhb & Hm & Hr). exists fhb. split; [|done]. rewrite <-Hm. do 2 f_equal.
    rewrite length_app. cbn. lia.
Qed.

(** Fragments one after the other. *)
Fixpoint push_all (b : FragmentBuffer) (raws : list bytes) : result unit * FragmentBuffer :=
  match raws with
  | [] => (Ok tt, b)
  | raw :: raws =>
      let '(r, b) := FragmentBuffer.push b raw in
      attempt b r (fun _ => push_all b raws)
  end.

(** The record with header [a.1] carries fragment number [a.2]. *)
Definition carries_fragment (frags : list bytes) (a : RecordLayerHeader * nat) (raw : bytes) : Prop :=
  wf_header a.1 /\ content_type a.1 = CtHandshake
  /\ exists rhb frag, RecordLayerHeader.marshal a.1 = Ok rhb /\ frags !! a.2 = Some frag /\ raw = rhb ++ frag.

Section reassembly.
  Context (header : HandshakeHeader) (chunks frags : list bytes).
  Context (Hheader : wf_fragment_header header)
    (Hlength : hh_length header = Z.of_nat (length (concat chunks)))
    (Hfrags : forall k frag, frags !! k = Some frag ->
       exists fhb chunk, chunks !! k = Some chunk
         /\ HandshakeHeader.marshal (fragment_header header chunks k chunk) = Ok fhb /\ frag = fhb ++ chunk).

Lemma chunk_bounds k chunk :
  chunks !! k = Some chunk -> (offset_of chunks k + length chunk <= length (concat chunks))%nat.
Proof using Type.
  intros Hk. unfold offset_of. rewrite <-(take_drop_middle chunks k chunk Hk) at 2. rewrite concat_app, length_app.
  cbn. rewrite length_app. lia.
Qed.

Lemma fragment_header_wf k chunk : chunks !! k = Some chunk -> wf_fragment_header (fragment_header header chunks k chunk).
Proof using Hheader Hlength.
  intros Hk. pose proof (chunk_bounds k chunk Hk) as Hb. destruct Hheader as (Hl & Hs & Ho & Hf & Ht).
  split; [exact Hl|]. split; [exact Hs|]. rewrite Hlength in Hl.
  split; [change (is_u 24 (Z.of_nat (offset_of chunks k))); bounds|].
  split; [change (is_u 24 (Z.of_nat (length chunk))); bounds|exact Ht].
Qed.

Definition frags_at (b : FragmentBuffer) : list Fragment := default [] (fb_cache b !! hh_message_sequence header).

Lemma push_all_fragments arrivals raws b :
  Forall2 (carries_fragment frags) arrivals raws ->
  Z.of_nat (FragmentBuffer.size b + length (concat raws)) < FRAGMENT_BUFFER_MAX_SIZE ->
  exists b' L, push_all b raws = (Ok tt, b') /\ frags_at b' = frags_at b ++ L
    /\ Forall2 (is_fragment header chunks) (map snd arrivals) L
    /\ map fr_record_layer_header L = map fst arrivals
    /\ fb_current_message_sequence_number b' = fb_current_message_sequence_number b
    /\ (is_Some (fb_cache b !! hh_message_sequence header) \/ arrivals <> [] ->
        is_Some (fb_cache b' !! hh_message_sequence header))
    /\ (arrivals = [] -> b' = b).
Proof using Hheader Hlength Hfrags.
  intros Ha. revert b. induction Ha as [|[rh k] raw arrivals raws Hc _ IH]; intros b Hroom; cbn [push_all].
  { exists b, []. rewrite app_nil_r. do 5 (split; [by try constructor|]). split; [by intros [?|?]|done]. }
  destruct Hc as (Hrh & Hty & rhb & frag & Hrhb & Hfrag & ->). cbn [fst snd] in *.
  destruct (Hfrags k frag Hfrag) as (fhb & chunk & Hchunk & Hfhb & ->).
  pose proof (chunk_bounds k chunk Hchunk) as Hb. cbn [concat] in Hroom. rewrite length_app in Hroom.
  rewrite (push_fragment b rh rhb (fragment_header header chunks k chunk) fhb chunk); [|done|done|done|by apply fragment_header_wf|done| |lia].
  2: { change (hh_length (fragment_header header chunks k chunk)) with (hh_length header). lia. }
  cbn [attempt]. set (f := mkFragment _ _ _). set (b1 := FragmentBuffer.insert b f).
  destruct (IH b1) as (b' & L & -> & Hat & HL & Hrhs & Hcur & Hsome & _).
  { unfold b1. rewrite size_insert. change (fr_data f) with chunk. rewrite !length_app in Hroom. lia. }
  assert (fb_cache b1 !! hh_message_sequence header = Some (frags_at b ++ [f])) as Hb1 by apply lookup_insert_eq.
  exists b', (f :: L). split; [done|]. split.
  { rewrite Hat. unfold frags_at at 1. rewrite Hb1. cbn. by rewrite <-(assoc_L (++)). }
  split; [constructor; [by exists chunk|done]|]. split; [cbn; by rewrite Hrhs|]. split; [done|]. split; [|done].
  intros _. apply Hsome. left. by rewrite Hb1.
Qed.
End reassembly.

Lemma fragment_handshake_chunks mtu h content frags :
  (0 < mtu)%nat -> HandshakeMessage.marshal (handshake_message h) = Ok content -> Z.of_nat (length content) < 2 ^ 24 ->
  fragment_handshake mtu h = Ok frags ->
  exists chunks, (chunks = [[]] \/ (chunks <> [] /\ Forall (fun chunk => chunk <> []) chunks))
    /\ concat chunks = content /\ length frags = length chunks
    /\ forall k frag, frags !! k = Some frag ->
         exists fhb chunk, chunks !! k = Some chunk
           /\ HandshakeHeader.marshal (fragment_header (handshake_header h) chunks k chunk) = Ok fhb /\ frag = fhb ++ chunk.
Proof.
  intros Hmtu Hm Hlen Hf. unfold fragment_handshake in Hf. rewrite Hm in Hf. cbn [mbind fallible_bind] in Hf.
  unfold split_bytes in Hf. rewrite (proj2 (Nat.eqb_neq _ _)) in Hf by lia. cbn [mbind fallible_bind] in Hf.
  destruct (split_from_chunks (length content) content mtu 0 Hmtu) as [Hc Hne]; [lia..|]. rewrite drop_0 in Hc.
  set (cs := split_from _ _ _ _) in *. set (chunks := if is_empty cs then [[]] else cs) in Hf.
  assert (concat chunks = content) as Hcc by (unfold chunks; by destruct cs).
  destruct (fragments_from_spec (handshake_header h) chunks [] frags Hf) as [Hl Hall]; [cbn; by rewrite Hcc|].
  exists chunks. split; [unfold chunks; destruct cs; [by left|right; done]|]. split; [done|]. split; [done|].
  intros k frag Hk. destruct (lookup_lt_is_Some_2 chunks k) as [chunk Hchunk]; [rewrite <-Hl; by eapply lookup_lt_Some|].
  destruct (Hall k chunk Hchunk) as (fhb & Hfhb & Hfr). rewrite Hk in Hfr. injection Hfr as ->. by exists fhb, chunk.
Qed.

Lemma pop_fragments header chunks ks L b hb :
  (chunks = [[]] \/ (chunks <> [] /\ Forall (fun chunk => chunk <> []) chunks)) ->
  hh_length header = Z.of_nat (length (concat chunks)) ->
  hh_fragment_offset header = 0 -> hh_fragment_length header = hh_length header ->
  HandshakeHeader.marshal header = Ok hb ->
  fb_current_message_sequence_number b = hh_message_sequence header ->
  is_u 16 (hh_message_sequence header) -> hh_message_sequence header < 65535 ->
  fb_cache b !! hh_message_sequence header = Some L -> L <> [] -> Forall2 (is_fragment header chunks) ks L ->
  if all_from chunks 0 ks
  then exists f b', head L = Some f /\ FragmentBuffer.pop b = Ok ((hb ++ concat chunks, epoch (fr_record_layer_header f)), b')
         /\ fb_current_message_sequence_number b' = hh_message_sequence header + 1
  else FragmentBuffer.pop b = Err ErrEmptyFragment.
Proof.
  intros Hch Hlen Ho Hfl Hhb Hcur Hu Hseq HL Hne Hks. unfold FragmentBuffer.pop. rewrite Hcur, HL.
  assert (0 < length chunks)%nat as Hpos by (destruct Hch as [->|[? _]]; [cbn; lia|destruct chunks; [done|cbn; lia]]).
  pose proof (append_fragments header chunks Hch Hlen (S (length L)) 0 ks L Hks Hpos) as Happ.
  change (Z.of_nat (offset_of chunks 0)) with 0 in Happ. rewrite Happ; [|].
  2: { rewrite <-(Forall2_length _ _ _ Hks). apply Nat.lt_succ_r, length_filter. }
  cbn [lift mbind fallible_bind]. destruct (all_from chunks 0 ks); [|done].
  destruct L as [|f L]; [done|]. destruct ks as [|k ks]; [by inversion Hks|]. apply Forall2_cons in Hks as [(chunk & _ & _ & Hf) _].
  cbn [index lift mbind fallible_bind lookup list_lookup]. rewrite Hf.
  assert ((fragment_header header chunks k chunk) {{ hh_fragment_offset := 0 }}
            {{ hh_fragment_length := hh_length (fragment_header header chunks k chunk) }} = header) as ->.
  { unfold fragment_header. destruct header. cbn in *. unfold constant. by subst. }
  rewrite Hhb. cbn [lift mbind fallible_bind]. rewrite checked_u_Ret by bounds. cbn [lift mbind fallible_bind].
  eexists f, _. split; [done|]. split; [reflexivity|done].
Qed.

(** ** Properties *)


Definition sample_finished : Handshake :=
  mkHandshake (mkHandshakeHeader HtFinished 5 3 0 5) (Finished [10; 11; 12; 13; 14]).

Definition sample_record_header (seq : Z) : RecordLayerHeader :=
  mkRecordLayerHeader CtHandshake PROTOCOL_VERSION1_2 1 seq 0.


(** ** Datagrams that need no key *)

Definition plain_alert (seq : Z) (desc : AlertDescription) : RecordLayer :=
  mkRecordLayer (mkRecordLayerHeader CtAlert PROTOCOL_VERSION1_2 0 seq 2) (ContentAlert (mkAlert Fatal desc)).

Lemma plain_alert_record seq desc :
  is_u 48 seq -> desc <> DescriptionInvalid ->
  exists raw rest, RecordLayer.marshal (plain_alert seq desc) = Ok raw /\ length raw = 15%nat
    /\ unpack_datagram raw = Ok [raw] /\ RecordLayer.unmarshal raw = Ok (plain_alert seq desc)
    /\ RecordLayerHeader.unmarshal raw = Ok (record_layer_header (plain_alert seq desc), rest).
Proof.
  intros Hseq Hdesc. set (h := record_layer_header (plain_alert seq desc)).
  assert (wf_header h) as Hh by (split; [by right|]; repeat split; try done; apply Hseq).
  destruct (record_carried (plain_alert seq desc)) as (raw & Hm & Hu & Hl).
  { do 2 (split; [done|]). split; [by right|]. do 2 (split; [done|]). done. }
  exists raw. destruct (header_codes h Hh) as (hb & Hhb & Hhl & Hhu). pose proof Hm as Hm'.
  apply bind_Ok_inv in Hm' as (hb' & Hhb' & Hm'). fold h in Hhb'. rewrite Hhb in Hhb'. apply (inj Ok) in Hhb' as <-.
  apply bind_Ok_inv in Hm' as (body & Hbody & Hm'). apply (inj Ok) in Hm' as <-. exists body.
  rewrite length_app, Hhl in Hl. assert (length body = 2)%nat as Hb2 by (cbn in Hl; lia).
  split; [done|]. split; [rewrite length_app, Hhl; by rewrite Hb2|]. split; [|by rewrite Hhu].
  apply (unpack_single h); [done|done|by rewrite Hb2|lia].
Qed.

(** C40: an alert in epoch 0 is taken from anyone, also once the keys are in use: a datagram
    of fifteen bytes, made from a sequence number alone, ends the reader of an established
    connection.  Its application gets no more data, while [write] goes on as before. *)
Theorem forged_alert_ends_reader `{Crypto} size cs c acc seq desc :
  0 < size -> size mod 64 = 0 -> size < MAX_SEQUENCE_NUMBER ->
  ready size cs c -> handshake_completed_successfully c = true -> decrypted c = [] ->
  tracks size (replay_detector c) acc -> newest (acc 0) < seq <= MAX_SEQUENCE_NUMBER ->
  desc <> DescriptionInvalid ->
  exists forged c',
    RecordLayer.marshal (plain_alert seq desc) = Ok forged /\ length forged = 15%nat
    /\ receive c forged = Ret (false, c') /\ reading c' = false
    /\ (forall n, read c' n = Some (Err ErrAlertFatalOrClose, c'))
    /\ (forall buf, receive c' buf = Ret (false, c'))
    /\ closed c' = closed c /\ cipher_suite c' = cipher_suite c
    /\ local_sequence_number c' = local_sequence_number c.
Proof.
  intros Hsize Hwords Hlimit [Hr Hep Hw Hcs Hci Hroom] Hdone Hdec Ht Hseq Hdesc. pose proof (newest_nonneg (acc 0)) as Hnn.
  destruct (plain_alert_record seq desc) as (raw & rest & Hm & Hl & Hu & Hrec & Hh); [unfold MAX_SEQUENCE_NUMBER in *; bounds|done|].
  destruct (check_tracks size Hsize Hwords Hlimit c acc 0 seq Hw Ht ltac:(lia) ltac:(lia)) as (ds & Hcheck & _ & Hal).
  assert (fresh size MAX_SEQUENCE_NUMBER (acc 0) seq = true) as Hf by (apply bool_decide_eq_true; lia).
  destruct (accept_tracks size Hsize Hwords Hlimit ds acc 0 seq (Hal Hf) ltac:(lia)) as (ds' & Ha & _). rewrite Hf in Hcheck.
  set (a := if bool_decide (desc = CloseNotify) then mkAlert Warning CloseNotify else mkAlert Fatal desc).
  set (c1 := c {{ replay_detector := ds' }}).
  exists raw, (c1 {{ packets := packets c ++ [alert_packet c1 a] }} {{ reading := false }}).
  split; [done|]. split; [done|]. split; [|split; [done|split; [|done]]].
  2: { intros n. unfold read. change (handshake_completed_successfully _) with (handshake_completed_successfully c).
       change (decrypted _) with (decrypted c). by rewrite Hdone, Hdec. }
  unfold receive, read_and_buffer. rewrite Hr, Hu. cbn [handle handle_records]. unfold handle_incoming_packet. rewrite Hh.
  cbn [handle plain_alert record_layer_header epoch sequence_number]. rewrite (proj2 (Z.ltb_ge _ _)) by lia. rewrite Hcheck.
  cbn [mbind outcome_bind negb Z.eqb]. unfold handle_plain_packet, FragmentBuffer.push.
  rewrite (proj2 (Z.leb_gt _ _)) by (change (fragment_buffer (c {{ replay_detector := ds }})) with (fragment_buffer c);
    unfold MAX_PAYLOAD in Hroom; lia).
  rewrite Hh. cbn [attempt plain_alert record_layer_header content_type]. rewrite bool_decide_eq_false_2 by done. cbn [negb handle].
  rewrite Hrec. cbn [handle plain_alert content handle_content alert_description]. unfold accept_replay. cbn [epoch].
  change (replay_detector (_ {{ fragment_buffer := _ }})) with ds. rewrite Ha. cbn [mbind outcome_bind].
  fold a. unfold alert_and_error, handle_incoming_result.
  replace (bool_decide (alert_level a = Fatal) || bool_decide (alert_description a = CloseNotify)) with true.
  - by destruct c.
  - unfold a. destruct (bool_decide (desc = CloseNotify)); by vm_compute.
Qed.

Lemma forged_alert_ends_reader_witness :
  exists forged c',
    RecordLayer.marshal (plain_alert 1 CloseNotify) = Ok forged /\ length forged = 15%nat
    /\ @receive plain_crypto (sample_conn false (Some sample_suite)) forged = Ret (false, c') /\ reading c' = false
    /\ (forall n, read c' n = Some (Err ErrAlertFatalOrClose, c'))
    /\ (forall buf, @receive plain_crypto c' buf = Ret (false, c'))
    /\ closed c' = false /\ cipher_suite c' = Some sample_suite /\ local_sequence_number c' = [3; 1].
Proof.
  apply (@forged_alert_ends_reader plain_crypto 64 sample_suite (sample_conn false (Some sample_suite)) (fun _ => []) 1 CloseNotify);
    try done.
  exists []. split; [constructor|]. intros e _. unfold accepted_in. by rewrite lookup_nil.
Defined.
