(* ===== verification/DtlsFlight.v ===== *)
(** * The flights of the DTLS handshake

    vendored/dtls/src/flight/, with what they use of state.rs, config.rs, handshaker.rs
    (configuration), crypto/mod.rs (signatures and certificates), curve/named_curve.rs,
    signature_hash_algorithm/mod.rs and lib.rs.  A flight reads the messages of the other
    side from the cache ([parse], which names the next flight) and makes the packets of its
    own ([generate]).

    Elliptic curves, signatures, certificates and names are the class [Pki]; what a call
    takes from the random generators and the clock is its argument [Entropy]. *)

From stdpp Require Import base list gmap strings.
From Stdlib Require Import ZArith Lia Ascii.
From coqutil Require Import Datatypes.RecordSetters.
From S2P Require Import Prelude Utf8 Fallible ReplayDetector DtlsWire DtlsCrypto DtlsRecord.
Import DoubleBraceUpdate.
Local Open Scope Z_scope.

(** ** Keys and signatures *)

Inductive CryptoPrivateKeyKind := KindEd25519 | KindEcdsa256 | KindRsa256.

#[export] Instance CryptoPrivateKeyKind_eq_dec : EqDecision CryptoPrivateKeyKind.
Proof. solve_decision. Defined.

Record CryptoPrivateKey := mkCryptoPrivateKey {
  kind : CryptoPrivateKeyKind;
  serialized_der : bytes }.

Record Certificate := mkCertificate {
  certificate : list bytes;
  private_key : CryptoPrivateKey }.

(** The algorithms of [ring] that [verify_signature] picks from. *)
Inductive VerificationAlgorithm :=
  | ED25519 | ECDSA_P256_SHA256_ASN1 | ECDSA_P384_SHA384_ASN1
  | RSA_PKCS1_1024_8192_SHA1 | RSA_PKCS1_1024_8192_SHA256 | RSA_PKCS1_2048_8192_SHA256
  | RSA_PKCS1_2048_8192_SHA384 | RSA_PKCS1_1024_8192_SHA512 | RSA_PKCS1_2048_8192_SHA512.

(** [ec_public_key] decodes a point of P-256 or P-384, [subject_public_key] the key of a
    certificate; [valid_server_cert] and [valid_client_cert] are the verifiers of rustls for
    an end entity and its intermediates. *)
Class Pki := {
  ec_public_key : NamedCurve -> bytes -> result bytes;
  ec_public_of : NamedCurve -> bytes -> bytes;
  diffie_hellman : NamedCurve -> bytes -> bytes -> bytes;
  sign : CryptoPrivateKeyKind -> bytes -> bytes -> bytes -> option bytes;
  subject_public_key : bytes -> option bytes;
  verifies : VerificationAlgorithm -> bytes -> bytes -> bytes -> bool;
  valid_server_name : string -> bool;
  valid_server_cert : bytes -> list bytes -> string -> bool;
  valid_client_cert : bytes -> list bytes -> bool;
  to_lowercase : string -> string }.

Inductive NamedCurvePrivateKey :=
  | EphemeralSecretP256 (secret : bytes)
  | EphemeralSecretP384 (secret : bytes)
  | StaticSecretX25519 (secret : bytes).

Record NamedCurveKeypair := mkNamedCurveKeypair {
  kp_curve : NamedCurve;
  kp_public_key : bytes;
  kp_private_key : NamedCurvePrivateKey }.

Section keys.
  Context `{Pki}.

(** [generate_keypair], with the secret the generator makes. *)
Definition generate_keypair (curve : NamedCurve) (secret : bytes) : result NamedCurveKeypair :=
  match curve with
  | P256 => Ok (mkNamedCurveKeypair P256 (ec_public_of P256 secret) (EphemeralSecretP256 secret))
  | P384 => Ok (mkNamedCurveKeypair P384 (ec_public_of P384 secret) (EphemeralSecretP384 secret))
  | X25519 => Ok (mkNamedCurveKeypair X25519 (ec_public_of X25519 secret) (StaticSecretX25519 secret))
  | UnsupportedCurve => Err ErrInvalidNamedCurve
  end.

Definition elliptic_curve_pre_master_secret (public_key : bytes) (private_key : NamedCurvePrivateKey) (curve : NamedCurve)
    : result bytes :=
  match curve with
  | P256 =>
      public ← ec_public_key P256 public_key;
      match private_key with
      | EphemeralSecretP256 secret => Ok (diffie_hellman P256 secret public)
      | _ => Err ErrNamedCurveAndPrivateKeyMismatch
      end
  | P384 =>
      public ← ec_public_key P384 public_key;
      match private_key with
      | EphemeralSecretP384 secret => Ok (diffie_hellman P384 secret public)
      | _ => Err ErrNamedCurveAndPrivateKeyMismatch
      end
  | X25519 =>
      if negb (length public_key =? 32)%nat then Err (ErrOther "Public key is not 32 len")
      else match private_key with
           | StaticSecretX25519 secret => Ok (diffie_hellman X25519 secret public_key)
           | _ => Err ErrNamedCurveAndPrivateKeyMismatch
           end
  | UnsupportedCurve => Err ErrInvalidNamedCurve
  end.

Definition prf_pre_master_secret (public_key : bytes) (private_key : NamedCurvePrivateKey) (curve : NamedCurve)
    : result bytes :=
  match curve with
  | P256 | P384 | X25519 => elliptic_curve_pre_master_secret public_key private_key curve
  | UnsupportedCurve => Err ErrInvalidNamedCurve
  end.

Definition value_key_message (client_random server_random public_key : bytes) (named_curve : NamedCurve) : bytes :=
  client_random ++ server_random
    ++ ([3] ++ to_be_bytes 2 (NamedCurve.as_u16 named_curve) ++ [as_u 8 (Z.of_nat (length public_key))])
    ++ public_key.

Definition sign_with (private_key : CryptoPrivateKey) (nonce msg : bytes) : result bytes :=
  match sign (kind private_key) (serialized_der private_key) nonce msg with
  | Some signature => Ok signature
  | None => Err (ErrOther "ring::error::Unspecified")
  end.

Definition generate_key_signature (client_random server_random public_key : bytes) (named_curve : NamedCurve)
    (private_key : CryptoPrivateKey) (nonce : bytes) : result bytes :=
  sign_with private_key nonce (value_key_message client_random server_random public_key named_curve).

Definition generate_certificate_verify (handshake_bodies : bytes) (private_key : CryptoPrivateKey) (nonce : bytes)
    : result bytes :=
  sign_with private_key nonce handshake_bodies.

(** The algorithm for a pair of hash and signature. *)
Definition verification_algorithm (a : SignatureHashAlgorithm) (signature_len : nat) (insecure_verification : bool)
    : option VerificationAlgorithm :=
  let legacy := (signature_len <? 256)%nat && insecure_verification in
  match signature a, hash a with
  | Ed25519, _ => Some ED25519
  | Ecdsa, Sha256 => Some ECDSA_P256_SHA256_ASN1
  | Ecdsa, Sha384 => Some ECDSA_P384_SHA384_ASN1
  | Rsa, Sha1 => Some RSA_PKCS1_1024_8192_SHA1
  | Rsa, Sha256 => Some (if legacy then RSA_PKCS1_1024_8192_SHA256 else RSA_PKCS1_2048_8192_SHA256)
  | Rsa, Sha384 => Some RSA_PKCS1_2048_8192_SHA384
  | Rsa, Sha512 => Some (if legacy then RSA_PKCS1_1024_8192_SHA512 else RSA_PKCS1_2048_8192_SHA512)
  | _, _ => None
  end.

Definition verify_signature (message : bytes) (hash_algorithm : SignatureHashAlgorithm) (remote_key_signature : bytes)
    (raw_certificates : list bytes) (insecure_verification : bool) : result unit :=
  match raw_certificates with
  | [] => Err ErrLengthMismatch
  | raw_certificate :: _ =>
      match subject_public_key raw_certificate with
      | None => Err (ErrOther "X509Error")
      | Some public_key =>
          match verification_algorithm hash_algorithm (length remote_key_signature) insecure_verification with
          | None => Err ErrKeySignatureVerifyUnimplemented
          | Some verify_alg =>
              if verifies verify_alg public_key message remote_key_signature then Ok tt
              else Err (ErrOther "ring::error::Unspecified")
          end
      end
  end.

Definition verify_key_signature := verify_signature.
Definition verify_certificate_verify := verify_signature.

Definition load_certs (raw_certificates : list bytes) : result (list bytes) :=
  if is_empty raw_certificates then Err ErrLengthMismatch else Ok raw_certificates.

Definition verify_client_cert (raw_certificates : list bytes) : result (list bytes) :=
  chains ← load_certs raw_certificates;
  match chains with
  | [] => Err ErrClientCertificateRequired
  | end_entity :: intermediates =>
      if valid_client_cert end_entity intermediates then Ok chains else Err (ErrOther "rustls::Error")
  end.

Definition verify_server_cert (raw_certificates : list bytes) (server_name : string) : result (list bytes) :=
  chains ← load_certs raw_certificates;
  if negb (valid_server_name server_name) then Err (ErrOther "InvalidDnsNameError")
  else
    match chains with
    | [] => Err ErrServerMustHaveCertificate
    | end_entity :: intermediates =>
        if valid_server_cert end_entity intermediates server_name then Ok chains else Err (ErrOther "rustls::Error")
    end.
End keys.

(** ** Signature schemes (signature_hash_algorithm/mod.rs) *)

Definition is_compatible (s : SignatureHashAlgorithm) (private_key : CryptoPrivateKey) : bool :=
  match kind private_key with
  | KindEd25519 => bool_decide (signature s = Ed25519)
  | KindEcdsa256 => bool_decide (signature s = Ecdsa)
  | KindRsa256 => bool_decide (signature s = Rsa)
  end.

Definition default_signature_schemes : list SignatureHashAlgorithm :=
  [mkSignatureHashAlgorithm Sha256 Ecdsa; mkSignatureHashAlgorithm Sha384 Ecdsa; mkSignatureHashAlgorithm Sha512 Ecdsa;
   mkSignatureHashAlgorithm Sha256 Rsa; mkSignatureHashAlgorithm Sha384 Rsa; mkSignatureHashAlgorithm Sha512 Rsa;
   mkSignatureHashAlgorithm Ed25519Hash Ed25519].

Definition select_signature_scheme (sigs : list SignatureHashAlgorithm) (private_key : CryptoPrivateKey)
    : result SignatureHashAlgorithm :=
  match List.find (fun ss => is_compatible ss private_key) sigs with
  | Some ss => Ok ss
  | None => Err ErrNoAvailableSignatureSchemes
  end.

Fixpoint parse_schemes (sigs : list Z) (insecure_hashes : bool) : result (list SignatureHashAlgorithm) :=
  match sigs with
  | [] => Ok []
  | ss :: sigs =>
      let sig := SignatureAlgorithm.from (Z.land ss 0xFF) in
      if bool_decide (sig = UnsupportedSignature) then Err ErrInvalidSignatureAlgorithm
      else
        let h := HashAlgorithm.from (Z.land (Z.shiftr ss 8) 0xFF) in
        if bool_decide (h = UnsupportedHash) || HashAlgorithm.invalid h then Err ErrInvalidHashAlgorithm
        else
          out ← parse_schemes sigs insecure_hashes;
          Ok (if HashAlgorithm.insecure h && negb insecure_hashes then out else mkSignatureHashAlgorithm h sig :: out)
  end.

Definition parse_signature_schemes (sigs : list Z) (insecure_hashes : bool) : result (list SignatureHashAlgorithm) :=
  if is_empty sigs then Ok default_signature_schemes
  else
    out ← parse_schemes sigs insecure_hashes;
    if is_empty out then Err ErrNoAvailableSignatureSchemes else Ok out.

(** ** Configuration (config.rs, handshaker.rs) *)

Inductive ClientAuthType :=
  NoClientCert | RequestClientCert | RequireAnyClientCert | VerifyClientCertIfGiven | RequireAndVerifyClientCert.

Definition client_auth_as_u8 (a : ClientAuthType) : Z :=
  match a with
  | NoClientCert => 0 | RequestClientCert => 1 | RequireAnyClientCert => 2
  | VerifyClientCertIfGiven => 3 | RequireAndVerifyClientCert => 4
  end.

Inductive ExtendedMasterSecretType := Request | Require | Disable.

#[export] Instance ExtendedMasterSecretType_eq_dec : EqDecision ExtendedMasterSecretType.
Proof. solve_decision. Defined.

(** [client_cert_verifier] tells whether there is one; the verifiers are those of [Pki]. *)
Record HandshakeConfig := mkHandshakeConfig {
  local_psk_callback : option (bytes -> result bytes);
  local_psk_identity_hint : option bytes;
  local_cipher_suites : list CipherSuiteId;
  local_signature_schemes : list SignatureHashAlgorithm;
  cfg_extended_master_secret : ExtendedMasterSecretType;
  local_srtp_protection_profiles : list SrtpProtectionProfile;
  cfg_server_name : string;
  client_auth : ClientAuthType;
  local_certificates : list Certificate;
  name_to_certificate : gmap string Certificate;
  insecure_skip_verify : bool;
  insecure_verification : bool;
  verify_peer_certificate : option (list bytes -> list bytes -> result unit);
  client_cert_verifier : bool;
  initial_epoch : Z }.

(** [name.trim_end_matches('.')] *)
Definition trim_end_dots (name : string) : string :=
  let fix go (l : list ascii) :=
    match l with
    | "."%char :: l => go l
    | _ => l
    end in
  String.string_of_list_ascii (rev (go (rev (String.list_ascii_of_string name)))).

(** [split_terminator('.')]: no empty piece after the last dot. *)
Fixpoint split_dots (l : list ascii) (piece : list ascii) : list string :=
  match l with
  | [] => match piece with [] => [] | _ => [String.string_of_list_ascii (rev piece)] end
  | a :: l =>
      if Ascii.eqb a "."%char then String.string_of_list_ascii (rev piece) :: split_dots l []
      else split_dots l (a :: piece)
  end.

(** [for i in 0..labels.len() { labels[i] = "*"; .. }]: the first [n] labels are stars. *)
Fixpoint wildcard_candidates (n : nat) (labels : list string) : list string :=
  match labels with
  | [] => []
  | _ :: labels => String.concat "." (replicate (S n) "*"%string ++ labels) :: wildcard_candidates (S n) labels
  end.

Definition get_certificate `{Pki} (cfg : HandshakeConfig) (server_name : string) : result Certificate :=
  match local_certificates cfg with
  | [] => Err ErrNoCertificates
  | [cert] => Ok cert
  | cert :: _ =>
      if String.eqb server_name String.EmptyString then Ok cert
      else
        let name := trim_end_dots (to_lowercase server_name) in
        let candidates := name :: wildcard_candidates 0 (split_dots (String.list_ascii_of_string name) []) in
        Ok (default cert (head (omap (fun c => name_to_certificate cfg !! c) candidates)))
  end.

(** lib.rs: the first of [a] that [b] has. *)
Definition find_matching_srtp_profile (a b : list SrtpProtectionProfile) : option SrtpProtectionProfile :=
  List.find (fun x => bool_decide (x ∈ b)) a.

Definition find_matching_cipher_suite (a b : list CipherSuiteId) : option CipherSuiteId :=
  List.find (fun x => bool_decide (x ∈ b)) a.

(** ** The state of the handshake (state.rs)

    The epochs, the sequence numbers, the role and the suite are shared with the record
    layer and are fields of [Conn]. *)

Record State := mkState {
  local_random : HandshakeRandom;
  remote_random : HandshakeRandom;
  master_secret : bytes;
  srtp_protection_profile : SrtpProtectionProfile;
  peer_certificates : list bytes;
  identity_hint : bytes;
  pre_master_secret : bytes;
  extended_master_secret : bool;
  named_curve : NamedCurve;
  local_keypair : option NamedCurveKeypair;
  cookie : bytes;
  handshake_send_sequence : Z;
  handshake_recv_sequence : Z;
  server_name : string;
  remote_requested_certificate : bool;
  local_certificates_verify : bytes;
  local_verify_data : bytes;
  local_key_signature : bytes;
  peer_certificates_verified : bool }.

Definition default_random : HandshakeRandom := mkHandshakeRandom 0 (replicate 28 0).

Definition default_state : State :=
  mkState default_random default_random [] UnsupportedProfile [] [] [] false UnsupportedCurve None [] 0 0
    String.EmptyString false [] [] [] false.

Definition COOKIE_LENGTH : nat := 20.
Definition DEFAULT_NAMED_CURVE : NamedCurve := X25519.
Definition ELLIPTIC_CURVE_POINT_FORMAT_UNCOMPRESSED : Z := 0.

(** What a call takes from the generators and the clock. *)
Record Entropy := mkEntropy {
  en_cookie : bytes;
  en_random : HandshakeRandom;
  en_secret : bytes;
  en_nonce : bytes }.

Inductive Flight := Flight0 | Flight1 | Flight2 | Flight3 | Flight4 | Flight5 | Flight6.

#[export] Instance Flight_eq_dec : EqDecision Flight.
Proof. solve_decision. Defined.

Definition is_last_send_flight (f : Flight) : bool := match f with Flight6 => true | _ => false end.
Definition is_last_recv_flight (f : Flight) : bool := match f with Flight5 => true | _ => false end.
Definition has_retransmit (f : Flight) : bool := match f with Flight2 => false | _ => true end.

(** ** Flights as computations on the connection and the state

    A failure carries the alert to send and the error to stop with; without either the
    handshake goes on waiting.  What was changed before a failure stays changed. *)

Record Peer := mkPeer {
  conn : Conn;
  state : State }.

Abbreviation failure := (option Alert * option Error)%type.

Definition flight_op (A : Type) : Type := Peer -> fallible failure A * Peer.

#[export] Instance flight_op_ret : MRet flight_op := fun A a p => (Ok a, p).
#[export] Instance flight_op_bind : MBind flight_op :=
  fun A B f m p =>
    match m p with
    | (Ok a, p) => f a p
    | (Err e, p) => (Err e, p)
    | (Panics why, p) => (Panics why, p)
    | (NoFuel, p) => (NoFuel, p)
    end.

Definition gets {A} (f : Peer -> A) : flight_op A := fun p => (Ok (f p), p).
Definition update (f : State -> State) : flight_op unit := fun p => (Ok tt, p {{ state := f (state p) }}).
Definition update_conn (f : Conn -> Conn) : flight_op unit := fun p => (Ok tt, p {{ conn := f (conn p) }}).
Definition set_cipher_suite (cs : CipherSuite) : flight_op unit := update_conn (fun c => c {{ cipher_suite := Some cs }}).

Definition fatal (desc : AlertDescription) : option Alert := Some (mkAlert Fatal desc).
Definition fail {A} (a : option Alert) (e : option Error) : flight_op A := fun p => (Err (a, e), p).

(** [match r { Ok(a) => a, Err(err) => return Err((Some(alert), Some(err))) }] *)
Definition or_fail {A} (desc : AlertDescription) (r : result A) : flight_op A :=
  fun p => (match r with
            | Ok a => Ok a
            | Err e => Err (fatal desc, Some e)
            | Panics why => Panics why
            | NoFuel => NoFuel
            end, p).

(** [Err(_) => return Err((None, None))] *)
Definition or_wait {A} (r : result A) : flight_op A :=
  fun p => (match r with
            | Ok a => Ok a
            | Err _ => Err (None, None)
            | Panics why => Panics why
            | NoFuel => NoFuel
            end, p).

Definition when (b : bool) (m : flight_op unit) : flight_op unit := if b then m else mret tt.

(** [cache.full_pull_map(seq, rules)] on the cache as it is. *)
Definition pull_map (seq : Z) (rules : list HandshakeCachePullRule) (p : Peer)
    : result (Z * list (HandshakeType * HandshakeMessage)) :=
  HandshakeCache.full_pull_map (cache (conn p)) seq rules.

Definition merge (rules : list HandshakeCachePullRule) (p : Peer) : bytes :=
  HandshakeCache.pull_and_merge (cache (conn p)) rules.

(** The messages up to and with the client's key exchange, and those after it. *)
Definition hello_rules (e : Z) : list HandshakeCachePullRule := HandshakeCache.session_rules e.
Definition all_rules (e : Z) : list HandshakeCachePullRule :=
  hello_rules e ++ [mkRule HtCertificateVerify e true false; mkRule HtFinished (e + 1) true false].

Definition handshake_packet (e : Z) (encrypt reset : bool) (m : HandshakeMessage) : Packet :=
  mkPacket (RecordLayer.new PROTOCOL_VERSION1_2 e (ContentHandshake (Handshake.new m))) encrypt reset.

Definition change_cipher_spec_packet : Packet :=
  mkPacket (RecordLayer.new PROTOCOL_VERSION1_2 0 ContentChangeCipherSpec) false false.

Section flights.
  Context `{Crypto} `{Pki}.

(** *** Flight 0: the server waits for a hello *)

Fixpoint flight0_extensions (cfg : HandshakeConfig) (extensions : list Extension) : flight_op unit :=
  match extensions with
  | [] => mret tt
  | extension :: extensions =>
      _ ← match extension with
          | SupportedEllipticCurves elliptic_curves =>
              if is_empty elliptic_curves
              then fail (fatal InsufficientSecurity) (Some ErrNoSupportedEllipticCurves)
              else match List.find (fun c => negb (bool_decide (c = UnsupportedCurve))) elliptic_curves with
                   | Some curve => update (fun s => s {{ named_curve := curve }})
                   | None => mret tt
                   end
          | UseSrtp protection_profiles =>
              match find_matching_srtp_profile protection_profiles (local_srtp_protection_profiles cfg) with
              | Some profile => update (fun s => s {{ srtp_protection_profile := profile }})
              | None => fail (fatal InsufficientSecurity) (Some ErrServerNoMatchingSrtpProfile)
              end
          | UseExtendedMasterSecret _ =>
              when (negb (bool_decide (cfg_extended_master_secret cfg = Disable)))
                (update (fun s => s {{ extended_master_secret := true }}))
          | ServerName name => update (fun s => s {{ server_name := name }})
          | _ => mret tt
          end;
      flight0_extensions cfg extensions
  end.

Definition flight0_hello (cfg : HandshakeConfig) (en : Entropy) (client_hello : HandshakeMessageClientHello) : flight_op Flight :=
  if negb (bool_decide (ch_version client_hello = PROTOCOL_VERSION1_2))
  then fail (fatal ProtocolVersionAlert) (Some ErrUnsupportedProtocolVersion)
  else
    _ ← update (fun s => s {{ remote_random := ch_random client_hello }});
    _ ← match find_matching_cipher_suite (ch_cipher_suites client_hello) (local_cipher_suites cfg) with
        | Some id => match cipher_suite_for_id id with
                     | Ok cs => set_cipher_suite cs
                     | _ => mret tt
                     end
        | None => fail (fatal InsufficientSecurity) (Some ErrCipherSuiteNoIntersection)
        end;
    _ ← flight0_extensions cfg (ch_extensions client_hello);
    ems ← gets (fun p => extended_master_secret (state p));
    _ ← when (bool_decide (cfg_extended_master_secret cfg = Require) && negb ems)
          (fail (fatal InsufficientSecurity) (Some ErrServerRequiredButNoClientEms));
    keypair ← gets (fun p => local_keypair (state p));
    _ ← match keypair with
        | Some _ => mret tt
        | None =>
            curve ← gets (fun p => named_curve (state p));
            keypair ← or_fail IllegalParameter (generate_keypair curve (en_secret en));
            update (fun s => s {{ local_keypair := Some keypair }})
        end;
    mret Flight2.

Definition flight0_parse (cfg : HandshakeConfig) (en : Entropy) : flight_op Flight :=
  pulled ← gets (pull_map 0 [mkRule HtClientHello (initial_epoch cfg) true false]);
  '(seq, msgs) ← or_wait pulled;
  _ ← update (fun s => s {{ handshake_recv_sequence := seq }});
  match HandshakeCache.get HtClientHello msgs with
  | Some (ClientHello client_hello) => flight0_hello cfg en client_hello
  | _ => fail (fatal InternalError) None
  end.

Definition flight0_generate (cfg : HandshakeConfig) (en : Entropy) : flight_op (list Packet) :=
  _ ← update (fun s => s {{ cookie := en_cookie en }});
  _ ← update_conn (fun c => c {{ local_epoch := 0 }} {{ remote_epoch := 0 }});
  _ ← update (fun s => s {{ named_curve := DEFAULT_NAMED_CURVE }} {{ local_random := en_random en }});
  mret [].

(** *** Flights 1 and 3: the client's hello, without and with the cookie *)

Definition uses_psk (cfg : HandshakeConfig) : bool := match local_psk_callback cfg with Some _ => true | None => false end.

Definition curve_extensions : list Extension :=
  [SupportedEllipticCurves [P256; X25519; P384]; SupportedPointFormats [ELLIPTIC_CURVE_POINT_FORMAT_UNCOMPRESSED]].

Definition hello_extensions (cfg : HandshakeConfig) : list Extension :=
  [SupportedSignatureAlgorithms (local_signature_schemes cfg); RenegotiationInfo 0]
  ++ (if uses_psk cfg then [] else curve_extensions)
  ++ (if is_empty (local_srtp_protection_profiles cfg) then [] else [UseSrtp (local_srtp_protection_profiles cfg)])
  ++ (if bool_decide (cfg_extended_master_secret cfg = Request) || bool_decide (cfg_extended_master_secret cfg = Require)
      then [UseExtendedMasterSecret true] else [])
  ++ (if String.eqb (cfg_server_name cfg) String.EmptyString then [] else [ServerName (cfg_server_name cfg)]).

Definition hello_packet (cfg : HandshakeConfig) (s : State) : Packet :=
  handshake_packet 0 false false
    (ClientHello (mkClientHello PROTOCOL_VERSION1_2 (local_random s) (cookie s) (local_cipher_suites cfg)
                    [NullCompression] (hello_extensions cfg))).

Definition flight1_generate (cfg : HandshakeConfig) (en : Entropy) : flight_op (list Packet) :=
  _ ← update_conn (fun c => c {{ local_epoch := 0 }} {{ remote_epoch := 0 }});
  _ ← update (fun s => s {{ named_curve := DEFAULT_NAMED_CURVE }} {{ cookie := [] }} {{ local_random := en_random en }});
  s ← gets state;
  mret [hello_packet cfg s].

Definition flight3_generate (cfg : HandshakeConfig) : flight_op (list Packet) :=
  s ← gets state;
  mret [hello_packet cfg s].

Definition handle_server_key_exchange (cfg : HandshakeConfig) (en : Entropy) (h : HandshakeMessageServerKeyExchange)
    : flight_op unit :=
  match local_psk_callback cfg with
  | Some callback =>
      psk ← or_fail InternalError (callback (ske_identity_hint h));
      update (fun s => s {{ identity_hint := ske_identity_hint h }} {{ pre_master_secret := prf_psk_pre_master_secret psk }})
  | None =>
      keypair ← or_fail InternalError (generate_keypair (ske_named_curve h) (en_secret en));
      secret ← or_fail InternalError
                 (prf_pre_master_secret (ske_public_key h) (kp_private_key keypair) (kp_curve keypair));
      update (fun s => s {{ pre_master_secret := secret }} {{ local_keypair := Some keypair }})
  end.

Definition flight3_rules (cfg : HandshakeConfig) : list HandshakeCachePullRule :=
  let e := initial_epoch cfg in
  if uses_psk cfg then
    [mkRule HtServerHello e false false; mkRule HtServerKeyExchange e false true; mkRule HtServerHelloDone e false false]
  else
    [mkRule HtServerHello e false false; mkRule HtCertificate e false true; mkRule HtServerKeyExchange e false false;
     mkRule HtCertificateRequest e false true; mkRule HtServerHelloDone e false false].

Fixpoint flight3_extensions (cfg : HandshakeConfig) (extensions : list Extension) : flight_op unit :=
  match extensions with
  | [] => mret tt
  | extension :: extensions =>
      _ ← match extension with
          | UseSrtp protection_profiles =>
              match find_matching_srtp_profile protection_profiles (local_srtp_protection_profiles cfg) with
              | Some profile => update (fun s => s {{ srtp_protection_profile := profile }})
              | None => fail (fatal IllegalParameter) (Some ErrClientNoMatchingSrtpProfile)
              end
          | UseExtendedMasterSecret _ =>
              when (negb (bool_decide (cfg_extended_master_secret cfg = Disable)))
                (update (fun s => s {{ extended_master_secret := true }}))
          | _ => mret tt
          end;
      flight3_extensions cfg extensions
  end.

Definition flight3_hello (cfg : HandshakeConfig) (h : HandshakeMessageServerHello) : flight_op unit :=
  if negb (bool_decide (sh_version h = PROTOCOL_VERSION1_2))
  then fail (fatal ProtocolVersionAlert) (Some ErrUnsupportedProtocolVersion)
  else
    _ ← flight3_extensions cfg (sh_extensions h);
    ems ← gets (fun p => extended_master_secret (state p));
    _ ← when (bool_decide (cfg_extended_master_secret cfg = Require) && negb ems)
          (fail (fatal InsufficientSecurity) (Some ErrClientRequiredButNoServerEms));
    profile ← gets (fun p => srtp_protection_profile (state p));
    _ ← when (negb (is_empty (local_srtp_protection_profiles cfg)) && bool_decide (profile = UnsupportedProfile))
          (fail (fatal InsufficientSecurity) (Some ErrRequestedButNoSrtpExtension));
    match find_matching_cipher_suite [sh_cipher_suite h] (local_cipher_suites cfg) with
    | None => fail (fatal InsufficientSecurity) (Some ErrCipherSuiteNoIntersection)
    | Some _ =>
        match cipher_suite_for_id (sh_cipher_suite h) with
        | Ok cs =>
            _ ← set_cipher_suite cs;
            update (fun s => s {{ remote_random := sh_random h }})
        | _ => fail (fatal InsufficientSecurity) (Some ErrInvalidCipherSuite)
        end
    end.

(** A HelloVerifyRequest gives the cookie of the next hello. *)
Definition take_cookie (seq : Z) (h : HandshakeMessageHelloVerifyRequest) : flight_op Flight :=
  if negb (bool_decide (hvr_version h = PROTOCOL_VERSION1_0)) && negb (bool_decide (hvr_version h = PROTOCOL_VERSION1_2))
  then fail (fatal ProtocolVersionAlert) (Some ErrUnsupportedProtocolVersion)
  else
    _ ← update (fun s => s {{ cookie := hvr_cookie h }} {{ handshake_recv_sequence := seq }});
    mret Flight3.

Definition flight3_messages (cfg : HandshakeConfig) (en : Entropy) (msgs : list (HandshakeType * HandshakeMessage))
    : flight_op Flight :=
  _ ← match HandshakeCache.get HtServerHello msgs with
      | None => mret tt
      | Some (ServerHello h) => flight3_hello cfg h
      | Some _ => fail (fatal InternalError) None
      end;
  _ ← match HandshakeCache.get HtCertificate msgs with
      | None => mret tt
      | Some (DtlsWire.Certificate certs) => update (fun s => s {{ peer_certificates := certs }})
      | Some _ => fail (fatal InternalError) None
      end;
  _ ← match HandshakeCache.get HtServerKeyExchange msgs with
      | None => mret tt
      | Some (ServerKeyExchange h) => handle_server_key_exchange cfg en h
      | Some _ => fail (fatal InternalError) None
      end;
  _ ← match HandshakeCache.get HtCertificateRequest msgs with
      | None => mret tt
      | Some (CertificateRequest _) => update (fun s => s {{ remote_requested_certificate := true }})
      | Some _ => fail (fatal InternalError) None
      end;
  mret Flight5.

Definition flight3_parse (cfg : HandshakeConfig) (en : Entropy) : flight_op Flight :=
  seq ← gets (fun p => handshake_recv_sequence (state p));
  verify ← gets (pull_map seq [mkRule HtHelloVerifyRequest (initial_epoch cfg) false true]);
  let messages : flight_op Flight :=
    pulled ← gets (pull_map seq (flight3_rules cfg));
    '(seq, msgs) ← or_wait pulled;
    _ ← update (fun s => s {{ handshake_recv_sequence := seq }});
    flight3_messages cfg en msgs in
  match verify with
  | Ok (seq, msgs) =>
      match HandshakeCache.get HtHelloVerifyRequest msgs with
      | Some (HelloVerifyRequest h) => take_cookie seq h
      | Some _ => fail (fatal InternalError) None
      | None => messages
      end
  | Err _ => messages
  | Panics why => fun p => (Panics why, p)
  | NoFuel => fun p => (NoFuel, p)
  end.

Definition flight1_parse (cfg : HandshakeConfig) (en : Entropy) : flight_op Flight :=
  seq ← gets (fun p => handshake_recv_sequence (state p));
  pulled ← gets (pull_map seq [mkRule HtHelloVerifyRequest (initial_epoch cfg) false true;
                               mkRule HtServerHello (initial_epoch cfg) false true]);
  '(seq, msgs) ← or_wait pulled;
  match HandshakeCache.get HtServerHello msgs with
  | Some _ => flight3_parse cfg en
  | None =>
      match HandshakeCache.get HtHelloVerifyRequest msgs with
      | Some (HelloVerifyRequest h) => take_cookie seq h
      | _ => fail (fatal InternalError) None
      end
  end.

(** *** Flight 2: the server's cookie *)

Definition flight2_parse (cfg : HandshakeConfig) (en : Entropy) : flight_op Flight :=
  seq ← gets (fun p => handshake_recv_sequence (state p));
  pulled ← gets (pull_map seq [mkRule HtClientHello (initial_epoch cfg) true false]);
  match pulled with
  | Err _ => flight0_parse cfg en
  | Panics why => fun p => (Panics why, p)
  | NoFuel => fun p => (NoFuel, p)
  | Ok (seq, msgs) =>
      _ ← update (fun s => s {{ handshake_recv_sequence := seq }});
      match HandshakeCache.get HtClientHello msgs with
      | Some (ClientHello client_hello) =>
          s ← gets state;
          if negb (bool_decide (ch_version client_hello = PROTOCOL_VERSION1_2))
          then fail (fatal ProtocolVersionAlert) (Some ErrUnsupportedProtocolVersion)
          else if is_empty (ch_cookie client_hello) then fail None None
          else if negb (bool_decide (cookie s = ch_cookie client_hello))
          then fail (fatal AccessDenied) (Some ErrCookieMismatch)
          else mret Flight4
      | _ => fail (fatal InternalError) None
      end
  end.

Definition flight2_generate (cfg : HandshakeConfig) : flight_op (list Packet) :=
  _ ← update (fun s => s {{ handshake_send_sequence := 0 }});
  s ← gets state;
  mret [handshake_packet 0 false false (HelloVerifyRequest (mkHelloVerifyRequest PROTOCOL_VERSION1_2 (cookie s)))].

(** *** Flight 4: the server's parameters *)

Definition flight4_generate (cfg : HandshakeConfig) (en : Entropy) : flight_op (list Packet) :=
  s ← gets state;
  suite ← gets (fun p => cipher_suite (conn p));
  let ems := (bool_decide (cfg_extended_master_secret cfg = Request) || bool_decide (cfg_extended_master_secret cfg = Require))
             && extended_master_secret s in
  let extensions :=
    [RenegotiationInfo 0] ++ (if ems then [UseExtendedMasterSecret true] else [])
    ++ (if bool_decide (srtp_protection_profile s = UnsupportedProfile) then [] else [UseSrtp [srtp_protection_profile s]])
    ++ (if uses_psk cfg then [] else curve_extensions) in
  let id := match suite with Some cs => CipherSuite.id cs | None => UnsupportedSuite end in
  let hello := handshake_packet 0 false false
                 (ServerHello (mkServerHello PROTOCOL_VERSION1_2 (local_random s) id NullCompression extensions)) in
  parameters ←
    (if uses_psk cfg then
       mret match local_psk_identity_hint cfg with
            | Some hint =>
                [handshake_packet 0 false false
                   (ServerKeyExchange (mkServerKeyExchange hint UnsupportedCurveType UnsupportedCurve []
                      (mkSignatureHashAlgorithm UnsupportedHash UnsupportedSignature) []))]
            | None => []
            end
     else
       cert ← or_fail HandshakeFailure (get_certificate cfg (cfg_server_name cfg));
       scheme ← or_fail InsufficientSecurity (select_signature_scheme (local_signature_schemes cfg) (private_key cert));
       key_exchange ←
         match local_keypair s with
         | None => mret []
         | Some keypair =>
             sig ← or_fail InternalError
                     (generate_key_signature (HandshakeRandom.marshal (remote_random s)) (HandshakeRandom.marshal (local_random s))
                        (kp_public_key keypair) (named_curve s) (private_key cert) (en_nonce en));
             _ ← update (fun s => s {{ local_key_signature := sig }});
             mret [handshake_packet 0 false false
                     (ServerKeyExchange (mkServerKeyExchange [] NamedCurveType (named_curve s) (kp_public_key keypair) scheme sig))]
         end;
       mret ([handshake_packet 0 false false (DtlsWire.Certificate (certificate cert))] ++ key_exchange
             ++ (if client_auth_as_u8 NoClientCert <? client_auth_as_u8 (client_auth cfg)
                 then [handshake_packet 0 false false
                         (CertificateRequest (mkCertificateRequest [RsaSign; EcdsaSign] (local_signature_schemes cfg)))]
                 else [])));
  mret (hello :: parameters ++ [handshake_packet 0 false false ServerHelloDone]).

(** [for ss in &cfg.local_signature_schemes { .. }] *)
Definition valid_signature_scheme (cfg : HandshakeConfig) (a : SignatureHashAlgorithm) : bool :=
  existsb (fun ss => bool_decide (hash ss = hash a) && bool_decide (signature ss = signature a)) (local_signature_schemes cfg).

(** The client's proof that it has the key of its certificate. *)
Definition flight4_certificate_verify (cfg : HandshakeConfig) (h : HandshakeMessageCertificateVerify) : flight_op unit :=
  certs ← gets (fun p => peer_certificates (state p));
  if is_empty certs then fail (fatal NoCertificate) (Some ErrCertificateVerifyNoCertificate)
  else
    plain_text ← gets (merge (hello_rules (initial_epoch cfg)));
    if negb (valid_signature_scheme cfg (cv_algorithm h))
    then fail (fatal InsufficientSecurity) (Some ErrNoAvailableSignatureSchemes)
    else
      _ ← or_fail BadCertificate
            (verify_certificate_verify plain_text (cv_algorithm h) (cv_signature h) certs (insecure_verification cfg));
      let verify := client_auth_as_u8 VerifyClientCertIfGiven <=? client_auth_as_u8 (client_auth cfg) in
      chains ← (if verify then
                  if client_cert_verifier cfg then or_fail BadCertificate (verify_client_cert certs)
                  else fail (fatal BadCertificate) (Some ErrInvalidCertificate)
                else mret []);
      _ ← match verify_peer_certificate cfg with
          | Some callback => or_fail BadCertificate (callback certs chains)
          | None => mret tt
          end;
      update (fun s => s {{ peer_certificates_verified := verify }}).

(** The secret of the server: [if !cipher_suite.is_initialized() { .. }]. *)
Definition flight4_master_secret (cfg : HandshakeConfig) (cs : CipherSuite) (client_key_exchange : HandshakeMessageClientKeyExchange)
    : flight_op unit :=
  s ← gets state;
  let server_random := HandshakeRandom.marshal (local_random s) in
  let client_random := HandshakeRandom.marshal (remote_random s) in
  secret ← match local_psk_callback cfg with
           | Some callback =>
               psk ← or_fail InternalError (callback (cke_identity_hint client_key_exchange));
               _ ← update (fun s => s {{ identity_hint := cke_identity_hint client_key_exchange }});
               mret (prf_psk_pre_master_secret psk)
           | None =>
               match local_keypair s with
               | Some keypair =>
                   or_fail IllegalParameter
                     (prf_pre_master_secret (cke_public_key client_key_exchange) (kp_private_key keypair) (kp_curve keypair))
               | None => mret []
               end
           end;
  items ← gets (fun p => cache (conn p));
  master ← or_fail InternalError
             (if extended_master_secret s then
                prf_extended_master_secret secret
                  (HandshakeCache.session_hash items (CipherSuite.hash_func cs) (initial_epoch cfg) []) (CipherSuite.hash_func cs)
              else prf_master_secret secret client_random server_random (CipherSuite.hash_func cs));
  _ ← update (fun s => s {{ master_secret := master }});
  cs ← or_fail InternalError (CipherSuite.init cs master client_random server_random false);
  set_cipher_suite cs.

(** [match cfg.client_auth { .. }] *)
Definition flight4_client_auth (cfg : HandshakeConfig) : flight_op Flight :=
  s ← gets state;
  let none := is_empty (peer_certificates s) in
  match client_auth cfg with
  | RequireAnyClientCert =>
      if none then fail (fatal NoCertificate) (Some ErrClientCertificateRequired) else mret Flight6
  | VerifyClientCertIfGiven =>
      if negb none && negb (peer_certificates_verified s)
      then fail (fatal BadCertificate) (Some ErrClientCertificateNotVerified) else mret Flight6
  | RequireAndVerifyClientCert =>
      if none then fail (fatal NoCertificate) (Some ErrClientCertificateRequired)
      else if negb (peer_certificates_verified s)
      then fail (fatal BadCertificate) (Some ErrClientCertificateNotVerified) else mret Flight6
  | NoClientCert | RequestClientCert => mret Flight6
  end.

(** Up to the point from which encrypted packets can be handled: the sequence number of
    the message that follows. *)
Definition flight4_parameters (cfg : HandshakeConfig) : flight_op Z :=
  seq ← gets (fun p => handshake_recv_sequence (state p));
  let e := initial_epoch cfg in
  pulled ← gets (pull_map seq [mkRule HtCertificate e true true; mkRule HtClientKeyExchange e true false;
                               mkRule HtCertificateVerify e true true]);
  '(seq, msgs) ← or_wait pulled;
  client_key_exchange ← match HandshakeCache.get HtClientKeyExchange msgs with
                        | Some (ClientKeyExchange h) => mret h
                        | _ => fail (fatal InternalError) None
                        end;
  _ ← match HandshakeCache.get HtCertificate msgs with
      | None => mret tt
      | Some (DtlsWire.Certificate certs) => update (fun s => s {{ peer_certificates := certs }})
      | Some _ => fail (fatal InternalError) None
      end;
  _ ← match HandshakeCache.get HtCertificateVerify msgs with
      | Some (CertificateVerify h) => flight4_certificate_verify cfg h
      | Some _ => fail (fatal InternalError) None
      | None =>
          certs ← gets (fun p => peer_certificates (state p));
          when (negb (is_empty certs)) (fail None None)
      end;
  suite ← gets (fun p => cipher_suite (conn p));
  _ ← match suite with
      | Some cs => when (negb (CipherSuite.is_initialized cs)) (flight4_master_secret cfg cs client_key_exchange)
      | None => mret tt
      end;
  mret seq.

(** [tx.send(done_tx)] and [done_rx.recv()]: the reader, when it runs, handles the packets
    it has queued. *)
Definition handle_queue : flight_op unit :=
  fun p =>
    if reading (conn p) then
      match receive_queued (conn p) with
      | Ret c => (Ok tt, p {{ conn := c }})
      | Panic why => (Panics why, p)
      | OutOfFuel => (NoFuel, p)
      end
    else (Err (fatal InternalError, Some (ErrOther "channel closed")), p).

(** The message of the client's Finished is not looked at. *)
Definition flight4_finished (cfg : HandshakeConfig) (seq : Z) : flight_op Flight :=
  pulled ← gets (pull_map seq [mkRule HtFinished (initial_epoch cfg + 1) true false]);
  '(seq, msgs) ← or_wait pulled;
  _ ← update (fun s => s {{ handshake_recv_sequence := seq }});
  match HandshakeCache.get HtFinished msgs with
  | Some (Finished _) => flight4_client_auth cfg
  | _ => fail (fatal InternalError) None
  end.

Definition flight4_parse (cfg : HandshakeConfig) : flight_op Flight :=
  seq ← flight4_parameters cfg;
  _ ← handle_queue;
  flight4_finished cfg seq.

(** *** Flight 5: the client's key exchange and Finished *)

Definition flight5_parse (cfg : HandshakeConfig) : flight_op Flight :=
  seq ← gets (fun p => handshake_recv_sequence (state p));
  pulled ← gets (pull_map seq [mkRule HtFinished (initial_epoch cfg + 1) false false]);
  '(_, msgs) ← or_wait pulled;
  verify_data ← match HandshakeCache.get HtFinished msgs with
                | Some (Finished verify_data) => mret verify_data
                | _ => fail (fatal InternalError) None
                end;
  plain_text ← gets (merge (all_rules (initial_epoch cfg)));
  s ← gets state;
  suite ← gets (fun p => cipher_suite (conn p));
  _ ← match suite with
      | None => mret tt
      | Some cs =>
          expected ← or_fail InsufficientSecurity
                       (prf_verify_data_server (master_secret s) plain_text (CipherSuite.hash_func cs));
          when (negb (bool_decide (expected = verify_data))) (fail (fatal HandshakeFailure) (Some ErrVerifyDataMismatch))
      end;
  mret Flight5.

(** The master secret of the client. *)
Definition client_master_secret (cfg : HandshakeConfig) (cs : CipherSuite) (sending_plain_text : bytes) : flight_op unit :=
  s ← gets state;
  items ← gets (fun p => cache (conn p));
  let hf := CipherSuite.hash_func cs in
  master ← (if extended_master_secret s then
              or_fail IllegalParameter
                (prf_extended_master_secret (pre_master_secret s)
                   (HandshakeCache.session_hash items hf (initial_epoch cfg) sending_plain_text) hf)
            else
              or_fail InternalError
                (prf_master_secret (pre_master_secret s) (HandshakeRandom.marshal (local_random s))
                   (HandshakeRandom.marshal (remote_random s)) hf));
  update (fun s => s {{ master_secret := master }}).

(** The signature of the server's parameters, and its certificate. *)
Definition verify_server (cfg : HandshakeConfig) (h : HandshakeMessageServerKeyExchange) : flight_op unit :=
  if negb (valid_signature_scheme cfg (ske_algorithm h))
  then fail (fatal InsufficientSecurity) (Some ErrNoAvailableSignatureSchemes)
  else
    s ← gets state;
    let certs := peer_certificates s in
    let expected_msg := value_key_message (HandshakeRandom.marshal (local_random s)) (HandshakeRandom.marshal (remote_random s))
                          (ske_public_key h) (ske_named_curve h) in
    _ ← or_fail BadCertificate
          (verify_key_signature expected_msg (ske_algorithm h) (ske_signature h) certs (insecure_verification cfg));
    chains ← (if insecure_skip_verify cfg then mret []
              else or_fail BadCertificate (verify_server_cert certs (cfg_server_name cfg)));
    match verify_peer_certificate cfg with
    | Some callback => or_fail BadCertificate (callback certs chains)
    | None => mret tt
    end.

Definition initialize_cipher_suite (cfg : HandshakeConfig) (h : HandshakeMessageServerKeyExchange) (sending_plain_text : bytes)
    : flight_op unit :=
  suite ← gets (fun p => cipher_suite (conn p));
  if match suite with Some cs => CipherSuite.is_initialized cs | None => false end then mret tt
  else
    _ ← match suite with
        | Some cs => client_master_secret cfg cs sending_plain_text
        | None => mret tt
        end;
    _ ← when (negb (uses_psk cfg)) (verify_server cfg h);
    match suite with
    | None => mret tt
    | Some cs =>
        s ← gets state;
        cs ← or_fail InternalError
               (CipherSuite.init cs (master_secret s) (HandshakeRandom.marshal (local_random s))
                  (HandshakeRandom.marshal (remote_random s)) true);
        set_cipher_suite cs
    end.

(** The message sequence of a packet that has not been sent. *)
Definition set_sequence (seq : Z) (p : Packet) : Packet :=
  match content (pk_record p) with
  | ContentHandshake h =>
      let h := h {{ handshake_header := (handshake_header h) {{ hh_message_sequence := seq }} }} in
      p {{ pk_record := (pk_record p) {{ content := ContentHandshake h }} }}
  | _ => p
  end.

(** [for p in &mut pkts { .. }]: the packets with their numbers, and their messages. *)
Fixpoint number_messages (seq_pred : Z) (pkts : list Packet) : flight_op (Z * (list Packet * bytes)) :=
  match pkts with
  | [] => mret (seq_pred, ([], []))
  | p :: pkts =>
      let p := set_sequence seq_pred p in
      match content (pk_record p) with
      | ContentHandshake h =>
          next ← or_fail InternalError (lift (checked_u 16 (seq_pred + 1)));
          raw ← or_fail InternalError (Handshake.marshal h);
          '(seq_pred, (pkts, merged)) ← number_messages next pkts;
          mret (seq_pred, (p :: pkts, raw ++ merged))
      | _ => fail (fatal InternalError) (Some ErrInvalidContentType)
      end
  end.

(** The key exchange message of the server as it was received; it is optional for a PSK. *)
Definition server_key_exchange (cfg : HandshakeConfig) (en : Entropy) : flight_op HandshakeMessageServerKeyExchange :=
  data ← gets (merge [mkRule HtServerKeyExchange (initial_epoch cfg) false false]);
  if is_empty data then
    let h := mkServerKeyExchange [] UnsupportedCurveType UnsupportedCurve []
               (mkSignatureHashAlgorithm UnsupportedHash UnsupportedSignature) [] in
    _ ← handle_server_key_exchange cfg en h;
    mret h
  else
    '(raw_handshake, _) ← or_fail UnexpectedMessage (Handshake.unmarshal data);
    match handshake_message raw_handshake with
    | ServerKeyExchange h => mret h
    | _ => fail (fatal UnexpectedMessage) (Some ErrInvalidContentType)
    end.

(** The client's certificate, when the server asked for one, and its key exchange. *)
Definition key_exchange_packets (cfg : HandshakeConfig) (cert : option Certificate) (s : State) : list Packet :=
  (if remote_requested_certificate s
   then [handshake_packet 0 false false
           (DtlsWire.Certificate match cert with Some cert => certificate cert | None => [] end)]
   else [])
  ++ [handshake_packet 0 false false
        (ClientKeyExchange
           (if uses_psk cfg then mkClientKeyExchange (default [] (local_psk_identity_hint cfg)) []
            else mkClientKeyExchange [] match local_keypair s with Some k => kp_public_key k | None => [] end))].

(** [certificate.as_ref().unwrap()]: there is one when [local_certificates] is not empty. *)
Definition certificate_verify_packet (cfg : HandshakeConfig) (en : Entropy) (cert : option Certificate) (seq_pred : Z) (merged : bytes)
    : flight_op (Packet * bytes) :=
  bodies ← gets (merge (hello_rules (initial_epoch cfg)));
  cert ← or_fail InternalError (match cert with Some cert => Ok cert | None => Panics UnwrapOnNone end);
  scheme ← or_fail InsufficientSecurity (select_signature_scheme (local_signature_schemes cfg) (private_key cert));
  sig ← or_fail InternalError (generate_certificate_verify (bodies ++ merged) (private_key cert) (en_nonce en));
  _ ← update (fun s => s {{ local_certificates_verify := sig }});
  let p := set_sequence seq_pred
             (handshake_packet 0 false false (CertificateVerify (mkCertificateVerify scheme sig))) in
  match content (pk_record p) with
  | ContentHandshake h =>
      raw ← or_fail InternalError (Handshake.marshal h);
      mret (p, raw)
  | _ => fail (fatal InternalError) (Some ErrInvalidContentType)
  end.

Definition client_verify_data (cfg : HandshakeConfig) (merged : bytes) : flight_op unit :=
  s ← gets state;
  when (is_empty (local_verify_data s))
    (bodies ← gets (merge (all_rules (initial_epoch cfg)));
     suite ← gets (fun p => cipher_suite (conn p));
     match suite with
     | None => mret tt
     | Some cs =>
         data ← or_fail InternalError
                  (prf_verify_data_client (master_secret s) (bodies ++ merged) (CipherSuite.hash_func cs));
         update (fun s => s {{ local_verify_data := data }})
     end).

Definition flight5_generate (cfg : HandshakeConfig) (en : Entropy) : flight_op (list Packet) :=
  cert ← (if is_empty (local_certificates cfg) then mret None
          else cert ← or_fail HandshakeFailure (get_certificate cfg (cfg_server_name cfg)); mret (Some cert));
  s ← gets state;
  let pkts := key_exchange_packets cfg cert s in
  h ← server_key_exchange cfg en;
  '(seq_pred, (pkts, merged)) ← number_messages (as_u 16 (handshake_send_sequence s)) pkts;
  _ ← initialize_cipher_suite cfg h merged;
  '(pkts, merged) ←
    (if remote_requested_certificate s && negb (is_empty (local_certificates cfg)) then
       '(p, raw) ← certificate_verify_packet cfg en cert seq_pred merged;
       mret (pkts ++ [p], merged ++ raw)
     else mret (pkts, merged));
  _ ← client_verify_data cfg merged;
  s ← gets state;
  mret (pkts ++ [change_cipher_spec_packet; handshake_packet 1 true true (Finished (local_verify_data s))]).

(** *** Flight 6: the server's Finished *)

Definition flight6_parse (cfg : HandshakeConfig) : flight_op Flight :=
  seq ← gets (fun p => handshake_recv_sequence (state p));
  pulled ← gets (pull_map (seq - 1) [mkRule HtFinished (initial_epoch cfg + 1) true false]);
  '(_, msgs) ← or_wait pulled;
  match HandshakeCache.get HtFinished msgs with
  | None | Some (Finished _) => mret Flight6
  | Some _ => fail (fatal InternalError) None
  end.

Definition flight6_generate (cfg : HandshakeConfig) : flight_op (list Packet) :=
  s ← gets state;
  _ ← when (is_empty (local_verify_data s))
        (plain_text ← gets (merge (all_rules (initial_epoch cfg)));
         suite ← gets (fun p => cipher_suite (conn p));
         match suite with
         | None => mret tt
         | Some cs =>
             data ← or_fail InternalError
                      (prf_verify_data_server (master_secret s) plain_text (CipherSuite.hash_func cs));
             update (fun s => s {{ local_verify_data := data }})
         end);
  s ← gets state;
  mret [change_cipher_spec_packet; handshake_packet 1 true true (Finished (local_verify_data s))].

(** *** The trait *)

Definition parse (f : Flight) (cfg : HandshakeConfig) (en : Entropy) : flight_op Flight :=
  match f with
  | Flight0 => flight0_parse cfg en
  | Flight1 => flight1_parse cfg en
  | Flight2 => flight2_parse cfg en
  | Flight3 => flight3_parse cfg en
  | Flight4 => flight4_parse cfg
  | Flight5 => flight5_parse cfg
  | Flight6 => flight6_parse cfg
  end.

Definition generate (f : Flight) (cfg : HandshakeConfig) (en : Entropy) : flight_op (list Packet) :=
  match f with
  | Flight0 => flight0_generate cfg en
  | Flight1 => flight1_generate cfg en
  | Flight2 => flight2_generate cfg
  | Flight3 => flight3_generate cfg
  | Flight4 => flight4_generate cfg en
  | Flight5 => flight5_generate cfg en
  | Flight6 => flight6_generate cfg
  end.
End flights.
