(* ===== verification/DtlsHandshaker.v ===== *)
(** * The state machine of the DTLS handshake

    vendored/dtls/src/handshaker.rs, state.rs, config.rs and [DTLSConn::new]: flights are
    prepared, sent and waited for until the last one.  A [Handshaker] is a connection whose
    handshake runs; what happens to it are datagrams and the retransmission timer.  The
    reader hands over to the handshake after each datagram with a handshake message, and
    waits until the flight has been parsed. *)

From stdpp Require Import base list gmap strings.
From Stdlib Require Import ZArith Lia.
From coqutil Require Import Datatypes.RecordSetters.
From S2P Require Import Prelude Utf8 Fallible ReplayDetector DtlsWire DtlsCrypto DtlsRecord DtlsFlight.
Import DoubleBraceUpdate.
Local Open Scope Z_scope.

Inductive HandshakeState := Errored | Preparing | Sending | Waiting | FinishedState.

#[export] Instance HandshakeState_eq_dec : EqDecision HandshakeState.
Proof. solve_decision. Defined.

Record Handshaker := mkHandshaker {
  peer : Peer;
  current_flight : Flight;
  flights : option (list Packet);
  retransmit : bool }.

(** What a step of the handshake does: its result, the datagrams sent, the connection. *)
Abbreviation handshake_step A := (result A * list bytes * Handshaker)%type.

Section handshaker.
  Context `{Crypto} `{Pki} (rng : Z -> Z -> bytes).

(** [self.write_packets(pkts)] *)
Definition write_packets (pkts : list Packet) (h : Handshaker) : handshake_step unit :=
  let p := peer h in
  let '(r, c) := handle_outgoing_packets rng (conn p) pkts in
  let h := h {{ peer := p {{ conn := c }} }} in
  match r with
  | Ok datagrams => ((Ok tt, datagrams), h)
  | Err e => ((Err e, []), h)
  | Panics why => ((Panics why, []), h)
  | NoFuel => ((NoFuel, []), h)
  end.

Definition notify_alert (a : Alert) (h : Handshaker) : handshake_step unit :=
  write_packets [alert_packet (conn (peer h)) a] h.

(** The packets the reader asked the outgoing task to send. *)
Definition flush (h : Handshaker) : list bytes * Handshaker :=
  let c := conn (peer h) in
  foldl (fun '(sent, h) p =>
           let '((_, datagrams), h) := write_packets [p] h in (sent ++ datagrams, h))
        ([], h {{ peer := (peer h) {{ conn := c {{ packets := [] }} }} }}) (packets c).

(** A failed flight: the alert is sent, an error of the sending replaces that of the
    flight, and without an error the handshake goes on. *)
Definition after_failure {A} (f : failure) (h : Handshaker) (continue : Handshaker -> handshake_step A) : handshake_step A :=
  let '(a, err) := f in
  let '((r, sent), h) := match a with Some a => notify_alert a h | None => ((Ok tt, []), h) end in
  match r with
  | Panics why => ((Panics why, sent), h)
  | NoFuel => ((NoFuel, sent), h)
  | _ =>
      let err := match r, err with Err alert_err, Some _ => Some alert_err | _, _ => err end in
      match err with
      | Some err => ((Err err, sent), h)
      | None => let '((r, more), h) := continue h in ((r, sent ++ more), h)
      end
  end.

(** [for p in pkts { .. }]: the packets with their epochs and message numbers, the last
    epoch, and the next number. *)
Fixpoint number_packets (e next_epoch send_sequence : Z) (pkts : list Packet) : result (list Packet * Z * Z) :=
  match pkts with
  | [] => Ok ([], next_epoch, send_sequence)
  | p :: pkts =>
      let header := record_layer_header (pk_record p) in
      pe ← lift (checked_u 16 (epoch header + e));
      let p := p {{ pk_record := (pk_record p) {{ record_layer_header := header {{ epoch := pe }} }} }} in
      let next_epoch := if next_epoch <? pe then pe else next_epoch in
      let '(p, send_sequence) :=
        match content (pk_record p) with
        | ContentHandshake _ => (set_sequence (as_u 16 send_sequence) p, send_sequence + 1)
        | _ => (p, send_sequence)
        end in
      '(pkts, next_epoch, send_sequence) ← number_packets e next_epoch send_sequence pkts;
      Ok (p :: pkts, next_epoch, send_sequence)
  end.

(** The rest of [prepare], once the flight has been generated. *)
Definition number_flight (cfg : HandshakeConfig) (h : Handshaker) : handshake_step HandshakeState :=
  match flights h with
  | None => ((Ok Sending, []), h)
  | Some pkts =>
      let s := state (peer h) in
      match number_packets (initial_epoch cfg) (initial_epoch cfg) (handshake_send_sequence s) pkts with
      | Ok (pkts, next_epoch, send_sequence) =>
          let c := conn (peer h) in
          let c := if negb (initial_epoch cfg =? next_epoch) then c {{ local_epoch := next_epoch }} else c in
          let s := s {{ handshake_send_sequence := send_sequence }} in
          ((Ok Sending, []), h {{ flights := Some pkts }} {{ peer := mkPeer c s }})
      | Err e => ((Err e, []), h)
      | Panics why => ((Panics why, []), h)
      | NoFuel => ((NoFuel, []), h)
      end
  end.

Definition prepare (cfg : HandshakeConfig) (en : Entropy) (h : Handshaker) : handshake_step HandshakeState :=
  let h := h {{ flights := None }} {{ retransmit := has_retransmit (current_flight h) }} in
  let '(r, p) := generate (current_flight h) cfg en (peer h) in
  let h := h {{ peer := p }} in
  match r with
  | Ok pkts => number_flight cfg (h {{ flights := Some pkts }})
  | Err f => after_failure f h (number_flight cfg)
  | Panics why => ((Panics why, []), h)
  | NoFuel => ((NoFuel, []), h)
  end.

Definition send (h : Handshaker) : handshake_step HandshakeState :=
  let next := if is_last_send_flight (current_flight h) then FinishedState else Waiting in
  match flights h with
  | None => ((Ok next, []), h)
  | Some pkts =>
      let '((r, sent), h) := write_packets pkts h in
      ((_ ← r; Ok next, sent), h)
  end.

(** The flight parses the cache, while the reader may handle what it has queued. *)
Definition parse_flight {A} (cfg : HandshakeConfig) (en : Entropy) (h : Handshaker)
    (ok : Flight -> Handshaker -> handshake_step A) (continue : Handshaker -> handshake_step A) : handshake_step A :=
  let '(r, p) := parse (current_flight h) cfg en (peer h) in
  let '(alerts, h) := flush (h {{ peer := p }}) in
  let '((r, sent), h) :=
    match r with
    | Ok next_flight => ok next_flight h
    | Err f => after_failure f h continue
    | Panics why => ((Panics why, []), h)
    | NoFuel => ((NoFuel, []), h)
    end in
  ((r, alerts ++ sent), h).

(** [wait] when the reader hands over: after a failure without an error it waits on. *)
Definition wait_message (cfg : HandshakeConfig) (en : Entropy) (h : Handshaker) : handshake_step HandshakeState :=
  parse_flight cfg en h
    (fun next_flight h =>
       if is_last_recv_flight next_flight && bool_decide (current_flight h = next_flight)
       then ((Ok FinishedState, []), h)
       else ((Ok Preparing, []), h {{ current_flight := next_flight }}))
    (fun h => ((Ok Waiting, []), h)).

(** [wait] when the timer fires. *)
Definition wait_timeout (h : Handshaker) : HandshakeState := if retransmit h then Sending else Waiting.

(** [finish] when the reader hands over: the last flight is sent again. *)
Definition finish_message (cfg : HandshakeConfig) (en : Entropy) (h : Handshaker) : handshake_step HandshakeState :=
  parse_flight cfg en h (fun _ h => ((Ok Sending, []), h)) (fun h => ((Ok FinishedState, []), h)).

(** *** The loop of [handshake] between two events *)

(** Where a handshake stands: waiting, completed, or returned with an error. *)
Inductive Progress :=
  | Pending
  | Completed
  | Failed (e : Error)
  | Panicked (why : panic_reason).

Definition set_handshake_completed_successfully (h : Handshaker) : Handshaker :=
  let p := peer h in
  h {{ peer := p {{ conn := (conn p) {{ handshake_completed_successfully := true }} }} }}.

(** Preparing leads to Sending, and Sending to Waiting or Finished, so the loop stops within
    three rounds.  The first Finished ends [handshake]; in a later one it would wait in
    [finish].  A wait fails when the task of the reader has ended. *)
Fixpoint handshake_loop (fuel : nat) (cfg : HandshakeConfig) (en : Entropy) (st : HandshakeState) (h : Handshaker)
    : outcome (Progress * list bytes * Handshaker) :=
  match fuel with
  | O => OutOfFuel
  | S fuel =>
      let continue (s : handshake_step HandshakeState) :=
        let '((r, sent), h) := s in
        match r with
        | Ok st =>
            '((progress, more), h) ← handshake_loop fuel cfg en st h;
            Ret ((progress, sent ++ more), h)
        | Err e => Ret ((Failed e, sent), h)
        | Panics why => Ret ((Panicked why, sent), h)
        | NoFuel => OutOfFuel
        end in
      match st with
      | FinishedState =>
          if handshake_completed_successfully (conn (peer h)) then Ret ((Pending, []), h)
          else Ret ((Completed, []), set_handshake_completed_successfully h)
      | Preparing => continue (prepare cfg en h)
      | Sending => continue (send h)
      | Waiting => Ret ((if reading (conn (peer h)) then Pending else Failed ErrAlertFatalOrClose, []), h)
      | Errored => Ret ((Failed ErrInvalidFsmTransition, []), h)
      end
  end.

(** *** Events *)

Inductive event := Start | Datagram (buf : bytes) | Timeout.

(** The handshake between two waits; [Pending] is the state in which events are taken. *)
Definition advance (cfg : HandshakeConfig) (en : Entropy) (ev : event) (h : Handshaker)
    : outcome (Progress * list bytes * Handshaker) :=
  match ev with
  | Start => handshake_loop 4 cfg en Preparing h
  | Timeout => handshake_loop 4 cfg en (wait_timeout h) h
  | Datagram buf =>
      '(hs, c) ← receive (conn (peer h)) buf;
      let '(alerts, h) := flush (h {{ peer := (peer h) {{ conn := c }} }}) in
      if negb (reading (conn (peer h))) then Ret ((Failed ErrAlertFatalOrClose, alerts), h)
      else if negb hs then Ret ((Pending, alerts), h)
      else
        let '((r, sent), h) := wait_message cfg en h in
        match r with
        | Ok st =>
            '((progress, more), h) ← handshake_loop 4 cfg en st h;
            Ret ((progress, alerts ++ sent ++ more), h)
        | Err e => Ret ((Failed e, alerts ++ sent), h)
        | Panics why => Ret ((Panicked why, alerts ++ sent), h)
        | NoFuel => OutOfFuel
        end
  end.
End handshaker.

(** ** A new connection (config.rs, [DTLSConn::new]) *)

Definition DEFAULT_MTU : nat := 1200.
Definition DEFAULT_REPLAY_PROTECTION_WINDOW : Z := 64.

(** [signature_schemes] as the numbers of [SignatureScheme]. *)
Record Config := mkConfig {
  certificates : list Certificate;
  cipher_suites : list CipherSuiteId;
  signature_schemes : list Z;
  srtp_protection_profiles : list SrtpProtectionProfile;
  config_client_auth : ClientAuthType;
  config_extended_master_secret : ExtendedMasterSecretType;
  psk : option (bytes -> result bytes);
  psk_identity_hint : option bytes;
  config_insecure_skip_verify : bool;
  insecure_hashes : bool;
  config_insecure_verification : bool;
  config_verify_peer_certificate : option (list bytes -> list bytes -> result unit);
  config_server_name : string;
  mtu : nat;
  config_replay_protection_window : Z }.

Definition is_some {A} (o : option A) : bool := match o with Some _ => true | None => false end.

Definition validate_config (is_client : bool) (config : Config) : result unit :=
  if is_client && is_some (psk config) && negb (is_some (psk_identity_hint config))
  then Err ErrPskAndIdentityMustBeSetForClient
  else if negb is_client && negb (is_some (psk config)) && is_empty (certificates config)
  then Err ErrServerMustHaveCertificate
  else if negb (is_empty (certificates config)) && is_some (psk config) then Err ErrPskAndCertificate
  else if is_some (psk_identity_hint config) && negb (is_some (psk config)) then Err ErrIdentityNoPsk
  else if existsb (fun cert => bool_decide (kind (private_key cert) = KindRsa256)) (certificates config)
  then Err ErrInvalidPrivateKey
  else
    _ ← parse_cipher_suites (cipher_suites config) (negb (is_some (psk config))) (is_some (psk config));
    Ok tt.

(** The connection as its tasks find it. *)
Definition new_conn (is_client : bool) (config : Config) : Conn :=
  {| is_client := is_client;
     local_epoch := 0;
     remote_epoch := 0;
     local_sequence_number := [];
     cipher_suite := None;
     cache := [];
     handshake_completed_successfully := false;
     closed := false;
     reading := true;
     maximum_transmission_unit := if (mtu config =? 0)%nat then DEFAULT_MTU else mtu config;
     replay_protection_window :=
       if config_replay_protection_window config =? 0 then DEFAULT_REPLAY_PROTECTION_WINDOW
       else config_replay_protection_window config;
     replay_detector := [];
     decrypted := [];
     encrypted_packets := [];
     fragment_buffer := FragmentBuffer.new;
     packets := [] |}.

(** [DTLSConn::new] without a state to resume, up to the handshake.  [remote_ip] is the
    text of the address of the socket's peer. *)
Definition new (is_client : bool) (config : Config) (remote_ip : option string) : result (HandshakeConfig * Handshaker) :=
  _ ← validate_config is_client config;
  suites ← parse_cipher_suites (cipher_suites config) (negb (is_some (psk config))) (is_some (psk config));
  schemes ← parse_signature_schemes (signature_schemes config) (insecure_hashes config);
  let name :=
    if is_client && String.eqb (config_server_name config) String.EmptyString
    then default "localhost"%string remote_ip else config_server_name config in
  let cfg := {|
    local_psk_callback := psk config;
    local_psk_identity_hint := psk_identity_hint config;
    local_cipher_suites := map CipherSuite.id suites;
    local_signature_schemes := schemes;
    cfg_extended_master_secret := config_extended_master_secret config;
    local_srtp_protection_profiles := srtp_protection_profiles config;
    cfg_server_name := name;
    client_auth := config_client_auth config;
    local_certificates := certificates config;
    name_to_certificate := ∅;
    insecure_skip_verify := config_insecure_skip_verify config;
    insecure_verification := config_insecure_verification config;
    verify_peer_certificate := config_verify_peer_certificate config;
    client_cert_verifier :=
      client_auth_as_u8 VerifyClientCertIfGiven <=? client_auth_as_u8 (config_client_auth config);
    initial_epoch := 0 |} in
  Ok (cfg, mkHandshaker (mkPeer (new_conn is_client config) default_state)
             (if is_client then Flight1 else Flight0) None false).

(** ** The state as others see it (state.rs) *)

Record SerializedState := mkSerializedState {
  ss_local_epoch : Z;
  ss_remote_epoch : Z;
  ss_local_random : bytes;
  ss_remote_random : bytes;
  ss_cipher_suite_id : Z;
  ss_master_secret : bytes;
  ss_sequence_number : Z;
  ss_srtp_protection_profile : Z;
  ss_peer_certificates : list bytes;
  ss_identity_hint : bytes;
  ss_is_client : bool }.

Definition serialize (p : Peer) : result SerializedState :=
  let c := conn p in
  let s := state p in
  sequence_number ← lift (index (local_sequence_number c) (Z.to_nat (local_epoch c)));
  match cipher_suite c with
  | None => Err ErrCipherSuiteUnset
  | Some cs =>
      Ok (mkSerializedState (local_epoch c) (remote_epoch c) (HandshakeRandom.marshal (local_random s))
            (HandshakeRandom.marshal (remote_random s)) (CipherSuiteId.as_u16 (CipherSuite.id cs)) (master_secret s)
            sequence_number (SrtpProtectionProfile.as_u16 (srtp_protection_profile s)) (peer_certificates s)
            (identity_hint s) (is_client c))
  end.

Definition deserialize (serialized : SerializedState) (p : Peer) : result Peer :=
  let c := conn p in
  let e := ss_local_epoch serialized in
  let lsn := <[Z.to_nat e := ss_sequence_number serialized]> (extend_to (local_sequence_number c) e) in
  '(local, _) ← HandshakeRandom.unmarshal (ss_local_random serialized);
  '(remote, _) ← HandshakeRandom.unmarshal (ss_remote_random serialized);
  cs ← cipher_suite_for_id (CipherSuiteId.from (ss_cipher_suite_id serialized));
  let c := c {{ local_epoch := e }} {{ remote_epoch := ss_remote_epoch serialized }} {{ local_sequence_number := lsn }}
             {{ is_client := ss_is_client serialized }} {{ cipher_suite := Some cs }} in
  let s := (state p) {{ local_random := local }} {{ remote_random := remote }}
             {{ master_secret := ss_master_secret serialized }}
             {{ srtp_protection_profile := SrtpProtectionProfile.from (ss_srtp_protection_profile serialized) }}
             {{ peer_certificates := ss_peer_certificates serialized }} {{ identity_hint := ss_identity_hint serialized }} in
  Ok (mkPeer c s).

Section state.
  Context `{Crypto}.

Definition init_cipher_suite (p : Peer) : result Peer :=
  let s := state p in
  match cipher_suite (conn p) with
  | None => Err ErrCipherSuiteUnset
  | Some cs =>
      if CipherSuite.is_initialized cs then Ok p
      else
        let local := HandshakeRandom.marshal (local_random s) in
        let remote := HandshakeRandom.marshal (remote_random s) in
        cs ← (if is_client (conn p) then CipherSuite.init cs (master_secret s) local remote true
              else CipherSuite.init cs (master_secret s) remote local false);
        Ok (p {{ conn := (conn p) {{ cipher_suite := Some cs }} }})
  end.

Inductive KeyingMaterialExporterError :=
  | HandshakeInProgress | ContextUnsupported | ReservedExportKeyingMaterial | CipherSuiteUnset | Hash (e : Error).

Definition INVALID_KEYING_LABELS : list string :=
  ["client finished"; "server finished"; "master secret"; "key expansion"]%string.

(** The material for SRTP. *)
Definition export_keying_material (p : Peer) (label : string) (context : bytes) (len : nat)
    : fallible KeyingMaterialExporterError bytes :=
  let s := state p in
  if local_epoch (conn p) =? 0 then Err HandshakeInProgress
  else if negb (is_empty context) then Err ContextUnsupported
  else if bool_decide (label ∈ INVALID_KEYING_LABELS) then Err ReservedExportKeyingMaterial
  else
    let local := HandshakeRandom.marshal (local_random s) in
    let remote := HandshakeRandom.marshal (remote_random s) in
    let seed := bytes_of_string label ++ (if is_client (conn p) then local ++ remote else remote ++ local) in
    match cipher_suite (conn p) with
    | None => Err CipherSuiteUnset
    | Some cs =>
        match prf_p_hash (master_secret s) seed len (CipherSuite.hash_func cs) with
        | Ok v => Ok v
        | Err e => Err (Hash e)
        | Panics why => Panics why
        | NoFuel => NoFuel
        end
    end.

(** [key_log_data]: the randoms and the secret for the key log. *)
Definition key_log_data (p : Peer) : bytes * bytes * bytes :=
  let s := state p in
  (HandshakeRandom.marshal (local_random s), HandshakeRandom.marshal (remote_random s), master_secret s).
End state.
