(* ===== verification/DtlsRuns.v ===== *)
(** * Every run of a DTLS handshake

    What the tasks of the record layer leave alone, what the cache gives to a flight, rules
    for the computations of DtlsFlight.v, and an induction over all events of a handshake:
    [handshake_run] is any sequence of datagrams and timers with any randomness. *)

From stdpp Require Import base list gmap strings.
From Stdlib Require Import ZArith Lia.
From coqutil Require Import Datatypes.RecordSetters.
From S2P Require Import Prelude Utf8 Fallible ReplayDetector DtlsWire DtlsCrypto DtlsRecord DtlsReceiving DtlsFlight DtlsHandshaker.
Import DoubleBraceUpdate.
Local Open Scope Z_scope.

(** ** What the tasks of the record layer leave alone

    [grown who c c']: the suite, the role and the end of the handshake are the same, and only messages of [who] have
    entered the cache. *)

Record grown (who : bool) (c c' : Conn) : Prop := {
  gr_suite : cipher_suite c' = cipher_suite c;
  gr_role : is_client c' = is_client c;
  gr_completed : handshake_completed_successfully c' = handshake_completed_successfully c;
  gr_cache : exists new, cache c' = cache c ++ new /\ Forall (fun i => ci_is_client i = who) new }.

#[export] Instance grown_preorder who : PreOrder (grown who).
Proof.
  split; [by intros c; split; try done; exists []; rewrite app_nil_r|].
  intros c1 c2 c3 [? ? ? (new & H1 & F1)] [? ? ? (new' & H2 & F2)]. split; [congruence..|].
  exists (new ++ new'). rewrite H2, H1, app_assoc. split; [done|by apply Forall_app].
Qed.

Lemma grown_same who c c' :
  cipher_suite c' = cipher_suite c -> is_client c' = is_client c ->
  handshake_completed_successfully c' = handshake_completed_successfully c -> cache c' = cache c -> grown who c c'.
Proof. intros ? ? ? Hc. split; [done..|]. exists []. by rewrite Hc, app_nil_r. Qed.

Lemma grown_push who c d e seq t :
  grown who c (c {{ cache := (HandshakeCache.push (cache c) d e seq t who).2 }}).
Proof.
  unfold HandshakeCache.push. case_match; [by apply grown_same|]. split; try done. eexists. split; [done|]. by repeat constructor.
Qed.

Section frames.
  Context `{Crypto}.

Lemma pop_messages_grown fuel : forall c c', pop_messages fuel c = Ret c' -> grown (negb (is_client c)) c c'.
Proof.
  induction fuel as [|fuel IH]; intros c c' Hp; [done|]. cbn [pop_messages] in Hp.
  apply handle_Ret in Hp as [([[out e] b] & _ & Hp)|(e & _ & [= <-])]; [|done].
  apply handle_Ret in Hp as [([raw rest] & _ & Hp)|(e' & _ & Hp)].
  - destruct (HandshakeCache.push _ _ _ _ _ _) as [pushed items] eqn:Hpush. apply IH in Hp.
    change (is_client (c {{ fragment_buffer := b }} {{ cache := items }})) with (is_client c) in Hp.
    etrans; [|exact Hp]. etrans; [by eapply (grown_same _ _ (c {{ fragment_buffer := b }}))|].
    replace items with (HandshakeCache.push (cache (c {{ fragment_buffer := b }})) out e
      (hh_message_sequence (handshake_header raw)) (hh_type (handshake_header raw)) (negb (is_client c))).2; [apply grown_push|].
    change (negb (is_client (c {{ fragment_buffer := b }}))) with (negb (is_client c)) in Hpush. by rewrite Hpush.
  - apply IH in Hp. etrans; [|exact Hp]. by apply grown_same.
Qed.

Lemma accept_replay_grown who c e c' : accept_replay c e = Ret c' -> grown who c c'.
Proof. intros Ha. apply outcome_bind_Ret in Ha as (ds & _ & [= <-]). by apply grown_same. Qed.

Lemma check_replay_grown who c e seq ok c' : check_replay c e seq = Ret (ok, c') -> grown who c c'.
Proof.
  intros Hc. apply outcome_bind_Ret in Hc as (d & _ & Hc). apply outcome_bind_Ret in Hc as ([ok' d'] & _ & Hc).
  injection Hc as <- <-. by apply grown_same.
Qed.

Lemma enqueue_grown who enqueue pkt c : grown who c (enqueue_packet enqueue pkt c).
Proof. destruct enqueue; by apply grown_same. Qed.

Lemma handle_content_grown who c h e pkt enqueue m res c' :
  handle_content c h e pkt enqueue m = Ret (res, c') -> grown who c c'.
Proof.
  intros Hc. destruct m as [| |hs|data]; cbn [handle_content] in Hc.
  - case_match; [injection Hc as _ <-; apply enqueue_grown|].
    apply outcome_bind_Ret in Hc as (n & _ & Hc). apply outcome_bind_Ret in Hc as (n' & _ & Hc). case_match.
    + apply outcome_bind_Ret in Hc as (c1 & Ha & Hc). injection Hc as _ <-. apply (accept_replay_grown who) in Ha.
      etrans; [|exact Ha]. by apply grown_same.
    + by injection Hc as _ <-.
  - apply outcome_bind_Ret in Hc as (c1 & Ha & Hc). injection Hc as _ <-. by eapply accept_replay_grown.
  - by injection Hc as _ <-.
  - case_match; [by injection Hc as _ <-|].
    apply outcome_bind_Ret in Hc as (c1 & Ha & Hc). injection Hc as _ <-. apply (accept_replay_grown who) in Ha.
    etrans; [exact Ha|]. by apply grown_same.
Qed.

Lemma handle_plain_packet_grown c h e pkt enqueue res c' :
  handle_plain_packet c h e pkt enqueue = Ret (res, c') -> grown (negb (is_client c)) c c'.
Proof.
  unfold handle_plain_packet. destruct (FragmentBuffer.push _ _) as [pushed b]. intros Hp.
  apply handle_Ret in Hp as [(hs & _ & Hp)|(err & _ & Hp)]; [|by injection Hp as _ <-; apply grown_same].
  etrans; [by eapply (grown_same _ c (c {{ fragment_buffer := b }}))|]. case_match.
  - apply outcome_bind_Ret in Hp as (c1 & Ha & Hp). apply outcome_bind_Ret in Hp as (c2 & Hm & Hp). injection Hp as _ <-.
    apply (accept_replay_grown (negb (is_client c))) in Ha. etrans; [exact Ha|].
    apply pop_messages_grown in Hm. by rewrite (gr_role _ _ _ Ha) in Hm.
  - apply handle_Ret in Hp as [(r & _ & Hp)|(err & _ & Hp)]; [by eapply handle_content_grown|by injection Hp as _ <-].
Qed.

Lemma handle_incoming_packet_grown c pkt enqueue res c' :
  handle_incoming_packet c pkt enqueue = Ret (res, c') -> grown (negb (is_client c)) c c'.
Proof.
  intros Hi. apply handle_Ret in Hi as [([h rest] & _ & Hi)|(err & _ & Hi)]; [|by injection Hi as _ <-].
  cbv beta iota zeta in Hi. case_match; [case_match; injection Hi as _ <-; [done|apply enqueue_grown]|].
  apply outcome_bind_Ret in Hi as ([ok c1] & Hc & Hi).
  apply (check_replay_grown (negb (is_client c))) in Hc.
  assert (grown (negb (is_client c)) c c1) as Hg by (etrans; [|exact Hc]; by apply grown_same). clear Hc.
  etrans; [exact Hg|]. pose proof (gr_role _ _ _ Hg) as Hr.
  destruct ok; [|by injection Hi as _ <-]. cbn [negb] in Hi.
  assert (forall pkt, handle_plain_packet c1 h (remote_epoch c) pkt enqueue = Ret (res, c') ->
          grown (negb (is_client c)) c1 c') as Hplain.
  { intros pkt' Hp. apply handle_plain_packet_grown in Hp. by rewrite Hr in Hp. }
  case_match; [|by eapply Hplain]. case_match; [injection Hi as _ <-; apply enqueue_grown|].
  case_match; [|by eapply Hplain].
  apply handle_Ret in Hi as [(p & _ & Hi)|(err & _ & Hi)]; [by eapply Hplain|].
  case_match; by injection Hi as _ <-.
Qed.

Lemma handle_incoming_result_grown who r hs c : handle_incoming_result r = (hs, c) -> grown who r.2 c.
Proof.
  destruct r as [[[h [a|]] err] c1]; cbn; repeat case_match; intros; simplify_eq; by apply grown_same.
Qed.

Lemma handle_records_grown enqueue pkts : forall c hs r c',
  handle_records enqueue c pkts hs = Ret (r, c') -> grown (negb (is_client c)) c c'.
Proof.
  induction pkts as [|pkt pkts IH]; intros c hs r c' Hr; cbn [handle_records] in Hr; [by injection Hr as _ <-|].
  apply outcome_bind_Ret in Hr as ([res c1] & Hi & Hr). apply handle_incoming_packet_grown in Hi.
  destruct (handle_incoming_result (res, c1)) as [hs' c2] eqn:Hres.
  apply (handle_incoming_result_grown (negb (is_client c))) in Hres. cbn [snd] in Hres.
  assert (grown (negb (is_client c)) c c2) as Hg by (by etrans). pose proof (gr_role _ _ _ Hg) as Hrole.
  destruct hs'; [apply IH in Hr; rewrite Hrole in Hr; by etrans|by injection Hr as _ <-..].
Qed.

Lemma end_of_reader_grown {A} who (r : result A) c : grown who c (end_of_reader r c).
Proof. destruct r as [|[]| |]; by apply grown_same. Qed.

Lemma receive_grown c buf hs c' : receive c buf = Ret (hs, c') -> grown (negb (is_client c)) c c'.
Proof.
  unfold receive. case_match; intros Hr; [|by injection Hr as _ <-].
  apply outcome_bind_Ret in Hr as ([r c1] & Hb & Hr). injection Hr as _ <-.
  etrans; [|apply end_of_reader_grown].
  apply handle_Ret in Hb as [(pkts & _ & Hb)|(e & _ & Hb)]; [by eapply handle_records_grown|by injection Hb as _ <-].
Qed.

Lemma receive_queued_grown c c' : receive_queued c = Ret c' -> grown (negb (is_client c)) c c'.
Proof.
  unfold receive_queued. case_match; intros Hr; [|by injection Hr as <-].
  apply outcome_bind_Ret in Hr as ([r c1] & Hb & Hr). injection Hr as <-.
  etrans; [|apply end_of_reader_grown].
  apply outcome_bind_Ret in Hb as ([r' c2] & Hb & Hr). injection Hr as _ <-.
  apply handle_records_grown in Hb. etrans; [|exact Hb]. by apply grown_same.
Qed.
End frames.

(** The outgoing task puts the messages of its own side into the cache. *)
Section sending.
  Context `{Crypto} (rng : Z -> Z -> bytes).

Lemma attempt_inv {S A B} (s : S) (r : result A) (k : A -> result B * S) b s' :
  attempt s r k = (b, s') -> (exists a, r = Ok a /\ k a = (b, s')) \/ s' = s.
Proof. destruct r; cbn; naive_solver. Qed.

Lemma process_packet_grown who c p r c' : process_packet rng c p = (r, c') -> grown who c c'.
Proof.
  unfold process_packet. intros Hp. apply attempt_inv in Hp as [([seq lsn] & _ & Hp)| ->]; [|done].
  case_match; injection Hp as _ <-; by apply grown_same.
Qed.

Lemma process_fragments_grown who p fragments : forall c r c', process_fragments rng c p fragments = (r, c') -> grown who c c'.
Proof.
  induction fragments as [|f fragments IH]; intros c r c' Hp; cbn [process_fragments] in Hp; [by injection Hp as _ <-|].
  apply attempt_inv in Hp as [([seq lsn] & _ & Hp)| ->]; [|done]. cbv beta iota zeta in Hp.
  etrans; [by eapply (grown_same who c (c {{ local_sequence_number := lsn }}))|].
  case_match; [by injection Hp as _ <-|]. apply attempt_inv in Hp as [(raw & _ & Hp)| ->]; [|done].
  destruct (process_fragments _ _ _ _) as [rest c1] eqn:Hr. injection Hp as _ <-. by eapply IH.
Qed.

Lemma process_packets_grown pkts : forall c r c', process_packets rng c pkts = (r, c') -> grown (is_client c) c c'.
Proof.
  induction pkts as [|p pkts IH]; intros c r c' Hp; cbn [process_packets] in Hp; [by injection Hp as _ <-|].
  match type of Hp with (let '(_, _) := ?x in _) = _ => destruct x as [raw c1] eqn:Hx end.
  assert (grown (is_client c) c c1) as Hg.
  { destruct (content (pk_record p)) as [| |h|]; try by destruct (process_packet rng c p) as [raw' c2] eqn:Hr;
      injection Hx as _ <-; eapply process_packet_grown.
    apply attempt_inv in Hx as [(data & _ & Hx)| ->]; [|done].
    destruct (HandshakeCache.push _ _ _ _ _ _) as [pushed items] eqn:Hpush.
    assert (grown (is_client c) c (c {{ cache := items }})) as Hi.
    { replace items with (pushed, items).2 by done. rewrite <-Hpush. apply grown_push. }
    etrans; [exact Hi|]. apply attempt_inv in Hx as [(frags & _ & Hx)| ->]; [|done].
    apply (process_fragments_grown (is_client c)) in Hx. etrans; [|exact Hx]. by apply grown_same. }
  etrans; [exact Hg|]. apply attempt_inv in Hp as [(raw' & _ & Hp)| ->]; [|done].
  destruct (process_packets rng c1 pkts) as [rest c2] eqn:Hr. injection Hp as _ <-.
  apply IH in Hr. by rewrite (gr_role _ _ _ Hg) in Hr.
Qed.

Lemma handle_outgoing_grown c pkts r c' : handle_outgoing_packets rng c pkts = (r, c') -> grown (is_client c) c c'.
Proof.
  unfold handle_outgoing_packets. destruct (process_packets rng c pkts) as [raw c1] eqn:Hp. intros [= _ <-].
  by eapply process_packets_grown.
Qed.

(** The same for a handshake: its state and its flight stay. *)
Record unmoved (who : bool) (h h' : Handshaker) : Prop := {
  um_conn : grown who (conn (peer h)) (conn (peer h'));
  um_state : state (peer h') = state (peer h);
  um_flight : current_flight h' = current_flight h }.

Lemma write_packets_unmoved pkts h r sent h' :
  write_packets rng pkts h = ((r, sent), h') -> unmoved (is_client (conn (peer h))) h h'.
Proof.
  unfold write_packets. destruct (handle_outgoing_packets _ _ _) as [r' c] eqn:Ho. apply handle_outgoing_grown in Ho.
  intros Hw. assert (h' = h {{ peer := (peer h) {{ conn := c }} }}) as -> by (destruct r'; congruence). by split.
Qed.

Lemma unmoved_trans who h1 h2 h3 : unmoved who h1 h2 -> unmoved who h2 h3 -> unmoved who h1 h3.
Proof. intros [? ? ?] [? ? ?]. split; [by etrans|congruence..]. Qed.

Lemma flush_unmoved h sent h' : flush rng h = (sent, h') -> unmoved (is_client (conn (peer h))) h h'.
Proof.
  unfold flush. generalize (@nil bytes) as acc. generalize (packets (conn (peer h))) as pkts. intros pkts acc.
  set (h1 := h {{ peer := (peer h) {{ conn := (conn (peer h)) {{ packets := [] }} }} }}).
  assert (unmoved (is_client (conn (peer h))) h h1) as Hu by (split; try done; by apply grown_same).
  clearbody h1. revert h1 acc Hu. induction pkts as [|p pkts IH]; intros h1 acc Hu Hf; cbn [foldl] in Hf;
    [by injection Hf as _ <-|].
  destruct (write_packets rng [p] h1) as [[r datagrams] h2] eqn:Hw. apply write_packets_unmoved in Hw.
  eapply IH; [|exact Hf]. eapply unmoved_trans; [exact Hu|]. by rewrite (gr_role _ _ _ (um_conn _ _ _ Hu)) in Hw.
Qed.
End sending.

(** ** Pulling messages from the cache *)

Lemma find_item_other items new r :
  Forall (fun i => ci_is_client i = negb (rule_is_client r)) new ->
  HandshakeCache.find_item (items ++ new) r = HandshakeCache.find_item items r.
Proof.
  intros Hn. unfold HandshakeCache.find_item. rewrite foldl_app.
  generalize (foldl (fun item c => if bool_decide (ci_typ c = rule_typ r) && Bool.eqb (ci_is_client c) (rule_is_client r)
              && (ci_epoch c =? rule_epoch r) then match item with
                | Some x => if ci_message_sequence x <? ci_message_sequence c then Some c else item
                | None => Some c end else item) None items) as acc.
  induction Hn as [|i new Hi Hn IH]; intros acc; cbn [foldl]; [done|]. rewrite IH, Hi.
  by destruct (rule_is_client r); rewrite andb_false_r.
Qed.

Lemma get_cons {A} t t' (a : A) l :
  HandshakeCache.get t ((t', a) :: l) = if bool_decide (t' = t) then Some a else HandshakeCache.get t l.
Proof. unfold HandshakeCache.get. cbn. by case_bool_decide. Qed.

Lemma pull_items_get cache rules : forall ci0 ci,
  HandshakeCache.pull_items cache rules ci0 = Ok ci -> NoDup (map rule_typ rules) ->
  (forall t, t ∉ map rule_typ rules -> HandshakeCache.get t ci = HandshakeCache.get t ci0)
  /\ forall r, r ∈ rules -> HandshakeCache.get (rule_typ r) ci0 = None ->
       HandshakeCache.get (rule_typ r) ci = HandshakeCache.find_item cache r
       /\ (HandshakeCache.find_item cache r = None -> rule_optional r = true).
Proof.
  induction rules as [|r0 rules IH]; intros ci0 ci Hp Hnd; cbn [HandshakeCache.pull_items] in Hp.
  { injection Hp as <-. split; [done|]. intros r Hr. by apply not_elem_of_nil in Hr. }
  cbn [map] in *. apply NoDup_cons in Hnd as [Hnot Hnd].
  destruct (HandshakeCache.find_item cache r0) as [i|] eqn:Hf.
  - apply IH in Hp as [Hother Hin]; [|done]. split.
    + intros t Ht. apply not_elem_of_cons in Ht as [Hne Ht]. rewrite Hother, get_cons by done. by rewrite bool_decide_eq_false_2.
    + intros r [->|Hr]%elem_of_cons Hnone.
      * rewrite Hother, get_cons, bool_decide_eq_true_2 by done. by rewrite Hf.
      * apply Hin; [done|]. rewrite get_cons. rewrite bool_decide_eq_false_2; [done|].
        intros Heq. apply Hnot. rewrite Heq. by apply list_elem_of_fmap_2.
  - destruct (rule_optional r0) eqn:Ho; [|done]. apply IH in Hp as [Hother Hin]; [|done]. split.
    + intros t Ht. apply not_elem_of_cons in Ht as [_ Ht]. by apply Hother.
    + intros r [->|Hr]%elem_of_cons Hnone; [|by apply Hin]. rewrite Hother by done. by rewrite Hf.
Qed.

Lemma pull_messages_get ci rules : forall seq out seq' out',
  HandshakeCache.pull_messages ci rules seq out = Ok (seq', out') -> NoDup (map rule_typ rules) ->
  (forall t, t ∉ map rule_typ rules -> HandshakeCache.get t out' = HandshakeCache.get t out)
  /\ forall r, r ∈ rules ->
       match HandshakeCache.get (rule_typ r) ci with
       | Some i => exists hs rest, Handshake.unmarshal (ci_data i) = Ok (hs, rest)
                     /\ HandshakeCache.get (rule_typ r) out' = Some (handshake_message hs)
       | None => HandshakeCache.get (rule_typ r) out' = HandshakeCache.get (rule_typ r) out
       end.
Proof.
  induction rules as [|r0 rules IH]; intros seq out seq' out' Hp Hnd; cbn [HandshakeCache.pull_messages] in Hp.
  { injection Hp as _ <-. split; [done|]. intros r Hr. by apply not_elem_of_nil in Hr. }
  cbn [map] in *. apply NoDup_cons in Hnd as [Hnot Hnd].
  destruct (HandshakeCache.get (rule_typ r0) ci) as [i|] eqn:Hg.
  - apply bind_Ok_inv in Hp as ([hs rest] & Hu & Hp). case_match; [done|].
    apply IH in Hp as [Hother Hin]; [|done]. split.
    + intros t Ht. apply not_elem_of_cons in Ht as [Hne Ht]. rewrite Hother, get_cons by done. by rewrite bool_decide_eq_false_2.
    + intros r [->|Hr]%elem_of_cons.
      * rewrite Hg. exists hs, rest. by rewrite Hother, get_cons, bool_decide_eq_true_2.
      * apply Hin in Hr as Hr'. case_match; [done|]. rewrite Hr', get_cons, bool_decide_eq_false_2; [done|].
        intros Heq. apply Hnot. rewrite Heq. by apply list_elem_of_fmap_2.
  - apply IH in Hp as [Hother Hin]; [|done]. split.
    + intros t Ht. apply not_elem_of_cons in Ht as [_ Ht]. by apply Hother.
    + intros r [->|Hr]%elem_of_cons; [rewrite Hg; by apply Hother|by apply Hin].
Qed.

(** [full_pull_map]: every mandatory message is there, and each is the last one of its kind. *)
Lemma full_pull_get cache seq rules seq' msgs r :
  HandshakeCache.full_pull_map cache seq rules = Ok (seq', msgs) -> NoDup (map rule_typ rules) -> r ∈ rules ->
  match HandshakeCache.find_item cache r with
  | Some i => exists hs rest, Handshake.unmarshal (ci_data i) = Ok (hs, rest)
                /\ HandshakeCache.get (rule_typ r) msgs = Some (handshake_message hs)
  | None => rule_optional r = true /\ HandshakeCache.get (rule_typ r) msgs = None
  end.
Proof.
  intros Hf Hnd Hr. apply bind_Ok_inv in Hf as (ci & Hci & Hm).
  apply pull_items_get in Hci as [_ Hci]; [|done]. destruct (Hci r Hr) as [Hget Hopt]; [done|].
  apply pull_messages_get in Hm as [_ Hm]; [|done]. specialize (Hm r Hr). rewrite Hget in Hm.
  destruct (HandshakeCache.find_item cache r); [done|]. by split; [apply Hopt|].
Qed.

(** ** Weakest preconditions of the flights

    [wp m Q E p]: started in [p], a value of [m] satisfies [Q] and a failure satisfies [E]. *)

Definition wp {A} (m : flight_op A) (Q : A -> Peer -> Prop) (E : failure -> Peer -> Prop) (p : Peer) : Prop :=
  match m p with
  | (Ok a, p') => Q a p'
  | (Err f, p') => E f p'
  | _ => True
  end.

Section wp.
  Context {A : Type} (E : failure -> Peer -> Prop) (p : Peer).
  Implicit Type Q : A -> Peer -> Prop.

Lemma wp_ret Q a : Q a p -> wp (mret a) Q E p.
Proof. done. Qed.

Lemma wp_bind {B} (m : flight_op B) (f : B -> flight_op A) Q :
  wp m (fun b => wp (f b) Q E) E p -> wp (m ≫= f) Q E p.
Proof. unfold wp, mbind, flight_op_bind. by destruct (m p) as [[] p']. Qed.

Lemma wp_gets (f : Peer -> A) Q : Q (f p) p -> wp (gets f) Q E p.
Proof. done. Qed.

Lemma wp_update f (Q : unit -> Peer -> Prop) : Q tt (p {{ state := f (state p) }}) -> wp (update f) Q E p.
Proof. done. Qed.

Lemma wp_update_conn f (Q : unit -> Peer -> Prop) : Q tt (p {{ conn := f (conn p) }}) -> wp (update_conn f) Q E p.
Proof. done. Qed.

Lemma wp_set_cipher_suite cs (Q : unit -> Peer -> Prop) :
  Q tt (p {{ conn := (conn p) {{ cipher_suite := Some cs }} }}) -> wp (set_cipher_suite cs) Q E p.
Proof. done. Qed.

Lemma wp_fail a e Q : E (a, e) p -> wp (fail a e) Q E p.
Proof. done. Qed.

Lemma wp_or_fail desc (r : result A) Q :
  (forall a, r = Ok a -> Q a p) -> (forall e, E (fatal desc, Some e) p) -> wp (or_fail desc r) Q E p.
Proof. intros HQ HE. unfold wp, or_fail. destruct r; auto. Qed.

Lemma wp_or_wait (r : result A) Q : (forall a, r = Ok a -> Q a p) -> E (None, None) p -> wp (or_wait r) Q E p.
Proof. intros HQ HE. unfold wp, or_wait. destruct r; auto. Qed.

Lemma wp_when b m (Q : unit -> Peer -> Prop) :
  (b = true -> wp m Q E p) -> (b = false -> Q tt p) -> wp (when b m) Q E p.
Proof. intros Ht Hf. unfold when. destruct b; [by apply Ht|by apply Hf]. Qed.

Lemma wp_mono (m : flight_op A) Q Q' (E' : failure -> Peer -> Prop) :
  wp m Q E p -> (forall a p', Q a p' -> Q' a p') -> (forall f p', E f p' -> E' f p') -> wp m Q' E' p.
Proof. unfold wp. destruct (m p) as [[] p']; auto. Qed.
End wp.

(** One step of a flight; what is left are the places where the code branches. *)
Ltac flight_step :=
  lazymatch goal with
  | |- wp (mbind _ _) _ _ _ => apply wp_bind
  | |- wp (mret _) _ _ _ => apply wp_ret
  | |- wp (gets _) _ _ _ => apply wp_gets
  | |- wp (update _) _ _ _ => apply wp_update
  | |- wp (update_conn _) _ _ _ => apply wp_update_conn
  | |- wp (set_cipher_suite _) _ _ _ => apply wp_set_cipher_suite
  | |- wp (fail _ _) _ _ _ => apply wp_fail
  | |- wp (or_fail _ _) _ _ _ => apply wp_or_fail; [intros ? ?|intros ?]
  | |- wp (or_wait _) _ _ _ => apply wp_or_wait; [intros ? ?|]
  | |- wp (when _ _) _ _ _ => apply wp_when; intros ?
  end.

Tactic Notation "flight" := repeat (flight_step; cbv beta).

(** ** Every run of a handshake *)

Record kept (who : bool) (p p' : Peer) : Prop := {
  kp_conn : grown who (conn p) (conn p');
  kp_state : exists n, state p' = (state p) {{ handshake_send_sequence := n }} }.

Definition running (p : Peer) : Prop := handshake_completed_successfully (conn p) = false.

Lemma running_kept who p p' : kept who p p' -> running p -> running p'.
Proof. unfold running. intros [[] _]. by rewrite gr_completed0. Qed.

Lemma unmoved_kept who h h' : unmoved who h h' -> kept who (peer h) (peer h').
Proof. intros []. split; [done|]. exists (handshake_send_sequence (state (peer h))). rewrite um_state0. by destruct (state (peer h)). Qed.

Section runs.
  Context `{Crypto} `{Pki} (rng : Z -> Z -> bytes).

(** The events that reach a handshake while it waits. *)
Inductive handshake_run (cfg : HandshakeConfig) (h0 : Handshaker) : Progress -> Handshaker -> Prop :=
  | run_start en progress sent h :
      advance rng cfg en Start h0 = Ret ((progress, sent), h) -> handshake_run cfg h0 progress h
  | run_datagram en buf h progress sent h' :
      handshake_run cfg h0 Pending h -> advance rng cfg en (Datagram buf) h = Ret ((progress, sent), h') ->
      handshake_run cfg h0 progress h'
  | run_timeout en h progress sent h' :
      handshake_run cfg h0 Pending h -> advance rng cfg en Timeout h = Ret ((progress, sent), h') ->
      handshake_run cfg h0 progress h'.

(** [Pre]: a flight is about to be generated; [Inv]: it has been, and the handshake waits;
    [Done]: what holds in the end. *)
Context (cfg : HandshakeConfig) (Pre Inv : Flight -> Peer -> Prop) (Done : Peer -> Prop).
Hypothesis parse_ok : forall en f p, Inv f p ->
  wp (parse f cfg en)
    (fun f' p' => if is_last_recv_flight f' && bool_decide (f = f') then Done p' /\ running p' else Pre f' p')
    (fun e p' => e.2 = None -> Inv f p') p.
Hypothesis generate_ok : forall en f p, Pre f p ->
  wp (generate f cfg en) (fun _ p' => Inv f p') (fun e p' => e.2 <> None) p.
Hypothesis last_ok : forall f p, Inv f p -> is_last_send_flight f = true -> Done p.
Hypothesis Inv_running : forall f p, Inv f p -> running p.
Hypothesis Inv_kept : forall who f p p', kept who p p' -> Inv f p -> Inv f p'.
Hypothesis Done_kept : forall who p p', kept who p p' -> Done p -> Done p'.
Hypothesis Done_completed : forall h, Done (peer h) -> Done (peer (set_handshake_completed_successfully h)).
Hypothesis Pre_kept : forall f p p', kept (is_client (conn p)) p p' -> Pre f p -> Pre f p'.

(** What holds when the loop is entered in a state. *)
Definition loop_pre (st : HandshakeState) (h : Handshaker) : Prop :=
  match st with
  | Preparing => Pre (current_flight h) (peer h)
  | Sending | Waiting => Inv (current_flight h) (peer h)
  | FinishedState => Done (peer h) /\ running (peer h)
  | Errored => True
  end.

Lemma number_flight_ok h r sent h' :
  Inv (current_flight h) (peer h) -> number_flight cfg h = ((r, sent), h') ->
  forall st, r = Ok st -> loop_pre st h'.
Proof using Inv_kept.
  clear - Inv_kept. intros Hi Hn st ->. unfold number_flight in Hn. case_match; [|by injection Hn as <- _ <-].
  destruct (number_packets _ _ _ _) as [[[pkts next] seq]| | |]; [|done..]. injection Hn as <- _ <-. cbn.
  eapply (Inv_kept true); [|exact Hi]. split; [|by eexists]. cbn. case_match; by apply grown_same.
Qed.

Lemma after_failure_ok {A} f h (continue : Handshaker -> handshake_step A) r sent h' a :
  after_failure rng f h continue = ((r, sent), h') -> r = Ok a ->
  f.2 = None /\ exists h1 sent1, unmoved (is_client (conn (peer h))) h h1 /\ continue h1 = ((Ok a, sent1), h').
Proof using.
  clear. destruct f as [al err]. cbn. intros Ha ->.
  destruct (match al with Some a => notify_alert rng a h | None => (Ok tt, [], h) end) as [[r1 s1] h1] eqn:Hn.
  assert (unmoved (is_client (conn (peer h))) h h1) as Hu.
  { destruct al; [by eapply write_packets_unmoved|]. by injection Hn as _ _ <-. }
  assert (err = None) as ->.
  { destruct err; [|done]. destruct r1; try done; by injection Ha. }
  split; [done|]. exists h1. destruct r1 as [[]|e| |]; try done.
  all: destruct (continue h1) as [[r2 s2] h2]; injection Ha as -> _ ->; by exists s2.
Qed.

Lemma prepare_ok en h r sent h' st :
  Pre (current_flight h) (peer h) -> prepare rng cfg en h = ((r, sent), h') -> r = Ok st -> loop_pre st h'.
Proof using generate_ok Inv_kept.
  clear - generate_ok Inv_kept. intros Hp Hr Hst. unfold prepare in Hr.
  pose proof (generate_ok en _ _ Hp) as Hg. unfold wp in Hg.
  change (generate _ _ _ _) with (generate (current_flight h) cfg en (peer h)) in Hr.
  destruct (generate (current_flight h) cfg en (peer h)) as [[pkts|f|why|] p']; [| |by subst r..].
  - eapply number_flight_ok; [|exact Hr|exact Hst]. exact Hg.
  - by destruct (after_failure_ok _ _ _ _ _ _ _ Hr Hst) as [? _].
Qed.

Lemma send_ok h r sent h' st :
  Inv (current_flight h) (peer h) -> send rng h = ((r, sent), h') -> r = Ok st -> loop_pre st h'.
Proof using Inv_kept last_ok Inv_running.
  clear - Inv_kept last_ok Inv_running. intros Hi Hs Hst. unfold send in Hs.
  assert (forall h1, unmoved (is_client (conn (peer h))) h h1 ->
          loop_pre (if is_last_send_flight (current_flight h) then FinishedState else Waiting) h1) as Hnext.
  { intros h1 Hu. pose proof (Inv_kept _ _ _ _ (unmoved_kept _ _ _ Hu) Hi) as Hi1.
    destruct (is_last_send_flight _) eqn:Hl; [by split; [eapply last_ok|eapply Inv_running]|]. cbn. by rewrite (um_flight _ _ _ Hu). }
  destruct (flights h) as [pkts|].
  - destruct (write_packets rng pkts h) as [[r1 s1] h1] eqn:Hw. apply write_packets_unmoved in Hw. injection Hs as Hr _ <-.
    rewrite Hst in Hr. apply bind_Ok_inv in Hr as ([] & _ & [= <-]). by apply Hnext.
  - injection Hs as Hr _ <-. rewrite Hst in Hr. injection Hr as <-. apply Hnext. by split.
Qed.

Lemma wait_message_ok en h r sent h' st :
  Inv (current_flight h) (peer h) -> wait_message rng cfg en h = ((r, sent), h') -> r = Ok st -> loop_pre st h'.
Proof using parse_ok Inv_kept Done_kept Pre_kept.
  clear - parse_ok Inv_kept Done_kept Pre_kept. intros Hi Hw Hst. unfold wait_message, parse_flight in Hw.
  pose proof (parse_ok en _ _ Hi) as Hp. unfold wp in Hp.
  destruct (parse (current_flight h) cfg en (peer h)) as [r0 p']. 
  destruct (flush rng (h {{ peer := p' }})) as [alerts h1] eqn:Hf. apply flush_unmoved in Hf.
  pose proof (unmoved_kept _ _ _ Hf) as Hk. pose proof (um_flight _ _ _ Hf) as Hfl.
  change (current_flight (h {{ peer := p' }})) with (current_flight h) in Hfl. change (peer (h {{ peer := p' }})) with p' in Hk.
  destruct r0 as [f'|f|why|]; cbv beta iota zeta in Hw; [| |by injection Hw as Hr _ _; rewrite Hst in Hr..].
  - rewrite Hfl in Hw. destruct (is_last_recv_flight f' && bool_decide (current_flight h = f')) eqn:Hl;
      injection Hw as Hr _ <-; rewrite Hst in Hr; injection Hr as <-; cbn; [|by eapply Pre_kept].
    destruct Hp. split; [by eapply Done_kept|by eapply running_kept].
  - destruct (after_failure rng f h1 _) as [[r1 s1] h2] eqn:Ha. injection Hw as -> _ ->.
    destruct (after_failure_ok _ _ _ _ _ _ _ Ha Hst) as (He & h3 & s3 & Hu & Hc). injection Hc as <- _ <-. cbn.
    rewrite (um_flight _ _ _ Hu), Hfl. eapply Inv_kept; [exact (unmoved_kept _ _ _ Hu)|]. eapply Inv_kept; [exact Hk|]. by apply Hp.
Qed.

Lemma loop_ok fuel en : forall st h progress sent h',
  loop_pre st h -> handshake_loop rng fuel cfg en st h = Ret ((progress, sent), h') ->
  (progress = Pending -> Inv (current_flight h') (peer h')) /\ (progress = Completed -> Done (peer h')).
Proof using generate_ok last_ok Inv_running Inv_kept Done_completed.
  clear - generate_ok last_ok Inv_running Inv_kept Done_completed.
  induction fuel as [|fuel IH]; intros st h progress sent h' Hp Hl; [done|]. cbn [handshake_loop] in Hl.
  assert (forall s : handshake_step HandshakeState,
    (forall st' sent1 h1, s = ((Ok st', sent1), h1) -> loop_pre st' h1) ->
    (let '((r, sent), h) := s in
     match r with
     | Ok st => '((progress, more), h) ← handshake_loop rng fuel cfg en st h; Ret ((progress, sent ++ more), h)
     | Err e => Ret ((Failed e, sent), h)
     | Panics why => Ret ((Panicked why, sent), h)
     | NoFuel => OutOfFuel
     end) = Ret ((progress, sent), h') ->
    (progress = Pending -> Inv (current_flight h') (peer h')) /\ (progress = Completed -> Done (peer h'))) as Hstep.
  { intros [[r s1] h1] Hs Hc. destruct r as [st'|e|why|]; [|by injection Hc as <- _ _..|done].
    apply outcome_bind_Ret in Hc as ([[pr more] h2] & Hh & Hc). injection Hc as <- _ <-.
    eapply IH; [|exact Hh]. by eapply Hs. }
  destruct st; cbn [loop_pre] in Hp.
  - by injection Hl as <- _ _.
  - eapply Hstep; [|exact Hl]. intros st' s1 h1 Heq. by eapply prepare_ok.
  - eapply Hstep; [|exact Hl]. intros st' s1 h1 Heq. by eapply send_ok.
  - injection Hl as <- _ <-. by case_match.
  - destruct Hp as [Hd Hr]. unfold running in Hr. rewrite Hr in Hl. injection Hl as <- _ <-. split; [done|]. intros _. by apply Done_completed.
Qed.

Lemma advance_ok en ev h progress sent h' :
  match ev with Start => Pre (current_flight h) (peer h) | _ => Inv (current_flight h) (peer h) end ->
  advance rng cfg en ev h = Ret ((progress, sent), h') ->
  (progress = Pending -> Inv (current_flight h') (peer h')) /\ (progress = Completed -> Done (peer h')).
Proof using parse_ok generate_ok last_ok Inv_running Inv_kept Done_kept Done_completed Pre_kept.
  destruct ev as [|buf|]; intros Hi Ha; cbn [advance] in Ha.
  - by eapply loop_ok; [|exact Ha].
  - apply outcome_bind_Ret in Ha as ([hs c] & Hr & Ha). apply receive_grown in Hr.
    destruct (flush rng (h {{ peer := (peer h) {{ conn := c }} }})) as [alerts h1] eqn:Hf. apply flush_unmoved in Hf.
    assert (Inv (current_flight h1) (peer h1)) as Hi1.
    { rewrite (um_flight _ _ _ Hf). eapply Inv_kept; [exact (unmoved_kept _ _ _ Hf)|].
      eapply (Inv_kept _ _ (peer h)); [|exact Hi]. split; [exact Hr|].
      exists (handshake_send_sequence (state (peer h))). by destruct h as [[? []]]. }
    case_match; [by injection Ha as <- _ _|]. case_match; [by injection Ha as <- _ <-|].
    destruct (wait_message rng cfg en h1) as [[r s1] h2] eqn:Hw.
    destruct r as [st|e|why|]; [|by injection Ha as <- _ _..|done].
    apply outcome_bind_Ret in Ha as ([[pr more] h3] & Hl & Ha). injection Ha as <- _ <-.
    eapply loop_ok; [|exact Hl]. by eapply wait_message_ok.
  - eapply loop_ok; [|exact Ha]. unfold wait_timeout. by case_match.
Qed.

Lemma run_ok h0 progress h :
  Pre (current_flight h0) (peer h0) -> handshake_run cfg h0 progress h ->
  (progress = Pending -> Inv (current_flight h) (peer h)) /\ (progress = Completed -> Done (peer h)).
Proof using parse_ok generate_ok last_ok Inv_running Inv_kept Done_kept Done_completed Pre_kept.
  intros Hp Hr. induction Hr as [en pr sent h Ha|en buf h pr sent h' Hr IH Ha|en h pr sent h' Hr IH Ha].
  - by eapply advance_ok in Ha.
  - eapply advance_ok in Ha; [done|]. by apply IH.
  - eapply advance_ok in Ha; [done|]. by apply IH.
Qed.
End runs.
