(* ===== verification/DtlsAuth.v ===== *)
(** * What a completed DTLS handshake has verified

    A client completes only after the server has signed its key exchange with the key of its
    certificate, and after its Finished has matched the transcript; a server that requires a
    certificate completes only after the client has signed the transcript with the key of
    its certificate.  Both hold in every run, whatever arrives. *)

From stdpp Require Import base list gmap strings.
From Stdlib Require Import ZArith Lia.
From coqutil Require Import Datatypes.RecordSetters.
From S2P Require Import Prelude Utf8 Fallible ReplayDetector DtlsWire DtlsCrypto DtlsRecord DtlsReceiving DtlsFlight DtlsHandshaker DtlsRuns.
Import DoubleBraceUpdate.
Local Open Scope Z_scope.

Section auth.
  Context `{Crypto} `{Pki}.
  Context (cfg : HandshakeConfig) (no_psk : local_psk_callback cfg = None).

Definition unready (p : Peer) : Prop :=
  match cipher_suite (conn p) with Some cs => CipherSuite.is_initialized cs = false | None => True end.

(** ** The client *)

(** What a client that completes knows of the key exchange [h] of the server. *)
Record server_proved (p : Peer) (suite : CipherSuite) (h : HandshakeMessageServerKeyExchange) : Prop := {
  sp_suite : cipher_suite (conn p) = Some suite;
  sp_scheme : valid_signature_scheme cfg (ske_algorithm h) = true;
  sp_signature :
    verify_signature
      (value_key_message (HandshakeRandom.marshal (local_random (state p))) (HandshakeRandom.marshal (remote_random (state p)))
         (ske_public_key h) (ske_named_curve h))
      (ske_algorithm h) (ske_signature h) (peer_certificates (state p)) (insecure_verification cfg) = Ok tt;
  sp_chain :
    insecure_skip_verify cfg = false ->
    exists chains, verify_server_cert (peer_certificates (state p)) (cfg_server_name cfg) = Ok chains;
  sp_callback :
    match verify_peer_certificate cfg with
    | Some callback => exists chains, callback (peer_certificates (state p)) chains = Ok tt
    | None => True
    end;
  sp_keys : exists pre_master transcript kp cs,
    local_keypair (state p) = Some kp
    /\ prf_pre_master_secret (ske_public_key h) (kp_private_key kp) (kp_curve kp) = Ok pre_master
    /\ (if extended_master_secret (state p)
        then prf_extended_master_secret pre_master (sha256 transcript) (CipherSuite.hash_func cs)
        else prf_master_secret pre_master (HandshakeRandom.marshal (local_random (state p)))
               (HandshakeRandom.marshal (remote_random (state p))) (CipherSuite.hash_func cs))
       = Ok (master_secret (state p))
    /\ CipherSuite.init cs (master_secret (state p)) (HandshakeRandom.marshal (local_random (state p)))
         (HandshakeRandom.marshal (remote_random (state p))) true = Ok suite }.

(** The server's Finished among the messages [items]. *)
Definition finished_matches (p : Peer) (suite : CipherSuite) (items : HandshakeCache) : Prop :=
  exists i hs rest verify_data,
    HandshakeCache.find_item items (mkRule HtFinished (initial_epoch cfg + 1) false false) = Some i
    /\ Handshake.unmarshal (ci_data i) = Ok (hs, rest) /\ handshake_message hs = Finished verify_data
    /\ prf_verify_data_server (master_secret (state p)) (HandshakeCache.pull_and_merge items (all_rules (initial_epoch cfg)))
         (CipherSuite.hash_func suite) = Ok verify_data.

(** The key exchange the cache holds, and the secret made from it. *)
Definition exchanged (p : Peer) : Prop :=
  exists cs i hs rest h kp,
    cipher_suite (conn p) = Some cs /\ CipherSuite.is_initialized cs = false
    /\ HandshakeCache.find_item (cache (conn p)) (mkRule HtServerKeyExchange (initial_epoch cfg) false false) = Some i
    /\ Handshake.unmarshal (ci_data i) = Ok (hs, rest) /\ handshake_message hs = ServerKeyExchange h
    /\ local_keypair (state p) = Some kp
    /\ prf_pre_master_secret (ske_public_key h) (kp_private_key kp) (kp_curve kp) = Ok (pre_master_secret (state p)).

Definition client_pre (f : Flight) (p : Peer) : Prop :=
  running p /\ is_client (conn p) = true
  /\ match f with Flight1 | Flight3 => unready p | Flight5 => exchanged p | _ => False end.

Definition client_inv (f : Flight) (p : Peer) : Prop :=
  running p /\ is_client (conn p) = true
  /\ match f with Flight1 | Flight3 => unready p | Flight5 => exists suite h, server_proved p suite h | _ => False end.

Definition client_done (p : Peer) : Prop :=
  exists suite h items, server_proved p suite h /\ items `prefix_of` cache (conn p) /\ finished_matches p suite items.

(** The connection but for the suite. *)
Definition same_conn (p p' : Peer) : Prop :=
  cache (conn p') = cache (conn p) /\ is_client (conn p') = is_client (conn p)
  /\ handshake_completed_successfully (conn p') = handshake_completed_successfully (conn p).

Lemma flight3_extensions_wp extensions p :
  wp (flight3_extensions cfg extensions) (fun _ p' => conn p' = conn p) (fun _ p' => conn p' = conn p) p.
Proof.
  assert (forall p0, conn p0 = conn p ->
    wp (flight3_extensions cfg extensions) (fun _ p' => conn p' = conn p) (fun _ p' => conn p' = conn p) p0) as Hw; [|by apply Hw].
  induction extensions as [|e extensions IH]; intros p0 Hp; cbn [flight3_extensions]; [done|].
  apply wp_bind. destruct e; try (flight; by apply IH). case_match; flight; [|done]. by apply IH.
Qed.

Lemma cipher_suite_for_id_fresh id cs : cipher_suite_for_id id = Ok cs -> CipherSuite.is_initialized cs = false.
Proof. destruct id; cbn; intros; by simplify_eq. Qed.

Lemma flight3_hello_wp h p :
  unready p ->
  wp (flight3_hello cfg h)
    (fun _ p' => same_conn p p' /\ exists cs, cipher_suite (conn p') = Some cs /\ CipherSuite.is_initialized cs = false)
    (fun _ p' => same_conn p p' /\ unready p') p.
Proof.
  intros Hu. assert (forall p', conn p' = conn p -> same_conn p p' /\ unready p') as Hsame.
  { intros p' Hp. unfold same_conn, unready in *. by rewrite Hp. }
  unfold flight3_hello. case_match; [flight; by apply Hsame|].
  apply wp_bind. eapply wp_mono; [apply flight3_extensions_wp| |intros f p' Hp; by apply Hsame].
  intros [] p1 Hp1. flight; try by apply Hsame.
  case_match; [|flight; by apply Hsame]. destruct (cipher_suite_for_id _) as [cs| | |] eqn:Hcs; flight; try by apply Hsame.
  split; [by unfold same_conn; cbn; rewrite Hp1|]. exists cs. split; [done|]. by eapply cipher_suite_for_id_fresh.
Qed.

Lemma same_conn_refl p : same_conn p p.
Proof. done. Qed.

Lemma same_conn_trans p p' p'' : same_conn p p' -> same_conn p' p'' -> same_conn p p''.
Proof. unfold same_conn. intros (? & ? & ?) (? & ? & ?). split_and!; congruence. Qed.

Lemma flight3_messages_wp en seq seq' msgs p :
  HandshakeCache.full_pull_map (cache (conn p)) seq (flight3_rules cfg) = Ok (seq', msgs) -> unready p ->
  wp (flight3_messages cfg en msgs)
    (fun f p' => f = Flight5 /\ same_conn p p' /\ exchanged p') (fun _ p' => same_conn p p' /\ unready p') p.
Proof using no_psk.
  intros Hpull Hu. unfold flight3_rules, uses_psk in Hpull. rewrite no_psk in Hpull.
  pose proof (fun r => full_pull_get _ _ _ _ _ r Hpull ltac:(cbn; apply NoDup_ListNoDup; repeat constructor; cbn; naive_solver)) as Hget.
  pose proof (Hget (mkRule HtServerHello (initial_epoch cfg) false false) ltac:(set_solver)) as Hhello.
  pose proof (Hget (mkRule HtServerKeyExchange (initial_epoch cfg) false false) ltac:(set_solver)) as Hske.
  clear Hget Hpull. destruct (HandshakeCache.find_item _ (mkRule HtServerHello _ _ _)); [|by destruct Hhello].
  destruct (HandshakeCache.find_item _ (mkRule HtServerKeyExchange _ _ _)) as [i|] eqn:Hi; [|by destruct Hske].
  destruct Hhello as (hh & ? & _ & Hhello). destruct Hske as (hs & rest & Hun & Hske). cbn [rule_typ] in *.
  unfold flight3_messages. rewrite Hhello, Hske. apply wp_bind.
  destruct (handshake_message hh); try by flight.
  eapply wp_mono; [by apply flight3_hello_wp| |done]. intros [] p1 ((Hc & Hr & Hf) & cs & Hcs & Hinit).
  assert (forall p', conn p' = conn p1 -> same_conn p p' /\ unready p') as Hsame.
  { intros p' Hp. unfold same_conn, unready. rewrite Hp, Hcs. done. }
  apply wp_bind.
  match goal with |- wp ?m _ _ _ => assert (wp m (fun _ p' => conn p' = conn p1) (fun _ p' => same_conn p p' /\ unready p') p1) as Hw end.
  { case_match; [|by flight]. case_match; flight; by try apply Hsame. }
  eapply wp_mono; [exact Hw| |done]. clear Hw. intros [] p2 Hp2. apply wp_bind.
  destruct (handshake_message hs) as [| | | |ske| | | | |] eqn:Hm; try by flight; apply Hsame.
  unfold handle_server_key_exchange. rewrite no_psk. flight; try by apply Hsame.
  rename a into kp, a0 into secret.
  assert (forall p', conn p' = conn p1 -> local_keypair (state p') = Some kp -> pre_master_secret (state p') = secret ->
          Flight5 = Flight5 /\ same_conn p p' /\ exchanged p') as Hend.
  { intros p' Hp Hk Hs. split; [done|]. split; [by apply Hsame|]. exists cs, i, hs, rest, ske, kp.
    rewrite Hp, Hs, Hc, Hcs. done. }
  case_match; [case_match|]; flight; try (by apply Hsame); apply Hend; by destruct p2.
Qed.

(** What the client's flights keep until the key exchange. *)
Definition waiting (p : Peer) : Prop := running p /\ is_client (conn p) = true /\ unready p.

Lemma waiting_same p p' : waiting p -> same_conn p p' -> unready p' -> waiting p'.
Proof. intros (Hr & Hc & _) (_ & Hc' & Hf) Hu. unfold waiting, running in *. rewrite Hf, Hc'. done. Qed.

Lemma take_cookie_wp seq h p :
  waiting p -> wp (take_cookie seq h) (fun f p' => f = Flight3 /\ waiting p') (fun _ p' => waiting p') p.
Proof. intros Hw. unfold take_cookie. case_match; by flight. Qed.

Lemma flight3_parse_wp en p :
  waiting p -> wp (flight3_parse cfg en) (fun f p' => (f = Flight3 \/ f = Flight5) /\ client_pre f p') (fun _ p' => waiting p') p.
Proof using no_psk.
  intros Hw. unfold flight3_parse. flight.
  set (messages := _ ≫= _). assert (wp messages (fun f p' => (f = Flight3 \/ f = Flight5) /\ client_pre f p') (fun _ p' => waiting p') p) as Hm.
  { unfold messages. flight; [|done]. destruct a as [seq' msgs]. flight.
    eapply wp_mono; [eapply flight3_messages_wp; [eassumption|apply Hw]| |].
    - intros f p' (-> & (Hc & Hr & Hf) & He). destruct Hw as (Hrun & Hrole & _). split; [by right|].
      split; [by unfold running; rewrite Hf|]. by rewrite Hr.
    - intros f p' [Hs Hu]. by eapply waiting_same. }
  destruct (pull_map _ _ _) as [[seq msgs]|e|why|]; try done. case_match; [|done].
  case_match; try by flight. eapply wp_mono; [by apply take_cookie_wp| |done].
  intros f p' [-> (? & ? & ?)]. split; [by left|]. by split.
Qed.

Lemma flight1_parse_wp en p :
  waiting p -> wp (flight1_parse cfg en) (fun f p' => (f = Flight3 \/ f = Flight5) /\ client_pre f p') (fun _ p' => waiting p') p.
Proof using no_psk.
  intros Hw. unfold flight1_parse. flight; [|done]. destruct a as [seq' msgs]. case_match; [by apply flight3_parse_wp|].
  case_match; [|by flight]. case_match; try by flight. eapply wp_mono; [by apply take_cookie_wp| |done].
  intros f p' [-> (? & ? & ?)]. split; [by left|]. by split.
Qed.

(** The part of the state the verified facts are about. *)
Definition same_secrets (s s' : State) : Prop :=
  local_random s' = local_random s /\ remote_random s' = remote_random s /\ peer_certificates s' = peer_certificates s
  /\ local_keypair s' = local_keypair s /\ extended_master_secret s' = extended_master_secret s
  /\ master_secret s' = master_secret s.

Lemma server_proved_same p p' suite h :
  cipher_suite (conn p') = cipher_suite (conn p) -> same_secrets (state p) (state p') ->
  server_proved p suite h -> server_proved p' suite h.
Proof.
  intros Hc (Hl & Hr & Hp & Hk & He & Hm) []. split; rewrite ?Hl, ?Hr, ?Hp, ?Hk, ?He, ?Hm, ?Hc; done.
Qed.

Lemma number_messages_wp seq pkts p :
  wp (number_messages seq pkts) (fun _ p' => p' = p) (fun e p' => e.2 <> None) p.
Proof.
  revert seq. induction pkts as [|q pkts IH]; intros seq; cbn [number_messages]; [done|].
  case_match; try by flight. flight; try done. eapply wp_mono; [apply IH| |done].
  intros [seq' [pkts' merged]] p' ->. by flight.
Qed.

Lemma client_master_secret_wp cs plain p :
  wp (client_master_secret cfg cs plain)
    (fun _ p' => conn p' = conn p /\ exists master, state p' = (state p) {{ master_secret := master }}
       /\ exists transcript,
          (if extended_master_secret (state p)
           then prf_extended_master_secret (pre_master_secret (state p)) (sha256 transcript) (CipherSuite.hash_func cs)
           else prf_master_secret (pre_master_secret (state p)) (HandshakeRandom.marshal (local_random (state p)))
                  (HandshakeRandom.marshal (remote_random (state p))) (CipherSuite.hash_func cs)) = Ok master)
    (fun e p' => e.2 <> None) p.
Proof.
  unfold client_master_secret. flight. destruct (extended_master_secret (state p)) eqn:He; flight; try done.
  all: split; [done|]; eexists; split; [done|].
  - unfold HandshakeCache.session_hash in *. by eexists.
  - by exists [].
Qed.

Lemma verify_server_wp h p :
  wp (verify_server cfg h)
    (fun _ p' => p' = p /\ valid_signature_scheme cfg (ske_algorithm h) = true
       /\ verify_signature
            (value_key_message (HandshakeRandom.marshal (local_random (state p))) (HandshakeRandom.marshal (remote_random (state p)))
               (ske_public_key h) (ske_named_curve h))
            (ske_algorithm h) (ske_signature h) (peer_certificates (state p)) (insecure_verification cfg) = Ok tt
       /\ (insecure_skip_verify cfg = false ->
           exists chains, verify_server_cert (peer_certificates (state p)) (cfg_server_name cfg) = Ok chains)
       /\ match verify_peer_certificate cfg with
          | Some callback => exists chains, callback (peer_certificates (state p)) chains = Ok tt
          | None => True
          end)
    (fun e p' => e.2 <> None) p.
Proof.
  unfold verify_server. destruct (valid_signature_scheme cfg (ske_algorithm h)) eqn:Hs; cbn [negb]; [|by flight].
  flight; [|done]. destruct a. destruct (insecure_skip_verify cfg) eqn:Hi; flight; try done.
  all: case_match; flight; try done; try destruct a; try destruct a0; naive_solver.
Qed.

Lemma initialize_cipher_suite_wp h plain cs kp p :
  cipher_suite (conn p) = Some cs -> CipherSuite.is_initialized cs = false -> local_keypair (state p) = Some kp ->
  prf_pre_master_secret (ske_public_key h) (kp_private_key kp) (kp_curve kp) = Ok (pre_master_secret (state p)) ->
  wp (initialize_cipher_suite cfg h plain)
    (fun _ p' => same_conn p p' /\ exists suite, server_proved p' suite h) (fun e p' => e.2 <> None) p.
Proof using no_psk.
  intros Hcs Hi Hk Hpre. unfold initialize_cipher_suite. flight. rewrite Hcs, Hi. cbv beta iota zeta.
  apply wp_bind. eapply wp_mono; [apply client_master_secret_wp| |done].
  intros [] p1 (Hc1 & master & Hs1 & transcript & Hmaster). apply wp_bind, wp_when; intros Hpsk; [|by unfold uses_psk in Hpsk; rewrite no_psk in Hpsk].
  eapply wp_mono; [apply verify_server_wp| |done]. intros [] p2 (-> & Hscheme & Hsig & Hchain & Hcall).
  flight; [|done]. split; [by unfold same_conn; cbn; rewrite Hc1|]. exists a. split; try done.
  exists (pre_master_secret (state p)), transcript, kp, cs.
  change (state (p1 {{ conn := _ }})) with (state p1). rewrite Hs1 in *. destruct p as [? []]. split_and!; eassumption.
Qed.

Lemma server_key_exchange_wp en i hs rest h p :
  HandshakeCache.find_item (cache (conn p)) (mkRule HtServerKeyExchange (initial_epoch cfg) false false) = Some i ->
  Handshake.unmarshal (ci_data i) = Ok (hs, rest) -> handshake_message hs = ServerKeyExchange h ->
  wp (server_key_exchange cfg en) (fun h' p' => h' = h /\ p' = p) (fun e p' => e.2 <> None) p.
Proof.
  intros Hi Hu Hm. unfold server_key_exchange. flight.
  assert (merge [mkRule HtServerKeyExchange (initial_epoch cfg) false false] p = ci_data i) as ->.
  { unfold merge, HandshakeCache.pull_and_merge, HandshakeCache.pull. cbn [omap list_omap]. rewrite Hi. apply app_nil_r. }
  destruct (ci_data i) as [|b data] eqn:Hd; [done|]. cbn [is_empty]. flight; [|done].
  assert (a = (hs, rest)) as -> by congruence. rewrite Hm. by flight.
Qed.

Lemma certificate_verify_packet_wp en cert seq merged p :
  wp (certificate_verify_packet cfg en cert seq merged)
    (fun _ p' => conn p' = conn p /\ same_secrets (state p) (state p')) (fun e p' => e.2 <> None) p.
Proof.
  unfold certificate_verify_packet. flight; try done.
  match goal with |- wp (match ?x with _ => _ end) _ _ _ => destruct x end; flight; try done.
  all: split; [done|]; by destruct p as [? []].
Qed.

Lemma client_verify_data_wp merged p :
  wp (client_verify_data cfg merged)
    (fun _ p' => conn p' = conn p /\ same_secrets (state p) (state p')) (fun e p' => e.2 <> None) p.
Proof.
  unfold client_verify_data. flight; [|done]. case_match; by flight.
Qed.

Lemma flight5_generate_wp en p :
  client_pre Flight5 p -> wp (flight5_generate cfg en) (fun _ p' => client_inv Flight5 p') (fun e p' => e.2 <> None) p.
Proof using no_psk.
  intros (Hrun & Hrole & cs & i & hs & rest & h & kp & Hcs & Hinit & Hi & Hu & Hm & Hk & Hpre). unfold flight5_generate.
  apply wp_bind. match goal with |- wp ?m _ _ _ => assert (wp m (fun _ p' => p' = p) (fun e p' => e.2 <> None) p) as Hw end.
  { case_match; by flight. }
  eapply wp_mono; [exact Hw| |done]. clear Hw. intros cert p0 ->. flight.
  eapply wp_mono; [by eapply server_key_exchange_wp| |done]. intros h' p0 [-> ->]. apply wp_bind.
  eapply wp_mono; [apply number_messages_wp| |done]. intros [seq [pkts merged]] p0 ->. apply wp_bind.
  eapply wp_mono; [by eapply initialize_cipher_suite_wp| |done]. intros [] p1 ((Hc & Hr & Hf) & suite & Hsp).
  assert (forall p', conn p' = conn p1 -> same_secrets (state p1) (state p') -> client_inv Flight5 p') as Hend.
  { intros p' Hp Hs. unfold client_inv, running. rewrite Hp, Hf, Hr. split_and!; try done. exists suite, h.
    eapply server_proved_same; [by rewrite Hp|exact Hs|done]. }
  apply wp_bind.
  match goal with |- wp ?m _ _ _ =>
    assert (wp m (fun _ p' => conn p' = conn p1 /\ same_secrets (state p1) (state p')) (fun e p' => e.2 <> None) p1) as Hw end.
  { case_match; [|by flight]. apply wp_bind. eapply wp_mono; [apply certificate_verify_packet_wp| |done].
    intros [q raw] p2 Hp2. by flight. }
  eapply wp_mono; [exact Hw| |done]. intros [pkts' merged'] p2 [Hp2 Hs2]. apply wp_bind.
  eapply wp_mono; [apply client_verify_data_wp| |done]. intros [] p3 [Hp3 Hs3]. flight. apply Hend; [congruence|].
  unfold same_secrets in *. naive_solver congruence.
Qed.

Lemma flight5_parse_wp p :
  client_inv Flight5 p -> wp (flight5_parse cfg) (fun f p' => f = Flight5 /\ client_done p' /\ running p') (fun e p' => p' = p) p.
Proof.
  intros (Hrun & Hrole & suite & h & Hsp). unfold flight5_parse. flight; [|done]. rename H1 into Hpull.
  destruct a as [seq' msgs].
  pose proof (full_pull_get _ _ _ _ _ (mkRule HtFinished (initial_epoch cfg + 1) false false) Hpull
    ltac:(cbn; apply NoDup_ListNoDup; repeat constructor; cbn; naive_solver) ltac:(set_solver)) as Hget.
  destruct (HandshakeCache.find_item _ _) as [i|] eqn:Hi; [|by destruct Hget]. destruct Hget as (hs & rest & Hu & Hget).
  cbn [rule_typ] in Hget. rewrite Hget. flight. case_match; try by flight. flight.
  rewrite (sp_suite _ _ _ Hsp). flight; try done. split; [done|]. split; [|done].
  exists suite, h, (cache (conn p)). split; [done|]. split; [done|]. exists i, hs, rest, a. split_and!; try done.
  match goal with Hv : negb (bool_decide _) = false |- _ => apply negb_false_iff, bool_decide_eq_true in Hv; congruence end.
Qed.

Lemma kept_secrets who p p' : kept who p p' -> same_secrets (state p) (state p').
Proof. intros [_ (n & ->)]. by destruct p as [? []]. Qed.

Lemma client_inv_kept who f p p' : kept who p p' -> client_inv f p -> client_inv f p'.
Proof.
  intros Hk (Hr & Hc & Hf). pose proof (kept_secrets _ _ _ Hk) as Hs. destruct (kp_conn _ _ _ Hk) as [Hsuite Hrole Hcomp _].
  split; [by eapply running_kept|]. split; [congruence|]. unfold unready in *. rewrite Hsuite. destruct f; try done.
  destruct Hf as (suite & h & Hsp). exists suite, h. by eapply server_proved_same.
Qed.

Lemma client_pre_kept f p p' : kept (is_client (conn p)) p p' -> client_pre f p -> client_pre f p'.
Proof.
  intros Hk (Hr & Hc & Hf). pose proof (kept_secrets _ _ _ Hk) as (_ & _ & _ & Hkp & _).
  destruct (kp_conn _ _ _ Hk) as [Hsuite Hrole Hcomp (new & Hnew & Hown)]. destruct (kp_state _ _ _ Hk) as [n Hst].
  split; [by eapply running_kept|]. split; [congruence|]. unfold unready, exchanged in *. rewrite Hsuite. destruct f; try done.
  destruct Hf as (cs & i & hs & rest & h & kp & Hcs & Hinit & Hi & Hu & Hm & Hlk & Hpre).
  exists cs, i, hs, rest, h, kp. rewrite Hnew, find_item_other by (by rewrite Hc in Hown). rewrite Hkp. split_and!; try done.
  rewrite Hpre, Hst. by destruct p as [? []].
Qed.

Lemma client_done_same p p' :
  cipher_suite (conn p') = cipher_suite (conn p) -> cache (conn p) `prefix_of` cache (conn p') ->
  same_secrets (state p) (state p') -> client_done p -> client_done p'.
Proof.
  intros Hc Hp Hs (suite & h & items & Hsp & Hi & Hf). exists suite, h, items.
  split; [by eapply server_proved_same|]. split; [by etrans|]. unfold finished_matches in *.
  destruct Hs as (_ & _ & _ & _ & _ & ->). done.
Qed.

Lemma client_runs rng h0 h :
  client_pre (current_flight h0) (peer h0) -> handshake_run rng cfg h0 Completed h -> client_done (peer h).
Proof using no_psk.
  intros Hpre Hrun. eapply (run_ok rng cfg client_pre client_inv client_done) in Hrun as [_ Hd]; try done; [by apply Hd| | | | | | | |].
  - intros en f p Hi. destruct f; cbn [parse]; try by destruct Hi as (_ & _ & []).
    + eapply wp_mono; [by apply flight1_parse_wp| |done]. by intros f' p' [[-> | ->] Hp].
    + eapply wp_mono; [by apply flight3_parse_wp| |done]. by intros f' p' [[-> | ->] Hp].
    + eapply wp_mono; [by apply flight5_parse_wp| |by intros e p' ->]. by intros f' p' (-> & Hdone).
  - intros en f p Hp. destruct f; cbn [generate]; try by destruct Hp as (_ & _ & []).
    + unfold flight1_generate. flight. by destruct Hp.
    + unfold flight3_generate. flight. by destruct Hp.
    + by apply flight5_generate_wp.
  - intros [] p (_ & _ & Hf); done.
  - by intros f p [].
  - by intros who f p p'; apply client_inv_kept.
  - intros who p p' Hk. destruct (kp_conn _ _ _ Hk) as [? ? ? (new & Hnew & _)].
    apply client_done_same; [done|rewrite Hnew; by apply prefix_app_r|by eapply kept_secrets].
  - intros h'. by apply client_done_same.
  - by apply client_pre_kept.
Qed.
End auth.

(** ** The server *)

Section server.
  Context `{Crypto} `{Pki} (cfg : HandshakeConfig).

(** What a server knows of the client's certificate, from the messages [items]. *)
Record client_proved (p : Peer) (items : HandshakeCache) (h : HandshakeMessageCertificateVerify) : Prop := {
  cp_scheme : valid_signature_scheme cfg (cv_algorithm h) = true;
  cp_message : exists i hs rest,
    HandshakeCache.find_item items (mkRule HtCertificateVerify (initial_epoch cfg) true true) = Some i
    /\ Handshake.unmarshal (ci_data i) = Ok (hs, rest) /\ handshake_message hs = CertificateVerify h;
  cp_signature :
    verify_signature (HandshakeCache.pull_and_merge items (hello_rules (initial_epoch cfg))) (cv_algorithm h) (cv_signature h)
      (peer_certificates (state p)) (insecure_verification cfg) = Ok tt;
  cp_chain :
    client_auth_as_u8 VerifyClientCertIfGiven <= client_auth_as_u8 (client_auth cfg) ->
    exists chains, verify_client_cert (peer_certificates (state p)) = Ok chains;
  cp_callback :
    match verify_peer_certificate cfg with
    | Some callback => exists chains, callback (peer_certificates (state p)) chains = Ok tt
    | None => True
    end }.

(** The keys in use are those of the master secret. *)
Definition keyed (p : Peer) : Prop :=
  match cipher_suite (conn p) with
  | Some suite =>
      CipherSuite.is_initialized suite = true ->
      exists cs, CipherSuite.init cs (master_secret (state p)) (HandshakeRandom.marshal (remote_random (state p)))
                   (HandshakeRandom.marshal (local_random (state p))) false = Ok suite
  | None => True
  end.

Definition serving (p : Peer) : Prop := running p /\ is_client (conn p) = false /\ keyed p.

Definition requires_certificate : Prop := client_auth cfg = RequireAnyClientCert \/ client_auth cfg = RequireAndVerifyClientCert.

Definition server_done (p : Peer) : Prop :=
  keyed p /\ (requires_certificate ->
    peer_certificates (state p) <> []
    /\ exists items h, items `prefix_of` cache (conn p) /\ client_proved p items h).

Definition server_inv (f : Flight) (p : Peer) : Prop :=
  serving p /\ match f with Flight0 | Flight2 => unready p | Flight4 => True | Flight6 => server_done p | _ => False end.

Lemma flight0_extensions_wp extensions p :
  wp (flight0_extensions cfg extensions) (fun _ p' => conn p' = conn p) (fun _ p' => conn p' = conn p) p.
Proof.
  assert (forall p0, conn p0 = conn p ->
    wp (flight0_extensions cfg extensions) (fun _ p' => conn p' = conn p) (fun _ p' => conn p' = conn p) p0) as Hw; [|by apply Hw].
  induction extensions as [|e extensions IH]; intros p0 Hp; cbn [flight0_extensions]; [done|].
  apply wp_bind. destruct e; try (flight; by apply IH).
  - case_match; [by flight|]. case_match; flight; by apply IH.
  - case_match; flight; [|done]. by apply IH.
Qed.

Lemma unready_keyed p : unready p -> keyed p.
Proof. unfold unready, keyed. by destruct (cipher_suite (conn p)) as [cs|]; [intros ->|]. Qed.

Definition fresh (p : Peer) : Prop := running p /\ is_client (conn p) = false /\ unready p.

Lemma fresh_same p p' : conn p' = conn p -> fresh p -> fresh p'.
Proof. intros Hp. unfold fresh, running, unready. by rewrite Hp. Qed.

Lemma flight0_hello_wp en h p : fresh p -> wp (flight0_hello cfg en h) (fun f p' => f = Flight2 /\ fresh p') (fun _ p' => fresh p') p.
Proof.
  intros Hf. unfold flight0_hello. case_match; [by flight|]. flight.
  match goal with |- wp ?m _ _ ?q => assert (wp m (fun _ p' => fresh p') (fun _ p' => fresh p') q) as Hw end.
  { case_match; [|by flight]. destruct (cipher_suite_for_id _) eqn:Hcs; try by flight. flight.
    destruct Hf as (? & ? & _). split; [done|]. split; [done|]. by eapply cipher_suite_for_id_fresh. }
  eapply wp_mono; [exact Hw| |done]. intros [] p1 Hp1. apply wp_bind.
  eapply wp_mono; [apply flight0_extensions_wp| |intros f p' Hp; by apply (fresh_same p1)]. intros [] p2 Hp2.
  assert (forall p', conn p' = conn p2 -> fresh p') as Hend by (intros p' Hp'; eapply fresh_same; [|exact Hp1]; congruence).
  flight; try by apply Hend.
  destruct (local_keypair (state p2)); flight; try split; try done; by apply Hend.
Qed.

Lemma flight0_parse_wp en p : fresh p -> wp (flight0_parse cfg en) (fun f p' => f = Flight2 /\ fresh p') (fun _ p' => fresh p') p.
Proof.
  intros Hf. unfold flight0_parse. flight; [|done]. destruct a as [seq msgs]. flight. case_match; [|by flight].
  case_match; try by flight. by apply flight0_hello_wp.
Qed.

Lemma flight2_parse_wp en p :
  fresh p -> wp (flight2_parse cfg en) (fun f p' => (f = Flight2 \/ f = Flight4) /\ fresh p') (fun _ p' => fresh p') p.
Proof.
  intros Hf. unfold flight2_parse. flight. destruct (pull_map _ _ _) as [[seq msgs]|e|why|]; try done.
  - flight. case_match; [|by flight]. case_match; try by flight. flight. case_match; [by flight|]. case_match; [by flight|].
    case_match; [by flight|]. flight. by split; [right|].
  - eapply wp_mono; [by apply flight0_parse_wp| |done]. intros f p' [-> ?]. by split; [left|].
Qed.

Lemma flight4_certificate_verify_wp h p :
  wp (flight4_certificate_verify cfg h)
    (fun _ p' => (exists b, p' = p {{ state := (state p) {{ peer_certificates_verified := b }} }})
       /\ forall i hs rest,
            HandshakeCache.find_item (cache (conn p)) (mkRule HtCertificateVerify (initial_epoch cfg) true true) = Some i ->
            Handshake.unmarshal (ci_data i) = Ok (hs, rest) -> handshake_message hs = CertificateVerify h ->
            client_proved p (cache (conn p)) h)
    (fun e p' => e.2 <> None) p.
Proof.
  unfold flight4_certificate_verify. flight. case_match; [by flight|]. flight.
  destruct (valid_signature_scheme cfg (cv_algorithm h)) eqn:Hs; cbn [negb]; [|by flight]. flight; [|done].
  rename H2 into Hsig. destruct a.
  assert (forall chains, (client_auth_as_u8 VerifyClientCertIfGiven <= client_auth_as_u8 (client_auth cfg) ->
            verify_client_cert (peer_certificates (state p)) = Ok chains) ->
    wp (_ ← match verify_peer_certificate cfg with
            | Some callback => or_fail BadCertificate (callback (peer_certificates (state p)) chains)
            | None => mret tt
            end;
        update (fun s => s {{ peer_certificates_verified :=
                  client_auth_as_u8 VerifyClientCertIfGiven <=? client_auth_as_u8 (client_auth cfg) }}))
    (fun _ p' => (exists b, p' = p {{ state := (state p) {{ peer_certificates_verified := b }} }})
       /\ forall i hs rest,
            HandshakeCache.find_item (cache (conn p)) (mkRule HtCertificateVerify (initial_epoch cfg) true true) = Some i ->
            Handshake.unmarshal (ci_data i) = Ok (hs, rest) -> handshake_message hs = CertificateVerify h ->
            client_proved p (cache (conn p)) h) (fun e p' => e.2 <> None) p) as Hrest.
  { intros chains Hchains. apply wp_bind.
    match goal with |- wp ?m _ _ _ => assert (wp m (fun _ p' => p' = p /\ match verify_peer_certificate cfg with
      | Some callback => exists chains, callback (peer_certificates (state p)) chains = Ok tt
      | None => True end) (fun e p' => e.2 <> None) p) as Hw end.
    { destruct (verify_peer_certificate cfg); flight; try done. destruct a. split; [done|]. by exists chains. }
    eapply wp_mono; [exact Hw| |done]. intros [] p' [-> Hcb]. flight. split; [by eexists|]. intros i hs rest Hi Hu Hm.
    split; try done; [by exists i, hs, rest|]. intros Hle. exists chains. by apply Hchains. }
  destruct (Z.leb_spec (client_auth_as_u8 VerifyClientCertIfGiven) (client_auth_as_u8 (client_auth cfg))) as [Hle|Hlt].
  - destruct (client_cert_verifier cfg); [|by flight].
    apply wp_or_fail; [|done]. intros chains Hchains. by apply Hrest.
  - apply wp_ret, Hrest. lia.
Qed.

Lemma flight4_master_secret_wp cs h p :
  serving p -> cipher_suite (conn p) = Some cs ->
  wp (flight4_master_secret cfg cs h)
    (fun _ p' => serving p' /\ same_conn p p' /\ peer_certificates (state p') = peer_certificates (state p))
    (fun e p' => e.2 <> None) p.
Proof.
  intros (Hr & Hc & _) Hcs. unfold flight4_master_secret. flight.
  match goal with |- wp ?m _ _ _ =>
    assert (wp m (fun _ p' => exists hint, p' = p {{ state := (state p) {{ identity_hint := hint }} }}) (fun e p' => e.2 <> None) p) as Hw end.
  { destruct (local_psk_callback cfg); [flight; [by eexists|done]|].
    destruct (local_keypair (state p)); flight; try done; exists (identity_hint (state p)); by destruct p as [? []]. }
  eapply wp_mono; [exact Hw| |done]. intros secret p1 [hint ->]. flight; try done.
  split; [|by destruct p as [? []]]. split; [done|]. split; [done|]. exists cs. by destruct p as [? []].
Qed.

Definition proved_by (p : Peer) : Prop :=
  peer_certificates (state p) = [] \/ exists h, client_proved p (cache (conn p)) h.

Lemma serving_same p p' :
  conn p' = conn p -> master_secret (state p') = master_secret (state p) -> local_random (state p') = local_random (state p) ->
  remote_random (state p') = remote_random (state p) -> serving p -> serving p'.
Proof. unfold serving, running, keyed. intros -> -> -> ->. done. Qed.

Lemma client_proved_same p p' items h :
  peer_certificates (state p') = peer_certificates (state p) -> client_proved p items h -> client_proved p' items h.
Proof. intros Hp []. split; rewrite ?Hp; done. Qed.

Lemma flight4_parameters_wp p :
  serving p -> wp (flight4_parameters cfg) (fun _ p' => serving p' /\ proved_by p') (fun e p' => e.2 = None -> serving p') p.
Proof.
  intros Hs. unfold flight4_parameters. flight; [|done]. rename H1 into Hpull. destruct a as [seq msgs].
  pose proof (full_pull_get _ _ _ _ _ (mkRule HtCertificateVerify (initial_epoch cfg) true true) Hpull
    ltac:(cbn; apply NoDup_ListNoDup; repeat constructor; cbn; naive_solver) ltac:(set_solver)) as Hget.
  cbn [rule_typ] in Hget. flight.
  match goal with |- wp ?m _ _ _ => assert (wp m (fun _ p' => p' = p) (fun e p' => p' = p) p) as Hw end.
  { destruct (HandshakeCache.get HtClientKeyExchange msgs) as [[]|]; by flight. }
  eapply wp_mono; [exact Hw| |by intros f p' ->]. clear Hw. intros cke p0 ->. apply wp_bind.
  match goal with |- wp ?m _ _ _ =>
    assert (wp m (fun _ p' => exists certs, p' = p {{ state := (state p) {{ peer_certificates := certs }} }}) (fun e p' => p' = p) p) as Hw end.
  { destruct (HandshakeCache.get HtCertificate msgs) as [[]|]; flight; try done; [by eexists|]. exists (peer_certificates (state p)). by destruct p as [? []]. }
  eapply wp_mono; [exact Hw| |by intros f p' ->]. clear Hw. intros [] p1 [certs Hp1].
  assert (serving p1) as Hs1 by (subst p1; revert Hs; apply serving_same; by destruct p as [? []]).
  assert (conn p1 = conn p) as Hc1 by (by subst p1). clear Hp1. apply wp_bind.
  match goal with |- wp ?m _ _ _ =>
    assert (wp m (fun _ p' => serving p' /\ proved_by p') (fun e p' => e.2 = None -> serving p') p1) as Hw end.
  { destruct (HandshakeCache.find_item (cache (conn p)) _) as [i|] eqn:Hi.
    - destruct Hget as (hs & rest & Hu & ->). destruct (handshake_message hs) as [| | | | | | |h| |] eqn:Hm; try by flight.
      eapply wp_mono; [apply flight4_certificate_verify_wp| |by intros e p' ?]. rewrite Hc1.
      intros [] p2 [[b ->] Hproved]. specialize (Hproved i hs rest Hi Hu Hm). split.
      + revert Hs1. apply serving_same; by destruct p1 as [? []].
      + right. exists h. rewrite <-Hc1 in Hproved. by eapply client_proved_same; [|exact Hproved]; destruct p1 as [? []].
    - destruct Hget as [_ ->]. flight; [done|]. split; [done|]. left.
      match goal with Hv : negb _ = false |- _ => apply negb_false_iff in Hv end. by destruct (peer_certificates (state p1)). }
  eapply wp_mono; [exact Hw| |done]. clear Hw. intros [] p2 [Hs2 Hp2]. flight.
  destruct (cipher_suite (conn p2)) as [cs|] eqn:Hcs; [|by flight]. flight; [|done].
  eapply wp_mono; [by apply flight4_master_secret_wp| |by intros e p' ?].
  intros [] p3 (Hs3 & (Hcache & _) & Hcerts). flight. split; [done|]. destruct Hp2 as [Hnil|[h Hh]].
  - left. congruence.
  - right. exists h. rewrite Hcache. by eapply client_proved_same.
Qed.

Lemma handle_queue_wp p :
  wp handle_queue (fun _ p' => state p' = state p /\ grown (negb (is_client (conn p))) (conn p) (conn p')) (fun e p' => e.2 <> None) p.
Proof.
  unfold wp, handle_queue. destruct (reading (conn p)); [|done].
  destruct (receive_queued (conn p)) as [c| |] eqn:Hr; try done. split; [done|]. by eapply receive_queued_grown.
Qed.

Definition proven (p : Peer) : Prop :=
  peer_certificates (state p) = [] \/ exists items h, items `prefix_of` cache (conn p) /\ client_proved p items h.

Lemma proven_same p p' :
  peer_certificates (state p') = peer_certificates (state p) -> cache (conn p) `prefix_of` cache (conn p') -> proven p -> proven p'.
Proof.
  intros Hp Hc [Hnil|(items & h & Hi & Hh)]; [left; congruence|right]. exists items, h.
  split; [by etrans|by eapply client_proved_same].
Qed.

Lemma flight4_client_auth_wp p :
  serving p -> proven p ->
  wp (flight4_client_auth cfg) (fun f p' => f = Flight6 /\ serving p' /\ server_done p') (fun e p' => e.2 <> None) p.
Proof.
  intros Hs Hp. unfold flight4_client_auth. flight.
  assert (peer_certificates (state p) <> [] -> server_done p) as Hdone.
  { intros Hne. split; [apply Hs|]. intros _. split; [done|]. by destruct Hp. }
  assert (~ requires_certificate -> server_done p) as Hfree by (intros Hn; split; [apply Hs|]; by intros ?%Hn).
  unfold requires_certificate in *. destruct (client_auth cfg) eqn:Ha.
  all: repeat case_match; flight; try done; split_and!; try done; try (apply Hfree; naive_solver).
  all: apply Hdone; by destruct (peer_certificates (state p)).
Qed.

Lemma flight4_parse_wp p :
  serving p -> wp (flight4_parse cfg) (fun f p' => f = Flight6 /\ serving p' /\ server_done p') (fun e p' => e.2 = None -> serving p') p.
Proof.
  intros Hs. unfold flight4_parse. apply wp_bind. eapply wp_mono; [by apply flight4_parameters_wp| |done].
  intros seq p1 [Hs1 Hp1]. apply wp_bind. eapply wp_mono; [apply handle_queue_wp| |by intros e p' ?].
  intros [] p2 [Hst [Hsuite Hrole Hf (new & Hnew & _)]].
  assert (serving p2) as Hs2.
  { destruct Hs1 as (Hr & Hc & Hk). unfold serving, running, keyed in *. by rewrite Hst, Hsuite, Hrole, Hf. }
  assert (proven p2) as Hp2.
  { apply (proven_same p1); [by rewrite Hst|rewrite Hnew; by apply prefix_app_r|].
    destruct Hp1 as [?|[h Hh]]; [by left|right]. by exists (cache (conn p1)), h. }
  unfold flight4_finished. flight; [|done]. destruct a as [seq' msgs]. flight.
  case_match; [|by flight]. case_match; try by flight.
  eapply wp_mono; [apply flight4_client_auth_wp|done|by intros e p' ?].
  - revert Hs2. by apply serving_same; destruct p2 as [? []].
  - revert Hp2. by apply proven_same; destruct p2 as [? []].
Qed.

Lemma server_done_same p p' :
  cipher_suite (conn p') = cipher_suite (conn p) -> cache (conn p) `prefix_of` cache (conn p') ->
  same_secrets (state p) (state p') -> server_done p -> server_done p'.
Proof.
  intros Hc Hp (Hl & Hr & Hcerts & _ & _ & Hm) [Hk Hd]. split; [unfold keyed in *; by rewrite Hc, Hm, Hl, Hr|].
  intros Hreq. destruct (Hd Hreq) as (Hne & items & h & Hi & Hh). rewrite Hcerts. split; [done|]. exists items, h.
  split; [by etrans|by eapply client_proved_same].
Qed.

Lemma server_inv_kept who f p p' : kept who p p' -> server_inv f p -> server_inv f p'.
Proof.
  intros Hk ((Hr & Hc & Hkey) & Hf). pose proof (kept_secrets _ _ _ Hk) as Hs.
  destruct (kp_conn _ _ _ Hk) as [Hsuite Hrole Hcomp (new & Hnew & _)].
  assert (serving p') as Hs'.
  { split; [by eapply running_kept|]. split; [congruence|]. destruct Hs as (Hl & Hrr & _ & _ & _ & Hm).
    unfold keyed in *. by rewrite Hsuite, Hm, Hl, Hrr. }
  split; [done|]. unfold unready in *. rewrite Hsuite. destruct f; try done.
  eapply server_done_same; [exact Hsuite|rewrite Hnew; by apply prefix_app_r|done..].
Qed.

Lemma fresh_inv f p : f = Flight0 \/ f = Flight2 \/ f = Flight4 -> fresh p -> server_inv f p.
Proof.
  intros Hf (Hr & Hc & Hu). split; [split; [done|split; [done|by apply unready_keyed]]|]. by destruct Hf as [->|[->| ->]].
Qed.

Lemma inv_fresh f p : f = Flight0 \/ f = Flight2 -> server_inv f p -> fresh p.
Proof. intros Hf [(Hr & Hc & Hk) Hu]. split; [done|]. split; [done|]. by destruct Hf as [->| ->]. Qed.

Lemma flight4_generate_wp en p :
  serving p -> wp (flight4_generate cfg en) (fun _ p' => serving p') (fun e p' => e.2 <> None) p.
Proof.
  intros Hs. unfold flight4_generate. flight.
  match goal with |- wp ?m _ _ _ => assert (wp m (fun _ p' => serving p') (fun e p' => e.2 <> None) p) as Hw end.
  { case_match; [by flight|]. flight; try done.
    match goal with |- wp ?m _ _ _ => assert (wp m (fun _ p' => serving p') (fun e p' => e.2 <> None) p) as Hw end.
    { case_match; [|by flight]. flight; [|done]. revert Hs. by apply serving_same; destruct p as [? []]. }
    eapply wp_mono; [exact Hw| |done]. intros pkts p' Hp'. by flight. }
  eapply wp_mono; [exact Hw| |done]. intros pkts p' Hp'. by flight.
Qed.

Lemma flight6_generate_wp p :
  server_inv Flight6 p -> wp (flight6_generate cfg) (fun _ p' => server_inv Flight6 p') (fun e p' => e.2 <> None) p.
Proof.
  intros Hi. unfold flight6_generate. flight; [|done]. case_match; flight; try done.
  destruct Hi as [Hs Hd]. split; [revert Hs; by apply serving_same; destruct p as [? []]|].
  revert Hd. by apply server_done_same; destruct p as [? []].
Qed.

Lemma server_runs rng h0 h :
  server_inv (current_flight h0) (peer h0) -> handshake_run rng cfg h0 Completed h -> server_done (peer h).
Proof.
  intros Hpre Hrun.
  eapply (run_ok rng cfg server_inv server_inv server_done) in Hrun as [_ Hd]; try done; [by apply Hd| | | | | | | |].
  - intros en f p Hi. destruct f; cbn [parse]; try by destruct Hi.
    + eapply wp_mono; [apply flight0_parse_wp; eapply inv_fresh; [|exact Hi]; by left| |].
      * intros f' p' [-> Hf]. apply fresh_inv; naive_solver.
      * intros e p' Hf _. apply fresh_inv; naive_solver.
    + eapply wp_mono; [apply flight2_parse_wp; eapply inv_fresh; [|exact Hi]; by right| |].
      * intros f' p' [[-> | ->] Hf]; apply fresh_inv; naive_solver.
      * intros e p' Hf _. apply fresh_inv; naive_solver.
    + eapply wp_mono; [apply flight4_parse_wp, Hi| |]; [by intros f' p' (-> & ? & ?)|]. intros e p' Hs He. split; [by apply Hs|done].
    + unfold flight6_parse. flight; [|done]. destruct a as [seq msgs]. case_match; [|by flight]. case_match; by flight.
  - intros en f p Hp. destruct f; cbn [generate]; try by destruct Hp.
    + unfold flight0_generate. flight. apply fresh_inv; [naive_solver|]. by apply inv_fresh in Hp; [|by left].
    + eapply wp_mono; [apply flight4_generate_wp, Hp| |done]. by intros pkts p' ?.
    + by apply flight6_generate_wp.
  - intros [] p [_ Hf]; done.
  - by intros f p [[]].
  - by intros who f p p'; apply server_inv_kept.
  - intros who p p' Hk. destruct (kp_conn _ _ _ Hk) as [? ? ? (new & Hnew & _)].
    apply server_done_same; [done|rewrite Hnew; by apply prefix_app_r|by eapply kept_secrets].
  - intros h'. by apply server_done_same.
  - intros f p p'. by apply server_inv_kept.
Qed.
End server.

(** ** The theorems *)


(** C7: whatever arrives, a server that requires a certificate completes the handshake
    only when the client has sent one and signed the messages up to its key exchange with
    the certificate's key; and, when the certificate has to be verified, only when the
    verifier has accepted its chain.  The keys in use are those of the master secret. *)
Theorem server_authenticates_client `{Crypto} `{Pki} rng config remote_ip cfg h0 h :
  new false config remote_ip = Ok (cfg, h0) ->
  config_client_auth config = RequireAnyClientCert \/ config_client_auth config = RequireAndVerifyClientCert ->
  handshake_run rng cfg h0 Completed h ->
  peer_certificates (state (peer h)) <> [] /\ keyed (peer h)
  /\ exists items cv, items `prefix_of` cache (conn (peer h)) /\ client_proved cfg (peer h) items cv.
Proof.
  intros Hnew Hauth Hrun. apply bind_Ok_inv in Hnew as ([] & _ & Hnew). apply bind_Ok_inv in Hnew as (suites & _ & Hnew).
  apply bind_Ok_inv in Hnew as (schemes & _ & Hnew). injection Hnew as Hcfg Hh.
  destruct (server_runs cfg rng h0 h) as [Hk Hd]; [by rewrite <-Hh|done|].
  destruct Hd as [Hne Hp]; [unfold requires_certificate; by rewrite <-Hcfg|]. done.
Qed.

(** ** A handshake that completes *)

Section exec.
  Context `{Crypto} `{Pki} (rng : Z -> Z -> bytes).

Fixpoint exec (cfg : HandshakeConfig) (evs : list (Entropy * event)) (h : Handshaker) : outcome (Progress * Handshaker) :=
  match evs with
  | [] => Ret (Pending, h)
  | (en, ev) :: evs =>
      '((progress, _), h) ← advance rng cfg en ev h;
      match progress with Pending => exec cfg evs h | _ => Ret (progress, h) end
  end.

Lemma exec_run cfg h0 evs progress h :
  exec cfg evs h = Ret (progress, h0) -> Forall (fun e => e.2 <> Start) evs ->
  forall h1, handshake_run rng cfg h1 Pending h -> handshake_run rng cfg h1 progress h0.
Proof.
  revert h. induction evs as [|[en ev] evs IH]; intros h He Hf h1 Hr; cbn [exec] in He; [by injection He as <- <-|].
  apply Forall_cons in Hf as [Hev Hf]. apply outcome_bind_Ret in He as ([[pr sent] h2] & Ha & He).
  assert (handshake_run rng cfg h1 pr h2) as Hr2 by (destruct ev; [done|by eapply run_datagram|by eapply run_timeout]).
  destruct pr; [by eapply IH|by injection He as <- <-..].
Qed.

Lemma exec_start cfg en evs h progress h0 :
  exec cfg ((en, Start) :: evs) h = Ret (progress, h0) -> Forall (fun e => e.2 <> Start) evs -> handshake_run rng cfg h progress h0.
Proof.
  intros He Hf. cbn [exec] in He. apply outcome_bind_Ret in He as ([[pr sent] h2] & Ha & He).
  pose proof (run_start rng cfg h en pr sent h2 Ha) as Hr.
  destruct pr; [by eapply exec_run|by injection He as <- <-..].
Qed.

(** The datagrams of one side become events of the other, in turns. *)
Fixpoint deliver (cfg : HandshakeConfig) (en : Entropy) (h : Handshaker) (datagrams : list bytes) : outcome (list bytes * Handshaker) :=
  match datagrams with
  | [] => Ret ([], h)
  | d :: datagrams =>
      '((_, sent), h) ← advance rng cfg en (Datagram d) h;
      '(more, h) ← deliver cfg en h datagrams;
      Ret (sent ++ more, h)
  end.

Fixpoint turns (n : nat) (cfg cfg' : HandshakeConfig) (en en' : Entropy) (h h' : Handshaker) (datagrams : list bytes)
    : outcome (list bytes * list bytes) :=
  match n with
  | O => Ret ([], [])
  | S n =>
      '(sent, h) ← deliver cfg en h datagrams;
      '(theirs, ours) ← turns n cfg' cfg en' en h' h sent;
      Ret (datagrams ++ ours, theirs)
  end.
End exec.

(** Keys that are their own public keys, and signatures that are the keys. *)
Definition plain_pki : Pki := {|
  ec_public_key _ b := Ok b;
  ec_public_of _ s := s;
  diffie_hellman _ a b := zip_with Z.lxor a b;
  sign _ der _ msg := Some der;
  subject_public_key c := Some c;
  verifies _ k _ s := bool_decide (k = s);
  valid_server_name _ := true;
  valid_server_cert _ _ _ := true;
  valid_client_cert _ _ := true;
  to_lowercase s := s |}.

Definition sample_config (k : Z) : Config :=
  mkConfig [mkCertificate [[k; k; k]] (mkCryptoPrivateKey KindEcdsa256 [k; k; k])] [] [] [Srtp_Aes128_Cm_Hmac_Sha1_80]
    RequireAnyClientCert Request None None true false false None String.EmptyString 0 0.

Definition sample_entropy (k : Z) : Entropy :=
  mkEntropy (replicate COOKIE_LENGTH k) (mkHandshakeRandom 1000000000 (replicate 28 k)) (replicate 32 k) (replicate 32 k).

Definition sample_rng (_ _ : Z) : bytes := replicate 16 5.

#[local] Existing Instance plain_crypto.
#[local] Existing Instance plain_pki.

Definition sample_start (is_client : bool) : HandshakeConfig * Handshaker :=
  match new is_client (sample_config (if is_client then 1 else 2)) None with
  | Ok start => start
  | _ => (mkHandshakeConfig None None [] [] Request [] String.EmptyString NoClientCert [] ∅ false false None false 0,
          mkHandshaker (mkPeer (new_conn is_client (sample_config 0)) default_state) Flight0 None false)
  end.

(** What the client and what the server receive. *)
Definition sample_datagrams : list bytes * list bytes :=
  let '(ccfg, c) := sample_start true in
  let '(scfg, s) := sample_start false in
  match (r ← advance sample_rng ccfg (sample_entropy 1) Start c;
         r' ← advance sample_rng scfg (sample_entropy 2) Start s;
         turns sample_rng 7 scfg ccfg (sample_entropy 2) (sample_entropy 1) r'.2 r.2 r.1.2) with
  | Ret (to_server, to_client) => (to_client, to_server)
  | _ => ([], [])
  end.

Definition sample_events (is_client : bool) : list (Entropy * event) :=
  let en := sample_entropy (if is_client then 1 else 2) in
  (en, Start) :: map (fun d => (en, Datagram d)) (if is_client then sample_datagrams.1 else sample_datagrams.2).

Definition sample_end (is_client : bool) : Handshaker :=
  match exec sample_rng (sample_start is_client).1 (sample_events is_client) (sample_start is_client).2 with
  | Ret (_, h) => h
  | _ => (sample_start is_client).2
  end.

Lemma sample_run is_client :
  handshake_run sample_rng (sample_start is_client).1 (sample_start is_client).2 Completed (sample_end is_client).
Proof.
  apply exec_start with (sample_entropy (if is_client then 1 else 2))
    (map (fun d => (sample_entropy (if is_client then 1 else 2), Datagram d)) (if is_client then sample_datagrams.1 else sample_datagrams.2));
    [by destruct is_client; vm_compute|]. apply Forall_fmap, Forall_true. by intros d.
Qed.


Lemma server_authenticates_client_witness :
  peer_certificates (state (peer (sample_end false))) <> [] /\ keyed (peer (sample_end false))
  /\ exists items cv, items `prefix_of` cache (conn (peer (sample_end false)))
       /\ client_proved (sample_start false).1 (peer (sample_end false)) items cv.
Proof.
  apply (server_authenticates_client sample_rng (sample_config 2) None (sample_start false).1 (sample_start false).2);
    [by vm_compute|by left|apply sample_run].
Defined.
