(* ===== verification/PacketBuffer.v ===== *)
(** * The packet buffer (vendored/webrtc-util/src/buffer/mod.rs)

    A ring of bytes that holds packets with their lengths, grows up to a limit and is read
    packet by packet: what the ICE agent and the multiplexer put received datagrams into.
    It is a bounded queue of packets.  Waiting for a packet uses [tokio::sync::Notify]; the
    interleavings of readers, writers and [close] are a step relation. *)

From stdpp Require Import base list relations.
From Stdlib Require Import ZArith Lia.
From coqutil Require Import Datatypes.RecordSetters.
From S2P Require Import Prelude.
Import DoubleBraceUpdate.
Local Open Scope nat_scope.
Local Open Scope list_scope.

Inductive BufferError := ErrBufferFull | ErrPacketTooBig | ErrBufferClosed | ErrBufferShort.

Record BufferInternal := mkBufferInternal {
  data : bytes;
  head : nat;
  tail : nat;
  closed : bool;
  subs : bool;
  count : nat;
  limit_count : nat;
  limit_size : nat }.

Module Buffer.
Definition KB : nat := 1024.
Definition MIN_SIZE : nat := 2 * KB.
Definition CUTOFF_SIZE : nat := 128 * KB.
Definition MAX_SIZE : nat := 4 * KB * KB.
Definition TOO_BIG : nat := 64 * KB.
#[global] Arguments MIN_SIZE : simpl never.
#[global] Arguments CUTOFF_SIZE : simpl never.
#[global] Arguments MAX_SIZE : simpl never.
#[global] Arguments TOO_BIG : simpl never.

Definition new (limit_count limit_size : nat) : BufferInternal :=
  mkBufferInternal [] 0 0 false false 0 limit_count limit_size.

(** [isize] arithmetic: what is free between tail and head. *)
Definition available (size : nat) (b : BufferInternal) : bool :=
  let free := (Z.of_nat (head b) - Z.of_nat (tail b))%Z in
  let free := if (free <=? 0)%Z then (free + Z.of_nat (length (data b)))%Z else free in
  (Z.of_nat size + 2 <? free)%Z.

Definition size (b : BufferInternal) : nat :=
  let n := (Z.of_nat (tail b) - Z.of_nat (head b))%Z in
  Z.to_nat (if (n <? 0)%Z then (n + Z.of_nat (length (data b)))%Z else n).

(** [data[i] = v] *)
Definition store (i : nat) (v : Z) (l : bytes) : outcome bytes :=
  if i <? length l then Ret (<[i := v]> l) else Panic IndexOutOfBounds.

(** [data[from..to].copy_from_slice(src)] *)
Definition copy_into (l : bytes) (from to : nat) (src : bytes) : outcome bytes :=
  if (from <=? to) && (to <=? length l) && (length src =? to - from) then Ret (take from l ++ src ++ drop to l)
  else Panic IndexOutOfBounds.

Definition grown_size (b : BufferInternal) : nat :=
  let len := length (data b) in
  let newsize := if len <? CUTOFF_SIZE then 2 * len else 5 * len / 4 in
  let newsize := if newsize <? MIN_SIZE then MIN_SIZE else newsize in
  let newsize := if (limit_size b =? 0) && (MAX_SIZE <? newsize) then MAX_SIZE else newsize in
  if (0 <? limit_size b) && (limit_size b + 1 <? newsize) then limit_size b + 1 else newsize.

(** The copy of the contents to the start of a longer buffer. *)
Definition relocate (newsize : nat) (b : BufferInternal) : outcome (bytes * nat) :=
  let newdata := replicate newsize 0%Z in
  if head b <=? tail b then
    let n := tail b - head b in
    src ← slice (data b) (head b) (tail b);
    newdata ← copy_into newdata 0 n src;
    Ret (newdata, n)
  else
    let n := length (data b) - head b in
    src ← slice (data b) (head b) (length (data b));
    newdata ← copy_into newdata 0 n src;
    src ← slice (data b) 0 (tail b);
    newdata ← copy_into newdata n (n + tail b) src;
    Ret (newdata, n + tail b).

Definition grow (b : BufferInternal) : outcome (BufferError + BufferInternal) :=
  let newsize := grown_size b in
  if newsize <=? length (data b) then Ret (inl ErrBufferFull)
  else
    '(newdata, n) ← relocate newsize b;
    Ret (inr (b {{ head := 0 }} {{ tail := n }} {{ data := newdata }})).

(** [while !b.available(n) { b.grow()? }]; the buffer is longer in every round.  What it
    has grown to stays when a later round fails. *)
Fixpoint make_room (fuel n : nat) (b : BufferInternal) : outcome (option BufferError * BufferInternal) :=
  if available n b then Ret (None, b)
  else
    match fuel with
    | O => OutOfFuel
    | S fuel =>
        r ← grow b;
        match r with
        | inl e => Ret (Some e, b)
        | inr b => make_room fuel n b
        end
    end.

Definition capacity (b : BufferInternal) : nat := if limit_size b =? 0 then MAX_SIZE else limit_size b + 1.

(** [x += 1; if x >= len { x = 0 }] *)
Definition step_index (len i : nat) : nat := if len <=? S i then 0 else S i.

(** The length and the bytes of a packet from position [t] on, and the new tail. *)
Definition put_packet (packet d : bytes) (t : nat) : outcome (bytes * nat) :=
  let len := length d in
  d ← store t (Z.of_nat (length packet) / 256) d;
  let t := step_index len t in
  d ← store t (as_u 8 (Z.of_nat (length packet))) d;
  let t := step_index len t in
  let e := Nat.min len (t + length packet) in
  let n := e - t in
  d ← copy_into d t e (take n packet);
  if len <=? t + n then
    let m := length packet - n in
    d ← copy_into d 0 m (drop n packet);
    Ret (d, m)
  else Ret (d, t + n).

(** The result of [write] and whether a reader is notified. *)
Definition write (packet : bytes) (b : BufferInternal) : outcome ((BufferError + nat) * bool * BufferInternal) :=
  if TOO_BIG <=? length packet then Ret (inl ErrPacketTooBig, false, b)
  else if closed b then Ret (inl ErrBufferClosed, false, b)
  else if (0 <? limit_count b) && (limit_count b <=? count b)
          || (0 <? limit_size b) && (limit_size b <? size b + 2 + length packet)
  then Ret (inl ErrBufferFull, false, b)
  else
    '(e, b) ← make_room (S (capacity b)) (length packet) b;
    match e with
    | Some e => Ret (inl e, false, b)
    | None =>
        '(d, t) ← put_packet packet (data b) (tail b);
        Ret (inr (length packet), subs b,
             b {{ data := d }} {{ tail := t }} {{ count := S (count b) }} {{ subs := false }})
    end.

(** One round of [read] into a buffer of [space] bytes: what it returns, with what it has
    copied, or [None] when it has to wait. *)
Definition try_read (space : nat) (b : BufferInternal)
    : outcome (option (bytes * option BufferError) * BufferInternal) :=
  if head b =? tail b then
    let b := b {{ subs := true }} in
    Ret (if closed b then Some ([], Some ErrBufferClosed) else None, b)
  else
    let len := length (data b) in
    n1 ← index (data b) (head b);
    let h := step_index len (head b) in
    n2 ← index (data b) h;
    let h := step_index len h in
    let cnt := Z.to_nat (n1 * 256 + n2) in
    let copied := if space <? cnt then space else cnt in
    packet ←
      (if h + copied <? len then slice (data b) h (h + copied)
       else
         let k := len - h in
         front ← slice (data b) h len;
         back ← slice (data b) 0 (copied - k);
         Ret (front ++ back));
    let h := h + cnt in
    let h := if len <=? h then h - len else h in
    let b := b {{ head := h }} in
    let b := if h =? tail b then b {{ head := 0 }} {{ tail := 0 }} else b in
    c ← checked_u 64 (Z.of_nat (count b) - 1);
    let b := b {{ count := Z.to_nat c }} in
    Ret (Some (packet, if copied <? cnt then Some ErrBufferShort else None), b).

(** Whether waiting readers are woken. *)
Definition close (b : BufferInternal) : bool * BufferInternal :=
  if closed b then (false, b) else (true, b {{ closed := true }}).

Definition set_limit_count (limit : nat) (b : BufferInternal) : BufferInternal := b {{ limit_count := limit }}.
Definition set_limit_size (limit : nat) (b : BufferInternal) : BufferInternal := b {{ limit_size := limit }}.
End Buffer.

(** ** The queue that the buffer is *)

Record packet_queue := mkPacketQueue { packets : list bytes; q_closed : bool; q_limit_count : nat; q_limit_size : nat }.

Definition header (p : bytes) : bytes := [(Z.of_nat (length p) / 256)%Z; as_u 8 (Z.of_nat (length p))].
Definition encode (ps : list bytes) : bytes := concat (map (fun p => header p ++ p) ps).

(** A limit of 0 stands for 4 MiB, one byte of which stays free. *)
Definition room (p : bytes) (q : packet_queue) : bool :=
  let used := length (encode (packets q)) + 2 + length p in
  if q_limit_size q =? 0 then used <? Buffer.MAX_SIZE else used <=? q_limit_size q.

Definition spec_write (p : bytes) (q : packet_queue) : (BufferError + nat) * packet_queue :=
  if Buffer.TOO_BIG <=? length p then (inl ErrPacketTooBig, q)
  else if q_closed q then (inl ErrBufferClosed, q)
  else if (0 <? q_limit_count q) && (q_limit_count q <=? length (packets q)) || negb (room p q) then (inl ErrBufferFull, q)
  else (inr (length p), q {{ packets := packets q ++ [p] }}).

Definition spec_read (space : nat) (q : packet_queue) : option (bytes * option BufferError) * packet_queue :=
  match packets q with
  | [] => (if q_closed q then Some ([], Some ErrBufferClosed) else None, q)
  | p :: ps => (Some (take space p, if space <? length p then Some ErrBufferShort else None), q {{ packets := ps }})
  end.

(** ** Positions in the ring *)

Definition wrap (len x : nat) : nat := if x <? len then x else x - len.

Ltac wraps :=
  unfold wrap in *;
  repeat match goal with
         | |- context [?a <? ?b] => destruct (Nat.ltb_spec a b)
         | H : context [?a <? ?b] |- _ => destruct (Nat.ltb_spec a b)
         end; try lia.

(** The ring has [c] from position [h] on. *)
Definition ring_holds (d : bytes) (h : nat) (c : bytes) : Prop :=
  forall i v, c !! i = Some v -> d !! wrap (length d) (h + i) = Some v.

(** [d'] is [d] with [src] written from position [t] on. *)
Record written (d : bytes) (t : nat) (src d' : bytes) : Prop := mkWritten {
  wn_length : length d' = length d;
  wn_new : forall j v, src !! j = Some v -> d' !! wrap (length d) (t + j) = Some v;
  wn_old : forall x, (forall j, j < length src -> x <> wrap (length d) (t + j)) -> d' !! x = d !! x }.

Lemma ring_write d h c src d' :
  ring_holds d h c -> h < length d -> length c + length src <= length d ->
  written d (wrap (length d) (h + length c)) src d' -> ring_holds d' h (c ++ src).
Proof.
  intros Hc Hh Hlen [Hl Hnew Hold] i v Hi. rewrite Hl. apply lookup_app_Some in Hi as [Hi|[Hge Hi]].
  - pose proof (lookup_lt_Some _ _ _ Hi). rewrite Hold; [by apply Hc|].
    intros j Hj. wraps.
  - pose proof (lookup_lt_Some _ _ _ Hi) as Hlt. rewrite <-(Hnew _ _ Hi). f_equal. wraps.
Qed.

Lemma store_written d t v : t < length d -> exists d', Buffer.store t v d = Ret d' /\ written d t [v] d'.
Proof.
  intros Ht. unfold Buffer.store. rewrite (proj2 (Nat.ltb_lt _ _)) by done. eexists. split; [done|]. split.
  - by rewrite length_insert.
  - intros [|j] w Hj; [|done]. injection Hj as <-. rewrite Nat.add_0_r. unfold wrap.
    rewrite (proj2 (Nat.ltb_lt _ _)) by done. by apply list_lookup_insert_eq.
  - intros x Hx. rewrite list_lookup_insert_ne; [done|]. intros <-. apply (Hx 0); [cbn; lia|].
    rewrite Nat.add_0_r. unfold wrap. by rewrite (proj2 (Nat.ltb_lt _ _)).
Qed.

Lemma copy_into_spec d from to src :
  from <= to -> to <= length d -> length src = to - from ->
  exists d', Buffer.copy_into d from to src = Ret d' /\ length d' = length d
    /\ (forall x, from <= x < to -> d' !! x = src !! (x - from)) /\ (forall x, ~ from <= x < to -> d' !! x = d !! x).
Proof.
  intros H1 H2 H3. unfold Buffer.copy_into.
  rewrite (proj2 (Nat.leb_le _ _)), (proj2 (Nat.leb_le to _)), (proj2 (Nat.eqb_eq _ _)) by done. cbn [andb].
  eexists. split; [done|]. split; [rewrite !length_app, length_take, length_drop; lia|]. split; intros x Hx.
  - rewrite lookup_app_r by (rewrite length_take; lia). rewrite length_take, Nat.min_l by lia.
    rewrite lookup_app_l by lia. done.
  - destruct (decide (x < from)).
    + rewrite lookup_app_l by (rewrite length_take; lia). by apply lookup_take_lt.
    + rewrite lookup_app_r by (rewrite length_take; lia). rewrite length_take, Nat.min_l by lia.
      rewrite lookup_app_r by lia. rewrite lookup_drop. f_equal. lia.
Qed.

(** The two copies of a packet, the second one of what is behind the end. *)
Lemma copy_written d t packet :
  t < length d -> length packet <= length d ->
  let e := Nat.min (length d) (t + length packet) in
  let n := e - t in
  exists d', (d1 ← Buffer.copy_into d t e (take n packet);
              if length d <=? t + n then
                let m := length packet - n in
                d2 ← Buffer.copy_into d1 0 m (drop n packet);
                Ret (d2, m)
              else Ret (d1, t + n)) = Ret (d', wrap (length d) (t + length packet))
    /\ written d t packet d'.
Proof.
  intros Ht Hp e n. destruct (copy_into_spec d t e (take n packet)) as (d1 & -> & Hl1 & Hin1 & Hout1);
    [lia|lia|rewrite length_take; lia|]. rewrite bind_Ret.
  destruct (Nat.leb_spec (length d) (t + n)).
  - cbv zeta. destruct (copy_into_spec d1 0 (length packet - n) (drop n packet)) as (d2 & -> & Hl2 & Hin2 & Hout2);
      [lia|lia|rewrite length_drop; lia|]. rewrite bind_Ret. exists d2. split.
    { do 2 f_equal. unfold wrap. destruct (Nat.ltb_spec (t + length packet) (length d)); lia. }
    split; [lia| |].
    + intros j v Hj. pose proof (lookup_lt_Some _ _ _ Hj) as Hlt. unfold wrap. destruct (Nat.ltb_spec (t + j) (length d)).
      * rewrite Hout2 by lia. rewrite Hin1 by lia. rewrite lookup_take_lt by lia. rewrite <-Hj. f_equal. lia.
      * rewrite Hin2 by lia. rewrite lookup_drop. rewrite <-Hj. f_equal. lia.
    + intros x Hx. rewrite Hout2, Hout1; [done| |].
      * intros Hr. apply (Hx (x - t)); [lia|]. unfold wrap. destruct (Nat.ltb_spec (t + (x - t)) (length d)); lia.
      * intros Hr. apply (Hx (x + length d - t)); [lia|]. unfold wrap.
        destruct (Nat.ltb_spec (t + (x + length d - t)) (length d)); lia.
  - exists d1. split.
    { do 2 f_equal. unfold wrap. destruct (Nat.ltb_spec (t + length packet) (length d)); lia. }
    split; [done| |].
    + intros j v Hj. pose proof (lookup_lt_Some _ _ _ Hj) as Hlt. unfold wrap. destruct (Nat.ltb_spec (t + j) (length d)); [|lia].
      rewrite Hin1 by lia. rewrite lookup_take_lt by lia. rewrite <-Hj. f_equal. lia.
    + intros x Hx. apply Hout1. intros Hr. apply (Hx (x - t)); [lia|]. unfold wrap.
      destruct (Nat.ltb_spec (t + (x - t)) (length d)); lia.
Qed.

(** ** The invariant *)

Record represents (q : packet_queue) (b : BufferInternal) : Prop := mkRepresents {
  re_closed : closed b = q_closed q;
  re_count : count b = length (packets q);
  re_limit_count : limit_count b = q_limit_count q;
  re_limit_size : limit_size b = q_limit_size q;
  re_small : Forall (fun p => length p < Buffer.TOO_BIG) (packets q);
  re_few : (Z.of_nat (length (packets q)) <= 2 ^ 63)%Z;
  re_length : length (data b) <= Buffer.capacity b;
  re_ring : (data b = [] /\ head b = 0 /\ tail b = 0 /\ packets q = [])
    \/ (head b < length (data b) /\ length (encode (packets q)) < length (data b)
        /\ tail b = wrap (length (data b)) (head b + length (encode (packets q)))
        /\ ring_holds (data b) (head b) (encode (packets q))) }.

Abbreviation used q := (length (encode (packets q))).

Lemma buffer_size_used q b : represents q b -> Buffer.size b = used q.
Proof.
  intros [_ _ _ _ _ _ _ [(Hd & Hh & Ht & Hp)|(Hh & Hu & Ht & _)]]; unfold Buffer.size.
  - rewrite Hh, Ht, Hp. done.
  - rewrite Ht. unfold wrap. destruct (Nat.ltb_spec (head b + used q) (length (data b)));
      match goal with |- context [(?x <? 0)%Z] => destruct (Z.ltb_spec x 0) end; lia.
Qed.

Lemma represents_available q b n :
  represents q b -> Buffer.available n b = (n + 2 + used q <? length (data b)).
Proof.
  intros [_ _ _ _ _ _ _ [(Hd & Hh & Ht & Hp)|(Hh & Hu & Ht & _)]]; unfold Buffer.available.
  - rewrite Hh, Ht, Hp, Hd. cbn [length]. apply eq_true_iff_eq. rewrite Z.ltb_lt, Nat.ltb_lt.
    destruct (Z.leb_spec (Z.of_nat 0 - Z.of_nat 0) 0); lia.
  - cbv zeta. rewrite Ht. unfold wrap. destruct (Nat.ltb_spec (head b + used q) (length (data b)));
      match goal with |- context [(?x <=? 0)%Z] => destruct (Z.leb_spec x 0) end;
      apply eq_true_iff_eq; rewrite Z.ltb_lt, Nat.ltb_lt; lia.
Qed.

(** The new size: as long as the limit is not reached, the buffer gets longer. *)
Lemma grown_size_spec b :
  length (data b) <= Buffer.capacity b ->
  Buffer.grown_size b <= Buffer.capacity b
  /\ (length (data b) < Buffer.capacity b -> length (data b) < Buffer.grown_size b).
Proof.
  intros Hle. unfold Buffer.grown_size, Buffer.capacity in *.
  assert (0 < Buffer.MIN_SIZE) as Hmin by (unfold Buffer.MIN_SIZE, Buffer.KB; lia).
  assert (4 <= Buffer.CUTOFF_SIZE) as Hcut by (unfold Buffer.CUTOFF_SIZE, Buffer.KB; lia).
  set (MIN := Buffer.MIN_SIZE) in *. set (CUT := Buffer.CUTOFF_SIZE) in *. set (MAX := Buffer.MAX_SIZE) in *.
  clearbody MIN CUT MAX. set (len := length (data b)) in *. clearbody len.
  set (base := if len <? CUT then 2 * len else 5 * len / 4).
  assert (len = 0 \/ len < base) as Hbase.
  { unfold base. destruct (Nat.ltb_spec len CUT); [lia|]. right.
    assert (5 * len / 4 = len + len / 4) as -> by (replace (5 * len) with (len + len * 4) by lia;
      rewrite Nat.div_add by lia; lia).
    assert (1 <= len / 4) by (apply Nat.div_le_lower_bound; lia). lia. }
  clearbody base. revert Hle. destruct (Nat.eqb_spec (limit_size b) 0) as [Hz|Hz]; intros Hle;
    set (m := if base <? MIN then MIN else base); assert (len < m) by (unfold m; destruct (Nat.ltb_spec base MIN); lia);
    clearbody m; cbn [andb]; destruct (Nat.ltb_spec MAX m), (Nat.ltb_spec 0 (limit_size b)); cbn [andb]; try lia;
    destruct (Nat.ltb_spec (limit_size b + 1) m); lia.
Qed.

Lemma represents_grow q b :
  represents q b -> length (data b) < Buffer.capacity b ->
  exists b', Buffer.grow b = Ret (inr b') /\ represents q b' /\ length (data b) < length (data b')
    /\ Buffer.capacity b' = Buffer.capacity b /\ subs b' = subs b.
Proof.
  intros Hb Hlt. pose proof (grown_size_spec b (re_length _ _ Hb)) as [Hcap Hgrow]. specialize (Hgrow Hlt).
  unfold Buffer.grow. cbv zeta. rewrite (proj2 (Nat.leb_gt _ _)) by done.
  set (N := Buffer.grown_size b) in *. clearbody N.
  assert (exists d, Buffer.relocate N b = Ret (d, used q) /\ length d = N /\ ring_holds d 0 (encode (packets q)))
    as (d & -> & Hd & Hr).
  { unfold Buffer.relocate. cbv zeta. destruct Hb as [_ _ _ _ _ _ _ [(Hd & Hh & Ht & Hp)|(Hh & Hu & Ht & Hr)]].
    { rewrite Hh, Ht, Hp, Hd. cbn [Nat.leb Nat.sub]. rewrite slice_Ret by (cbn; lia). rewrite bind_Ret.
      destruct (copy_into_spec (replicate N 0%Z) 0 0 []) as (d & Hc & Hl & _); [lia..|done|].
      change (take (0 - 0) (drop 0 [])) with (@nil Z). rewrite Hc, bind_Ret. exists d. rewrite Hl, length_replicate.
      split; [done|]. split; [done|]. by intros i v. }
    assert (wrap (length (data b)) (head b + used q) < length (data b)) as Htl by wraps.
    destruct (Nat.leb_spec (head b) (tail b)); cbv zeta.
    - rewrite slice_Ret by lia. rewrite bind_Ret.
      destruct (copy_into_spec (replicate N 0%Z) 0 (tail b - head b) (take (tail b - head b) (drop (head b) (data b))))
        as (d & -> & Hl & Hin & _); [lia|rewrite length_replicate; lia|rewrite length_take, length_drop; lia|].
      rewrite bind_Ret. rewrite length_replicate in Hl. exists d. split; [do 2 f_equal; rewrite Ht in *; wraps|]. split; [done|].
      intros i v Hi. pose proof (lookup_lt_Some _ _ _ Hi) as Hilt. specialize (Hr i v Hi). rewrite Hl.
      rewrite Hin; [|rewrite Ht in *; wraps]. rewrite <-Hr.
      rewrite lookup_take_lt, lookup_drop by (rewrite Ht in *; wraps). f_equal. rewrite Ht in *. wraps.
    - rewrite (slice_Ret (data b) (head b) (length (data b))) by lia. rewrite bind_Ret.
      destruct (copy_into_spec (replicate N 0%Z) 0 (length (data b) - head b)
        (take (length (data b) - head b) (drop (head b) (data b))))
        as (d & -> & Hl & Hin & _); [lia|rewrite length_replicate; lia|rewrite length_take, length_drop; lia|].
      rewrite bind_Ret. rewrite length_replicate in Hl. rewrite slice_Ret by lia. rewrite bind_Ret.
      destruct (copy_into_spec d (length (data b) - head b) (length (data b) - head b + tail b)
        (take (tail b - 0) (drop 0 (data b)))) as (d' & -> & Hl' & Hin' & Hout');
        [lia|rewrite Ht in *; wraps|rewrite length_take, length_drop; lia|].
      rewrite bind_Ret. exists d'. split; [do 2 f_equal; rewrite Ht in *; wraps|]. split; [lia|].
      intros i v Hi. pose proof (lookup_lt_Some _ _ _ Hi) as Hilt. specialize (Hr i v Hi). rewrite Hl', Hl.
      assert (wrap N (0 + i) = i) as -> by (wraps). rewrite <-Hr. destruct (decide (i < length (data b) - head b)).
      + rewrite Hout' by lia. rewrite Hin by lia. rewrite lookup_take_lt, lookup_drop by lia. f_equal. wraps.
      + rewrite Hin' by (rewrite Ht in *; wraps). rewrite lookup_take_lt by (rewrite Ht in *; wraps). rewrite drop_0. f_equal. wraps. }
  rewrite bind_Ret. eexists. split; [reflexivity|]. 
  destruct Hb as [H1 H2 H3 H4 H5 H6 H7 H8]. split; [|split; [change (length (data b) < length d); by rewrite Hd|done]].
  assert (used q < N) as Hu by (destruct H8 as [(Hd0 & _ & _ & ->)|(_ & Hu & _)]; [cbn; lia|lia]).
  split; try done.
  - change (length d <= Buffer.capacity b). lia.
  - right. change (0 < length d /\ used q < length d /\ used q = wrap (length d) (0 + used q)
      /\ ring_holds d 0 (encode (packets q))). rewrite Hd. split_and!; try done; [lia|wraps].
Qed.

Lemma represents_make_room q n : forall fuel b,
  represents q b -> Buffer.capacity b - length (data b) < fuel ->
  exists e b', Buffer.make_room fuel n b = Ret (e, b') /\ represents q b' /\ subs b' = subs b
    /\ (if n + 2 + used q <? Buffer.capacity b then e = None /\ n + 2 + used q < length (data b') else e = Some ErrBufferFull).
Proof.
  induction fuel as [|fuel IH]; intros b Hb Hf; [lia|]. pose proof (re_length _ _ Hb) as Hlen.
  cbn [Buffer.make_room]. rewrite (represents_available q b n Hb).
  destruct (Nat.ltb_spec (n + 2 + used q) (length (data b))) as [Hlt|Hge].
  { exists None, b. split_and!; try done. by rewrite (proj2 (Nat.ltb_lt _ _)) by lia. }
  destruct (decide (length (data b) < Buffer.capacity b)) as [Hsmall|Hfull].
  - destruct (represents_grow q b Hb Hsmall) as (b' & -> & Hb' & Hl & Hc & Hs). rewrite bind_Ret.
    destruct (IH b' Hb') as (e & b2 & Hrun & Hb2 & Hs2 & Hres); [lia|].
    exists e, b2. rewrite <-Hc. split_and!; try done. congruence.
  - pose proof (grown_size_spec b Hlen) as [Hg _].
    unfold Buffer.grow. cbv zeta. rewrite (proj2 (Nat.leb_le _ _)) by lia. rewrite bind_Ret.
    exists (Some ErrBufferFull), b. split_and!; try done. by rewrite (proj2 (Nat.ltb_ge _ _)) by lia.
Qed.

Lemma encode_app ps p : encode (ps ++ [p]) = encode ps ++ header p ++ p.
Proof. unfold encode. rewrite map_app, concat_app. cbn [map concat]. by rewrite app_nil_r. Qed.

Lemma encode_length_cons p ps : length (encode (p :: ps)) = 2 + length p + length (encode ps).
Proof. unfold encode. cbn [map concat]. rewrite !length_app. change (length (header p)) with 2. lia. Qed.

Lemma step_index_wrap len i : i < len -> Buffer.step_index len i = wrap len (i + 1).
Proof. intros Hi. unfold Buffer.step_index. destruct (Nat.leb_spec len (S i)); wraps. Qed.

(** The stores of [write] put the length and the packet behind what is there. *)
Lemma write_ring d h c p :
  ring_holds d h c -> h < length d -> length p + 2 + length c < length d ->
  let len := length d in
  let t := wrap len (h + length c) in
  exists d', Buffer.put_packet p d t = Ret (d', wrap len (h + length c + 2 + length p))
    /\ length d' = len /\ ring_holds d' h (c ++ header p ++ p).
Proof.
  intros Hc Hh Hlen len t. unfold Buffer.put_packet. fold len. assert (t < len) as Ht by (unfold t, len; wraps).
  destruct (store_written d t (Z.of_nat (length p) / 256) Ht) as (d1 & -> & Hw1). rewrite bind_Ret.
  pose proof (ring_write d h c [(Z.of_nat (length p) / 256)%Z] d1 Hc Hh ltac:(cbn; lia) Hw1) as Hc1. pose proof (wn_length _ _ _ _ Hw1) as Hl1.
  cbv zeta. rewrite (step_index_wrap len t) by done.
  assert (wrap len (t + 1) = wrap (length d1) (h + length (c ++ [(Z.of_nat (length p) / 256)%Z]))) as Ht1.
  { rewrite length_app, Hl1. cbn [length]. unfold t, len. clear -Hh Hlen. wraps. }
  assert (wrap len (t + 1) < length d1) as Hlt1 by (rewrite Hl1; unfold len; wraps).
  destruct (store_written d1 (wrap len (t + 1)) (as_u 8 (Z.of_nat (length p))) Hlt1) as (d2 & -> & Hw2). rewrite bind_Ret.
  rewrite Ht1 in Hw2. pose proof (ring_write d1 h (c ++ [(Z.of_nat (length p) / 256)%Z]) [as_u 8 (Z.of_nat (length p))] d2 Hc1
    ltac:(lia) ltac:(rewrite length_app; cbn; lia) Hw2) as Hc2.
  pose proof (wn_length _ _ _ _ Hw2) as Hl2. rewrite (step_index_wrap len (wrap len (t + 1))) by lia.
  set (t2 := wrap len (wrap len (t + 1) + 1)).
  assert (t2 < length d2) as Hlt2 by (unfold t2; rewrite Hl2, Hl1; unfold len, t; clear -Hh Hlen; wraps).
  assert (t2 = wrap (length d2) (h + length ((c ++ [(Z.of_nat (length p) / 256)%Z]) ++ [as_u 8 (Z.of_nat (length p))]))) as Ht2.
  { rewrite !length_app, Hl2, Hl1. cbn [length]. unfold t2, t, len. clear -Hh Hlen. wraps. }
  destruct (copy_written d2 t2 p Hlt2 ltac:(lia)) as (d3 & Hrun & Hw3). cbv zeta in Hrun.
  assert (length d2 = len) as Hlen2 by (unfold len; lia). rewrite Hlen2 in Hrun. rewrite Hrun. exists d3. split.
  { do 2 f_equal. unfold t2, t, len. clear -Hh Hlen. wraps. }
  split; [rewrite (wn_length _ _ _ _ Hw3); done|].
  rewrite Ht2 in Hw3. pose proof (ring_write d2 h ((c ++ [(Z.of_nat (length p) / 256)%Z]) ++ [as_u 8 (Z.of_nat (length p))]) p d3 Hc2
    ltac:(lia) ltac:(rewrite !length_app; cbn; lia) Hw3) as Hc3.
  rewrite <-!(assoc_L (++)) in Hc3. exact Hc3.
Qed.

Lemma write_refines q b p :
  represents q b -> (Z.of_nat (length (packets q)) < 2 ^ 63)%Z ->
  exists wake b', Buffer.write p b = Ret ((spec_write p q).1, wake, b') /\ represents (spec_write p q).2 b'.
Proof.
  intros Hb Hfew. unfold Buffer.write, spec_write. destruct (Nat.leb_spec Buffer.TOO_BIG (length p)); [by exists false, b|].
  rewrite (re_closed _ _ Hb). destruct (q_closed q) eqn:Hcl; [by exists false, b|].
  rewrite (re_limit_count _ _ Hb), (re_count _ _ Hb). destruct ((0 <? q_limit_count q) && _) eqn:Hcount; [by exists false, b|].
  cbn [orb]. rewrite (buffer_size_used q b Hb), (re_limit_size _ _ Hb).
  assert (Buffer.capacity b = if q_limit_size q =? 0 then Buffer.MAX_SIZE else q_limit_size q + 1) as Hcap.
  { unfold Buffer.capacity. by rewrite (re_limit_size _ _ Hb). }
  destruct (represents_make_room q (length p) (S (Buffer.capacity b)) b Hb ltac:(lia)) as (e & b1 & Hrun & Hb1 & _ & Hres).
  assert (negb (room p q) = ((0 <? q_limit_size q) && (q_limit_size q <? used q + 2 + length p)
    || negb (length p + 2 + used q <? Buffer.capacity b))) as ->.
  { rewrite Hcap. unfold room. cbv zeta. clear. destruct (Nat.eqb_spec (q_limit_size q) 0) as [->|Hz].
    - cbn [Nat.ltb Nat.leb andb orb]. do 2 f_equal. lia.
    - rewrite (proj2 (Nat.ltb_lt 0 _)) by lia. cbn [andb].
      destruct (Nat.leb_spec (used q + 2 + length p) (q_limit_size q)), (Nat.ltb_spec (q_limit_size q) (used q + 2 + length p)),
        (Nat.ltb_spec (length p + 2 + used q) (q_limit_size q + 1)); done || lia. }
  destruct ((0 <? q_limit_size q) && _) eqn:Hlim; [by exists false, b|]. cbn [orb]. rewrite Hrun, bind_Ret.
  destruct (Nat.ltb_spec (length p + 2 + used q) (Buffer.capacity b)); cbn [negb]; [|subst e; by exists false, b1].
  destruct Hres as [-> Hav]. cbn [fst snd]. destruct Hb1 as [H1 H2 H3 H4 H5 H6 H7 [(Hd & _)|(Hh & Hu & Ht & Hr)]];
    [rewrite Hd in Hav; cbn in Hav; lia|].
  destruct (write_ring (data b1) (head b1) (encode (packets q)) p Hr Hh Hav) as (d' & Hw & Hl & Hr').
  rewrite <-Ht in Hw. rewrite Hw, bind_Ret. exists (subs b1), (b1 {{ data := d' }}
    {{ tail := wrap (length (data b1)) (head b1 + used q + 2 + length p) }} {{ count := S (count b1) }} {{ subs := false }}).
  split; [done|]. split; try done.
  - change (S (count b1) = length (packets q ++ [p])). rewrite length_app, H2. cbn [length]. lia.
  - change (Forall (fun p => length p < Buffer.TOO_BIG) (packets q ++ [p])). apply Forall_app. split; [done|]. by constructor.
  - change (Z.of_nat (length (packets q ++ [p])) <= 2 ^ 63)%Z. rewrite length_app. cbn [length]. lia.
  - change (length d' <= Buffer.capacity b1). lia.
  - right. change (head b1 < length d' /\ length (encode (packets q ++ [p])) < length d'
      /\ wrap (length (data b1)) (head b1 + used q + 2 + length p) = wrap (length d') (head b1 + length (encode (packets q ++ [p])))
      /\ ring_holds d' (head b1) (encode (packets q ++ [p]))).
    rewrite encode_app, !length_app, Hl. change (length (header p)) with 2. split_and!; [done|lia| |done]. f_equal. lia.
Qed.

Lemma header_value (p : bytes) : length p < Buffer.TOO_BIG ->
  Z.to_nat (Z.of_nat (length p) / 256 * 256 + as_u 8 (Z.of_nat (length p))) = length p.
Proof.
  intros _. unfold as_u. change (2 ^ 8)%Z with 256%Z. rewrite (Z.mul_comm _ 256), <-Z_div_mod_eq_full. lia.
Qed.

(** What a read copies from the ring is the front of what is there. *)
Lemma ring_slice (d : bytes) h (c : bytes) n :
  ring_holds d h c -> h < length d -> n <= length c -> n <= length d ->
  (if h + n <? length d then slice d h (h + n)
   else
     front ← slice d h (length d);
     back ← slice d 0 (n - (length d - h));
     Ret (front ++ back)) = Ret (take n c).
Proof.
  intros Hc Hh Hn Hnd.
  assert (forall k, k <= n -> h + k <= length d -> take k (drop h d) = take k c) as Hfront.
  { intros k Hk Hkd. apply list_eq. intros i. destruct (decide (i < k)).
    - rewrite !lookup_take_lt, lookup_drop by lia. destruct (lookup_lt_is_Some_2 c i ltac:(lia)) as [v Hv].
      rewrite Hv, <-(Hc i v Hv). f_equal. wraps.
    - rewrite !lookup_take_ge by lia. done. }
  destruct (Nat.ltb_spec (h + n) (length d)).
  - rewrite slice_Ret by lia. f_equal. replace (h + n - h) with n by lia. apply Hfront; lia.
  - rewrite (slice_Ret d h (length d)), bind_Ret by lia. rewrite slice_Ret, bind_Ret by lia. f_equal.
    rewrite Hfront by lia. rewrite Nat.sub_0_r, drop_0. apply list_eq. intros i.
    destruct (decide (i < length d - h)).
    + rewrite lookup_app_l by (rewrite length_take; lia). by rewrite !lookup_take_lt by lia.
    + rewrite lookup_app_r by (rewrite length_take; lia). rewrite length_take, Nat.min_l by lia.
      destruct (decide (i < n)).
      * rewrite !lookup_take_lt by lia. destruct (lookup_lt_is_Some_2 c i ltac:(lia)) as [v Hv].
        rewrite Hv, <-(Hc i v Hv). f_equal. wraps.
      * rewrite !lookup_take_ge by lia. done.
Qed.

Lemma ring_drop (d : bytes) h (c c' : bytes) :
  ring_holds d h (c ++ c') -> h < length d -> length c + length c' <= length d ->
  ring_holds d (wrap (length d) (h + length c)) c'.
Proof.
  intros Hc Hh Hlen i v Hi. pose proof (lookup_lt_Some _ _ _ Hi).
  rewrite <-(Hc (length c + i) v); [f_equal; wraps|]. rewrite lookup_app_r by lia. rewrite <-Hi. f_equal. lia.
Qed.

(** The first packet of a ring and where the next one starts. *)
Lemma ring_packet (d : bytes) h p ps :
  h < length d -> 2 + length p + length (encode ps) < length d -> ring_holds d h (encode (p :: ps)) ->
  let h1 := wrap (length d) (h + 2) in
  let h2 := wrap (length d) (h1 + length p) in
  d !! h = Some (Z.of_nat (length p) / 256)%Z /\ d !! wrap (length d) (h + 1) = Some (as_u 8 (Z.of_nat (length p)))
  /\ h1 < length d /\ h2 < length d /\ ring_holds d h1 (p ++ encode ps) /\ ring_holds d h2 (encode ps)
  /\ wrap (length d) (h2 + length (encode ps)) = wrap (length d) (h + (2 + length p + length (encode ps))).
Proof.
  intros Hh Hu Hr h1 h2. change (encode (p :: ps)) with ((header p ++ p) ++ encode ps) in Hr.
  assert (ring_holds d h1 (p ++ encode ps)) as Hr1.
  { apply (ring_drop d h (header p)); [by rewrite (assoc_L (++))|done|].
    change (length (header p)) with 2. rewrite length_app. lia. }
  assert (h1 < length d) as Hh1 by (unfold h1; clear -Hh Hu; wraps).
  split_and!.
  - rewrite <-(Hr 0 _ eq_refl). f_equal. clear -Hh. wraps.
  - apply (Hr 1 _ eq_refl).
  - done.
  - unfold h2, h1. clear -Hh Hu. wraps.
  - done.
  - apply (ring_drop d h1 p); [done|done|lia].
  - unfold h2, h1. clear -Hh Hu. wraps.
Qed.

Lemma checked_minus_one n : (Z.of_nat (S n) <= 2 ^ 63)%Z -> checked_u 64 (Z.of_nat (S n) - 1) = Ret (Z.of_nat n).
Proof. intros H. rewrite checked_u_Ret by (unfold is_u; lia). f_equal. lia. Qed.

(** What a read leaves: the next packet at [h'], or an empty ring from its start. *)
Lemma represents_read q b p ps h' :
  represents q b -> packets q = p :: ps -> h' < length (data b) -> length (encode ps) < length (data b) ->
  tail b = wrap (length (data b)) (h' + length (encode ps)) -> ring_holds (data b) h' (encode ps) ->
  let b1 := b {{ head := h' }} in
  let b2 := if h' =? tail b1 then b1 {{ head := 0 }} {{ tail := 0 }} else b1 in
  represents (q {{ packets := ps }}) (b2 {{ count := Z.to_nat (Z.of_nat (length ps)) }}).
Proof.
  intros [H1 H2 H3 H4 H5 H6 H7 _] Hq Hh' Hu Ht Hr. rewrite Hq in H5, H6. apply Forall_cons in H5 as [_ Hps].
  cbn [length] in H6. cbv zeta. change (tail (b {{ head := h' }})) with (tail b). rewrite Nat2Z.id.
  assert ((Z.of_nat (length ps) <= 2 ^ 63)%Z) as Hfew by lia.
  destruct (Nat.eqb_spec h' (tail b)) as [He|Hne].
  - assert (ps = []) as ->.
    { destruct ps as [|p' ps]; [done|]. exfalso. rewrite encode_length_cons in Ht, Hu. rewrite <-He in Ht. clear -Ht Hh' Hu. wraps. }
    split; try done. right. change (0 < length (data b) /\ 0 < length (data b) /\ 0 = wrap (length (data b)) (0 + 0)
      /\ ring_holds (data b) 0 []). split_and!; [lia|lia|clear -Hh'; wraps|by intros i v].
  - split; try done. by right.
Qed.

Lemma try_read_refines q b space :
  represents q b ->
  exists b', Buffer.try_read space b = Ret ((spec_read space q).1, b') /\ represents (spec_read space q).2 b'.
Proof.
  intros Hb. pose proof Hb as [H1 H2 H3 H4 H5 H6 H7 H8]. unfold Buffer.try_read, spec_read.
  destruct (packets q) as [|p ps] eqn:Hq.
  { assert (head b = tail b) as Hht.
    { destruct H8 as [(_ & -> & -> & _)|(Hh & _ & -> & _)]; [done|]. cbn [encode map concat length]. rewrite Nat.add_0_r. wraps. }
    rewrite Hht, Nat.eqb_refl. change (closed (b {{ subs := true }})) with (closed b). rewrite H1.
    eexists. split; [done|]. cbn [snd]. split; rewrite ?Hq; try done. }
  destruct H8 as [(_ & _ & _ & ?)|(Hh & Hu & Ht & Hr)]; [done|]. rewrite encode_length_cons in Hu, Ht.
  apply Forall_cons in H5 as [Hp Hps]. rewrite (proj2 (Nat.eqb_neq _ _)) by (rewrite Ht; clear -Hh Hu; wraps). cbv zeta.
  destruct (ring_packet (data b) (head b) p ps Hh Hu Hr) as (Hn1 & Hn2 & Hl1 & Hl2 & Hr1 & Hr2 & He).
  set (len := length (data b)) in *.
  rewrite (proj2 (index_Ret _ _ _) Hn1), bind_Ret. rewrite (step_index_wrap len (head b)) by done.
  rewrite (proj2 (index_Ret _ _ _) Hn2), bind_Ret.
  rewrite (step_index_wrap len (wrap len (head b + 1))) by (clear -Hh; unfold len in *; wraps).
  replace (wrap len (wrap len (head b + 1) + 1)) with (wrap len (head b + 2)) by (clear -Hh Hu; unfold len in *; wraps).
  rewrite header_value by done. set (h1 := wrap len (head b + 2)) in *.
  set (copied := if space <? length p then space else length p).
  assert (copied <= length p) as Hcop by (unfold copied; destruct (Nat.ltb_spec space (length p)); lia).
  pose proof (ring_slice (data b) h1 (p ++ encode ps) copied Hr1 Hl1 ltac:(rewrite length_app; lia) ltac:(fold len; lia)) as Hs.
  fold len in Hs. rewrite Hs, bind_Ret. rewrite take_app_le by done.
  replace (take copied p) with (take space p).
  2: { unfold copied. destruct (Nat.ltb_spec space (length p)); [done|]. by rewrite !take_ge. }
  replace (if len <=? h1 + length p then h1 + length p - len else h1 + length p) with (wrap len (h1 + length p)).
  2: { destruct (Nat.leb_spec len (h1 + length p)); clear -H Hl1; wraps. }
  set (h2 := wrap len (h1 + length p)) in *.
  replace (copied <? length p) with (space <? length p).
  2: { unfold copied. destruct (Nat.ltb_spec space (length p)) as [Hlt|]; [by rewrite (proj2 (Nat.ltb_lt _ _))|by rewrite Nat.ltb_irrefl]. }
  match goal with |- context [checked_u 64 (Z.of_nat (count ?x) - 1)] => assert (count x = S (length ps)) as -> end.
  { transitivity (count b); [|done]. by destruct (h2 =? tail _). }
  rewrite checked_minus_one, bind_Ret by done. eexists. split; [reflexivity|]. cbn [snd].
  apply (represents_read q b p ps h2); try done; [fold len; lia|]. fold len. by rewrite He.
Qed.

(** ** The buffer as a queue *)

Inductive buffer_op := Write (p : bytes) | Read (space : nat) | Close.
Inductive buffer_result := Wrote (r : BufferError + nat) | WasRead (r : option (bytes * option BufferError)) | WasClosed.

Definition buffer_step (o : buffer_op) (b : BufferInternal) : outcome (buffer_result * BufferInternal) :=
  match o with
  | Write p => '(r, _, b) ← Buffer.write p b; Ret (Wrote r, b)
  | Read space => '(r, b) ← Buffer.try_read space b; Ret (WasRead r, b)
  | Close => Ret (WasClosed, (Buffer.close b).2)
  end.

Fixpoint buffer_run (os : list buffer_op) (b : BufferInternal) : outcome (list buffer_result * BufferInternal) :=
  match os with
  | [] => Ret ([], b)
  | o :: os =>
      '(r, b) ← buffer_step o b;
      '(rs, b) ← buffer_run os b;
      Ret (r :: rs, b)
  end.

Definition queue_step (o : buffer_op) (q : packet_queue) : buffer_result * packet_queue :=
  match o with
  | Write p => let '(r, q) := spec_write p q in (Wrote r, q)
  | Read space => let '(r, q) := spec_read space q in (WasRead r, q)
  | Close => (WasClosed, q {{ q_closed := true }})
  end.

Fixpoint queue_run (os : list buffer_op) (q : packet_queue) : list buffer_result :=
  match os with
  | [] => []
  | o :: os => let '(r, q) := queue_step o q in r :: queue_run os q
  end.

Lemma spec_write_more p q :
  length (packets (spec_write p q).2) <= S (length (packets q)).
Proof.
  unfold spec_write. destruct (_ <=? _); [cbn; lia|]. destruct (q_closed q); [cbn; lia|]. destruct (_ || _); [cbn; lia|].
  change (length (packets q ++ [p]) <= S (length (packets q))). rewrite length_app. cbn [length]. lia.
Qed.

Lemma queue_step_more o q : length (packets (queue_step o q).2) <= S (length (packets q)).
Proof.
  destruct o as [p|space|]; cbn [queue_step].
  - pose proof (spec_write_more p q) as H. by destruct (spec_write p q).
  - unfold spec_read. destruct (packets q) as [|p ps] eqn:Hq; cbn [snd]; [rewrite Hq; cbn; lia|].
    match goal with |- length (packets ?x) <= _ => change (packets x) with ps end. cbn [length]. lia.
  - change (length (packets q) <= S (length (packets q))). lia.
Qed.

Lemma buffer_step_refines o q b :
  represents q b -> (Z.of_nat (length (packets q)) < 2 ^ 63)%Z ->
  exists b', buffer_step o b = Ret ((queue_step o q).1, b') /\ represents (queue_step o q).2 b'.
Proof.
  intros Hb Hfew. destruct o as [p|space|]; cbn [buffer_step queue_step].
  - destruct (write_refines q b p Hb Hfew) as (w & b' & -> & Hb'). exists b'. by destruct (spec_write p q).
  - destruct (try_read_refines q b space Hb) as (b' & -> & Hb'). exists b'. by destruct (spec_read space q).
  - eexists. split; [reflexivity|]. destruct Hb as [H1 H2 H3 H4 H5 H6 H7 H8]. unfold Buffer.close.
    destruct (closed b) eqn:Hc; cbn [snd]; by split.
Qed.

Lemma buffer_run_refines os : forall q b,
  represents q b -> (Z.of_nat (length (packets q) + length os) < 2 ^ 63)%Z ->
  exists b', buffer_run os b = Ret (queue_run os q, b').
Proof.
  induction os as [|o os IH]; intros q b Hb Hfew; [by exists b|]. cbn [length] in Hfew.
  destruct (buffer_step_refines o q b Hb ltac:(lia)) as (b1 & Hrun & Hb1).
  pose proof (queue_step_more o q) as Hmore.
  destruct (IH (queue_step o q).2 b1 Hb1 ltac:(lia)) as (b2 & Hrun2). exists b2.
  cbn [buffer_run queue_run]. rewrite Hrun, bind_Ret. destruct (queue_step o q) as [r q1]. cbn [fst snd] in *.
  by rewrite Hrun2.
Qed.

(** C26: The packet buffer is a bounded queue of packets. Whatever is written to it, read from it
    and whenever it is closed, the ring of bytes with its wrapping positions and its growing
    never panics and gives the results of a list of packets: writes are refused exactly when
    the packet is too big, the queue is closed, or its number or its bytes would exceed the
    limits; reads return the packets in order, cut to the reader's buffer, and go on after the
    close until the queue is empty. *)
Theorem buffer_refines_queue os limit_count limit_size :
  (Z.of_nat (length os) < 2 ^ 63)%Z ->
  exists b, buffer_run os (Buffer.new limit_count limit_size)
    = Ret (queue_run os (mkPacketQueue [] false limit_count limit_size), b).
Proof.
  intros Hos. apply buffer_run_refines; [|cbn; lia]. split; try done.
  - apply Nat.le_0_l.
  - by left.
Qed.

Lemma buffer_refines_queue_witness :
  exists b, buffer_run [Write [1%Z; 2%Z]; Write [3%Z]; Read 1; Read 8; Read 8; Close; Write [4%Z]; Read 8] (Buffer.new 0 9)
    = Ret ([Wrote (inr 2); Wrote (inr 1); WasRead (Some ([1%Z], Some ErrBufferShort)); WasRead (Some ([3%Z], None));
            WasRead None; WasClosed; Wrote (inl ErrBufferClosed); WasRead (Some ([], Some ErrBufferClosed))], b).
Proof.
  apply (buffer_refines_queue [Write [1%Z; 2%Z]; Write [3%Z]; Read 1; Read 8; Read 8; Close; Write [4%Z]; Read 8] 0 9).
  vm_compute. reflexivity.
Defined.

(** ** Readers that wait

    [read] releases the lock before it makes the future it waits on.  [Notify::notify_one]
    wakes a waiting reader or leaves a permit for the next one that waits;
    [notify_waiters] wakes those who wait and leaves nothing. *)

Inductive reader :=
  | Running (space : nat)
  | Unlocked (space : nat)
  | Waiting (space : nat)
  | Returned (r : bytes * option BufferError).

Record shared := mkShared { sh_buffer : BufferInternal; permit : bool; readers : list reader }.

Definition wake (r : reader) : reader := match r with Waiting space => Running space | r => r end.

(** [notify_one]: any of the waiting readers, or the permit. *)
Inductive notified : shared -> shared -> Prop :=
  | notified_reader s i space :
      readers s !! i = Some (Waiting space) -> notified s (s {{ readers := <[i := Running space]> (readers s) }})
  | notified_permit s :
      (forall i space, readers s !! i <> Some (Waiting space)) -> notified s (s {{ permit := true }}).

Inductive shared_step : shared -> shared -> Prop :=
  | step_read s i space r b :
      readers s !! i = Some (Running space) -> Buffer.try_read space (sh_buffer s) = Ret (r, b) ->
      shared_step s (s {{ sh_buffer := b }}
        {{ readers := <[i := match r with Some r => Returned r | None => Unlocked space end]> (readers s) }})
  | step_wait s i space :
      readers s !! i = Some (Unlocked space) ->
      shared_step s (s {{ permit := false }}
        {{ readers := <[i := if permit s then Running space else Waiting space]> (readers s) }})
  | step_write s p r b :
      Buffer.write p (sh_buffer s) = Ret (r, false, b) -> shared_step s (s {{ sh_buffer := b }})
  | step_write_notify s p r b s' :
      Buffer.write p (sh_buffer s) = Ret (r, true, b) -> notified (s {{ sh_buffer := b }}) s' -> shared_step s s'
  | step_close s :
      shared_step s (s {{ sh_buffer := (Buffer.close (sh_buffer s)).2 }}
        {{ readers := if (Buffer.close (sh_buffer s)).1 then map wake (readers s) else readers s }}).

Definition one_reader (limit_count limit_size space : nat) : shared :=
  mkShared (Buffer.new limit_count limit_size) false [Running space].

(** A reader that nothing can wake. *)
Record stranded (space : nat) (s : shared) : Prop := mkStranded {
  str_closed : closed (sh_buffer s) = true;
  str_permit : permit s = false;
  str_reader : readers s !! 0 = Some (Waiting space) }.

Lemma closed_write p b r w b' : closed b = true -> Buffer.write p b = Ret (r, w, b') -> w = false /\ b' = b.
Proof. intros Hc. unfold Buffer.write. destruct (_ <=? _); [by intros [= _ <- <-]|]. rewrite Hc. by intros [= _ <- <-]. Qed.

Lemma try_read_closed space b r b' : Buffer.try_read space b = Ret (r, b') -> closed b' = closed b.
Proof.
  unfold Buffer.try_read. destruct (head b =? tail b); [by intros [= _ <-]|].
  intros H. repeat (apply bind_Ret_inv in H as (? & _ & H)). injection H as _ <-.
  by repeat match goal with |- context [if ?c then _ else _] => destruct c end.
Qed.

Lemma stranded_step space s s' : stranded space s -> shared_step s s' -> stranded space s'.
Proof.
  intros [H1 H2 H3] Hs. destruct Hs as [s i sp r b Hi Hr|s i sp Hi|s p r b Hw|s p r b s' Hw Hn|s].
  - split; [by rewrite <-H1, <-(try_read_closed _ _ _ _ Hr)|done|].
    match goal with |- readers ?x !! 0 = _ => change (readers x) with
      (<[i := match r with Some r => Returned r | None => Unlocked sp end]> (readers s)) end.
    rewrite list_lookup_insert_ne; [done|]. intros ->. congruence.
  - split; try done.
    match goal with |- readers ?x !! 0 = _ => change (readers x) with
      (<[i := if permit s then Running sp else Waiting sp]> (readers s)) end.
    rewrite list_lookup_insert_ne; [done|]. intros ->. congruence.
  - apply closed_write in Hw as [_ ->]; [|done]. by split.
  - by apply closed_write in Hw as [? _].
  - unfold Buffer.close. rewrite H1. by split.
Qed.

(** A lone reader that waits has an empty buffer in front of it and is known to the writers. *)
Definition will_see (s : shared) : Prop :=
  match readers s with
  | [Running _] | [Returned _] => True
  | [Unlocked _] => permit s = true \/ (head (sh_buffer s) = tail (sh_buffer s) /\ subs (sh_buffer s) = true)
  | [Waiting _] => head (sh_buffer s) = tail (sh_buffer s) /\ subs (sh_buffer s) = true
  | _ => False
  end.

Lemma grow_empty b b' :
  Buffer.grow b = Ret (inr b') -> subs b' = subs b /\ (head b = tail b -> head b' = tail b').
Proof.
  unfold Buffer.grow. cbv zeta. destruct (_ <=? length (data b)); [done|]. intros H.
  apply bind_Ret_inv in H as ([d n] & Hd & H). injection H as <-. split; [done|]. intros He. change (0 = n).
  unfold Buffer.relocate in Hd. cbv zeta in Hd. rewrite He, Nat.leb_refl in Hd.
  apply bind_Ret_inv in Hd as (? & _ & Hd). apply bind_Ret_inv in Hd as (? & _ & Hd). injection Hd as _ <-. lia.
Qed.

Lemma make_room_empty n : forall fuel b e b',
  Buffer.make_room fuel n b = Ret (e, b') -> subs b' = subs b /\ (head b = tail b -> head b' = tail b').
Proof.
  induction fuel as [|fuel IH]; intros b e b'; cbn [Buffer.make_room]; (destruct (Buffer.available n b); [by intros [= _ <-]|]); [done|].
  intros H. apply bind_Ret_inv in H as ([e1|b1] & Hg & H); [by injection H as _ <-|].
  apply grow_empty in Hg as [Hs He]. apply IH in H as [Hs' He']. split; [congruence|auto].
Qed.

(** A write that notifies nobody while a reader is known was refused. *)
Lemma silent_write p b r b' :
  Buffer.write p b = Ret (r, false, b') -> subs b = true -> subs b' = true /\ (head b = tail b -> head b' = tail b').
Proof.
  intros H Hs. unfold Buffer.write in H. destruct (_ <=? _); [by injection H as _ <-|].
  destruct (closed b); [by injection H as _ <-|]. destruct (_ || _); [by injection H as _ <-|].
  apply bind_Ret_inv in H as ([[e|] b1] & Hm & H); apply make_room_empty in Hm as [Hs1 He1].
  - injection H as _ <-. split; [congruence|done].
  - apply bind_Ret_inv in H as ([d t] & _ & H). injection H as _ Hf _. congruence.
Qed.

Lemma will_see_step s s' : will_see s -> shared_step s s' -> will_see s'.
Proof.
  intros Hw Hs. destruct Hs as [s i sp r b Hi Hr|s i sp Hi|s p r b Hp|s p r b s' Hp Hn|s]; unfold will_see in Hw.
  - destruct (readers s) as [|rd [|rd' rest]] eqn:Hrd; [done| |by destruct rd]. destruct i; [|done]. injection Hi as ->.
    unfold will_see. match goal with |- context [readers ?x] => change (readers x) with
      (<[0 := match r with Some r => Returned r | None => Unlocked sp end]> [Running sp]) end. cbn [insert list_insert].
    destruct r as [r|]; [done|]. right. unfold Buffer.try_read in Hr. destruct (Nat.eqb_spec (head (sh_buffer s)) (tail (sh_buffer s))).
    + injection Hr as _ <-. by split.
    + repeat (apply bind_Ret_inv in Hr as (? & _ & Hr)). done.
  - destruct (readers s) as [|rd [|rd' rest]] eqn:Hrd; [done| |by destruct rd]. destruct i; [|done]. injection Hi as ->.
    unfold will_see. match goal with |- context [readers ?x] => change (readers x) with
      (<[0 := if permit s then Running sp else Waiting sp]> [Unlocked sp]) end. cbn [insert list_insert].
    destruct (permit s); [done|]. by destruct Hw.
  - unfold will_see. change (readers (s {{ sh_buffer := b }})) with (readers s).
    destruct (readers s) as [|[|sp|sp|] [|]]; try done.
    + destruct Hw as [Hw|[He Hs]]; [by left|]. right. destruct (silent_write _ _ _ _ Hp Hs) as [H1 H2]. split; [by apply H2|done].
    + destruct Hw as [He Hs]. destruct (silent_write _ _ _ _ Hp Hs) as [H1 H2]. split; [by apply H2|done].
  - inversion Hn as [s1 i sp Hi Hs1 He|s1 Hno Hs1 He]; subst; clear Hn.
    + change (readers (s {{ sh_buffer := b }})) with (readers s) in Hi. unfold will_see.
      match goal with |- context [readers ?x] => change (readers x) with (<[i := Running sp]> (readers s)) end.
      destruct (readers s) as [|rd [|rd' rest]]; [done| |by destruct rd]. by destruct i.
    + unfold will_see. match goal with |- context [readers ?x] => change (readers x) with (readers s) end.
      destruct (readers s) as [|[|sp|sp|] [|]] eqn:Hrd; try done; [by left|].
      destruct (Hno 0 sp). change (readers (s {{ sh_buffer := b }})) with (readers s). by rewrite Hrd.
  - unfold will_see. match goal with |- context [readers ?x] => change (readers x) with
      (if (Buffer.close (sh_buffer s)).1 then map wake (readers s) else readers s) end.
    unfold Buffer.close. destruct (closed (sh_buffer s)); cbn [fst snd]; [exact Hw|].
    by destruct (readers s) as [|[|sp|sp|] [|]].
Qed.

(** A reader of the buffer does not miss a packet, but can miss the close. With one reader,
    in every interleaving of its reads and waits with writes and [close], a reader that waits
    has an empty buffer in front of it: a packet that arrives between the check and the wait is
    not lost. A close at that place is: the reader then waits although the buffer is closed, and
    whatever happens afterwards does not wake it. *)
Theorem reader_sees_packets_not_close limit_count limit_size space :
  (forall s, rtc shared_step (one_reader limit_count limit_size space) s ->
     readers s = [Waiting space] -> head (sh_buffer s) = tail (sh_buffer s))
  /\ exists s, rtc shared_step (one_reader limit_count limit_size space) s
       /\ closed (sh_buffer s) = true /\ readers s = [Waiting space]
       /\ forall s', rtc shared_step s s' -> readers s' !! 0 = Some (Waiting space).
Proof.
  split.
  - intros s Hs Hr. assert (will_see s) as Hw.
    { assert (will_see (one_reader limit_count limit_size space)) as H0 by done.
      revert H0. induction Hs as [|s1 s2 s3 H12 _ IH]; [done|]. intros H1. by apply IH, (will_see_step s1). }
    unfold will_see in Hw. rewrite Hr in Hw. apply Hw.
  - set (b0 := Buffer.new limit_count limit_size).
    exists (mkShared (b0 {{ subs := true }} {{ closed := true }}) false [Waiting space]). split_and!; [|done|done|].
    + eapply rtc_l; [by apply (step_read (mkShared b0 false [Running space]) 0 space None (b0 {{ subs := true }}))|].
      eapply rtc_l; [apply step_close|].
      eapply rtc_l; [by apply (step_wait (mkShared (b0 {{ subs := true }} {{ closed := true }}) false [Unlocked space]) 0 space)|].
      apply rtc_refl.
    + intros s' Hs'. apply str_reader. assert (stranded space (mkShared (b0 {{ subs := true }} {{ closed := true }}) false [Waiting space])) as H0 by done.
      revert H0. induction Hs' as [|s1 s2 s3 H12 _ IH]; [done|]. intros H1. by apply IH, (stranded_step _ s1).
Qed.
