(* ===== verification/IceCandidate.v ===== *)
(** * ICE candidates (vendored/webrtc-ice/src/candidate, network_type, tcp_type)

    A candidate is a transport address with a type; its priority, its comparison with
    others and its textual form, and pairs of candidates with their priority.  CRC-32C (of
    the crate crc) is a parameter; the random identifier of a candidate is an argument. *)

From stdpp Require Import base list gmap strings.
From Stdlib Require Import ZArith Lia.
From coqutil Require Import Datatypes.RecordSetters.
From S2P Require Import Prelude Utf8 Net IpParse Fallible.
Import DoubleBraceUpdate.
Local Open Scope Z_scope.
Local Open Scope list_scope.

Inductive IceError :=
  | ErrClosed | ErrMultipleStart | ErrRemoteUfragEmpty | ErrRemotePwdEmpty
  | ErrLocalUfragInsufficientBits | ErrLocalPwdInsufficientBits | ErrRestartWhenGathering
  | ErrAddressParseFailed | ErrDetermineNetworkType | ErrAttributeTooShortIceCandidate (len : nat)
  | ErrParseRelatedAddr | ErrParseType | ErrUnknownCandidateType (typ : string)
  | ErrParseInt | ErrParseIp | ErrMismatchUsername | ErrStun
  | ErrInvalidNat1to1IpMapping | ErrExternalMappedIpNotFound | ErrUnsupportedNat1to1IpCandidateType.

Inductive NetworkType := NetUnspecified | Udp4 | Udp6 | Tcp4 | Tcp6.
Inductive TcpType := TcpUnspecified | TcpActive | TcpPassive | TcpSimultaneousOpen.
Inductive CandidateType := TypeUnspecified | Host | ServerReflexive | PeerReflexive | Relay.

#[export] Instance NetworkType_eq_dec : EqDecision NetworkType.
Proof. solve_decision. Defined.
#[export] Instance TcpType_eq_dec : EqDecision TcpType.
Proof. solve_decision. Defined.
#[export] Instance CandidateType_eq_dec : EqDecision CandidateType.
Proof. solve_decision. Defined.

(** [network_type as u8], the key of the candidates' maps. *)
Definition u8_of_network (n : NetworkType) : Z :=
  match n with NetUnspecified => 0 | Udp4 => 1 | Udp6 => 2 | Tcp4 => 3 | Tcp6 => 4 end.

Definition show_network (n : NetworkType) : string :=
  match n with
  | Udp4 => "udp4" | Udp6 => "udp6" | Tcp4 => "tcp4" | Tcp6 => "tcp6" | NetUnspecified => "unspecified"
  end.

Definition is_tcp (n : NetworkType) : bool := match n with Tcp4 | Tcp6 => true | _ => false end.

Definition network_short (n : NetworkType) : string :=
  match n with Udp4 | Udp6 => "udp" | Tcp4 | Tcp6 => "tcp" | NetUnspecified => "Unspecified" end.

Definition is_ipv4 (a : IpAddr) : bool := match a with V4 _ => true | V6 _ => false end.

(** The first letters of [to_lowercase] are those of the ASCII one. *)
Definition determine_network_type (network : string) (ip : IpAddr) : fallible IceError NetworkType :=
  let net := to_lower network in
  if starts_with "udp" net then Ok (if is_ipv4 ip then Udp4 else Udp6)
  else if starts_with "tcp" net then Ok (if is_ipv4 ip then Tcp4 else Tcp6)
  else Err ErrDetermineNetworkType.

Definition tcp_type_of (raw : string) : TcpType :=
  if String.eqb raw "active" then TcpActive
  else if String.eqb raw "passive" then TcpPassive
  else if String.eqb raw "so" then TcpSimultaneousOpen
  else TcpUnspecified.

Definition show_tcp (t : TcpType) : string :=
  match t with
  | TcpActive => "active" | TcpPassive => "passive" | TcpSimultaneousOpen => "so" | TcpUnspecified => "unspecified"
  end.

Definition show_candidate_type (t : CandidateType) : string :=
  match t with
  | Host => "host" | ServerReflexive => "srflx" | PeerReflexive => "prflx" | Relay => "relay"
  | TypeUnspecified => "Unknown candidate type"
  end.

Definition preference (t : CandidateType) : Z :=
  match t with Host => 126 | PeerReflexive => 110 | ServerReflexive => 100 | Relay | TypeUnspecified => 0 end.

Definition contains_candidate_type (t : CandidateType) (l : list CandidateType) : bool := bool_decide (t ∈ l).

Record CandidateRelatedAddress := mkRelated { rel_address : string; rel_port : Z }.

#[export] Instance CandidateRelatedAddress_eq_dec : EqDecision CandidateRelatedAddress.
Proof. solve_decision. Defined.

(** [c_conn]: the candidate has a socket; [closed_open]: its channel of the close signal is there. *)
Record CandidateBase := mkCandidateBase {
  c_id : string;
  c_network_type : NetworkType;
  c_candidate_type : CandidateType;
  c_component : Z;
  c_address : string;
  c_port : Z;
  c_related_address : option CandidateRelatedAddress;
  c_tcp_type : TcpType;
  resolved_addr : SocketAddr;
  last_sent : Z;
  last_received : Z;
  c_conn : bool;
  closed_open : bool;
  foundation_override : string;
  priority_override : Z;
  c_network : string }.

Record CandidateBaseConfig := mkCandidateBaseConfig {
  cfg_candidate_id : string;
  cfg_network : string;
  cfg_address : string;
  cfg_port : Z;
  cfg_component : Z;
  cfg_priority : Z;
  cfg_foundation : string;
  cfg_conn : bool }.

Definition DEFAULT_LOCAL_PREFERENCE : Z := 65535.

Module Candidate.
Definition default : CandidateBase :=
  mkCandidateBase String.EmptyString NetUnspecified TypeUnspecified 0 String.EmptyString 0 None TcpUnspecified
    (mkSocketAddr (V4 [0; 0; 0; 0]) 0) 0 0 false false String.EmptyString 0 String.EmptyString.

Definition local_preference (c : CandidateBase) : Z :=
  if is_tcp (c_network_type c) then
    let other_pref := 8191 in
    let direction_pref :=
      match c_candidate_type c with
      | Host | Relay =>
          match c_tcp_type c with TcpActive => 6 | TcpPassive => 4 | TcpSimultaneousOpen => 2 | TcpUnspecified => 0 end
      | PeerReflexive | ServerReflexive =>
          match c_tcp_type c with TcpSimultaneousOpen => 6 | TcpActive => 4 | TcpPassive => 2 | TcpUnspecified => 0 end
      | TypeUnspecified => 0
      end in
    2 ^ 13 * direction_pref + other_pref
  else DEFAULT_LOCAL_PREFERENCE.

(** The subtraction and the sums are checked. *)
Definition priority (c : CandidateBase) : outcome Z :=
  if negb (priority_override c =? 0) then Ret (priority_override c)
  else
    a ← checked_u 32 (2 ^ 24 * preference (c_candidate_type c) + 2 ^ 8 * local_preference c);
    b ← checked_u 32 (256 - c_component c);
    checked_u 32 (a + b).

Definition equal (c d : CandidateBase) : bool :=
  bool_decide (c_network_type c = c_network_type d) && bool_decide (c_candidate_type c = c_candidate_type d)
  && String.eqb (c_address c) (c_address d) && (c_port c =? c_port d) && bool_decide (c_tcp_type c = c_tcp_type d)
  && bool_decide (c_related_address c = c_related_address d).

(** [seen] at a time since the epoch. *)
Definition seen (outbound : bool) (now : Z) (c : CandidateBase) : CandidateBase :=
  if outbound then c {{ last_sent := as_u 64 (Z.max 0 now) }} else c {{ last_received := as_u 64 (Z.max 0 now) }}.

Definition set_ip (ip : IpAddr) (c : CandidateBase) : fallible IceError CandidateBase :=
  network_type ← determine_network_type (c_network c) ip;
  Ok (c {{ c_network_type := network_type }} {{ resolved_addr := mkSocketAddr ip (c_port c) }}).

(** The sockets are closed with it; closing twice is an error. *)
Definition close (c : CandidateBase) : fallible IceError CandidateBase :=
  if closed_open c then Ok (c {{ closed_open := false }}) else Err ErrClosed.

Section crc.
  Context (crc32c : bytes -> Z).

Definition foundation (c : CandidateBase) : string :=
  if negb (String.eqb (foundation_override c) String.EmptyString) then foundation_override c
  else
    decimal (crc32c (bytes_of_string (show_candidate_type (c_candidate_type c)) ++ bytes_of_string (c_address c)
                     ++ bytes_of_string (show_network (c_network_type c)))).

Definition tcp_suffix (c : CandidateBase) : list string :=
  match c_tcp_type c with TcpUnspecified => [] | t => ["tcptype"; show_tcp t] end.

Definition related_suffix (c : CandidateBase) : list string :=
  match c_related_address c with Some r => ["raddr"; rel_address r; "rport"; decimal (rel_port r)] | None => [] end.

(** The words are separated by one space each. *)
Definition marshal (c : CandidateBase) : outcome string :=
  p ← priority c;
  Ret (join " " ([foundation c; decimal (c_component c); network_short (c_network_type c); decimal p;
                  c_address c; decimal (c_port c); "typ"; show_candidate_type (c_candidate_type c)]
                 ++ tcp_suffix c ++ related_suffix c)).
End crc.

(** The candidates of a configuration; [fresh] is [generate_cand_id()]. *)
Definition id_of (fresh : string) (b : CandidateBaseConfig) : string :=
  if String.eqb (cfg_candidate_id b) String.EmptyString then fresh else cfg_candidate_id b.

Definition new_candidate_host (fresh : string) (b : CandidateBaseConfig) (tcp_type : TcpType) : fallible IceError CandidateBase :=
  let c := mkCandidateBase (id_of fresh b) Udp4 Host (cfg_component b) (cfg_address b) (cfg_port b) None tcp_type
             (mkSocketAddr (V4 [0; 0; 0; 0]) 0) 0 0 (cfg_conn b) false (cfg_foundation b) (cfg_priority b) (cfg_network b) in
  if ends_with ".local" (cfg_address b) then Ok c
  else match parse_ip (cfg_address b) with Some ip => set_ip ip c | None => Err ErrParseIp end.

(** The bodies of [new_candidate_peer_reflexive], [_server_reflexive] and [_relay] differ in the type. *)
Definition new_candidate_reflexive (typ : CandidateType) (fresh : string) (b : CandidateBaseConfig)
    (rel_addr : string) (rel_port : Z) : fallible IceError CandidateBase :=
  match parse_ip (cfg_address b) with
  | None => Err ErrAddressParseFailed
  | Some ip =>
      network_type ← determine_network_type (cfg_network b) ip;
      Ok (mkCandidateBase (id_of fresh b) network_type typ (cfg_component b) (cfg_address b) (cfg_port b)
            (Some (mkRelated rel_addr rel_port)) TcpUnspecified (mkSocketAddr ip (cfg_port b)) 0 0 (cfg_conn b) false
            (cfg_foundation b) (cfg_priority b) String.EmptyString)
  end.

Definition new_candidate_peer_reflexive := new_candidate_reflexive PeerReflexive.
Definition new_candidate_server_reflexive := new_candidate_reflexive ServerReflexive.
Definition new_candidate_relay := new_candidate_reflexive Relay.

(** [s.parse::<u16>()?] and [parse::<u32>()?] *)
Definition parse_uint (w : Z) (s : string) : fallible IceError Z :=
  match parse_u64 s with
  | Some n => if n <? 2 ^ w then Ok n else Err ErrParseInt
  | None => Err ErrParseInt
  end.

(** What follows the type: a related address or a TCP type. *)
Definition parse_extension (split2 : list string) : fallible IceError (string * Z * TcpType) :=
  match split2 with
  | [] => Ok (String.EmptyString, 0, TcpUnspecified)
  | key :: rest =>
      if String.eqb key "raddr" then
        match rest with
        | a :: _ :: p :: _ => rel_port ← parse_uint 16 p; Ok (a, rel_port, TcpUnspecified)
        | _ => Err ErrParseRelatedAddr
        end
      else if String.eqb key "tcptype" then
        match rest with
        | t :: _ => Ok (String.EmptyString, 0, tcp_type_of t)
        | [] => Err ErrParseType
        end
      else Ok (String.EmptyString, 0, TcpUnspecified)
  end.

Definition unmarshal_candidate (fresh raw : string) : fallible IceError CandidateBase :=
  let split := split_whitespace raw in
  match split with
  | foundation :: comp :: network :: prio :: address :: po :: _ :: typ :: split2 =>
      component ← parse_uint 16 comp;
      priority ← parse_uint 32 prio;
      port ← parse_uint 16 po;
      '(rel_addr, rel_port, tcp_type) ← parse_extension split2;
      let b := mkCandidateBaseConfig String.EmptyString network address port component priority foundation false in
      if String.eqb typ "host" then new_candidate_host fresh b tcp_type
      else if String.eqb typ "srflx" then new_candidate_server_reflexive fresh b rel_addr rel_port
      else if String.eqb typ "prflx" then new_candidate_peer_reflexive fresh b rel_addr rel_port
      else if String.eqb typ "relay" then new_candidate_relay fresh b rel_addr rel_port
      else Err (ErrUnknownCandidateType typ)
  | _ => Err (ErrAttributeTooShortIceCandidate (length split))
  end.
End Candidate.

(** ** Pairs *)

Inductive CandidatePairState := PairUnspecified | PairWaiting | PairInProgress | PairFailed | PairSucceeded.

#[export] Instance CandidatePairState_eq_dec : EqDecision CandidatePairState.
Proof. solve_decision. Defined.

(** [2^32 - 1] times the minimum, twice the maximum, one for the larger controlling side. *)
Definition pair_priority (controlling : bool) (local remote : CandidateBase) : outcome Z :=
  l ← Candidate.priority local;
  r ← Candidate.priority remote;
  let '(g, d) := if controlling then (l, r) else (r, l) in
  a ← checked_u 64 ((2 ^ 32 - 1) * Z.min g d);
  b ← checked_u 64 (2 * Z.max g d);
  s ← checked_u 64 (a + b);
  checked_u 64 (s + Z.b2z (d <? g)).

(** ** Words *)

Definition is_word (s : string) : Prop := s <> String.EmptyString /\ Forall visible (bytes_of_string s).

Lemma split_ws_visible w rest acc :
  Forall visible w -> split_ws_bytes 0 acc (w ++ rest) = split_ws_bytes 0 (reverse w ++ acc) rest.
Proof.
  intros Hw. revert acc. induction Hw as [|b w Hb Hw IH]; intros acc; [done|]. cbn [app split_ws_bytes].
  rewrite ws_len_visible by done. rewrite IH. by rewrite reverse_cons, <-(assoc_L (++)).
Qed.

Lemma split_whitespace_join ws : Forall is_word ws -> split_whitespace (join " " ws) = ws.
Proof.
  assert (forall w, is_word w -> reverse (bytes_of_string w) <> []) as Hne.
  { intros w [Hw _] He. apply Hw. apply (f_equal reverse) in He. rewrite reverse_involutive in He.
    rewrite <-(string_of_bytes_of_string w), He. done. }
  intros Hws. unfold split_whitespace. induction Hws as [|w ws [Hw Hv] Hws IH]; [done|].
  pose proof (Hne w (conj Hw Hv)) as Hr. destruct ws as [|w' ws].
  - cbn [join]. rewrite <-(app_nil_r (bytes_of_string w)), split_ws_visible, app_nil_r by done.
    cbn [split_ws_bytes]. destruct (reverse (bytes_of_string w)) eqn:E; [done|]. rewrite <-E, reverse_involutive.
    cbn [map]. by rewrite string_of_bytes_of_string.
  - change (join " " (w :: w' :: ws)) with (w +:+ (" " +:+ join " " (w' :: ws)))%string.
    rewrite !bytes_of_append, split_ws_visible, app_nil_r by done.
    change (bytes_of_string " ") with [32]. cbn [app split_ws_bytes ws_len].
    destruct (reverse (bytes_of_string w)) eqn:E; [done|]. rewrite <-E, reverse_involutive.
    cbn [app map]. by rewrite string_of_bytes_of_string, IH.
Qed.

Lemma decimal_word z : 0 <= z < 2 ^ 64 -> is_word (decimal z).
Proof.
  intros Hz. split.
  - intros He. pose proof (parse_u64_decimal z Hz) as Hp. by rewrite He in Hp.
  - eapply Forall_impl; [apply decimal_digits; lia|]. unfold is_digit, visible. lia.
Qed.

Lemma literal_word s : forallb (fun b => (33 <=? b) && (b <=? 126)) (bytes_of_string s) = true ->
  s <> String.EmptyString -> is_word s.
Proof.
  intros H Hs. split; [done|]. apply Forall_forall. intros b Hb. rewrite forallb_forall in H.
  specialize (H b (proj1 (list_elem_of_In _ _) Hb)). unfold visible. lia.
Qed.

(** ** Round trip of candidates *)

Module CandidateText.
Import Candidate.

Lemma parse_uint_decimal w z : 0 < w <= 64 -> is_u w z -> parse_uint w (decimal z) = Ok z.
Proof.
  intros Hw [H1 H2]. unfold parse_uint. assert (2 ^ w <= 2 ^ 64) by (apply Z.pow_le_mono_r; lia).
  rewrite parse_u64_decimal by lia. by rewrite (proj2 (Z.ltb_lt _ _)).
Qed.

Lemma priority_range c p : is_u 32 (priority_override c) -> priority c = Ret p -> is_u 32 p.
Proof.
  intros Ho. unfold priority. destruct (negb _); [by intros [= <-]|].
  destruct (checked_u 32 (_ + _)) as [a|?|]; [|done..]. rewrite bind_Ret.
  destruct (checked_u 32 (256 - _)) as [b|?|]; [|done..]. rewrite bind_Ret. by intros [-> H]%checked_u_inv.
Qed.

(** What a candidate is made of when it comes from a configuration or a line. *)
Record printable (crc32c : bytes -> Z) (ip : IpAddr) (c : CandidateBase) : Prop := mkPrintable {
  pr_component : is_u 16 (c_component c);
  pr_port : is_u 16 (c_port c);
  pr_override : is_u 32 (priority_override c);
  pr_foundation : is_word (foundation crc32c c);
  pr_address : is_word (c_address c);
  pr_ip : parse_ip (c_address c) = Some ip;
  pr_local : ends_with ".local" (c_address c) = false;
  pr_network : determine_network_type (network_short (c_network_type c)) ip = Ok (c_network_type c);
  pr_kind : match c_candidate_type c with
            | Host => c_related_address c = None
            | TypeUnspecified => False
            | _ => c_tcp_type c = TcpUnspecified
                   /\ exists r, c_related_address c = Some r /\ is_word (rel_address r) /\ is_u 16 (rel_port r)
            end }.

Lemma network_word n : is_word (network_short n).
Proof. destruct n; by apply literal_word. Qed.

Lemma type_word t : t <> TypeUnspecified -> is_word (show_candidate_type t).
Proof. intros Ht. destruct t; [done|by apply literal_word..]. Qed.

Lemma tcp_type_show t : tcp_type_of (show_tcp t) = t.
Proof. by destruct t. Qed.

Section crc.
  Context (crc32c : bytes -> Z).

Lemma marshal_words ip c p :
  printable crc32c ip c -> priority c = Ret p ->
  exists s, marshal crc32c c = Ret s
    /\ split_whitespace s = [foundation crc32c c; decimal (c_component c); network_short (c_network_type c); decimal p;
         c_address c; decimal (c_port c); "typ"; show_candidate_type (c_candidate_type c)] ++ tcp_suffix c ++ related_suffix c.
Proof using Type.
  intros [H1 H2 H3 H4 H5 H6 H7 H8 H9] Hp. pose proof (priority_range c p H3 Hp) as Hp32.
  eexists. split; [unfold marshal; by rewrite Hp|]. apply split_whitespace_join. unfold is_u in *.
  assert (is_word "typ" /\ is_word "tcptype" /\ is_word "raddr" /\ is_word "rport") as (W1 & W2 & W3 & W4)
    by (split_and!; by apply literal_word).
  assert (c_candidate_type c <> TypeUnspecified) by (intros He; by rewrite He in H9).
  repeat apply Forall_cons_2; try apply decimal_word; try apply network_word; try apply type_word; try done; try lia.
  apply Forall_app. split.
  - unfold tcp_suffix. destruct (c_tcp_type c); repeat apply Forall_cons_2; try apply Forall_nil_2; by apply literal_word.
  - unfold related_suffix. destruct (c_related_address c) as [r|] eqn:Hr; [|constructor].
    assert (is_word (rel_address r) /\ is_u 16 (rel_port r)) as [Wr Ur].
    { destruct (c_candidate_type c); try done; destruct H9 as [_ (r' & [= <-] & ? & ?)]; done. }
    unfold is_u in Ur. repeat apply Forall_cons_2; try apply Forall_nil_2; try done. apply decimal_word. lia.
Qed.

End crc.
End CandidateText.

(** ** Priorities *)

Lemma pair_priority_value (controlling : bool) l r p q :
  Candidate.priority l = Ret p -> Candidate.priority r = Ret q -> is_u 32 p -> is_u 32 q ->
  let z := (2 ^ 32 - 1) * Z.min p q + 2 * Z.max p q + Z.b2z (if controlling then q <? p else p <? q) in
  pair_priority controlling l r = Ret z /\ is_u 64 z.
Proof.
  intros Hl Hr [Hp1 Hp2] [Hq1 Hq2]. unfold pair_priority. rewrite Hl, Hr, !bind_Ret.
  assert (forall g d, 0 <= g < 2 ^ 32 -> 0 <= d < 2 ^ 32 ->
    let z := (2 ^ 32 - 1) * Z.min g d + 2 * Z.max g d + Z.b2z (d <? g) in
    (a ← checked_u 64 ((2 ^ 32 - 1) * Z.min g d); b ← checked_u 64 (2 * Z.max g d);
     s ← checked_u 64 (a + b); checked_u 64 (s + Z.b2z (d <? g))) = Ret z /\ is_u 64 z) as H.
  { intros g d Hg Hd z. change (2 ^ 32) with 4294967296 in *. change (2 ^ 64) with 18446744073709551616 in *. assert (is_u 64 z) as Hz by (unfold z, is_u; destruct (Z.ltb_spec d g); cbn [Z.b2z]; lia).
    split; [|done]. rewrite (checked_u_Ret _ ((_ - 1) * _)), bind_Ret by (unfold is_u; lia).
    rewrite (checked_u_Ret _ (2 * _)), bind_Ret by (unfold is_u; lia). rewrite (checked_u_Ret _ (_ + 2 * _)), bind_Ret by (unfold is_u; lia).
    by apply checked_u_Ret. }
  destruct controlling; [by apply H|]. rewrite (Z.min_comm p), (Z.max_comm p). by apply H.
Qed.

(** The two agents order their pairs alike. The priority of a pair never overflows 64 bits,
    and the controlling and the controlled agent, who see the two candidates in opposite roles,
    compute the same number; a pair both of whose candidates have higher priorities has the
    higher one. *)
Theorem pair_priority_agrees l r p q :
  Candidate.priority l = Ret p -> Candidate.priority r = Ret q -> is_u 32 p -> is_u 32 q ->
  exists z, pair_priority true l r = Ret z /\ pair_priority false r l = Ret z /\ is_u 64 z
    /\ forall l' r' p' q' z', Candidate.priority l' = Ret p' -> Candidate.priority r' = Ret q' ->
         is_u 32 p' -> is_u 32 q' -> p < p' -> q < q' -> pair_priority true l' r' = Ret z' -> z < z'.
Proof.
  intros Hl Hr Hp Hq. destruct (pair_priority_value true l r p q Hl Hr Hp Hq) as [H1 Hz].
  destruct (pair_priority_value false r l q p Hr Hl Hq Hp) as [H2 _].
  rewrite (Z.min_comm q), (Z.max_comm q) in H2. eexists. split; [exact H1|]. split; [exact H2|]. split; [exact Hz|].
  intros l' r' p' q' z' Hl' Hr' Hp' Hq' Hpp Hqq Hz'.
  destruct (pair_priority_value true l' r' p' q' Hl' Hr' Hp' Hq') as [H3 _]. rewrite H3 in Hz'. injection Hz' as <-.
  unfold is_u in *. clear H1 H2 H3 Hz Hl Hr Hl' Hr'.
  destruct (Z.ltb_spec q p), (Z.ltb_spec q' p'); cbn [Z.b2z]; lia.
Qed.

Definition demo_host : CandidateBase :=
  mkCandidateBase "a" Udp4 Host 1 "192.0.2.1" 5000 None TcpUnspecified (mkSocketAddr (V4 [192; 0; 2; 1]) 5000)
    0 0 true true String.EmptyString 0 "udp".

Definition demo_srflx : CandidateBase :=
  mkCandidateBase "b" Udp4 ServerReflexive 1 "198.51.100.7" 6000 (Some (mkRelated "192.0.2.1" 5000)) TcpUnspecified
    (mkSocketAddr (V4 [198; 51; 100; 7]) 6000) 0 0 true true "3" 77 "udp".


(** A line that the parser accepts can make the priority of its candidate panic: with a
    priority of 0 and a component over 256 the formula subtracts past zero, and with it every
    computation of the priority of a pair with such a remote candidate ends in an overflow. *)
Theorem accepted_candidate_panics c local controlling p :
  priority_override c = 0 -> 256 < c_component c -> Candidate.priority local = Ret p ->
  pair_priority controlling local c = Panic ArithmeticOverflow.
Proof.
  intros Ho Hc Hl. unfold pair_priority. rewrite Hl, bind_Ret.
  assert (Candidate.priority c = Panic ArithmeticOverflow) as ->; [|done].
  unfold Candidate.priority. rewrite Ho. cbn [Z.eqb negb].
  assert (is_u 16 (Candidate.local_preference c)) as [H1 H2].
  { unfold Candidate.local_preference, DEFAULT_LOCAL_PREFERENCE, is_u.
    destruct (is_tcp _); [|lia]. destruct (c_candidate_type c), (c_tcp_type c); lia. }
  assert (0 <= preference (c_candidate_type c) <= 126) by (by destruct (c_candidate_type c)).
  change (2 ^ 24) with 16777216. change (2 ^ 8) with 256. change (2 ^ 16) with 65536 in H2.
  rewrite (checked_u_Ret _ (_ + _)), bind_Ret by (unfold is_u; change (2 ^ 32) with 4294967296; lia).
  by rewrite checked_u_panic by (unfold is_u; lia).
Qed.

