(* ===== verification/IceAgent.v ===== *)
(** * The ICE agent (vendored/webrtc-ice/src/agent)

    Connectivity checks between candidates: agent_internal.rs, agent_selector.rs, the parts of
    agent_transport.rs and mod.rs that change the agent.  Candidates and pairs are shared
    ([Arc]); the agent's fields hold their numbers in two stores.  Messages of STUN, the
    crate stun, are the class [Stun]; whether a socket sends is the parameter [send_ok];
    random identifiers are sequences.  Every handler has the time as an argument. *)

From stdpp Require Import base list gmap strings.
From Stdlib Require Import ZArith Lia.
From coqutil Require Import Datatypes.RecordSetters.
From S2P Require Import Prelude Utf8 Net IpParse Fallible PacketBuffer IceCandidate.
Import DoubleBraceUpdate.
Local Open Scope Z_scope.
Local Open Scope list_scope.

(** ** STUN messages *)

Inductive StunClass := ClassRequest | ClassIndication | ClassSuccess | ClassError.
Inductive StunAttr := AttrUsername | AttrPriority | AttrUseCandidate | AttrIceControlled | AttrIceControlling.

#[export] Instance StunClass_eq_dec : EqDecision StunClass.
Proof. solve_decision. Defined.
#[export] Instance StunAttr_eq_dec : EqDecision StunAttr.
Proof. solve_decision. Defined.

(** What [Message::build] is given. *)
Inductive Setter (Message : Type) :=
  | SetBinding (c : StunClass)
  | SetTransactionId (id : Z)
  | SetCopy (m : Message)
  | SetUsername (s : string)
  | SetAttr (t : StunAttr) (v : bytes)
  | SetXorMappedAddress (a : SocketAddr)
  | SetIntegrity (key : string)
  | SetFingerprint.
Arguments SetBinding {_} c.
Arguments SetTransactionId {_} id.
Arguments SetCopy {_} m.
Arguments SetUsername {_} s.
Arguments SetAttr {_} t v.
Arguments SetXorMappedAddress {_} a.
Arguments SetIntegrity {_} key.
Arguments SetFingerprint {_}.

Class Stun := {
  Message : Type;
  build : list (Setter Message) -> option Message;
  raw : Message -> bytes;
  decode : bytes -> option Message;
  is_message : bytes -> bool;
  is_binding : Message -> bool;
  class_of : Message -> StunClass;
  transaction_id : Message -> Z;
  contains : StunAttr -> Message -> bool;
  username : Message -> option string;
  integrity_ok : string -> Message -> bool }.

(** *** The attributes of ICE (priority, control, use_candidate) *)

Definition PRIORITY_SIZE : nat := 4.
Definition TIE_BREAKER_SIZE : nat := 8.
Definition PriorityAttr {M} (p : Z) : Setter M := SetAttr AttrPriority (to_be_bytes PRIORITY_SIZE p).
Definition AttrControlled {M} (tie : Z) : Setter M := SetAttr AttrIceControlled (to_be_bytes TIE_BREAKER_SIZE tie).
Definition AttrControlling {M} (tie : Z) : Setter M := SetAttr AttrIceControlling (to_be_bytes TIE_BREAKER_SIZE tie).
Definition UseCandidateAttr {M} : Setter M := SetAttr AttrUseCandidate [].

(** ** The agent *)

Inductive ConnectionState :=
  | StateUnspecified | StateNew | Checking | Connected | Completed | Failed | Disconnected | StateClosed.
Inductive GatheringState := GatherUnspecified | GatherNew | Gathering | GatherComplete.

#[export] Instance ConnectionState_eq_dec : EqDecision ConnectionState.
Proof. solve_decision. Defined.
#[export] Instance GatheringState_eq_dec : EqDecision GatheringState.
Proof. solve_decision. Defined.

Record UfragPwd := mkUfragPwd {
  local_ufrag : string;
  local_pwd : string;
  remote_ufrag : string;
  remote_pwd : string }.

Record BindingRequest := mkBindingRequest {
  timestamp : Z;
  br_transaction_id : Z;
  destination : SocketAddr;
  is_use_candidate : bool }.

Record CandidatePair := mkCandidatePair {
  ice_role_controlling : bool;
  p_remote : nat;
  p_local : nat;
  binding_request_count : Z;
  p_state : CandidatePairState;
  nominated : bool;
  nominate_on_binding_success : bool }.

(** Durations are nanoseconds. *)
Record Timeouts := mkTimeouts {
  max_binding_requests : Z;
  host_acceptance_min_wait : Z;
  srflx_acceptance_min_wait : Z;
  prflx_acceptance_min_wait : Z;
  relay_acceptance_min_wait : Z;
  disconnected_timeout : Z;
  failed_timeout : Z;
  keepalive_interval : Z;
  check_interval : Z }.

Definition millis (n : Z) : Z := n * 1000000.
Definition MAX_BINDING_REQUEST_TIMEOUT : Z := millis 4000.
Definition MAX_BUFFER_SIZE : nat := 1000 * 1000.
Definition DEFAULT_CHECK_INTERVAL : Z := millis 200.

(** [init_with_defaults]: what is not configured. *)
Definition defaults : Timeouts :=
  mkTimeouts 7 0 (millis 500) (millis 1000) (millis 2000) (millis 5000) (millis 25000) (millis 2000)
    DEFAULT_CHECK_INTERVAL.

(** [states_sent], [pair_changes], [candidates_sent]: what went into the channels of the
    handlers; [sent]: what the sockets of local candidates sent, and where. *)
Record AgentInternal := mkAgentInternal {
  on_connected_tx : bool;
  done_tx : bool;
  forced : bool;
  chan_candidate_tx : bool;
  chan_candidate_pair_tx : bool;
  chan_state_tx : bool;
  tie_breaker : Z;
  is_controlling : bool;
  lite : bool;
  start_time : Z;
  nominated_pair : option nat;
  connection_state : ConnectionState;
  started_ch_tx : bool;
  ufrag_pwd : UfragPwd;
  local_candidates : gmap Z (list nat);
  remote_candidates : gmap Z (list nat);
  pending_binding_requests : list BindingRequest;
  selected_pair : option nat;
  checklist : list nat;
  buffer : BufferInternal;
  conn_done : bool;
  bytes_received : Z;
  bytes_sent : Z;
  gathering_state : GatheringState;
  timeouts : Timeouts;
  ids : nat;
  cands : list CandidateBase;
  pairs : list CandidatePair;
  states_sent : list ConnectionState;
  pair_changes : nat;
  candidates_sent : list nat;
  sent : list (nat * SocketAddr * bytes) }.

(** Two clocks: [Instant::now()] and [SystemTime::now()] since the epoch. *)
Record Clock := mkClock { instant : Z; system : Z }.

(** [a.duration_since(b)] with zero for a [b] that is later. *)
Definition since (now t : Z) : Z := Z.max 0 (now - t).

Definition ice (A : Type) : Type := AgentInternal -> outcome (A * AgentInternal).

#[export] Instance ice_ret : MRet ice := fun A a s => Ret (a, s).
#[export] Instance ice_bind : MBind ice := fun A B f m s => '(a, s) ← m s; f a s.

Definition get : ice AgentInternal := fun s => Ret (s, s).
Definition modify (f : AgentInternal -> AgentInternal) : ice unit := fun s => Ret (tt, f s).
Definition run {A} (m : outcome A) : ice A := fun s => a ← m; Ret (a, s).
Definition when (b : bool) (m : ice unit) : ice unit := if b then m else mret tt.

Fixpoint for_all {A} (l : list A) (body : A -> ice unit) : ice unit :=
  match l with
  | [] => mret tt
  | a :: l => _ ← body a; for_all l body
  end.

(** The candidate and the pair of a number; a number that is not there does not occur. *)
Definition cand (a : AgentInternal) (h : nat) : CandidateBase := default Candidate.default (cands a !! h).
Definition pair_of (a : AgentInternal) (p : nat) : CandidatePair :=
  default (mkCandidatePair false 0 0 0 PairWaiting false false) (pairs a !! p).

Definition update_cand (h : nat) (f : CandidateBase -> CandidateBase) : ice unit :=
  modify (fun a => a {{ cands := alter f h (cands a) }}).
Definition update_pair (p : nat) (f : CandidatePair -> CandidatePair) : ice unit :=
  modify (fun a => a {{ pairs := alter f p (pairs a) }}).

Section agent.
  Context {stun : Stun} (random_id : nat -> Z) (cand_id : nat -> string)
    (send_ok : nat -> SocketAddr -> bytes -> bool).

(** [TransactionId::new()] *)
Definition new_transaction_id : ice Z :=
  a ← get;
  _ ← modify (fun a => a {{ ids := S (ids a) }});
  mret (random_id (ids a)).

(** ** Sending *)

(** [local.write_to(raw, remote)], with the error logged by its callers. *)
Definition write_to (now : Clock) (b : bytes) (local : nat) (dst : SocketAddr) : ice bool :=
  a ← get;
  let conn := c_conn (cand a local) in
  if conn && negb (send_ok local dst b) then mret false
  else
    _ ← when conn (modify (fun a => a {{ sent := sent a ++ [(local, dst, b)] }}));
    _ ← update_cand local (Candidate.seen true (system now));
    mret true.

Definition send_stun (now : Clock) (m : Message) (local remote : nat) : ice unit :=
  a ← get;
  _ ← write_to now (raw m) local (resolved_addr (cand a remote));
  mret tt.

(** Requests that are too old are dropped; one from the future stays. *)
Definition invalidate_pending_binding_requests (filter_time : Z) : ice unit :=
  modify (fun a => a {{ pending_binding_requests :=
    filter (fun r => bool_decide (filter_time < timestamp r) || (filter_time - timestamp r <? MAX_BINDING_REQUEST_TIMEOUT))
      (pending_binding_requests a) }}).

Definition send_binding_request (now : Clock) (m : Message) (local remote : nat) : ice unit :=
  _ ← invalidate_pending_binding_requests (instant now);
  _ ← modify (fun a => a {{ pending_binding_requests := pending_binding_requests a
        ++ [mkBindingRequest (instant now) (transaction_id m) (resolved_addr (cand a remote)) (contains AttrUseCandidate m)] }});
  send_stun now m local remote.

Definition send_binding_success (now : Clock) (m : Message) (local remote : nat) : ice unit :=
  a ← get;
  let addr := resolved_addr (cand a remote) in
  match build [SetCopy m; SetBinding ClassSuccess; SetXorMappedAddress addr; SetIntegrity (local_pwd (ufrag_pwd a)); SetFingerprint] with
  | None => mret tt
  | Some out => send_stun now out local remote
  end.

Definition request_username (a : AgentInternal) : string :=
  (remote_ufrag (ufrag_pwd a) +:+ ":" +:+ local_ufrag (ufrag_pwd a))%string.

(** The message of a check: of [nominate_pair] with USE-CANDIDATE, of [ping_candidate] without. *)
Definition check_setters (a : AgentInternal) (id : Z) (use_candidate controlling : bool) (priority : Z) : list (Setter Message) :=
  [SetBinding ClassRequest; SetTransactionId id; SetUsername (request_username a)]
  ++ (if use_candidate then [UseCandidateAttr] else [])
  ++ [(if controlling then AttrControlling else AttrControlled) (tie_breaker a); PriorityAttr priority;
      SetIntegrity (remote_pwd (ufrag_pwd a)); SetFingerprint].

Definition nominate_pair (now : Clock) : ice unit :=
  a ← get;
  match nominated_pair a with
  | None => mret tt
  | Some p =>
      let pair := pair_of a p in
      id ← new_transaction_id;
      priority ← run (Candidate.priority (cand a (p_local pair)));
      match build (check_setters a id true true priority) with
      | None => mret tt
      | Some msg => send_binding_request now msg (p_local pair) (p_remote pair)
      end
  end.

Definition ping_candidate (now : Clock) (local remote : nat) : ice unit :=
  a ← get;
  id ← new_transaction_id;
  priority ← run (Candidate.priority (cand a local));
  match build (check_setters a id false (is_controlling a) priority) with
  | None => mret tt
  | Some msg => send_binding_request now msg local remote
  end.

(** ** Candidates, pairs and the state *)

Definition all_of (m : gmap Z (list nat)) : list nat := concat (map snd (map_to_list m)).

(** [c.close()] with the error logged. *)
Definition close_cand (c : CandidateBase) : CandidateBase :=
  match Candidate.close c with Ok c => c | _ => c end.

Definition delete_all_candidates : ice unit :=
  a ← get;
  _ ← for_all (all_of (local_candidates a)) (fun h => update_cand h close_cand);
  _ ← modify (fun a => a {{ local_candidates := ∅ }});
  _ ← for_all (all_of (remote_candidates a)) (fun h => update_cand h close_cand);
  modify (fun a => a {{ remote_candidates := ∅ }}).

Definition update_connection_state (new_state : ConnectionState) : ice unit :=
  a ← get;
  if bool_decide (connection_state a = new_state) then mret tt
  else
    _ ← when (bool_decide (new_state = Failed)) delete_all_candidates;
    _ ← modify (fun a => a {{ connection_state := new_state }});
    when (chan_state_tx a) (modify (fun a => a {{ states_sent := states_sent a ++ [new_state] }})).

Definition set_selected_pair (p : option nat) : ice unit :=
  match p with
  | Some p =>
      _ ← update_pair p (fun pair => pair {{ nominated := true }});
      _ ← modify (fun a => a {{ selected_pair := Some p }});
      _ ← update_connection_state Connected;
      _ ← modify (fun a => if chan_candidate_pair_tx a then a {{ pair_changes := S (pair_changes a) }} else a);
      modify (fun a => a {{ on_connected_tx := false }})
  | None => modify (fun a => a {{ selected_pair := None }})
  end.

Definition request_connectivity_check : ice unit := modify (fun a => a {{ forced := true }}).

Definition add_pair (local remote : nat) : ice unit :=
  modify (fun a =>
    a {{ pairs := pairs a ++ [mkCandidatePair (is_controlling a) remote local 0 PairWaiting false false] }}
      {{ checklist := checklist a ++ [length (pairs a)] }}).

Definition is_pair (a : AgentInternal) (local remote p : nat) : bool :=
  Candidate.equal (cand a (p_local (pair_of a p))) (cand a local)
  && Candidate.equal (cand a (p_remote (pair_of a p))) (cand a remote).

Definition find_pair (a : AgentInternal) (local remote : nat) : option nat :=
  List.find (is_pair a local remote) (checklist a).

Definition new_cand (c : CandidateBase) : ice nat :=
  a ← get;
  _ ← modify (fun a => a {{ cands := cands a ++ [c] }});
  mret (length (cands a)).

(** [cands.push(..)] of the entry of a network type *)
Definition push_cand (n : NetworkType) (h : nat) (m : gmap Z (list nat)) : gmap Z (list nat) :=
  <[u8_of_network n := default [] (m !! u8_of_network n) ++ [h]]> m.

Definition of_network (n : NetworkType) (m : gmap Z (list nat)) : list nat := default [] (m !! u8_of_network n).

Definition add_remote_candidate (c : nat) : ice unit :=
  a ← get;
  let network_type := c_network_type (cand a c) in
  if existsb (fun h => Candidate.equal (cand a h) (cand a c)) (of_network network_type (remote_candidates a)) then mret tt
  else
    _ ← modify (fun a => a {{ remote_candidates := push_cand network_type c (remote_candidates a) }});
    _ ← for_all (of_network network_type (local_candidates a)) (fun h => add_pair h c);
    request_connectivity_check.

(** [start_candidate] gives it the channel of the close signal; its receive loop is
    [handle_inbound_candidate_msg] for every datagram. *)
Definition start_candidate (c : nat) : ice unit := update_cand c (fun x => x {{ closed_open := true }}).

Definition add_candidate (c : nat) : ice unit :=
  _ ← start_candidate c;
  a ← get;
  let network_type := c_network_type (cand a c) in
  if existsb (fun h => Candidate.equal (cand a h) (cand a c)) (of_network network_type (local_candidates a))
  then update_cand c close_cand
  else
    _ ← modify (fun a => a {{ local_candidates := push_cand network_type c (local_candidates a) }});
    _ ← for_all (of_network network_type (remote_candidates a)) (fun h => add_pair c h);
    _ ← request_connectivity_check;
    modify (fun a => if chan_candidate_tx a then a {{ candidates_sent := candidates_sent a ++ [c] }} else a).

Definition find_remote_candidate (a : AgentInternal) (n : NetworkType) (addr : SocketAddr) : option nat :=
  List.find (fun h => String.eqb (c_address (cand a h)) (display_ip (ip addr)) && (c_port (cand a h) =? port addr))
    (of_network n (remote_candidates a)).

(** ** The pairs to use (agent_transport.rs) *)

Definition priority_of (a : AgentInternal) (p : nat) : outcome Z :=
  let pair := pair_of a p in
  pair_priority (ice_role_controlling pair) (cand a (p_local pair)) (cand a (p_remote pair)).

(** The first pair with the highest priority among those that [usable] admits. *)
Fixpoint best_of (a : AgentInternal) (usable : CandidatePairState -> bool) (best : option nat) (l : list nat)
    : outcome (option nat) :=
  match l with
  | [] => Ret best
  | p :: l =>
      if negb (usable (p_state (pair_of a p))) then best_of a usable best l
      else
        match best with
        | None => best_of a usable (Some p) l
        | Some b =>
            x ← priority_of a b;
            y ← priority_of a p;
            best_of a usable (Some (if x <? y then p else b)) l
        end
  end.

Definition get_best_available_candidate_pair (a : AgentInternal) : outcome (option nat) :=
  best_of a (fun s => negb (bool_decide (s = PairFailed))) None (checklist a).

Definition get_best_valid_candidate_pair (a : AgentInternal) : outcome (option nat) :=
  best_of a (fun s => bool_decide (s = PairSucceeded)) None (checklist a).

(** [AgentConn::send] and [send_with_options]: application data goes to the selected pair, or to
    the best one there is; the result is the error, or how many bytes were sent.  The counter
    counts what was to be sent. *)
Inductive SendError := ConnIsClosed | ErrIceWriteStunMessage | ErrSocket.

Definition count_sent (b : bytes) : ice unit :=
  modify (fun a => a {{ bytes_sent := as_u 64 (bytes_sent a + Z.of_nat (length b)) }}).

Definition conn_send (now : Clock) (b : bytes) : ice (SendError + nat) :=
  a ← get;
  if conn_done a then mret (inl ConnIsClosed)
  else if is_message b then mret (inl ErrIceWriteStunMessage)
  else
    p ← match selected_pair a with
        | Some p => mret (Some p)
        | None => run (get_best_available_candidate_pair a)
        end;
    match p with
    | None => _ ← count_sent b; mret (inr 0%nat)
    | Some p =>
        let local := p_local (pair_of a p) in
        ok ← write_to now b local (resolved_addr (cand a (p_remote (pair_of a p))));
        if (ok : bool) then
          _ ← count_sent b;
          mret (inr (if c_conn (cand a local) then length b else 0%nat))
        else mret (inl ErrSocket)
    end.

(** ** Checks *)

(** One pair of [ping_all_candidates]: whether it is to be pinged. *)
Definition check_pair (p : nat) : ice bool :=
  a ← get;
  let state := p_state (pair_of a p) in
  if bool_decide (state = PairWaiting) || bool_decide (state = PairInProgress) then
    _ ← update_pair p (fun pair => pair {{ p_state := PairInProgress }});
    if max_binding_requests (timeouts a) <? binding_request_count (pair_of a p) then
      _ ← update_pair p (fun pair => pair {{ p_state := PairFailed }});
      mret false
    else
      _ ← update_pair p (fun pair => pair {{ binding_request_count := as_u 16 (binding_request_count pair + 1) }});
      mret true
  else mret false.

Fixpoint check_pairs (l : list nat) : ice (list nat) :=
  match l with
  | [] => mret []
  | p :: l =>
      b ← check_pair p;
      rest ← check_pairs l;
      mret (if (b : bool) then p :: rest else rest)
  end.

Definition ping_all_candidates (now : Clock) : ice unit :=
  a ← get;
  to_ping ← check_pairs (checklist a);
  for_all to_ping (fun p => a ← get; ping_candidate now (p_local (pair_of a p)) (p_remote (pair_of a p))).

Definition validate_selected_pair (now : Clock) : ice bool :=
  a ← get;
  match selected_pair a with
  | None => mret false
  | Some p =>
      let disconnected_time := since (system now) (last_received (cand a (p_remote (pair_of a p)))) in
      let t := timeouts a in
      let total_time_to_failure := if failed_timeout t =? 0 then 0 else failed_timeout t + disconnected_timeout t in
      _ ← (if negb (total_time_to_failure =? 0) && (total_time_to_failure <? disconnected_time)
           then update_connection_state Failed
           else if negb (disconnected_timeout t =? 0) && (disconnected_timeout t <? disconnected_time)
           then update_connection_state Disconnected
           else update_connection_state Connected);
      mret true
  end.

Definition check_keepalive (now : Clock) : ice unit :=
  a ← get;
  match selected_pair a with
  | None => mret tt
  | Some p =>
      let local := p_local (pair_of a p) in
      let remote := p_remote (pair_of a p) in
      let interval := keepalive_interval (timeouts a) in
      when (negb (interval =? 0)
            && ((interval <? since (system now) (last_sent (cand a local)))
                || (interval <? since (system now) (last_received (cand a remote)))))
        (ping_candidate now local remote)
  end.

(** ** The selectors *)

Definition is_nominatable (now : Clock) (a : AgentInternal) (c : nat) : bool :=
  let waited := since (instant now) (start_time a) in
  let t := timeouts a in
  match c_candidate_type (cand a c) with
  | Host => host_acceptance_min_wait t <? waited
  | ServerReflexive => srflx_acceptance_min_wait t <? waited
  | PeerReflexive => prflx_acceptance_min_wait t <? waited
  | Relay => relay_acceptance_min_wait t <? waited
  | TypeUnspecified => false
  end.

(** [start]: of the controlling selector; the other one does nothing. *)
Definition start (now : Clock) : ice unit :=
  a ← get;
  when (is_controlling a) (modify (fun a => a {{ nominated_pair := None }} {{ start_time := instant now }})).

Definition keep_selected (now : Clock) : ice unit :=
  valid ← validate_selected_pair now;
  when valid (check_keepalive now).

Definition controlling_contact_candidates (now : Clock) : ice unit :=
  a ← get;
  if is_Some_dec (selected_pair a) then keep_selected now
  else if is_Some_dec (nominated_pair a) then nominate_pair now
  else
    best ← run (get_best_valid_candidate_pair a);
    match best with
    | Some p =>
        if is_nominatable now a (p_local (pair_of a p)) && is_nominatable now a (p_remote (pair_of a p)) then
          _ ← update_pair p (fun pair => pair {{ nominated := true }});
          _ ← modify (fun a => a {{ nominated_pair := Some p }});
          nominate_pair now
        else ping_all_candidates now
    | None => ping_all_candidates now
    end.

Definition controlled_contact_candidates (now : Clock) : ice unit :=
  a ← get;
  if lite a then _ ← validate_selected_pair now; mret tt
  else if is_Some_dec (selected_pair a) then keep_selected now
  else ping_all_candidates now.

Definition contact_candidates (now : Clock) : ice unit :=
  a ← get;
  if is_controlling a then controlling_contact_candidates now else controlled_contact_candidates now.

(** The request of a transaction; it is forgotten with its answer. *)
Fixpoint take_request (id : Z) (l : list BindingRequest) : option (BindingRequest * list BindingRequest) :=
  match l with
  | [] => None
  | r :: l =>
      if br_transaction_id r =? id then Some (r, l)
      else match take_request id l with Some (x, rest) => Some (x, r :: rest) | None => None end
  end.

Definition handle_inbound_binding_success (now : Clock) (id : Z) : ice (option BindingRequest) :=
  _ ← invalidate_pending_binding_requests (instant now);
  a ← get;
  match take_request id (pending_binding_requests a) with
  | Some (r, rest) => _ ← modify (fun a => a {{ pending_binding_requests := rest }}); mret (Some r)
  | None => mret None
  end.

(** The two bodies differ in what makes the pair the selected one. *)
Definition handle_success_response (now : Clock) (m : Message) (local remote : nat) (remote_addr : SocketAddr) : ice unit :=
  r ← handle_inbound_binding_success now (transaction_id m);
  match r with
  | None => mret tt
  | Some r =>
      if negb (bool_decide (destination r = remote_addr)) then mret tt
      else
        a ← get;
        match find_pair a local remote with
        | None => mret tt
        | Some p =>
            _ ← update_pair p (fun pair => pair {{ p_state := PairSucceeded }});
            when ((if is_controlling a then is_use_candidate r else nominate_on_binding_success (pair_of a p))
                  && bool_decide (selected_pair a = None))
              (set_selected_pair (Some p))
        end
  end.

Definition controlling_handle_binding_request (now : Clock) (m : Message) (local remote : nat) : ice unit :=
  _ ← send_binding_success now m local remote;
  a ← get;
  match find_pair a local remote with
  | None => add_pair local remote
  | Some p =>
      if bool_decide (p_state (pair_of a p) = PairSucceeded) && bool_decide (nominated_pair a = None)
         && bool_decide (selected_pair a = None) then
        best ← run (get_best_available_candidate_pair a);
        match best with
        | Some b =>
            when (is_pair a (p_local (pair_of a p)) (p_remote (pair_of a p)) b
                  && is_nominatable now a (p_local (pair_of a p)) && is_nominatable now a (p_remote (pair_of a p)))
              (_ ← modify (fun a => a {{ nominated_pair := Some p }});
               nominate_pair now)
        | None => mret tt
        end
      else mret tt
  end.

Definition controlled_handle_binding_request (now : Clock) (m : Message) (local remote : nat) : ice unit :=
  a ← get;
  _ ← when (bool_decide (find_pair a local remote = None)) (add_pair local remote);
  a ← get;
  match find_pair a local remote with
  | None => mret tt
  | Some p =>
      _ ← when (contains AttrUseCandidate m)
            (if bool_decide (p_state (pair_of a p) = PairSucceeded)
             then when (bool_decide (selected_pair a = None)) (set_selected_pair (Some p))
             else update_pair p (fun pair => pair {{ nominate_on_binding_success := true }}));
      _ ← send_binding_success now m local remote;
      ping_candidate now local remote
  end.

Definition handle_binding_request (now : Clock) (m : Message) (local remote : nat) : ice unit :=
  a ← get;
  if is_controlling a then controlling_handle_binding_request now m local remote
  else controlled_handle_binding_request now m local remote.

(** ** What arrives *)

Definition assert_inbound_username (m : Message) (expected : string) : bool :=
  match username m with Some u => String.eqb u expected | None => false end.

(** A message of the other role, or not a message of binding. *)
Definition ignored (a : AgentInternal) (m : Message) : bool :=
  negb (is_binding m) || bool_decide (class_of m = ClassError)
  || (if is_controlling a then contains AttrIceControlling m || contains AttrUseCandidate m
      else contains AttrIceControlled m).

(** The candidate of an unknown sender of an authentic request. *)
Definition peer_reflexive (now : Clock) (local : nat) (remote : SocketAddr) : ice (option nat) :=
  a ← get;
  let b := mkCandidateBaseConfig String.EmptyString (show_network Udp4) (display_ip (ip remote)) (port remote)
             (c_component (cand a local)) 0 String.EmptyString false in
  match Candidate.new_candidate_peer_reflexive (cand_id (length (cands a))) b String.EmptyString 0 with
  | Ok c =>
      h ← new_cand c;
      _ ← add_remote_candidate h;
      mret (Some h)
  | _ => mret None
  end.

Definition handle_inbound (now : Clock) (m : Message) (local : nat) (remote : SocketAddr) : ice unit :=
  a ← get;
  if ignored a m then mret tt
  else
    let remote_candidate := find_remote_candidate a (c_network_type (cand a local)) remote in
    let seen_remote rc := update_cand rc (Candidate.seen false (system now)) in
    match class_of m with
    | ClassSuccess =>
        if negb (integrity_ok (remote_pwd (ufrag_pwd a)) m) then mret tt
        else
          match remote_candidate with
          | Some rc => _ ← handle_success_response now m local rc remote; seen_remote rc
          | None => mret tt
          end
    | ClassRequest =>
        let u := ufrag_pwd a in
        if negb (assert_inbound_username m (local_ufrag u +:+ ":" +:+ remote_ufrag u)%string) then mret tt
        else if negb (integrity_ok (local_pwd u) m) then mret tt
        else
          rc ← match remote_candidate with
               | Some rc => mret (Some rc)
               | None => peer_reflexive now local remote
               end;
          match rc with
          | Some rc => _ ← handle_binding_request now m local rc; seen_remote rc
          | None => mret tt
          end
    | _ => match remote_candidate with Some rc => seen_remote rc | None => mret tt end
    end.

Definition validate_non_stun_traffic (now : Clock) (local : nat) (remote : SocketAddr) : ice bool :=
  a ← get;
  match find_remote_candidate a (c_network_type (cand a local)) remote with
  | Some rc => _ ← update_cand rc (Candidate.seen false (system now)); mret true
  | None => mret false
  end.

(** One datagram of the receive loop of a local candidate. *)
Definition handle_inbound_candidate_msg (now : Clock) (c : nat) (buf : bytes) (src_addr : SocketAddr) : ice unit :=
  if is_message buf then
    match decode buf with
    | None => mret tt
    | Some m => handle_inbound now m c src_addr
    end
  else
    ok ← validate_non_stun_traffic now c src_addr;
    when ok
      (a ← get;
       '(_, _, b) ← run (Buffer.write buf (buffer a));
       modify (fun a => a {{ buffer := b }})).

(** [AgentConn::recv] into a buffer of [size] bytes; [None] when it waits. *)
Definition conn_recv (size : nat) : ice (option (SendError + bytes)) :=
  a ← get;
  if conn_done a then mret (Some (inl ConnIsClosed))
  else
    '(r, b) ← run (Buffer.try_read size (buffer a));
    _ ← modify (fun a => a {{ buffer := b }}
          {{ bytes_received := match r with
               | Some (packet, None) => as_u 64 (bytes_received a + Z.of_nat (length packet))
               | _ => bytes_received a
               end }});
    mret match r with
         | None => None
         | Some (packet, None) => Some (inr packet)
         | Some (_, Some _) => Some (inl ErrSocket)
         end.

(** ** The agent's life *)

Definition set_remote_credentials (ufrag pwd : string) : ice (IceError + unit) :=
  if String.eqb ufrag String.EmptyString then mret (inl ErrRemoteUfragEmpty)
  else if String.eqb pwd String.EmptyString then mret (inl ErrRemotePwdEmpty)
  else
    _ ← modify (fun a => a {{ ufrag_pwd := mkUfragPwd (local_ufrag (ufrag_pwd a)) (local_pwd (ufrag_pwd a)) ufrag pwd }});
    mret (inr tt).

(** [start_connectivity_checks] up to the spawn of the loop: [dial] and [accept]. *)
Definition start_connectivity_checks (now : Clock) (controlling : bool) (ufrag pwd : string) : ice (IceError + unit) :=
  a ← get;
  if negb (started_ch_tx a) then mret (inl ErrMultipleStart)
  else
    r ← set_remote_credentials ufrag pwd;
    match r with
    | inl e => mret (inl e)
    | inr _ =>
        _ ← modify (fun a => a {{ is_controlling := controlling }});
        _ ← start now;
        _ ← modify (fun a => a {{ started_ch_tx := false }});
        _ ← update_connection_state Checking;
        _ ← request_connectivity_check;
        mret (inr tt)
    end.

(** The variables of the loop of checks. *)
Record CheckLoop := mkCheckLoop { last_connection_state : ConnectionState; checking_since : Z }.

Definition contact (now : Clock) (l : CheckLoop) : ice CheckLoop :=
  a ← get;
  let checking := bool_decide (connection_state a = Checking) in
  let since_ := if checking && negb (bool_decide (last_connection_state l = connection_state a))
                then instant now else checking_since l in
  let finish := a ← get; mret (mkCheckLoop (connection_state a) since_) in
  if bool_decide (connection_state a = Failed) then finish
  else if checking && (disconnected_timeout (timeouts a) + failed_timeout (timeouts a) <? since (instant now) since_) then
    _ ← update_connection_state Failed;
    finish
  else
    _ ← contact_candidates now;
    finish.

(** The time the loop sleeps. *)
Definition update_interval (x interval : Z) : Z :=
  if negb (x =? 0) && ((interval =? 0) || (x <? interval)) then x else interval.

Definition loop_interval (t : Timeouts) (last : ConnectionState) : Z :=
  let i := match last with
           | StateNew | Checking => update_interval (check_interval t) DEFAULT_CHECK_INTERVAL
           | Connected | Disconnected => update_interval (keepalive_interval t) DEFAULT_CHECK_INTERVAL
           | _ => DEFAULT_CHECK_INTERVAL
           end in
  update_interval (failed_timeout t) (update_interval (disconnected_timeout t) i).

Definition close : ice (IceError + unit) :=
  a ← get;
  if negb (done_tx a) then mret (inl ErrClosed)
  else
    _ ← modify (fun a => a {{ done_tx := false }});
    _ ← delete_all_candidates;
    _ ← modify (fun a => a {{ started_ch_tx := false }} {{ buffer := (Buffer.close (buffer a)).2 }});
    _ ← update_connection_state StateClosed;
    _ ← modify (fun a => a {{ chan_candidate_tx := false }} {{ chan_candidate_pair_tx := false }}
                           {{ chan_state_tx := false }} {{ conn_done := true }});
    mret (inr tt).

(** [Agent::restart]; the arguments are what was given or generated. *)
Definition restart (now : Clock) (ufrag pwd : string) : ice (IceError + unit) :=
  if (String.length ufrag * 8 <? 24)%nat then mret (inl ErrLocalUfragInsufficientBits)
  else if (String.length pwd * 8 <? 128)%nat then mret (inl ErrLocalPwdInsufficientBits)
  else
    a ← get;
    if bool_decide (gathering_state a = Gathering) then mret (inl ErrRestartWhenGathering)
    else
      _ ← modify (fun a => a {{ gathering_state := GatherNew }});
      if negb (done_tx a) then mret (inl ErrClosed)
      else
        _ ← modify (fun a => a {{ ufrag_pwd := mkUfragPwd ufrag pwd String.EmptyString String.EmptyString }}
                               {{ pending_binding_requests := [] }} {{ checklist := [] }});
        _ ← set_selected_pair None;
        _ ← delete_all_candidates;
        _ ← start now;
        _ ← when (negb (bool_decide (connection_state a = StateNew))) (update_connection_state Checking);
        mret (inr tt).

(** [Agent::add_remote_candidate]; [answer] is the address that multicast DNS gives for a name, and
    nothing when it is disabled or gives none. *)
Definition agent_add_remote_candidate (answer : option IpAddr) (c : CandidateBase) : ice unit :=
  if bool_decide (c_tcp_type c = TcpActive) then mret tt
  else if bool_decide (c_candidate_type c = Host) && ends_with ".local" (c_address c) then
    match answer with
    | None => mret tt
    | Some ip =>
        match Candidate.set_ip ip c with
        | Ok c => h ← new_cand c; add_remote_candidate h
        | _ => mret tt
        end
    end
  else
    h ← new_cand c;
    add_remote_candidate h.

(** [AgentInternal::new] with the defaults, and the [restart] of [Agent::new]. *)
Definition new_agent (now : Clock) (tie : Z) (controlling is_lite : bool) (t : Timeouts) : AgentInternal :=
  mkAgentInternal true true false true true true tie controlling is_lite (instant now) None StateNew true
    (mkUfragPwd String.EmptyString String.EmptyString String.EmptyString String.EmptyString) ∅ ∅ [] None []
    (Buffer.new 0 MAX_BUFFER_SIZE) false 0 0 GatherUnspecified t 0 [] [] [] 0 [] [].
End agent.
