(* ===== verification/StunModel.v ===== *)
(** * Messages of STUN, as the agent relies on them

    The laws of the class [Stun], which stands for the crate stun, and an instance: a codec
    that keeps what the agent reads, to evaluate agents with. *)

From stdpp Require Import base list countable strings.
From Stdlib Require Import ZArith Lia.
From S2P Require Import Prelude Net IceAgent.
Local Open Scope Z_scope.
Local Open Scope list_scope.

(** ** What [Message::build] promises *)

Section reading.
  Context {M : Type} (id_of_message : M -> Z).

Definition class_in (l : list (Setter M)) : option StunClass :=
  List.fold_left (fun r s => match s with SetBinding c => Some c | _ => r end) l None.
Definition id_in (l : list (Setter M)) : option Z :=
  List.fold_left (fun r s => match s with SetTransactionId i => Some i | SetCopy m => Some (id_of_message m) | _ => r end) l None.
Definition username_in (l : list (Setter M)) : option string :=
  List.fold_left (fun r s => match s with SetUsername u => Some u | _ => r end) l None.
Definition attrs_in (l : list (Setter M)) : list StunAttr :=
  omap (fun s => match s with SetAttr t _ => Some t | SetUsername _ => Some AttrUsername | _ => None end) l.
Definition key_in (l : list (Setter M)) : option string :=
  List.fold_left (fun r s => match s with SetIntegrity k => Some k | _ => r end) l None.
End reading.

Definition MAX_USERNAME_B : nat := 513.

(** A message of its setters, which the peer reads as it was built; only a user name that is too
    long is refused. *)
Class StunLaws (stun : Stun) := {
  build_ok : forall l c i,
    class_in l = Some c -> id_in transaction_id l = Some i ->
    (forall u, username_in l = Some u -> (String.length u <= MAX_USERNAME_B)%nat) ->
    exists m, build l = Some m /\ is_binding m = true /\ class_of m = c /\ transaction_id m = i
      /\ username m = username_in l /\ (forall t, contains t m = bool_decide (t ∈ attrs_in l))
      /\ (forall k, key_in l = Some k -> integrity_ok k m = true);
  decode_raw : forall m, is_message (raw m) = true /\ decode (raw m) = Some m }.

(** ** An instance *)

Module PlainStun.
Definition class_code (c : StunClass) : Z :=
  match c with ClassRequest => 0 | ClassIndication => 1 | ClassSuccess => 2 | ClassError => 3 end.
Definition class_of_code (z : Z) : StunClass :=
  if z =? 0 then ClassRequest else if z =? 1 then ClassIndication else if z =? 2 then ClassSuccess else ClassError.
Definition attr_code (t : StunAttr) : Z :=
  match t with AttrUsername => 0 | AttrPriority => 1 | AttrUseCandidate => 2 | AttrIceControlled => 3 | AttrIceControlling => 4 end.

(** The class, the transaction, the user name, the attributes and the key. *)
Definition message : Type := Z * Z * option string * list Z * option string.

Definition id_of (m : message) : Z := m.1.1.1.2.

Definition make (l : list (Setter message)) : option message :=
  match class_in l, id_in id_of l with
  | Some c, Some i =>
      if match username_in l with Some u => (String.length u <=? MAX_USERNAME_B)%nat | None => true end
      then Some (class_code c, i, username_in l, map attr_code (attrs_in l), key_in l)
      else None
  | _, _ => None
  end.

Fixpoint bits (p : positive) : bytes :=
  match p with xH => [] | xO p => 0 :: bits p | xI p => 1 :: bits p end.
Fixpoint of_bits (b : bytes) : positive :=
  match b with [] => xH | 0 :: b => xO (of_bits b) | _ :: b => xI (of_bits b) end.

Lemma of_bits_bits p : of_bits (bits p) = p.
Proof. induction p; cbn; by f_equal. Qed.

Definition write (m : message) : bytes := 0 :: bits (encode m).
Definition read (b : bytes) : option message :=
  match b with 0 :: b => countable.decode (of_bits b) | _ => None end.

#[export] Instance plain_stun : Stun := {|
  Message := message;
  build := make;
  raw := write;
  IceAgent.decode := read;
  is_message := fun b => match b with 0 :: _ => true | _ => false end;
  is_binding := fun _ => true;
  class_of := fun m => class_of_code m.1.1.1.1;
  transaction_id := id_of;
  contains := fun t m => bool_decide (attr_code t ∈ m.1.2);
  username := fun m => m.1.1.2;
  integrity_ok := fun k m => bool_decide (m.2 = Some k) |}.

Lemma class_code_roundtrip c : class_of_code (class_code c) = c.
Proof. by destruct c. Qed.

#[export] Instance attr_code_inj : Inj (=) (=) attr_code.
Proof. by intros [] []. Qed.

#[export] Instance plain_laws : StunLaws plain_stun.
Proof.
  split.
  - intros l c i Hc Hi Hu. change (@class_in message l = Some c) in Hc. change (@id_in message id_of l = Some i) in Hi.
    cbn [build plain_stun]. unfold make. rewrite Hc, Hi.
    change (forall u, @username_in message l = Some u -> (String.length u <= MAX_USERNAME_B)%nat) in Hu.
    assert (match @username_in message l with Some u => (String.length u <=? MAX_USERNAME_B)%nat | None => true end = true) as ->
      by (destruct (@username_in message l); [by apply Nat.leb_le, Hu|reflexivity]).
    eexists. split; [reflexivity|]. split; [reflexivity|]. split; [apply class_code_roundtrip|].
    split; [reflexivity|]. split; [reflexivity|]. split.
    + intros t. cbn. apply bool_decide_ext. rewrite list_elem_of_fmap. split; [|eauto]. by intros (t' & ->%(inj attr_code) & ?).
    + intros k Hk. by apply bool_decide_eq_true_2.
  - intros m. split; [done|]. cbn. unfold write, read. by rewrite of_bits_bits, decode_encode.
Qed.
End PlainStun.
