(* ===== verification/IceChecks.v ===== *)
(** * What an ICE agent selects

    The agent as a machine: datagrams, ticks of the loop of checks, candidates, starts,
    restarts and closes, in any order.  In every run, a pair that the agent uses has been
    checked: the theorems are proved by induction on the run, from invariants that every
    handler keeps. *)

From stdpp Require Import base list gmap strings.
From Stdlib Require Import ZArith Lia.
From coqutil Require Import Datatypes.RecordSetters.
From S2P Require Import Prelude Utf8 Net IpParse Fallible PacketBuffer IceCandidate IceAgent StunModel.
Import DoubleBraceUpdate.
Local Open Scope Z_scope.
Local Open Scope list_scope.

(** ** The machine *)

Inductive ice_event :=
  | Datagram (local : nat) (buf : bytes) (src : SocketAddr)
  | Contact
  | LocalCandidate (c : CandidateBase)
  | RemoteCandidate (answer : option IpAddr) (c : CandidateBase)
  | RemoteCredentials (ufrag pwd : string)
  | StartChecks (controlling : bool) (ufrag pwd : string)
  | Restart (ufrag pwd : string)
  | SendData (b : bytes)
  | RecvData (size : nat)
  | CloseAgent.

Create HintDb quiet.

Section machine.
  Context {stun : Stun} (random_id : nat -> Z) (cand_id : nat -> string)
    (send_ok : nat -> SocketAddr -> bytes -> bool).

Definition ignore {A} (m : ice A) : ice unit := _ ← m; mret tt.

Definition ice_handle (now : Clock) (e : ice_event) : ice unit :=
  match e with
  | Datagram local buf src => handle_inbound_candidate_msg random_id cand_id send_ok now local buf src
  | Contact => mret tt
  | LocalCandidate c => h ← new_cand c; add_candidate h
  | RemoteCandidate answer c => agent_add_remote_candidate answer c
  | RemoteCredentials ufrag pwd => ignore (set_remote_credentials ufrag pwd)
  | StartChecks controlling ufrag pwd => ignore (start_connectivity_checks now controlling ufrag pwd)
  | Restart ufrag pwd => ignore (restart now ufrag pwd)
  | SendData b => ignore (conn_send send_ok now b)
  | RecvData size => ignore (conn_recv size)
  | CloseAgent => ignore close
  end.

(** A datagram comes from the socket of a candidate of the agent. *)
Definition has_socket (e : ice_event) (a : AgentInternal) : bool :=
  match e with Datagram local _ _ => (local <? length (cands a))%nat | _ => true end.

Definition ice_step (now : Clock) (e : ice_event) (s : AgentInternal * CheckLoop) : outcome (AgentInternal * CheckLoop) :=
  if negb (has_socket e s.1) then Ret s
  else
    match e with
    | Contact => '(l, a) ← contact random_id send_ok now s.2 s.1; Ret (a, l)
    | _ => '(_, a) ← ice_handle now e s.1; Ret (a, s.2)
    end.

(** Runs, with the state each event met. *)
Inductive ice_run : list (Clock * AgentInternal * ice_event) -> AgentInternal * CheckLoop -> Prop :=
  | ice_new now tie controlling is_lite t l : ice_run [] (new_agent now tie controlling is_lite t, l)
  | ice_next tr s now e s' : ice_run tr s -> ice_step now e s = Ret s' -> ice_run (tr ++ [(now, s.1, e)]) s'.

(** A sequence of events, and the run it makes. *)
Fixpoint ice_exec (l : list (Clock * ice_event)) (s : AgentInternal * CheckLoop) : outcome (AgentInternal * CheckLoop) :=
  match l with
  | [] => Ret s
  | (now, e) :: l => s ← ice_step now e s; ice_exec l s
  end.

Lemma ice_exec_run l tr s s' : ice_run tr s -> ice_exec l s = Ret s' -> exists tr', ice_run tr' s'.
Proof using Type.
  revert tr s. induction l as [|[now e] l IH]; intros tr s Hr H; [injection H as <-; eauto|].
  apply bind_Ret_inv in H as (s1 & E & H). eauto using ice_next.
Qed.

(** ** What the invariants are about *)

(** The remote candidate of a pair has the address of a datagram. *)
Definition at_address (a : AgentInternal) (p : nat) (src : SocketAddr) : Prop :=
  c_address (cand a (p_remote (pair_of a p))) = display_ip (ip src) /\ c_port (cand a (p_remote (pair_of a p))) = port src.

Definition fresh_request (now : Clock) (r : BindingRequest) : Prop :=
  instant now < timestamp r \/ instant now - timestamp r < MAX_BINDING_REQUEST_TIMEOUT.

(** A success response, authentic under the password of the peer, to a check of the agent that
    went to where the response came from, and not too long ago. *)
Definition is_answer (nominating : bool) (now : Clock) (a : AgentInternal) (buf : bytes) (src : SocketAddr) : Prop :=
  exists m r, decode buf = Some m /\ is_binding m = true /\ class_of m = ClassSuccess
    /\ integrity_ok (remote_pwd (ufrag_pwd a)) m = true
    /\ r ∈ pending_binding_requests a /\ br_transaction_id r = transaction_id m /\ destination r = src
    /\ fresh_request now r
    /\ (nominating = true -> is_controlling a = true /\ is_use_candidate r = true).

(** A request with USE-CANDIDATE from the controlling peer, authentic under the own password. *)
Definition is_nomination (a : AgentInternal) (buf : bytes) : Prop :=
  exists m, decode buf = Some m /\ is_binding m = true /\ class_of m = ClassRequest /\ is_controlling a = false
    /\ assert_inbound_username m (local_ufrag (ufrag_pwd a) +:+ ":" +:+ remote_ufrag (ufrag_pwd a))%string = true
    /\ integrity_ok (local_pwd (ufrag_pwd a)) m = true /\ contains AttrUseCandidate m = true.

Definition succeeded (a : AgentInternal) (p : nat) : Prop :=
  exists x, pairs a !! p = Some x /\ p_state x = PairSucceeded.

Definition promised (a : AgentInternal) (p : nat) : Prop :=
  exists x, pairs a !! p = Some x /\ nominate_on_binding_success x = true.

(** Candidates and pairs stay what they are. *)
Record extends (a a' : AgentInternal) : Prop := mkExtends {
  ex_cands : forall h c, cands a !! h = Some c -> exists c', cands a' !! h = Some c'
    /\ c_address c' = c_address c /\ c_port c' = c_port c;
  ex_pairs : forall p x, pairs a !! p = Some x -> exists x', pairs a' !! p = Some x'
    /\ p_remote x' = p_remote x /\ (p_state x = PairSucceeded -> p_state x' = PairSucceeded)
    /\ (nominate_on_binding_success x = true -> nominate_on_binding_success x' = true) }.

Lemma extends_refl a : extends a a.
Proof using Type. split; eauto 6. Qed.

Lemma extends_trans a b c : extends a b -> extends b c -> extends a c.
Proof using Type.
  intros [H1 H2] [H3 H4]. split.
  - intros h x Hx. destruct (H1 h x Hx) as (y & Hy & E1 & E2). destruct (H3 h y Hy) as (z & Hz & E3 & E4).
    exists z. split_and!; congruence.
  - intros p x Hx. destruct (H2 p x Hx) as (y & Hy & E1 & E2 & E3). destruct (H4 p y Hy) as (z & Hz & E4 & E5 & E6).
    exists z. split_and!; [done|congruence|auto|auto].
Qed.

(** A candidate of a table. *)
Definition in_table (m : gmap Z (list nat)) (h : nat) : Prop := exists k l, m !! k = Some l /\ h ∈ l.

(** The numbers in use are those of candidates and pairs that there are. *)
Record numbered (a : AgentInternal) : Prop := mkNumbered {
  nu_remote : forall h, in_table (remote_candidates a) h -> (h < length (cands a))%nat;
  nu_local : forall h, in_table (local_candidates a) h -> (h < length (cands a))%nat;
  nu_pairs : forall p x, pairs a !! p = Some x -> (p_remote x < length (cands a))%nat /\ (p_local x < length (cands a))%nat;
  nu_checklist : forall p, p ∈ checklist a -> is_Some (pairs a !! p);
  nu_nominated : forall p, nominated_pair a = Some p -> is_Some (pairs a !! p);
  nu_selected : forall p, selected_pair a = Some p -> is_Some (pairs a !! p) }.

Lemma extends_length a b : extends a b -> (length (cands a) <= length (cands b))%nat.
Proof using Type.
  intros [Hc _]. destruct (decide (length (cands a) <= length (cands b))%nat) as [|Hlt]; [done|].
  destruct (lookup_lt_is_Some_2 (cands a) (length (cands b))) as [c E]; [lia|].
  destruct (Hc _ _ E) as (d & Hd & _). apply lookup_lt_Some in Hd. lia.
Qed.

Lemma extends_pairs a b p : extends a b -> is_Some (pairs a !! p) -> is_Some (pairs b !! p).
Proof using Type. intros [_ Hp] [x Hx]. destruct (Hp p x Hx) as (y & Hy & _). by exists y. Qed.

(** What is in use was so before, or is there now. *)
Lemma numbered_step a b :
  numbered a -> extends a b ->
  (forall h, in_table (remote_candidates b) h -> in_table (remote_candidates a) h \/ (h < length (cands b))%nat) ->
  (forall h, in_table (local_candidates b) h -> in_table (local_candidates a) h \/ (h < length (cands b))%nat) ->
  (forall p x, pairs b !! p = Some x -> (exists y, pairs a !! p = Some y /\ p_remote x = p_remote y /\ p_local x = p_local y)
    \/ ((p_remote x < length (cands b))%nat /\ (p_local x < length (cands b))%nat)) ->
  (forall p, p ∈ checklist b -> p ∈ checklist a \/ is_Some (pairs b !! p)) ->
  (forall p, nominated_pair b = Some p -> nominated_pair a = Some p \/ is_Some (pairs b !! p)) ->
  (forall p, selected_pair b = Some p -> selected_pair a = Some p \/ is_Some (pairs b !! p)) ->
  numbered b.
Proof using Type.
  intros [N1 N2 N3 N4 N5 N6] He H1 H2 H3 H4 H5 H6. pose proof (extends_length _ _ He) as Hlen. split.
  - intros h Hh. destruct (H1 h Hh) as [?%N1|?]; lia.
  - intros h Hh. destruct (H2 h Hh) as [?%N2|?]; lia.
  - intros p x Hx. destruct (H3 p x Hx) as [(y & Hy & -> & ->)|?]; [|done]. destruct (N3 p y Hy). lia.
  - intros p Hp. destruct (H4 p Hp) as [?%N4|?]; [by eapply extends_pairs|done].
  - intros p Hp. destruct (H5 p Hp) as [?%N5|?]; [by eapply extends_pairs|done].
  - intros p Hp. destruct (H6 p Hp) as [?%N6|?]; [by eapply extends_pairs|done].
Qed.

(** Nothing new is valid, promised or selected. *)
Record quiet (a a' : AgentInternal) : Prop := mkQuiet {
  qu_extends : extends a a';
  qu_numbered : numbered a';
  qu_succeeded : forall p, succeeded a' p -> succeeded a p;
  qu_promised : forall p, promised a' p -> promised a p;
  qu_selected : forall p, selected_pair a' = Some p -> selected_pair a = Some p }.

Lemma quiet_refl a : numbered a -> quiet a a.
Proof using Type. intros H. split; auto using extends_refl. Qed.

Lemma quiet_trans a b c : quiet a b -> quiet b c -> quiet a c.
Proof using Type. intros [] []. split; eauto using extends_trans. Qed.

(** ** Operations that are quiet *)

Definition quiet_at {A} (m : ice A) (a : AgentInternal) : Prop := forall x a', m a = Ret (x, a') -> quiet a a'.
Definition quietly {A} (m : ice A) : Prop := forall a, numbered a -> quiet_at m a.

Lemma quiet_at_bind {A B} (m : ice A) (f : A -> ice B) a :
  quiet_at m a -> (forall x a', m a = Ret (x, a') -> quiet a a' -> quiet_at (f x) a') -> quiet_at (m ≫= f) a.
Proof using Type.
  intros Hm Hf y b H. apply bind_Ret_inv in H as ([x a'] & E & H).
  eapply quiet_trans; [exact (Hm _ _ E)|exact (Hf _ _ E (Hm _ _ E) _ _ H)].
Qed.

Lemma quiet_at_get {B} (f : AgentInternal -> ice B) a : quiet_at (f a) a -> quiet_at (get ≫= f) a.
Proof using Type. intros H x a' E. exact (H x a' E). Qed.

Lemma quietly_bind {A B} (m : ice A) (f : A -> ice B) : quietly m -> (forall x, quietly (f x)) -> quietly (m ≫= f).
Proof using Type. intros Hm Hf a Ha. apply quiet_at_bind; [auto|]. intros x a' _ []. by apply Hf. Qed.

Lemma quietly_get {B} (f : AgentInternal -> ice B) : (forall a, quietly (f a)) -> quietly (get ≫= f).
Proof using Type. intros H a Ha. by apply quiet_at_get, H. Qed.

Lemma quietly_ret {A} (x : A) : quietly (mret x).
Proof using Type. intros a Ha y a' [= <- <-]. by apply quiet_refl. Qed.

Lemma quietly_run {A} (m : outcome A) : quietly (run m).
Proof using Type.
  intros a Ha y a' H. apply bind_Ret_inv in H as (x & _ & [= <- <-]). by apply quiet_refl.
Qed.

Lemma quietly_when b m : quietly m -> quietly (when b m).
Proof using Type. destruct b; [done|]. intros _. apply quietly_ret. Qed.

Lemma quietly_for_all {A} (l : list A) body : (forall x, quietly (body x)) -> quietly (for_all l body).
Proof using Type. intros H. induction l as [|x l IH]; [apply quietly_ret|]. by apply quietly_bind. Qed.

(** An operation on the other fields. *)
Lemma quietly_modify f :
  (forall a, cands (f a) = cands a /\ pairs (f a) = pairs a
    /\ (remote_candidates (f a) = remote_candidates a \/ remote_candidates (f a) = ∅)
    /\ (local_candidates (f a) = local_candidates a \/ local_candidates (f a) = ∅)
    /\ (checklist (f a) = checklist a \/ checklist (f a) = [])
    /\ (nominated_pair (f a) = nominated_pair a \/ nominated_pair (f a) = None)
    /\ (selected_pair (f a) = selected_pair a \/ selected_pair (f a) = None)) ->
  quietly (modify f).
Proof using Type.
  intros H a Ha x a' [= <- <-]. destruct (H a) as (Ec & Ep & Er & Elo & El & En & Es).
  assert (extends a (f a)) as He by (split; rewrite ?Ec, ?Ep; eauto 7).
  assert (forall h, ~ in_table ∅ h) as Hempty by (intros h (k & l & Hk & _); by rewrite lookup_empty in Hk).
  split; [done|apply (numbered_step a); [done|done|..]| | |]; unfold succeeded, promised; rewrite ?Ec, ?Ep; try done.
  - intros h Hh. destruct Er as [Er|Er]; rewrite Er in Hh; [by left|by apply Hempty in Hh].
  - intros h Hh. destruct Elo as [Er'|Er']; rewrite Er' in Hh; [by left|by apply Hempty in Hh].
  - eauto.
  - intros p Hp'. destruct El as [El|El]; rewrite El in Hp'; [by left|]. by apply elem_of_nil in Hp'.
  - intros p Hs. destruct En as [En|En]; [left; congruence|congruence].
  - intros p Hs. destruct Es as [Es|Es]; [left; congruence|congruence].
  - intros p Hs. destruct Es as [Es|Es]; congruence.
Qed.

Lemma quietly_update_cand h f :
  (forall c, c_address (f c) = c_address c /\ c_port (f c) = c_port c) -> quietly (update_cand h f).
Proof using Type.
  intros Hf a Ha x a' [= <- <-].
  match goal with |- quiet a ?b => assert (extends a b) as He end.
  { split; cbn; unfold constant; [|eauto 6]. intros k c Hc. destruct (decide (h = k)) as [->|Hne].
    - exists (f c). rewrite list_lookup_alter_eq, Hc. by destruct (Hf c).
    - exists c. by rewrite list_lookup_alter_ne. }
  split; [done|apply (numbered_step a); try done; eauto|done|done|done].
Qed.

Lemma quiet_at_update_pair p f a :
  numbered a ->
  (forall x, pairs a !! p = Some x -> p_remote (f x) = p_remote x /\ p_local (f x) = p_local x
    /\ (p_state (f x) = PairSucceeded <-> p_state x = PairSucceeded)
    /\ nominate_on_binding_success (f x) = nominate_on_binding_success x) ->
  quiet_at (update_pair p f) a.
Proof using Type.
  intros Ha Hf u a' [= <- <-].
  assert (forall q y, alter f p (pairs a) !! q = Some y -> exists x, pairs a !! q = Some x
    /\ (p_remote y = p_remote x /\ p_local y = p_local x)
    /\ (p_state y = PairSucceeded <-> p_state x = PairSucceeded)
    /\ nominate_on_binding_success y = nominate_on_binding_success x) as Hback.
  { intros q y Hy. destruct (decide (p = q)) as [<-|Hne].
    - rewrite list_lookup_alter_eq in Hy. destruct (pairs a !! p) as [x|] eqn:E; [|done].
      injection Hy as <-. exists x. destruct (Hf x eq_refl) as (? & ? & ? & ?). done.
    - rewrite list_lookup_alter_ne in Hy by done. eauto 6. }
  match goal with |- quiet a ?b => assert (extends a b) as He end.
  { split; cbn; unfold constant; [eauto|]. intros q x Hx. destruct (lookup_lt_is_Some_2 (alter f p (pairs a)) q) as [y Hy].
    { rewrite length_alter. by eapply lookup_lt_Some. }
    destruct (Hback q y Hy) as (x' & Hx' & [E1 _] & E2 & E3). assert (x' = x) as -> by congruence.
    exists y. split_and!; [done|done|by apply E2|congruence]. }
  split; [done|apply (numbered_step a); try done; eauto| | |done].
  - intros q y Hy. destruct (Hback q y Hy) as (x & Hx & [-> ->] & _). eauto.
  - intros q (y & Hy & Hs). destruct (Hback q y Hy) as (x & Hx & _ & E & _). exists x. split; [done|by apply E].
  - intros q (y & Hy & Hs). destruct (Hback q y Hy) as (x & Hx & _ & _ & E). exists x. split; [done|congruence].
Qed.

Lemma quietly_nominated p : quietly (update_pair p (fun pair => pair {{ nominated := true }})).
Proof using Type. intros a Ha. by apply quiet_at_update_pair. Qed.

Ltac other_fields :=
  let a := fresh "a" in intros a; repeat case_match;
  split_and!; first [reflexivity | left; reflexivity | right; reflexivity].

(** Steps of a proof that an operation is quiet. *)
Ltac quiet_step :=
  match goal with
  | |- quietly (mret _) => apply quietly_ret
  | |- quietly (run _) => apply quietly_run
  | |- quietly (update_pair _ _) => apply quietly_nominated
  | |- quietly (modify _) => apply quietly_modify; solve [other_fields]
  | |- quietly (when _ _) => apply quietly_when
  | |- quietly (for_all _ _) => apply quietly_for_all; intros ?
  | |- quietly (get ≫= _) => apply quietly_get; intros ?; cbv beta zeta
  | |- quietly (_ ≫= _) => apply quietly_bind; [|intros ?]
  | |- quietly (match ?x with _ => _ end) => destruct x
  | |- quietly _ => solve [auto with quiet nocore]
  end.
Ltac quiet_steps := repeat quiet_step.

Lemma seen_address b t c : c_address (Candidate.seen b t c) = c_address c /\ c_port (Candidate.seen b t c) = c_port c.
Proof using Type. by destruct b. Qed.

Lemma close_address c : c_address (close_cand c) = c_address c /\ c_port (close_cand c) = c_port c.
Proof using Type. unfold close_cand, Candidate.close. by destruct (closed_open c). Qed.

Lemma quietly_seen h b t : quietly (update_cand h (Candidate.seen b t)).
Proof using Type. apply quietly_update_cand. apply seen_address. Qed.

Lemma quietly_close_cand h : quietly (update_cand h close_cand).
Proof using Type. apply quietly_update_cand. apply close_address. Qed.

Lemma quietly_new_cand c : quietly (new_cand c).
Proof using Type.
  intros a Ha h a' [= <- <-].
  match goal with |- quiet a ?b => assert (extends a b) as He end.
  { split; cbn; unfold constant; [|eauto 6]. intros k d Hd. exists d. by rewrite (lookup_app_l_Some _ _ _ _ Hd). }
  split; [done|apply (numbered_step a); try done; eauto|done|done|done].
Qed.

Hint Resolve quietly_seen quietly_close_cand quietly_new_cand : quiet.

Lemma quiet_at_add_pair local remote a : numbered a -> (local < length (cands a))%nat -> (remote < length (cands a))%nat ->
  quiet_at (add_pair local remote) a.
Proof using Type.
  intros Ha Hlo Hre u a' [= <- <-].
  set (x0 := mkCandidatePair _ _ _ _ _ _ _).
  assert (forall q y, (pairs a ++ [x0]) !! q = Some y -> pairs a !! q = Some y \/ y = x0) as Hback.
  { intros q y Hy. apply lookup_app_Some in Hy as [Hy|[_ Hy]]; [by left|right].
    apply list_lookup_singleton_Some in Hy as [_ Hy]. done. }
  match goal with |- quiet a ?b => assert (extends a b) as He end.
  { split; cbn; unfold constant; [eauto|]. intros q x Hx. exists x. by rewrite (lookup_app_l_Some _ _ _ _ Hx). }
  split; [done|apply (numbered_step a); try done; eauto| | |done].
  - intros q y Hy. destruct (Hback q y Hy) as [?| ->]; [eauto|by right].
  - intros q Hq. apply elem_of_app in Hq as [Hq|Hq%list_elem_of_singleton]; [by left|right].
    apply lookup_lt_is_Some_2. cbn. unfold constant. rewrite length_app. cbn. lia.
  - intros q (y & Hy & Hs). destruct (Hback q y Hy) as [?| ->]; [by exists y|done].
  - intros q (y & Hy & Hs). destruct (Hback q y Hy) as [?| ->]; [by exists y|done].
Qed.

Lemma add_pair_cands local remote a x a' : add_pair local remote a = Ret (x, a') -> cands a' = cands a.
Proof using Type. by intros [= _ <-]. Qed.

Lemma quiet_at_add_pairs {A} (l : list A) (f g : A -> nat) a :
  numbered a -> Forall (fun x => (f x < length (cands a))%nat /\ (g x < length (cands a))%nat) l ->
  quiet_at (for_all l (fun x => add_pair (f x) (g x))) a.
Proof using Type.
  intros Ha Hl. revert a Ha Hl. induction l as [|x l IH]; intros a Ha Hl; [by apply quietly_ret|].
  apply Forall_cons in Hl as [[Hf Hg] Hl]. apply quiet_at_bind; [by apply quiet_at_add_pair|].
  intros y a' E Hq. apply IH; [apply Hq|]. by rewrite (add_pair_cands _ _ _ _ _ E).
Qed.

Lemma of_network_in n m h : h ∈ of_network n m -> in_table m h.
Proof using Type.
  unfold of_network. destruct (m !! u8_of_network n) as [l|] eqn:E; [|by intros ?%elem_of_nil].
  intros Hh. by exists (u8_of_network n), l.
Qed.

Lemma push_in n c m h : in_table (push_cand n c m) h -> in_table m h \/ h = c.
Proof using Type.
  intros (k & l & Hk & Hh). unfold push_cand in Hk. rewrite lookup_insert_Some in Hk. destruct Hk as [[_ <-]|[_ Hk]].
  - apply elem_of_app in Hh as [Hh%of_network_in|Hh%list_elem_of_singleton]; auto.
  - left. by exists k, l.
Qed.

(** A candidate enters the table of its network. *)
Lemma quiet_at_push n c a : numbered a -> (c < length (cands a))%nat ->
  quiet_at (modify (fun a => a {{ remote_candidates := push_cand n c (remote_candidates a) }})) a.
Proof using Type.
  intros Ha Hc u a' [= <- <-].
  match goal with |- quiet a ?b => assert (extends a b) as He by (split; cbn; eauto 6) end.
  split; [done|apply (numbered_step a); try done; eauto|done|done|done]. intros h [Hh| ->]%push_in; auto.
Qed.

Lemma quiet_at_push_local n c a : numbered a -> (c < length (cands a))%nat ->
  quiet_at (modify (fun a => a {{ local_candidates := push_cand n c (local_candidates a) }})) a.
Proof using Type.
  intros Ha Hc u a' [= <- <-].
  match goal with |- quiet a ?b => assert (extends a b) as He by (split; cbn; eauto 6) end.
  split; [done|apply (numbered_step a); try done; eauto|done|done|done]. intros h [Hh| ->]%push_in; auto.
Qed.

(** A pair that there is is nominated. *)
Lemma quiet_at_nominate p a : numbered a -> is_Some (pairs a !! p) ->
  quiet_at (modify (fun a => a {{ nominated_pair := Some p }})) a.
Proof using Type.
  intros Ha Hp u a' [= <- <-].
  match goal with |- quiet a ?b => assert (extends a b) as He by (split; cbn; eauto 6) end.
  split; [done|apply (numbered_step a); try done; eauto|done|done|done]. intros q [= <-]. by right.
Qed.

Lemma quiet_at_add_remote_candidate c a : numbered a -> (c < length (cands a))%nat -> quiet_at (add_remote_candidate c) a.
Proof using Type.
  intros Ha Hc. apply quiet_at_get. cbv beta zeta. case_match; [by apply quietly_ret|].
  apply quiet_at_bind; [by apply quiet_at_push|]. intros ? a' [= _ <-] Hq.
  apply quiet_at_bind; [|intros ? b _ []; by apply quietly_modify; [other_fields|]].
  apply (quiet_at_add_pairs _ (fun h => h) (fun _ => c)); [apply Hq|]. apply Forall_forall.
  intros h Hh%of_network_in. split; [exact (nu_local a Ha h Hh)|done].
Qed.

Lemma update_cand_length h f a x b : update_cand h f a = Ret (x, b) -> length (cands b) = length (cands a).
Proof using Type. intros [= _ <-]. apply length_alter. Qed.

Lemma quiet_at_add_candidate c a : numbered a -> (c < length (cands a))%nat -> quiet_at (add_candidate c) a.
Proof using Type.
  intros Ha Hc. apply quiet_at_bind; [by apply quietly_update_cand|].
  intros ? b Eb []. rewrite <- (update_cand_length _ _ _ _ _ Eb) in Hc.
  apply quiet_at_get. cbv beta zeta. case_match; [by apply quietly_close_cand|].
  apply quiet_at_bind; [by apply quiet_at_push_local|]. intros ? d [= _ <-] Hq.
  apply quiet_at_bind.
  - apply (quiet_at_add_pairs _ (fun _ => c) (fun h => h)); [apply Hq|]. apply Forall_forall.
    intros h Hh%of_network_in. split; [done|]. by apply (nu_remote b).
  - intros _ e _ []. apply quietly_bind; [|intros _|done]; (apply quietly_modify; other_fields).
Qed.

Lemma new_cand_lt c a h b : new_cand c a = Ret (h, b) -> (h < length (cands b))%nat.
Proof using Type. intros [= <- <-]. cbn. unfold constant. rewrite length_app. cbn. lia. Qed.

Lemma quietly_new_local c : quietly (h ← new_cand c; add_candidate h).
Proof using Type.
  intros a Ha. apply quiet_at_bind; [by apply quietly_new_cand|]. intros h b E Hq.
  apply quiet_at_add_candidate; [apply Hq|by eapply new_cand_lt].
Qed.

Lemma quietly_new_remote c : quietly (h ← new_cand c; add_remote_candidate h).
Proof using Type.
  intros a Ha. apply quiet_at_bind; [by apply quietly_new_cand|]. intros h b E Hq.
  apply quiet_at_add_remote_candidate; [apply Hq|by eapply new_cand_lt].
Qed.
Hint Resolve quietly_new_local : quiet.

Lemma quietly_write_to now b local dst : quietly (write_to send_ok now b local dst).
Proof using Type. unfold write_to. quiet_steps. Qed.
Hint Resolve quietly_write_to : quiet.

Lemma quietly_send_stun now m local remote : quietly (send_stun send_ok now m local remote).
Proof using Type. unfold send_stun. quiet_steps. Qed.
Hint Resolve quietly_send_stun : quiet.

Lemma quietly_send_binding_request now m local remote : quietly (send_binding_request send_ok now m local remote).
Proof using Type. unfold send_binding_request, invalidate_pending_binding_requests. quiet_steps. Qed.

Lemma quietly_send_binding_success now m local remote : quietly (send_binding_success send_ok now m local remote).
Proof using Type. unfold send_binding_success. quiet_steps. Qed.
Hint Resolve quietly_send_binding_request quietly_send_binding_success : quiet.

Lemma quietly_new_transaction_id : quietly (new_transaction_id random_id).
Proof using Type. unfold new_transaction_id. quiet_steps. Qed.
Hint Resolve quietly_new_transaction_id : quiet.

Lemma quietly_ping_candidate now local remote : quietly (ping_candidate random_id send_ok now local remote).
Proof using Type. unfold ping_candidate. quiet_steps. Qed.

Lemma quietly_nominate_pair now : quietly (nominate_pair random_id send_ok now).
Proof using Type. unfold nominate_pair. quiet_steps. Qed.
Hint Resolve quietly_ping_candidate quietly_nominate_pair : quiet.

Lemma quietly_update_connection_state s : quietly (update_connection_state s).
Proof using Type. unfold update_connection_state, delete_all_candidates. quiet_steps. Qed.
Hint Resolve quietly_update_connection_state : quiet.

Lemma quietly_check_pair p : quietly (check_pair p).
Proof using Type.
  intros a Ha. apply quiet_at_get. cbv beta zeta. case_match eqn:Es; [|by apply quietly_ret].
  apply quiet_at_bind.
  { apply quiet_at_update_pair; [done|]. intros x Hx. split_and!; [done|done|cbn; unfold constant|done].
    unfold pair_of in Es. rewrite Hx in Es. cbn in Es. split; [done|]. intros E. by rewrite E in Es. }
  destruct (_ <? _); intros ? ? [= _ <-] Hq.
  - apply quiet_at_bind; [|intros _ c _ []; by apply quietly_ret].
    apply quiet_at_update_pair; [apply Hq|]. intros y. cbn. unfold constant. rewrite list_lookup_alter_eq.
    destruct (pairs a !! p); [|done]. by intros [= <-].
  - apply quiet_at_bind; [|intros _ c _ []; by apply quietly_ret]. by apply quiet_at_update_pair; [apply Hq|].
Qed.
Hint Resolve quietly_check_pair : quiet.

Lemma quietly_ping_all now : quietly (ping_all_candidates random_id send_ok now).
Proof using Type.
  unfold ping_all_candidates. apply quietly_get. intros a. apply quietly_bind; [|intros l; quiet_steps].
  induction (checklist a) as [|p l IH]; cbn [check_pairs]; quiet_steps.
Qed.
Hint Resolve quietly_ping_all : quiet.

Lemma quietly_keep_selected now : quietly (keep_selected random_id send_ok now).
Proof using Type. unfold keep_selected, validate_selected_pair, check_keepalive. quiet_steps. Qed.
Hint Resolve quietly_keep_selected : quiet.

(** The best pair is one of the list. *)
Lemma best_of_in a usable best l p : best_of a usable best l = Ret (Some p) -> best = Some p \/ p ∈ l.
Proof using Type.
  revert best. induction l as [|q l IH]; intros best H; [left; by injection H|]. cbn [best_of] in H.
  destruct (negb _); [destruct (IH _ H); [by left|right; by right]|].
  destruct best as [b|]; [|destruct (IH _ H) as [[= ->]|?]; right; [by left|by right]].
  apply bind_Ret_inv in H as (x & _ & H). apply bind_Ret_inv in H as (y & _ & H).
  destruct (IH _ H) as [E|?]; [|right; by right]. destruct (x <? y); injection E as ->; [right; by left|by left].
Qed.

Lemma quietly_controlling_contact now : quietly (controlling_contact_candidates random_id send_ok now).
Proof using Type.
  intros a Ha. apply quiet_at_get. destruct (is_Some_dec (selected_pair a)); [by apply quietly_keep_selected|].
  destruct (is_Some_dec (nominated_pair a)); [by apply quietly_nominate_pair|].
  apply quiet_at_bind; [by apply quietly_run|]. intros best a1 E Hq.
  apply bind_Ret_inv in E as (best' & Hb & [= -> <-]).
  destruct best as [p|]; [|by apply quietly_ping_all].
  destruct (_ && _); [|by apply quietly_ping_all].
  apply best_of_in in Hb as [?|Hb]; [done|]. apply (nu_checklist a Ha) in Hb.
  apply quiet_at_bind; [by apply quietly_nominated|]. intros _ a2 _ Hq2.
  apply quiet_at_bind; [apply quiet_at_nominate; [apply Hq2|by eapply extends_pairs; [apply Hq2|]]|].
  intros _ a3 _ Hq3. apply quietly_nominate_pair, Hq3.
Qed.
Hint Resolve quietly_controlling_contact : quiet.

Lemma quietly_contact now l : quietly (contact random_id send_ok now l).
Proof using Type.
  unfold contact, contact_candidates, controlled_contact_candidates, validate_selected_pair. quiet_steps.
Qed.

Lemma quietly_agent_add_remote_candidate answer c : quietly (agent_add_remote_candidate answer c).
Proof using Type. unfold agent_add_remote_candidate. repeat case_match; auto using quietly_ret, quietly_new_remote. Qed.

Lemma quietly_set_remote_credentials ufrag pwd : quietly (set_remote_credentials ufrag pwd).
Proof using Type. unfold set_remote_credentials. quiet_steps. Qed.

Lemma quietly_close : quietly close.
Proof using Type. unfold close, delete_all_candidates. quiet_steps. Qed.

Lemma quietly_restart now ufrag pwd : quietly (restart now ufrag pwd).
Proof using Type. unfold restart, set_selected_pair, delete_all_candidates, start. quiet_steps. Qed.

Lemma quietly_start now c ufrag pwd : quietly (start_connectivity_checks now c ufrag pwd).
Proof using Type.
  unfold start_connectivity_checks, set_remote_credentials, start, request_connectivity_check. quiet_steps.
Qed.

Lemma quietly_conn_send now b : quietly (conn_send send_ok now b).
Proof using Type. unfold conn_send, count_sent. quiet_steps. Qed.

Lemma quietly_conn_recv n : quietly (conn_recv n).
Proof using Type. unfold conn_recv. quiet_steps. Qed.
Hint Resolve quietly_agent_add_remote_candidate quietly_set_remote_credentials quietly_close quietly_restart quietly_start quietly_conn_send
  quietly_conn_recv : quiet.

(** Every event but a datagram is quiet. *)
Lemma quietly_handle now e : (forall local buf src, e <> Datagram local buf src) -> quietly (ice_handle now e).
Proof using Type. intros H. destruct e; [by edestruct H|..]; cbn [ice_handle]; unfold ignore; try apply quietly_new_local; quiet_steps. Qed.

(** ** A datagram *)

Section datagram.
  Context (may_succeed may_promise may_select : Prop) (src : SocketAddr) (a0 : AgentInternal).

(** Since [a0], only pairs with the remote address [src] have become valid or are promised, and
    only a valid one that was promised or may be selected is the selected one. *)
Record kept (a : AgentInternal) : Prop := mkKept {
  ke_extends : extends a0 a;
  ke_numbered : numbered a;
  ke_succeeded : forall p, succeeded a p -> succeeded a0 p \/ (may_succeed /\ at_address a p src);
  ke_promised : forall p, promised a p -> promised a0 p \/ (may_promise /\ at_address a p src);
  ke_selected : forall p, selected_pair a = Some p -> selected_pair a0 = Some p
    \/ (succeeded a p /\ (promised a p \/ (may_select /\ at_address a p src))) }.

Lemma at_address_extends a b p x : extends a b -> numbered a -> pairs a !! p = Some x -> at_address a p src -> at_address b p src.
Proof using Type.
  intros [Hc Hp] Hn Hx. unfold at_address, pair_of, cand. rewrite Hx. cbn.
  destruct (Hp p x Hx) as (y & Hy & Er & _). rewrite Hy. cbn. rewrite Er.
  destruct (lookup_lt_is_Some_2 (cands a) (p_remote x)) as [c E]; [by eapply nu_pairs|].
  destruct (Hc _ _ E) as (d & Hd & E1 & E2). rewrite E, Hd. cbn. by rewrite E1, E2.
Qed.

Lemma succeeded_extends a b p : extends a b -> succeeded a p -> succeeded b p.
Proof using Type. intros [_ Hp] (x & Hx & Hs). destruct (Hp p x Hx) as (y & Hy & _ & E & _). exists y. auto. Qed.

Lemma promised_extends a b p : extends a b -> promised a p -> promised b p.
Proof using Type. intros [_ Hp] (x & Hx & Hs). destruct (Hp p x Hx) as (y & Hy & _ & _ & E). exists y. auto. Qed.

Lemma kept_refl : numbered a0 -> kept a0.
Proof using Type. intros H. split; auto using extends_refl. Qed.

Lemma kept_quiet a b : kept a -> quiet a b -> kept b.
Proof using Type.
  intros [K1 K2 K3 K4 K5] [Q1 Q2 Q3 Q4 Q5]. split; [by eapply extends_trans|done|..].
  - intros p Hs%Q3. destruct (K3 p Hs) as [?|[? ?]]; [by left|right]. destruct Hs as (x & Hx & _).
    eauto using at_address_extends.
  - intros p Hs%Q4. destruct (K4 p Hs) as [?|[? ?]]; [by left|right]. destruct Hs as (x & Hx & _).
    eauto using at_address_extends.
  - intros p Hs%Q5. destruct (K5 p Hs) as [?|[Hp Hw]]; [by left|right].
    split; [by eapply succeeded_extends|]. destruct Hw as [Hw|[? ?]]; [left; by eapply promised_extends|right].
    destruct Hp as (x & Hx & _). eauto using at_address_extends.
Qed.

Lemma kept_quietly {A} (m : ice A) a x b : quietly m -> kept a -> m a = Ret (x, b) -> kept b.
Proof using Type. intros Hm Ha E. eapply kept_quiet; [done|]. by eapply Hm; [apply Ha|]. Qed.

Lemma extends_update_pair p f a :
  (forall x, p_remote (f x) = p_remote x
    /\ (p_state x = PairSucceeded -> p_state (f x) = PairSucceeded)
    /\ (nominate_on_binding_success x = true -> nominate_on_binding_success (f x) = true)) ->
  extends a (a {{ pairs := alter f p (pairs a) }}).
Proof using Type.
  intros Hf. split; cbn; unfold constant; [eauto|]. intros q x Hx. destruct (decide (p = q)) as [<-|Hne].
  - exists (f x). rewrite list_lookup_alter_eq, Hx. destruct (Hf x) as (? & ? & ?). done.
  - exists x. by rewrite list_lookup_alter_ne.
Qed.

(** A pair at the address changes. *)
Lemma kept_update_pair p f a :
  kept a -> at_address a p src ->
  (forall x, (p_remote (f x) = p_remote x /\ p_local (f x) = p_local x)
    /\ (p_state x = PairSucceeded -> p_state (f x) = PairSucceeded)
    /\ (nominate_on_binding_success x = true -> nominate_on_binding_success (f x) = true)
    /\ (p_state (f x) = PairSucceeded -> p_state x = PairSucceeded \/ may_succeed)
    /\ (nominate_on_binding_success (f x) = true -> nominate_on_binding_success x = true \/ may_promise)) ->
  kept (a {{ pairs := alter f p (pairs a) }}).
Proof using Type.
  intros [K1 K2 K3 K4 K5] Hat Hf. set (b := a {{ pairs := alter f p (pairs a) }}).
  assert (extends a b) as Hab by (apply extends_update_pair; intros x; by destruct (Hf x) as ([? _] & ? & ? & _)).
  assert (forall q y, pairs b !! q = Some y -> exists x, pairs a !! q = Some x /\ (y = x \/ q = p /\ y = f x)) as Hback.
  { intros q y. cbn. unfold constant. destruct (decide (p = q)) as [<-|Hne].
    - rewrite list_lookup_alter_eq. destruct (pairs a !! p) as [x|]; [|done]. intros [= <-]. eauto.
    - rewrite list_lookup_alter_ne by done. eauto. }
  split; [by eapply extends_trans|apply (numbered_step a); try done; eauto|..].
  - intros q y Hy. left. destruct (Hback q y Hy) as (x & Hx & [->|[_ ->]]); exists x; [done|].
    by destruct (Hf x) as [[-> ->] _].
  - intros q (y & Hy & Hs). destruct (Hback q y Hy) as (x & Hx & He).
    assert (at_address a q src -> at_address b q src) as Hmove by eauto using at_address_extends.
    destruct He as [->|[-> ->]]; [|destruct (Hf x) as (_ & _ & _ & Hs' & _); destruct (Hs' Hs) as [Hs0|Hmay]; [|auto]].
    + destruct (K3 q) as [?|[? ?]]; [by exists x|by left|auto].
    + destruct (K3 p) as [?|[? ?]]; [by exists x|by left|auto].
  - intros q (y & Hy & Hs). destruct (Hback q y Hy) as (x & Hx & He).
    assert (at_address a q src -> at_address b q src) as Hmove by eauto using at_address_extends.
    destruct He as [->|[-> ->]]; [|destruct (Hf x) as (_ & _ & _ & _ & Hs'); destruct (Hs' Hs) as [Hs0|Hmay]; [|auto]].
    + destruct (K4 q) as [?|[? ?]]; [by exists x|by left|auto].
    + destruct (K4 p) as [?|[? ?]]; [by exists x|by left|auto].
  - intros q Hq. destruct (K5 q Hq) as [?|[Hs Hw]]; [by left|right].
    split; [by eapply succeeded_extends|]. destruct Hw as [Hw|[? ?]]; [left; by eapply promised_extends|right].
    destruct Hs as (x & Hx & _). eauto using at_address_extends.
Qed.

Lemma kept_set_selected_pair p a x b :
  kept a -> succeeded a p -> promised a p \/ (may_select /\ at_address a p src) ->
  set_selected_pair (Some p) a = Ret (x, b) -> kept b.
Proof using Type.
  intros Ha Hs Hw H. apply bind_Ret_inv in H as ([u1 a1] & E1 & H). apply bind_Ret_inv in H as ([u2 a2] & E2 & H).
  assert (quiet a a1) as Hq by (by eapply quietly_nominated; [apply Ha|]).
  assert (kept a1) as [K1 K2 K3 K4 K5] by (by eapply kept_quiet).
  assert (kept a2) as H2; [|revert H2 H; apply kept_quietly; quiet_steps].
  assert (succeeded a1 p) as Hs1 by (by eapply succeeded_extends; [apply Hq|]).
  assert (promised a1 p \/ (may_select /\ at_address a1 p src)) as Hw1.
  { destruct Hw as [Hw|[? ?]]; [left; by eapply promised_extends; [apply Hq|]|right].
    destruct Hs as (y & Hy & _). split; [done|]. by eapply at_address_extends; [apply Hq|apply Ha|..]. }
  injection E2 as _ <-.
  match goal with |- kept ?b => assert (extends a1 b) as He by (split; cbn; eauto 6) end.
  split; [by eapply extends_trans| |exact K3|exact K4|].
  { apply (numbered_step a1); try done; eauto. intros q [= <-]. right. by destruct Hs1 as (y & Hy & _); exists y. }
  intros q [= <-]. right. exact (conj Hs1 Hw1).
Qed.

(** A remote candidate of the address. *)
Definition known (a : AgentInternal) (h : nat) : Prop :=
  exists c, cands a !! h = Some c /\ c_address c = display_ip (ip src) /\ c_port c = port src.

Lemma known_extends a b h : extends a b -> known a h -> known b h.
Proof using Type.
  intros [Hc _] (c & E & E1 & E2). destruct (Hc h c E) as (d & Ed & E3 & E4). exists d. split_and!; congruence.
Qed.

Lemma known_lt a h : known a h -> (h < length (cands a))%nat.
Proof using Type. intros (c & E & _). by eapply lookup_lt_Some. Qed.

Lemma equal_address c d : Candidate.equal c d = true -> c_address c = c_address d /\ c_port c = c_port d.
Proof using Type.
  unfold Candidate.equal. rewrite !andb_true_iff, String.eqb_eq, Z.eqb_eq. tauto.
Qed.

Lemma find_pair_at_address a local h p : numbered a -> known a h -> find_pair a local h = Some p ->
  is_Some (pairs a !! p) /\ at_address a p src.
Proof using Type.
  intros Ha (c & E & E1 & E2) H. apply find_some in H as [Hin H]. apply andb_prop in H as [_ [H1 H2]%equal_address].
  split; [by eapply nu_checklist, list_elem_of_In|].
  unfold at_address. rewrite H1, H2. unfold cand. by rewrite E.
Qed.

Lemma find_remote_known a n h : numbered a -> find_remote_candidate a n src = Some h -> known a h.
Proof using Type.
  intros Ha H. apply find_some in H as [Hin H]. apply andb_prop in H as [H1%String.eqb_eq H2%Z.eqb_eq].
  apply list_elem_of_In, of_network_in, (nu_remote a Ha) in Hin.
  apply lookup_lt_is_Some_2 in Hin as [c E]. unfold cand in H1, H2. rewrite E in H1, H2. by exists c.
Qed.

Lemma reflexive_address typ fresh b rel rp c :
  Candidate.new_candidate_reflexive typ fresh b rel rp = Ok c -> c_address c = cfg_address b /\ c_port c = cfg_port b.
Proof using Type.
  unfold Candidate.new_candidate_reflexive. destruct (parse_ip (cfg_address b)); [|done].
  destruct (determine_network_type _ _); [|done..]. by intros [= <-].
Qed.

Lemma peer_reflexive_known now local a x b :
  numbered a -> peer_reflexive cand_id now local src a = Ret (x, b) ->
  quiet a b /\ (forall h, x = Some h -> known b h).
Proof using Type.
  intros Ha H. apply bind_Ret_inv in H as ([? ?] & [= <- <-] & H). cbv beta zeta in H.
  destruct (Candidate.new_candidate_peer_reflexive _ _ _ _) as [c| | |] eqn:Ec;
    [|injection H as <- <-; split; [by apply quiet_refl|done]..].
  apply reflexive_address in Ec as [E1 E2].
  apply bind_Ret_inv in H as ([h a1] & H1 & H). apply bind_Ret_inv in H as ([u a2] & H2 & [= <- <-]).
  pose proof (quietly_new_cand c a Ha _ _ H1) as Q1. injection H1 as Eh Ea.
  assert (known a1 h) as Hk.
  { exists c. split; [|done]. by rewrite <- Ea, <- Eh; cbn; unfold constant; rewrite list_lookup_middle. }
  pose proof (quiet_at_add_remote_candidate h a1 (qu_numbered _ _ Q1) (known_lt _ _ Hk) _ _ H2) as Q2.
  split; [by eapply quiet_trans|]. intros h' [= <-]. eapply known_extends; [apply Q2|done].
Qed.

Lemma take_request_Some id l r rest : take_request id l = Some (r, rest) -> r ∈ l /\ br_transaction_id r = id.
Proof using Type.
  revert rest. induction l as [|y l IH]; intros rest; cbn; [done|].
  destruct (Z.eqb_spec (br_transaction_id y) id) as [E|_]; [intros [= <- _]; split; [left|done]|].
  destruct (take_request id l) as [[z l']|]; [|done]. intros [= <- _]. destruct (IH l' eq_refl). split; [by right|done].
Qed.

Lemma binding_success_request now id a x b :
  numbered a -> handle_inbound_binding_success now id a = Ret (x, b) ->
  quiet a b /\ is_controlling b = is_controlling a
  /\ (forall r, x = Some r -> r ∈ pending_binding_requests a /\ br_transaction_id r = id /\ fresh_request now r).
Proof using Type.
  intros Ha H. split.
  { revert H. assert (quietly (handle_inbound_binding_success now id)) as Hq; [|by apply Hq].
    unfold handle_inbound_binding_success, invalidate_pending_binding_requests. quiet_steps. }
  apply bind_Ret_inv in H as ([u a1] & [= _ E] & H). apply bind_Ret_inv in H as ([? ?] & [= <- <-] & H).
  assert (is_controlling a1 = is_controlling a) as Hc by (by rewrite <- E).
  destruct (take_request id (pending_binding_requests a1)) as [[r rest]|] eqn:Et.
  - apply bind_Ret_inv in H as ([u' a2] & [= _ E'] & [= <- <-]).
    split; [by rewrite <- E'|]. intros r' [= <-]. apply take_request_Some in Et as [Hr Hid].
    rewrite <- E in Hr. cbn in Hr. unfold constant in Hr. apply list_elem_of_filter in Hr as [Hf Hr].
    split_and!; [done|done|]. apply Is_true_true, orb_prop in Hf as [Hf|Hf].
    + left. by apply bool_decide_eq_true in Hf.
    + right. by apply Z.ltb_lt in Hf.
  - injection H as <- <-. done.
Qed.

(** A success response that belongs to a request of the agent. *)
Lemma kept_success_response now m local rc x b :
  numbered a0 -> known a0 rc ->
  (forall r, r ∈ pending_binding_requests a0 -> br_transaction_id r = transaction_id m -> destination r = src ->
    fresh_request now r -> may_succeed /\ (is_controlling a0 = true -> is_use_candidate r = true -> may_select)) ->
  handle_success_response now m local rc src a0 = Ret (x, b) -> kept b.
Proof using Type.
  intros Ha Hk Hr H. apply bind_Ret_inv in H as ([r a1] & E & H).
  apply binding_success_request in E as (Hq & Hc & Hreq); [|done].
  pose proof (kept_quiet _ _ (kept_refl Ha) Hq) as K1.
  destruct r as [r|]; [|by injection H as _ <-]. destruct (Hreq r eq_refl) as (Hin & Hid & Hfresh).
  case_bool_decide as Hdst; cbn [negb] in H; [|by injection H as _ <-]. destruct (Hr r Hin Hid Hdst Hfresh) as [Hms Hsel].
  apply bind_Ret_inv in H as ([? ?] & [= <- <-] & H).
  destruct (find_pair a1 local rc) as [p|] eqn:Ef; [|by injection H as _ <-].
  apply find_pair_at_address in Ef as [[y Hy] Hat]; [|apply K1|by eapply known_extends; [apply Hq|]].
  apply bind_Ret_inv in H as ([u a2] & [= _ E2] & H).
  assert (kept a2) as K2 by (rewrite <- E2; by apply kept_update_pair; [..|intros ?; split_and!; auto]).
  assert (extends a1 a2) as Hex by (rewrite <- E2; by apply extends_update_pair).
  assert (succeeded a2 p) as Hs.
  { eexists. split; [by rewrite <- E2; cbn; unfold constant; rewrite list_lookup_alter_eq, Hy|done]. }
  match type of H with when ?b _ _ = _ => destruct b eqn:Eb end; [|by injection H as _ <-].
  apply andb_prop in Eb as [Eb _]. eapply kept_set_selected_pair, H; [done..|]. rewrite Hc in Eb.
  destruct (is_controlling a0); [right; split; [auto|]; by eapply at_address_extends; [|apply K1|..]|].
  left. eapply promised_extends; [done|]. exists y. split; [done|]. unfold pair_of in Eb. by rewrite Hy in Eb.
Qed.

(** A request of the controlling peer. *)
Lemma kept_controlled_request now m local rc a x b :
  kept a -> (local < length (cands a))%nat -> known a rc ->
  (contains AttrUseCandidate m = true -> may_promise /\ may_select) ->
  controlled_handle_binding_request random_id send_ok now m local rc a = Ret (x, b) -> kept b.
Proof using Type.
  intros Ka Hlo Hk Hm H. apply bind_Ret_inv in H as ([? ?] & [= <- <-] & H).
  apply bind_Ret_inv in H as ([u a1] & E1 & H).
  assert (quiet a a1) as Hq.
  { destruct (bool_decide _); [|injection E1 as _ <-; apply quiet_refl, Ka].
    by eapply quiet_at_add_pair; [apply Ka|done|by apply known_lt|]. }
  pose proof (kept_quiet _ _ Ka Hq) as K1. apply bind_Ret_inv in H as ([? ?] & [= <- <-] & H).
  destruct (find_pair a1 local rc) as [p|] eqn:Ef; [|by injection H as _ <-].
  apply find_pair_at_address in Ef as [[y Hy] Hat]; [|apply K1|by eapply known_extends; [apply Hq|]].
  apply bind_Ret_inv in H as ([u2 a2] & E2 & H).
  assert (kept a2) as K2; [|revert K2 H; apply kept_quietly; quiet_steps].
  destruct (contains AttrUseCandidate m) eqn:Euse; [|by injection E2 as _ <-]. destruct (Hm eq_refl) as [Hmp Hms].
  cbn [when] in E2. case_bool_decide as Hst.
  - destruct (bool_decide (selected_pair a1 = None)); [|by injection E2 as _ <-].
    eapply kept_set_selected_pair, E2; [done|exists y|auto]. unfold pair_of in Hst. by rewrite Hy in Hst.
  - injection E2 as _ <-. apply kept_update_pair; [done..|]. intros z; split_and!; auto.
Qed.

Lemma quiet_controlling_request now m local rc a :
  numbered a -> (local < length (cands a))%nat -> known a rc ->
  quiet_at (controlling_handle_binding_request random_id send_ok now m local rc) a.
Proof using Type.
  intros Ha Hlo Hk. apply quiet_at_bind; [by apply quietly_send_binding_success|]. intros _ b _ [Q1 Q2 _ _ _].
  pose proof (extends_length _ _ Q1) as Hlen. apply known_extends with (b := b), known_lt in Hk; [|done].
  apply quiet_at_get. destruct (find_pair b local rc) as [p|] eqn:Ef; [|apply quiet_at_add_pair; [done|lia|done]].
  apply find_some in Ef as [Hp%list_elem_of_In%(nu_checklist b Q2) _].
  destruct (_ && _); [|by apply quietly_ret]. apply quiet_at_bind; [by apply quietly_run|]. intros best c E Hq.
  apply bind_Ret_inv in E as (best' & _ & [= -> <-]). destruct best as [best|]; [|by apply quietly_ret].
  destruct (_ && _); [|by apply quietly_ret]. apply quiet_at_bind; [by apply quiet_at_nominate|].
  intros _ d _ Hq2. apply quietly_nominate_pair, Hq2.
Qed.

Lemma kept_binding_request now m local rc a x b :
  kept a -> (local < length (cands a))%nat -> known a rc ->
  (is_controlling a = false -> contains AttrUseCandidate m = true -> may_promise /\ may_select) ->
  handle_binding_request random_id send_ok now m local rc a = Ret (x, b) -> kept b.
Proof using Type.
  intros Ka Hlo Hk Hm H. apply bind_Ret_inv in H as ([? ?] & [= <- <-] & H). destruct (is_controlling a).
  - eapply kept_quiet; [done|]. by eapply quiet_controlling_request; [apply Ka|..].
  - eapply kept_controlled_request; eauto.
Qed.
End datagram.

Lemma add_pairs_role {A} (l : list A) (f g : A -> nat) a x b :
  for_all l (fun y => add_pair (f y) (g y)) a = Ret (x, b) -> is_controlling b = is_controlling a.
Proof using Type.
  revert a. induction l as [|y l IH]; intros a H; [by injection H as _ <-|].
  apply bind_Ret_inv in H as ([u a1] & [= _ E] & H). rewrite (IH _ H). by rewrite <- E.
Qed.

Lemma peer_reflexive_role now local src a x b :
  peer_reflexive cand_id now local src a = Ret (x, b) -> is_controlling b = is_controlling a.
Proof using Type.
  intros H. apply bind_Ret_inv in H as ([? ?] & [= <- <-] & H). cbv beta zeta in H.
  destruct (Candidate.new_candidate_peer_reflexive _ _ _ _) as [c| | |]; [|by injection H as _ <-..].
  apply bind_Ret_inv in H as ([h a1] & [= _ E1] & H). apply bind_Ret_inv in H as ([u a2] & H2 & [= _ <-]).
  trans (is_controlling a1); [|by rewrite <- E1]. clear E1.
  apply bind_Ret_inv in H2 as ([? ?] & [= <- <-] & H2). cbv beta zeta in H2.
  destruct (existsb _ _); [by injection H2 as _ <-|]. apply bind_Ret_inv in H2 as ([v a3] & [= _ E3] & H2).
  apply bind_Ret_inv in H2 as ([w a4] & E4 & [= _ <-]). trans (is_controlling a4); [done|].
  apply (add_pairs_role _ (fun h => h) (fun _ => h)) in E4. rewrite E4. by rewrite <- E3.
Qed.

(** What a datagram allows is what it is. *)
Lemma datagram_kept now local buf src a x b :
  numbered a -> (local < length (cands a))%nat ->
  handle_inbound_candidate_msg random_id cand_id send_ok now local buf src a = Ret (x, b) ->
  kept (is_answer false now a buf src) (is_nomination a buf) (is_answer true now a buf src \/ is_nomination a buf) src a b.
Proof using Type.
  intros Ha Hlo H. unfold handle_inbound_candidate_msg in H. destruct (is_message buf).
  2:{ revert H. apply kept_quietly; [|by apply kept_refl]. unfold validate_non_stun_traffic. quiet_steps. }
  destruct (decode buf) as [m|] eqn:Ed; [|injection H as _ <-; by apply kept_refl].
  apply bind_Ret_inv in H as ([? ?] & [= <- <-] & H). cbv beta zeta in H.
  destruct (ignored a m) eqn:Eg; [injection H as _ <-; by apply kept_refl|].
  unfold ignored in Eg. apply orb_false_elim in Eg as [[Hb%negb_false_iff _]%orb_false_elim _].
  pose proof (kept_refl (is_answer false now a buf src) (is_nomination a buf)
    (is_answer true now a buf src \/ is_nomination a buf) src a Ha) as K.
  destruct (class_of m) eqn:Em.
  - destruct (negb (assert_inbound_username _ _)) eqn:Eu; [by injection H as _ <-|]. apply negb_false_iff in Eu.
    destruct (negb (integrity_ok _ m)) eqn:Ei; [by injection H as _ <-|]. apply negb_false_iff in Ei.
    apply bind_Ret_inv in H as ([rc a1] & E1 & H).
    assert (quiet a a1 /\ is_controlling a1 = is_controlling a /\ forall h, rc = Some h -> known src a1 h) as (Hq & Hrole & Hk).
    { destruct (find_remote_candidate _ _ _) as [h|] eqn:Ef.
      - injection E1 as <- <-. split_and!; [by apply quiet_refl|done|]. intros ? [= <-]. by eapply find_remote_known.
      - pose proof (peer_reflexive_role _ _ _ _ _ _ E1). apply peer_reflexive_known in E1 as [? ?]; done. }
    pose proof (kept_quiet _ _ _ _ _ _ _ K Hq) as K1.
    destruct rc as [rc|]; [|by injection H as _ <-]. apply bind_Ret_inv in H as ([u a2] & E2 & H).
    assert (forall K' : is_controlling a1 = false /\ contains AttrUseCandidate m = true, is_nomination a buf) as Hnom.
    { intros [Hc Huse]. exists m. rewrite Hrole in Hc. done. }
    pose proof (extends_length _ _ (qu_extends _ _ Hq)) as Hlen.
    eapply kept_quietly, H; [apply quietly_seen|]. eapply kept_binding_request, E2; [done|lia|auto|]. intros. split; auto.
  - revert K H. apply kept_quietly. quiet_steps.
  - destruct (negb (integrity_ok _ m)) eqn:Ei; [by injection H as _ <-|]. apply negb_false_iff in Ei.
    destruct (find_remote_candidate _ _ _) as [h|] eqn:Ef; [|by injection H as _ <-].
    apply bind_Ret_inv in H as ([u a1] & E1 & H). eapply kept_quietly, H; [apply quietly_seen|].
    eapply kept_success_response, E1; [done|by eapply find_remote_known|].
    intros r Hr Hid Hdst Hf. split; [exists m, r; by split_and!|]. intros Hc Hu. left. exists m, r. by split_and!.
  - revert K H. apply kept_quietly. quiet_steps.
Qed.

(** ** Runs *)

(** In the run so far: an answer to a check of the remote address of the pair, or a nomination
    from there. *)
Definition answered (nominating : bool) (tr : list (Clock * AgentInternal * ice_event)) (a : AgentInternal) (p : nat) : Prop :=
  exists now a' local buf src, (now, a', Datagram local buf src) ∈ tr /\ is_answer nominating now a' buf src /\ at_address a p src.

Definition nominated_by_peer (tr : list (Clock * AgentInternal * ice_event)) (a : AgentInternal) (p : nat) : Prop :=
  exists now a' local buf src, (now, a', Datagram local buf src) ∈ tr /\ is_nomination a' buf /\ at_address a p src.

Record checked_run (tr : list (Clock * AgentInternal * ice_event)) (a : AgentInternal) : Prop := mkCheckedRun {
  cr_numbered : numbered a;
  cr_succeeded : forall p, succeeded a p -> answered false tr a p;
  cr_promised : forall p, promised a p -> nominated_by_peer tr a p;
  cr_selected : forall p, selected_pair a = Some p -> succeeded a p /\ (answered true tr a p \/ nominated_by_peer tr a p) }.

Lemma answered_later n tr e a b p : numbered a -> extends a b -> is_Some (pairs a !! p) ->
  answered n tr a p -> answered n (tr ++ [e]) b p.
Proof using Type.
  intros Ha He [x Hx] (now & a' & l & buf & src & Hin & Hm & Hat). exists now, a', l, buf, src.
  split_and!; [by apply elem_of_app; left|done|by eapply at_address_extends].
Qed.

Lemma nominated_later tr e a b p : numbered a -> extends a b -> is_Some (pairs a !! p) ->
  nominated_by_peer tr a p -> nominated_by_peer (tr ++ [e]) b p.
Proof using Type.
  intros Ha He [x Hx] (now & a' & l & buf & src & Hin & Hm & Hat). exists now, a', l, buf, src.
  split_and!; [by apply elem_of_app; left|done|by eapply at_address_extends].
Qed.

Lemma succeeded_is_Some a p : succeeded a p -> is_Some (pairs a !! p).
Proof using Type. intros (x & Hx & _). by exists x. Qed.

Lemma promised_is_Some a p : promised a p -> is_Some (pairs a !! p).
Proof using Type. intros (x & Hx & _). by exists x. Qed.

Lemma checked_quiet tr e a b : checked_run tr a -> quiet a b -> checked_run (tr ++ [e]) b.
Proof using Type.
  intros [C1 C2 C3 C4] [Q1 Q2 Q3 Q4 Q5]. split; [done|..].
  - intros p Hp%Q3. eauto using answered_later, succeeded_is_Some.
  - intros p Hp%Q4. eauto using nominated_later, promised_is_Some.
  - intros p Hp%Q5. destruct (C4 p Hp) as [Hs Hw]. split; [by eapply succeeded_extends|].
    destruct Hw; [left; apply (answered_later _ _ _ a)|right; apply (nominated_later _ _ a)]; auto using succeeded_is_Some.
Qed.

Lemma checked_datagram tr now local buf src a b :
  checked_run tr a ->
  kept (is_answer false now a buf src) (is_nomination a buf) (is_answer true now a buf src \/ is_nomination a buf) src a b ->
  checked_run (tr ++ [(now, a, Datagram local buf src)]) b.
Proof using Type.
  intros [C1 C2 C3 C4] [K1 K2 K3 K4 K5].
  assert ((now, a, Datagram local buf src) ∈ tr ++ [(now, a, Datagram local buf src)]) as Hin
    by (apply elem_of_app; right; by left).
  assert (forall p, promised b p -> nominated_by_peer (tr ++ [(now, a, Datagram local buf src)]) b p) as Hprom.
  { intros p Hp. destruct (K4 p Hp) as [Ho|[? ?]]; [eauto using nominated_later, promised_is_Some|].
    by exists now, a, local, buf, src. }
  split; [done| |done|].
  - intros p Hp. destruct (K3 p Hp) as [Ho|[? ?]]; [eauto using answered_later, succeeded_is_Some|].
    by exists now, a, local, buf, src.
  - intros p Hp. destruct (K5 p Hp) as [Ho|[Hs Hw]].
    + destruct (C4 p Ho) as [Hs Hw]. split; [by eapply succeeded_extends|].
      destruct Hw; [left; apply (answered_later _ _ _ a)|right; apply (nominated_later _ _ a)]; auto using succeeded_is_Some.
    + split; [done|]. destruct Hw as [Hw|[[Hm|Hm] ?]]; [right; auto|left|right]; by exists now, a, local, buf, src.
Qed.

Lemma run_checked tr s : ice_run tr s -> checked_run tr s.1.
Proof using Type.
  induction 1 as [now tie c is_lite t l|tr [a l] now e s' _ IH Hs].
  - assert (forall h, ~ in_table ∅ h) as Hempty by (intros h (k & l' & Hk & _); by rewrite lookup_empty in Hk).
    split; [split|intros p (x & Hx & _); done|intros p (x & Hx & _); done|done]; try done.
    + intros h Hh. by apply Hempty in Hh.
    + intros h Hh. by apply Hempty in Hh.
    + intros p Hp. by apply elem_of_nil in Hp.
  - cbn [fst] in *. pose proof (cr_numbered _ _ IH) as Ha. unfold ice_step in Hs. cbn [fst snd] in Hs.
    destruct (has_socket e a) eqn:He; cbn [negb] in Hs; [|injection Hs as <-; eapply checked_quiet; [done|by apply quiet_refl]].
    destruct e as [local buf src| |c|an c|u q|c u q|u q|d|n|]; apply bind_Ret_inv in Hs as ([x b] & E & [= <-]);
      [|(eapply checked_quiet; [done|]; first [by eapply quietly_contact|by refine (quietly_handle _ _ _ a Ha _ _ E)])..].
    eapply checked_datagram; [done|]. apply Nat.ltb_lt in He. by eapply datagram_kept.
Qed.


(** C8: in every run of an agent — datagrams, ticks, candidates, starts, restarts, sends and
    closes in any order, any content — the selected pair has been checked: some datagram was
    an authentic success response, under the password of the peer, to a request of the agent
    that was less than four seconds old and had gone to the address it came from, which is the
    pair's remote address; and the pair was nominated: by such an answer to a request with
    USE-CANDIDATE while the agent was controlling, or by an authentic request with
    USE-CANDIDATE from that address while it was controlled. *)
Theorem selected_pair_was_checked tr s p :
  ice_run tr s -> selected_pair s.1 = Some p ->
  answered false tr s.1 p /\ (answered true tr s.1 p \/ nominated_by_peer tr s.1 p).
Proof using Type.
  intros Hr%run_checked Hp. destruct (cr_selected _ _ Hr p Hp) as [Hs Hw].
  split; [by eapply cr_succeeded|done].
Qed.
End machine.

(** The controlling agent of two: its check is answered, it nominates, and that is answered. *)
Module Checked.
Definition addr (k : Z) : SocketAddr := mkSocketAddr (V4 [10; 0; 0; k]) 5000.
Definition host (conn : bool) (a : SocketAddr) : CandidateBase :=
  mkCandidateBase "c" Udp4 Host 1 (display_ip (ip a)) (port a) None TcpUnspecified a 0 0 conn false String.EmptyString 0 "udp".
Definition success (id : Z) : bytes :=
  PlainStun.write (PlainStun.class_code ClassSuccess, id, None, [], Some "passwordofright!"%string).
Definition time (t : Z) : Clock := mkClock t t.
Definition events : list (Clock * ice_event) :=
  [(time 0, Restart "left" "passwordof_left!"); (time 0, LocalCandidate (host true (addr 1)));
   (time 0, StartChecks true "right" "passwordofright!"); (time 0, RemoteCandidate None (host false (addr 2)));
   (time 1, Contact); (time 2, Datagram 0 (success 0) (addr 2)); (time 3, Contact);
   (time 4, Datagram 0 (success 1) (addr 2))].
Definition init : AgentInternal * CheckLoop := (new_agent (time 0) 7 true false defaults, mkCheckLoop StateUnspecified 0).
Definition final : outcome (AgentInternal * CheckLoop) :=
  @ice_exec PlainStun.plain_stun Z.of_nat (fun _ => "p"%string) (fun _ _ _ => true) events init.

Lemma final_selected : match final with Ret s => selected_pair s.1 = Some 0%nat | _ => False end.
Proof. vm_compute. reflexivity. Qed.
End Checked.


Lemma selected_pair_was_checked_witness :
  exists tr (s : AgentInternal * CheckLoop),
    selected_pair s.1 = Some 0%nat
    /\ @answered PlainStun.plain_stun false tr s.1 0
    /\ (@answered PlainStun.plain_stun true tr s.1 0 \/ @nominated_by_peer PlainStun.plain_stun tr s.1 0).
Proof.
  pose proof Checked.final_selected as Hs. destruct Checked.final as [s| |] eqn:E; [|destruct Hs..].
  unfold Checked.final in E.
  destruct (ice_exec_run _ _ _ Checked.events [] Checked.init s (ice_new _ _ _ _ _ _ _ _ _) E) as [tr Hr].
  exists tr, s. split; [exact Hs|]. exact (selected_pair_was_checked _ _ _ tr s 0 Hr Hs).
Defined.
