(* ===== verification/IceConnect.v ===== *)
(** * Two ICE agents connect

    A controlling and a controlled agent with one candidate each, between them a network that
    delivers what the sockets send, in order: one tick of the controlling agent's loop and
    the delivery of what follows from it take both to the state connected. *)

From stdpp Require Import base list gmap strings.
From Stdlib Require Import ZArith Lia.
From coqutil Require Import Datatypes.RecordSetters.
From S2P Require Import Prelude Utf8 Net IpParse Fallible PacketBuffer IceCandidate IceAgent StunModel IceChecks.
Import DoubleBraceUpdate.
Local Open Scope Z_scope.
Local Open Scope list_scope.

(** ** The network *)

Record Network := mkNetwork { left : AgentInternal; right : AgentInternal; to_right : nat; to_left : nat }.
Inductive NetEvent := TickLeft | TickRight | ToRight | ToLeft.

Section network.
  Context {stun : Stun} (ids_left ids_right : nat -> Z) (cand_id : nat -> string).

Definition sends : nat -> SocketAddr -> bytes -> bool := fun _ _ _ => true.

(** The next datagram of [from] arrives at the candidate of [to], when it is for it. *)
Definition deliver (random_id : nat -> Z) (now : Clock) (from to : AgentInternal) (k : nat) : outcome AgentInternal :=
  match sent from !! k with
  | Some (h, dst, b) =>
      if bool_decide (dst = resolved_addr (cand to 0)) then
        '(_, to) ← handle_inbound_candidate_msg random_id cand_id sends now 0 b (resolved_addr (cand from h)) to;
        Ret to
      else Ret to
  | None => Ret to
  end.

Definition net_step (now : Clock) (e : NetEvent) (n : Network) : outcome Network :=
  match e with
  | TickLeft => '(_, a) ← contact_candidates ids_left sends now (left n); Ret (n {{ left := a }})
  | TickRight => '(_, a) ← contact_candidates ids_right sends now (right n); Ret (n {{ right := a }})
  | ToRight => a ← deliver ids_right now (left n) (right n) (to_right n); Ret (n {{ right := a }} {{ to_right := S (to_right n) }})
  | ToLeft => a ← deliver ids_left now (right n) (left n) (to_left n); Ret (n {{ left := a }} {{ to_left := S (to_left n) }})
  end.

Fixpoint net_run (l : list (Clock * NetEvent)) (n : Network) : outcome Network :=
  match l with
  | [] => Ret n
  | (now, e) :: l => n ← net_step now e n; net_run l n
  end.
End network.

(** ** The agents *)

(** A host candidate of an address: of an agent, with a socket, or of its peer. *)
Definition host (id : string) (conn open : bool) (addr : SocketAddr) (sent received : Z) : CandidateBase :=
  mkCandidateBase id Udp4 Host 1 (display_ip (ip addr)) (port addr) None TcpUnspecified addr sent received conn open
    String.EmptyString 0 "udp".

(** The agent of a peer connection: it is made, gets its credentials and its candidate, starts with
    the credentials of the peer and gets the peer's candidate. *)
Definition agent_with (now : Clock) (controlling : bool) (ufrag pwd ufrag' pwd' : string) (own peer : CandidateBase)
    : ice unit :=
  _ ← restart now ufrag pwd;
  h ← new_cand own;
  _ ← add_candidate h;
  _ ← start_connectivity_checks now controlling ufrag' pwd';
  agent_add_remote_candidate None peer.

#[local] Opaque MAX_BUFFER_SIZE.

Section agents.
  Context (t0 : Clock).

(** An agent after [agent_with], and what changes as it connects. *)
Definition agent_at (tie : Z) (controlling : bool) (ufrag pwd ufrag' pwd' : string) (own peer : CandidateBase)
    (nom : option nat) (state : ConnectionState) (pending : list BindingRequest) (sel : option nat) (pair : CandidatePair)
    (n : nat) (states : list ConnectionState) (changes : nat) (conn : bool) (out : list (nat * SocketAddr * bytes)) : AgentInternal :=
  mkAgentInternal conn true true true true true tie controlling false (instant t0) nom state false
    (mkUfragPwd ufrag pwd ufrag' pwd') {[ u8_of_network Udp4 := [0%nat] ]} {[ u8_of_network Udp4 := [1%nat] ]} pending sel
    [0%nat] (Buffer.new 0 MAX_BUFFER_SIZE) false 0 0 GatherNew defaults n [own; peer] [pair] states changes [0%nat] out.

Lemma bind_step {A B} (m : ice A) (f : A -> ice B) a x b r : m a = Ret (x, b) -> f x b = r -> (m ≫= f) a = r.
Proof using Type. intros H <-. unfold mbind at 1, ice_bind. by rewrite H. Qed.

Lemma bind_prefix {A B C} (m : ice A) (f : A -> ice B) (g : B -> ice C) a x b :
  m a = Ret (x, b) -> ((m ≫= f) ≫= g) a = (f x ≫= g) b.
Proof using Type. intros H. unfold mbind, ice_bind. rewrite H. done. Qed.

Lemma delete_all_empty a : local_candidates a = ∅ -> remote_candidates a = ∅ -> delete_all_candidates a = Ret (tt, a).
Proof using Type.
  destruct a. cbn. intros -> ->. unfold delete_all_candidates. eapply bind_step; [done|]. cbn [local_candidates remote_candidates].
  unfold all_of. rewrite !map_to_list_empty. done.
Qed.

Lemma agent_ready i i' tie controlling ufrag pwd ufrag' pwd' own peer :
  (3 <= String.length ufrag)%nat -> (16 <= String.length pwd)%nat -> (3 <= String.length ufrag')%nat ->
  (16 <= String.length pwd')%nat -> ends_with ".local" (display_ip (ip peer)) = false ->
  agent_with t0 controlling ufrag pwd ufrag' pwd' (host i true false own 0 0) (host i' false false peer 0 0)
    (new_agent t0 tie controlling false defaults)
  = Ret (tt, agent_at tie controlling ufrag pwd ufrag' pwd' (host i true true own 0 0) (host i' false false peer 0 0)
      None Checking [] None (mkCandidatePair controlling 1 0 0 PairWaiting false false) 0 [Checking] 0 true []).
Proof using Type.
  intros H1 H2 H3 H4 H5.
  assert ((String.length ufrag * 8 <? 24)%nat = false) as E1 by (apply Nat.ltb_ge; lia).
  assert ((String.length pwd * 8 <? 128)%nat = false) as E2 by (apply Nat.ltb_ge; lia).
  assert (String.eqb ufrag' String.EmptyString = false) as E3 by (destruct ufrag'; [cbn in H3; lia|done]).
  assert (String.eqb pwd' String.EmptyString = false) as E4 by (destruct pwd'; [cbn in H4; lia|done]).
  destruct controlling;
    (eapply bind_step;
     [unfold restart; rewrite E1, E2; eapply bind_step; [reflexivity|]; cbv [gathering_state new_agent];
      rewrite bool_decide_eq_false_2 by done; do 3 (eapply bind_step; [reflexivity|]);
      eapply bind_step; [by apply delete_all_empty|]; do 2 (eapply bind_step; [reflexivity|]); reflexivity
     |unfold start_connectivity_checks, set_remote_credentials, agent_add_remote_candidate; cbn [host c_address c_tcp_type c_candidate_type];
      rewrite E3, E4, H5, andb_false_r; reflexivity]).
Qed.
End agents.

(** ** Messages *)

Section messages.
  Context {stun : Stun} {laws : StunLaws stun}.

Record is_check (m : Message) (id : Z) (user key : string) (use controlling : bool) : Prop := mkIsCheck {
  ic_binding : is_binding m = true;
  ic_class : class_of m = ClassRequest;
  ic_id : transaction_id m = id;
  ic_username : username m = Some user;
  ic_key : integrity_ok key m = true;
  ic_use : contains AttrUseCandidate m = use;
  ic_controlling : contains AttrIceControlling m = controlling;
  ic_controlled : contains AttrIceControlled m = negb controlling }.

Record is_success (m : Message) (id : Z) (key : string) : Prop := mkIsSuccess {
  is_binding_success : is_binding m = true;
  is_class : class_of m = ClassSuccess;
  is_id : transaction_id m = id;
  is_key : integrity_ok key m = true;
  is_no_use : contains AttrUseCandidate m = false;
  is_no_controlling : contains AttrIceControlling m = false;
  is_no_controlled : contains AttrIceControlled m = false }.

Definition check_list (tie id priority : Z) (user key : string) (use controlling : bool) : list (Setter Message) :=
  [SetBinding ClassRequest; SetTransactionId id; SetUsername user]
  ++ (if use then [UseCandidateAttr] else [])
  ++ [(if controlling then AttrControlling else AttrControlled) tie; PriorityAttr priority; SetIntegrity key; SetFingerprint].

Definition success_list (m : Message) (addr : SocketAddr) (key : string) : list (Setter Message) :=
  [SetCopy m; SetBinding ClassSuccess; SetXorMappedAddress addr; SetIntegrity key; SetFingerprint].

Lemma check_built tie id priority user key use controlling :
  (String.length user <= MAX_USERNAME_B)%nat ->
  exists m, build (check_list tie id priority user key use controlling) = Some m /\ is_check m id user key use controlling.
Proof using laws.
  intros Hu. destruct (build_ok (check_list tie id priority user key use controlling) ClassRequest id)
    as (m & Hm & Hb & Hc & Hi & Hn & Ha & Hk); [by destruct use, controlling..| |].
  { intros u. destruct use, controlling; by intros [= <-]. }
  exists m. split; [done|]. split; [done|done|done|rewrite Hn|apply Hk|rewrite Ha..]; by destruct use, controlling.
Qed.

Lemma success_built m addr key :
  exists m', build (success_list m addr key) = Some m' /\ is_success m' (transaction_id m) key.
Proof using laws.
  destruct (build_ok (success_list m addr key) ClassSuccess (transaction_id m))
    as (m' & Hm & Hb & Hc & Hi & Hn & Ha & Hk); [done..|].
  exists m'. split; [done|]. split; rewrite ?Ha; try done. by apply Hk.
Qed.
End messages.

(** ** One side of the connection *)

Section side.
  Context {stun : Stun} {laws : StunLaws stun} (ids : nat -> Z) (cand_id : nat -> string) (t0 now : Clock).
  Context (tie : Z) (controlling : bool) (ufrag pwd ufrag' pwd' i i' : string) (own peer : SocketAddr).

Definition HOST_PRIORITY : Z := 2130706431.

Definition user : string := (ufrag' +:+ ":" +:+ ufrag)%string.
Definition user' : string := (ufrag +:+ ":" +:+ ufrag')%string.

Definition seen_at : Z := as_u 64 (Z.max 0 (system now)).

(** The state of the side; [ls] and [lr] are the times of the last datagrams. *)
Definition side (ls lr : Z) (nom : option nat) (state : ConnectionState) (pending : list BindingRequest) (sel : option nat)
    (ps : CandidatePairState) (count : Z) (nominated : bool) (n : nat) (states : list ConnectionState) (changes : nat) (conn : bool)
    (out : list (nat * SocketAddr * bytes)) : AgentInternal :=
  agent_at t0 tie controlling ufrag pwd ufrag' pwd' (host i true true own ls 0) (host i' false false peer 0 lr) nom state pending sel
    (mkCandidatePair controlling 1 0 count ps nominated false) n states changes conn out.

(** The request that is pending after a check. *)
Definition asked (m : Message) : BindingRequest :=
  mkBindingRequest (instant now) (transaction_id m) peer (contains AttrUseCandidate m).

Lemma ping_side ls lr nom state sel ps count nomd n states changes conn out m :
  build (check_list tie (ids n) HOST_PRIORITY user pwd' false controlling) = Some m ->
  ping_candidate ids sends now 0 1 (side ls lr nom state [] sel ps count nomd n states changes conn out)
  = Ret (tt, side seen_at lr nom state [asked m] sel ps count nomd (S n) states changes conn (out ++ [(0%nat, peer, raw m)])).
Proof using Type.
  intros Hm. eapply bind_step; [reflexivity|]. eapply bind_step; [reflexivity|]. eapply bind_step; [reflexivity|].
  match goal with |- match build ?l with _ => _ end _ = _ => change l with (check_list tie (ids n) HOST_PRIORITY user pwd' false controlling) end.
  rewrite Hm. reflexivity.
Qed.

Lemma host_equal id conn open addr s r : Candidate.equal (host id conn open addr s r) (host id conn open addr s r) = true.
Proof using Type. unfold Candidate.equal, host. cbn. by rewrite String.eqb_refl, Z.eqb_refl. Qed.

Lemma is_pair_side ls lr nom state pending sel ps count nomd n states changes conn out :
  is_pair (side ls lr nom state pending sel ps count nomd n states changes conn out) 0 1 0 = true.
Proof using Type.
  trans (Candidate.equal (host i true true own ls 0) (host i true true own ls 0)
         && Candidate.equal (host i' false false peer 0 lr) (host i' false false peer 0 lr)); [done|].
  by rewrite !host_equal.
Qed.

Lemma find_pair_side ls lr nom state pending sel ps count nomd n states changes conn out :
  find_pair (side ls lr nom state pending sel ps count nomd n states changes conn out) 0 1 = Some 0%nat.
Proof using Type.
  unfold find_pair. change (checklist _) with [0%nat]. cbn [List.find]. by rewrite is_pair_side.
Qed.

Lemma find_remote_side ls lr nom state pending sel ps count nomd n states changes conn out :
  find_remote_candidate (side ls lr nom state pending sel ps count nomd n states changes conn out) Udp4 peer = Some 1%nat.
Proof using Type.
  unfold find_remote_candidate.
  replace (of_network Udp4 (remote_candidates _)) with [1%nat] by reflexivity. cbn [List.find].
  change (cand _ 1) with (host i' false false peer 0 lr). cbn [host c_address c_port]. by rewrite String.eqb_refl, Z.eqb_refl.
Qed.

(** A request of the peer, in the other role, reaches its handler. *)
Lemma request_arrives ls lr nom state pending sel ps count nomd n states changes conn out m id use r :
  is_check m id user' pwd use (negb controlling) -> (use = true -> controlling = false) ->
  handle_binding_request ids sends now m 0 1 (side ls lr nom state pending sel ps count nomd n states changes conn out) = Ret (tt, r) ->
  handle_inbound_candidate_msg ids cand_id sends now 0 (raw m) peer
    (side ls lr nom state pending sel ps count nomd n states changes conn out)
  = update_cand 1 (Candidate.seen false (system now)) r.
Proof using laws.
  intros [H1 H2 H3 H4 H5 H6 H7 H8] Huse Hr. unfold handle_inbound_candidate_msg.
  destruct (decode_raw m) as [-> ->]. eapply bind_step; [reflexivity|].
  unfold ignored. rewrite H1, H2, H6, H7, H8, bool_decide_eq_false_2 by done.
  change (is_controlling _) with controlling. change (c_network_type _) with Udp4. rewrite find_remote_side.
  replace (if controlling then negb controlling || use else negb (negb controlling)) with false
    by (destruct controlling, use; try done; by specialize (Huse eq_refl)).
  cbn [negb orb]. unfold assert_inbound_username. rewrite H4.
  change (local_ufrag _ +:+ ":" +:+ remote_ufrag _)%string with user'. rewrite String.eqb_refl.
  change (local_pwd _) with pwd. rewrite H5. cbn [negb].
  eapply bind_step; [reflexivity|]. eapply bind_step; [exact Hr|done].
Qed.

(** So does the answer to the only request that is pending. *)
Lemma success_arrives ls lr nom state q sel ps count nomd n states changes conn out m :
  is_success m (br_transaction_id q) pwd' -> destination q = peer -> instant now - timestamp q < MAX_BINDING_REQUEST_TIMEOUT ->
  handle_inbound_candidate_msg ids cand_id sends now 0 (raw m) peer
    (side ls lr nom state [q] sel ps count nomd n states changes conn out)
  = (_ ← when ((if controlling then is_use_candidate q else false) && bool_decide (sel = None)) (set_selected_pair (Some 0%nat));
     update_cand 1 (Candidate.seen false (system now)))
      (side ls lr nom state [] sel PairSucceeded count nomd n states changes conn out).
Proof using laws.
  intros [H1 H2 H3 H4 H5 H6 H7] Hdst Hfresh. unfold handle_inbound_candidate_msg.
  destruct (decode_raw m) as [-> ->]. eapply bind_step; [reflexivity|].
  unfold ignored. rewrite H1, H2, H5, H6, H7, bool_decide_eq_false_2 by done.
  change (is_controlling _) with controlling. change (c_network_type _) with Udp4. rewrite find_remote_side.
  replace (if controlling then false || false else false) with false by (by destruct controlling).
  cbn [negb orb]. change (remote_pwd _) with pwd'. rewrite H4. cbn [negb].
  unfold handle_success_response.
  rewrite (bind_prefix _ _ _ _ (Some q) (side ls lr nom state [] sel ps count nomd n states changes conn out)).
  2:{ eapply bind_step; [reflexivity|]. eapply bind_step; [reflexivity|].
      match goal with |- match take_request _ ?l with _ => _ end _ = _ => replace l with [q] end.
      - cbn [take_request]. rewrite H3, Z.eqb_refl. reflexivity.
      - cbn. apply Z.ltb_lt in Hfresh. by rewrite Hfresh, orb_true_r. }
  rewrite bool_decide_eq_true_2 by done. cbn [negb].
  rewrite (bind_prefix _ _ _ _ _ _ eq_refl), find_pair_side, (bind_prefix _ _ _ _ _ _ eq_refl).
  reflexivity.
Qed.

(** The selection of the pair connects. *)
Lemma select_side ls lr nom pending ps count nomd n states changes conn out :
  set_selected_pair (Some 0%nat) (side ls lr nom Checking pending None ps count nomd n states changes conn out)
  = Ret (tt, side ls lr nom Connected pending (Some 0%nat) ps count true n (states ++ [Connected]) (S changes) false out).
Proof using Type. reflexivity. Qed.

Lemma respond_side ls lr nom state pending sel ps count nomd n states changes conn out m m' :
  build (success_list m peer pwd) = Some m' ->
  send_binding_success sends now m 0 1 (side ls lr nom state pending sel ps count nomd n states changes conn out)
  = Ret (tt, side seen_at lr nom state pending sel ps count nomd n states changes conn (out ++ [(0%nat, peer, raw m')])).
Proof using Type.
  intros Hm. eapply bind_step; [reflexivity|]. cbv beta zeta.
  match goal with |- match build ?l with _ => _ end _ = _ => change l with (success_list m peer pwd) end.
  rewrite Hm. reflexivity.
Qed.

(** What a tick, a request and an answer do to the side that is controlling. *)
Lemma tick_side ls lr n states changes conn out m :
  controlling = true ->
  build (check_list tie (ids n) HOST_PRIORITY user pwd' false controlling) = Some m ->
  contact_candidates ids sends now (side ls lr None Checking [] None PairWaiting 0 false n states changes conn out)
  = Ret (tt, side seen_at lr None Checking [asked m] None PairInProgress 1 false (S n) states changes conn
      (out ++ [(0%nat, peer, raw m)])).
Proof using Type.
  intros Hc Hm. eapply bind_step; [reflexivity|]. change (is_controlling _) with controlling. rewrite Hc.
  eapply bind_step; [reflexivity|]. cbn [side agent_at selected_pair nominated_pair]. 
  destruct (is_Some_dec (@None nat)) as [[? ?]|_]; [done|].
  eapply bind_step; [reflexivity|]. eapply bind_step; [reflexivity|]. eapply bind_step; [reflexivity|].
  eapply bind_step; [|reflexivity]. eapply bind_step; [reflexivity|].
  exact (ping_side ls lr None Checking None PairInProgress 1 false n states changes conn out m Hm).
Qed.

Lemma seen_side ls lr nom state pending sel ps count nomd n states changes conn out :
  update_cand 1 (Candidate.seen false (system now)) (side ls lr nom state pending sel ps count nomd n states changes conn out)
  = Ret (tt, side ls seen_at nom state pending sel ps count nomd n states changes conn out).
Proof using Type. reflexivity. Qed.

Lemma nominate_side ls lr state sel ps count nomd n states changes conn out m :
  build (check_list tie (ids n) HOST_PRIORITY user pwd' true true) = Some m ->
  nominate_pair ids sends now (side ls lr (Some 0%nat) state [] sel ps count nomd n states changes conn out)
  = Ret (tt, side seen_at lr (Some 0%nat) state [asked m] sel ps count nomd (S n) states changes conn (out ++ [(0%nat, peer, raw m)])).
Proof using Type.
  intros Hm. eapply bind_step; [reflexivity|]. cbn [side agent_at nominated_pair]. cbv zeta.
  eapply bind_step; [reflexivity|]. eapply bind_step; [reflexivity|].
  match goal with |- match build ?l with _ => _ end _ = _ => change l with (check_list tie (ids n) HOST_PRIORITY user pwd' true true) end.
  rewrite Hm. reflexivity.
Qed.

Lemma nominatable_side ls lr nom state pending sel ps count nomd n states changes conn out h :
  instant t0 < instant now -> (h < 2)%nat ->
  is_nominatable now (side ls lr nom state pending sel ps count nomd n states changes conn out) h = true.
Proof using Type.
  intros Ht Hh. assert (c_candidate_type (cand (side ls lr nom state pending sel ps count nomd n states changes conn out) h) = Host) as E
    by (destruct h as [|[|h]]; [done|done|lia]).
  unfold is_nominatable. rewrite E. apply Z.ltb_lt. change (host_acceptance_min_wait _) with 0. change (start_time _) with (instant t0).
  unfold since. lia.
Qed.

(** The check of the controlled peer, when the own one is answered, makes the controlling side nominate. *)
Lemma request_nominates ls lr count n states changes conn out m id m1 m2 :
  controlling = true -> instant t0 < instant now -> is_check m id user' pwd false false ->
  build (success_list m peer pwd) = Some m1 ->
  build (check_list tie (ids n) HOST_PRIORITY user pwd' true true) = Some m2 ->
  handle_inbound_candidate_msg ids cand_id sends now 0 (raw m) peer
    (side ls lr None Checking [] None PairSucceeded count false n states changes conn out)
  = Ret (tt, side seen_at seen_at (Some 0%nat) Checking [asked m2] None PairSucceeded count false (S n) states changes conn
      ((out ++ [(0%nat, peer, raw m1)]) ++ [(0%nat, peer, raw m2)])).
Proof using laws.
  intros Hc Ht Hm H1 H2. erewrite (request_arrives _ _ _ _ _ _ _ _ _ _ _ _ _ _ m id false); [apply seen_side|by rewrite Hc|done|].
  eapply bind_step; [reflexivity|]. change (is_controlling _) with controlling. rewrite Hc.
  eapply bind_step; [by apply respond_side|]. eapply bind_step; [reflexivity|]. rewrite find_pair_side.
  change (p_state (pair_of _ _)) with PairSucceeded. change (nominated_pair _) with (@None nat).
  change (selected_pair _) with (@None nat). rewrite !bool_decide_eq_true_2 by done. cbn [andb].
  eapply bind_step; [reflexivity|]. cbv beta iota. change (p_local (pair_of _ 0)) with 0%nat. change (p_remote (pair_of _ 0)) with 1%nat.
  rewrite !nominatable_side by (done || lia). rewrite is_pair_side. cbn [andb when].
  eapply bind_step; [reflexivity|]. by apply nominate_side.
Qed.

(** Once selected, it only answers. *)
Lemma request_answered ls lr nom pending ps count n states changes conn out m id m1 :
  controlling = true -> is_check m id user' pwd false false ->
  build (success_list m peer pwd) = Some m1 ->
  handle_inbound_candidate_msg ids cand_id sends now 0 (raw m) peer
    (side ls lr nom Connected pending (Some 0%nat) ps count true n states changes conn out)
  = Ret (tt, side seen_at seen_at nom Connected pending (Some 0%nat) ps count true n states changes conn
      (out ++ [(0%nat, peer, raw m1)])).
Proof using laws.
  intros Hc Hm H1. erewrite (request_arrives _ _ _ _ _ _ _ _ _ _ _ _ _ _ m id false); [apply seen_side|by rewrite Hc|done|].
  eapply bind_step; [reflexivity|]. change (is_controlling _) with controlling. rewrite Hc.
  eapply bind_step; [by apply respond_side|]. eapply bind_step; [reflexivity|]. rewrite find_pair_side.
  change (selected_pair _) with (Some 0%nat). rewrite (bool_decide_eq_false_2 (Some 0%nat = None)) by done.
  by rewrite andb_false_r.
Qed.

(** The controlled side answers a check with one of its own, and is connected by a nomination
    of the pair that it has checked. *)
Lemma request_controlled ls lr ps count n states changes conn out m id m1 m2 :
  controlling = false -> is_check m id user' pwd false true ->
  build (success_list m peer pwd) = Some m1 ->
  build (check_list tie (ids n) HOST_PRIORITY user pwd' false controlling) = Some m2 ->
  handle_inbound_candidate_msg ids cand_id sends now 0 (raw m) peer
    (side ls lr None Checking [] None ps count false n states changes conn out)
  = Ret (tt, side seen_at seen_at None Checking [asked m2] None ps count false (S n) states changes conn
      ((out ++ [(0%nat, peer, raw m1)]) ++ [(0%nat, peer, raw m2)])).
Proof using laws.
  intros Hc Hm H1 H2. erewrite (request_arrives _ _ _ _ _ _ _ _ _ _ _ _ _ _ m id false); [apply seen_side|by rewrite Hc|done|].
  eapply bind_step; [reflexivity|]. change (is_controlling _) with controlling. rewrite Hc.
  eapply bind_step; [reflexivity|]. rewrite find_pair_side, bool_decide_eq_false_2 by done.
  eapply bind_step; [reflexivity|]. eapply bind_step; [reflexivity|]. rewrite find_pair_side, (ic_use _ _ _ _ _ _ Hm).
  eapply bind_step; [reflexivity|]. eapply bind_step; [by apply respond_side|]. by apply ping_side.
Qed.

Lemma request_selects ls lr count n states changes conn out m id m1 m2 :
  controlling = false -> is_check m id user' pwd true true ->
  build (success_list m peer pwd) = Some m1 ->
  build (check_list tie (ids n) HOST_PRIORITY user pwd' false controlling) = Some m2 ->
  handle_inbound_candidate_msg ids cand_id sends now 0 (raw m) peer
    (side ls lr None Checking [] None PairSucceeded count false n states changes conn out)
  = Ret (tt, side seen_at seen_at None Connected [asked m2] (Some 0%nat) PairSucceeded count true (S n)
      (states ++ [Connected]) (S changes) false ((out ++ [(0%nat, peer, raw m1)]) ++ [(0%nat, peer, raw m2)])).
Proof using laws.
  intros Hc Hm H1 H2. erewrite (request_arrives _ _ _ _ _ _ _ _ _ _ _ _ _ _ m id true); [apply seen_side|by rewrite Hc|done|].
  eapply bind_step; [reflexivity|]. change (is_controlling _) with controlling. rewrite Hc.
  eapply bind_step; [reflexivity|]. rewrite find_pair_side, bool_decide_eq_false_2 by done.
  eapply bind_step; [reflexivity|]. eapply bind_step; [reflexivity|]. rewrite find_pair_side, (ic_use _ _ _ _ _ _ Hm).
  eapply bind_step; [apply select_side|]. eapply bind_step; [by apply respond_side|]. by apply ping_side.
Qed.

(** The answer to a check makes the pair valid; the answer to the nomination connects. *)
Lemma success_validates ls lr nom state q ps count nomd n states changes conn out m :
  is_success m (br_transaction_id q) pwd' -> destination q = peer -> instant now - timestamp q < MAX_BINDING_REQUEST_TIMEOUT ->
  is_use_candidate q = false ->
  handle_inbound_candidate_msg ids cand_id sends now 0 (raw m) peer
    (side ls lr nom state [q] None ps count nomd n states changes conn out)
  = Ret (tt, side ls seen_at nom state [] None PairSucceeded count nomd n states changes conn out).
Proof using laws.
  intros Hm Hd Ht Hu. rewrite success_arrives by done. rewrite Hu.
  replace (if controlling then false else false) with false by (by destruct controlling). reflexivity.
Qed.

Lemma success_selects ls lr nom q ps count nomd n states changes conn out m :
  controlling = true ->
  is_success m (br_transaction_id q) pwd' -> destination q = peer -> instant now - timestamp q < MAX_BINDING_REQUEST_TIMEOUT ->
  is_use_candidate q = true ->
  handle_inbound_candidate_msg ids cand_id sends now 0 (raw m) peer
    (side ls lr nom Checking [q] None ps count nomd n states changes conn out)
  = Ret (tt, side ls seen_at nom Connected [] (Some 0%nat) PairSucceeded count true n (states ++ [Connected]) (S changes) false out).
Proof using laws.
  intros Hc Hm Hd Ht Hu. rewrite success_arrives by done. rewrite Hu, Hc. reflexivity.
Qed.
End side.

(** ** Both sides *)

Section connect.
  Context {stun : Stun} {laws : StunLaws stun}.
  Context (ids_left ids_right : nat -> Z) (cand_id : nat -> string) (t0 : Clock) (clock : nat -> Clock) (tie_left tie_right : Z).
  Context (ufrag_l pwd_l ufrag_r pwd_r id_l id_r : string) (addr_l addr_r : SocketAddr).

(** One tick of the controlling side, and what the network delivers after it. *)
Definition schedule : list (Clock * NetEvent) :=
  imap (fun k e => (clock k, e)) [TickLeft; ToRight; ToLeft; ToLeft; ToRight; ToRight; ToLeft; ToLeft].

Lemma net_step_tick now L R k j L' :
  contact_candidates ids_left sends now L = Ret (tt, L') ->
  net_step ids_left ids_right cand_id now TickLeft (mkNetwork L R k j) = Ret (mkNetwork L' R k j).
Proof using Type. intros H. cbn [net_step left]. by rewrite H. Qed.

Lemma net_step_right now L R k j h b R' :
  sent L !! k = Some (h, resolved_addr (cand R 0), b) ->
  handle_inbound_candidate_msg ids_right cand_id sends now 0 b (resolved_addr (cand L h)) R = Ret (tt, R') ->
  net_step ids_left ids_right cand_id now ToRight (mkNetwork L R k j) = Ret (mkNetwork L R' (S k) j).
Proof using Type. intros Hs H. cbn [net_step left right to_right]. unfold deliver. by rewrite Hs, bool_decide_eq_true_2, H. Qed.

Lemma net_step_left now L R k j h b L' :
  sent R !! j = Some (h, resolved_addr (cand L 0), b) ->
  handle_inbound_candidate_msg ids_left cand_id sends now 0 b (resolved_addr (cand R h)) L = Ret (tt, L') ->
  net_step ids_left ids_right cand_id now ToLeft (mkNetwork L R k j) = Ret (mkNetwork L' R k (S j)).
Proof using Type. intros Hs H. cbn [net_step left right to_left]. unfold deliver. by rewrite Hs, bool_decide_eq_true_2, H. Qed.

Lemma net_run_cons now e l n n' r :
  net_step ids_left ids_right cand_id now e n = Ret n' -> net_run ids_left ids_right cand_id l n' = r ->
  net_run ids_left ids_right cand_id ((now, e) :: l) n = r.
Proof using Type. intros H <-. cbn [net_run]. by rewrite H. Qed.

Lemma append_length a b : String.length (a +:+ b) = (String.length a + String.length b)%nat.
Proof using Type. induction a as [|x a IH]; [done|]. exact (f_equal S IH). Qed.

Lemma username_length a b : (String.length a <= 256)%nat -> (String.length b <= 256)%nat ->
  (String.length (a +:+ ":" +:+ b)%string <= MAX_USERNAME_B)%nat.
Proof using Type. intros Ha Hb. rewrite !append_length. cbn. unfold MAX_USERNAME_B. lia. Qed.

(** C9: two agents whose sockets send, with a host candidate each, credentials of the allowed
    lengths, addresses that are no names of multicast DNS, and any identifiers, and tie breakers connect: one tick of the controlling
    agent's loop, and the delivery in order of the seven datagrams that follow from it, less than
    four seconds after the start, take both to Connected, each with the pair to the other's
    address selected. *)
Theorem two_agents_connect :
  (3 <= String.length ufrag_l <= 256)%nat -> (3 <= String.length ufrag_r <= 256)%nat ->
  (16 <= String.length pwd_l)%nat -> (16 <= String.length pwd_r)%nat ->
  ends_with ".local" (display_ip (ip addr_l)) = false -> ends_with ".local" (display_ip (ip addr_r)) = false ->
  (forall k, (k < 8)%nat -> instant t0 < instant (clock k) < instant t0 + MAX_BINDING_REQUEST_TIMEOUT) ->
  exists L R n,
    agent_with t0 true ufrag_l pwd_l ufrag_r pwd_r (host id_l true false addr_l 0 0) (host id_r false false addr_r 0 0)
      (new_agent t0 tie_left true false defaults) = Ret (tt, L)
    /\ agent_with t0 false ufrag_r pwd_r ufrag_l pwd_l (host id_r true false addr_r 0 0) (host id_l false false addr_l 0 0)
      (new_agent t0 tie_right false false defaults) = Ret (tt, R)
    /\ net_run ids_left ids_right cand_id schedule (mkNetwork L R 0 0) = Ret n
    /\ connection_state (left n) = Connected /\ connection_state (right n) = Connected
    /\ selected_pair (left n) = Some 0%nat /\ at_address (left n) 0 addr_r
    /\ selected_pair (right n) = Some 0%nat /\ at_address (right n) 0 addr_l.
Proof using laws.
  intros Hul Hur Hpl Hpr Hnl Hnr Hc.
  assert (forall j k, (j < 8)%nat -> (k < 8)%nat -> instant (clock j) - instant (clock k) < MAX_BINDING_REQUEST_TIMEOUT) as Hfresh
    by (intros j k Hj Hk; pose proof (Hc j Hj); pose proof (Hc k Hk); lia).
  destruct (check_built tie_left (ids_left 0) HOST_PRIORITY (user ufrag_l ufrag_r) pwd_r false true) as (a1 & Ba1 & Ca1);
    [apply username_length; lia|].
  destruct (success_built a1 addr_l pwd_r) as (sa1 & Bsa1 & Csa1).
  destruct (check_built tie_right (ids_right 0) HOST_PRIORITY (user ufrag_r ufrag_l) pwd_l false false) as (b1 & Bb1 & Cb1);
    [apply username_length; lia|].
  destruct (success_built b1 addr_r pwd_l) as (sb1 & Bsb1 & Csb1).
  destruct (check_built tie_left (ids_left 1) HOST_PRIORITY (user ufrag_l ufrag_r) pwd_r true true) as (a2 & Ba2 & Ca2);
    [apply username_length; lia|].
  destruct (success_built a2 addr_l pwd_r) as (sa2 & Bsa2 & Csa2).
  destruct (check_built tie_right (ids_right 1) HOST_PRIORITY (user ufrag_r ufrag_l) pwd_l false false) as (b2 & Bb2 & Cb2);
    [apply username_length; lia|].
  destruct (success_built b2 addr_r pwd_l) as (sb2 & Bsb2 & Csb2).
  eexists _, _, _. split; [by apply agent_ready; try lia|]. split; [by apply agent_ready; try lia|].
  split.
  - eapply net_run_cons; [eapply net_step_tick, tick_side; done|].
    eapply net_run_cons; [eapply net_step_right; [reflexivity|eapply request_controlled; done]|].
    eapply net_run_cons; [eapply net_step_left; [reflexivity|eapply success_validates; [done|done|apply Hfresh; lia|apply Ca1]]|].
    eapply net_run_cons; [eapply net_step_left; [reflexivity|eapply request_nominates; [done|apply Hc; lia|done..]]|].
    eapply net_run_cons; [eapply net_step_right; [reflexivity|eapply success_validates; [done|done|apply Hfresh; lia|apply Cb1]]|].
    eapply net_run_cons; [eapply net_step_right; [reflexivity|eapply request_selects; done]|].
    eapply net_run_cons; [eapply net_step_left; [reflexivity|eapply success_selects; [done|done|done|apply Hfresh; lia|apply Ca2]]|].
    eapply net_run_cons; [eapply net_step_left; [reflexivity|eapply request_answered; done]|].
    reflexivity.
  - by split_and!.
Qed.
End connect.

Lemma two_agents_connect_witness :
  exists L R n,
    net_run (stun := PlainStun.plain_stun) Z.of_nat (fun k => 100 + Z.of_nat k) (fun _ => "p"%string)
      (schedule (fun k => mkClock (Z.of_nat k + 1) 0)) (mkNetwork L R 0 0) = Ret n
    /\ connection_state (left n) = Connected /\ connection_state (right n) = Connected.
Proof.
  destruct (two_agents_connect (laws := PlainStun.plain_laws) Z.of_nat (fun k => 100 + Z.of_nat k) (fun _ => "p"%string)
    (mkClock 0 0) (fun k => mkClock (Z.of_nat k + 1) 0) 1 2 "left" "passwordof_left!" "right" "passwordofright!" "l" "r"
    (mkSocketAddr (V4 [10; 0; 0; 1]) 5000) (mkSocketAddr (V4 [10; 0; 0; 2]) 5000))
    as (L & R & n & _ & _ & H & H1 & H2 & _); [cbn; lia|cbn; lia|cbn; lia|cbn; lia|reflexivity|reflexivity| |by exists L, R, n].
  intros k Hk. cbn [instant]. unfold MAX_BINDING_REQUEST_TIMEOUT, millis. lia.
Defined.
