(* ===== verification/Protocol.v ===== *)
(** * The shared protocol (common/src/protocol.rs, common/src/metrics.rs)

    The messages client and server exchange and the constants both sides use.
    Record fields carry a prefix where the source reuses a field name.  Times of
    the monotonic clock ([Instant]) and spans ([Duration]) are in nanoseconds. *)

From stdpp Require Import base list strings.
From Stdlib Require Import ZArith Lia String.
From S2P Require Import Prelude Utf8 F64.
Local Open Scope Z_scope.

Abbreviation Instant := Z (only parsing).
Abbreviation Duration := Z (only parsing).

Definition from_millis (ms : Z) : Duration := ms * 1000000.
Definition from_secs (s : Z) : Duration := s * 1000000000.

(** [Duration::as_secs_f64] *)
Definition as_secs_f64 (d : Duration) : f64 :=
  f64_add (f64_of_Z (d / 1000000000)) (f64_div (f64_of_Z (d mod 1000000000)) (f64_of_Z 1000000000)).

(** ** Address families *)

Inductive IpFamily := IPv4 | IPv6 | Both.

Definition from_str_loose (s : string) : IpFamily :=
  let l := to_lower s in
  if (l =? "ipv4")%string || (l =? "4")%string || (l =? "v4")%string then IPv4
  else if (l =? "ipv6")%string || (l =? "6")%string || (l =? "v6")%string then IPv6
  else Both.

(** ** Probe stream constants *)

Definition PROBE_STREAM_PPS : Z := 100.
Definition PROBE_INTERVAL_MS : Z := 1000 / PROBE_STREAM_PPS.
Definition BASELINE_MIN_SAMPLES : Z := 10.
Definition BASELINE_OUTLIER_MULTIPLIER : f64 := f64_of_Z 3.
Definition BASELINE_MIN_THRESHOLD_MS : f64 := f64_of_Z 100.
Definition PROBE_STATS_WINDOW_MS : Z := 2000.
Definition PROBE_FEEDBACK_WINDOW_MS : Z := 1000.

(** ** Packets *)

Inductive Direction := ClientToServer | ServerToClient.

#[export] Instance Direction_eq_dec : EqDecision Direction.
Proof. solve_decision. Defined.

Record SendOptions := mkSendOptions {
  ttl : option Z;
  df_bit : option bool;
  tos : option Z;
  flow_label : option Z;
  track_for_ms : Z;
  bypass_dtls : bool;
  bypass_sctp_fragmentation : bool }.

Record ProbePacket := mkProbePacket {
  probe_seq : Z;
  probe_timestamp_ms : Z;
  probe_direction : Direction;
  probe_send_options : option SendOptions;
  probe_conn_id : string }.

Record TestProbePacket := mkTestProbePacket {
  test_seq : Z;
  test_timestamp_ms : Z;
  test_direction : Direction;
  test_send_options : option SendOptions;
  test_conn_id : string }.

Record BulkPacket := mkBulkPacket {
  bulk_data : list Z;
  bulk_send_options : option SendOptions }.

Definition BulkPacket_new (size : nat) : BulkPacket := mkBulkPacket (replicate size 0) None.

Definition BulkPacket_with_options (size : nat) (options : SendOptions) : BulkPacket :=
  mkBulkPacket (replicate size 0) (Some options).

(** ** Metrics (common/src/metrics.rs)

    Each array holds the values of the 1s, 10s and 60s windows. *)

Record ClientMetrics := mkClientMetrics {
  c2s_throughput : list f64; s2c_throughput : list f64;
  c2s_delay_avg : list f64; s2c_delay_avg : list f64;
  c2s_jitter : list f64; s2c_jitter : list f64;
  c2s_loss_rate : list f64; s2c_loss_rate : list f64;
  c2s_reorder_rate : list f64; s2c_reorder_rate : list f64 }.

Definition zeros (n : nat) : list f64 := replicate n f64_zero.

Definition ClientMetrics_default : ClientMetrics :=
  mkClientMetrics (zeros 3) (zeros 3) (zeros 3) (zeros 3) (zeros 3)
    (zeros 3) (zeros 3) (zeros 3) (zeros 3) (zeros 3).

(** ** Control messages *)

Record TraceHopMessage := mkTraceHopMessage {
  th_hop : Z;
  th_ip_address : option string;
  th_rtt_ms : f64;
  th_message : string;
  th_conn_id : string;
  th_survey_session_id : string;
  th_original_src_port : Z;
  th_original_dest_addr : string }.

Record StopTracerouteMessage := mkStopTracerouteMessage {
  stop_tr_conn_id : string; stop_tr_survey_session_id : string }.

Record StartTracerouteMessage := mkStartTracerouteMessage {
  start_tr_conn_id : string; start_tr_survey_session_id : string }.

Record TracerouteCompletedMessage := mkTracerouteCompletedMessage {
  tr_done_conn_id : string; tr_done_survey_session_id : string }.

Record StartSurveySessionMessage := mkStartSurveySessionMessage {
  sss_survey_session_id : string; sss_conn_id : string; sss_magic_key : option string }.

Record ServerSideReadyMessage := mkServerSideReadyMessage {
  ready_conn_id : string; ready_survey_session_id : string }.

Record StartMtuTracerouteMessage := mkStartMtuTracerouteMessage {
  mtu_conn_id : string;
  mtu_survey_session_id : string;
  mtu_packet_size : Z;
  mtu_path_ttl : Z;
  mtu_collect_timeout_ms : Z }.

Record MtuTracerouteCompletedMessage := mkMtuTracerouteCompletedMessage {
  mtu_done_conn_id : string; mtu_done_survey_session_id : string; mtu_done_packet_size : Z }.

Record MtuHopMessage := mkMtuHopMessage {
  mh_hop : Z;
  mh_ip_address : option string;
  mh_rtt_ms : f64;
  mh_mtu : option Z;
  mh_message : string;
  mh_conn_id : string;
  mh_survey_session_id : string;
  mh_packet_size : Z }.

Record GetMeasuringTimeMessage := mkGetMeasuringTimeMessage {
  gmt_conn_id : string; gmt_survey_session_id : string }.

Record MeasuringTimeResponseMessage := mkMeasuringTimeResponseMessage {
  mtr_conn_id : string; mtr_survey_session_id : string; mtr_max_duration_ms : Z }.

Record StartServerTrafficMessage := mkStartServerTrafficMessage {
  start_st_conn_id : string; start_st_survey_session_id : string }.

Record StopServerTrafficMessage := mkStopServerTrafficMessage {
  stop_st_conn_id : string; stop_st_survey_session_id : string }.

Record StartProbeStreamsMessage := mkStartProbeStreamsMessage {
  start_ps_conn_id : string; start_ps_survey_session_id : string }.

Record StopProbeStreamsMessage := mkStopProbeStreamsMessage {
  stop_ps_conn_id : string; stop_ps_survey_session_id : string }.

(** Percentile arrays are [p50; p99; min; max]. *)
Record DirectionStats := mkDirectionStats {
  delay_deviation_ms : list f64;
  rtt_ms : list f64;
  jitter_ms : list f64;
  loss_rate : f64;
  reorder_rate : f64;
  probe_count : Z;
  baseline_delay_ms : f64 }.

Definition DirectionStats_default : DirectionStats :=
  mkDirectionStats (zeros 4) (zeros 4) (zeros 4) f64_zero f64_zero 0 f64_zero.

Record ProbeStatsReport := mkProbeStatsReport {
  psr_conn_id : string;
  psr_survey_session_id : string;
  psr_timestamp_ms : Z;
  psr_c2s_stats : DirectionStats;
  psr_s2c_stats : DirectionStats }.

Record ProbeFeedback := mkProbeFeedback {
  highest_seq : Z;
  highest_seq_received_at_ms : Z;
  recent_count : Z;
  recent_reorders : Z }.

Definition ProbeFeedback_default : ProbeFeedback := mkProbeFeedback 0 0 0 0.

Record MeasurementProbePacket := mkMeasurementProbePacket {
  mp_seq : Z;
  mp_sent_at_ms : Z;
  mp_direction : Direction;
  mp_conn_id : string;
  mp_feedback : ProbeFeedback }.

Inductive ControlMessage :=
  | StartTraceroute (m : StartTracerouteMessage)
  | StopTraceroute (m : StopTracerouteMessage)
  | TracerouteCompleted (m : TracerouteCompletedMessage)
  | StartSurveySession (m : StartSurveySessionMessage)
  | ServerSideReady (m : ServerSideReadyMessage)
  | StartMtuTraceroute (m : StartMtuTracerouteMessage)
  | MtuTracerouteCompleted (m : MtuTracerouteCompletedMessage)
  | TraceHop (m : TraceHopMessage)
  | MtuHop (m : MtuHopMessage)
  | GetMeasuringTime (m : GetMeasuringTimeMessage)
  | MeasuringTimeResponse (m : MeasuringTimeResponseMessage)
  | StartServerTraffic (m : StartServerTrafficMessage)
  | StopServerTraffic (m : StopServerTrafficMessage)
  | TestProbeMessageEcho (m : TestProbePacket)
  | StartProbeStreams (m : StartProbeStreamsMessage)
  | StopProbeStreams (m : StopProbeStreamsMessage)
  | ProbeStats (m : ProbeStatsReport).

(** ** Events *)

Record TrackedPacketEvent := mkTrackedPacketEvent {
  ev_icmp_packet : list Z;
  ev_udp_packet : list Z;
  ev_tracked_ip_length : Z;
  ev_cleartext : list Z;
  ev_sent_at : Instant;
  ev_icmp_received_at : Instant;
  ev_send_options : SendOptions;
  ev_router_ip : option string;
  ev_conn_id : string;
  ev_original_src_port : Z;
  ev_original_dest_addr : string }.
