(* ===== verification/Upload.v ===== *)
(** * Uploads of survey recordings (server/src/upload_api.rs, upload_utils.rs and
    the upload functions of server/static/nettest.html)

    A recording is a video and a file of sensor data.  The browser asks which
    chunks the server already has, sends the others, each with its SHA-256 sum,
    and has the whole verified.  Handlers and client are modelled on one store:
    the files and the two tables of the database they use.  What the file system
    and the database answer is an observation of the operation; SHA-256 in
    hexadecimal, chrono's calendar and JSON are parameters. *)

From stdpp Require Import base list gmap strings pretty.
From Stdlib Require Import ZArith Lia Ascii.
From S2P Require Import Prelude Utf8 Net IpParse F64 Protocol.
Local Open Scope Z_scope.

(** ** Paths: [PathBuf::join] on Unix *)

Definition path_join (base p : string) : string :=
  if starts_with "/" p then p
  else if (base =? String.EmptyString)%string || ends_with "/" base then (base +:+ p)%string
  else (base +:+ "/" +:+ p)%string.

(** ** Tables and files *)

Record SurveySessionRow := mkSurveySessionRow {
  ss_magic_key : string;
  ss_start_time : Z;
  ss_deleted : bool }.

Record RecordingRow := mkRecordingRow {
  rec_session_id : string;
  rec_video_path : string;
  rec_sensor_path : string;
  rec_video_size_bytes : Z;
  rec_sensor_size_bytes : Z;
  rec_video_uploaded_bytes : Z;
  rec_sensor_uploaded_bytes : Z;
  rec_device_info_json : string;
  rec_user_notes : option string;
  rec_created_at : Z;
  rec_upload_status : string;
  rec_completed_at : option Z }.

(** [UploadState] and what it refers to; [us_db] is [false] when no database is
    configured. *)
Record UploadState := mkUploadState {
  us_db : bool;
  us_storage_base_path : string;
  us_sessions : gmap string SurveySessionRow;
  us_recordings : gmap string RecordingRow;
  us_files : gmap string bytes }.

Definition set_recordings (m : gmap string RecordingRow) (st : UploadState) : UploadState :=
  mkUploadState (us_db st) (us_storage_base_path st) (us_sessions st) m (us_files st).

Definition set_files (m : gmap string bytes) (st : UploadState) : UploadState :=
  mkUploadState (us_db st) (us_storage_base_path st) (us_sessions st) (us_recordings st) m.

(** A handler's answer: a status and message, or the body of a success. *)
Inductive response (A : Type) :=
  | Failed (status : Z) (error : string)
  | Responded (a : A).
Arguments Failed {A} status error.
Arguments Responded {A} a.

Definition SERVICE_UNAVAILABLE : Z := 503.
Definition INTERNAL_SERVER_ERROR : Z := 500.
Definition NOT_FOUND : Z := 404.
Definition BAD_REQUEST : Z := 400.

Definition database_unavailable : string :=
  "Upload feature is unavailable - database not configured".
Definition session_not_found (session_id : string) : string :=
  ("Session not found: " +:+ session_id)%string.
Definition recording_not_found (recording_id : string) : string :=
  ("Recording not found: " +:+ recording_id)%string.

(** An unsigned 64-bit value as a parameter of a statement: SQLite's integers
    are signed, and the conversion fails above. *)
Definition sql_u64 (n : Z) : option Z := if n <? 2 ^ 63 then Some n else None.

(** [write_all] after [seek]: a hole before the data reads as zeros, an empty
    write changes nothing. *)
Definition write_at (file : bytes) (offset : nat) (body : bytes) : bytes :=
  match body with
  | [] => file
  | _ => take offset file ++ replicate (offset - length file) 0 ++ body
         ++ drop (offset + length body) file
  end.

(** ** Checksums (server/src/upload_utils.rs) *)

Definition CHUNK_SIZE : Z := 1048576.
Definition chunk_len : nat := Z.to_nat CHUNK_SIZE.

(** [((total_size as f64) / CHUNK_SIZE as f64).ceil() as usize] *)
Definition num_chunks (total_size : Z) : nat :=
  Z.to_nat (f64_as_u64 (f64_ceil (f64_div (f64_of_Z total_size) (f64_of_Z CHUNK_SIZE)))).

(** What the file system answers: whether the file can be opened, and for each
    read an error or how many bytes it is prepared to return. *)
Record read_obs := mkReadObs { rd_open : bool; rd_read : nat -> option nat }.

Section upload.
  Context (sha256_hex : bytes -> string)
    (date_dirs : Z -> option (string * string * string)).

Definition calculate_checksum (data : bytes) : string := sha256_hex data.

Definition calculate_combined_checksum (checksums : list string) : string :=
  sha256_hex (bytes_of_string (join String.EmptyString checksums)).

(** The loop of [calculate_file_checksums]: one [read] into the buffer per chunk,
    which returns at least a byte unless the file is at its end. *)
Fixpoint read_checksums (read : nat -> option nat) (i n : nat) (rest : bytes)
    : option (list (option string)) :=
  match n with
  | O => Some []
  | S n =>
      ready ← read i;
      let bytes_read := Nat.min (Nat.max 1 ready) (Nat.min chunk_len (length rest)) in
      let checksum :=
        if (bytes_read =? 0)%nat then None else Some (calculate_checksum (take bytes_read rest)) in
      checksums ← read_checksums read (S i) n (drop bytes_read rest);
      Some (checksum :: checksums)
  end.

Definition calculate_file_checksums (o : read_obs) (file : option bytes) (total_size : Z)
    : option (list (option string)) :=
  match file with
  | None => Some []
  | Some data =>
      if rd_open o then read_checksums (rd_read o) 0 (num_chunks total_size) data else None
  end.

(** ** Prepare *)

Record PrepareUploadRequest := mkPrepareUploadRequest {
  pur_session_id : string;
  pur_recording_id : string;
  pur_video_size_bytes : Z;
  pur_sensor_size_bytes : Z;
  pur_device_info : option string;  (* serialised; [None] when serde fails *)
  pur_user_notes : option string }.

Record ChunkInfo := mkChunkInfo { ci_chunk_index : nat; ci_checksum : string }.

Record PrepareUploadResponse := mkPrepareUploadResponse {
  pr_recording_id : string;
  pr_video_chunks : list (option ChunkInfo);
  pr_sensor_chunks : list (option ChunkInfo);
  pr_video_uploaded_bytes : Z;
  pr_sensor_uploaded_bytes : Z }.

Record prepare_obs := mkPrepareObs {
  po_session_query : bool;
  po_details_query : bool;
  po_create_dir : bool;
  po_video : read_obs;
  po_sensor : read_obs;
  po_now_ms : Z;
  po_insert : bool }.

Definition chunk_infos (checksums : list (option string)) : list (option ChunkInfo) :=
  imap (fun idx cs => mkChunkInfo idx <$> cs) checksums.

Definition uploaded_bytes (file : option bytes) : Z :=
  match file with Some data => Z.of_nat (length data) | None => 0 end.

Definition session_dir (st : UploadState) (row : SurveySessionRow) (date : string * string * string)
    (session_id : string) : string :=
  path_join (path_join (path_join (path_join (path_join (us_storage_base_path st)
    (ss_magic_key row)) date.1.1) date.1.2) date.2) session_id.

(** [INSERT ... ON CONFLICT(recording_id) DO UPDATE ...], [None] when a value does
    not convert. *)
Definition upsert_recording (req : PrepareUploadRequest) (video_path sensor_path : string)
    (video_uploaded sensor_uploaded : Z) (device_info_json : string) (now_ms : Z)
    (recordings : gmap string RecordingRow) : option (gmap string RecordingRow) :=
  video_size ← sql_u64 (pur_video_size_bytes req);
  sensor_size ← sql_u64 (pur_sensor_size_bytes req);
  video_uploaded ← sql_u64 video_uploaded;
  sensor_uploaded ← sql_u64 sensor_uploaded;
  created_at ← sql_u64 now_ms;
  let row :=
    match recordings !! pur_recording_id req with
    | None =>
        mkRecordingRow (pur_session_id req) video_path sensor_path video_size sensor_size
          video_uploaded sensor_uploaded device_info_json (pur_user_notes req) created_at
          "uploading" None
    | Some r =>
        mkRecordingRow (rec_session_id r) (rec_video_path r) (rec_sensor_path r)
          (rec_video_size_bytes r) (rec_sensor_size_bytes r) video_uploaded sensor_uploaded
          (rec_device_info_json r)
          (match pur_user_notes req with Some n => Some n | None => rec_user_notes r end)
          (rec_created_at r) (rec_upload_status r) (rec_completed_at r)
    end in
  Some (<[pur_recording_id req := row]> recordings).

Definition prepare_upload (o : prepare_obs) (req : PrepareUploadRequest) (st : UploadState)
    : response PrepareUploadResponse * UploadState :=
  let internal error : response PrepareUploadResponse * UploadState :=
    (Failed INTERNAL_SERVER_ERROR error, st) in
  if negb (us_db st) then (Failed SERVICE_UNAVAILABLE database_unavailable, st)
  else if negb (po_session_query o) then internal "Database error"
  else
    match us_sessions st !! pur_session_id req with
    | None => (Failed NOT_FOUND (session_not_found (pur_session_id req)), st)
    | Some row =>
        if ss_deleted row then (Failed NOT_FOUND (session_not_found (pur_session_id req)), st)
        else if negb (po_details_query o) then internal "Database error"
        else
          match date_dirs (ss_start_time row) with
          | None => internal "Invalid session timestamp"
          | Some date =>
              let dir := session_dir st row date (pur_session_id req) in
              if negb (po_create_dir o) then internal "Failed to create storage directory"
              else
                let video_path := path_join dir (pur_recording_id req +:+ ".webm")%string in
                let sensor_path := path_join dir (pur_recording_id req +:+ ".json")%string in
                let video := us_files st !! video_path in
                let sensor := us_files st !! sensor_path in
                match calculate_file_checksums (po_video o) video (pur_video_size_bytes req) with
                | None => internal "Failed to process video file"
                | Some video_checksums =>
                    match calculate_file_checksums (po_sensor o) sensor
                            (pur_sensor_size_bytes req) with
                    | None => internal "Failed to process sensor file"
                    | Some sensor_checksums =>
                        match pur_device_info req with
                        | None => (Failed BAD_REQUEST "Invalid device info", st)
                        | Some device_info_json =>
                            match
                              (if po_insert o
                               then upsert_recording req video_path sensor_path
                                      (uploaded_bytes video) (uploaded_bytes sensor)
                                      device_info_json (po_now_ms o) (us_recordings st)
                               else None) with
                            | None => internal "Failed to create recording"
                            | Some recordings =>
                                (Responded (mkPrepareUploadResponse (pur_recording_id req)
                                   (chunk_infos video_checksums) (chunk_infos sensor_checksums)
                                   (uploaded_bytes video) (uploaded_bytes sensor)),
                                 set_recordings recordings st)
                            end
                        end
                    end
                end
          end
    end.

(** ** Chunks *)

(** The four headers, [None] when missing or not text. *)
Record chunk_headers := mkChunkHeaders {
  ch_recording_id : option string;
  ch_file_type : option string;
  ch_chunk_index : option string;
  ch_chunk_checksum : option string }.

Record ChunkUploadResponse := mkChunkUploadResponse {
  cur_status : string;
  cur_chunk_index : Z;
  cur_bytes_received : nat }.

(** A failed write may leave a part of the body in the file. *)
Record chunk_obs := mkChunkObs {
  co_open : bool;
  co_seek : bool;
  co_written : option nat;  (* [None]: everything, [Some n]: an error after [n] bytes *)
  co_flush : bool;
  co_update : bool }.

Definition file_path_of (file_type : string) (r : RecordingRow) : string :=
  if (file_type =? "video")%string then rec_video_path r else rec_sensor_path r.

(** [UPDATE recordings SET ..._uploaded_bytes = MAX(..._uploaded_bytes, ?)] *)
Definition raise_uploaded (file_type : string) (n : Z) (r : RecordingRow) : RecordingRow :=
  let is_video := (file_type =? "video")%string in
  mkRecordingRow (rec_session_id r) (rec_video_path r) (rec_sensor_path r)
    (rec_video_size_bytes r) (rec_sensor_size_bytes r)
    (if is_video then Z.max (rec_video_uploaded_bytes r) n else rec_video_uploaded_bytes r)
    (if is_video then rec_sensor_uploaded_bytes r else Z.max (rec_sensor_uploaded_bytes r) n)
    (rec_device_info_json r) (rec_user_notes r) (rec_created_at r) (rec_upload_status r)
    (rec_completed_at r).

(** Steps 4 and 5 of the handler: the file and the row. *)
Definition store_chunk (o : chunk_obs) (recording_id file_type : string) (chunk_index : Z)
    (body : bytes) (row : RecordingRow) (st : UploadState)
    : outcome (response ChunkUploadResponse * UploadState) :=
  let failed error st : outcome (response ChunkUploadResponse * UploadState) :=
    Ret (Failed INTERNAL_SERVER_ERROR error, st) in
  let file_path := file_path_of file_type row in
  if negb (co_open o) then failed "Failed to open file for writing"%string st
  else
    let file := default [] (us_files st !! file_path) in
    let st := set_files (<[file_path := file]> (us_files st)) st in
    offset ← checked_u 64 (chunk_index * CHUNK_SIZE);
    if negb (co_seek o) then failed "Failed to seek in file"%string st
    else
      let written := match co_written o with None => body | Some n => take n body end in
      let file := write_at file (Z.to_nat offset) written in
      let st := set_files (<[file_path := file]> (us_files st)) st in
      if negb (bool_decide (co_written o = None)) then failed "Failed to write chunk"%string st
      else if negb (co_flush o) then failed "Failed to flush file"%string st
      else
        let bytes_received := length body in
        new_uploaded ← checked_u 64 (offset + Z.of_nat bytes_received);
        match (if co_update o then sql_u64 new_uploaded else None) with
        | None => failed "Failed to update uploaded bytes"%string st
        | Some n =>
            Ret (Responded (mkChunkUploadResponse "received" chunk_index bytes_received),
                 set_recordings (<[recording_id := raise_uploaded file_type n row]>
                                   (us_recordings st)) st)
        end.

Definition upload_chunk (o : chunk_obs) (headers : chunk_headers) (body : bytes) (st : UploadState)
    : outcome (response ChunkUploadResponse * UploadState) :=
  let bad error : outcome (response ChunkUploadResponse * UploadState) :=
    Ret (Failed BAD_REQUEST error, st) in
  if negb (us_db st) then Ret (Failed SERVICE_UNAVAILABLE database_unavailable, st)
  else
    match ch_recording_id headers with
    | None => bad "Missing X-Recording-Id header"%string
    | Some recording_id =>
        match ch_file_type headers with
        | None => bad "Missing X-File-Type header"%string
        | Some file_type =>
            if negb ((file_type =? "video") || (file_type =? "sensor"))%string
            then bad ("Invalid file type: " +:+ file_type)%string
            else
              match ch_chunk_index headers ≫= parse_u64 with
              | None => bad "Missing or invalid X-Chunk-Index header"%string
              | Some chunk_index =>
                  match ch_chunk_checksum headers with
                  | None => bad "Missing X-Chunk-Checksum header"%string
                  | Some expected_checksum =>
                      if negb (calculate_checksum body =? expected_checksum)%string
                      then bad "Checksum mismatch"%string
                      else
                        match us_recordings st !! recording_id with
                        | None => Ret (Failed NOT_FOUND (recording_not_found recording_id), st)
                        | Some row => store_chunk o recording_id file_type chunk_index body row st
                        end
                  end
              end
        end
    end.

(** ** Finalize *)

Record FinalizeUploadRequest := mkFinalizeUploadRequest {
  fur_recording_id : string;
  fur_video_final_checksum : string;
  fur_sensor_final_checksum : string }.

Record FinalizeUploadResponse := mkFinalizeUploadResponse {
  fr_status : string;
  fr_video_verified : bool;
  fr_sensor_verified : bool }.

Record finalize_obs := mkFinalizeObs {
  fo_video : read_obs;
  fo_sensor : read_obs;
  fo_now_ms : Z;
  fo_update : bool }.

Definition set_status (status : string) (completed_at : option Z) (r : RecordingRow) : RecordingRow :=
  mkRecordingRow (rec_session_id r) (rec_video_path r) (rec_sensor_path r)
    (rec_video_size_bytes r) (rec_sensor_size_bytes r) (rec_video_uploaded_bytes r)
    (rec_sensor_uploaded_bytes r) (rec_device_info_json r) (rec_user_notes r) (rec_created_at r)
    status completed_at.

(** [.into_iter().flatten()] drops the chunks that could not be read. *)
Definition flatten (checksums : list (option string)) : list string := omap id checksums.

Definition finalize_upload (o : finalize_obs) (req : FinalizeUploadRequest) (st : UploadState)
    : response FinalizeUploadResponse * UploadState :=
  let internal error : response FinalizeUploadResponse * UploadState :=
    (Failed INTERNAL_SERVER_ERROR error, st) in
  if negb (us_db st) then (Failed SERVICE_UNAVAILABLE database_unavailable, st)
  else
    match us_recordings st !! fur_recording_id req with
    | None => (Failed NOT_FOUND (recording_not_found (fur_recording_id req)), st)
    | Some row =>
        match calculate_file_checksums (fo_video o) (us_files st !! rec_video_path row)
                (as_u 64 (rec_video_size_bytes row)) with
        | None => internal "Failed to verify video file"%string
        | Some video_checksums =>
            let video_verified :=
              (calculate_combined_checksum (flatten video_checksums)
               =? fur_video_final_checksum req)%string in
            match calculate_file_checksums (fo_sensor o) (us_files st !! rec_sensor_path row)
                    (as_u 64 (rec_sensor_size_bytes row)) with
            | None => internal "Failed to verify sensor file"%string
            | Some sensor_checksums =>
                let sensor_verified :=
                  (calculate_combined_checksum (flatten sensor_checksums)
                   =? fur_sensor_final_checksum req)%string in
                let row' :=
                  if video_verified && sensor_verified
                  then (fun now_ms => set_status "complete" (Some now_ms) row) <$> sql_u64 (fo_now_ms o)
                  else Some (set_status "failed" (rec_completed_at row) row) in
                match (if fo_update o then row' else None) with
                | None => internal "Failed to update recording status"%string
                | Some row' =>
                    (Responded (mkFinalizeUploadResponse
                       (if video_verified && sensor_verified then "complete" else "failed")
                       video_verified sensor_verified),
                     set_recordings (<[fur_recording_id req := row']> (us_recordings st)) st)
                end
            end
        end
    end.

(** ** The browser (server/static/nettest.html) *)

(** [blob.slice(i * CHUNK_SIZE, Math.min((i + 1) * CHUNK_SIZE, blob.size))] *)
Definition chunk_of (blob : bytes) (i : nat) : bytes := take chunk_len (drop (i * chunk_len) blob).

(** [Math.ceil(blob.size / CHUNK_SIZE)] *)
Definition total_chunks (blob : bytes) : nat := num_chunks (Z.of_nat (length blob)).

Definition calculateAllChunkChecksums (blob : bytes) : list string :=
  map (fun i => sha256_hex (chunk_of blob i)) (seq 0 (total_chunks blob)).

(** A request that does not reach the server, one whose answer is lost, and one
    that is answered. *)
Inductive attempt :=
  | RequestLost
  | ResponseLost (o : chunk_obs)
  | Answered (o : chunk_obs).

Definition chunk_request (recording_id file_type : string) (blob : bytes) (i : nat) : chunk_headers :=
  mkChunkHeaders (Some recording_id) (Some file_type) (Some (decimal (Z.of_nat i)))
    (Some (sha256_hex (chunk_of blob i))).

(** The retry loop of one chunk; the result says whether it succeeded. *)
Fixpoint send_chunk (retries : nat) (recording_id file_type : string) (blob : bytes) (i : nat)
    (attempts : list attempt) (st : UploadState) : outcome (bool * UploadState) :=
  match retries with
  | O => Ret (false, st)
  | S retries =>
      match attempts with
      | [] => OutOfFuel
      | RequestLost :: attempts =>
          send_chunk retries recording_id file_type blob i attempts st
      | ResponseLost o :: attempts =>
          r ← upload_chunk o (chunk_request recording_id file_type blob i) (chunk_of blob i) st;
          send_chunk retries recording_id file_type blob i attempts r.2
      | Answered o :: attempts =>
          r ← upload_chunk o (chunk_request recording_id file_type blob i) (chunk_of blob i) st;
          match r.1 with
          | Responded _ => Ret (true, r.2)
          | Failed _ _ => send_chunk retries recording_id file_type blob i attempts r.2
          end
      end
  end.

(** Whether the server reported the chunk with the right sum. *)
Definition has_chunk (existing : list (option ChunkInfo)) (blob : bytes) (i : nat) : bool :=
  match existing !! i with
  | Some (Some info) => (ci_checksum info =? sha256_hex (chunk_of blob i))%string
  | _ => false
  end.

(** [uploadFile] over the given chunks. *)
Fixpoint uploadChunks (recording_id file_type : string) (blob : bytes)
    (existing : list (option ChunkInfo)) (attempts : nat -> list attempt) (chunks : list nat)
    (st : UploadState) : outcome (bool * UploadState) :=
  match chunks with
  | [] => Ret (true, st)
  | i :: chunks =>
      if has_chunk existing blob i
      then uploadChunks recording_id file_type blob existing attempts chunks st
      else
        r ← send_chunk 3 recording_id file_type blob i (attempts i) st;
        if (r.1 : bool) then uploadChunks recording_id file_type blob existing attempts chunks r.2
        else Ret (false, r.2)
  end.

Definition uploadFile (recording_id file_type : string) (blob : bytes)
    (existing : list (option ChunkInfo)) (attempts : nat -> list attempt) (st : UploadState)
    : outcome (bool * UploadState) :=
  uploadChunks recording_id file_type blob existing attempts (seq 0 (total_chunks blob)) st.

(** [startUpload]: the status the server finally reports, or [None] when a step
    failed. *)
Definition startUpload (session_id recording_id : string) (video sensor : bytes)
    (device_info notes : option string) (po : prepare_obs)
    (video_attempts sensor_attempts : nat -> list attempt) (fo : finalize_obs) (st : UploadState)
    : outcome (option FinalizeUploadResponse * UploadState) :=
  let '(prepared, st) :=
    prepare_upload po (mkPrepareUploadRequest session_id recording_id (Z.of_nat (length video))
                         (Z.of_nat (length sensor)) device_info notes) st in
  match prepared with
  | Failed _ _ => Ret (None, st)
  | Responded p =>
      r ← uploadFile recording_id "video" video (pr_video_chunks p) video_attempts st;
      if negb r.1 then Ret (None, r.2)
      else
        r ← uploadFile recording_id "sensor" sensor (pr_sensor_chunks p) sensor_attempts r.2;
        if negb r.1 then Ret (None, r.2)
        else
          let '(final, st) :=
            finalize_upload fo
              (mkFinalizeUploadRequest recording_id
                 (sha256_hex (bytes_of_string
                    (join String.EmptyString (calculateAllChunkChecksums video))))
                 (sha256_hex (bytes_of_string
                    (join String.EmptyString (calculateAllChunkChecksums sensor))))) r.2 in
          match final with
          | Failed _ _ => Ret (None, st)
          | Responded f => Ret (Some f, st)
          end
  end.

End upload.

(** ** Chunks of a file *)

Definition agree (file blob : bytes) (i : nat) : Prop := chunk_of file i = chunk_of blob i.

Lemma chunk_len_pos : (0 < chunk_len)%nat.
Proof. unfold chunk_len, CHUNK_SIZE. lia. Qed.

Lemma num_chunks_spec n :
  (Z.of_nat n < 2 ^ 53) -> (n <= num_chunks (Z.of_nat n) * chunk_len)%nat
  /\ forall i, (i < num_chunks (Z.of_nat n))%nat -> (i * chunk_len < n)%nat.
Proof.
  intros Hn. unfold num_chunks, chunk_len, CHUNK_SIZE. rewrite f64_ceil_mebibytes by lia.
  pose proof (Z.div_mod (Z.of_nat n + 1048575) 1048576).
  pose proof (Z.mod_pos_bound (Z.of_nat n + 1048575) 1048576).
  assert (0 <= (Z.of_nat n + 1048575) / 1048576) by (apply Z.div_pos; lia).
  split; [|intros i Hi]; lia.
Qed.

Lemma chunk_offset i : Z.of_nat i * CHUNK_SIZE = Z.of_nat (i * chunk_len).
Proof. unfold chunk_len. rewrite Nat2Z.inj_mul, Z2Nat.id; [done|]. by unfold CHUNK_SIZE. Qed.

#[global] Opaque chunk_len.

Lemma chunk_of_lookup l i k :
  chunk_of l i !! k = if decide (k < chunk_len)%nat then l !! (i * chunk_len + k)%nat else None.
Proof.
  unfold chunk_of. case_decide.
  - by rewrite lookup_take_lt, lookup_drop by lia.
  - by rewrite lookup_take_ge by lia.
Qed.

(** Agreement, byte by byte. *)
Lemma agree_lookup file blob i :
  agree file blob i
  <-> forall k, (i * chunk_len <= k < S i * chunk_len)%nat -> file !! k = blob !! k.
Proof.
  unfold agree. split.
  - intros H k Hk. assert (chunk_of file i !! (k - i * chunk_len)%nat
      = chunk_of blob i !! (k - i * chunk_len)%nat) as Hl by by rewrite H.
    rewrite !chunk_of_lookup, !decide_True in Hl by lia.
    by replace (i * chunk_len + (k - i * chunk_len))%nat with k in Hl by lia.
  - intros H. apply list_eq. intros k. rewrite !chunk_of_lookup. case_decide; [|done].
    apply H. lia.
Qed.

Lemma agree_all file blob n :
  (length file <= length blob <= n * chunk_len)%nat ->
  (forall i, (i < n)%nat -> agree file blob i) -> file = blob.
Proof.
  intros Hlen Hall. apply list_eq. intros k. pose proof chunk_len_pos.
  destruct (decide (k < n * chunk_len)%nat) as [Hk|Hk].
  - assert (k / chunk_len < n)%nat as Hlt by (apply Nat.Div0.div_lt_upper_bound; lia).
    apply (proj1 (agree_lookup file blob (k / chunk_len)) (Hall _ Hlt)).
    pose proof (Nat.div_mod_eq k chunk_len). pose proof (Nat.mod_upper_bound k chunk_len). lia.
  - by rewrite !lookup_ge_None_2 by lia.
Qed.

Lemma length_write_at file offset body :
  length (write_at file offset body)
  = match body with [] => length file | _ => Nat.max (length file) (offset + length body) end.
Proof.
  destruct body as [|b body]; [done|]. unfold write_at.
  rewrite !length_app, length_take, length_replicate, length_drop. lia.
Qed.

(** Outside the written range a byte stays, or is a hole. *)
Lemma write_at_lookup_ne file offset body k :
  (k < offset \/ offset + length body <= k)%nat ->
  write_at file offset body !! k = file !! k
  \/ (k < offset /\ length file <= k)%nat.
Proof.
  intros Hk. destruct body as [|b body]; [by left|]. unfold write_at.
  destruct Hk as [Hk|Hk].
  - destruct (decide (k < length file)%nat); [left|right; lia].
    rewrite lookup_app_l by (rewrite length_take; lia). by rewrite lookup_take_lt.
  - left. rewrite lookup_app_r by (rewrite length_take; lia).
    rewrite lookup_app_r by (rewrite length_take, length_replicate; lia).
    rewrite lookup_app_r by (rewrite length_take, length_replicate; simpl in *; lia).
    rewrite lookup_drop. f_equal. rewrite length_take, length_replicate. simpl in *. lia.
Qed.

Lemma write_at_lookup file offset body k :
  (k < length body)%nat -> write_at file offset body !! (offset + k)%nat = body !! k.
Proof.
  intros Hk. destruct body as [|b body]; [simpl in Hk; lia|]. unfold write_at.
  rewrite lookup_app_r by (rewrite length_take; lia).
  rewrite lookup_app_r by (rewrite length_take, length_replicate; lia).
  rewrite lookup_app_l by (rewrite length_take, length_replicate; lia).
  f_equal. rewrite length_take, length_replicate. lia.
Qed.

Lemma length_chunk_of blob i : length (chunk_of blob i) = Nat.min chunk_len (length blob - i * chunk_len).
Proof. unfold chunk_of. by rewrite length_take, length_drop. Qed.

(** Writing a part of a chunk where it belongs keeps every chunk that was right. *)
Lemma write_chunk_keeps file blob i j n :
  (i * chunk_len < length blob)%nat -> agree file blob j ->
  agree (write_at file (i * chunk_len) (take n (chunk_of blob i))) blob j.
Proof.
  intros Hi. rewrite !agree_lookup. intros Hag k Hk.
  pose proof (length_take (chunk_of blob i) n) as Ht. pose proof (length_chunk_of blob i) as Hc.
  destruct (decide (i * chunk_len <= k < i * chunk_len + length (take n (chunk_of blob i)))%nat)
    as [Hin|Hout].
  - replace k with (i * chunk_len + (k - i * chunk_len))%nat at 1 by lia.
    rewrite write_at_lookup, lookup_take_lt, chunk_of_lookup, decide_True by lia. f_equal. lia.
  - destruct (write_at_lookup_ne file (i * chunk_len) (take n (chunk_of blob i)) k)
      as [->|[Hlt Hge]]; [lia|by apply Hag|].
    specialize (Hag k Hk). rewrite lookup_ge_None_2 in Hag by lia.
    symmetry in Hag. apply lookup_ge_None_1 in Hag. lia.
Qed.

Lemma write_chunk_here file blob i :
  (i * chunk_len < length blob)%nat -> (length file <= length blob)%nat ->
  agree (write_at file (i * chunk_len) (chunk_of blob i)) blob i.
Proof.
  intros Hi Hlen. apply agree_lookup. intros k Hk.
  pose proof (length_chunk_of blob i) as Hl. pose proof chunk_len_pos.
  destruct (decide (k - i * chunk_len < length (chunk_of blob i))%nat) as [Hin|Hout].
  - replace k with (i * chunk_len + (k - i * chunk_len))%nat at 1 by lia.
    rewrite write_at_lookup, chunk_of_lookup, decide_True by lia. f_equal. lia.
  - assert (length blob <= k)%nat by lia.
    rewrite !lookup_ge_None_2; [done|lia|]. rewrite length_write_at.
    destruct (chunk_of blob i); simpl in *; lia.
Qed.

Lemma write_chunk_length file blob i n :
  (length file <= length blob)%nat ->
  (length (write_at file (i * chunk_len) (take n (chunk_of blob i))) <= length blob)%nat.
Proof.
  intros Hlen. rewrite length_write_at. pose proof (length_chunk_of blob i) as Hc.
  pose proof (length_take (chunk_of blob i) n) as Ht.
  destruct (take n (chunk_of blob i)) as [|b l]; [done|]. simpl length in Ht |- *. lia.
Qed.

Lemma sql_u64_small n : n < 2 ^ 63 -> sql_u64 n = Some n.
Proof. intros Hn. unfold sql_u64. by rewrite (proj2 (Z.ltb_lt _ _)). Qed.

(** Sums of one length can be told apart in their concatenation. *)
Lemma join_empty_cons w ws :
  join String.EmptyString (w :: ws) = (w +:+ join String.EmptyString ws)%string.
Proof.
  destruct ws; [|done]. induction w as [|a w IH]; [done|]. exact (f_equal (String a) IH).
Qed.

Lemma string_app_inv_length (a b c d : string) :
  String.length a = String.length b -> (a +:+ c = b +:+ d)%string -> a = b /\ c = d.
Proof.
  revert b. induction a as [|x a IH]; intros [|y b]; simpl; try lia; [done|].
  intros Hl [= -> H]. destruct (IH b) as [-> ->]; auto.
Qed.

Lemma join_empty_inj n ws ws' :
  (0 < n)%nat -> Forall (fun w => String.length w = n) ws -> Forall (fun w => String.length w = n) ws' ->
  join String.EmptyString ws = join String.EmptyString ws' -> ws = ws'.
Proof.
  intros Hn H. revert ws'. induction H as [|w ws Hw Hws IH]; intros ws' [|w' ws'' Hw' Hws'];
    rewrite ?join_empty_cons; [done|..].
  - destruct w'; [simpl in Hw'; lia|done].
  - destruct w; [simpl in Hw; lia|done].
  - intros [-> Heq]%string_app_inv_length; [|congruence]. f_equal. by apply IH.
Qed.

(** ** Checksums of a file read without short reads *)

Definition full_reads (o : read_obs) : Prop :=
  rd_open o = true /\ forall i, exists r, rd_read o i = Some r /\ (chunk_len <= r)%nat.

Section transfer.
  Context (sha256_hex : bytes -> string)
    (date_dirs : Z -> option (string * string * string)).

Definition sum_of (file : bytes) (i : nat) : option string :=
  if decide (i * chunk_len < length file)%nat then Some (sha256_hex (chunk_of file i)) else None.

Lemma read_checksums_full read k n file :
  (forall i, exists r, read i = Some r /\ (chunk_len <= r)%nat) ->
  read_checksums sha256_hex read k n file = Some (map (sum_of file) (seq 0 n)).
Proof.
  intros Hread. pose proof chunk_len_pos as Hpos.
  revert k file. induction n as [|n IH]; intros k file; [done|]. cbn [read_checksums seq map].
  destruct (Hread k) as (r & -> & Hr). cbn [mbind option_bind].
  replace (Nat.min (Nat.max 1 r) (Nat.min chunk_len (length file)))
    with (Nat.min chunk_len (length file)) by lia.
  rewrite IH. unfold mbind, option_bind. do 2 f_equal.
  - unfold sum_of, chunk_of, calculate_checksum. simpl Nat.mul. rewrite drop_0.
    destruct file as [|b file].
    + rewrite Nat.min_0_r, decide_False by (simpl; lia). done.
    + rewrite decide_True by (cbn [length]; lia).
      rewrite (proj2 (Nat.eqb_neq (Nat.min chunk_len (length (b :: file))) 0)) by (cbn [length]; lia).
      by rewrite <-take_take, firstn_all.
  - rewrite <-seq_shift, map_map. apply map_ext. intros i. unfold sum_of, chunk_of.
    rewrite length_drop, drop_drop.
    destruct (decide (chunk_len <= length file)%nat).
    + rewrite Nat.min_l by lia.
      destruct (decide (i * chunk_len < length file - chunk_len)%nat);
        [rewrite decide_True by lia | rewrite decide_False by lia; done].
      do 3 f_equal; lia.
    + rewrite Nat.min_r by lia. rewrite !decide_False by lia. done.
Qed.

Lemma file_checksums_full o file size :
  full_reads o ->
  calculate_file_checksums sha256_hex o file size
  = Some (match file with Some data => map (sum_of data) (seq 0 (num_chunks size)) | None => [] end).
Proof.
  intros [Hopen Hread]. destruct file as [data|]; [|done].
  cbn. rewrite Hopen. by apply read_checksums_full.
Qed.

(** The sums of a complete file are the ones the browser computes. *)
Lemma checksums_of_complete blob :
  Z.of_nat (length blob) < 2 ^ 53 ->
  flatten (map (sum_of blob) (seq 0 (total_chunks blob))) = calculateAllChunkChecksums sha256_hex blob.
Proof.
  intros Hlen. unfold calculateAllChunkChecksums, total_chunks.
  destruct (num_chunks_spec _ Hlen) as [_ Hin]. unfold flatten.
  assert (forall l, (forall i, In i l -> (i * chunk_len < length blob)%nat) ->
    omap id (map (sum_of blob) l) = map (fun i => sha256_hex (chunk_of blob i)) l) as Hl.
  { induction l as [|i l IH]; intros Hall; [done|]. cbn [map omap list_omap].
    unfold sum_of at 1. rewrite decide_True by (apply Hall; by left). cbn [id].
    f_equal. apply IH. intros j Hj. apply Hall. by right. }
  apply Hl. intros i [_ Hi]%in_seq. by apply Hin.
Qed.

Lemma has_chunk_sum file blob n i :
  has_chunk sha256_hex (chunk_infos (map (sum_of file) (seq 0 n))) blob i = true ->
  sha256_hex (chunk_of file i) = sha256_hex (chunk_of blob i).
Proof.
  unfold has_chunk, chunk_infos. rewrite list_lookup_imap, list_lookup_fmap.
  destruct (seq 0 n !! i) as [j|] eqn:Hj; [|cbn; discriminate]. apply lookup_seq in Hj as [-> _].
  cbn. unfold sum_of. case_decide; [|cbn; discriminate]. apply String.eqb_eq.
Qed.

Lemma has_chunk_nil blob i : has_chunk sha256_hex [] blob i = false.
Proof. by destruct i. Qed.

(** ** What one request does to the store *)

(** The stored file at a path. *)
Definition stored (st : UploadState) (path : string) : bytes := default [] (us_files st !! path).

(** Only the file at the path changed, and the counters of the recording. *)
Record only_file (rid path : string) (st st' : UploadState) : Prop := mkOnlyFile {
  of_db : us_db st' = us_db st;
  of_base : us_storage_base_path st' = us_storage_base_path st;
  of_sessions : us_sessions st' = us_sessions st;
  of_files : forall p, p <> path -> us_files st' !! p = us_files st !! p;
  of_row : forall row, us_recordings st !! rid = Some row ->
    exists row', us_recordings st' !! rid = Some row'
      /\ rec_video_path row' = rec_video_path row /\ rec_sensor_path row' = rec_sensor_path row
      /\ rec_video_size_bytes row' = rec_video_size_bytes row
      /\ rec_sensor_size_bytes row' = rec_sensor_size_bytes row }.

Lemma only_file_refl rid path st : only_file rid path st st.
Proof. split; [done..|]. intros row Hrow. by exists row. Qed.

Lemma only_file_trans rid path st1 st2 st3 :
  only_file rid path st1 st2 -> only_file rid path st2 st3 -> only_file rid path st1 st3.
Proof.
  intros [d1 b1 s1 f1 r1] [d2 b2 s2 f2 r2]. split; try congruence.
  - intros p Hp. by rewrite f2, f1.
  - intros row (row' & H' & ? & ? & ? & ?)%r1. destruct (r2 _ H') as (row'' & ? & ? & ? & ? & ?).
    exists row''. repeat split; congruence.
Qed.

(** An observation on which a chunk is stored. *)
Definition chunk_ok (o : chunk_obs) : bool :=
  co_open o && co_seek o && bool_decide (co_written o = None) && co_flush o && co_update o.

Lemma stored_set st path f : stored (set_files (<[path := f]> (us_files st)) st) path = f.
Proof. unfold stored. cbn. by rewrite lookup_insert_eq. Qed.

Lemma only_file_set rid path f st : only_file rid path st (set_files (<[path := f]> (us_files st)) st).
Proof.
  split; [done..| |].
  - intros p Hp. cbn. by rewrite lookup_insert_ne.
  - intros row Hrow. by exists row.
Qed.

Lemma only_file_raise rid path ft n row st :
  us_recordings st !! rid = Some row ->
  only_file rid path st
    (set_recordings (<[rid := raise_uploaded ft n row]> (us_recordings st)) st).
Proof.
  intros Hrow. split; [done..|]. intros row' Hrow'. simplify_eq.
  exists (raise_uploaded ft n row). cbn. by rewrite lookup_insert_eq.
Qed.

(** A part of the body is written where it belongs, all of it when the answer is a
    success, and the answer is one when nothing fails. *)
Definition chunk_effect (o : chunk_obs) (rid path : string) (offset : nat) (body : bytes)
    (st : UploadState) (result : outcome (response ChunkUploadResponse * UploadState)) : Prop :=
  exists n r st', result = Ret (r, st')
    /\ only_file rid path st st'
    /\ stored st' path = write_at (stored st path) offset (take n body)
    /\ (chunk_ok o = true -> exists a, r = Responded a)
    /\ (forall a, r = Responded a -> take n body = body).

Lemma chunk_effect_failed o rid path offset body st error n st' :
  chunk_ok o = false -> only_file rid path st st' ->
  stored st' path = write_at (stored st path) offset (take n body) ->
  chunk_effect o rid path offset body st (Ret (Failed INTERNAL_SERVER_ERROR error, st')).
Proof. intros Hok Hof Hst. exists n. do 2 eexists. rewrite Hok. split_and!; done. Qed.

Lemma store_chunk_effect o rid ft i body row st :
  us_recordings st !! rid = Some row ->
  Z.of_nat (i * chunk_len + length body) < 2 ^ 63 ->
  chunk_effect o rid (file_path_of ft row) (i * chunk_len) body st
    (store_chunk o rid ft (Z.of_nat i) body row st).
Proof.
  intros Hrow Hlen. unfold store_chunk. rewrite chunk_offset.
  generalize (file_path_of ft row) as path. intros path. fold (stored st path).
  assert (exists ok, chunk_ok o = ok) as [ok Hok] by eauto. pose proof Hok as Hok'.
  unfold chunk_ok in Hok. set (st1 := set_files _ st).
  assert (stored st1 path = stored st path) as Hst1 by apply stored_set.
  destruct (co_open o); cbn [negb andb] in *.
  2: { subst ok. by apply (chunk_effect_failed _ _ _ _ _ _ _ 0); [..|apply only_file_refl|]. }
  rewrite checked_u_Ret by (unfold is_u; lia). rewrite bind_Ret, Nat2Z.id.
  destruct (co_seek o); cbn [negb andb] in *.
  2: { subst ok. by apply (chunk_effect_failed _ _ _ _ _ _ _ 0); [..|apply only_file_set|]. }
  set (file := write_at _ _ _). set (st2 := set_files _ st1).
  assert (only_file rid path st st2) as Hof2
    by (eapply only_file_trans; apply only_file_set).
  assert (stored st2 path = file) as Hst2 by apply stored_set. subst file.
  destruct (co_written o) as [n|]; cbn [negb andb] in *.
  { rewrite bool_decide_eq_false_2 in * by done. subst ok.
    by apply (chunk_effect_failed _ _ _ _ _ _ _ n). }
  rewrite bool_decide_eq_true_2 in * by done. cbn [negb andb] in *.
  destruct (co_flush o); cbn [negb andb] in *.
  2: { subst ok. apply (chunk_effect_failed _ _ _ _ _ _ _ (length body)); [done..|].
       by rewrite firstn_all. }
  rewrite checked_u_Ret by (unfold is_u; lia). rewrite bind_Ret.
  destruct (co_update o).
  2: { subst ok. apply (chunk_effect_failed _ _ _ _ _ _ _ (length body)); [done..|].
       by rewrite firstn_all. }
  rewrite sql_u64_small by lia.
  exists (length body). do 2 eexists. split; [done|]. rewrite firstn_all.
  split; [eapply only_file_trans; [done|by apply only_file_raise]|]. eauto.
Qed.

Lemma upload_chunk_effect o rid ft blob i row st :
  us_db st = true -> us_recordings st !! rid = Some row ->
  ft = "video"%string \/ ft = "sensor"%string ->
  (i * chunk_len < length blob)%nat -> Z.of_nat (length blob) < 2 ^ 53 ->
  chunk_effect o rid (file_path_of ft row) (i * chunk_len) (chunk_of blob i) st
    (upload_chunk sha256_hex o (chunk_request sha256_hex rid ft blob i) (chunk_of blob i) st).
Proof.
  intros Hdb Hrow Hft Hi Hlen. unfold upload_chunk. rewrite Hdb. cbn [negb chunk_request
    ch_recording_id ch_file_type ch_chunk_index ch_chunk_checksum].
  pose proof (length_chunk_of blob i) as Hcl. pose proof chunk_len_pos as Hpos.
  assert (negb ((ft =? "video") || (ft =? "sensor"))%string = false) as ->
    by (by destruct Hft as [-> | ->]).
  unfold mbind, option_bind. rewrite parse_u64_decimal by nia.
  unfold calculate_checksum. rewrite String.eqb_refl. cbn [negb]. rewrite Hrow.
  apply store_chunk_effect; [done|lia].
Qed.

(** ** Progress of a file towards the recording *)

Definition progress (path : string) (blob : bytes) (A : nat -> Prop) (st : UploadState) : Prop :=
  (length (stored st path) <= length blob)%nat
  /\ forall i, A i -> agree (stored st path) blob i.

(** One of the attempts the loop makes is answered and stored. *)
Fixpoint within (retries : nat) (attempts : list attempt) : bool :=
  match retries, attempts with
  | S retries, Answered o :: attempts => chunk_ok o || within retries attempts
  | S retries, _ :: attempts => within retries attempts
  | _, _ => false
  end.

Lemma chunk_effect_progress o rid path blob i A st result :
  chunk_effect o rid path (i * chunk_len) (chunk_of blob i) st result ->
  (i * chunk_len < length blob)%nat -> progress path blob A st ->
  exists r st', result = Ret (r, st') /\ only_file rid path st st' /\ progress path blob A st'
    /\ (forall a, r = Responded a -> progress path blob (fun j => A j \/ j = i) st')
    /\ (chunk_ok o = true -> exists a, r = Responded a).
Proof.
  intros (n & r & st' & -> & Hof & Hst & Hok & Hfull) Hi [Hlen HA].
  exists r, st'. split; [done|]. split; [done|]. unfold progress. rewrite Hst.
  pose proof (write_chunk_length _ _ i n Hlen). split; [|split; [|done]].
  - split; [done|]. intros j Hj. apply write_chunk_keeps; auto.
  - intros a Ha. split; [done|]. intros j [Hj | ->].
    + apply write_chunk_keeps; auto.
    + rewrite (Hfull a Ha). by apply write_chunk_here.
Qed.

Lemma only_file_row rid path ft row st st' :
  only_file rid path st st' -> us_recordings st !! rid = Some row ->
  exists row', us_recordings st' !! rid = Some row' /\ file_path_of ft row' = file_path_of ft row.
Proof.
  intros Hof Hrow. destruct (of_row _ _ _ _ Hof _ Hrow) as (row' & ? & Hv & Hs & _).
  exists row'. split; [done|]. unfold file_path_of. by rewrite Hv, Hs.
Qed.

(** A file of the recording: its type, its path and what it should hold. *)
Section one_file.
  Context (rid ft path : string) (blob : bytes)
    (Hft : ft = "video"%string \/ ft = "sensor"%string)
    (Hsize : Z.of_nat (length blob) < 2 ^ 53).

Definition has_row (st : UploadState) : Prop :=
  us_db st = true
  /\ exists row, us_recordings st !! rid = Some row /\ file_path_of ft row = path.

Lemma has_row_only_file st st' : has_row st -> only_file rid path st st' -> has_row st'.
Proof.
  intros (Hdb & row & Hrow & Hpath) Hof. split; [by rewrite (of_db _ _ _ _ Hof)|].
  destruct (only_file_row _ _ ft _ _ _ Hof Hrow) as (row' & ? & ?).
  exists row'. split; [done|congruence].
Qed.

Lemma chunk_progress o i A st :
  has_row st -> (i * chunk_len < length blob)%nat -> progress path blob A st ->
  exists r st',
    upload_chunk sha256_hex o (chunk_request sha256_hex rid ft blob i) (chunk_of blob i) st
    = Ret (r, st')
    /\ only_file rid path st st' /\ progress path blob A st'
    /\ (forall a, r = Responded a -> progress path blob (fun j => A j \/ j = i) st')
    /\ (chunk_ok o = true -> exists a, r = Responded a).
Proof.
  intros (Hdb & row & Hrow & <-) Hi. apply chunk_effect_progress; [|done].
  by apply upload_chunk_effect.
Qed.

(** The retries of one chunk, whatever happens to them. *)
Lemma send_chunk_progress retries i A attempts st :
  has_row st -> (i * chunk_len < length blob)%nat -> progress path blob A st ->
  send_chunk sha256_hex retries rid ft blob i attempts st = OutOfFuel
    /\ within retries attempts = false
  \/ exists b st', send_chunk sha256_hex retries rid ft blob i attempts st = Ret (b, st')
    /\ only_file rid path st st' /\ progress path blob A st'
    /\ (b = true -> progress path blob (fun j => A j \/ j = i) st')
    /\ (within retries attempts = true -> b = true).
Proof.
  intros Hrow Hi. revert attempts st Hrow.
  induction retries as [|retries IH]; intros attempts st Hrow HA.
  { right. exists false, st. split_and!; try done. apply only_file_refl. }
  assert (forall st' attempts, only_file rid path st st' -> progress path blob A st' ->
    send_chunk sha256_hex retries rid ft blob i attempts st' = OutOfFuel
      /\ within retries attempts = false
    \/ exists b st'', send_chunk sha256_hex retries rid ft blob i attempts st' = Ret (b, st'')
      /\ only_file rid path st st'' /\ progress path blob A st''
      /\ (b = true -> progress path blob (fun j => A j \/ j = i) st'')
      /\ (within retries attempts = true -> b = true)) as Hnext.
  { intros st' atts Hof HA'.
    destruct (IH atts st') as [?|(b & st'' & ? & ? & ?)]; [by eapply has_row_only_file|done|by left|].
    right. exists b, st''. split; [done|]. split; [by eapply only_file_trans|done]. }
  destruct attempts as [|[|o|o] attempts]; cbn [send_chunk within]; [by left|..].
  - apply Hnext; [apply only_file_refl|done].
  - destruct (chunk_progress o i A st Hrow Hi HA) as (r & st' & -> & Hof & HA' & _).
    rewrite bind_Ret. by apply Hnext.
  - destruct (chunk_progress o i A st Hrow Hi HA) as (r & st' & -> & Hof & HA' & Hdone & Hok).
    rewrite bind_Ret. cbn [fst snd]. destruct r as [status error|a].
    + destruct (chunk_ok o); [by destruct (Hok eq_refl)|]. by apply Hnext.
    + right. exists true, st'. split_and!; eauto.
Qed.

Lemma progress_weaken A (A' : nat -> Prop) st :
  progress path blob A st -> (forall i, A' i -> A i) -> progress path blob A' st.
Proof. intros [Hlen HA] Himp. split; auto. Qed.

Lemma uploadChunks_progress existing attempts chunks A st :
  has_row st -> Forall (fun i => (i * chunk_len < length blob)%nat) chunks ->
  progress path blob A st ->
  uploadChunks sha256_hex rid ft blob existing attempts chunks st = OutOfFuel
    /\ (exists i, In i chunks /\ within 3 (attempts i) = false)
  \/ exists b st', uploadChunks sha256_hex rid ft blob existing attempts chunks st = Ret (b, st')
    /\ only_file rid path st st' /\ progress path blob A st'
    /\ (b = true -> progress path blob
          (fun j => A j \/ In j chunks /\ has_chunk sha256_hex existing blob j = false) st')
    /\ ((forall i, In i chunks -> within 3 (attempts i) = true) -> b = true).
Proof.
  intros Hrow Hall. revert A st Hrow.
  induction Hall as [|i chunks Hi Hall IH]; intros A st Hrow HA; cbn [uploadChunks].
  { right. exists true, st.
    split_and!; [reflexivity|apply only_file_refl|assumption| |reflexivity].
    intros _. eapply progress_weaken; [done|]. by intros j [?|[[] _]]. }
  destruct (has_chunk sha256_hex existing blob i) eqn:Hhas.
  - destruct (IH A st Hrow HA) as [(-> & j & ? & ?)|(b & st' & -> & Hof & HA' & Hdone & Hok)].
    { left. split; [done|]. exists j. split; [by right|done]. }
    right. exists b, st'. split_and!; [reflexivity|assumption|assumption|..].
    + intros ->. eapply progress_weaken; [exact (Hdone eq_refl)|].
      intros j [?|[[->|?] Hj]]; [by left|congruence|by right].
    + intros Hw. apply Hok. intros j Hj. apply Hw. by right.
  - destruct (send_chunk_progress 3 i A (attempts i) st Hrow Hi HA)
      as [[-> Hw]|(b & st1 & -> & Hof1 & HA1 & Hdone1 & Hok1)].
    { left. split; [done|]. exists i. split; [by left|done]. }
    rewrite bind_Ret. cbn [fst snd]. destruct b.
    2: { right. exists false, st1. split_and!; [reflexivity|assumption|assumption|discriminate|].
         intros Hw. apply Hok1, Hw. by left. }
    destruct (IH _ st1 (has_row_only_file _ _ Hrow Hof1) (Hdone1 eq_refl))
      as [(-> & j & ? & ?)|(b & st' & -> & Hof & HA' & Hdone & Hok)].
    { left. split; [done|]. exists j. split; [by right|done]. }
    right. exists b, st'. split_and!.
    + done.
    + by eapply only_file_trans.
    + eapply progress_weaken; [done|]. by left.
    + intros ->. eapply progress_weaken; [by apply Hdone|].
      intros j [?|[[->|?] ?]]; [by left; left|by left; right|by right].
    + intros Hw. apply Hok. intros j Hj. apply Hw. by right.
Qed.

Lemma chunks_inside : Forall (fun i => (i * chunk_len < length blob)%nat) (seq 0 (total_chunks blob)).
Proof.
  apply Forall_forall. intros i Hi%list_elem_of_In%in_seq.
  destruct (num_chunks_spec _ Hsize) as [_ Hin]. apply Hin, Hi.
Qed.

(** Sent to the end from a file on which the server's report can be trusted, the
    file is the recording's. *)
Lemma uploadFile_complete existing attempts st :
  has_row st -> progress path blob (fun i => has_chunk sha256_hex existing blob i = true) st ->
  (forall i, (i < total_chunks blob)%nat -> within 3 (attempts i) = true) ->
  exists st', uploadFile sha256_hex rid ft blob existing attempts st = Ret (true, st')
    /\ only_file rid path st st' /\ stored st' path = blob.
Proof.
  intros Hrow HA Hw. destruct (uploadChunks_progress existing attempts _ _ _ Hrow chunks_inside HA)
    as [(_ & i & Hi%in_seq & Hf)|(b & st' & Heq & Hof & _ & Hdone & Hok)].
  { rewrite Hw in Hf by lia. done. }
  assert (b = true) as -> by (apply Hok; intros i Hi%in_seq; apply Hw; lia).
  exists st'. split; [done|]. split; [done|]. destruct (Hdone eq_refl) as [Hlen Hag].
  apply (agree_all _ _ (total_chunks blob)).
  - split; [done|]. by apply num_chunks_spec.
  - intros i Hi. apply Hag. destruct (has_chunk sha256_hex existing blob i) eqn:?; [by left|right].
    split; [|done]. apply in_seq. lia.
Qed.

(** However it ends, the file is not longer than the recording's. *)
Lemma uploadFile_bounded existing attempts st b st' :
  has_row st -> (length (stored st path) <= length blob)%nat ->
  uploadFile sha256_hex rid ft blob existing attempts st = Ret (b, st') ->
  only_file rid path st st' /\ (length (stored st' path) <= length blob)%nat.
Proof.
  intros Hrow Hlen Heq. unfold uploadFile in Heq.
  assert (progress path blob (fun _ => False) st) as HA by (split; [exact Hlen|intros _ []]).
  destruct (uploadChunks_progress existing attempts _ _ _ Hrow chunks_inside HA)
    as [[Hf _]|(b' & st'' & Heq' & Hof & [Hlen' _] & _)]; rewrite Heq in *; simplify_eq.
  exact (conj Hof Hlen').
Qed.
End one_file.

(** ** A recording and its two files *)

Section recording.
  Context (session_id rid : string) (video sensor : bytes) (vp sp : string)
    (Hvideo : Z.of_nat (length video) < 2 ^ 53) (Hsensor : Z.of_nat (length sensor) < 2 ^ 53).

(** Where [prepare_upload] puts the recording, when its session is known. *)
Definition recording_paths (st : UploadState) : option (string * string) :=
  row ← us_sessions st !! session_id;
  if ss_deleted row then None
  else
    date ← date_dirs (ss_start_time row);
    let dir := session_dir st row date session_id in
    Some (path_join dir (rid +:+ ".webm")%string, path_join dir (rid +:+ ".json")%string).

Definition row_fits (row : RecordingRow) : Prop :=
  rec_video_path row = vp /\ rec_sensor_path row = sp
  /\ rec_video_size_bytes row = Z.of_nat (length video)
  /\ rec_sensor_size_bytes row = Z.of_nat (length sensor).

(** A store from which the upload of the recording can be started or resumed. *)
Record resumable (st : UploadState) : Prop := mkResumable {
  rs_db : us_db st = true;
  rs_paths : recording_paths st = Some (vp, sp);
  rs_video : (length (stored st vp) <= length video)%nat;
  rs_sensor : (length (stored st sp) <= length sensor)%nat;
  rs_row : forall row, us_recordings st !! rid = Some row -> row_fits row }.

Lemma path_join_inj dir a b :
  path_join dir (rid +:+ a) = path_join dir (rid +:+ b) ->
  starts_with "/" a = starts_with "/" b -> a = b.
Proof.
  intros Heq Hab. assert (starts_with "/" (rid +:+ a) = starts_with "/" (rid +:+ b)) as Hs
    by (destruct rid as [|[[] [] [] [] [] [] [] []] r]; [exact Hab|try reflexivity..];
        by destruct r, a, b).
  unfold path_join in Heq. rewrite Hs in Heq.
  destruct (starts_with "/" (rid +:+ b)); [|destruct (_ || _)];
    repeat apply (inj (String.app _)) in Heq; done.
Qed.

Lemma paths_differ st : recording_paths st = Some (vp, sp) -> vp <> sp.
Proof.
  unfold recording_paths. destruct (us_sessions st !! session_id) as [row|]; [|done]. simpl.
  destruct (ss_deleted row); [done|]. destruct (date_dirs (ss_start_time row)); [|done]. simpl.
  intros [= <- <-] Heq%path_join_inj; done.
Qed.

Lemma resumable_has_row ft path st row :
  resumable st -> us_recordings st !! rid = Some row ->
  (ft, path) = ("video"%string, vp) \/ (ft, path) = ("sensor"%string, sp) -> has_row rid ft path st.
Proof.
  intros Hrs Hrow Hft. split; [apply (rs_db _ Hrs)|]. exists row. split; [done|].
  destruct (rs_row _ Hrs _ Hrow) as (Hv & Hs & _). by destruct Hft as [[= -> ->]|[= -> ->]].
Qed.

(** Writing to one of the two files keeps a resumable store so. *)
Lemma resumable_only_file path st st' row :
  resumable st -> us_recordings st !! rid = Some row -> only_file rid path st st' ->
  (path = vp /\ (length (stored st' vp) <= length video)%nat
   \/ path = sp /\ (length (stored st' sp) <= length sensor)%nat) ->
  resumable st' /\ exists row', us_recordings st' !! rid = Some row'.
Proof.
  intros Hrs Hrow Hof Hlen. pose proof (paths_differ _ (rs_paths _ Hrs)) as Hne.
  assert (forall p, p <> path -> stored st' p = stored st p) as Hother.
  { intros p Hp. unfold stored. by rewrite (of_files _ _ _ _ Hof). }
  destruct (of_row _ _ _ _ Hof _ Hrow) as (row' & Hrow' & Hv & Hs & Hvs & Hss).
  split; [|by exists row']. split.
  - rewrite (of_db _ _ _ _ Hof). apply (rs_db _ Hrs).
  - rewrite <-(rs_paths _ Hrs). unfold recording_paths, session_dir.
    by rewrite (of_sessions _ _ _ _ Hof), (of_base _ _ _ _ Hof).
  - destruct Hlen as [[-> ?]|[-> _]]; [done|]. rewrite Hother by done. apply (rs_video _ Hrs).
  - destruct Hlen as [[-> _]|[-> ?]]; [|done]. rewrite Hother by done. apply (rs_sensor _ Hrs).
  - intros row'' Hrow''. simplify_eq. unfold row_fits. rewrite Hv, Hs, Hvs, Hss.
    by apply (rs_row _ Hrs).
Qed.

(** ** The handlers around the chunks *)

Definition prepare_request (device_info notes : option string) : PrepareUploadRequest :=
  mkPrepareUploadRequest session_id rid (Z.of_nat (length video)) (Z.of_nat (length sensor))
    device_info notes.

Lemma recording_paths_inv st :
  recording_paths st = Some (vp, sp) ->
  exists row date, us_sessions st !! session_id = Some row /\ ss_deleted row = false
    /\ date_dirs (ss_start_time row) = Some date
    /\ vp = path_join (session_dir st row date session_id) (rid +:+ ".webm")
    /\ sp = path_join (session_dir st row date session_id) (rid +:+ ".json").
Proof.
  unfold recording_paths. destruct (us_sessions st !! session_id) as [row|]; [|done]. simpl.
  destruct (ss_deleted row) eqn:?; [done|]. destruct (date_dirs (ss_start_time row)) as [date|] eqn:?;
    [|done]. simpl. intros [= <- <-]. by exists row, date.
Qed.

Lemma upsert_fits di notes vu su info now (recordings recordings' : gmap string RecordingRow) :
  upsert_recording (prepare_request di notes) vp sp vu su info now recordings = Some recordings' ->
  (forall row, recordings !! rid = Some row -> row_fits row) ->
  exists row, recordings' !! rid = Some row /\ row_fits row.
Proof.
  unfold upsert_recording. cbn [prepare_request pur_video_size_bytes pur_sensor_size_bytes
    pur_recording_id pur_session_id pur_user_notes]. unfold sql_u64. intros Hup Hfit.
  repeat case_match; simplify_option_eq; eexists; (split; [apply lookup_insert_eq|]);
    first [by split_and! | destruct (Hfit _ eq_refl) as (? & ? & ? & ?); by split_and!].
Qed.

Lemma resumable_recordings st recordings row :
  resumable st -> recordings !! rid = Some row -> row_fits row ->
  resumable (set_recordings recordings st).
Proof.
  intros [Hdb Hp Hv Hs Hr] Hrow Hfit. split; [done..|]. cbn. intros row' Hrow'. by simplify_eq.
Qed.

(** Preparing never touches a file, and leaves a row behind when it succeeds. *)
Lemma prepare_keeps po di notes st r st' :
  resumable st -> prepare_upload sha256_hex date_dirs po (prepare_request di notes) st = (r, st') ->
  resumable st' /\ us_files st' = us_files st
  /\ (forall p, r = Responded p -> exists row, us_recordings st' !! rid = Some row).
Proof.
  intros Hrs. destruct (recording_paths_inv _ (rs_paths _ Hrs))
    as (row & date & Hrow & Hdel & Hdate & Hvp & Hsp).
  unfold prepare_upload. cbn [prepare_request pur_session_id pur_recording_id pur_device_info].
  rewrite Hrow, Hdel, Hdate, <-Hvp, <-Hsp. fold (prepare_request di notes). intros Hprep.
  repeat case_match; simplify_eq; try by (split_and!; [exact Hrs|reflexivity|discriminate]).
  destruct (upsert_fits _ _ _ _ _ _ _ _ ltac:(eassumption) (rs_row _ Hrs)) as (row' & Hrow' & Hfit).
  split_and!; [by eapply resumable_recordings|reflexivity|]. intros p _. by exists row'.
Qed.

Definition prepare_ok (po : prepare_obs) : Prop :=
  po_session_query po = true /\ po_details_query po = true /\ po_create_dir po = true
  /\ full_reads (po_video po) /\ full_reads (po_sensor po)
  /\ po_now_ms po < 2 ^ 63 /\ po_insert po = true.

(** What the server reports of a file. *)
Definition reported (file : option bytes) (blob : bytes) : list (option ChunkInfo) :=
  chunk_infos
    (match file with Some data => map (sum_of data) (seq 0 (total_chunks blob)) | None => [] end).

Lemma prepare_succeeds po info notes st :
  resumable st -> prepare_ok po ->
  exists p st', prepare_upload sha256_hex date_dirs po (prepare_request (Some info) notes) st
    = (Responded p, st')
  /\ pr_video_chunks p = reported (us_files st !! vp) video
  /\ pr_sensor_chunks p = reported (us_files st !! sp) sensor.
Proof.
  intros Hrs (H1 & H2 & H3 & H4 & H5 & H6 & H7).
  destruct (recording_paths_inv _ (rs_paths _ Hrs))
    as (row & date & Hrow & Hdel & Hdate & Hvp & Hsp).
  assert (forall path (blob : bytes), (length (stored st path) <= length blob)%nat ->
    Z.of_nat (length blob) < 2 ^ 53 -> sql_u64 (uploaded_bytes (us_files st !! path))
    = Some (uploaded_bytes (us_files st !! path))) as Hsql.
  { intros path blob Hl Hb. apply sql_u64_small.
    unfold uploaded_bytes, stored in *. destruct (us_files st !! path); simpl in *; lia. }
  unfold prepare_upload. cbn [prepare_request pur_session_id pur_recording_id pur_device_info
    pur_video_size_bytes pur_sensor_size_bytes].
  rewrite (rs_db _ Hrs), H1, H2, H3, Hrow, Hdel, Hdate, <-Hvp, <-Hsp, H7. cbn [negb].
  rewrite !file_checksums_full by done. unfold upsert_recording.
  cbn [prepare_request pur_video_size_bytes pur_sensor_size_bytes].
  rewrite (Hsql vp video), (Hsql sp sensor) by (done || apply Hrs).
  rewrite (sql_u64_small (po_now_ms po)), (sql_u64_small (Z.of_nat (length video))),
    (sql_u64_small (Z.of_nat (length sensor))) by lia.
  unfold mbind, option_bind. do 2 eexists. split; [reflexivity|]. done.
Qed.

Definition finalize_request : FinalizeUploadRequest :=
  mkFinalizeUploadRequest rid
    (sha256_hex (bytes_of_string
       (join String.EmptyString (calculateAllChunkChecksums sha256_hex video))))
    (sha256_hex (bytes_of_string
       (join String.EmptyString (calculateAllChunkChecksums sha256_hex sensor)))).

Lemma finalize_keeps fo st r st' :
  resumable st -> finalize_upload sha256_hex fo finalize_request st = (r, st') -> resumable st'.
Proof.
  intros Hrs. unfold finalize_upload. cbn [fur_recording_id finalize_request]. intros Hfin.
  destruct (us_recordings st !! rid) as [row|] eqn:Hrow; repeat case_match; simplify_eq; try done;
    eapply resumable_recordings; try apply lookup_insert_eq; try done;
    destruct (rs_row _ Hrs _ Hrow) as (? & ? & ? & ?); repeat case_match; simplify_option_eq;
    by split_and!.
Qed.

Definition finalize_ok (fo : finalize_obs) : Prop :=
  full_reads (fo_video fo) /\ full_reads (fo_sensor fo)
  /\ fo_now_ms fo < 2 ^ 63 /\ fo_update fo = true.

(** The combined sum of a stored file that is the recording's. *)
Lemma combined_checksum o path blob st :
  full_reads o -> stored st path = blob -> Z.of_nat (length blob) < 2 ^ 53 ->
  exists sums, calculate_file_checksums sha256_hex o (us_files st !! path)
      (as_u 64 (Z.of_nat (length blob))) = Some sums
    /\ flatten sums = calculateAllChunkChecksums sha256_hex blob.
Proof.
  intros Ho Hst Hlen. rewrite as_u_small by (unfold is_u; lia). rewrite file_checksums_full by done.
  eexists. split; [reflexivity|]. unfold stored in Hst.
  destruct (us_files st !! path) as [data|]; simpl in Hst; subst; [|done].
  by apply checksums_of_complete.
Qed.

Lemma finalize_succeeds fo row st :
  resumable st -> us_recordings st !! rid = Some row -> finalize_ok fo ->
  stored st vp = video -> stored st sp = sensor ->
  finalize_upload sha256_hex fo finalize_request st
  = (Responded (mkFinalizeUploadResponse "complete" true true),
     set_recordings (<[rid := set_status "complete" (Some (fo_now_ms fo)) row]> (us_recordings st)) st).
Proof.
  intros Hrs Hrow (Hv & Hs & Hnow & Hup) Hvideo' Hsensor'.
  destruct (rs_row _ Hrs _ Hrow) as (Hvp & Hsp & Hvs & Hss).
  destruct (combined_checksum _ _ _ _ Hv Hvideo' Hvideo) as (vsums & Hvsums & Hvflat).
  destruct (combined_checksum _ _ _ _ Hs Hsensor' Hsensor) as (ssums & Hssums & Hsflat).
  unfold finalize_upload. cbn [finalize_request fur_recording_id fur_video_final_checksum
    fur_sensor_final_checksum].
  rewrite (rs_db _ Hrs), Hrow, Hvp, Hsp, Hvs, Hss, Hvsums, Hssums. cbn [negb].
  unfold calculate_combined_checksum. rewrite Hvflat, Hsflat, !String.eqb_refl, Hup.
  cbn [andb]. by rewrite sql_u64_small.
Qed.

(** ** Runs of [startUpload] *)

Record run := mkRun {
  run_device_info : option string;
  run_notes : option string;
  run_prepare : prepare_obs;
  run_video : nat -> list attempt;
  run_sensor : nat -> list attempt;
  run_finalize : finalize_obs }.

Definition upload_run (r : run) (st : UploadState)
    : outcome (option FinalizeUploadResponse * UploadState) :=
  startUpload sha256_hex date_dirs session_id rid video sensor (run_device_info r) (run_notes r)
    (run_prepare r) (run_video r) (run_sensor r) (run_finalize r) st.

(** Runs one after the other, each from what the one before left. *)
Fixpoint upload_runs (runs : list run) (st : UploadState) : outcome UploadState :=
  match runs with
  | [] => Ret st
  | r :: runs => x ← upload_run r st; upload_runs runs x.2
  end.

Definition no_collision (file blob : bytes) : Prop :=
  forall i, sha256_hex (chunk_of file i) = sha256_hex (chunk_of blob i) -> agree file blob i.

(** Everything the run needs goes well; of the attempts at a chunk, one of the
    three the browser makes. *)
Definition run_ok (r : run) : Prop :=
  run_device_info r <> None /\ prepare_ok (run_prepare r) /\ finalize_ok (run_finalize r)
  /\ (forall i, (i < total_chunks video)%nat -> within 3 (run_video r i) = true)
  /\ (forall i, (i < total_chunks sensor)%nat -> within 3 (run_sensor r i) = true).

Lemma file_step ft path blob existing attempts st row b st' :
  resumable st -> us_recordings st !! rid = Some row ->
  (ft, path, blob) = ("video"%string, vp, video) \/ (ft, path, blob) = ("sensor"%string, sp, sensor) ->
  uploadFile sha256_hex rid ft blob existing attempts st = Ret (b, st') ->
  resumable st' /\ exists row', us_recordings st' !! rid = Some row'.
Proof.
  intros Hrs Hrow Hft Hup.
  assert (has_row rid ft path st) as Hhas.
  { eapply resumable_has_row; [done..|]. destruct Hft as [[= -> -> ->]|[= -> -> ->]]; auto. }
  assert ((ft = "video"%string \/ ft = "sensor"%string) /\ Z.of_nat (length blob) < 2 ^ 53
    /\ (length (stored st path) <= length blob)%nat) as (Hft' & Hsize & Hlen).
  { destruct Hrs. destruct Hft as [[= -> -> ->]|[= -> -> ->]]; auto. }
  destruct (uploadFile_bounded rid ft path blob Hft' Hsize _ _ _ _ _ Hhas Hlen Hup) as [Hof Hlen'].
  eapply (resumable_only_file path); [exact Hrs|exact Hrow|exact Hof|].
  destruct Hft as [[= -> -> ->]|[= -> -> ->]]; [left|right]; exact (conj eq_refl Hlen').
Qed.

Lemma upload_run_keeps r st x st' :
  resumable st -> upload_run r st = Ret (x, st') -> resumable st'.
Proof.
  intros Hrs. unfold upload_run, startUpload. fold (prepare_request (run_device_info r) (run_notes r)).
  fold finalize_request.
  destruct (prepare_upload _ _ _ _ st) as [p st1] eqn:Hp.
  destruct (prepare_keeps _ _ _ _ _ _ Hrs Hp) as (Hrs1 & _ & Hrow1).
  destruct p as [status error|p]; [by intros [= <- <-]|].
  destruct (Hrow1 _ eq_refl) as [row1 Hr1].
  intros ([b2 st2] & H2 & Hk)%bind_Ret_inv.
  destruct (file_step _ _ _ _ _ _ _ _ _ Hrs1 Hr1 (or_introl eq_refl) H2) as (Hrs2 & row2 & Hr2).
  cbn [fst snd] in Hk. destruct b2; cbn [negb] in Hk; [|by simplify_eq].
  apply bind_Ret_inv in Hk as ([b3 st3] & H3 & Hk).
  destruct (file_step _ _ _ _ _ _ _ _ _ Hrs2 Hr2 (or_intror eq_refl) H3) as (Hrs3 & row3 & Hr3).
  cbn [fst snd] in Hk. destruct b3; cbn [negb] in Hk; [|by simplify_eq].
  destruct (finalize_upload _ _ _ st3) as [f st4] eqn:Hf.
  pose proof (finalize_keeps _ _ _ _ Hrs3 Hf). by destruct f; simplify_eq.
Qed.

Lemma upload_runs_keep runs st st' : resumable st -> upload_runs runs st = Ret st' -> resumable st'.
Proof.
  revert st. induction runs as [|r runs IH]; intros st Hrs; cbn [upload_runs]; [by intros [= <-]|].
  intros ([x st1] & H1 & Hk)%bind_Ret_inv. eapply IH; [by eapply upload_run_keeps|done].
Qed.

(** The report on a file can be trusted when sums do not collide. *)
Lemma reported_progress st path blob :
  (length (stored st path) <= length blob)%nat -> no_collision (stored st path) blob ->
  progress path blob (fun i => has_chunk sha256_hex (reported (us_files st !! path) blob) blob i = true) st.
Proof.
  intros Hlen Hcol. split; [done|]. unfold reported, stored in *. intros i Hi.
  destruct (us_files st !! path) as [data|].
  - by apply Hcol, (has_chunk_sum _ _ (total_chunks blob)).
  - change (chunk_infos []) with (@nil (option ChunkInfo)) in Hi. rewrite has_chunk_nil in Hi. discriminate.
Qed.

(** The last of the runs, from any store that can be resumed. *)
Lemma upload_run_completes r st :
  resumable st -> run_ok r ->
  no_collision (stored st vp) video -> no_collision (stored st sp) sensor ->
  exists st' row, upload_run r st = Ret (Some (mkFinalizeUploadResponse "complete" true true), st')
    /\ stored st' vp = video /\ stored st' sp = sensor
    /\ us_recordings st' !! rid = Some row /\ rec_upload_status row = "complete"%string.
Proof.
  intros Hrs (Hinfo & Hpo & Hfo & Hva & Hsa) Hvc Hsc.
  destruct r as [[info|] notes po va sa fo]; cbn in *; [|done]. unfold upload_run, startUpload.
  cbn [run_device_info run_notes run_prepare run_video run_sensor run_finalize].
  fold (prepare_request (Some info) notes). fold finalize_request.
  destruct (prepare_succeeds po info notes st Hrs Hpo) as (p & st1 & Hp & Hpv & Hps).
  rewrite Hp. destruct (prepare_keeps _ _ _ _ _ _ Hrs Hp) as (Hrs1 & Hfiles1 & Hrow1).
  destruct (Hrow1 _ eq_refl) as [row1 Hr1]. rewrite Hpv, Hps.
  assert (forall path, stored st1 path = stored st path) as Hst1 by (intros ?; unfold stored; by rewrite Hfiles1).
  rewrite <-Hst1 in Hvc, Hsc. rewrite <-Hfiles1.
  pose proof (reported_progress st1 vp video (rs_video _ Hrs1) Hvc) as Hpr.
  destruct (uploadFile_complete rid "video" vp video (or_introl eq_refl) Hvideo _ va st1
    (resumable_has_row _ _ _ _ Hrs1 Hr1 (or_introl eq_refl)) Hpr Hva) as (st2 & Hup2 & Hof2 & Hst2).
  rewrite Hup2, bind_Ret. cbn [fst snd negb].
  destruct (file_step _ _ _ _ _ _ _ _ _ Hrs1 Hr1 (or_introl eq_refl) Hup2) as (Hrs2 & row2 & Hr2).
  pose proof (paths_differ _ (rs_paths _ Hrs)) as Hne.
  assert (us_files st1 !! sp = us_files st2 !! sp) as Hsp
    by (symmetry; apply (of_files _ _ _ _ Hof2); congruence).
  unfold stored in Hsc. rewrite Hsp in Hsc |- *. fold (stored st2 sp) in Hsc.
  pose proof (reported_progress st2 sp sensor (rs_sensor _ Hrs2) Hsc) as Hps2.
  destruct (uploadFile_complete rid "sensor" sp sensor (or_intror eq_refl) Hsensor _ sa st2
    (resumable_has_row _ _ _ _ Hrs2 Hr2 (or_intror eq_refl)) Hps2 Hsa) as (st3 & Hup3 & Hof3 & Hst3).
  rewrite Hup3, bind_Ret. cbn [fst snd negb].
  destruct (file_step _ _ _ _ _ _ _ _ _ Hrs2 Hr2 (or_intror eq_refl) Hup3) as (Hrs3 & row3 & Hr3).
  assert (stored st3 vp = video) as Hst3v
    by (unfold stored in *; by rewrite (of_files _ _ _ _ Hof3)).
  rewrite (finalize_succeeds fo row3 st3 Hrs3 Hr3 Hfo Hst3v Hst3).
  do 2 eexists. split; [reflexivity|]. split; [exact Hst3v|]. split; [exact Hst3|].
  split; [apply lookup_insert_eq|reflexivity].
Qed.
End recording.

(** Every sum of a full list is there. *)
Lemma flatten_full n (sums : list (option string)) (ws : list string) :
  length sums = n -> length ws = n -> flatten sums = ws -> sums = map Some ws.
Proof.
  revert sums ws. induction n as [|n IH]; intros [|s sums] [|w ws]; try done; cbn [length].
  intros [= Hs] [= Hw]. assert (length (flatten sums) <= length sums)%nat.
  { clear. induction sums as [|[x|] sums IH]; simpl; lia. }
  destruct s as [s|]; unfold flatten in *; cbn.
  - intros [= -> Heq]. f_equal. by apply IH.
  - intros Heq. rewrite Heq in *. cbn [length] in *. lia.
Qed.

Lemma verified_file_agrees o file blob :
  full_reads o -> Z.of_nat (length blob) < 2 ^ 53 ->
  (forall data, String.length (sha256_hex data) = 64%nat) ->
  (forall i, sha256_hex (chunk_of file i) = sha256_hex (chunk_of blob i) -> agree file blob i) ->
  join String.EmptyString (flatten (map (sum_of file) (seq 0 (total_chunks blob))))
  = join String.EmptyString (calculateAllChunkChecksums sha256_hex blob) ->
  forall i, (i < total_chunks blob)%nat -> agree file blob i.
Proof.
  intros Ho Hlen H64 Hcol Heq i Hi. apply Hcol.
  apply (join_empty_inj 64) in Heq; [|lia|..].
  - unfold calculateAllChunkChecksums in Heq.
    apply (flatten_full (total_chunks blob)) in Heq; [|by rewrite length_map, length_seq..].
    apply (f_equal (.!! i)) in Heq. rewrite map_map in Heq.
    rewrite !list_lookup_fmap, !(lookup_seq_lt 0 _ i) in Heq by exact Hi. cbn in Heq.
    unfold sum_of in Heq. case_decide; [|discriminate]. apply (inj Some), (inj Some), Heq.
  - unfold flatten. generalize (seq 0 (total_chunks blob)) as l.
    induction l as [|j l IH]; [constructor|]. cbn [map]. unfold sum_of at 1.
    case_decide; cbn; [constructor; [apply H64|exact IH]|exact IH].
  - unfold calculateAllChunkChecksums. generalize (seq 0 (total_chunks blob)) as l.
    intros l. induction l; constructor; auto.
Qed.

Lemma agree_prefix file blob :
  Z.of_nat (length blob) < 2 ^ 53 -> (forall i, (i < total_chunks blob)%nat -> agree file blob i) ->
  take (length blob) file = blob
  /\ ((length blob mod chunk_len)%nat <> 0%nat -> file = blob).
Proof.
  intros Hlen Hall. pose proof chunk_len_pos as Hpos.
  destruct (num_chunks_spec _ Hlen) as [Hn _]. fold (total_chunks blob) in Hn.
  assert (forall k, (k < total_chunks blob * chunk_len)%nat -> file !! k = blob !! k) as Hk.
  { intros k Hk. assert (k / chunk_len < total_chunks blob)%nat as Hlt
      by (apply Nat.Div0.div_lt_upper_bound; lia).
    apply (proj1 (agree_lookup file blob (k / chunk_len)) (Hall _ Hlt)).
    pose proof (Nat.div_mod_eq k chunk_len). pose proof (Nat.mod_upper_bound k chunk_len). lia. }
  assert (length blob < total_chunks blob * chunk_len -> (length file <= length blob))%nat as Hshort.
  { intros Hlt. apply lookup_ge_None. rewrite (Hk _ Hlt). by apply lookup_ge_None. }
  split.
  - apply list_eq. intros k. destruct (decide (k < length blob)%nat).
    + rewrite lookup_take_lt by lia. apply Hk. lia.
    + rewrite lookup_take_ge, lookup_ge_None_2 by lia. done.
  - intros Hmod. assert (length blob < total_chunks blob * chunk_len)%nat as Hlt.
    { assert (length blob <> total_chunks blob * chunk_len)%nat; [|lia].
      intros Heq. rewrite Heq, Nat.Div0.mod_mul in Hmod. done. }
    apply (agree_all _ _ (total_chunks blob)); [|done]. specialize (Hshort Hlt). lia.
Qed.

(** The texts that are hashed for the final check do not collide. *)
Definition no_final_collision (file blob : bytes) : Prop :=
  let text := join String.EmptyString (flatten (map (sum_of file) (seq 0 (total_chunks blob)))) in
  let expected := join String.EmptyString (calculateAllChunkChecksums sha256_hex blob) in
  sha256_hex (bytes_of_string text) = sha256_hex (bytes_of_string expected) -> text = expected.

Lemma verified_sound o path blob st sums :
  full_reads o -> Z.of_nat (length blob) < 2 ^ 53 ->
  (forall data, String.length (sha256_hex data) = 64%nat) ->
  no_collision (stored st path) blob -> no_final_collision (stored st path) blob ->
  calculate_file_checksums sha256_hex o (us_files st !! path) (as_u 64 (Z.of_nat (length blob)))
  = Some sums ->
  (calculate_combined_checksum sha256_hex (flatten sums)
   =? sha256_hex (bytes_of_string (join String.EmptyString
        (calculateAllChunkChecksums sha256_hex blob))))%string = true ->
  take (length blob) (stored st path) = blob
  /\ ((length blob mod chunk_len)%nat <> 0%nat -> stored st path = blob).
Proof.
  intros Ho Hlen H64 Hcol Hfin Hsums Heq%String.eqb_eq.
  rewrite as_u_small in Hsums by (unfold is_u; lia). rewrite file_checksums_full in Hsums by exact Ho.
  apply (inj Some) in Hsums. subst sums. apply agree_prefix; [exact Hlen|].
  apply (verified_file_agrees o); try assumption. unfold stored in *.
  destruct (us_files st !! path) as [data|]; [exact (Hfin Heq)|].
  apply Hfin. unfold calculate_combined_checksum in Heq. cbn in Heq |- *.
  rewrite <-Heq. do 3 f_equal. clear.
  generalize (seq 0 (total_chunks blob)) as l. intros l.
  induction l as [|i l IH]; [reflexivity|]. exact IH.
Qed.
End transfer.


(** A recording marked complete is the recording.  If [finalize_upload]
    answers "complete" to the sums of the two files, each stored file begins with
    the browser's file; and it is equal to it unless the size is a multiple of the
    chunk size, beyond which the server does not read. *)
Theorem finalize_complete_sound sha256_hex rid video sensor fo row st f st' :
  Z.of_nat (length video) < 2 ^ 53 -> Z.of_nat (length sensor) < 2 ^ 53 ->
  (forall data, String.length (sha256_hex data) = 64%nat) ->
  us_recordings st !! rid = Some row ->
  rec_video_size_bytes row = Z.of_nat (length video) ->
  rec_sensor_size_bytes row = Z.of_nat (length sensor) ->
  full_reads (fo_video fo) -> full_reads (fo_sensor fo) ->
  no_collision sha256_hex (stored st (rec_video_path row)) video ->
  no_final_collision sha256_hex (stored st (rec_video_path row)) video ->
  no_collision sha256_hex (stored st (rec_sensor_path row)) sensor ->
  no_final_collision sha256_hex (stored st (rec_sensor_path row)) sensor ->
  finalize_upload sha256_hex fo (finalize_request sha256_hex rid video sensor) st
    = (Responded f, st') ->
  fr_status f = "complete"%string ->
  (take (length video) (stored st (rec_video_path row)) = video
   /\ ((length video mod chunk_len)%nat <> 0%nat -> stored st (rec_video_path row) = video))
  /\ (take (length sensor) (stored st (rec_sensor_path row)) = sensor
   /\ ((length sensor mod chunk_len)%nat <> 0%nat -> stored st (rec_sensor_path row) = sensor)).
Proof.
  intros Hv Hs H64 Hrow Hvs Hss Hfv Hfs Hvc Hvfc Hsc Hsfc. unfold finalize_upload.
  cbn [finalize_request fur_recording_id fur_video_final_checksum fur_sensor_final_checksum].
  destruct (us_db st); cbn [negb]; [|discriminate]. rewrite Hrow, Hvs, Hss.
  destruct (calculate_file_checksums _ (fo_video fo) _ _) as [vsums|] eqn:Hvsums; [|discriminate].
  destruct (calculate_file_checksums _ (fo_sensor fo) _ _) as [ssums|] eqn:Hssums; [|discriminate].
  destruct (_ =? _)%string eqn:Hveq; cbn [andb].
  2: { destruct (fo_update fo); [|discriminate]. intros [= <- <-]. discriminate. }
  destruct (calculate_combined_checksum sha256_hex (flatten ssums) =? _)%string eqn:Hseq.
  2: { destruct (fo_update fo); [|discriminate]. intros [= <- <-]. discriminate. }
  intros _ _. split; [apply (verified_sound sha256_hex (fo_video fo) _ _ _ vsums)
                     |apply (verified_sound sha256_hex (fo_sensor fo) _ _ _ ssums)]; assumption.
Qed.

Lemma path_join_absolute base p : starts_with "/" p = true -> path_join base p = p.
Proof. intros H. unfold path_join. by rewrite H. Qed.

Lemma starts_with_app p s t : starts_with p s = true -> starts_with p (s +:+ t) = true.
Proof.
  unfold starts_with. revert s. induction p as [|a p IH]; intros s.
  - intros _. by destruct (s +:+ t).
  - destruct s as [|b s]; [done|].
    change ((if ascii_dec a b then String.prefix p s else false) = true ->
      (if ascii_dec a b then String.prefix p (s +:+ t) else false) = true).
    destruct (ascii_dec a b); [apply IH|done].
Qed.

(** The recording id of an upload is not confined to the storage directory:
    an id that is an absolute path replaces the file of that name with ".webm"
    added, wherever the storage is, when the process may write there. *)
Theorem absolute_recording_id_escapes sha256_hex date_dirs session_id rid video sensor r st row date :
  Z.of_nat (length video) < 2 ^ 53 -> Z.of_nat (length sensor) < 2 ^ 53 ->
  us_db st = true -> us_sessions st !! session_id = Some row -> ss_deleted row = false ->
  date_dirs (ss_start_time row) = Some date ->
  starts_with "/" rid = true -> us_recordings st !! rid = None ->
  (length (stored st (rid +:+ ".webm")) <= length video)%nat ->
  (length (stored st (rid +:+ ".json")) <= length sensor)%nat ->
  no_collision sha256_hex (stored st (rid +:+ ".webm")) video ->
  no_collision sha256_hex (stored st (rid +:+ ".json")) sensor ->
  run_ok video sensor r ->
  exists f st', upload_run sha256_hex date_dirs session_id rid video sensor r st = Ret (Some f, st')
    /\ stored st' (rid +:+ ".webm") = video /\ stored st' (rid +:+ ".json") = sensor.
Proof.
  intros Hv Hs Hdb Hrow Hdel Hdate Habs Hnone Hvl Hsl Hvc Hsc Hok.
  assert (resumable date_dirs session_id rid video sensor (rid +:+ ".webm") (rid +:+ ".json") st) as Hrs.
  { split; [done| |done|done|by rewrite Hnone]. unfold recording_paths. rewrite Hrow. simpl.
    rewrite Hdel, Hdate. simpl. by rewrite !path_join_absolute by by apply starts_with_app. }
  destruct (upload_run_completes sha256_hex _ _ _ _ _ _ _ Hv Hs r st Hrs Hok Hvc Hsc)
    as (st' & row' & H1 & H2 & H3 & _).
  exists (mkFinalizeUploadResponse "complete" true true), st'. done.
Qed.

(** ** A recording of two small files *)

Definition demo_sum (data : bytes) : string := pretty (Npos (encode data)).
Definition demo_dates (_ : Z) : option (string * string * string) :=
  Some ("2024"%string, "01"%string, "31"%string).
Definition demo_reads : read_obs := mkReadObs true (fun _ => Some chunk_len).
Definition demo_prepare : prepare_obs := mkPrepareObs true true true demo_reads demo_reads 5 true.
Definition demo_finalize : finalize_obs := mkFinalizeObs demo_reads demo_reads 9 true.
Definition demo_chunk (written : option nat) : chunk_obs := mkChunkObs true true written true true.
(** The first run writes two bytes of the video and gives up; in the second one
    an answer is lost before the chunk gets through. *)
Definition demo_run1 : run :=
  mkRun (Some "{}"%string) None demo_prepare
    (fun _ => [Answered (demo_chunk (Some 2%nat)); RequestLost; RequestLost]) (fun _ => [])
    demo_finalize.
Definition demo_run2 : run :=
  mkRun (Some "{}"%string) None demo_prepare
    (fun _ => [ResponseLost (demo_chunk None); Answered (demo_chunk None)])
    (fun _ => [Answered (demo_chunk None)]) demo_finalize.
Definition demo_store : UploadState :=
  mkUploadState true "/data" {["s1"%string := mkSurveySessionRow "KEY" 0 false]} ∅ ∅.

Lemma demo_no_collision file blob : no_collision demo_sum file blob.
Proof.
  intros i Heq. unfold demo_sum in Heq. apply (inj pretty), (inj Npos), (inj encode) in Heq. exact Heq.
Qed.

Lemma demo_full_reads : full_reads demo_reads.
Proof. split; [reflexivity|]. intros i. exists chunk_len. split; [reflexivity|apply Nat.le_refl]. Qed.

Lemma demo_run_ok video sensor : run_ok video sensor demo_run2.
Proof.
  split; [discriminate|]. split; [|split; [|split; intros; reflexivity]].
  - split_and!; try reflexivity; apply demo_full_reads.
  - split_and!; try reflexivity; apply demo_full_reads.
Qed.


Definition demo_row : RecordingRow :=
  mkRecordingRow "s1" "/data/v" "/data/s" 3 1 3 1 "{}" None 0 "uploading" None.
Definition demo_stored : UploadState :=
  mkUploadState true "/data" ∅ {["r1"%string := demo_row]}
    (<["/data/v"%string := [1; 2; 3]]> {["/data/s"%string := [4]]}).
(** A sum of the right length; it tells nothing apart. *)
Definition demo_digest (_ : bytes) : string :=
  "0123456789abcdef0123456789abcdef0123456789abcdef0123456789abcdef".

