(* ===== verification/TrackingChannel.v ===== *)
(** * UDP checksums and the tracking entry points (server/src/tracking_channel.rs)

    The vendored WebRTC stack reports every probe it sends through two C entry
    points.  They recompute the UDP checksum of the datagram, the key under
    which the tracker will recognise the packet quoted in an ICMP error, and
    hand the packet to the callback registered at start-up. *)

From stdpp Require Import base list strings.
From Stdlib Require Import ZArith Lia.
From S2P Require Import Prelude Utf8 Net Wire Protocol.
Local Open Scope Z_scope.

(** ** Checksums *)

(** The 16-bit words of [data.chunks(2)]; a missing second byte reads as 0. *)
Fixpoint words (l : bytes) : list Z :=
  match l with
  | [] => []
  | [a] => [from_be_bytes [a; 0]]
  | a :: b :: l => from_be_bytes [a; b] :: words l
  end.

Definition pad_even (data : bytes) : bytes :=
  if (length data mod 2 =? 0)%nat then data else data ++ [0].

(** [while (sum >> 16) != 0 { sum = (sum & 0xFFFF) + (sum >> 16); }]: two
    iterations reduce any 32-bit sum. *)
Definition fold_carries (sum : Z) : outcome Z :=
  while 2 (fun s => negb (Z.shiftr s 16 =? 0))
    (fun s => checked_u 32 (Z.land s 65535 + Z.shiftr s 16)) sum.

(** The common tail of both routines, from the padding on. *)
Definition checksum_of (data : bytes) : outcome Z :=
  let data := pad_even data in
  let sum := foldl (fun sum word => as_u 32 (sum + word)) 0 (words data) in
  sum ← fold_carries sum;
  let checksum := as_u 16 (Z.lnot (as_u 16 sum)) in
  Ret (if checksum =? 0 then 65535 else checksum).

Definition calculate_udp_checksum_v4 (src_ip dest_ip : bytes) (src_port dest_port : Z)
    (payload : bytes) : outcome Z :=
  let udp_length := as_u 16 (8 + Z.of_nat (length payload)) in
  checksum_of (src_ip ++ dest_ip ++ [0] ++ [17] ++ to_be_bytes 2 udp_length
    ++ to_be_bytes 2 src_port ++ to_be_bytes 2 dest_port ++ to_be_bytes 2 udp_length
    ++ [0; 0] ++ payload).

Definition calculate_udp_checksum_v6 (src_ip dest_ip : bytes) (src_port dest_port : Z)
    (payload : bytes) : outcome Z :=
  let udp_length := as_u 32 (8 + Z.of_nat (length payload)) in
  checksum_of (src_ip ++ dest_ip ++ to_be_bytes 4 udp_length ++ [0; 0; 0] ++ [17]
    ++ to_be_bytes 2 src_port ++ to_be_bytes 2 dest_port
    ++ to_be_bytes 2 (as_u 16 udp_length) ++ [0; 0] ++ payload).

(** ** The callback and the C entry points

    What the callback does is up to the program that registers it, so the entry
    points are parametric in the world [W] it acts on.  A pointer and its
    length are the buffer they denote, [None] for the null pointer. *)

Record TrackingArgs := mkTrackingArgs {
  ta_dest_addr : SocketAddr;
  ta_src_addr : option SocketAddr;
  ta_udp_length : Z;
  ta_ttl : option Z;
  ta_cleartext : bytes;
  ta_sent_at : Instant;
  ta_conn_id : string;
  ta_udp_checksum : Z }.

Section callback.
  Context {W : Type}.

Definition TrackingCallback : Type := TrackingArgs -> W -> W.

(** The [OnceLock]: set once, a second initialisation panics. *)
Definition init_tracking_callback (cell : option TrackingCallback) (callback : TrackingCallback)
    : outcome (option TrackingCallback) :=
  match cell with
  | None => Ret (Some callback)
  | Some _ => Panic ExplicitPanic
  end.

Definition track_udp_packet (cell : option TrackingCallback) (args : TrackingArgs) (w : W) : W :=
  match cell with
  | Some callback => callback args w
  | None => w
  end.

(** The connection id of the C interface: null or empty is the empty string,
    anything else is decoded lossily. *)
Definition conn_id_of (conn_id_ptr : option bytes) : string :=
  match conn_id_ptr with
  | None | Some [] => String.EmptyString
  | Some b => from_utf8_lossy b
  end.

Definition netpoke_track_udp_packet (cell : option TrackingCallback)
    (src_ip_v4 src_port dest_ip_v4 dest_port udp_length ttl : Z)
    (buf conn_id_ptr : option bytes) (now : Instant) (w : W) : outcome W :=
  match buf with
  | None | Some [] => Ret w
  | Some cleartext =>
      let conn_id := conn_id_of conn_id_ptr in
      let src_ip := to_be_bytes 4 src_ip_v4 in
      let dest_ip := to_be_bytes 4 dest_ip_v4 in
      let dest_addr := mkSocketAddr (V4 dest_ip) dest_port in
      let src_addr := Some (mkSocketAddr (V4 src_ip) src_port) in
      udp_checksum ← calculate_udp_checksum_v4 src_ip dest_ip src_port dest_port cleartext;
      Ret (track_udp_packet cell
             (mkTrackingArgs dest_addr src_addr udp_length (Some ttl) cleartext now
                conn_id udp_checksum) w)
  end.

Definition netpoke_track_udp_packet_v6 (cell : option TrackingCallback)
    (src_ip_v6_ptr : option bytes) (src_port : Z) (dest_ip_v6_ptr : option bytes)
    (dest_port udp_length hop_limit : Z)
    (buf conn_id_ptr : option bytes) (now : Instant) (w : W) : outcome W :=
  match src_ip_v6_ptr, dest_ip_v6_ptr, buf with
  | Some src_ip, Some dest_ip, Some (b0 :: rest) =>
      let cleartext := b0 :: rest in
      let conn_id := conn_id_of conn_id_ptr in
      let dest_addr := mkSocketAddr (V6 dest_ip) dest_port in
      let src_addr := Some (mkSocketAddr (V6 src_ip) src_port) in
      udp_checksum ← calculate_udp_checksum_v6 src_ip dest_ip src_port dest_port cleartext;
      Ret (track_udp_packet cell
             (mkTrackingArgs dest_addr src_addr udp_length (Some hop_limit) cleartext now
                conn_id udp_checksum) w)
  | _, _, _ => Ret w
  end.

End callback.
Arguments TrackingCallback : clear implicits.

(** ** The internet checksum, as RFC 768 and RFC 8200 state it

    A receiver adds the words of pseudo-header and datagram, checksum field
    included; the one's complement sum is all ones, that is a multiple of
    65535. *)

Definition ones_sum (l : bytes) : Z := foldr Z.add 0 (words l).

Definition pseudo_header_v4 (src_ip dest_ip : bytes) (len : Z) : bytes :=
  src_ip ++ dest_ip ++ [0; 17] ++ to_be_bytes 2 len.

Definition pseudo_header_v6 (src_ip dest_ip : bytes) (len : Z) : bytes :=
  src_ip ++ dest_ip ++ to_be_bytes 4 len ++ [0; 0; 0; 17].

(** ** Lemmas *)

Lemma words_app l k : Nat.even (length l) = true -> words (l ++ k) = words l ++ words k.
Proof.
  induction l as [l IH] using (induction_ltof1 _ (@length Z)). unfold ltof in IH.
  destruct l as [|a [|b l]]; simpl; intros Hev; [done|done|].
  rewrite IH; [done|simpl; lia|done].
Qed.

Lemma words_pad_even l : words (pad_even l) = words l.
Proof.
  unfold pad_even. case_match; [done|].
  induction l as [l IH] using (induction_ltof1 _ (@length Z)). unfold ltof in IH.
  destruct l as [|a [|b l]]; simpl; [done|done|]. f_equal. apply IH; [simpl; lia|].
  simpl length in *. rewrite Nat.eqb_neq in *.
  replace (S (S (length l))) with (length l + 1 * 2)%nat in * by lia.
  by rewrite Nat.Div0.mod_add in *.
Qed.

Lemma words_is_u l : is_bytes l -> Forall (is_u 16) (words l).
Proof.
  induction l as [l IH] using (induction_ltof1 _ (@length Z)). unfold ltof in IH.
  destruct l as [|a [|b l]]; intros Hl; simpl; [constructor| |].
  - constructor; [|constructor]. apply (from_be_bytes_range [a; 0]).
    constructor; [by inversion Hl|]. by repeat constructor.
  - inversion Hl as [|? ? Ha Hl']; subst. inversion Hl' as [|? ? Hb Hl'']; subst.
    constructor; [|apply IH; [simpl; lia|done]].
    apply (from_be_bytes_range [a; b]). constructor 2; [done|]. constructor 2; [done|]. constructor.
Qed.

Lemma length_words l : (length (words l) <= length l)%nat /\ (2 * length (words l) <= length l + 1)%nat.
Proof.
  induction l as [l IH] using (induction_ltof1 _ (@length Z)). unfold ltof in IH.
  destruct l as [|a [|b l]]; simpl; [lia|lia|].
  specialize (IH l ltac:(simpl; lia)). lia.
Qed.

Lemma ones_sum_app l k :
  Nat.even (length l) = true -> ones_sum (l ++ k) = ones_sum l + ones_sum k.
Proof.
  intros Hl. unfold ones_sum. rewrite words_app by done.
  induction (words l) as [|w ws IH]; simpl; [done|]. rewrite IH. lia.
Qed.

Lemma ones_sum_range l : is_bytes l ->
  0 <= ones_sum l <= 65535 * Z.of_nat (length (words l)).
Proof.
  intros Hl%words_is_u. unfold ones_sum.
  induction Hl as [|w ws Hw Hws IH]; simpl foldr; simpl length; [lia|].
  unfold is_u in Hw. change (2 ^ 16) with 65536 in Hw. lia.
Qed.

Lemma ones_sum_u16 z : is_u 16 z -> ones_sum (to_be_bytes 2 z) = z.
Proof.
  intros Hz. pose proof (from_to_be_bytes 2 z) as H.
  rewrite Z.mod_small in H by (unfold is_u in Hz; exact Hz).
  unfold ones_sum. change (words (to_be_bytes 2 z)) with [from_be_bytes (to_be_bytes 2 z)].
  rewrite H. simpl. lia.
Qed.

Lemma wrapping_sum_eq ws s : foldl (fun sum word => as_u 32 (sum + word)) (as_u 32 s) ws
  = as_u 32 (s + foldr Z.add 0 ws).
Proof.
  revert s. induction ws as [|w ws IH]; intros s; simpl; [by rewrite Z.add_0_r|].
  unfold as_u in *. rewrite Zplus_mod_idemp_l, IH. f_equal. lia.
Qed.

Lemma fold_step s : 0 <= s ->
  Z.land s 65535 + Z.shiftr s 16 = s mod 65536 + s / 65536.
Proof.
  intros Hs. change 65535 with (Z.ones 16). rewrite Z.land_ones by lia.
  by rewrite Z.shiftr_div_pow2 by lia.
Qed.

Lemma fold_step_congr s : (s mod 65536 + s / 65536) mod 65535 = s mod 65535.
Proof.
  rewrite (Z.div_mod s 65536) at 3 by lia.
  replace (65536 * (s / 65536) + s mod 65536)
    with (s mod 65536 + s / 65536 + (s / 65536) * 65535) by lia.
  by rewrite Z.mod_add by lia.
Qed.

(** The folding loop terminates on every 32-bit sum and keeps it modulo 65535. *)
Lemma fold_carries_spec s : is_u 32 s ->
  exists r, fold_carries s = Ret r /\ is_u 16 r /\ r mod 65535 = s mod 65535.
Proof.
  unfold is_u, fold_carries. intros Hs.
  assert (forall s, 0 <= s < 2 ^ 32 ->
    checked_u 32 (Z.land s 65535 + Z.shiftr s 16) = Ret (s mod 65536 + s / 65536)) as Hstep.
  { intros t Ht. rewrite fold_step by lia. apply checked_u_Ret. unfold is_u.
    Z.to_euclidean_division_equations. lia. }
  set (s1 := s mod 65536 + s / 65536). set (s2 := s1 mod 65536 + s1 / 65536).
  assert (0 <= s1 <= 131070 /\ 0 <= s2 <= 65535) as [Hs1 Hs2]
    by (subst s1 s2; Z.to_euclidean_division_equations; lia).
  assert (s1 mod 65535 = s mod 65535) as C1 by apply fold_step_congr.
  assert (s2 mod 65535 = s1 mod 65535) as C2 by apply fold_step_congr.
  assert (forall t, 0 <= t -> Z.shiftr t 16 = 0 -> t < 65536) as Hdone.
  { intros t Ht. rewrite Z.shiftr_div_pow2 by lia. change (2 ^ 16) with 65536.
    Z.to_euclidean_division_equations. lia. }
  change (2 ^ 16) with 65536. change (2 ^ 32) with 4294967296 in *.
  cbn [while]. case_match eqn:E0; [|exists s; apply negb_false_iff, Z.eqb_eq in E0;
    specialize (Hdone s); repeat split; lia].
  rewrite Hstep by lia. cbn [mbind outcome_bind]. fold s1.
  case_match eqn:E1; [|exists s1; apply negb_false_iff, Z.eqb_eq in E1;
    specialize (Hdone s1); repeat split; lia].
  rewrite Hstep by lia. cbn [mbind outcome_bind]. fold s2.
  rewrite Z.shiftr_div_pow2 by lia. change (2 ^ 16) with 65536.
  rewrite (Z.div_small s2) by lia. exists s2. repeat split; lia.
Qed.

(** The checksum of data that fits in 32 bits of sum completes it to a multiple
    of 65535, and is never zero. *)
Lemma checksum_of_spec data :
  is_bytes data -> Z.of_nat (length data) <= 131072 ->
  exists c, checksum_of data = Ret c /\ 1 <= c <= 65535 /\ (ones_sum data + c) mod 65535 = 0.
Proof.
  intros Hdata Hlen. unfold checksum_of. rewrite words_pad_even.
  rewrite (wrapping_sum_eq _ 0), Z.add_0_l. fold (ones_sum data).
  pose proof (ones_sum_range data Hdata). pose proof (length_words data).
  rewrite (as_u_small 32) by (unfold is_u; change (2 ^ 32) with 4294967296; lia).
  destruct (fold_carries_spec (ones_sum data)) as (r & -> & Hr & Hmod).
  { unfold is_u; change (2 ^ 32) with 4294967296; lia. }
  cbn [mbind outcome_bind]. rewrite (as_u_small 16 r) by done.
  unfold is_u in Hr. change (2 ^ 16) with 65536 in Hr.
  assert (as_u 16 (Z.lnot r) = 65535 - r) as ->.
  { unfold as_u, Z.lnot. change (2 ^ 16) with 65536.
    replace (Z.pred (- r)) with (65535 - r + (-1) * 65536) by lia.
    rewrite Z.mod_add by lia. apply Z.mod_small. lia. }
  eexists. split; [reflexivity|].
  rewrite Zplus_mod, <- Hmod, <- Zplus_mod. clear Hmod.
  destruct (Z.eqb_spec (65535 - r) 0) as [E|E].
  - replace r with 65535 by lia. done.
  - split; [lia|]. replace (r + (65535 - r)) with 65535 by lia. done.
Qed.

(** Splitting the sum at the zeroed checksum field. *)
Lemma ones_sum_field pre c payload :
  Nat.even (length pre) = true -> is_u 16 c ->
  ones_sum (pre ++ to_be_bytes 2 c ++ payload) = ones_sum (pre ++ [0; 0] ++ payload) + c.
Proof.
  intros Hpre Hc. rewrite !(ones_sum_app pre) by done.
  rewrite (ones_sum_app (to_be_bytes 2 c)) by (by rewrite length_to_be_bytes).
  rewrite (ones_sum_app [0; 0]) by done. rewrite ones_sum_u16 by done.
  change (ones_sum [0; 0]) with 0. lia.
Qed.

(** A verifying non-zero checksum is unique. *)
Lemma checksum_unique s c c' :
  1 <= c <= 65535 -> 1 <= c' <= 65535 ->
  (s + c) mod 65535 = 0 -> (s + c') mod 65535 = 0 -> c = c'.
Proof. intros Hc Hc' H H'. Z.to_euclidean_division_equations. nia. Qed.

(** The checksum of a datagram whose field is zeroed is the one non-zero value
    that makes it verify once it is put into the field. *)
Lemma checksum_of_field pre payload :
  Nat.even (length pre) = true -> is_bytes pre -> is_bytes payload ->
  Z.of_nat (length pre) + Z.of_nat (length payload) <= 131070 ->
  no_panic (checksum_of (pre ++ [0; 0] ++ payload)) /\
  forall c, checksum_of (pre ++ [0; 0] ++ payload) = Ret c
    <-> 1 <= c <= 65535 /\ ones_sum (pre ++ to_be_bytes 2 c ++ payload) mod 65535 = 0.
Proof.
  intros Hev Hpre Hp Hlen.
  destruct (checksum_of_spec (pre ++ [0; 0] ++ payload)) as (c & Hc & Hrange & Hsum).
  { rewrite !is_bytes_app. repeat split; [done| |done]. by repeat constructor. }
  { rewrite !length_app. simpl length. lia. }
  rewrite Hc. split; [apply no_panic_Ret|]. intros c'. split.
  - intros [= <-]. split; [done|]. rewrite ones_sum_field; [done|done|].
    unfold is_u. change (2 ^ 16) with 65536. lia.
  - intros [Hc' Hsum']. f_equal. rewrite ones_sum_field in Hsum'; [|done|].
    + by eapply checksum_unique.
    + unfold is_u. change (2 ^ 16) with 65536. lia.
Qed.

Lemma udp_checksum_v4_unique src_ip dest_ip src_port dest_port payload :
  ip_wf (V4 src_ip) -> ip_wf (V4 dest_ip) ->
  is_bytes payload -> Z.of_nat (length payload) <= 65527 ->
  let len := 8 + Z.of_nat (length payload) in
  no_panic (calculate_udp_checksum_v4 src_ip dest_ip src_port dest_port payload) /\
  forall c, calculate_udp_checksum_v4 src_ip dest_ip src_port dest_port payload = Ret c
    <-> 1 <= c <= 65535
        /\ ones_sum (pseudo_header_v4 src_ip dest_ip len ++ udp_header src_port dest_port len c
                     ++ payload) mod 65535 = 0.
Proof.
  intros [Hs Bs] [Hd Bd] Hp Hlen len. unfold calculate_udp_checksum_v4. fold len.
  rewrite (as_u_small 16 len) by (unfold is_u; change (2 ^ 16) with 65536; lia).
  set (pre := pseudo_header_v4 src_ip dest_ip len ++ to_be_bytes 2 src_port
    ++ to_be_bytes 2 dest_port ++ to_be_bytes 2 len).
  assert (forall c, pseudo_header_v4 src_ip dest_ip len ++ udp_header src_port dest_port len c
      ++ payload = pre ++ to_be_bytes 2 c ++ payload) as E.
  { intros c. unfold pre, udp_header. by rewrite <- !(assoc_L (++)). }
  replace (src_ip ++ dest_ip ++ [0] ++ [17] ++ to_be_bytes 2 len ++ _)
    with (pre ++ [0; 0] ++ payload)
    by (unfold pre, pseudo_header_v4; by rewrite <- !(assoc_L (++))).
  setoid_rewrite E. apply checksum_of_field; [| |done|].
  - unfold pre, pseudo_header_v4. by rewrite !length_app, Hs, Hd.
  - unfold pre, pseudo_header_v4. rewrite !is_bytes_app.
    repeat split; auto with netpoke; by repeat constructor.
  - unfold pre, pseudo_header_v4. rewrite !length_app, !length_to_be_bytes, Hs, Hd. simpl. lia.
Qed.

Lemma udp_checksum_v6_unique src_ip dest_ip src_port dest_port payload :
  ip_wf (V6 src_ip) -> ip_wf (V6 dest_ip) ->
  is_bytes payload -> Z.of_nat (length payload) <= 65527 ->
  let len := 8 + Z.of_nat (length payload) in
  no_panic (calculate_udp_checksum_v6 src_ip dest_ip src_port dest_port payload) /\
  forall c, calculate_udp_checksum_v6 src_ip dest_ip src_port dest_port payload = Ret c
    <-> 1 <= c <= 65535
        /\ ones_sum (pseudo_header_v6 src_ip dest_ip len ++ udp_header src_port dest_port len c
                     ++ payload) mod 65535 = 0.
Proof.
  intros [Hs Bs] [Hd Bd] Hp Hlen len. unfold calculate_udp_checksum_v6. fold len.
  rewrite (as_u_small 32 len) by (unfold is_u; change (2 ^ 32) with 4294967296; lia).
  rewrite (as_u_small 16 len) by (unfold is_u; change (2 ^ 16) with 65536; lia).
  set (pre := pseudo_header_v6 src_ip dest_ip len ++ to_be_bytes 2 src_port
    ++ to_be_bytes 2 dest_port ++ to_be_bytes 2 len).
  assert (forall c, pseudo_header_v6 src_ip dest_ip len ++ udp_header src_port dest_port len c
      ++ payload = pre ++ to_be_bytes 2 c ++ payload) as E.
  { intros c. unfold pre, udp_header. by rewrite <- !(assoc_L (++)). }
  replace (src_ip ++ dest_ip ++ to_be_bytes 4 len ++ [0; 0; 0] ++ [17] ++ _)
    with (pre ++ [0; 0] ++ payload)
    by (unfold pre, pseudo_header_v6; by rewrite <- !(assoc_L (++))).
  setoid_rewrite E. apply checksum_of_field; [| |done|].
  - unfold pre, pseudo_header_v6. by rewrite !length_app, Hs, Hd.
  - unfold pre, pseudo_header_v6. rewrite !is_bytes_app.
    repeat split; auto with netpoke; by repeat constructor.
  - unfold pre, pseudo_header_v6. rewrite !length_app, !length_to_be_bytes, Hs, Hd. simpl. lia.
Qed.

(** ** Properties *)

(** C21: For every pair of IPv4 endpoints and every payload a UDP datagram can
    carry, the routine returns (no overflow check fires and the folding loop
    ends), and what it returns is the one non-zero 16-bit value with which the
    datagram passes the RFC 768 verification: pseudo-header and datagram add up
    to a multiple of 65535. *)
Theorem calculate_udp_checksum_v4_verifies src_ip dest_ip src_port dest_port payload :
  ip_wf (V4 src_ip) -> ip_wf (V4 dest_ip) ->
  is_bytes payload -> Z.of_nat (length payload) <= 65527 ->
  let len := 8 + Z.of_nat (length payload) in
  no_panic (calculate_udp_checksum_v4 src_ip dest_ip src_port dest_port payload) /\
  forall c, calculate_udp_checksum_v4 src_ip dest_ip src_port dest_port payload = Ret c
    <-> 1 <= c <= 65535
        /\ ones_sum (pseudo_header_v4 src_ip dest_ip len ++ udp_header src_port dest_port len c
                     ++ payload) mod 65535 = 0.
Proof. apply udp_checksum_v4_unique. Qed.

Lemma calculate_udp_checksum_v4_verifies_witness :
  no_panic (calculate_udp_checksum_v4 [192; 168; 1; 100] [192; 168; 1; 1] 12345 8080
              [72; 101; 108; 108; 111]).
Proof.
  apply (calculate_udp_checksum_v4_verifies [192; 168; 1; 100] [192; 168; 1; 1] 12345 8080
    [72; 101; 108; 108; 111]); try done; try (split; [done|]); by repeat constructor.
Defined.

(** The same for IPv6, where the length of the pseudo-header has 32 bits:
    the routine returns the one non-zero value with which the datagram passes
    the RFC 8200 verification. *)
Theorem calculate_udp_checksum_v6_verifies src_ip dest_ip src_port dest_port payload :
  ip_wf (V6 src_ip) -> ip_wf (V6 dest_ip) ->
  is_bytes payload -> Z.of_nat (length payload) <= 65527 ->
  let len := 8 + Z.of_nat (length payload) in
  no_panic (calculate_udp_checksum_v6 src_ip dest_ip src_port dest_port payload) /\
  forall c, calculate_udp_checksum_v6 src_ip dest_ip src_port dest_port payload = Ret c
    <-> 1 <= c <= 65535
        /\ ones_sum (pseudo_header_v6 src_ip dest_ip len ++ udp_header src_port dest_port len c
                     ++ payload) mod 65535 = 0.
Proof. apply udp_checksum_v6_unique. Qed.

