(* ===== verification/Tracker.v ===== *)
(** * Packet tracking for ICMP correlation (server/src/packet_tracker.rs)

    The tracker remembers the probes the UDP layer reports, indexed by
    destination, length and checksum, and turns an ICMP error that quotes one
    of them into an event for the connection that sent it.  Its operations run
    under its locks; [tracker_step] interleaves their critical sections. *)

From stdpp Require Import base list gmap strings fin_maps.
From Stdlib Require Import ZArith Lia.
From S2P Require Import Prelude Net Protocol TrackingChannel.
Local Open Scope Z_scope.

(** ** Data *)

Record UdpPacketInfo := mkUdpPacketInfo {
  upi_dest_addr : SocketAddr;
  upi_src_addr : option SocketAddr;
  upi_udp_length : Z;
  upi_cleartext : bytes;
  upi_send_options : SendOptions;
  upi_sent_at : Instant;
  upi_conn_id : string;
  upi_udp_checksum : Z }.

Definition MAX_PAYLOAD_PREFIX_SIZE : nat := 64.

Record TrackedPacket := mkTrackedPacket {
  tp_cleartext : bytes;
  tp_udp_packet : bytes;
  tp_sent_at : Instant;
  tp_expires_at : Instant;
  tp_send_options : SendOptions;
  tp_dest_addr : SocketAddr;
  tp_src_port : Z;
  tp_payload_prefix : bytes;
  tp_conn_id : string;
  tp_udp_checksum : Z }.

(** [Error] of the source; the name is spelled out as it is a common one. *)
Inductive IcmpMessageClass := ClassError | ClassIgnore | ClassTtlExpired.

#[export] Instance IcmpMessageClass_eq_dec : EqDecision IcmpMessageClass.
Proof. solve_decision. Defined.

Record EmbeddedUdpInfo := mkEmbeddedUdpInfo {
  emb_src_port : Z;
  emb_dest_addr : SocketAddr;
  emb_udp_length : Z;
  emb_payload_prefix : bytes;
  emb_udp_checksum : Z }.

Record ChecksumKey := mkChecksumKey {
  ck_dest_addr : SocketAddr;
  ck_udp_length : Z;
  ck_udp_checksum : Z }.

#[export] Instance ChecksumKey_eq_dec : EqDecision ChecksumKey.
Proof. solve_decision. Defined.
#[export] Instance ChecksumKey_countable : Countable ChecksumKey.
Proof.
  refine (inj_countable' (fun k => (ck_dest_addr k, ck_udp_length k, ck_udp_checksum k))
    (fun p => mkChecksumKey p.1.1 p.1.2 p.2) _). by intros [].
Defined.

Section tracker.
  (** The world the unmatched-error callback acts on. *)
  Context {W : Type}.

Definition IcmpErrorCallback : Type := EmbeddedUdpInfo -> W -> W.

Record PacketTracker := mkPacketTracker {
  checksum_index : gmap ChecksumKey TrackedPacket;
  event_queue : list TrackedPacketEvent;
  tracking_rx : channel UdpPacketInfo;
  icmp_error_callback : option IcmpErrorCallback }.

(** The tracker and the sender of its channel, which the channel field holds. *)
Definition PacketTracker_new : PacketTracker := mkPacketTracker ∅ [] (mkChannel true []) None.

Definition set_icmp_error_callback (callback : IcmpErrorCallback) (t : PacketTracker) :=
  mkPacketTracker (checksum_index t) (event_queue t) (tracking_rx t) (Some callback).

(** One round of the receiver task: the entry an info becomes. *)
Definition tracked_of_info (info : UdpPacketInfo) : TrackedPacket :=
  mkTrackedPacket (upi_cleartext info) [] (upi_sent_at info)
    (upi_sent_at info + from_millis (track_for_ms (upi_send_options info)))
    (upi_send_options info) (upi_dest_addr info) 0
    (take MAX_PAYLOAD_PREFIX_SIZE (upi_cleartext info)) (upi_conn_id info)
    (upi_udp_checksum info).

Definition key_of_info (info : UdpPacketInfo) : ChecksumKey :=
  mkChecksumKey (upi_dest_addr info) (upi_udp_length info) (upi_udp_checksum info).

Definition tracking_receiver_step (info : UdpPacketInfo)
    (checksum_idx : gmap ChecksumKey TrackedPacket) : gmap ChecksumKey TrackedPacket :=
  if track_for_ms (upi_send_options info) =? 0 then checksum_idx
  else
    let tracked := tracked_of_info info in
    if negb (upi_udp_checksum info =? 0)
    then <[key_of_info info := tracked]> checksum_idx
    else checksum_idx.

(** The task run until its channel is empty. *)
Definition tracking_receiver_task (t : PacketTracker) : PacketTracker :=
  mkPacketTracker
    (foldl (fun idx info => tracking_receiver_step info idx) (checksum_index t)
       (ch_queue (tracking_rx t)))
    (event_queue t) (mkChannel (ch_open (tracking_rx t)) []) (icmp_error_callback t).

Definition key_of_embedded (embedded : EmbeddedUdpInfo) : ChecksumKey :=
  mkChecksumKey (emb_dest_addr embedded) (emb_udp_length embedded) (emb_udp_checksum embedded).

(** The first critical section of [match_icmp_error]: the entry is taken out of
    the index. *)
Definition take_match (embedded : EmbeddedUdpInfo) (checksum_idx : gmap ChecksumKey TrackedPacket)
    : option TrackedPacket * gmap ChecksumKey TrackedPacket :=
  if negb (emb_udp_checksum embedded =? 0) then
    let checksum_key := key_of_embedded embedded in
    (checksum_idx !! checksum_key, delete checksum_key checksum_idx)
  else (None, checksum_idx).

(** [udp_length + 40] and [udp_length + 20] are 16-bit additions. *)
Definition event_of_match (icmp_packet : bytes) (is_ip6 : bool) (embedded : EmbeddedUdpInfo)
    (router_ip : option string) (now : Instant) (tracked : TrackedPacket)
    : outcome TrackedPacketEvent :=
  tracked_ip_length ← checked_u 16 (emb_udp_length embedded + (if is_ip6 then 40 else 20));
  Ret (mkTrackedPacketEvent icmp_packet (tp_udp_packet tracked) tracked_ip_length
         (tp_cleartext tracked) (tp_sent_at tracked) now (tp_send_options tracked) router_ip
         (tp_conn_id tracked) (emb_src_port embedded) (display_addr (emb_dest_addr embedded))).

(** The second critical section: the event enters the queue. *)
Definition push_event (event : TrackedPacketEvent) (t : PacketTracker) : PacketTracker :=
  mkPacketTracker (checksum_index t) (event_queue t ++ [event]) (tracking_rx t)
    (icmp_error_callback t).

Definition with_index (checksum_idx : gmap ChecksumKey TrackedPacket) (t : PacketTracker)
    : PacketTracker :=
  mkPacketTracker checksum_idx (event_queue t) (tracking_rx t) (icmp_error_callback t).

(** The callback of an unmatched error. *)
Definition unmatched_error (icmp_class : IcmpMessageClass) (embedded : EmbeddedUdpInfo)
    (t : PacketTracker) (w : W) : W :=
  if decide (icmp_class = ClassError) then
    match icmp_error_callback t with
    | Some cb => cb embedded w
    | None => w
    end
  else w.

Definition match_icmp_error (icmp_packet : bytes) (icmp_class : IcmpMessageClass)
    (is_ip6 : bool) (embedded : EmbeddedUdpInfo) (router_ip : option string) (now : Instant)
    (t : PacketTracker) (w : W) : outcome (PacketTracker * W) :=
  let '(matched, checksum_idx) := take_match embedded (checksum_index t) in
  let t := with_index checksum_idx t in
  match matched with
  | Some tracked =>
      event ← event_of_match icmp_packet is_ip6 embedded router_ip now tracked;
      Ret (push_event event t, w)
  | None => Ret (t, unmatched_error icmp_class embedded t w)
  end.

Definition drain_events (t : PacketTracker) : list TrackedPacketEvent * PacketTracker :=
  (event_queue t, mkPacketTracker (checksum_index t) [] (tracking_rx t) (icmp_error_callback t)).

(** The loop over [queue.drain(..)]. *)
Definition partition_events (conn_id : string) (queue : list TrackedPacketEvent)
    : list TrackedPacketEvent * list TrackedPacketEvent :=
  foldl (fun '(matching, remaining) event =>
           if (ev_conn_id event =? conn_id)%string
           then (matching ++ [event], remaining)
           else (matching, remaining ++ [event])) ([], []) queue.

Definition drain_events_for_conn_id (conn_id : string) (t : PacketTracker)
    : list TrackedPacketEvent * PacketTracker :=
  let '(matching, remaining) := partition_events conn_id (event_queue t) in
  (matching,
   mkPacketTracker (checksum_index t) remaining (tracking_rx t) (icmp_error_callback t)).

Definition tracked_count (t : PacketTracker) : nat := size (checksum_index t).

Definition cleanup_expired (now : Instant) (checksum_idx : gmap ChecksumKey TrackedPacket)
    : gmap ChecksumKey TrackedPacket :=
  let expired_keys :=
    (filter (fun kt => tp_expires_at kt.2 <= now) (map_to_list checksum_idx)).*1 in
  foldl (fun idx key => delete key idx) checksum_idx expired_keys.

End tracker.
Arguments PacketTracker : clear implicits.
Arguments IcmpErrorCallback : clear implicits.

(** ** The tracking callback (server/src/main.rs)

    What start-up registers with the UDP layer: a probe with a TTL is sent to
    the tracker, to be tracked for five seconds. *)

Definition tracking_send_options (ttl_value : Z) : SendOptions :=
  mkSendOptions (Some ttl_value) (Some true) None None 5000 false false.

Definition tracking_callback : TrackingCallback (channel UdpPacketInfo) :=
  fun args tracking_sender =>
    match ta_ttl args with
    | Some ttl_value =>
        ch_send (mkUdpPacketInfo (ta_dest_addr args) (ta_src_addr args) (ta_udp_length args)
                   (ta_cleartext args) (tracking_send_options ttl_value) (ta_sent_at args)
                   (ta_conn_id args) (ta_udp_checksum args)) tracking_sender
    | None => tracking_sender
    end.

(** ** Steps

    Every interleaving of the tasks: the receiver takes the next info, the
    listeners match an error, the clean-up runs, the control handlers drain a
    connection.  The label is what the step takes in and hands out. *)

Inductive label :=
  | LReported (info : UdpPacketInfo)
  | LDelivered (conn_id : string) (events : list TrackedPacketEvent)
  | LInternal.

Section steps.
  Context {W : Type}.

(** A matched event is in flight between the two critical sections of
    [match_icmp_error]; a length that overflows loses it. *)
Record tracker_state := mkTrackerState {
  ts_tracker : PacketTracker W;
  ts_world : W;
  ts_in_flight : list TrackedPacketEvent }.

Inductive tracker_step : tracker_state -> label -> tracker_state -> Prop :=
  | step_report info t w fl :
      tracker_step (mkTrackerState t w fl) (LReported info)
        (mkTrackerState
           (mkPacketTracker (checksum_index t) (event_queue t) (ch_send info (tracking_rx t))
              (icmp_error_callback t)) w fl)
  | step_receive info infos t w fl :
      ch_queue (tracking_rx t) = info :: infos ->
      tracker_step (mkTrackerState t w fl) LInternal
        (mkTrackerState
           (mkPacketTracker (tracking_receiver_step info (checksum_index t)) (event_queue t)
              (mkChannel (ch_open (tracking_rx t)) infos) (icmp_error_callback t)) w fl)
  | step_matched packet is_ip6 embedded router_ip now tracked idx event t w fl :
      take_match embedded (checksum_index t) = (Some tracked, idx) ->
      event_of_match packet is_ip6 embedded router_ip now tracked = Ret event ->
      tracker_step (mkTrackerState t w fl) LInternal
        (mkTrackerState (with_index idx t) w (event :: fl))
  | step_matched_panic packet is_ip6 embedded router_ip now tracked idx why t w fl :
      take_match embedded (checksum_index t) = (Some tracked, idx) ->
      event_of_match packet is_ip6 embedded router_ip now tracked = Panic why ->
      tracker_step (mkTrackerState t w fl) LInternal (mkTrackerState (with_index idx t) w fl)
  | step_unmatched cls embedded idx t w fl :
      take_match embedded (checksum_index t) = (None, idx) ->
      tracker_step (mkTrackerState t w fl) LInternal
        (mkTrackerState (with_index idx t) (unmatched_error cls embedded (with_index idx t) w) fl)
  | step_push event fl fl' t w :
      fl ≡ₚ event :: fl' ->
      tracker_step (mkTrackerState t w fl) LInternal (mkTrackerState (push_event event t) w fl')
  | step_cleanup now t w fl :
      tracker_step (mkTrackerState t w fl) LInternal
        (mkTrackerState (with_index (cleanup_expired now (checksum_index t)) t) w fl)
  | step_drain conn_id events t t' w fl :
      drain_events_for_conn_id conn_id t = (events, t') ->
      tracker_step (mkTrackerState t w fl) (LDelivered conn_id events) (mkTrackerState t' w fl).

Inductive tracker_run : tracker_state -> list label -> tracker_state -> Prop :=
  | run_nil s : tracker_run s [] s
  | run_snoc s ls s' l s'' :
      tracker_run s ls s' -> tracker_step s' l s'' -> tracker_run s (ls ++ [l]) s''.

End steps.
Arguments tracker_state : clear implicits.

(** What identifies a probe through the tracker: payload, time of sending,
    options and connection. *)
Definition probe_id : Type := bytes * Instant * SendOptions * string.

Definition info_probe (i : UdpPacketInfo) : probe_id :=
  (upi_cleartext i, upi_sent_at i, upi_send_options i, upi_conn_id i).
Definition tracked_probe (t : TrackedPacket) : probe_id :=
  (tp_cleartext t, tp_sent_at t, tp_send_options t, tp_conn_id t).
Definition event_probe (e : TrackedPacketEvent) : probe_id :=
  (ev_cleartext e, ev_sent_at e, ev_send_options e, ev_conn_id e).

Definition reported (ls : list label) : list UdpPacketInfo :=
  ls ≫= fun l => match l with LReported i => [i] | _ => [] end.
Definition delivered (ls : list label) : list TrackedPacketEvent :=
  ls ≫= fun l => match l with LDelivered _ es => es | _ => [] end.

(** ** Lemmas *)

Definition values {K A} `{Countable K} (m : gmap K A) : list A := (map_to_list m).*2.

Lemma values_mono {K A} `{Countable K} (m1 m2 : gmap K A) : m1 ⊆ m2 -> values m1 ⊆+ values m2.
Proof. intros. by apply fmap_submseteq, map_to_list_submseteq. Qed.

Lemma values_insert {K A} `{Countable K} k v (m : gmap K A) :
  values (<[k:=v]> m) ⊆+ v :: values m.
Proof.
  rewrite <- insert_delete_eq. unfold values.
  rewrite map_to_list_insert by apply lookup_delete_eq. simpl. constructor.
  apply values_mono, delete_subseteq.
Qed.

Lemma values_delete {K A} `{Countable K} k v (m : gmap K A) :
  m !! k = Some v -> v :: values (delete k m) ≡ₚ values m.
Proof. intros Hk. unfold values. by rewrite <- (map_to_list_delete m k v Hk). Qed.

Lemma partition_events_spec conn_id queue :
  partition_events conn_id queue
  = (filter (fun e => ev_conn_id e = conn_id) queue,
     filter (fun e => ev_conn_id e <> conn_id) queue).
Proof.
  unfold partition_events.
  assert (forall m r, foldl (fun '(matching, remaining) event =>
           if (ev_conn_id event =? conn_id)%string
           then (matching ++ [event], remaining)
           else (matching, remaining ++ [event])) (m, r) queue
    = (m ++ filter (fun e => ev_conn_id e = conn_id) queue,
       r ++ filter (fun e => ev_conn_id e <> conn_id) queue)) as Hacc; [|by rewrite Hacc].
  induction queue as [|e q IH]; intros m r; [simpl; by rewrite !app_nil_r|].
  rewrite !filter_cons. cbn [foldl].
  destruct (String.eqb_spec (ev_conn_id e) conn_id) as [E|E]; rewrite IH;
    repeat case_decide; try done; by rewrite <- (assoc_L (++)).
Qed.

Lemma filter_split_perm {A} (P : A -> Prop) `{!forall x, Decision (P x)} l :
  filter P l ++ filter (fun x => ~ P x) l ≡ₚ l.
Proof.
  induction l as [|a l IH]; [done|]. rewrite !filter_cons.
  destruct (decide (P a)); case_decide; try done.
  - simpl. by rewrite IH.
  - rewrite <- Permutation_middle. by rewrite IH.
Qed.

Lemma foldl_delete_lookup {K A} `{Countable K} (keys : list K) (m : gmap K A) k :
  foldl (fun idx key => delete key idx) m keys !! k
  = if decide (k ∈ keys) then None else m !! k.
Proof.
  revert m. induction keys as [|k' keys IH]; intros m; cbn [foldl].
  - case_decide as Hin; [by apply not_elem_of_nil in Hin|done].
  - rewrite IH. destruct (decide (k = k')) as [->|Hk].
    + rewrite lookup_delete_eq, (decide_True (P := k' ∈ k' :: keys)) by constructor.
      by case_decide.
    + rewrite lookup_delete_ne by done. apply decide_ext. rewrite elem_of_cons. tauto.
Qed.

Lemma cleanup_expired_lookup now idx k :
  cleanup_expired now idx !! k
  = t ← idx !! k; if decide (tp_expires_at t <= now) then None else Some t.
Proof.
  unfold cleanup_expired. rewrite foldl_delete_lookup.
  destruct (idx !! k) as [t|] eqn:Hk; simpl; [|by case_decide].
  destruct (decide (tp_expires_at t <= now)) as [Hexp|Hexp].
  - rewrite decide_True; [done|]. apply list_elem_of_fmap. exists (k, t). split; [done|].
    apply list_elem_of_filter. split; [done|]. by apply elem_of_map_to_list.
  - rewrite decide_False; [done|]. intros ([k' t'] & Heq & [Ht' Hin]%list_elem_of_filter)%list_elem_of_fmap.
    simpl in *. subst. apply elem_of_map_to_list in Hin. by simplify_eq.
Qed.

Lemma cleanup_expired_subseteq now idx : cleanup_expired now idx ⊆ idx.
Proof.
  apply map_subseteq_spec. intros k t. rewrite cleanup_expired_lookup.
  destruct (idx !! k); simpl; [|done]. by case_decide; intros [= ->].
Qed.

Section runs.
  Context {W : Type}.

(** The probes the tracker still holds: matched, in flight, tracked or waiting in
    its channel. *)
Definition held (s : tracker_state W) : list probe_id :=
  let t := ts_tracker s in
  (event_probe <$> event_queue t) ++ (event_probe <$> ts_in_flight s)
  ++ (tracked_probe <$> values (checksum_index t)) ++ (info_probe <$> ch_queue (tracking_rx t)).

Lemma tracking_receiver_step_values info idx :
  tracked_probe <$> values (tracking_receiver_step info idx)
  ⊆+ info_probe info :: (tracked_probe <$> values idx).
Proof.
  unfold tracking_receiver_step. case_match; [by constructor|]. case_match; [|by constructor].
  exact (fmap_submseteq tracked_probe _ _ (values_insert _ (tracked_of_info info) _)).
Qed.

Lemma take_match_Some embedded idx tracked idx' :
  take_match embedded idx = (Some tracked, idx') -> tracked :: values idx' ≡ₚ values idx.
Proof.
  unfold take_match. case_match; [|done]. intros [= Hk <-]. by apply values_delete.
Qed.

Lemma take_match_subseteq embedded idx m idx' :
  take_match embedded idx = (m, idx') -> idx' ⊆ idx.
Proof. unfold take_match. case_match; intros [= _ <-]; [apply delete_subseteq|done]. Qed.

Lemma event_of_match_probe packet is_ip6 embedded router_ip now tracked event :
  event_of_match packet is_ip6 embedded router_ip now tracked = Ret event ->
  event_probe event = tracked_probe tracked.
Proof. unfold event_of_match. intros H. by invert_ret. Qed.

(** A step that only takes entries out of the index. *)
Lemma held_with_index (t : PacketTracker W) idx w w' fl :
  idx ⊆ checksum_index t ->
  held (mkTrackerState (with_index idx t) w' fl) ⊆+ held (mkTrackerState t w fl).
Proof.
  intros Hidx. unfold held; simpl. do 2 apply submseteq_skips_l. apply submseteq_skips_r.
  by apply fmap_submseteq, values_mono.
Qed.

Lemma held_drain (t t' : PacketTracker W) c es w fl :
  drain_events_for_conn_id c t = (es, t') ->
  (event_probe <$> es) ++ held (mkTrackerState t' w fl) ⊆+ held (mkTrackerState t w fl).
Proof.
  unfold drain_events_for_conn_id. rewrite partition_events_spec.
  intros [= <- <-]. unfold held; simpl. rewrite (assoc_L (++)), <- fmap_app.
  apply submseteq_skips_r, Permutation_submseteq.
  by rewrite (filter_split_perm (fun e => ev_conn_id e = c)).
Qed.

Lemma tracker_step_held (s s' : tracker_state W) l :
  tracker_step s l s' ->
  (event_probe <$> delivered [l]) ++ held s' ⊆+ held s ++ (info_probe <$> reported [l]).
Proof.
  destruct 1 as [info t w fl|info infos t w fl Hq|? ? ? ? ? tracked idx ev t w fl Ht He
    |? ? ? ? ? tracked idx why t w fl Ht _|? ? idx t w fl Ht|ev fl fl' t w Hfl|now t w fl
    |c es t t' w fl Hd]; unfold delivered, reported; simpl; rewrite ?app_nil_r.
  - unfold held, ch_send; simpl. case_match; simpl.
    + by rewrite fmap_app, <- !(assoc_L (++)).
    + by apply submseteq_inserts_r.
  - unfold held; simpl. rewrite Hq. simpl. do 2 apply submseteq_skips_l.
    rewrite <- Permutation_middle.
    change (info_probe info :: ?x ++ ?y) with ((info_probe info :: x) ++ y).
    apply submseteq_skips_r, tracking_receiver_step_values.
  - unfold held; simpl. rewrite (event_of_match_probe _ _ _ _ _ _ _ He).
    rewrite <- (take_match_Some _ _ _ _ Ht), fmap_cons. simpl.
    by rewrite <- (Permutation_middle (event_probe <$> fl)).
  - by eapply held_with_index, take_match_subseteq.
  - by eapply held_with_index, take_match_subseteq.
  - unfold held; simpl. by rewrite Hfl, fmap_app, <- (assoc_L (++)).
  - apply held_with_index, cleanup_expired_subseteq.
  - by eapply held_drain.
Qed.

Lemma delivered_app ls l : delivered (ls ++ [l]) = delivered ls ++ delivered [l].
Proof. unfold delivered. apply bind_app. Qed.

Lemma reported_app ls l : reported (ls ++ [l]) = reported ls ++ reported [l].
Proof. unfold reported. apply bind_app. Qed.

Lemma tracker_run_held (s s' : tracker_state W) ls :
  tracker_run s ls s' ->
  (event_probe <$> delivered ls) ++ held s' ⊆+ held s ++ (info_probe <$> reported ls).
Proof.
  induction 1 as [s|s ls s' l s'' Hrun IH Hstep]; [by rewrite app_nil_r|].
  apply tracker_step_held in Hstep. rewrite delivered_app, reported_app, !fmap_app.
  rewrite <- (assoc_L (++)). etrans; [apply submseteq_skips_l, Hstep|].
  rewrite !(assoc_L (++)). by apply submseteq_skips_r.
Qed.

Lemma tracker_run_conn_id (s s' : tracker_state W) ls conn_id events :
  tracker_run s ls s' -> LDelivered conn_id events ∈ ls ->
  Forall (fun e => ev_conn_id e = conn_id) events.
Proof.
  induction 1 as [s|s ls s' l s'' Hrun IH Hstep]; [by intros ?%elem_of_nil|].
  rewrite elem_of_app, list_elem_of_singleton. intros [Hin|<-]; [by apply IH|].
  inversion Hstep as [| | | | | | |? ? ? ? ? ? Hd]; subst. revert Hd.
  unfold drain_events_for_conn_id. rewrite partition_events_spec. intros [= <- _].
  apply Forall_forall. by intros e [? _]%list_elem_of_filter.
Qed.

End runs.

(** ** Properties *)

(** C20: Whatever the tasks interleave, the events handed out, queued and in
    flight are, counted with multiplicity, among the probes the UDP layer reported:
    an event carries the payload, sending time, options and connection of one
    reported probe, no probe yields two events, and a connection is only ever
    handed events of its own probes. *)
Theorem tracker_run_accounts {W} (cb : IcmpErrorCallback W) (w : W) ls s :
  tracker_run (mkTrackerState (set_icmp_error_callback cb PacketTracker_new) w []) ls s ->
  event_probe <$> (delivered ls ++ event_queue (ts_tracker s) ++ ts_in_flight s)
    ⊆+ info_probe <$> reported ls
  /\ forall conn_id events, LDelivered conn_id events ∈ ls ->
       Forall (fun e => ev_conn_id e = conn_id) events.
Proof.
  intros Hrun. split; [|intros conn_id events; by eapply tracker_run_conn_id].
  apply tracker_run_held in Hrun. simpl in Hrun. etrans; [|exact Hrun].
  rewrite !fmap_app. apply submseteq_skips_l. unfold held. apply submseteq_skips_l.
  by apply submseteq_inserts_r.
Qed.

(** Draining a connection returns exactly its events, in arrival order,
    leaves exactly the others, in arrival order, and loses none. *)
Lemma drain_events_for_conn_id_partition {W} conn_id (t : PacketTracker W) :
  let '(matching, t') := drain_events_for_conn_id conn_id t in
  matching = filter (fun e => ev_conn_id e = conn_id) (event_queue t)
  /\ event_queue t' = filter (fun e => ev_conn_id e <> conn_id) (event_queue t)
  /\ matching ++ event_queue t' ≡ₚ event_queue t
  /\ checksum_index t' = checksum_index t.
Proof.
  unfold drain_events_for_conn_id. rewrite partition_events_spec. simpl.
  repeat split. apply (filter_split_perm (fun e => ev_conn_id e = conn_id)).
Qed.

(** The clean-up removes an entry exactly when its time has come, and a
    probe received while its tracking time lasts survives every earlier
    clean-up. *)
Theorem cleanup_expired_keeps_live now idx info :
  track_for_ms (upi_send_options info) > 0 -> upi_udp_checksum info <> 0 ->
  now < upi_sent_at info + from_millis (track_for_ms (upi_send_options info)) ->
  cleanup_expired now (tracking_receiver_step info idx) !! key_of_info info
    = Some (tracked_of_info info)
  /\ forall k t, cleanup_expired now idx !! k = Some t
       <-> idx !! k = Some t /\ now < tp_expires_at t.
Proof.
  intros Hms Hck Hnow. split.
  - rewrite cleanup_expired_lookup. unfold tracking_receiver_step.
    rewrite (proj2 (Z.eqb_neq _ 0)) by lia. rewrite (proj2 (Z.eqb_neq _ 0) Hck). simpl.
    rewrite lookup_insert_eq. simpl. rewrite decide_False; [done|]. simpl. lia.
  - intros k t. rewrite cleanup_expired_lookup. destruct (idx !! k) as [t0|]; simpl.
    + case_decide; split; [done|intros [[= ->] ?]; lia|intros [= ->]; split; [done|lia]|].
      by intros [[= ->] ?].
    + split; [done|by intros [? _]].
Qed.

(** A probe, its report and the error that quotes it. *)
Definition sample_addr : SocketAddr := mkSocketAddr (V4 [10; 0; 0; 2]) 5000.
Definition sample_info : UdpPacketInfo :=
  mkUdpPacketInfo sample_addr None 11 [1; 2; 3] (tracking_send_options 4) 1000 "conn-a" 4660.
Definition sample_embedded : EmbeddedUdpInfo := mkEmbeddedUdpInfo 443 sample_addr 11 [1; 2; 3] 4660.

Definition sample_event : TrackedPacketEvent :=
  mkTrackedPacketEvent [] [] 31 [1; 2; 3] 1000 2000 (tracking_send_options 4) None "conn-a" 443
    "10.0.0.2:5000".

Lemma tracker_run_accounts_witness :
  event_probe <$> ([sample_event] ++ [] ++ []) ⊆+ info_probe <$> [sample_info].
Proof.
  set (cb := fun (_ : EmbeddedUdpInfo) (w : unit) => w).
  set (tracker idx queue rx := mkPacketTracker idx queue (mkChannel true rx) (Some cb)).
  set (idx1 := tracking_receiver_step sample_info ∅).
  set (idx2 := snd (take_match sample_embedded idx1)).
  refine (proj1 (tracker_run_accounts cb tt
    [LReported sample_info; LInternal; LInternal; LInternal; LDelivered "conn-a" [sample_event]]
    (mkTrackerState (tracker idx2 [] []) tt []) _)).
  apply (run_snoc _ [LReported sample_info; LInternal; LInternal; LInternal]
    (mkTrackerState (tracker idx2 [sample_event] []) tt [])); [|by apply step_drain].
  apply (run_snoc _ [LReported sample_info; LInternal; LInternal]
    (mkTrackerState (tracker idx2 [] []) tt [sample_event])).
  2: exact (step_push sample_event [sample_event] [] (tracker idx2 [] []) tt (reflexivity _)).
  apply (run_snoc _ [LReported sample_info; LInternal] (mkTrackerState (tracker idx1 [] []) tt [])).
  2: exact (step_matched [] false sample_embedded None 2000 (tracked_of_info sample_info) idx2
       sample_event (tracker idx1 [] []) tt [] ltac:(vm_compute; reflexivity) ltac:(vm_compute; reflexivity)).
  apply (run_snoc _ [LReported sample_info] (mkTrackerState (tracker ∅ [] [sample_info]) tt [])).
  2: exact (step_receive sample_info [] (tracker ∅ [] [sample_info]) tt [] eq_refl).
  eapply (run_snoc _ []); [apply run_nil|apply step_report].
Defined.

