(* ===== verification/Icmp.v ===== *)
(** * ICMP error parsing and the listeners (server/src/icmp_listener.rs)

    Raw-socket buffers come from the network, so the parsers must accept any
    bytes.  The file also holds the MTU extraction of
    server/src/measurements.rs and the path of a probe through tracker and
    listener. *)

From stdpp Require Import base list gmap strings.
From Stdlib Require Import ZArith Lia.
From S2P Require Import Prelude Net Wire Protocol TrackingChannel Tracker.
Local Open Scope Z_scope.

Definition IPV6_HEADER_SIZE : nat := 40.
Definition UDP_HEADER_SIZE : nat := 8.
Definition ICMPV6_HEADER_SIZE : nat := 8.
Definition MIN_ICMPV6_PACKET_SIZE : nat := ICMPV6_HEADER_SIZE + IPV6_HEADER_SIZE + UDP_HEADER_SIZE.

Definition parse_icmp_error (packet : bytes)
    : outcome (option (EmbeddedUdpInfo * IcmpMessageClass)) :=
  if (length packet <? 56)%nat then Ret None else
  icmp_type ← index packet 20;
  icmp_code ← index packet 21;
  if negb (existsb (Z.eqb icmp_type) [3; 11; 12]) then Ret None else
  let icmp_class :=
    if icmp_type =? 3 then ClassError
    else if icmp_type =? 11 then ClassTtlExpired else ClassIgnore in
  let embedded_ip_start := 28%nat in
  b0 ← index packet embedded_ip_start;
  if negb (ip_version b0 =? 4) then Ret None else
  embedded_ip_header_len ← checked_u 8 (Z.land b0 15 * 4);
  let embedded_ip_header_len := Z.to_nat embedded_ip_header_len in
  embedded_protocol ← index packet (embedded_ip_start + 9);
  if negb (embedded_protocol =? 17) then Ret None else
  d0 ← index packet (embedded_ip_start + 16);
  d1 ← index packet (embedded_ip_start + 17);
  d2 ← index packet (embedded_ip_start + 18);
  d3 ← index packet (embedded_ip_start + 19);
  let embedded_udp_start := (embedded_ip_start + embedded_ip_header_len)%nat in
  if (length packet <? embedded_udp_start + 8)%nat then Ret None else
  src_port ← read_u16_be packet embedded_udp_start;
  dest_port ← read_u16_be packet (embedded_udp_start + 2);
  udp_length ← read_u16_be packet (embedded_udp_start + 4);
  udp_checksum ← read_u16_be packet (embedded_udp_start + 6);
  let payload_start := (embedded_udp_start + 8)%nat in
  let payload_end := Nat.min (payload_start + MAX_PAYLOAD_PREFIX_SIZE) (length packet) in
  payload_prefix ← slice packet payload_start payload_end;
  Ret (Some (mkEmbeddedUdpInfo src_port (mkSocketAddr (V4 [d0; d1; d2; d3]) dest_port)
               udp_length payload_prefix udp_checksum, icmp_class)).

Definition parse_icmpv6_error (packet : bytes)
    : outcome (option (EmbeddedUdpInfo * IcmpMessageClass)) :=
  if (length packet <? MIN_ICMPV6_PACKET_SIZE)%nat then Ret None else
  icmpv6_type ← index packet 0;
  icmpv6_code ← index packet 1;
  if negb (existsb (Z.eqb icmpv6_type) [1; 2; 3]) then Ret None else
  let icmp_class :=
    if icmpv6_type =? 1 then ClassError
    else if icmpv6_type =? 2 then ClassTtlExpired else ClassIgnore in
  let embedded_ip_start := ICMPV6_HEADER_SIZE in
  if (length packet <? embedded_ip_start + IPV6_HEADER_SIZE)%nat then Ret None else
  b0 ← index packet embedded_ip_start;
  if negb (ip_version b0 =? 6) then Ret None else
  next_header ← index packet (embedded_ip_start + 6);
  if negb (next_header =? 17) then Ret None else
  dest_ip ← slice packet (embedded_ip_start + 24) (embedded_ip_start + 40);
  let embedded_udp_start := (embedded_ip_start + IPV6_HEADER_SIZE)%nat in
  if (length packet <? embedded_udp_start + UDP_HEADER_SIZE)%nat then Ret None else
  src_port ← read_u16_be packet embedded_udp_start;
  dest_port ← read_u16_be packet (embedded_udp_start + 2);
  udp_length ← read_u16_be packet (embedded_udp_start + 4);
  udp_checksum ← read_u16_be packet (embedded_udp_start + 6);
  let payload_start := (embedded_udp_start + UDP_HEADER_SIZE)%nat in
  let payload_end := Nat.min (payload_start + MAX_PAYLOAD_PREFIX_SIZE) (length packet) in
  payload_prefix ← slice packet payload_start payload_end;
  Ret (Some (mkEmbeddedUdpInfo src_port (mkSocketAddr (V6 dest_ip) dest_port)
               udp_length payload_prefix udp_checksum, icmp_class)).

(** Server/src/measurements.rs: the next-hop MTU of a "fragmentation needed". *)
Definition extract_mtu_from_icmp (icmp_packet : bytes) : outcome (option Z) :=
  if (length icmp_packet <? 28)%nat then Ret None else
  icmp_type ← index icmp_packet 20;
  if negb (icmp_type =? 3) then Ret None else
  icmp_code ← index icmp_packet 21;
  if negb (icmp_code =? 4) then Ret None else
  mtu ← read_u16_be icmp_packet 26;
  Ret (if 0 <? mtu then Some mtu else None).

(** One iteration of the listener loops, on a buffer the socket received. *)

Definition icmp_listener_step_v4 {W} (icmp_packet : bytes) (addr : IpAddr) (now : Instant)
    (packet_tracker : PacketTracker W) (w : W) : outcome (PacketTracker W * W) :=
  let router_ip := Some (display_ip addr) in
  parsed ← parse_icmp_error icmp_packet;
  match parsed with
  | Some (embedded_info, msg_class) =>
      match_icmp_error icmp_packet msg_class false embedded_info router_ip now packet_tracker w
  | None => Ret (packet_tracker, w)
  end.

Definition icmp_listener_step_v6 {W} (icmp_packet : bytes) (addr : IpAddr) (now : Instant)
    (packet_tracker : PacketTracker W) (w : W) : outcome (PacketTracker W * W) :=
  let router_ip := Some (display_ip addr) in
  parsed ← parse_icmpv6_error icmp_packet;
  match parsed with
  | Some (embedded_info, msg_class) =>
      match_icmp_error icmp_packet msg_class true embedded_info router_ip now packet_tracker w
  | None => Ret (packet_tracker, w)
  end.

(** ** What routers send

    An ICMP error quotes the IP header of the packet and the first bytes of its
    payload.  A raw ICMP socket delivers the outer IP header too, a raw ICMPv6
    socket does not. *)

(** The buffer of a raw ICMP socket: outer IP header, ICMP header, quote. *)
Definition icmp_v4_packet (outer rest : bytes) (icmp_type icmp_code : Z) (h : ipv4_header)
    (udp quoted : bytes) : bytes :=
  outer ++ [icmp_type; icmp_code] ++ rest ++ ipv4_header_bytes h ++ udp ++ quoted.

Definition icmp_v6_packet (rest : bytes) (icmp_type icmp_code : Z) (ip6 udp quoted : bytes) : bytes :=
  [icmp_type; icmp_code] ++ rest ++ ip6 ++ udp ++ quoted.

(** ** Lemmas *)

(** The payload prefix: what follows the UDP header, up to 64 bytes. *)
Lemma payload_prefix_slice (pre quoted : bytes) n :
  n = length pre ->
  slice (pre ++ quoted) n (Nat.min (n + MAX_PAYLOAD_PREFIX_SIZE) (length (pre ++ quoted)))
  = Ret (take MAX_PAYLOAD_PREFIX_SIZE quoted).
Proof.
  intros ->. rewrite length_app, slice_Ret by (rewrite ?length_app; lia).
  rewrite drop_app_length. f_equal.
  destruct (decide (length quoted <= MAX_PAYLOAD_PREFIX_SIZE)%nat).
  - rewrite Nat.min_r by lia. rewrite !take_ge by lia. done.
  - rewrite Nat.min_l by lia. f_equal. lia.
Qed.

Lemma icmp_v4_packet_bytes outer rest icmp_type icmp_code h udp quoted :
  length outer = 20%nat -> length rest = 6%nat -> ipv4_header_wf h ->
  let p := icmp_v4_packet outer rest icmp_type icmp_code h udp quoted in
  index p 20 = Ret icmp_type /\ index p 21 = Ret icmp_code
  /\ index p 28 = Ret (16 * 4 + h4_ihl h) /\ index p 37 = Ret (h4_proto h)
  /\ exists d0 d1 d2 d3, h4_dst h = [d0; d1; d2; d3]
     /\ index p 44 = Ret d0 /\ index p 45 = Ret d1 /\ index p 46 = Ret d2 /\ index p 47 = Ret d3.
Proof.
  intros Ho Hr (_ & Hf & Hc & Hs & Hd & _). unfold icmp_v4_packet, ipv4_header_bytes.
  destruct h as [ihl fields proto ck src dst opts]. simpl in *.
  explode outer Ho. explode rest Hr. explode fields Hf. explode ck Hc. explode src Hs.
  explode dst Hd. repeat split. eexists _, _, _, _. repeat split.
Qed.

(** The class the source gives an ICMP type. *)
Definition v4_class (icmp_type : Z) : IcmpMessageClass :=
  if icmp_type =? 3 then ClassError else if icmp_type =? 11 then ClassTtlExpired else ClassIgnore.
Definition v6_class (icmp_type : Z) : IcmpMessageClass :=
  if icmp_type =? 1 then ClassError else if icmp_type =? 2 then ClassTtlExpired else ClassIgnore.

Lemma parse_icmp_error_quote outer rest icmp_type icmp_code h sp dp len ck quoted :
  length outer = 20%nat -> length rest = 6%nat -> ipv4_header_wf h -> h4_proto h = 17 ->
  icmp_type ∈ [3; 11; 12] -> is_u 16 sp -> is_u 16 dp -> is_u 16 len -> is_u 16 ck ->
  parse_icmp_error
    (icmp_v4_packet outer rest icmp_type icmp_code h (udp_header sp dp len ck) quoted)
  = Ret (Some (mkEmbeddedUdpInfo sp (mkSocketAddr (V4 (h4_dst h)) dp) len
                 (take MAX_PAYLOAD_PREFIX_SIZE quoted) ck, v4_class icmp_type)).
Proof.
  intros Ho Hr Hh Hproto Htype Hsp Hdp Hlen Hck.
  set (p := icmp_v4_packet _ _ _ _ _ _ _).
  destruct (icmp_v4_packet_bytes outer rest icmp_type icmp_code h (udp_header sp dp len ck) quoted)
    as (H20 & H21 & H28 & H37 & d0 & d1 & d2 & d3 & Hdst & H44 & H45 & H46 & H47); try done.
  fold p in H20, H21, H28, H37, H44, H45, H46, H47.
  set (pre := outer ++ [icmp_type; icmp_code] ++ rest ++ ipv4_header_bytes h).
  assert (length pre = 28 + Z.to_nat (h4_ihl h * 4))%nat as Hpre.
  { unfold pre. rewrite !length_app, Ho, Hr, length_ipv4_header by done. simpl. lia. }
  assert (p = pre ++ udp_header sp dp len ck ++ quoted) as Hp.
  { unfold p, pre, icmp_v4_packet. by rewrite <- !(assoc_L (++)). }
  destruct (udp_header_fields pre quoted sp dp len ck _ (eq_sym Hpre)) as (F1 & F2 & F3 & F4);
    try done. rewrite <- Hp in F1, F2, F3, F4.
  assert (length p = 28 + Z.to_nat (h4_ihl h * 4) + 8 + length quoted)%nat as Hplen.
  { rewrite Hp, !length_app, Hpre. unfold udp_header. simpl. lia. }
  assert (5 <= h4_ihl h <= 15) as Hihl by apply Hh.
  destruct (ip_version_nibbles 4 (h4_ihl h)) as [Hver Hnib]; [lia|lia|].
  unfold parse_icmp_error. rewrite (proj2 (Nat.ltb_ge _ _)) by lia.
  rewrite H20, H21. cbn [mbind outcome_bind].
  replace (negb _) with false by (apply list_elem_of_In in Htype; by destruct Htype as [<-|[<-|[<-|[]]]]).
  rewrite H28. cbn [mbind outcome_bind]. rewrite Hver. cbn [negb Z.eqb Pos.eqb].
  rewrite checked_u8_header_len, Hnib. cbn [mbind outcome_bind Nat.add].
  rewrite H37, Hproto. cbn [mbind outcome_bind negb Z.eqb Pos.eqb].
  rewrite H44, H45, H46, H47. cbn [mbind outcome_bind].
  rewrite (proj2 (Nat.ltb_ge _ _)) by lia.
  cbn [Nat.add] in F1, F2, F3, F4. rewrite F1, F2, F3, F4. cbn [mbind outcome_bind].
  pose proof (payload_prefix_slice (pre ++ udp_header sp dp len ck) quoted
    (28 + Z.to_nat (h4_ihl h * 4) + 8)) as Hslice.
  rewrite <- (assoc_L (++)), <- Hp in Hslice. cbn [Nat.add] in Hslice.
  rewrite Hslice by (rewrite length_app, Hpre; unfold udp_header; simpl; lia).
  by rewrite Hdst.
Qed.

Lemma icmp_v6_packet_bytes rest icmp_type icmp_code nibble fields hop src dst udp quoted :
  length rest = 6%nat -> length fields = 5%nat -> length src = 16%nat -> length dst = 16%nat ->
  let p := icmp_v6_packet rest icmp_type icmp_code
             (ipv6_header_bytes nibble fields hop src dst) udp quoted in
  index p 0 = Ret icmp_type /\ index p 1 = Ret icmp_code /\ index p 8 = Ret (16 * 6 + nibble)
  /\ index p 14 = Ret 17 /\ slice p 32 48 = Ret dst.
Proof.
  intros Hr Hf Hs Hd. unfold icmp_v6_packet, ipv6_header_bytes.
  explode rest Hr. explode fields Hf. explode src Hs. explode dst Hd. by repeat split.
Qed.

Lemma parse_icmpv6_error_quote rest icmp_type icmp_code nibble fields hop src dst sp dp len ck quoted :
  length rest = 6%nat -> 0 <= nibble <= 15 -> length fields = 5%nat ->
  length src = 16%nat -> length dst = 16%nat ->
  icmp_type ∈ [1; 2; 3] -> is_u 16 sp -> is_u 16 dp -> is_u 16 len -> is_u 16 ck ->
  parse_icmpv6_error
    (icmp_v6_packet rest icmp_type icmp_code (ipv6_header_bytes nibble fields hop src dst)
       (udp_header sp dp len ck) quoted)
  = Ret (Some (mkEmbeddedUdpInfo sp (mkSocketAddr (V6 dst) dp) len
                 (take MAX_PAYLOAD_PREFIX_SIZE quoted) ck, v6_class icmp_type)).
Proof.
  intros Hr Hn Hf Hs Hd Htype Hsp Hdp Hlen Hck.
  set (p := icmp_v6_packet _ _ _ _ _ _).
  destruct (icmp_v6_packet_bytes rest icmp_type icmp_code nibble fields hop src dst
    (udp_header sp dp len ck) quoted) as (H0 & H1 & H8 & H14 & Hdst); try done.
  fold p in H0, H1, H8, H14, Hdst.
  set (pre := [icmp_type; icmp_code] ++ rest ++ ipv6_header_bytes nibble fields hop src dst).
  assert (length pre = 48)%nat as Hpre.
  { unfold pre, ipv6_header_bytes. rewrite !length_app, Hr, Hf, Hs, Hd. done. }
  assert (p = pre ++ udp_header sp dp len ck ++ quoted) as Hp.
  { unfold p, pre, icmp_v6_packet. by rewrite <- !(assoc_L (++)). }
  destruct (udp_header_fields pre quoted sp dp len ck _ (eq_sym Hpre)) as (F1 & F2 & F3 & F4);
    try done. rewrite <- Hp in F1, F2, F3, F4.
  assert (length p = 56 + length quoted)%nat as Hplen.
  { rewrite Hp, !length_app, Hpre. unfold udp_header. simpl. lia. }
  destruct (ip_version_nibbles 6 nibble) as [Hver _]; [lia|lia|].
  unfold parse_icmpv6_error, MIN_ICMPV6_PACKET_SIZE, ICMPV6_HEADER_SIZE, IPV6_HEADER_SIZE,
    UDP_HEADER_SIZE. cbn [Nat.add] in *. rewrite !(proj2 (Nat.ltb_ge _ _)) by lia.
  rewrite H0, H1. cbn [mbind outcome_bind].
  replace (negb _) with false by (apply list_elem_of_In in Htype; by destruct Htype as [<-|[<-|[<-|[]]]]).
  rewrite H8. cbn [mbind outcome_bind]. rewrite Hver. cbn [negb Z.eqb Pos.eqb].
  rewrite H14. cbn [mbind outcome_bind negb Z.eqb Pos.eqb].
  rewrite Hdst. cbn [mbind outcome_bind].
  rewrite F1, F2, F3, F4. cbn [mbind outcome_bind].
  pose proof (payload_prefix_slice (pre ++ udp_header sp dp len ck) quoted 56) as Hslice.
  rewrite <- (assoc_L (++)), <- Hp in Hslice. cbn [Nat.add] in Hslice.
  rewrite Hslice by (rewrite length_app, Hpre; done). done.
Qed.

(** The channel once a probe is reported, and the tracker once the receiver has
    caught up with it. *)
Definition after_report {W} (info : UdpPacketInfo) (t : PacketTracker W) : PacketTracker W :=
  tracking_receiver_task
    (mkPacketTracker (checksum_index t) (event_queue t) (ch_send info (tracking_rx t))
       (icmp_error_callback t)).

Lemma after_report_lookup {W} info (t : PacketTracker W) :
  ch_open (tracking_rx t) = true -> track_for_ms (upi_send_options info) <> 0 ->
  upi_udp_checksum info <> 0 ->
  checksum_index (after_report info t) !! key_of_info info = Some (tracked_of_info info).
Proof.
  intros Hopen Hms Hck. unfold after_report, tracking_receiver_task, ch_send. rewrite Hopen. simpl.
  rewrite foldl_app. simpl. unfold tracking_receiver_step at 1.
  rewrite (proj2 (Z.eqb_neq _ 0) Hms), (proj2 (Z.eqb_neq _ 0) Hck). simpl.
  apply lookup_insert_eq.
Qed.

(** The event of a matched probe. *)
Definition event_of (packet : bytes) (is_ip6 : bool) (embedded : EmbeddedUdpInfo)
    (router : IpAddr) (now : Instant) (info : UdpPacketInfo) : TrackedPacketEvent :=
  mkTrackedPacketEvent packet [] (upi_udp_length info + (if is_ip6 then 40 else 20))
    (upi_cleartext info) (upi_sent_at info) now (upi_send_options info)
    (Some (display_ip router)) (upi_conn_id info) (emb_src_port embedded)
    (display_addr (upi_dest_addr info)).

Lemma match_reported {W} packet cls (is_ip6 : bool) embedded router now info
    (t : PacketTracker W) w :
  key_of_embedded embedded = key_of_info info -> upi_udp_checksum info <> 0 ->
  0 <= upi_udp_length info -> upi_udp_length info + (if is_ip6 then 40 else 20) <= 65535 ->
  checksum_index t !! key_of_info info = Some (tracked_of_info info) ->
  match_icmp_error packet cls is_ip6 embedded (Some (display_ip router)) now t w
  = Ret (mkPacketTracker (delete (key_of_info info) (checksum_index t))
           (event_queue t ++ [event_of packet is_ip6 embedded router now info])
           (tracking_rx t) (icmp_error_callback t), w).
Proof.
  intros Hkey Hck Hlen Hlen' Hidx. unfold match_icmp_error, take_match. rewrite Hkey.
  injection Hkey as Hd Hl Hc. rewrite Hc, (proj2 (Z.eqb_neq _ 0) Hck). simpl.
  rewrite Hidx. unfold event_of_match. rewrite Hl, Hd, checked_u_Ret; [done|]. unfold is_u. change (2 ^ 16) with 65536.
  destruct is_ip6; lia.
Qed.

Lemma extract_mtu_no_panic packet : no_panic (extract_mtu_from_icmp packet).
Proof.
  unfold extract_mtu_from_icmp. destruct (Nat.ltb_spec (length packet) 28); [apply no_panic_Ret|].
  solve_no_panic.
Qed.

(** ** Properties *)

(** No buffer a raw socket can deliver makes a parser panic, neither the
    two error parsers nor the MTU extraction: every index and slice is in
    range, whatever header length the quoted packet claims. *)
Theorem icmp_parsers_total packet :
  no_panic (parse_icmp_error packet) /\ no_panic (parse_icmpv6_error packet)
  /\ no_panic (extract_mtu_from_icmp packet).
Proof.
  split; [|split].
  - unfold parse_icmp_error. destruct (Nat.ltb_spec (length packet) 56); [apply no_panic_Ret|].
    repeat first [no_panic_step | rewrite checked_u8_header_len; apply no_panic_Ret
                 | progress rewrite Nat.ltb_ge in * | apply slice_no_panic; lia].
  - unfold parse_icmpv6_error, MIN_ICMPV6_PACKET_SIZE, ICMPV6_HEADER_SIZE, IPV6_HEADER_SIZE,
      UDP_HEADER_SIZE. cbn [Nat.add].
    destruct (Nat.ltb_spec (length packet) 56); [apply no_panic_Ret|].
    repeat no_panic_step; apply slice_no_panic; lia.
  - apply extract_mtu_no_panic.
Qed.

(** C19: A traceroute probe over IPv4, end to end.  The UDP layer reports the
    datagram it hands to the kernel; the kernel puts a checksum that verifies
    into it; some router answers with an ICMP error of any class, quoting the
    IP header and any part of the payload.  Then the listener queues exactly one
    event, for the connection that sent the probe, with its payload, TTL,
    sending time and the router's address, the tracked entry is gone, and the
    callback for unmatched errors is not called. *)
Theorem traceroute_probe_matched_v4 {W} (t : PacketTracker W) (w : W)
    src_ip dest_ip sp dp ttl payload conn_id sent_at
    outer rest icmp_type icmp_code h ck quoted router now :
  let src := to_be_bytes 4 src_ip in
  let dst := to_be_bytes 4 dest_ip in
  let len := 8 + Z.of_nat (length payload) in
  let packet := icmp_v4_packet outer rest icmp_type icmp_code h (udp_header sp dp len ck) quoted in
  ch_open (tracking_rx t) = true -> is_u 16 sp -> is_u 16 dp ->
  is_bytes payload -> payload <> [] -> Z.of_nat (length payload) <= 65507 ->
  1 <= ck <= 65535 ->
  ones_sum (pseudo_header_v4 src dst len ++ udp_header sp dp len ck ++ payload) mod 65535 = 0 ->
  length outer = 20%nat -> length rest = 6%nat -> icmp_type ∈ [3; 11; 12] ->
  ipv4_header_wf h -> h4_proto h = 17 -> h4_src h = src -> h4_dst h = dst ->
  exists ch t' event,
    netpoke_track_udp_packet (Some tracking_callback) src_ip sp dest_ip dp len ttl
      (Some payload) conn_id sent_at (tracking_rx t) = Ret ch
    /\ icmp_listener_step_v4 packet router now
         (tracking_receiver_task
            (mkPacketTracker (checksum_index t) (event_queue t) ch (icmp_error_callback t))) w
       = Ret (t', w)
    /\ event_queue t' = event_queue t ++ [event]
    /\ event_probe event = (payload, sent_at, tracking_send_options ttl, conn_id_of conn_id)
    /\ ev_router_ip event = Some (display_ip router)
    /\ ev_original_dest_addr event = display_addr (mkSocketAddr (V4 dst) dp)
    /\ ev_original_src_port event = sp
    /\ checksum_index t' !! mkChecksumKey (mkSocketAddr (V4 dst) dp) len ck = None.
Proof.
  intros src dst len packet Hopen Hsp Hdp Hp Hne Hlen Hck Hsum Ho Hr Hty Hh Hproto Hs Hd.
  assert (ip_wf (V4 src) /\ ip_wf (V4 dst)) as [Wsrc Wdst].
  { split; (split; [apply length_to_be_bytes|apply to_be_bytes_is_bytes]). }
  destruct (udp_checksum_v4_unique src dst sp dp payload Wsrc Wdst Hp ltac:(lia)) as [_ Huniq].
  pose proof (proj2 (Huniq ck) (conj Hck Hsum)) as Hcalc.
  destruct payload as [|b0 pl]; [done|].
  set (info := mkUdpPacketInfo (mkSocketAddr (V4 dst) dp) (Some (mkSocketAddr (V4 src) sp)) len
    (b0 :: pl) (tracking_send_options ttl) sent_at (conn_id_of conn_id) ck).
  exists (ch_send info (tracking_rx t)). unfold netpoke_track_udp_packet.
  fold src dst. rewrite Hcalc. cbn [mbind outcome_bind].
  assert (upi_udp_checksum info <> 0) as Hck0 by (simpl; lia).
  pose proof (after_report_lookup info t Hopen ltac:(done) Hck0) as Hidx.
  unfold icmp_listener_step_v4, packet. rewrite parse_icmp_error_quote; try done;
    try (unfold is_u; change (2 ^ 16) with 65536; lia). cbn [mbind outcome_bind].
  rewrite (match_reported _ _ _ _ _ _ info); [|by rewrite Hd|done|simpl; lia|simpl; lia|exact Hidx].
  eexists _, _. repeat split; simpl. apply lookup_delete_eq.
Qed.

(** The same over IPv6, where the listener's buffer starts at the ICMPv6
    header: an error of any of the three types that quotes the probe yields
    exactly one event for the connection that sent it. *)
Theorem traceroute_probe_matched_v6 {W} (t : PacketTracker W) (w : W)
    src dst sp dp hop_limit payload conn_id sent_at
    rest icmp_type icmp_code nibble fields hop ck quoted router now :
  let len := 8 + Z.of_nat (length payload) in
  let packet := icmp_v6_packet rest icmp_type icmp_code
                  (ipv6_header_bytes nibble fields hop src dst) (udp_header sp dp len ck) quoted in
  ip_wf (V6 src) -> ip_wf (V6 dst) ->
  ch_open (tracking_rx t) = true -> is_u 16 sp -> is_u 16 dp ->
  is_bytes payload -> payload <> [] -> Z.of_nat (length payload) <= 65487 ->
  1 <= ck <= 65535 ->
  ones_sum (pseudo_header_v6 src dst len ++ udp_header sp dp len ck ++ payload) mod 65535 = 0 ->
  length rest = 6%nat -> icmp_type ∈ [1; 2; 3] -> 0 <= nibble <= 15 -> length fields = 5%nat ->
  exists ch t' event,
    netpoke_track_udp_packet_v6 (Some tracking_callback) (Some src) sp (Some dst) dp len hop_limit
      (Some payload) conn_id sent_at (tracking_rx t) = Ret ch
    /\ icmp_listener_step_v6 packet router now
         (tracking_receiver_task
            (mkPacketTracker (checksum_index t) (event_queue t) ch (icmp_error_callback t))) w
       = Ret (t', w)
    /\ event_queue t' = event_queue t ++ [event]
    /\ event_probe event = (payload, sent_at, tracking_send_options hop_limit, conn_id_of conn_id)
    /\ ev_router_ip event = Some (display_ip router)
    /\ ev_original_dest_addr event = display_addr (mkSocketAddr (V6 dst) dp)
    /\ ev_original_src_port event = sp
    /\ checksum_index t' !! mkChecksumKey (mkSocketAddr (V6 dst) dp) len ck = None.
Proof.
  intros len packet Wsrc Wdst Hopen Hsp Hdp Hp Hne Hlen Hck Hsum Hr Hty Hn Hf.
  destruct (udp_checksum_v6_unique src dst sp dp payload Wsrc Wdst Hp ltac:(lia)) as [_ Huniq].
  pose proof (proj2 (Huniq ck) (conj Hck Hsum)) as Hcalc.
  destruct payload as [|b0 pl]; [done|].
  set (info := mkUdpPacketInfo (mkSocketAddr (V6 dst) dp) (Some (mkSocketAddr (V6 src) sp)) len
    (b0 :: pl) (tracking_send_options hop_limit) sent_at (conn_id_of conn_id) ck).
  exists (ch_send info (tracking_rx t)). unfold netpoke_track_udp_packet_v6.
  rewrite Hcalc. cbn [mbind outcome_bind].
  assert (upi_udp_checksum info <> 0) as Hck0 by (simpl; lia).
  pose proof (after_report_lookup info t Hopen ltac:(done) Hck0) as Hidx.
  unfold icmp_listener_step_v6, packet. rewrite parse_icmpv6_error_quote;
    try apply Wsrc; try apply Wdst; try done;
    try (unfold is_u; change (2 ^ 16) with 65536; lia). cbn [mbind outcome_bind].
  rewrite (match_reported _ _ _ _ _ _ info); [|done|done|simpl; lia|simpl; lia|exact Hidx].
  eexists _, _. repeat split; simpl. apply lookup_delete_eq.
Qed.

(** An IPv4 error is classed by its type as the source means it (3 an
    error, 11 an expired TTL, 12 ignored); an ICMPv6 "packet too big" (2) is
    classed an expired hop limit and a "time exceeded" (3) is ignored, so of
    the ICMPv6 errors only "destination unreachable" (1) reaches the callback
    for unmatched errors. *)
Theorem icmp_classes outer rest icmp_code h nibble fields hop src dst sp dp len ck quoted :
  length outer = 20%nat -> length rest = 6%nat -> ipv4_header_wf h -> h4_proto h = 17 ->
  0 <= nibble <= 15 -> length fields = 5%nat -> length src = 16%nat -> length dst = 16%nat ->
  is_u 16 sp -> is_u 16 dp -> is_u 16 len -> is_u 16 ck ->
  let v4 ty := parse_icmp_error
    (icmp_v4_packet outer rest ty icmp_code h (udp_header sp dp len ck) quoted) in
  let v6 ty := parse_icmpv6_error
    (icmp_v6_packet rest ty icmp_code (ipv6_header_bytes nibble fields hop src dst)
       (udp_header sp dp len ck) quoted) in
  let class r := option_map snd <$> r in
  class (v4 3) = Ret (Some ClassError) /\ class (v4 11) = Ret (Some ClassTtlExpired)
  /\ class (v4 12) = Ret (Some ClassIgnore)
  /\ class (v6 1) = Ret (Some ClassError) /\ class (v6 2) = Ret (Some ClassTtlExpired)
  /\ class (v6 3) = Ret (Some ClassIgnore).
Proof.
  intros Ho Hr Hh Hproto Hn Hf Hs Hd Hsp Hdp Hlen Hck v4 v6 class. unfold class, v4, v6.
  rewrite !parse_icmp_error_quote by (done || (apply list_elem_of_In; simpl; tauto)).
  rewrite !parse_icmpv6_error_quote by (done || (apply list_elem_of_In; simpl; tauto)).
  by repeat split.
Qed.

(** The MTU of a "fragmentation needed" error is the one the router put
    into the ICMP header; zero, and every other type or code, gives none. *)
Theorem extract_mtu_of_fragmentation_needed outer ck unused mtu icmp_type icmp_code quote :
  length outer = 20%nat -> length ck = 2%nat -> length unused = 2%nat -> is_u 16 mtu ->
  extract_mtu_from_icmp (outer ++ [icmp_type; icmp_code] ++ ck ++ unused ++ to_be_bytes 2 mtu ++ quote)
  = Ret (if (icmp_type =? 3) && (icmp_code =? 4) && (0 <? mtu) then Some mtu else None).
Proof.
  intros Ho Hc Hu Hmtu. set (p := outer ++ _).
  assert (read_u16_be p 26 = Ret mtu) as H26.
  { unfold p. rewrite !(assoc_L (++)), <- (assoc_L (++)).
    apply read_u16_be_at; [|done]. rewrite !length_app, Ho, Hc, Hu. done. }
  assert (index p 20 = Ret icmp_type /\ index p 21 = Ret icmp_code) as [H20 H21].
  { unfold p. by explode outer Ho. }
  unfold extract_mtu_from_icmp. rewrite H20. cbn [mbind outcome_bind]. rewrite H21.
  cbn [mbind outcome_bind]. rewrite H26. cbn [mbind outcome_bind].
  rewrite (proj2 (Nat.ltb_ge _ _)).
  - by destruct (icmp_type =? 3), (icmp_code =? 4), (0 <? mtu).
  - unfold p. rewrite !length_app, Ho, Hc, Hu, length_to_be_bytes. simpl. lia.
Qed.

(** ** Witnesses *)

Definition sample_h4 : ipv4_header :=
  mkIpv4Header 5 (replicate 8 1) 17 [7; 8] (to_be_bytes 4 167772161) (to_be_bytes 4 167772162) [].

Ltac concrete := first [done | by repeat constructor | by vm_compute; intuition discriminate].

Lemma traceroute_probe_matched_v4_witness :
  exists ch (t' : PacketTracker unit) event,
    netpoke_track_udp_packet (Some tracking_callback) 167772161 5000 167772162 6000 11 3
      (Some [1; 2; 3]) (Some [99]) 77 (mkChannel true []) = Ret ch
    /\ event_queue t' = [event] /\ ev_conn_id event = "c"%string.
Proof.
  edestruct (traceroute_probe_matched_v4 (W := unit) PacketTracker_new tt 167772161 167772162
    5000 6000 3 [1; 2; 3] (Some [99]) 77 (replicate 20 0) (replicate 6 0) 11 0 sample_h4 48347
    [1; 2] (V4 [10; 9; 8; 7]) 99) as (ch & t' & ev & Hch & _ & Hq & Hev & _); try concrete.
  exists ch, t', ev. split; [exact Hch|]. split; [exact Hq|]. by injection Hev.
Defined.

