(* ===== verification/State.v ===== *)
(** * Session state (server/src/state.rs, auth/src/config.rs)

    The records the tasks of a client session share.  Each [Arc<RwLock<_>>] or
    [Arc<Mutex<_>>] field of the source is a plain field here: the operations
    of the other files are the critical sections.  An [Arc] of a WebRTC object
    (peer connection, data channel) is its identity, a [handle]; the services
    shared by all sessions are arguments of the operations that use them. *)

From stdpp Require Import base list gmap strings.
From coqutil Require Export Datatypes.RecordSetters.
From Stdlib Require Import ZArith Lia.
From S2P Require Import Prelude F64 Protocol.
Export DoubleBraceUpdate.
Local Open Scope Z_scope.

Abbreviation handle := nat (only parsing).

(** ** Magic keys *)

Record MagicKeyConfig := mkMagicKeyConfig {
  mk_enabled : bool;
  mk_magic_keys : list string;
  mk_survey_cookie_name : string;
  mk_survey_timeout_seconds : Z;
  mk_max_measuring_time_seconds : Z;
  mk_magic_key_max_measuring_time : gmap string Z }.

Definition MagicKeyConfig_default : MagicKeyConfig :=
  mkMagicKeyConfig false [] "survey_session_id" 28800 3600 ∅.

Definition get_max_measuring_time_seconds (c : MagicKeyConfig) (magic_key : string) : Z :=
  match mk_magic_key_max_measuring_time c !! magic_key with
  | Some override_seconds => override_seconds
  | None => if (magic_key =? "DEMO")%string then 120 else mk_max_measuring_time_seconds c
  end.

(** ** Measurement state *)

Record ReceivedProbe := mkReceivedProbe {
  rp_seq : Z; rp_sent_at_ms : Z; rp_received_at_ms : Z }.

Record ReceivedBulk := mkReceivedBulk { rb_bytes : Z; rb_received_at_ms : Z }.

Record SentBulk := mkSentBulk { sb_bytes : Z; sb_sent_at_ms : Z }.

Record SentProbe := mkSentProbe { sp_seq : Z; sp_sent_at_ms : Z }.

Record EchoedProbe := mkEchoedProbe {
  ep_seq : Z; ep_sent_at_ms : Z; ep_echoed_at_ms : Z }.

Record ReceivedMeasurementProbe := mkReceivedMeasurementProbe {
  rmp_seq : Z; rmp_sent_at_ms : Z; rmp_received_at_ms : Z; rmp_feedback : ProbeFeedback }.

Record MeasurementState := mkMeasurementState {
  ms_probe_seq : Z;
  ms_testprobe_seq : Z;
  ms_current_ttl : Z;
  ms_path_ttl : option Z;
  ms_stop_traceroute : bool;
  ms_traceroute_started_at : option Instant;
  ms_traffic_active : bool;
  ms_bulk_bytes_sent : Z;
  ms_received_probes : list ReceivedProbe;
  ms_received_bulk_bytes : list ReceivedBulk;
  ms_sent_bulk_packets : list SentBulk;
  ms_sent_probes : list SentProbe;
  ms_sent_probes_map : gmap Z SentProbe;
  ms_echoed_probes : list EchoedProbe;
  ms_sent_testprobes : list SentProbe;
  ms_sent_testprobes_map : gmap Z SentProbe;
  ms_echoed_testprobes : list EchoedProbe;
  ms_last_received_seq : option Z;
  ms_probe_streams_active : bool;
  ms_probe_streams_started_at : option Instant;
  ms_max_measuring_duration : option Duration;
  ms_measurement_probe_seq : Z;
  ms_received_measurement_probes : list ReceivedMeasurementProbe;
  ms_probe_stats : list DirectionStats;
  ms_client_reported_s2c_stats : option DirectionStats;
  ms_baseline_delay_sum : f64;
  ms_baseline_delay_count : Z;
  ms_last_feedback : ProbeFeedback }.

Definition MeasurementState_new : MeasurementState :=
  mkMeasurementState 0 0 1 None false None false 0 [] [] [] [] ∅ [] [] ∅ [] None
    false None None 0 [] [] None f64_zero 0 ProbeFeedback_default.

(** ** Sessions *)

Record DataChannels := mkDataChannels {
  dc_probe : option handle;
  dc_bulk : option handle;
  dc_control : option handle;
  dc_testprobe : option handle }.

Definition DataChannels_new : DataChannels := mkDataChannels None None None None.

Definition is_some {A} (o : option A) : bool := match o with Some _ => true | None => false end.

Definition all_ready (c : DataChannels) : bool :=
  is_some (dc_probe c) && is_some (dc_bulk c) && is_some (dc_control c) && is_some (dc_testprobe c).

Record ClientSession := mkClientSession {
  cs_id : string;
  cs_parent_id : option string;
  cs_ip_version : option string;
  cs_mode : option string;
  cs_conn_id : string;
  cs_survey_session_id : string;
  cs_peer_connection : handle;
  cs_data_channels : DataChannels;
  cs_metrics : ClientMetrics;
  cs_measurement_state : MeasurementState;
  cs_connected_at : Instant;
  cs_ice_candidates : list string;
  cs_peer_address : option (string * Z);
  cs_icmp_error_count : Z;
  cs_last_icmp_error : option Instant;
  cs_magic_key : option string;
  cs_magic_key_config : option MagicKeyConfig }.
