(* ===== verification/Measurements.v ===== *)
(** * Measurements (server/src/measurements.rs)

    The senders and receivers of the measurement traffic of a session, the
    metrics over the last 1, 10 and 60 seconds, and the probe streams with their
    baseline, feedback and percentiles.  A sender's loop is modelled by its
    iteration ([..._tick]), a handler by its critical sections and their
    composition.  Clocks, readiness and results of sends are observations handed
    to each operation; what it sends comes back as a list of effects.  serde's
    encoders and decoders are parameters.  Log statements are left out, their
    arguments being evaluated only when the level is enabled. *)

From stdpp Require Import base list gmap strings.
From Stdlib Require Import ZArith Lia SpecFloat Sorting.Sorted.
From S2P Require Import Prelude Net F64 Protocol State.
Local Open Scope Z_scope.

(** The tasks the control messages start. *)
Inductive task :=
  | TracerouteRound
  | MtuTracerouteRound (packet_size path_ttl collect_timeout_ms : Z)
  | ProbeSender
  | BulkSender
  | MeasurementProbeSender
  | ProbeStatsReporter.

(** What a task does to the outside. *)
Inductive effect :=
  | Send (channel : handle) (data : bytes)
  | SendWithOptions (channel : handle) (data : bytes) (options : UdpSendOptions)
  | RecordProbeStats (survey_session_id conn_id : string) (timestamp_ms : Z)
      (c2s_stats s2c_stats : DirectionStats)
  | UpdateSessionTimestamp (survey_session_id : string)
  | CreateSurveySession (survey_session_id magic_key : string)
  | Spawn (t : task).

Inductive loop_control := Continue | Stop.

(** One iteration of a sender: the clocks it reads, which channels are open and
    whether the send succeeds. *)
Record tick_obs := mkTickObs {
  to_ready : handle -> bool;
  to_now_ms : Z;
  to_now : Instant;
  to_send_ok : bool }.

(** A channel that is there and open. *)
Definition ready_channel (ready : handle -> bool) (c : option handle) : option handle :=
  match c with Some ch => if ready ch then Some ch else None | None => None end.

(** ** Queues

    [while let Some(p) = q.front() { if old(p) { q.pop_front() } else { break } }]:
    what is popped and what is kept. *)

Fixpoint pop_front_while {A} (old : A -> bool) (q : list A) : list A * list A :=
  match q with
  | [] => ([], [])
  | p :: q' =>
      if old p then let '(popped, kept) := pop_front_while old q' in (p :: popped, kept)
      else ([], q)
  end.

(** A sent probe enters its queue and its index; those sent over 60 seconds ago
    leave both. *)
Definition push_sent (sent : SentProbe) (q : list SentProbe) (m : gmap Z SentProbe)
    : outcome (list SentProbe * gmap Z SentProbe) :=
  let q := q ++ [sent] in
  let m := <[sp_seq sent := sent]> m in
  cutoff ← checked_u 64 (sp_sent_at_ms sent - 60000);
  let '(popped, kept) := pop_front_while (fun p => sp_sent_at_ms p <? cutoff) q in
  Ret (kept, foldl (fun m p => delete (sp_seq p) m) m popped).

(** ** Senders of the measurement phase *)

Definition record_sent_probe (sent_at_ms : Z) (st : MeasurementState)
    : outcome (Z * MeasurementState) :=
  let seq := ms_probe_seq st in
  next ← checked_u 64 (seq + 1);
  qm ← push_sent (mkSentProbe seq sent_at_ms) (ms_sent_probes st) (ms_sent_probes_map st);
  Ret (seq, st {{ ms_probe_seq := next; ms_sent_probes := qm.1; ms_sent_probes_map := qm.2 }}).

Definition record_sent_bulk (bytes_sent sent_at_ms : Z) (st : MeasurementState)
    : outcome MeasurementState :=
  total ← checked_u 64 (ms_bulk_bytes_sent st + bytes_sent);
  cutoff ← checked_u 64 (sent_at_ms - 60000);
  Ret (st {{ ms_bulk_bytes_sent := total;
             ms_sent_bulk_packets :=
               snd (pop_front_while (fun b => sb_sent_at_ms b <? cutoff)
                      (ms_sent_bulk_packets st ++ [mkSentBulk bytes_sent sent_at_ms])) }}).

Section senders.
  (** [serde_json::to_vec] at the packet types. *)
  Context (probe_to_vec : ProbePacket -> option bytes)
    (bulk_to_vec : BulkPacket -> option bytes)
    (measurement_to_vec : MeasurementProbePacket -> option bytes).

Definition start_probe_sender_tick (o : tick_obs) (s : ClientSession)
    : outcome (loop_control * ClientSession * list effect) :=
  if negb (ms_traffic_active (cs_measurement_state s)) then Ret (Stop, s, [])
  else
    match ready_channel (to_ready o) (dc_probe (cs_data_channels s)) with
    | None => Ret (Continue, s, [])
    | Some probe_channel =>
        let sent_at_ms := to_now_ms o in
        r ← record_sent_probe sent_at_ms (cs_measurement_state s);
        let s := s {{ cs_measurement_state := r.2 }} in
        let probe := mkProbePacket r.1 sent_at_ms ServerToClient None (cs_conn_id s) in
        match probe_to_vec probe with
        | Some json =>
            Ret (if to_send_ok o then Continue else Stop, s, [Send probe_channel json])
        | None => Ret (Continue, s, [])
        end
    end.

Definition start_bulk_sender_tick (o : tick_obs) (s : ClientSession)
    : outcome (loop_control * ClientSession * list effect) :=
  if negb (ms_traffic_active (cs_measurement_state s)) then Ret (Stop, s, [])
  else
    match ready_channel (to_ready o) (dc_bulk (cs_data_channels s)) with
    | None => Ret (Continue, s, [])
    | Some bulk_channel =>
        match bulk_to_vec (BulkPacket_new 1024) with
        | Some data =>
            if negb (to_send_ok o) then Ret (Stop, s, [Send bulk_channel data])
            else
              st ← record_sent_bulk (Z.of_nat (length data)) (to_now_ms o) (cs_measurement_state s);
              Ret (Continue, s {{ cs_measurement_state := st }}, [Send bulk_channel data])
        | None => Ret (Continue, s, [])
        end
    end.

(** ** Senders of the probe streams *)

(** [elapsed() >= max_duration] for a limited stream. *)
Definition measuring_time_exceeded (now : Instant) (st : MeasurementState) : bool :=
  match ms_probe_streams_started_at st, ms_max_measuring_duration st with
  | Some started_at, Some max_duration => max_duration <=? Z.max 0 (now - started_at)
  | _, _ => false
  end.

(** The section under the write lock: stop, or the number and feedback of the
    next probe. *)
Definition next_measurement_probe (now : Instant) (st : MeasurementState)
    : outcome (option (Z * ProbeFeedback) * MeasurementState) :=
  if negb (ms_probe_streams_active st) then Ret (None, st)
  else if measuring_time_exceeded now st then
    Ret (None, st {{ ms_probe_streams_active := false }})
  else
    let seq := ms_measurement_probe_seq st in
    next ← checked_u 64 (seq + 1);
    Ret (Some (seq, ms_last_feedback st), st {{ ms_measurement_probe_seq := next }}).

Definition start_measurement_probe_sender_tick (o : tick_obs) (s : ClientSession)
    : outcome (loop_control * ClientSession * list effect) :=
  r ← next_measurement_probe (to_now o) (cs_measurement_state s);
  let s := s {{ cs_measurement_state := r.2 }} in
  match r.1 with
  | None => Ret (Stop, s, [])
  | Some (seq, feedback) =>
      match ready_channel (to_ready o) (dc_probe (cs_data_channels s)) with
      | None => Ret (Continue, s, [])
      | Some probe_channel =>
          let probe :=
            mkMeasurementProbePacket seq (to_now_ms o) ServerToClient (cs_conn_id s) feedback in
          match measurement_to_vec probe with
          | Some json =>
              Ret (if to_send_ok o then Continue else Stop, s, [Send probe_channel json])
          | None => Ret (Continue, s, [])
          end
      end
  end.

End senders.

(** ** Statistics over a window

    The two directions run the same code on the numbers, start and end times of
    the probes of the window: the delays, their mean and deviation, losses and
    reorderings. *)

Record timed_probe := mkTimedProbe { pr_seq : Z; pr_start_ms : Z; pr_end_ms : Z }.

Definition of_received (p : ReceivedProbe) : timed_probe :=
  mkTimedProbe (rp_seq p) (rp_sent_at_ms p) (rp_received_at_ms p).
Definition of_echoed (p : EchoedProbe) : timed_probe :=
  mkTimedProbe (ep_seq p) (ep_sent_at_ms p) (ep_echoed_at_ms p).
Definition of_measurement (p : ReceivedMeasurementProbe) : timed_probe :=
  mkTimedProbe (rmp_seq p) (rmp_sent_at_ms p) (rmp_received_at_ms p).

(** [(end as i64 - start as i64) as f64] *)
Definition delay_of (p : timed_probe) : outcome f64 :=
  d ← checked_i 64 (as_i 64 (pr_end_ms p) - as_i 64 (pr_start_ms p));
  Ret (f64_of_Z d).

Fixpoint map_outcome {A B} (f : A -> outcome B) (l : list A) : outcome (list B) :=
  match l with
  | [] => Ret []
  | a :: l => b ← f a; bs ← map_outcome f l; Ret (b :: bs)
  end.

(** [iter().map(seq).min()] and [max()]. *)
Definition seq_min (ps : list timed_probe) : option Z :=
  match ps with [] => None | p :: ps => Some (foldl (fun m q => Z.min m (pr_seq q)) (pr_seq p) ps) end.
Definition seq_max (ps : list timed_probe) : option Z :=
  match ps with [] => None | p :: ps => Some (foldl (fun m q => Z.max m (pr_seq q)) (pr_seq p) ps) end.

(** The loop that counts the probes that come after a higher number. *)
Definition count_reorders (w : Z -> outcome Z) (ps : list timed_probe) : outcome Z :=
  r ← for_each ps (fun p '(reorders, max_seq_seen) =>
        reorders ← (if pr_seq p <? max_seq_seen then w (reorders + 1) else Ret reorders);
        Ret (reorders, Z.max max_seq_seen (pr_seq p))) (0, 0);
  Ret r.1.

Definition f64_len {A} (l : list A) : f64 := f64_of_Z (Z.of_nat (length l)).

(** [(expected - received) / expected * 100.0).max(0.0)] *)
Definition loss_percentage (expected received : f64) : f64 :=
  f64_max (f64_mul (f64_div (f64_sub expected received) expected) (f64_of_Z 100)) f64_zero.

Record window_metrics := mkWindowMetrics {
  wm_delay_avg : f64; wm_jitter : f64; wm_loss_rate : f64; wm_reorder_rate : f64 }.

Definition window_metrics_default : window_metrics :=
  mkWindowMetrics f64_zero f64_zero f64_zero f64_zero.

Definition probe_window (ps : list timed_probe) : outcome window_metrics :=
  if (length ps =? 0)%nat then Ret window_metrics_default
  else
    delays ← map_outcome delay_of ps;
    let avg_delay := f64_div (f64_sum delays) (f64_len delays) in
    let variance :=
      f64_div (f64_sum (map (fun d => f64_square (f64_sub d avg_delay)) delays)) (f64_len delays) in
    loss ← (if (2 <=? length ps)%nat then
              match seq_min ps, seq_max ps with
              | Some min_seq, Some max_seq =>
                  d ← checked_u 64 (max_seq - min_seq);
                  d ← checked_u 64 (d + 1);
                  Ret (loss_percentage (f64_of_Z d) (f64_len ps))
              | _, _ => Panic UnwrapOnNone
              end
            else Ret f64_zero);
    reorders ← count_reorders (checked_i 32) ps;
    Ret (mkWindowMetrics avg_delay (f64_sqrt variance) loss
           (f64_mul (f64_div (f64_of_Z reorders) (f64_len ps)) (f64_of_Z 100))).

(** [iter().map(|b| b.bytes).sum::<u64>() as f64 / (window_ms as f64 / 1000.0)] *)
Definition throughput (window_ms : Z) (sizes : list Z) : outcome f64 :=
  if (length sizes =? 0)%nat then Ret f64_zero
  else
    total_bytes ← for_each sizes (fun b total => checked_u 64 (total + b)) 0;
    Ret (f64_div (f64_of_Z total_bytes) (f64_div (f64_of_Z window_ms) (f64_of_Z 1000))).

Definition metrics_windows : list Z := [1000; 10000; 60000].

Definition recent_received (cutoff : Z) (st : MeasurementState) : list timed_probe :=
  map of_received (List.filter (fun p => cutoff <=? rp_received_at_ms p) (ms_received_probes st)).
Definition recent_echoed (cutoff : Z) (st : MeasurementState) : list timed_probe :=
  map of_echoed (List.filter (fun p => cutoff <=? ep_echoed_at_ms p) (ms_echoed_probes st)).
Definition recent_bulk (cutoff : Z) (st : MeasurementState) : list Z :=
  map rb_bytes (List.filter (fun b => cutoff <=? rb_received_at_ms b) (ms_received_bulk_bytes st)).
Definition recent_sent_bulk (cutoff : Z) (st : MeasurementState) : list Z :=
  map sb_bytes (List.filter (fun b => cutoff <=? sb_sent_at_ms b) (ms_sent_bulk_packets st)).

(** One pass of the loop over the windows: the [i]th entry of every array. *)
Definition metrics_of_window (now_ms window_ms : Z) (st : MeasurementState)
    : outcome (window_metrics * f64 * f64 * window_metrics) :=
  let cutoff := saturating_sub now_ms window_ms in
  c2s ← probe_window (recent_received cutoff st);
  c2s_throughput ← throughput window_ms (recent_bulk cutoff st);
  s2c_throughput ← throughput window_ms (recent_sent_bulk cutoff st);
  s2c ← probe_window (recent_echoed cutoff st);
  Ret (c2s, c2s_throughput, s2c_throughput, s2c).

Definition calculate_metrics (now_ms : Z) (st : MeasurementState) : outcome ClientMetrics :=
  ws ← map_outcome (fun window_ms => metrics_of_window now_ms window_ms st) metrics_windows;
  let c2s := map (fun w => w.1.1.1) ws in
  let s2c := map (fun w => w.2) ws in
  Ret (mkClientMetrics (map (fun w => w.1.1.2) ws) (map (fun w => w.1.2) ws)
         (map wm_delay_avg c2s) (map wm_delay_avg s2c) (map wm_jitter c2s) (map wm_jitter s2c)
         (map wm_loss_rate c2s) (map wm_loss_rate s2c)
         (map wm_reorder_rate c2s) (map wm_reorder_rate s2c)).

(** ** Receivers of the measurement phase *)

(** The section of [handle_probe_packet] under the write lock. *)
Definition record_probe_packet (now_ms : Z) (probe : ProbePacket) (st : MeasurementState)
    : outcome MeasurementState :=
  if decide (probe_direction probe = ServerToClient) then
    match ms_sent_probes_map st !! probe_seq probe with
    | Some sent_probe =>
        let echoed := mkEchoedProbe (probe_seq probe) (sp_sent_at_ms sent_probe)
                        (probe_timestamp_ms probe) in
        cutoff ← checked_u 64 (now_ms - 60000);
        Ret (st {{ ms_echoed_probes :=
                     snd (pop_front_while (fun p => ep_echoed_at_ms p <? cutoff)
                            (ms_echoed_probes st ++ [echoed])) }})
    | None => Ret st
    end
  else
    let received := mkReceivedProbe (probe_seq probe) (probe_timestamp_ms probe) now_ms in
    cutoff ← checked_u 64 (now_ms - 60000);
    Ret (st {{ ms_received_probes :=
                 snd (pop_front_while (fun p => rp_received_at_ms p <? cutoff)
                        (ms_received_probes st ++ [received])) }}).

Definition record_bulk_packet (now_ms bytes : Z) (st : MeasurementState)
    : outcome MeasurementState :=
  cutoff ← checked_u 64 (now_ms - 60000);
  Ret (st {{ ms_received_bulk_bytes :=
               snd (pop_front_while (fun b => rb_received_at_ms b <? cutoff)
                      (ms_received_bulk_bytes st ++ [mkReceivedBulk bytes now_ms])) }}).

(** [calculate_metrics(session)], which reads the clock again. *)
Definition update_metrics (now_ms : Z) (s : ClientSession) : outcome ClientSession :=
  metrics ← calculate_metrics now_ms (cs_measurement_state s);
  Ret (s {{ cs_metrics := metrics }}).

Definition handle_bulk_packet (now_ms metrics_now_ms : Z) (data : bytes) (s : ClientSession)
    : outcome ClientSession :=
  st ← record_bulk_packet now_ms (Z.of_nat (length data)) (cs_measurement_state s);
  update_metrics metrics_now_ms (s {{ cs_measurement_state := st }}).

(** An echoed test probe: the first echo with a TTL is the length of the path. *)
Definition record_testprobe_echo (now_ms : Z) (testprobe : TestProbePacket)
    (st : MeasurementState) : outcome MeasurementState :=
  if decide (test_direction testprobe = ServerToClient) then
    match (opts ← test_send_options testprobe; ttl opts) with
    | Some ttl =>
        Ret (match ms_path_ttl st with
             | None => st {{ ms_path_ttl := Some ttl }}
             | Some _ => st
             end)
    | None =>
        match ms_sent_testprobes_map st !! test_seq testprobe with
        | Some sent_testprobe =>
            let echoed := mkEchoedProbe (test_seq testprobe) (sp_sent_at_ms sent_testprobe)
                            (test_timestamp_ms testprobe) in
            cutoff ← checked_u 64 (now_ms - 60000);
            Ret (st {{ ms_echoed_testprobes :=
                         snd (pop_front_while (fun p => ep_echoed_at_ms p <? cutoff)
                                (ms_echoed_testprobes st ++ [echoed])) }})
        | None => Ret st
        end
    end
  else Ret st.

Definition handle_testprobe_echo_packet (now_ms : Z) (testprobe : TestProbePacket)
    (s : ClientSession) : outcome ClientSession :=
  if negb (test_conn_id testprobe =? cs_conn_id s)%string then Ret s
  else
    st ← record_testprobe_echo now_ms testprobe (cs_measurement_state s);
    Ret (s {{ cs_measurement_state := st }}).

(** ** Receivers of the probe streams *)

Definition baseline_of (st : MeasurementState) (default : f64) : f64 :=
  if 0 <? ms_baseline_delay_count st
  then f64_div (ms_baseline_delay_sum st) (f64_of_Z (ms_baseline_delay_count st))
  else default.

(** Whether a delay counts towards the baseline. *)
Definition in_baseline (delay : f64) (st : MeasurementState) : bool :=
  let baseline := baseline_of st delay in
  let deviation_from_baseline := f64_abs (f64_sub delay baseline) in
  let baseline_threshold := f64_mul (f64_abs baseline) BASELINE_OUTLIER_MULTIPLIER in
  (ms_baseline_delay_count st <? BASELINE_MIN_SAMPLES)
  || f64_ltb deviation_from_baseline (f64_max baseline_threshold BASELINE_MIN_THRESHOLD_MS).

Definition update_baseline (delay : f64) (st : MeasurementState) : outcome MeasurementState :=
  if in_baseline delay st then
    count ← checked_u 64 (ms_baseline_delay_count st + 1);
    Ret (st {{ ms_baseline_delay_sum := f64_add (ms_baseline_delay_sum st) delay;
               ms_baseline_delay_count := count }})
  else Ret st.

(** The loop that counts the probes of the feedback window. *)
Definition count_recent (feedback_cutoff : Z) (ps : list ReceivedMeasurementProbe)
    : outcome (Z * Z) :=
  r ← for_each ps (fun p '(recent_count, recent_reorders, last_seq) =>
        if feedback_cutoff <=? rmp_received_at_ms p then
          recent_count ← checked_u 32 (recent_count + 1);
          recent_reorders ←
            (if rmp_seq p <? last_seq then checked_u 32 (recent_reorders + 1)
             else Ret recent_reorders);
          Ret (recent_count, recent_reorders, Z.max last_seq (rmp_seq p))
        else Ret (recent_count, recent_reorders, last_seq)) (0, 0, 0);
  Ret r.1.

(** The section under the write lock. *)
Definition record_measurement_probe (now_ms : Z) (delay : f64) (probe : MeasurementProbePacket)
    (st : MeasurementState) : outcome MeasurementState :=
  if negb (ms_probe_streams_active st) then Ret st
  else
    let received :=
      mkReceivedMeasurementProbe (mp_seq probe) (mp_sent_at_ms probe) now_ms (mp_feedback probe) in
    let st := st {{ ms_received_measurement_probes ::= fun q => q ++ [received] }} in
    st ← update_baseline delay st;
    let cutoff := saturating_sub now_ms PROBE_STATS_WINDOW_MS in
    let kept :=
      snd (pop_front_while (fun p => rmp_received_at_ms p <? cutoff)
             (ms_received_measurement_probes st)) in
    counts ← count_recent (saturating_sub now_ms PROBE_FEEDBACK_WINDOW_MS) kept;
    Ret (st {{ ms_received_measurement_probes := kept;
               ms_last_feedback :=
                 mkProbeFeedback (Z.max (highest_seq (ms_last_feedback st)) (mp_seq probe))
                   now_ms counts.1 counts.2 }}).

Section receivers.
  (** [serde_json::from_slice] at the packet types. *)
  Context (probe_from_slice : bytes -> option ProbePacket)
    (testprobe_from_slice : bytes -> option TestProbePacket)
    (measurement_from_slice : bytes -> option MeasurementProbePacket).

Definition handle_probe_packet (now_ms metrics_now_ms : Z) (data : bytes) (s : ClientSession)
    : outcome ClientSession :=
  match probe_from_slice data with
  | Some probe =>
      if negb (probe_conn_id probe =? cs_conn_id s)%string then Ret s
      else
        st ← record_probe_packet now_ms probe (cs_measurement_state s);
        update_metrics metrics_now_ms (s {{ cs_measurement_state := st }})
  | None => Ret s
  end.

Definition handle_testprobe_packet (now_ms : Z) (data : bytes) (s : ClientSession)
    : outcome ClientSession :=
  match testprobe_from_slice data with
  | Some testprobe => handle_testprobe_echo_packet now_ms testprobe s
  | None => Ret s
  end.

Definition handle_measurement_probe_packet (now_ms : Z) (data : bytes) (s : ClientSession)
    : outcome ClientSession :=
  match measurement_from_slice data with
  | Some probe =>
      if negb (mp_conn_id probe =? cs_conn_id s)%string then Ret s
      else
        delay ← delay_of (mkTimedProbe (mp_seq probe) (mp_sent_at_ms probe) now_ms);
        st ← record_measurement_probe now_ms delay probe (cs_measurement_state s);
        Ret (s {{ cs_measurement_state := st }})
  | None => Ret s
  end.

End receivers.

(** ** Statistics of the probe streams *)

(** The four percentiles of a sorted list: 50th, 99th, least and greatest. *)
Definition percentiles (i50 i99 : nat) (sorted : list f64) : outcome (list f64) :=
  p50 ← index sorted i50;
  p99 ← index sorted i99;
  Ret [p50; p99; default f64_zero (head sorted); default f64_zero (last sorted)].

(** The differences of consecutive delays. *)
Definition jitters_of (ps : list timed_probe) : outcome (list f64) :=
  r ← for_each ps (fun p '(jitters, prev_delay) =>
        delay ← delay_of p;
        Ret (match prev_delay with
             | Some prev => jitters ++ [f64_abs (f64_sub delay prev)]
             | None => jitters
             end, Some delay)) ([], None);
  Ret r.1.

Definition calculate_probe_stream_stats (now_ms : Z) (st : MeasurementState)
    : outcome DirectionStats :=
  let stats_cutoff := saturating_sub now_ms PROBE_FEEDBACK_WINDOW_MS in
  let recent_probes :=
    map of_measurement
      (List.filter (fun p => stats_cutoff <=? rmp_received_at_ms p)
         (ms_received_measurement_probes st)) in
  if (length recent_probes =? 0)%nat then Ret DirectionStats_default
  else
    let baseline := baseline_of st f64_zero in
    delays ← map_outcome delay_of recent_probes;
    let delay_deviations := f64_sort (map (fun delay => f64_sub delay baseline) delays) in
    let len := length delay_deviations in
    delay_deviation_ms ←
      percentiles (len / 2) (Nat.min (len * 99 / 100) (len - 1)) delay_deviations;
    jitters ← jitters_of recent_probes;
    let jitters := f64_sort jitters in
    let jitter_len := Nat.max (length jitters) 1 in
    jitter_ms ←
      (if (length jitters =? 0)%nat then Ret (zeros 4)
       else percentiles (jitter_len / 2) (jitter_len * 99 / 100) jitters);
    let min_seq := default 0 (seq_min recent_probes) in
    let max_seq := default 0 (seq_max recent_probes) in
    expected ← checked_u 64 (saturating_sub max_seq min_seq + 1);
    let expected := f64_of_Z expected in
    let received := f64_len recent_probes in
    let loss_rate :=
      if f64_gtb expected f64_zero then loss_percentage expected received else f64_zero in
    reorders ← count_reorders (checked_i 32) recent_probes;
    let reorder_rate :=
      if (0 <? length recent_probes)%nat
      then f64_mul (f64_div (f64_of_Z reorders) received) (f64_of_Z 100) else f64_zero in
    Ret (mkDirectionStats delay_deviation_ms (zeros 4) jitter_ms loss_rate reorder_rate
           (as_u 32 (Z.of_nat (length recent_probes))) baseline).

(** One report per second; the clock is read for the time limit, for the
    statistics and for the time stamp. *)
Record report_obs := mkReportObs {
  ro_ready : handle -> bool;
  ro_limit_now : Instant;
  ro_stats_now_ms : Z;
  ro_timestamp_ms : Z;
  ro_ready_to_send : handle -> bool }.

Section reporter.
  Context (control_to_vec : ControlMessage -> option bytes)
    (has_metrics_recorder has_session_manager : bool).

Definition start_probe_stats_reporter_tick (o : report_obs) (s : ClientSession)
    : outcome (loop_control * ClientSession * list effect) :=
  let st := cs_measurement_state s in
  let stopped := s {{ cs_measurement_state := st {{ ms_probe_streams_active := false }} }} in
  if negb (ms_probe_streams_active st) then Ret (Stop, s, [])
  else
    match ready_channel (ro_ready o) (dc_control (cs_data_channels s)) with
    | None => Ret (Stop, stopped, [])
    | Some _ =>
        if measuring_time_exceeded (ro_limit_now o) st then Ret (Stop, stopped, [])
        else
          c2s_stats ← calculate_probe_stream_stats (ro_stats_now_ms o) st;
          let survey_session_id := cs_survey_session_id s in
          let s2c_stats := default DirectionStats_default (ms_client_reported_s2c_stats st) in
          let timestamp_ms := ro_timestamp_ms o in
          let recorded :=
            if has_metrics_recorder && negb (survey_session_id =? String.EmptyString)%string then
              RecordProbeStats survey_session_id (cs_conn_id s) timestamp_ms c2s_stats s2c_stats
              :: (if has_session_manager then [UpdateSessionTimestamp survey_session_id] else [])
            else [] in
          let report :=
            ProbeStats (mkProbeStatsReport (cs_conn_id s) survey_session_id timestamp_ms
                          c2s_stats s2c_stats) in
          let sent :=
            match ready_channel (ro_ready_to_send o) (dc_control (cs_data_channels s)) with
            | Some control =>
                match control_to_vec report with
                | Some msg_json => [Send control msg_json]
                | None => []
                end
            | None => []
            end in
          Ret (Continue, s, recorded ++ sent)
    end.

End reporter.

(** ** Queue lemmas *)

Lemma pop_front_while_app {A} old (q : list A) :
  (pop_front_while old q).1 ++ (pop_front_while old q).2 = q.
Proof.
  induction q as [|p q IH]; simpl; [done|]. destruct (old p); [|done].
  destruct (pop_front_while old q) as [popped kept]. simpl in *. by rewrite IH.
Qed.

(** On a queue in the order of its time stamps, popping the old ones from the
    front keeps exactly those at or after the cut-off. *)
Lemma pop_front_while_sorted {A} (at_ms : A -> Z) cutoff (q : list A) :
  StronglySorted (fun a b => at_ms a <= at_ms b) q ->
  snd (pop_front_while (fun p => at_ms p <? cutoff) q)
  = List.filter (fun p => cutoff <=? at_ms p) q.
Proof.
  induction 1 as [|p q Hq IH Hp]; simpl; [done|].
  destruct (Z.ltb_spec (at_ms p) cutoff).
  - destruct (Z.leb_spec cutoff (at_ms p)); [lia|].
    destruct (pop_front_while _ q) as [popped kept]. exact IH.
  - destruct (Z.leb_spec cutoff (at_ms p)); [|lia]. simpl. f_equal.
    clear IH Hq. induction Hp as [|p' q Hp' _ IH]; simpl; [done|].
    destruct (Z.leb_spec cutoff (at_ms p')); [|lia]. by f_equal.
Qed.

Lemma pop_front_while_last {A} old (q : list A) p :
  old p = false -> In p (snd (pop_front_while old (q ++ [p]))).
Proof.
  intros Hp. induction q as [|x q IH]; simpl; [rewrite Hp; by left|].
  destruct (old x).
  - by destruct (pop_front_while old (q ++ [p])).
  - simpl. right. apply in_app_iff. right. by left.
Qed.

(** A queue trimmed from the front against the whole history: the entries that
    are gone are older than the cut-off of the last trim. *)
Definition trimmed {A} (at_ms : A -> Z) (cutoff : Z) (full q : list A) : Prop :=
  exists gone, full = gone ++ q /\ Forall (fun p => at_ms p < cutoff) gone.

Lemma trimmed_push {A} (at_ms : A -> Z) c c' full q (p : A) :
  c <= c' -> trimmed at_ms c full q ->
  trimmed at_ms c' (full ++ [p])
    (snd (pop_front_while (fun p => at_ms p <? c') (q ++ [p]))).
Proof.
  intros Hc (gone & -> & Hgone).
  exists (gone ++ (pop_front_while (fun p => at_ms p <? c') (q ++ [p])).1). split.
  - by rewrite <- !(assoc_L (++)), pop_front_while_app.
  - apply Forall_app. split; [eapply Forall_impl; [done|]; simpl; lia|].
    generalize (q ++ [p]). intros k. induction k as [|x k IH]; simpl; [constructor|].
    destruct (Z.ltb_spec (at_ms x) c'); [|constructor].
    destruct (pop_front_while _ k) as [popped kept]. simpl in *. by constructor.
Qed.

Lemma trimmed_mono {A} (at_ms : A -> Z) c c' full q :
  c <= c' -> trimmed at_ms c full q -> trimmed at_ms c' full q.
Proof.
  intros Hc (gone & -> & Hgone). exists gone. split; [done|].
  eapply Forall_impl; [done|]. simpl. lia.
Qed.

(** Trimming is invisible to whoever looks no further back. *)
Lemma trimmed_filter {A} (at_ms : A -> Z) c cutoff full q :
  trimmed at_ms c full q -> c <= cutoff ->
  List.filter (fun p => cutoff <=? at_ms p) q = List.filter (fun p => cutoff <=? at_ms p) full.
Proof.
  intros (gone & -> & Hgone) Hc. rewrite List.filter_app.
  replace (List.filter _ gone) with (@nil A); [done|].
  induction Hgone as [|p gone Hp _ IH]; simpl; [done|].
  destruct (Z.leb_spec cutoff (at_ms p)); [lia|done].
Qed.

(** ** Loops *)

Lemma map_outcome_Forall2 {A B} (f : A -> outcome B) l bs :
  map_outcome f l = Ret bs <-> Forall2 (fun a b => f a = Ret b) l bs.
Proof.
  revert bs. induction l as [|a l IH]; intros bs; simpl.
  - split; [by intros [= <-]|]. by inversion 1.
  - split.
    + intros H. invert_ret. constructor; [done|]. by apply IH.
    + inversion 1 as [|? b ? bs' Hb Hbs]; subst. rewrite Hb. simpl.
      apply IH in Hbs. by rewrite Hbs.
Qed.

Lemma map_outcome_map {A B} (f : A -> outcome B) (g : A -> B) l :
  Forall (fun a => f a = Ret (g a)) l -> map_outcome f l = Ret (map g l).
Proof. intros H. apply map_outcome_Forall2. induction H; simpl; by constructor. Qed.

(** ** Delays, losses and reorderings *)

Definition delay_in_range (p : timed_probe) : Prop :=
  is_i 64 (as_i 64 (pr_end_ms p) - as_i 64 (pr_start_ms p)).

Definition delay_ms (p : timed_probe) : f64 :=
  f64_of_Z (as_i 64 (pr_end_ms p) - as_i 64 (pr_start_ms p)).

Lemma delay_of_Ret p : delay_in_range p -> delay_of p = Ret (delay_ms p).
Proof. intros H. unfold delay_of. by rewrite checked_i_Ret. Qed.

Lemma delay_of_panics p : ~ delay_in_range p -> delay_of p = Panic ArithmeticOverflow.
Proof. intros H. unfold delay_of. by rewrite checked_i_panic. Qed.

Lemma delay_ms_finite p : delay_in_range p -> is_finite (delay_ms p) = true.
Proof.
  unfold delay_in_range, is_i, delay_ms. intros H. apply f64_of_Z_finite.
  change (2 ^ (64 - 1)) with (2 ^ 63) in H. lia.
Qed.

Lemma delays_Ret ps : Forall delay_in_range ps -> map_outcome delay_of ps = Ret (map delay_ms ps).
Proof.
  intros H. apply map_outcome_map. eapply Forall_impl; [exact H|]. apply delay_of_Ret.
Qed.

(** The probe at position [i] came after one with a higher number. *)
Definition overtaken (ps : list timed_probe) (i : nat) : bool :=
  match ps !! i with
  | Some p => existsb (fun q => pr_seq p <? pr_seq q) (take i ps)
  | None => false
  end.

Definition overtaken_count (ps : list timed_probe) : nat :=
  length (List.filter (overtaken ps) (seq 0 (length ps))).

(** The numbers between the lowest and the highest that did not arrive. *)
Definition missing (ps : list timed_probe) : list Z :=
  match seq_min ps, seq_max ps with
  | Some lo, Some hi => filter (fun k => k ∉ map pr_seq ps) (seqZ lo (hi - lo + 1))
  | _, _ => []
  end.

Definition distinct (ps : list timed_probe) : list Z := remove_dups (map pr_seq ps).

Lemma overtaken_snoc ps p i : (i < length ps)%nat -> overtaken (ps ++ [p]) i = overtaken ps i.
Proof.
  intros Hi. unfold overtaken. rewrite lookup_app_l by done.
  by rewrite take_app_le by lia.
Qed.

Lemma overtaken_count_snoc ps p :
  overtaken_count (ps ++ [p])
  = (overtaken_count ps + (if existsb (fun q => pr_seq p <? pr_seq q)%Z ps then 1 else 0))%nat.
Proof.
  unfold overtaken_count. rewrite length_app, Nat.add_1_r, seq_S, List.filter_app, length_app. simpl.
  assert (overtaken (ps ++ [p]) (length ps) = existsb (fun q => pr_seq p <? pr_seq q) ps) as ->.
  { unfold overtaken. rewrite lookup_app_r, Nat.sub_diag by done. simpl.
    by rewrite take_app_length. }
  f_equal; [|by destruct (existsb _ ps)].
  f_equal. apply List.filter_ext_in. intros i [_ Hi]%in_seq. by apply overtaken_snoc.
Qed.

Lemma overtaken_count_le ps : (overtaken_count ps <= length ps)%nat.
Proof.
  unfold overtaken_count. transitivity (length (seq 0 (length ps))).
  - apply List.filter_length_le.
  - by rewrite length_seq.
Qed.

Definition max_seen (ps : list timed_probe) : Z := foldl (fun m q => Z.max m (pr_seq q)) 0 ps.

Lemma max_seen_spec ps z : 0 <= z ->
  (z <? max_seen ps) = existsb (fun q => z <? pr_seq q) ps.
Proof.
  intros Hz. unfold max_seen. induction ps as [|q ps IH] using rev_ind; simpl.
  - by destruct (Z.ltb_spec z 0); [lia|].
  - rewrite foldl_app, List.existsb_app, <- IH. simpl. rewrite orb_false_r.
    destruct (Z.ltb_spec z (foldl (fun m q => Z.max m (pr_seq q)) 0 ps)),
      (Z.ltb_spec z (pr_seq q)); simpl; try (apply Z.ltb_lt; lia). apply Z.ltb_ge. lia.
Qed.

Lemma count_reorders_Ret w ps :
  (forall z, 0 <= z <= Z.of_nat (length ps) -> w z = Ret z) ->
  Forall (fun p => 0 <= pr_seq p) ps ->
  count_reorders w ps = Ret (Z.of_nat (overtaken_count ps)).
Proof.
  intros Hw Hps. unfold count_reorders.
  enough (for_each ps (fun p '(reorders, max_seq_seen) =>
        reorders ← (if pr_seq p <? max_seq_seen then w (reorders + 1) else Ret reorders);
        Ret (reorders, Z.max max_seq_seen (pr_seq p))) (0, 0)
    = Ret (Z.of_nat (overtaken_count ps), max_seen ps)) as -> by done.
  induction ps as [|p ps IH] using rev_ind; [done|].
  apply Forall_app in Hps as [Hps [Hp _]%Forall_cons].
  rewrite for_each_app, IH; [|intros z Hz; apply Hw; rewrite length_app; simpl; lia|done].
  cbn [mbind outcome_bind for_each]. rewrite max_seen_spec by done.
  rewrite overtaken_count_snoc. pose proof (overtaken_count_le ps).
  unfold max_seen. rewrite foldl_app. cbn [foldl].
  destruct (existsb _ ps); [|by rewrite Nat.add_0_r].
  rewrite Hw by (rewrite length_app; simpl; lia).
  cbn [mbind outcome_bind]. do 3 f_equal. lia.
Qed.

Lemma foldl_extreme (f : Z -> Z -> Z) (R : Z -> Z -> Prop) `{!PreOrder R} ps z :
  (forall a b, R (f a b) a /\ R (f a b) b /\ (f a b = a \/ f a b = b)) ->
  let m := foldl (fun m q => f m (pr_seq q)) z ps in
  R m z /\ Forall (fun q => R m (pr_seq q)) ps /\ (m = z \/ m ∈ map pr_seq ps).
Proof.
  intros Hf. cbv zeta. induction ps as [|q ps IH] using rev_ind; [by repeat constructor|].
  rewrite foldl_app. cbn [foldl]. destruct IH as (IH1 & IH2 & IH3).
  set (m := foldl _ z ps) in *. destruct (Hf m (pr_seq q)) as (H1 & H2 & H3).
  split; [by transitivity m|]. split.
  - apply Forall_app. split; [|by repeat constructor].
    eapply Forall_impl; [exact IH2|]. intros ? ?. by transitivity m.
  - rewrite map_app, elem_of_app. simpl. rewrite list_elem_of_singleton.
    destruct H3 as [->| ->]; tauto.
Qed.

Lemma seq_min_spec ps lo : seq_min ps = Some lo ->
  lo ∈ map pr_seq ps /\ Forall (fun q => lo <= pr_seq q) ps.
Proof.
  destruct ps as [|p ps]; [done|]. intros [= <-].
  destruct (foldl_extreme Z.min Z.le ps (pr_seq p)) as (H1 & H2 & H3); [lia|].
  split; [|by constructor]. simpl. rewrite elem_of_cons. tauto.
Qed.

Lemma seq_max_spec ps hi : seq_max ps = Some hi ->
  hi ∈ map pr_seq ps /\ Forall (fun q => pr_seq q <= hi) ps.
Proof.
  destruct ps as [|p ps]; [done|]. intros [= <-].
  assert (PreOrder (fun a b : Z => b <= a)).
  { split; [intros ?; lia|intros ? ? ? ? ?; lia]. }
  destruct (foldl_extreme Z.max (fun a b => b <= a) ps (pr_seq p)) as (H1 & H2 & H3); [lia|].
  split; [|by constructor]. simpl. rewrite elem_of_cons. tauto.
Qed.

(** The numbers from the lowest to the highest are those that arrived and the
    missing ones. *)
Lemma seq_span ps lo hi : seq_min ps = Some lo -> seq_max ps = Some hi ->
  hi - lo + 1 = Z.of_nat (length (distinct ps) + length (missing ps)).
Proof.
  intros Hlo Hhi. unfold missing. rewrite Hlo, Hhi.
  apply seq_min_spec in Hlo as [Hlo Hall_lo]. apply seq_max_spec in Hhi as [Hhi Hall_hi].
  assert (lo <= hi) as Hle.
  { apply list_elem_of_fmap in Hlo as (q & -> & Hq).
    rewrite Forall_forall in Hall_hi. by apply Hall_hi. }
  rewrite <- length_app.
  assert (seqZ lo (hi - lo + 1)
    ≡ₚ distinct ps ++ filter (fun k => k ∉ map pr_seq ps) (seqZ lo (hi - lo + 1))) as Hperm.
  { apply NoDup_Permutation.
    - apply NoDup_seqZ.
    - apply NoDup_app. split; [apply NoDup_remove_dups|]. split.
      + unfold distinct. intros k Hk [Hn _]%list_elem_of_filter. apply Hn. by rewrite elem_of_remove_dups in Hk.
      + apply NoDup_filter, NoDup_seqZ.
    - intros k. unfold distinct.
      rewrite elem_of_app, list_elem_of_filter, elem_of_remove_dups, elem_of_seqZ.
      destruct (decide (k ∈ map pr_seq ps)) as [Hk|Hk]; [|tauto].
      apply list_elem_of_fmap in Hk as Hk'. destruct Hk' as (q & -> & Hq).
      rewrite Forall_forall in Hall_lo, Hall_hi. specialize (Hall_lo q Hq).
      specialize (Hall_hi q Hq). split; [tauto|lia]. }
  rewrite <- Hperm, length_seqZ. lia.
Qed.

(** ** Reference metrics *)

Definition mean_delay (ps : list timed_probe) : f64 :=
  f64_div (f64_sum (map delay_ms ps)) (f64_len ps).

Definition delay_deviation (ps : list timed_probe) : f64 :=
  f64_sqrt (f64_div (f64_sum (map (fun p => f64_square (f64_sub (delay_ms p) (mean_delay ps))) ps))
              (f64_len ps)).

(** The share of the numbers between the lowest and the highest that is missing
    (duplicates count as received). *)
Definition loss_reference (ps : list timed_probe) : f64 :=
  if (length ps <? 2)%nat then f64_zero
  else loss_percentage (f64_of_Z (Z.of_nat (length (distinct ps) + length (missing ps))))
         (f64_len ps).

Definition reorder_reference (ps : list timed_probe) : f64 :=
  f64_mul (f64_div (f64_of_Z (Z.of_nat (overtaken_count ps))) (f64_len ps)) (f64_of_Z 100).

Definition reference_window (ps : list timed_probe) : window_metrics :=
  if (length ps =? 0)%nat then window_metrics_default
  else mkWindowMetrics (mean_delay ps) (delay_deviation ps) (loss_reference ps)
         (reorder_reference ps).

(** What a window needs for its arithmetic to stay in range. *)
Definition window_ok (ps : list timed_probe) : Prop :=
  Forall delay_in_range ps /\ Forall (fun p => is_u 64 (pr_seq p)) ps
  /\ Z.of_nat (length ps) < 2 ^ 31
  /\ ((2 <= length ps)%nat -> Z.of_nat (length (distinct ps) + length (missing ps)) < 2 ^ 64).

Lemma length_map_f64 {A B} (f : A -> B) l : f64_len (map f l) = f64_len l.
Proof. unfold f64_len. by rewrite length_map. Qed.

Lemma seq_min_max_Some ps : (0 < length ps)%nat -> exists lo hi,
  seq_min ps = Some lo /\ seq_max ps = Some hi.
Proof. destruct ps; simpl; [lia|]. eauto. Qed.

Lemma seq_min_le_max ps lo hi : seq_min ps = Some lo -> seq_max ps = Some hi -> lo <= hi.
Proof.
  intros [Hlo _]%seq_min_spec [_ Hhi]%seq_max_spec.
  apply list_elem_of_fmap in Hlo as (q & -> & Hq). rewrite Forall_forall in Hhi. by apply Hhi.
Qed.

Lemma window_ok_reorders ps : window_ok ps ->
  count_reorders (checked_i 32) ps = Ret (Z.of_nat (overtaken_count ps)).
Proof.
  intros (_ & Hu & Hlen & _). apply count_reorders_Ret.
  - intros z Hz. apply checked_i_Ret. unfold is_i. change (2 ^ (32 - 1)) with (2 ^ 31). lia.
  - eapply Forall_impl; [exact Hu|]. unfold is_u. lia.
Qed.

Lemma probe_window_reference ps : window_ok ps -> probe_window ps = Ret (reference_window ps).
Proof.
  intros Hw. pose proof (window_ok_reorders ps Hw) as Hc. destruct Hw as (Hd & Hu & Hlen & Hspan).
  unfold probe_window, reference_window.
  destruct (Nat.eqb_spec (length ps) 0) as [|Hne]; [done|].
  rewrite delays_Ret by done. cbn [mbind outcome_bind].
  unfold delay_deviation, mean_delay, loss_reference. rewrite !length_map_f64, List.map_map.
  destruct (Nat.leb_spec 2 (length ps)) as [H2|H2], (Nat.ltb_spec (length ps) 2); try lia.
  - destruct (seq_min_max_Some ps) as (lo & hi & Hlo & Hhi); [lia|].
    pose proof (seq_min_le_max ps lo hi Hlo Hhi).
    pose proof (seq_span ps lo hi Hlo Hhi) as Hs. specialize (Hspan H2).
    rewrite Hlo, Hhi, checked_u_Ret by (unfold is_u; lia). cbn [mbind outcome_bind].
    rewrite checked_u_Ret by (unfold is_u; lia). cbn [mbind outcome_bind].
    rewrite Hc, Hs. done.
  - cbn [mbind outcome_bind]. by rewrite Hc.
Qed.

Definition total (sizes : list Z) : Z := foldr Z.add 0 sizes.

Definition throughput_reference (window_ms : Z) (sizes : list Z) : f64 :=
  if (length sizes =? 0)%nat then f64_zero
  else f64_div (f64_of_Z (total sizes)) (f64_div (f64_of_Z window_ms) (f64_of_Z 1000)).

Definition sizes_ok (sizes : list Z) : Prop := Forall (Z.le 0) sizes /\ total sizes < 2 ^ 64.

Lemma total_nonneg sizes : Forall (Z.le 0) sizes -> 0 <= total sizes.
Proof. induction 1; simpl; lia. Qed.

Lemma throughput_Ret w sizes : sizes_ok sizes -> throughput w sizes = Ret (throughput_reference w sizes).
Proof.
  intros [Hpos Htot]. unfold throughput, throughput_reference.
  destruct (Nat.eqb_spec (length sizes) 0); [done|].
  enough (forall acc, 0 <= acc -> acc + total sizes < 2 ^ 64 ->
    for_each sizes (fun b total => checked_u 64 (total + b)) acc = Ret (acc + total sizes)) as He.
  { by rewrite (He 0) by lia. }
  clear Htot n. induction Hpos as [|b sizes Hb Hs IH]; intros acc Hacc Ht; simpl in *.
  - by rewrite Z.add_0_r.
  - pose proof (total_nonneg sizes Hs). rewrite checked_u_Ret by (unfold is_u; lia).
    cbn [mbind outcome_bind]. rewrite IH by lia. f_equal. lia.
Qed.

(** What the arithmetic of one round of metrics needs. *)
Definition metrics_in_range (now_ms : Z) (st : MeasurementState) : Prop :=
  Forall (fun w =>
    let cutoff := saturating_sub now_ms w in
    window_ok (recent_received cutoff st) /\ window_ok (recent_echoed cutoff st)
    /\ sizes_ok (recent_bulk cutoff st) /\ sizes_ok (recent_sent_bulk cutoff st)) metrics_windows.

#[export] Instance delay_in_range_dec p : Decision (delay_in_range p).
Proof. unfold delay_in_range. apply _. Defined.
#[export] Instance window_ok_dec ps : Decision (window_ok ps).
Proof. unfold window_ok. apply _. Defined.
#[export] Instance sizes_ok_dec sizes : Decision (sizes_ok sizes).
Proof. unfold sizes_ok. apply _. Defined.
#[export] Instance metrics_in_range_dec now_ms st : Decision (metrics_in_range now_ms st).
Proof. unfold metrics_in_range. apply _. Defined.

Lemma lookup_map {A B} (f : A -> B) l i a : l !! i = Some a -> map f l !! i = Some (f a).
Proof. intros Hi. change (map f l) with (f <$> l). by rewrite list_lookup_fmap, Hi. Qed.


Definition sample_state : MeasurementState :=
  MeasurementState_new {{
    ms_received_probes :=
      [mkReceivedProbe 1 99000 99010; mkReceivedProbe 4 99100 99130; mkReceivedProbe 2 99050 99140];
    ms_received_bulk_bytes := [mkReceivedBulk 1200 99900] }}.


(** ** The queues and the history

    The senders and receivers keep their queues short; the metrics are those of
    everything that ever happened. *)

Inductive traffic_event :=
  | ProbeSent
  | BulkSent (bytes : Z)
  | ProbeArrived (probe : ProbePacket)
  | BulkArrived (bytes : Z).

Definition apply_traffic (e : Z * traffic_event) (st : MeasurementState)
    : outcome MeasurementState :=
  match e.2 with
  | ProbeSent => r ← record_sent_probe e.1 st; Ret r.2
  | BulkSent bytes => record_sent_bulk bytes e.1 st
  | ProbeArrived probe => record_probe_packet e.1 probe st
  | BulkArrived bytes => record_bulk_packet e.1 bytes st
  end.

(** The same with nothing ever dropped from the four queues the metrics read;
    an echo is matched as the real state does. *)
Definition log_traffic (e : Z * traffic_event) (st full : MeasurementState) : MeasurementState :=
  match e.2 with
  | ProbeSent => full
  | BulkSent bytes => full {{ ms_sent_bulk_packets ::= fun q => q ++ [mkSentBulk bytes e.1] }}
  | BulkArrived bytes =>
      full {{ ms_received_bulk_bytes ::= fun q => q ++ [mkReceivedBulk bytes e.1] }}
  | ProbeArrived p =>
      if decide (probe_direction p = ServerToClient) then
        match ms_sent_probes_map st !! probe_seq p with
        | Some sent =>
            full {{ ms_echoed_probes ::= fun q =>
                      q ++ [mkEchoedProbe (probe_seq p) (sp_sent_at_ms sent) (probe_timestamp_ms p)] }}
        | None => full
        end
      else full {{ ms_received_probes ::= fun q =>
                     q ++ [mkReceivedProbe (probe_seq p) (probe_timestamp_ms p) e.1] }}
  end.

Fixpoint run_traffic (h : list (Z * traffic_event)) (st full : MeasurementState)
    : outcome (MeasurementState * MeasurementState) :=
  match h with
  | [] => Ret (st, full)
  | e :: h => st' ← apply_traffic e st; run_traffic h st' (log_traffic e st full)
  end.

(** The clock does not run backwards from [from] to [upto]. *)
Fixpoint clock_ordered (from : Z) (h : list (Z * traffic_event)) (upto : Z) : Prop :=
  match h with
  | [] => from <= upto
  | e :: h => from <= e.1 /\ clock_ordered e.1 h upto
  end.

Definition all_trimmed (now : Z) (st full : MeasurementState) : Prop :=
  trimmed rp_received_at_ms (now - 60000) (ms_received_probes full) (ms_received_probes st)
  /\ trimmed ep_echoed_at_ms (now - 60000) (ms_echoed_probes full) (ms_echoed_probes st)
  /\ trimmed rb_received_at_ms (now - 60000) (ms_received_bulk_bytes full) (ms_received_bulk_bytes st)
  /\ trimmed sb_sent_at_ms (now - 60000) (ms_sent_bulk_packets full) (ms_sent_bulk_packets st).

Lemma all_trimmed_mono now now' st full :
  now <= now' -> all_trimmed now st full -> all_trimmed now' st full.
Proof.
  intros H (H1 & H2 & H3 & H4).
  repeat split; (eapply trimmed_mono; [|eassumption]); lia.
Qed.

Ltac invert_cutoff :=
  match goal with
  | H : checked_u 64 (_ - 60000) = Ret _ |- _ => apply checked_u_inv in H as [-> _]
  end.

Lemma apply_traffic_trimmed now e st full st' :
  now <= e.1 -> all_trimmed now st full -> apply_traffic e st = Ret st' ->
  all_trimmed e.1 st' (log_traffic e st full).
Proof.
  intros Hnow Ht Hst'. destruct e as [now' e]. simpl in *.
  pose proof (all_trimmed_mono now now' st full Hnow Ht) as (H1 & H2 & H3 & H4).
  unfold apply_traffic, log_traffic in *. cbn [fst snd] in *.
  destruct e as [|bytes|p|bytes];
    unfold record_sent_probe, record_sent_bulk, record_probe_packet, record_bulk_packet in *.
  - invert_ret. by repeat split.
  - invert_ret. invert_cutoff.
    repeat split; [done..|]. by apply trimmed_push with (c := now' - 60000).
  - destruct (decide _); [destruct (ms_sent_probes_map st !! probe_seq p)|]; invert_ret;
      try invert_cutoff;
      repeat split; try done; by apply trimmed_push with (c := now' - 60000).
  - invert_ret. invert_cutoff.
    repeat split; [done..| |done]. by apply trimmed_push with (c := now' - 60000).
Qed.

Lemma run_traffic_trimmed h now upto st full st' full' :
  clock_ordered now h upto -> all_trimmed now st full ->
  run_traffic h st full = Ret (st', full') -> all_trimmed upto st' full'.
Proof.
  revert now st full. induction h as [|e h IH]; intros now st full Hord Ht Hrun; simpl in *.
  - injection Hrun as <- <-. by apply all_trimmed_mono with now.
  - destruct Hord as [Hle Hord]. invert_ret.
    eapply IH; [exact Hord| |eassumption]. by eapply apply_traffic_trimmed.
Qed.

Lemma calculate_metrics_trimmed now_ms st full :
  all_trimmed now_ms st full -> calculate_metrics now_ms st = calculate_metrics now_ms full.
Proof.
  intros (H1 & H2 & H3 & H4). unfold calculate_metrics.
  enough (forall w, In w metrics_windows ->
    metrics_of_window now_ms w st = metrics_of_window now_ms w full) as Heq.
  { unfold metrics_windows in *. cbn [map_outcome].
    by rewrite !Heq by (simpl; tauto). }
  intros w Hw. assert (now_ms - 60000 <= saturating_sub now_ms w) as Hc.
  { unfold saturating_sub. simpl in Hw. lia. }
  unfold metrics_of_window, recent_received, recent_echoed, recent_bulk, recent_sent_bulk.
  by rewrite (trimmed_filter _ _ _ _ _ H1 Hc), (trimmed_filter _ _ _ _ _ H2 Hc),
    (trimmed_filter _ _ _ _ _ H3 Hc), (trimmed_filter _ _ _ _ _ H4 Hc).
Qed.

(** The queues forget nothing the metrics need: after any sequence of
    probes and bulk packets sent and received, in any order and with any
    numbers and time stamps from the client, under a server clock that does not
    run backwards, [calculate_metrics] gives the same result on the trimmed
    queues as on the complete history. *)
Theorem metrics_see_whole_history h from now_ms st' full' :
  clock_ordered from h now_ms ->
  run_traffic h MeasurementState_new MeasurementState_new = Ret (st', full') ->
  calculate_metrics now_ms st' = calculate_metrics now_ms full'.
Proof.
  intros Hord Hrun. apply calculate_metrics_trimmed.
  eapply run_traffic_trimmed; [exact Hord| |exact Hrun].
  repeat split; by exists [].
Qed.

Definition c2s_probe (seq at_ms : Z) : ProbePacket := mkProbePacket seq at_ms ClientToServer None "c".
Definition s2c_echo (seq at_ms : Z) : ProbePacket := mkProbePacket seq at_ms ServerToClient None "c".

Definition sample_history : list (Z * traffic_event) :=
  [(100000, ProbeSent); (100010, ProbeArrived (c2s_probe 7 99990)); (100020, BulkArrived 5000);
   (100050, ProbeArrived (s2c_echo 0 100030)); (170000, ProbeArrived (c2s_probe 8 169990));
   (170001, BulkArrived 10)].

(** ** A client can stop the metrics *)

Lemma as_i_high z : 2 ^ 63 <= z < 2 ^ 64 -> as_i 64 z = z - 2 ^ 64.
Proof.
  intros Hz. unfold as_i. change (2 ^ (64 - 1)) with (2 ^ 63).
  rewrite <- (Z.mod_unique (z + 2 ^ 63) (2 ^ 64) 1 (z - 2 ^ 63)); lia.
Qed.

Lemma calculate_metrics_Ret_delays now_ms st m :
  calculate_metrics now_ms st = Ret m ->
  Forall delay_in_range (recent_received (saturating_sub now_ms 60000) st).
Proof.
  unfold calculate_metrics, metrics_windows. cbn [map_outcome]. intros H. invert_ret.
  match goal with H : metrics_of_window now_ms 60000 st = _ |- _ => unfold metrics_of_window in H end.
  invert_ret.
  match goal with H : probe_window (recent_received _ st) = Ret _ |- _ => rename H into Hw end.
  unfold probe_window in Hw. destruct (recent_received _ st) as [|p ps]; [constructor|].
  cbn [length Nat.eqb] in Hw. invert_ret.
  match goal with H : map_outcome delay_of _ = Ret _ |- _ => apply map_outcome_Forall2 in H; rename H into Hd end.
  clear -Hd. induction Hd as [|q d qs ds Hq _ IH]; constructor; [|done].
  destruct (decide (delay_in_range q)) as [|Hn]; [done|]. by rewrite delay_of_panics in Hq.
Qed.

(** A client-to-server probe whose time stamp is at least [2^63] and at most
    [2^63] after the server's clock, any of which the client may put in the
    packet, stays in the queue for a minute and makes every calculation of the
    metrics in that minute panic. *)
Theorem client_stops_metrics now_ms probe st st' later_ms :
  record_probe_packet now_ms probe st = Ret st' ->
  probe_direction probe = ClientToServer ->
  now_ms < 2 ^ 63 -> 2 ^ 63 <= probe_timestamp_ms probe <= 2 ^ 63 + now_ms ->
  now_ms <= later_ms <= now_ms + 60000 ->
  forall m, calculate_metrics later_ms st' <> Ret m.
Proof.
  intros Hrec Hdir Hnow Hts Hlater m Hm. apply calculate_metrics_Ret_delays in Hm.
  unfold record_probe_packet in Hrec. rewrite decide_False in Hrec by (by rewrite Hdir).
  invert_ret. apply checked_u_inv in H as [-> [Hc _]].
  set (p := mkReceivedProbe _ _ _) in Hm.
  assert (In p (snd (pop_front_while (fun p => rp_received_at_ms p <? now_ms - 60000)
            (ms_received_probes st ++ [p])))) as Hin.
  { apply pop_front_while_last. simpl. apply Z.ltb_ge. lia. }
  rewrite List.Forall_forall in Hm. specialize (Hm (of_received p)).
  destruct Hm as [_ Hhi].
  - apply in_map. apply List.filter_In. split; [exact Hin|]. apply Z.leb_le.
    unfold saturating_sub. simpl. lia.
  - simpl in Hhi. rewrite as_i_small, as_i_high in Hhi by (unfold is_i; lia).
    change (2 ^ (64 - 1)) with (2 ^ 63) in Hhi. lia.
Qed.

(** ** Percentiles *)

(** Four percentiles in order: least, 50th, 99th, greatest. *)
Definition ordered_percentiles (l : list f64) : Prop :=
  exists p50 p99 lo hi,
    l = [p50; p99; lo; hi] /\ f64_le lo p50 /\ f64_le p50 p99 /\ f64_le p99 hi.

Lemma ordered_percentiles_zeros : ordered_percentiles (zeros 4).
Proof. by exists f64_zero, f64_zero, f64_zero, f64_zero. Qed.

Lemma percentiles_ordered i50 i99 l :
  (i50 <= i99 < length l)%nat -> Forall (fun x => is_nan x = false) l ->
  exists ps, percentiles i50 i99 (f64_sort l) = Ret ps /\ ordered_percentiles ps.
Proof.
  intros Hi Hnan. pose proof (f64_sort_sorted l Hnan) as Hs.
  rewrite <- (length_f64_sort l) in Hi. set (k := f64_sort l) in *. clearbody k.
  destruct (lookup_lt_is_Some_2 k i50) as [p50 H50]; [lia|].
  destruct (lookup_lt_is_Some_2 k i99) as [p99 H99]; [lia|].
  destruct (lookup_lt_is_Some_2 k 0) as [lo Hlo]; [lia|].
  destruct (lookup_lt_is_Some_2 k (pred (length k))) as [hi Hhi]; [lia|].
  exists [p50; p99; lo; hi]. split.
  - unfold percentiles, index. rewrite H50, H99. cbn [mbind outcome_bind].
    by rewrite head_lookup, Hlo, last_lookup, Hhi.
  - exists p50, p99, lo, hi. split; [done|]. repeat split.
    + eapply (StronglySorted_lookup_le _ _ 0 i50); [done|lia|done|done].
    + eapply (StronglySorted_lookup_le _ _ i50 i99); [done|lia|done|done].
    + eapply (StronglySorted_lookup_le _ _ i99 (pred (length k))); [done|lia|done|done].
Qed.

(** The differences of neighbours. *)
Fixpoint consecutive_jitters (ps : list timed_probe) : list f64 :=
  match ps with
  | p :: ((q :: _) as ps) => f64_abs (f64_sub (delay_ms q) (delay_ms p)) :: consecutive_jitters ps
  | _ => []
  end.

Lemma jitters_loop ps js p : Forall delay_in_range ps ->
  exists d,
    for_each ps (fun p '(jitters, prev_delay) =>
        delay ← delay_of p;
        Ret (match prev_delay with
             | Some prev => jitters ++ [f64_abs (f64_sub delay prev)]
             | None => jitters
             end, Some delay)) (js, Some (delay_ms p))
    = Ret (js ++ consecutive_jitters (p :: ps), Some d).
Proof.
  intros H. revert js p. induction H as [|q ps Hq _ IH]; intros js p.
  - exists (delay_ms p). simpl. by rewrite app_nil_r.
  - cbn [for_each]. rewrite delay_of_Ret by done. cbn [mbind outcome_bind].
    destruct (IH (js ++ [f64_abs (f64_sub (delay_ms q) (delay_ms p))]) q) as [d ->].
    exists d. by rewrite <- (assoc_L (++)).
Qed.

Lemma jitters_of_Ret ps : Forall delay_in_range ps -> jitters_of ps = Ret (consecutive_jitters ps).
Proof.
  intros H. unfold jitters_of. destruct H as [|p ps Hp H]; [done|].
  cbn [for_each]. rewrite delay_of_Ret by done. cbn [mbind outcome_bind].
  destruct (jitters_loop ps [] p H) as [d ->]. done.
Qed.

Lemma consecutive_jitters_not_nan ps : Forall delay_in_range ps ->
  Forall (fun x => is_nan x = false) (consecutive_jitters ps).
Proof.
  induction 1 as [|p ps Hp H IH]; [constructor|]. destruct H as [|q ps Hq H]; [constructor|].
  constructor; [|exact IH].
  assert (is_nan (f64_sub (delay_ms q) (delay_ms p)) = false) as Hn.
  { apply f64_sub_not_nan; [by apply delay_ms_finite|].
    pose proof (delay_ms_finite p Hp). by destruct (delay_ms p). }
  by destruct (f64_sub _ _).
Qed.

(** The baseline is a number. *)
Definition baseline_ok (st : MeasurementState) : Prop :=
  is_nan (ms_baseline_delay_sum st) = false /\ is_u 64 (ms_baseline_delay_count st).

Lemma baseline_of_not_nan st d : baseline_ok st -> is_nan d = false -> is_nan (baseline_of st d) = false.
Proof.
  intros [Hs Hc] Hd. unfold baseline_of. destruct (Z.ltb_spec 0 (ms_baseline_delay_count st)); [|done].
  apply f64_div_pos_not_nan; [done|]. unfold is_u in Hc. lia.
Qed.

Lemma update_baseline_ok delay st st' :
  is_finite delay = true -> baseline_ok st -> update_baseline delay st = Ret st' -> baseline_ok st'.
Proof.
  intros Hd [Hs Hc] H. unfold update_baseline in H. destruct (in_baseline delay st); [|by simplify_eq].
  invert_ret. apply checked_u_inv in H0 as [-> Hu]. split; [|done]. by apply f64_add_not_nan.
Qed.

Lemma half_le_p99 n : (0 < n)%nat -> (n / 2 <= Nat.min (n * 99 / 100) (n - 1) < n)%nat.
Proof.
  intros Hn. split; [|lia]. apply Nat.min_glb.
  - apply Nat.div_le_lower_bound; [lia|]. pose proof (Nat.div_mod_eq n 2). lia.
  - pose proof (Nat.div_lt n 2). lia.
Qed.

(** The probes the statistics of a second look at. *)
Definition recent_measurements (now_ms : Z) (st : MeasurementState) : list timed_probe :=
  map of_measurement
    (List.filter (fun p => saturating_sub now_ms PROBE_FEEDBACK_WINDOW_MS <=? rmp_received_at_ms p)
       (ms_received_measurement_probes st)).

Lemma window_ok_expected ps : window_ok ps -> (0 < length ps)%nat ->
  exists n, checked_u 64 (saturating_sub (default 0 (seq_max ps)) (default 0 (seq_min ps)) + 1) = Ret n.
Proof.
  intros (_ & Hu & _ & Hspan) Hlen.
  destruct (seq_min_max_Some ps Hlen) as (lo & hi & Hlo & Hhi).
  pose proof (seq_min_le_max ps lo hi Hlo Hhi). pose proof (seq_span ps lo hi Hlo Hhi).
  rewrite Hlo, Hhi. simpl. eexists. apply checked_u_Ret. unfold is_u, saturating_sub.
  destruct (decide (2 <= length ps)%nat) as [H2|H2]; [specialize (Hspan H2); lia|].
  destruct ps as [|p [|q ps]]; simpl in *; try lia. simplify_eq. lia.
Qed.

Lemma probe_stream_stats_ordered now_ms st :
  baseline_ok st -> window_ok (recent_measurements now_ms st) ->
  exists stats, calculate_probe_stream_stats now_ms st = Ret stats
    /\ ordered_percentiles (delay_deviation_ms stats) /\ ordered_percentiles (jitter_ms stats)
    /\ probe_count stats = Z.of_nat (length (recent_measurements now_ms st)).
Proof.
  intros Hb Hw. unfold calculate_probe_stream_stats. fold (recent_measurements now_ms st).
  set (ps := recent_measurements now_ms st) in *. clearbody ps.
  destruct (Nat.eqb_spec (length ps) 0) as [H0|H0].
  { exists DirectionStats_default. rewrite H0.
    split; [done|]. by repeat split; try apply ordered_percentiles_zeros. }
  pose proof Hw as (Hd & _ & Hlen & _).
  rewrite delays_Ret by done. cbn [mbind outcome_bind].
  set (devs := map (fun delay => f64_sub delay (baseline_of st f64_zero)) (map delay_ms ps)).
  assert (length devs = length ps) as Hld by (subst devs; by rewrite !length_map).
  rewrite length_f64_sort, Hld.
  destruct (percentiles_ordered (length ps / 2) (Nat.min (length ps * 99 / 100) (length ps - 1)) devs)
    as (p1 & -> & Ho1).
  { rewrite Hld. apply half_le_p99. lia. }
  { subst devs. rewrite List.map_map. apply List.Forall_map. eapply Forall_impl; [exact Hd|].
    intros p Hp. apply f64_sub_not_nan; [by apply delay_ms_finite|]. by apply baseline_of_not_nan. }
  cbn [mbind outcome_bind]. rewrite jitters_of_Ret by done. cbn [mbind outcome_bind].
  pose proof (consecutive_jitters_not_nan ps Hd) as Hjn.
  set (js := consecutive_jitters ps) in *. clearbody js. rewrite length_f64_sort.
  assert (exists p2, (if (length js =? 0)%nat then Ret (zeros 4)
       else percentiles (Nat.max (length js) 1 / 2) (Nat.max (length js) 1 * 99 / 100) (f64_sort js))
       = Ret p2 /\ ordered_percentiles p2) as (p2 & Hp2 & Ho2).
  { destruct (Nat.eqb_spec (length js) 0) as [|Hj].
    - eexists. split; [done|]. apply ordered_percentiles_zeros.
    - rewrite Nat.max_l by lia. apply percentiles_ordered; [|done].
      pose proof (half_le_p99 (length js)). split; [lia|]. apply Nat.Div0.div_lt_upper_bound. lia. }
  rewrite Hp2. cbn [mbind outcome_bind].
  destruct (window_ok_expected ps Hw) as (n & ->); [lia|]. cbn [mbind outcome_bind].
  rewrite window_ok_reorders by done. cbn [mbind outcome_bind].
  eexists. split; [reflexivity|]. split; [done|]. split; [done|].
  apply as_u_small. unfold is_u. lia.
Qed.

(** ** Feedback *)

Lemma count_recent_Ret cutoff ps :
  Z.of_nat (length ps) < 2 ^ 32 -> Forall (fun p => 0 <= rmp_seq p) ps ->
  let recent := map of_measurement (List.filter (fun p => cutoff <=? rmp_received_at_ms p) ps) in
  count_recent cutoff ps = Ret (Z.of_nat (length recent), Z.of_nat (overtaken_count recent)).
Proof.
  intros Hlen Hps. cbv zeta. unfold count_recent. set (body := fun p '(a, b, c) => _).
  set (recent := fun l => map of_measurement (List.filter (fun p => cutoff <=? rmp_received_at_ms p) l)).
  enough (for_each ps body (0, 0, 0)
    = Ret (Z.of_nat (length (recent ps)), Z.of_nat (overtaken_count (recent ps)), max_seen (recent ps)))
    as -> by done.
  induction ps as [|p ps IH] using rev_ind; [done|].
  rewrite length_app in Hlen. simpl in Hlen.
  apply Forall_app in Hps as [Hps [Hp _]%Forall_cons].
  rewrite for_each_app, IH by (done || lia). cbn [mbind outcome_bind for_each].
  subst body. cbv beta iota.
  assert (recent (ps ++ [p]) = recent ps ++
    (if cutoff <=? rmp_received_at_ms p then [of_measurement p] else [])) as ->.
  { subst recent. simpl. rewrite List.filter_app, map_app. simpl. by case_match. }
  assert (length (recent ps) <= length ps)%nat as Hle.
  { subst recent. simpl. rewrite length_map. apply List.filter_length_le. }
  pose proof (overtaken_count_le (recent ps)).
  destruct (cutoff <=? rmp_received_at_ms p); [|by rewrite app_nil_r].
  rewrite max_seen_spec by done. rewrite overtaken_count_snoc, length_app.
  change (pr_seq (of_measurement p)) with (rmp_seq p).
  unfold max_seen. rewrite foldl_app. cbn [foldl length].
  destruct (existsb _ (recent ps)); rewrite !checked_u_Ret by (unfold is_u; lia);
    cbn [mbind outcome_bind]; (apply f_equal, f_equal2; [apply f_equal2; lia|done]).
Qed.
