(* ===== verification/Traceroute.v ===== *)
(** * Traceroute and MTU rounds (server/src/measurements.rs)

    The rounds a client starts over the control channel: test probes with
    rising TTLs, the events the packet tracker has for the connection reported
    as hops, and a completion message.  Each iteration takes what it observes
    (clock, open channels, result of the send, the tracker's queue after the
    wait); the effects come back in order. *)

From stdpp Require Import base list gmap strings.
From Stdlib Require Import ZArith Lia SpecFloat.
From S2P Require Import Prelude Utf8 Net F64 Protocol TrackingChannel Tracker Icmp State Measurements.
Local Open Scope Z_scope.

(** ** Formatting *)

(** [{:.2}] of an [f64]: the exact value rounded to hundredths, ties to even. *)
Definition hundredths (m e : Z) : Z :=
  if 0 <=? e then m * 2 ^ e * 100
  else
    let num := m * 100 in
    let den := 2 ^ (- e) in
    let q := num / den in
    let r := num mod den in
    if (den <? 2 * r) || ((den =? 2 * r) && Z.odd q) then q + 1 else q.

Definition two_digits (n : Z) : string :=
  if n <? 10 then ("0" +:+ decimal n)%string else decimal n.

Definition format_2 (x : f64) : string :=
  match x with
  | S754_nan => "NaN"
  | S754_infinity s => if s then "-inf" else "inf"
  | S754_zero s => if s then "-0.00" else "0.00"
  | S754_finite s m e =>
      let h := hundredths (Zpos m) e in
      ((if s then "-" else String.EmptyString) +:+ decimal (h / 100) +:+ "." +:+ two_digits (h mod 100))%string
  end.

Definition format_traceroute_message (hop : Z) (router_ip : option string) (rtt_ms : f64) : string :=
  match router_ip with
  | Some ip => ("Hop " +:+ decimal hop +:+ " via " +:+ ip +:+ " (" +:+ format_2 rtt_ms +:+ "ms)")%string
  | None => ("Hop " +:+ decimal hop +:+ " received (" +:+ format_2 rtt_ms +:+ "ms)")%string
  end.

(** ** Messages *)

(** [.ttl.expect("TTL should be set")] *)
Definition event_hop (event : TrackedPacketEvent) : outcome Z :=
  match ttl (ev_send_options event) with Some hop => Ret hop | None => Panic UnwrapOnNone end.

Definition event_rtt_ms (event : TrackedPacketEvent) : f64 :=
  f64_mul (as_secs_f64 (Z.max 0 (ev_icmp_received_at event - ev_sent_at event))) (f64_of_Z 1000).

Definition trace_hop (survey_session_id : string) (hop : Z) (event : TrackedPacketEvent)
    : ControlMessage :=
  TraceHop (mkTraceHopMessage hop (ev_router_ip event) (event_rtt_ms event)
    (format_traceroute_message hop (ev_router_ip event) (event_rtt_ms event))
    (ev_conn_id event) survey_session_id (ev_original_src_port event)
    (ev_original_dest_addr event)).

Definition mtu_hop (survey_session_id : string) (hop : Z) (mtu : option Z) (packet_size : Z)
    (event : TrackedPacketEvent) : ControlMessage :=
  MtuHop (mkMtuHopMessage hop (ev_router_ip event) (event_rtt_ms event) mtu
    ("MTU probe hop " +:+ decimal hop +:+ " (size " +:+ decimal packet_size +:+ ")")%string
    (ev_conn_id event) survey_session_id packet_size).

(** A test probe is recorded like a probe, with numbers of its own. *)
Definition record_sent_testprobe (sent_at_ms : Z) (st : MeasurementState)
    : outcome (Z * MeasurementState) :=
  let seq := ms_testprobe_seq st in
  next ← checked_u 64 (seq + 1);
  qm ← push_sent (mkSentProbe seq sent_at_ms) (ms_sent_testprobes st) (ms_sent_testprobes_map st);
  Ret (seq, st {{ ms_testprobe_seq := next; ms_sent_testprobes := qm.1;
                  ms_sent_testprobes_map := qm.2 }}).

(** ** Environments *)

(** An iteration that sends a probe; the queue is the tracker's when it drains. *)
Record hop_obs := mkHopObs {
  ho_ready : handle -> bool;
  ho_now_ms : Z;
  ho_send_ok : bool;
  ho_queue : list TrackedPacketEvent }.

(** An iteration that only drains; [path_ttl] as read after the wait. *)
Record drain_obs := mkDrainObs {
  dr_queue : list TrackedPacketEvent;
  dr_path_ttl : option Z }.

(** A loop over TTLs with an observation for each iteration. *)
Fixpoint for_ttls {R} (ttls : list Z) (obs : list hop_obs) (body : Z -> hop_obs -> R -> outcome R)
    (r : R) : outcome R :=
  match ttls, obs with
  | [], _ => Ret r
  | _ :: _, [] => OutOfFuel
  | ttl :: ttls, o :: obs => r' ← body ttl o r; for_ttls ttls obs body r'
  end.

Section rounds.
  Context (control_to_vec : ControlMessage -> option bytes)
    (testprobe_to_vec : TestProbePacket -> option bytes).

Definition send_control (control : handle) (m : ControlMessage) : list effect :=
  match control_to_vec m with Some msg_json => [Send control msg_json] | None => [] end.

(** ** Draining *)

Definition drain_traceroute_events (queue : list TrackedPacketEvent) (control : handle)
    (survey_session_id : string) (s : ClientSession) : outcome (Z * list effect) :=
  let events := (partition_events (cs_conn_id s) queue).1 in
  for_each events (fun event '(n_events, sent) =>
    hop ← event_hop event;
    n_events ← checked_i 32 (n_events + 1);
    Ret (n_events, sent ++ send_control control (trace_hop survey_session_id hop event))) (0, []).

Definition drain_mtu_events (queue : list TrackedPacketEvent) (control : handle)
    (survey_session_id : string) (s : ClientSession) : outcome (list effect) :=
  let events := (partition_events (cs_conn_id s) queue).1 in
  for_each events (fun event sent =>
    hop ← event_hop event;
    mtu ← extract_mtu_from_icmp (ev_icmp_packet event);
    packet_size ← (if decide (is_u 32 (ev_tracked_ip_length event))
                   then Ret (ev_tracked_ip_length event) else Panic UnwrapOnNone);
    Ret (sent ++ send_control control (mtu_hop survey_session_id hop mtu packet_size event))) [].

(** ** The traceroute round *)

Definition MAX_TTL : Z := 16.

Definition traceroute_options (ttl : Z) : SendOptions :=
  mkSendOptions (Some ttl) (Some true) None None 5000 false false.

Definition traceroute_hop (control : handle) (survey_session_id : string)
    (current_ttl : Z) (o : hop_obs) (r : ClientSession * Z * list effect)
    : outcome (ClientSession * Z * list effect) :=
  let '(s, n_probes_out, sent) := r in
  match ready_channel (ho_ready o) (dc_testprobe (cs_data_channels s)) with
  | None => Ret (s, n_probes_out, sent)
  | Some testprobe_channel =>
      let sent_at_ms := ho_now_ms o in
      r ← record_sent_testprobe sent_at_ms (cs_measurement_state s);
      let seq := r.1 in
      let s := s {{ cs_measurement_state := r.2 }} in
      let testprobe :=
        mkTestProbePacket seq sent_at_ms ServerToClient (Some (traceroute_options current_ttl))
          (cs_conn_id s) in
      match testprobe_to_vec testprobe with
      | None => Ret (s, n_probes_out, sent)
      | Some json =>
          let options := mkUdpSendOptions (Some current_ttl) None (Some true) (cs_conn_id s) false false in
          let sent := sent ++ [SendWithOptions testprobe_channel json options] in
          if negb (ho_send_ok o) then Ret (s, n_probes_out, sent)
          else
            n_probes_out ← checked_i 32 (n_probes_out + 1);
            d ← drain_traceroute_events (ho_queue o) control survey_session_id s;
            n_probes_out ← checked_i 32 (n_probes_out - d.1);
            Ret (s, n_probes_out, sent ++ d.2)
      end
  end.

(** The loop that waits for late answers. *)
Fixpoint traceroute_drain (trace_drain_count : nat) (control : handle) (survey_session_id : string)
    (obs : list drain_obs) (r : ClientSession * Z * list effect)
    : outcome (ClientSession * Z * list effect) :=
  match obs with
  | [] => OutOfFuel
  | o :: obs =>
      let '(s, n_probes_out, sent) := r in
      d ← drain_traceroute_events (dr_queue o) control survey_session_id s;
      n_probes_out ← checked_i 32 (n_probes_out - d.1);
      let r := (s, n_probes_out, sent ++ d.2) in
      if is_some (dr_path_ttl o) then Ret r
      else if (trace_drain_count =? 0)%nat || (n_probes_out =? 0) then Ret r
      else traceroute_drain (pred trace_drain_count) control survey_session_id obs r
  end.

Definition run_single_traceroute_round (ready : handle -> bool) (hops : list hop_obs)
    (drains : list drain_obs) (s : ClientSession) : outcome (ClientSession * list effect) :=
  let survey_session_id := cs_survey_session_id s in
  match ready_channel ready (dc_control (cs_data_channels s)) with
  | None => Ret (s, [])
  | Some control =>
      r ← for_ttls (seqZ 1 MAX_TTL) hops (traceroute_hop control survey_session_id) (s, 0, []);
      r ← traceroute_drain (2000 / 500) control survey_session_id drains r;
      let '(s, _, sent) := r in
      let completed :=
        TracerouteCompleted (mkTracerouteCompletedMessage (cs_conn_id s) survey_session_id) in
      Ret (s, sent ++ send_control control completed)
  end.

(** ** The MTU round *)

Definition mtu_options (ttl : Z) : SendOptions :=
  mkSendOptions (Some ttl) (Some true) None None 5000 true true.

(** The payload a packet of the wanted size has room for: less the IP, UDP and
    SCTP headers when the address family is known. *)
Definition mtu_target_len (packet_size : Z) (ip_version : option string) : outcome Z :=
  match ip_version with
  | Some ip_ver =>
      if (ip_ver =? "ipv4")%string then checked_u 64 (packet_size - (20 + 8 + 28))
      else checked_u 64 (packet_size - (40 + 8 + 28))
  | None => Ret packet_size
  end.

(** [json.resize(target_len, 0x23)] when it is shorter. *)
Definition pad_to (target_len : Z) (json : bytes) : bytes :=
  if Z.of_nat (length json) <? target_len
  then json ++ replicate (Z.to_nat target_len - length json) 0x23 else json.

Definition mtu_hop_round (packet_size : Z) (control : handle) (survey_session_id : string)
    (current_ttl : Z) (o : hop_obs) (r : ClientSession * list effect)
    : outcome (ClientSession * list effect) :=
  let '(s, sent) := r in
  match ready_channel (ho_ready o) (dc_testprobe (cs_data_channels s)) with
  | None => Ret (s, sent)
  | Some testprobe_channel =>
      let sent_at_ms := ho_now_ms o in
      r ← record_sent_testprobe sent_at_ms (cs_measurement_state s);
      let s := s {{ cs_measurement_state := r.2 }} in
      let ttl := as_u 8 current_ttl in
      let testprobe :=
        mkTestProbePacket r.1 sent_at_ms ServerToClient (Some (mtu_options ttl)) (cs_conn_id s) in
      match testprobe_to_vec testprobe with
      | None => Ret (s, sent)
      | Some json =>
          target_len ← mtu_target_len packet_size (cs_ip_version s);
          let json := pad_to target_len json in
          let options := mkUdpSendOptions (Some ttl) None (Some true) (cs_conn_id s) true true in
          let sent := sent ++ [SendWithOptions testprobe_channel json options] in
          if negb (ho_send_ok o) then Ret (s, sent)
          else
            d ← drain_mtu_events (ho_queue o) control survey_session_id s;
            Ret (s, sent ++ d)
      end
  end.

(** [drain_count + 1] drains. *)
Fixpoint mtu_drain (drain_count : nat) (control : handle) (survey_session_id : string)
    (queues : list (list TrackedPacketEvent)) (r : ClientSession * list effect) {struct queues}
    : outcome (ClientSession * list effect) :=
  match queues with
  | [] => OutOfFuel
  | queue :: queues =>
      let '(s, sent) := r in
      d ← drain_mtu_events queue control survey_session_id s;
      let r := (s, sent ++ d) in
      match drain_count with
      | O => Ret r
      | S drain_count => mtu_drain drain_count control survey_session_id queues r
      end
  end.

Definition run_mtu_traceroute_round (packet_size path_ttl collect_timeout_ms : Z)
    (ready : handle -> bool) (hops : list hop_obs) (queues : list (list TrackedPacketEvent))
    (s : ClientSession) : outcome (ClientSession * list effect) :=
  let survey_session_id := cs_survey_session_id s in
  match ready_channel ready (dc_control (cs_data_channels s)) with
  | None => Ret (s, [])
  | Some control =>
      r ← for_ttls (seqZ 1 (path_ttl - 1)) hops
            (mtu_hop_round packet_size control survey_session_id) (s, []);
      r ← mtu_drain (Z.to_nat (collect_timeout_ms / 500)) control survey_session_id queues r;
      let '(s, sent) := r in
      let completed :=
        MtuTracerouteCompleted
          (mkMtuTracerouteCompletedMessage (cs_conn_id s) survey_session_id packet_size) in
      Ret (s, sent ++ send_control control completed)
  end.

End rounds.

(** ** What the effects say *)

Definition probe_sends (effects : list effect) : list (bytes * UdpSendOptions) :=
  omap (fun e => match e with SendWithOptions _ d o => Some (d, o) | _ => None end) effects.

Definition control_sends (control : handle) (effects : list effect) : list bytes :=
  omap (fun e => match e with
                 | Send h d => if decide (h = control) then Some d else None
                 | _ => None
                 end) effects.

Definition events_of (conn_id : string) (queue : list TrackedPacketEvent) : list TrackedPacketEvent :=
  filter (fun e => ev_conn_id e = conn_id) queue.

Definition has_ttl (e : TrackedPacketEvent) : Prop := is_some (ttl (ev_send_options e)) = true.

(** The hop message of an event that has a TTL. *)
Definition hop_of (survey_session_id : string) (e : TrackedPacketEvent) : ControlMessage :=
  trace_hop survey_session_id (default 0 (ttl (ev_send_options e))) e.

Lemma event_hop_Ret e : has_ttl e -> event_hop e = Ret (default 0 (ttl (ev_send_options e))).
Proof. unfold has_ttl, event_hop. by destruct (ttl (ev_send_options e)). Qed.

Section round_lemmas.
  Context (control_to_vec : ControlMessage -> option bytes)
    (testprobe_to_vec : TestProbePacket -> option bytes).

Lemma control_sends_app control l k :
  control_sends control (l ++ k) = control_sends control l ++ control_sends control k.
Proof. apply omap_app. Qed.

Lemma probe_sends_app l k : probe_sends (l ++ k) = probe_sends l ++ probe_sends k.
Proof. apply omap_app. Qed.

Lemma control_sends_send_control control m :
  control_sends control (send_control control_to_vec control m) = omap control_to_vec [m].
Proof.
  unfold send_control. simpl. destruct (control_to_vec m); simpl; [|done]. by rewrite decide_True.
Qed.

Lemma probe_sends_send_control control m :
  probe_sends (send_control control_to_vec control m) = [].
Proof. unfold send_control. by destruct (control_to_vec m). Qed.

(** Draining reports every event of the connection, in order. *)
Lemma drain_traceroute_events_Ret queue control survey s :
  Forall has_ttl (events_of (cs_conn_id s) queue) ->
  Z.of_nat (length (events_of (cs_conn_id s) queue)) < 2 ^ 31 ->
  exists sent,
    drain_traceroute_events control_to_vec queue control survey s
    = Ret (Z.of_nat (length (events_of (cs_conn_id s) queue)), sent)
    /\ control_sends control sent
       = omap control_to_vec (map (hop_of survey) (events_of (cs_conn_id s) queue))
    /\ probe_sends sent = [].
Proof.
  intros Httl Hlen. unfold drain_traceroute_events. rewrite partition_events_spec. cbn [fst].
  fold (events_of (cs_conn_id s) queue).
  induction (events_of (cs_conn_id s) queue) as [|e es IH] using rev_ind; [by exists []|].
  apply Forall_app in Httl as [Hes [He _]%Forall_cons]. rewrite length_app in *. simpl length in *.
  destruct IH as (sent & Hrun & Hc & Hp); [done|lia|].
  exists (sent ++ send_control control_to_vec control (hop_of survey e)).
  rewrite for_each_app, Hrun. cbn [mbind outcome_bind for_each].
  rewrite event_hop_Ret by done. cbn [mbind outcome_bind].
  rewrite checked_i_Ret by (unfold is_i; change (2 ^ (32 - 1)) with (2 ^ 31); lia).
  cbn [mbind outcome_bind]. split; [|split].
  - by replace (Z.of_nat (length es + 1)) with (Z.of_nat (length es) + 1) by lia.
  - by rewrite control_sends_app, Hc, control_sends_send_control, map_app, omap_app.
  - by rewrite probe_sends_app, Hp, probe_sends_send_control.
Qed.

Lemma push_sent_Ret sent q m :
  60000 <= sp_sent_at_ms sent < 2 ^ 64 -> exists qm, push_sent sent q m = Ret qm.
Proof.
  intros H. unfold push_sent. rewrite checked_u_Ret by (unfold is_u; lia). cbn [mbind outcome_bind].
  destruct (pop_front_while _ _). eauto.
Qed.

Lemma record_sent_testprobe_Ret now st :
  60000 <= now < 2 ^ 64 -> 0 <= ms_testprobe_seq st < 2 ^ 64 - 1 ->
  exists st', record_sent_testprobe now st = Ret (ms_testprobe_seq st, st')
    /\ ms_testprobe_seq st' = ms_testprobe_seq st + 1.
Proof.
  intros Hnow Hseq. unfold record_sent_testprobe.
  rewrite checked_u_Ret by (unfold is_u; lia). cbn [mbind outcome_bind].
  destruct (push_sent_Ret (mkSentProbe (ms_testprobe_seq st) now) (ms_sent_testprobes st)
    (ms_sent_testprobes_map st)) as [qm ->]; [done|]. cbn [mbind outcome_bind].
  eexists. split; [reflexivity|]. done.
Qed.

Definition same_session (s s' : ClientSession) : Prop :=
  s' = s {{ cs_measurement_state := cs_measurement_state s' }}.

Lemma same_session_trans s1 s2 s3 : same_session s1 s2 -> same_session s2 s3 -> same_session s1 s3.
Proof.
  unfold same_session. intros H1 H2. rewrite H2, H1. by destruct s1.
Qed.

(** An iteration in which the channel is open, the send succeeds and every
    answer carries a TTL. *)
Definition good_hop (conn_id : string) (testprobe : handle) (o : hop_obs) : Prop :=
  ho_ready o testprobe = true /\ ho_send_ok o = true /\ 60000 <= ho_now_ms o < 2 ^ 64
  /\ Forall has_ttl (events_of conn_id (ho_queue o)).

Definition hop_events (conn_id : string) (hops : list hop_obs) : list TrackedPacketEvent :=
  hops ≫= fun o => events_of conn_id (ho_queue o).

Definition drain_events_seen (conn_id : string) (drains : list drain_obs) : list TrackedPacketEvent :=
  drains ≫= fun o => events_of conn_id (dr_queue o).

Lemma hop_events_cons conn_id o hops :
  hop_events conn_id (o :: hops) = events_of conn_id (ho_queue o) ++ hop_events conn_id hops.
Proof. done. Qed.

  Context (testprobe_to_vec_total : forall p, exists json, testprobe_to_vec p = Some json).

Lemma traceroute_hop_good control survey tp t o s n sent :
  dc_testprobe (cs_data_channels s) = Some tp -> good_hop (cs_conn_id s) tp o ->
  0 <= ms_testprobe_seq (cs_measurement_state s) < 2 ^ 64 - 1 ->
  let es := events_of (cs_conn_id s) (ho_queue o) in
  - 2 ^ 31 <= n - Z.of_nat (length es) -> n + 1 < 2 ^ 31 -> Z.of_nat (length es) < 2 ^ 31 ->
  exists s' sent',
    traceroute_hop control_to_vec testprobe_to_vec control survey t o (s, n, sent)
    = Ret (s', n + 1 - Z.of_nat (length es), sent ++ sent')
    /\ same_session s s'
    /\ ms_testprobe_seq (cs_measurement_state s') = ms_testprobe_seq (cs_measurement_state s) + 1
    /\ map (fun p => uso_ttl p.2) (probe_sends sent') = [Some t]
    /\ control_sends control sent' = omap control_to_vec (map (hop_of survey) es).
Proof.
  intros Htp (Hready & Hok & Hnow & Httl) Hseq es Hlo Hhi Hes. unfold traceroute_hop, ready_channel.
  rewrite Htp, Hready.
  destruct (record_sent_testprobe_Ret (ho_now_ms o) (cs_measurement_state s)) as (st & -> & Hst); [done..|].
  cbn [mbind outcome_bind fst snd].
  set (s' := s {{ cs_measurement_state := st }}).
  destruct (testprobe_to_vec_total (mkTestProbePacket (ms_testprobe_seq (cs_measurement_state s))
    (ho_now_ms o) ServerToClient (Some (traceroute_options t)) (cs_conn_id s'))) as [json ->].
  rewrite Hok. cbn [negb].
  rewrite checked_i_Ret by (unfold is_i; change (2 ^ (32 - 1)) with (2 ^ 31); lia).
  cbn [mbind outcome_bind].
  destruct (drain_traceroute_events_Ret (ho_queue o) control survey s') as (d & -> & Hc & Hp); [done..|].
  cbn [mbind outcome_bind fst snd].
  change (events_of (cs_conn_id s') (ho_queue o)) with es in *.
  rewrite checked_i_Ret by (unfold is_i; change (2 ^ (32 - 1)) with (2 ^ 31); lia).
  cbn [mbind outcome_bind]. rewrite <- (assoc_L (++)).
  eexists s', _. split; [reflexivity|]. split; [by destruct s|]. split; [exact Hst|]. split.
  - rewrite probe_sends_app, Hp. done.
  - rewrite control_sends_app, Hc. done.
Qed.

Lemma same_session_fields s s' : same_session s s' ->
  cs_conn_id s' = cs_conn_id s /\ cs_data_channels s' = cs_data_channels s
  /\ cs_survey_session_id s' = cs_survey_session_id s /\ cs_ip_version s' = cs_ip_version s.
Proof. unfold same_session. intros ->. by destruct s. Qed.

Lemma traceroute_hops_good control survey tp ttls hops s n sent :
  length hops = length ttls ->
  dc_testprobe (cs_data_channels s) = Some tp -> Forall (good_hop (cs_conn_id s) tp) hops ->
  let es := hop_events (cs_conn_id s) hops in
  0 <= ms_testprobe_seq (cs_measurement_state s) ->
  ms_testprobe_seq (cs_measurement_state s) + Z.of_nat (length ttls) < 2 ^ 64 ->
  - 2 ^ 31 <= n - Z.of_nat (length es) -> n + Z.of_nat (length ttls) < 2 ^ 31 ->
  Z.of_nat (length es) < 2 ^ 31 ->
  exists s' sent',
    for_ttls ttls hops (traceroute_hop control_to_vec testprobe_to_vec control survey) (s, n, sent)
    = Ret (s', n + Z.of_nat (length ttls) - Z.of_nat (length es), sent ++ sent')
    /\ same_session s s'
    /\ ms_testprobe_seq (cs_measurement_state s')
       = ms_testprobe_seq (cs_measurement_state s) + Z.of_nat (length ttls)
    /\ map (fun p => uso_ttl p.2) (probe_sends sent') = map Some ttls
    /\ control_sends control sent' = omap control_to_vec (map (hop_of survey) es).
Proof.
  revert hops s n sent. induction ttls as [|t ttls IH]; intros [|o hops] s n sent Hlen Htp Hgood; try done.
  - intros es ? ? ? ? ?. exists s, []. simpl. rewrite app_nil_r, !Z.add_0_r, Z.sub_0_r.
    repeat split; [by destruct s|done..].
  - intros es Hs1 Hs2 Hlo Hhi Hes. apply Forall_cons in Hgood as [Ho Hgood].
    injection Hlen as Hlen. subst es.
    rewrite hop_events_cons, length_app in *. cbn [length] in *.
    destruct (traceroute_hop_good control survey tp t o s n sent) as (s1 & e1 & H1 & Hss & Hq1 & Hp1 & Hc1);
      [done|done|lia|lia|lia|lia|].
    destruct (same_session_fields s s1 Hss) as (Hconn & Hdc & _ & _).
    destruct (IH hops s1 (n + 1 - Z.of_nat (length (events_of (cs_conn_id s) (ho_queue o)))) (sent ++ e1))
      as (s2 & e2 & H2 & Hss2 & Hq2 & Hp2 & Hc2).
    all: rewrite ?Hconn, ?Hdc in *; try done; try lia.
    exists s2, (e1 ++ e2). cbn [for_ttls]. rewrite H1. cbn [mbind outcome_bind]. rewrite H2.
    split; [by rewrite (assoc_L (++)); do 2 f_equal; f_equal; lia|].
    split; [by eapply same_session_trans|]. split; [lia|].
    by rewrite probe_sends_app, control_sends_app, map_app, Hp1, Hp2, Hc1, Hc2, map_app, omap_app.
Qed.

Lemma drain_events_seen_cons conn_id o drains :
  drain_events_seen conn_id (o :: drains)
  = events_of conn_id (dr_queue o) ++ drain_events_seen conn_id drains.
Proof. done. Qed.

Lemma traceroute_drain_good count control survey drains s n sent :
  (count < length drains)%nat ->
  let es := drain_events_seen (cs_conn_id s) drains in
  Forall has_ttl es ->
  - 2 ^ 31 <= n - Z.of_nat (length es) -> n < 2 ^ 31 -> Z.of_nat (length es) < 2 ^ 31 ->
  exists k n' sent',
    (1 <= k <= S count)%nat
    /\ traceroute_drain control_to_vec count control survey drains (s, n, sent)
       = Ret (s, n', sent ++ sent')
    /\ probe_sends sent' = []
    /\ control_sends control sent'
       = omap control_to_vec (map (hop_of survey) (drain_events_seen (cs_conn_id s) (take k drains))).
Proof.
  revert count n sent. induction drains as [|o drains IH]; intros count n sent Hc es Httl Hlo Hhi Hes;
    [simpl in Hc; lia|].
  subst es. rewrite drain_events_seen_cons in *. apply Forall_app in Httl as [Ho Httl].
  rewrite length_app in *. cbn [traceroute_drain].
  destruct (drain_traceroute_events_Ret (dr_queue o) control survey s) as (d & -> & Hcd & Hpd); [done|lia|].
  cbn [mbind outcome_bind fst snd].
  rewrite checked_i_Ret by (unfold is_i; change (2 ^ (32 - 1)) with (2 ^ 31); lia).
  cbn [mbind outcome_bind].
  set (n1 := n - Z.of_nat (length (events_of (cs_conn_id s) (dr_queue o)))) in *.
  assert (control_sends control d = omap control_to_vec (map (hop_of survey)
    (drain_events_seen (cs_conn_id s) (take 1 (o :: drains))))) as Hd1.
  { rewrite Hcd. simpl take. rewrite drain_events_seen_cons. unfold drain_events_seen at 1. simpl.
    by rewrite app_nil_r. }
  destruct (is_some (dr_path_ttl o)); [exists 1%nat, n1, d; split; [lia|done]|].
  destruct (Nat.eqb_spec count 0) as [|Hcount]; [exists 1%nat, n1, d; split; [lia|done]|].
  destruct (Z.eqb_spec n1 0); [exists 1%nat, n1, d; split; [lia|done]|].
  simpl in Hc. destruct (IH (pred count) n1 (sent ++ d)) as (k & n' & d' & Hk & -> & Hp' & Hc'); [lia|done|lia..|].
  exists (S k), n', (d ++ d'). split; [lia|]. split; [by rewrite (assoc_L (++))|].
  rewrite probe_sends_app, control_sends_app, Hpd, Hp', Hcd, Hc'. split; [done|].
  simpl take. by rewrite drain_events_seen_cons, map_app, omap_app.
Qed.


(** ** The MTU round *)

Definition reportable (e : TrackedPacketEvent) : Prop :=
  has_ttl e /\ is_u 32 (ev_tracked_ip_length e).

Lemma drain_mtu_events_Ret queue control survey s :
  Forall reportable (events_of (cs_conn_id s) queue) ->
  exists sent, drain_mtu_events control_to_vec queue control survey s = Ret sent
    /\ probe_sends sent = [].
Proof.
  intros H. unfold drain_mtu_events. rewrite partition_events_spec. cbn [fst].
  fold (events_of (cs_conn_id s) queue).
  induction (events_of (cs_conn_id s) queue) as [|e es IH] using rev_ind; [by exists []|].
  apply Forall_app in H as [Hes [[He Hl] _]%Forall_cons].
  destruct IH as (sent & Hrun & Hp); [done|].
  rewrite for_each_app, Hrun. cbn [mbind outcome_bind for_each].
  rewrite event_hop_Ret by done. cbn [mbind outcome_bind].
  destruct (extract_mtu_no_panic (ev_icmp_packet e)) as [mtu ->]. cbn [mbind outcome_bind].
  rewrite decide_True by done. cbn [mbind outcome_bind].
  eexists. split; [reflexivity|]. by rewrite probe_sends_app, Hp, probe_sends_send_control.
Qed.

Definition good_mtu_hop (conn_id : string) (testprobe : handle) (o : hop_obs) : Prop :=
  ho_ready o testprobe = true /\ ho_send_ok o = true /\ 60000 <= ho_now_ms o < 2 ^ 64
  /\ Forall reportable (events_of conn_id (ho_queue o)).

(** The options and size of an MTU probe. *)
Definition mtu_probe (target_len ttl : Z) (p : bytes * UdpSendOptions) : Prop :=
  Z.of_nat (length p.1) = target_len /\ uso_ttl p.2 = Some ttl /\ uso_df_bit p.2 = Some true
  /\ uso_bypass_sctp_fragmentation p.2 = true.

Lemma length_pad_to target_len json :
  Z.of_nat (length json) <= target_len -> Z.of_nat (length (pad_to target_len json)) = target_len.
Proof.
  intros H. unfold pad_to. destruct (Z.ltb_spec (Z.of_nat (length json)) target_len); [|lia].
  rewrite length_app, length_replicate. lia.
Qed.

Lemma mtu_hop_round_good packet_size target_len control survey tp t o s sent :
  dc_testprobe (cs_data_channels s) = Some tp -> good_mtu_hop (cs_conn_id s) tp o ->
  0 <= ms_testprobe_seq (cs_measurement_state s) < 2 ^ 64 - 1 -> 0 <= t < 256 ->
  mtu_target_len packet_size (cs_ip_version s) = Ret target_len ->
  (forall p json, testprobe_to_vec p = Some json -> Z.of_nat (length json) <= target_len) ->
  exists s' sent',
    mtu_hop_round control_to_vec testprobe_to_vec packet_size control survey t o (s, sent)
    = Ret (s', sent ++ sent')
    /\ same_session s s'
    /\ ms_testprobe_seq (cs_measurement_state s') = ms_testprobe_seq (cs_measurement_state s) + 1
    /\ exists p, probe_sends sent' = [p] /\ mtu_probe target_len t p.
Proof.
  intros Htp (Hready & Hok & Hnow & Httl) Hseq Ht Htl Hfit. unfold mtu_hop_round, ready_channel.
  rewrite Htp, Hready.
  destruct (record_sent_testprobe_Ret (ho_now_ms o) (cs_measurement_state s)) as (st & -> & Hst); [done..|].
  cbn [mbind outcome_bind fst snd].
  set (s' := s {{ cs_measurement_state := st }}).
  set (probe := mkTestProbePacket _ _ _ _ _).
  destruct (testprobe_to_vec_total probe) as [json Hjson]. rewrite Hjson.
  change (cs_ip_version s') with (cs_ip_version s). rewrite Htl, Hok. cbn [mbind outcome_bind negb].
  destruct (drain_mtu_events_Ret (ho_queue o) control survey s') as (d & -> & Hp); [done|].
  cbn [mbind outcome_bind]. rewrite <- (assoc_L (++)).
  eexists s', _. split; [reflexivity|]. split; [by destruct s|]. split; [exact Hst|].
  eexists. split; [by rewrite probe_sends_app, Hp|].
  split; [apply length_pad_to; by eapply Hfit|]. simpl.
  rewrite as_u_small by (unfold is_u; change (2 ^ 8) with 256; lia). done.
Qed.

Lemma mtu_hops_good packet_size target_len control survey tp ttls hops s sent :
  length hops = length ttls ->
  dc_testprobe (cs_data_channels s) = Some tp -> Forall (good_mtu_hop (cs_conn_id s) tp) hops ->
  0 <= ms_testprobe_seq (cs_measurement_state s) ->
  ms_testprobe_seq (cs_measurement_state s) + Z.of_nat (length ttls) < 2 ^ 64 ->
  Forall (fun t => 0 <= t < 256) ttls ->
  mtu_target_len packet_size (cs_ip_version s) = Ret target_len ->
  (forall p json, testprobe_to_vec p = Some json -> Z.of_nat (length json) <= target_len) ->
  exists s' sent',
    for_ttls ttls hops (mtu_hop_round control_to_vec testprobe_to_vec packet_size control survey)
      (s, sent) = Ret (s', sent ++ sent')
    /\ same_session s s' /\ Forall2 (mtu_probe target_len) ttls (probe_sends sent').
Proof.
  revert hops s sent. induction ttls as [|t ttls IH]; intros [|o hops] s sent Hlen Htp Hgood; try done.
  - intros. exists s, []. simpl. rewrite app_nil_r. repeat split; [by destruct s|constructor].
  - intros Hs1 Hs2 [Ht Httls]%Forall_cons Htl Hfit. apply Forall_cons in Hgood as [Ho Hgood].
    injection Hlen as Hlen. cbn [length] in *.
    destruct (mtu_hop_round_good packet_size target_len control survey tp t o s sent)
      as (s1 & e1 & H1 & Hss & Hq1 & p & Hp1 & Hmp); [done|done|lia|done|done|done|].
    destruct (same_session_fields s s1 Hss) as (Hconn & Hdc & _ & Hip).
    destruct (IH hops s1 (sent ++ e1)) as (s2 & e2 & H2 & Hss2 & Hp2).
    all: rewrite ?Hconn, ?Hdc, ?Hip in *; try done; try lia.
    exists s2, (e1 ++ e2). cbn [for_ttls]. rewrite H1. cbn [mbind outcome_bind]. rewrite H2.
    split; [by rewrite (assoc_L (++))|]. split; [by eapply same_session_trans|].
    rewrite probe_sends_app, Hp1. by constructor.
Qed.

Lemma mtu_drain_good count control survey queues s sent :
  (count < length queues)%nat ->
  Forall (fun q => Forall reportable (events_of (cs_conn_id s) q)) queues ->
  exists sent', mtu_drain control_to_vec count control survey queues (s, sent) = Ret (s, sent ++ sent')
    /\ probe_sends sent' = [].
Proof.
  revert count sent. induction queues as [|q queues IH]; intros count sent Hc H; [simpl in Hc; lia|].
  apply Forall_cons in H as [Hq H]. cbn [mtu_drain].
  destruct (drain_mtu_events_Ret q control survey s Hq) as (d & -> & Hd). cbn [mbind outcome_bind].
  destruct count as [|count]; [by exists d|].
  destruct (IH count (sent ++ d)) as (d' & -> & Hd'); [simpl in Hc; lia|done|].
  exists (d ++ d'). by rewrite (assoc_L (++)), probe_sends_app, Hd, Hd'.
Qed.

(** The headers of a probe: IP, UDP and SCTP. *)
Definition mtu_overhead (ip_version : string) : Z :=
  if (ip_version =? "ipv4")%string then 56 else 76.

Lemma mtu_target_len_Ret packet_size v :
  mtu_overhead v <= packet_size < 2 ^ 32 ->
  mtu_target_len packet_size (Some v) = Ret (packet_size - mtu_overhead v).
Proof.
  unfold mtu_overhead, mtu_target_len. intros H.
  destruct (v =? "ipv4")%string; apply checked_u_Ret; unfold is_u; lia.
Qed.

(** An MTU round on an open session of known address family returns, and
    for each TTL below that of the path sends one probe whose payload with the
    IP, UDP and SCTP headers makes a packet of exactly the requested size, with
    the DF bit set and fragmentation bypassed; its last message is the
    completion for that size. *)
Theorem mtu_round_probe_sizes packet_size path_ttl collect_timeout_ms ready control tp hops queues s v :
  ready_channel ready (dc_control (cs_data_channels s)) = Some control ->
  dc_testprobe (cs_data_channels s) = Some tp -> cs_ip_version s = Some v ->
  1 <= path_ttl <= 256 -> Z.of_nat (length hops) = path_ttl - 1 ->
  Forall (good_mtu_hop (cs_conn_id s) tp) hops ->
  0 <= collect_timeout_ms -> collect_timeout_ms / 500 < Z.of_nat (length queues) ->
  Forall (fun q => Forall reportable (events_of (cs_conn_id s) q)) queues ->
  0 <= ms_testprobe_seq (cs_measurement_state s) < 2 ^ 64 - 256 -> packet_size < 2 ^ 32 ->
  (forall p json, testprobe_to_vec p = Some json ->
     Z.of_nat (length json) + mtu_overhead v <= packet_size) ->
  exists s' sent,
    run_mtu_traceroute_round control_to_vec testprobe_to_vec packet_size path_ttl
      collect_timeout_ms ready hops queues s
    = Ret (s', sent ++ send_control control_to_vec control
             (MtuTracerouteCompleted (mkMtuTracerouteCompletedMessage (cs_conn_id s)
                (cs_survey_session_id s) packet_size)))
    /\ Forall2 (fun ttl p =>
         Z.of_nat (length p.1) + mtu_overhead v = packet_size /\ uso_ttl p.2 = Some ttl
         /\ uso_df_bit p.2 = Some true /\ uso_bypass_sctp_fragmentation p.2 = true)
         (seqZ 1 (path_ttl - 1)) (probe_sends sent).
Proof.
  intros Hctl Htp Hv Hpt Hlen Hgood Hct Hq Hrep Hseq Hps Hfit.
  assert (mtu_overhead v <= packet_size) as Hov.
  { destruct (testprobe_to_vec_total (mkTestProbePacket 0 0 ServerToClient None "x")) as [j Hj].
    apply Hfit in Hj. lia. }
  pose proof (mtu_target_len_Ret packet_size v ltac:(lia)) as Htl. rewrite <- Hv in Htl.
  unfold run_mtu_traceroute_round. rewrite Hctl.
  destruct (mtu_hops_good packet_size (packet_size - mtu_overhead v) control (cs_survey_session_id s)
    tp (seqZ 1 (path_ttl - 1)) hops s []) as (s1 & e1 & -> & Hss & Hp1); try done.
  - rewrite length_seqZ. lia.
  - lia.
  - rewrite length_seqZ. lia.
  - apply Forall_forall. intros t [Ht1 Ht2]%elem_of_seqZ. lia.
  - intros p json Hj. apply Hfit in Hj. lia.
  - cbn [mbind outcome_bind]. destruct (same_session_fields s s1 Hss) as (Hconn & _ & _ & _).
    destruct (mtu_drain_good (Z.to_nat (collect_timeout_ms / 500)) control (cs_survey_session_id s)
      queues s1 ([] ++ e1)) as (e2 & -> & Hp2).
    { pose proof (Z.div_pos collect_timeout_ms 500). lia. }
    { by rewrite Hconn. }
    cbn [mbind outcome_bind]. rewrite Hconn. eexists s1, _. split; [reflexivity|].
    rewrite probe_sends_app, Hp2, app_nil_r. eapply Forall2_impl; [exact Hp1|].
    intros ttl p (Hl & Ht & Hd & Hb). repeat split; try done. lia.
Qed.

Lemma mtu_hop_round_panics packet_size control survey tp t o s sent v :
  dc_testprobe (cs_data_channels s) = Some tp -> cs_ip_version s = Some v ->
  ho_ready o tp = true -> 60000 <= ho_now_ms o < 2 ^ 64 ->
  0 <= ms_testprobe_seq (cs_measurement_state s) < 2 ^ 64 - 1 -> packet_size < mtu_overhead v ->
  mtu_hop_round control_to_vec testprobe_to_vec packet_size control survey t o (s, sent)
  = Panic ArithmeticOverflow.
Proof.
  intros Htp Hv Hready Hnow Hseq Hps. unfold mtu_hop_round, ready_channel. rewrite Htp, Hready.
  destruct (record_sent_testprobe_Ret (ho_now_ms o) (cs_measurement_state s)) as (st & -> & _); [done..|].
  cbn [mbind outcome_bind fst snd].
  set (s' := s {{ cs_measurement_state := st }}).
  set (probe := mkTestProbePacket _ _ _ _ _).
  destruct (testprobe_to_vec_total probe) as [json ->].
  change (cs_ip_version s') with (cs_ip_version s). rewrite Hv.
  revert Hps. unfold mtu_target_len, mtu_overhead.
  destruct (v =? "ipv4")%string; intros Hps; by rewrite checked_u_panic by (unfold is_u; lia).
Qed.

(** A requested size below the headers, which a client is free to send,
    makes the round panic at its first probe: it reports nothing, not even its
    completion. *)
Theorem mtu_round_small_size_panics packet_size path_ttl collect_timeout_ms ready control tp o hops
    queues s v :
  ready_channel ready (dc_control (cs_data_channels s)) = Some control ->
  dc_testprobe (cs_data_channels s) = Some tp -> cs_ip_version s = Some v ->
  2 <= path_ttl -> ho_ready o tp = true -> 60000 <= ho_now_ms o < 2 ^ 64 ->
  0 <= ms_testprobe_seq (cs_measurement_state s) < 2 ^ 64 - 1 ->
  packet_size < mtu_overhead v ->
  run_mtu_traceroute_round control_to_vec testprobe_to_vec packet_size path_ttl
    collect_timeout_ms ready (o :: hops) queues s = Panic ArithmeticOverflow.
Proof.
  intros Hctl Htp Hv Hpt Hready Hnow Hseq Hps. unfold run_mtu_traceroute_round. rewrite Hctl.
  rewrite (seqZ_cons 1 (path_ttl - 1)) by lia. cbn [for_ttls].
  by rewrite (mtu_hop_round_panics packet_size control (cs_survey_session_id s) tp 1 o s [] v).
Qed.

End round_lemmas.

(** ** Witnesses *)

Definition sample_event (hop : Z) : TrackedPacketEvent :=
  mkTrackedPacketEvent [] [] 84 [] 1000000 31000000
    (mkSendOptions (Some hop) (Some true) None None 5000 false false)
    (Some "10.0.0.1"%string) "c" 3478 "192.0.2.7:5000".

Definition sample_session : ClientSession :=
  mkClientSession "s" None (Some "ipv4"%string) None "c" "survey" 0%nat
    (mkDataChannels (Some 1%nat) (Some 2%nat) (Some 3%nat) (Some 4%nat))
    ClientMetrics_default MeasurementState_new 0 [] None 0 None None None.

Definition sample_hop (hop : Z) : hop_obs := mkHopObs (fun _ => true) 100000 true [sample_event hop].


