(* ===== verification/BoundedLog.v ===== *)
(** * Bounded logs

    Two components keep the most recent entries of an endless stream in a
    vector they overwrite cyclically: the packet ring of
    server/src/packet_capture.rs and the log buffer of
    server/src/tracing_buffer.rs.  This file states what such a log promises, an
    abstract list truncated to its last [cap] entries, as a class with its laws,
    proves the cyclic implementation once, and derives what clients use. *)

From stdpp Require Import base list.
From Stdlib Require Import ZArith Lia.
From S2P Require Import Prelude.

(** ** Vectors *)

(** [v[i] = x] *)
Definition set_index {A} (l : list A) (i : nat) (x : A) : outcome (list A) :=
  if decide (i < length l) then Ret (<[i:=x]> l) else Panic IndexOutOfBounds.

(** [a % b] on [usize] *)
Definition rem_usize (a b : nat) : outcome nat :=
  if decide (b = 0) then Panic RemainderByZero else Ret (a mod b).

(** ** The specification: the last [n] entries of a list *)

Definition last_n {A} (n : nat) (l : list A) : list A := drop (length l - n) l.

Lemma length_last_n {A} n (l : list A) : length (last_n n l) = n `min` length l.
Proof. unfold last_n. rewrite length_drop. lia. Qed.

Lemma last_n_all {A} n (l : list A) : length l <= n -> last_n n l = l.
Proof. intros. unfold last_n. by replace (length l - n) with 0 by lia. Qed.

Lemma last_n_app_r {A} n (l k : list A) : last_n n (last_n n l ++ k) = last_n n (l ++ k).
Proof.
  unfold last_n. rewrite !length_app, length_drop.
  destruct (decide (length l <= n)).
  - replace (length l - n) with 0 by lia. rewrite drop_0. f_equal. lia.
  - rewrite (skipn_app (length l + length k - n) l k).
    rewrite (skipn_app _ (drop _ l) k), drop_drop, length_drop. f_equal; f_equal; lia.
Qed.

(** ** The interface *)

Class BoundedLog (S A : Type) := {
  log_cap : S -> nat;                       (* capacity *)
  log_push : A -> S -> outcome S;
  log_read : S -> outcome (list A);         (* oldest first *)
  log_clear : S -> S;
  log_wf : S -> Prop;                       (* well-formed, and accepting entries *)
  log_room : nat -> S -> Prop;              (* that many pushes do not exhaust a counter *)
  log_view : S -> list A;                   (* the abstract list *)
}.

Class BoundedLogLaws (S A : Type) `{BoundedLog S A} := {
  law_push s x n : log_wf s -> log_room (Datatypes.S n) s ->
    exists s', log_push x s = Ret s' /\ log_wf s' /\ log_room n s'
      /\ log_cap s' = log_cap s /\ log_view s' = last_n (log_cap s) (log_view s ++ [x]);
  law_read s : log_wf s -> log_read s = Ret (log_view s);
  law_clear s : log_wf s -> log_wf (log_clear s) /\ log_view (log_clear s) = [];
  law_bound s : log_wf s -> length (log_view s) <= log_cap s;
}.

(** ** What clients use *)

Section clients.
  Context {S A : Type} `{BoundedLogLaws S A}.

(** Pushing a whole stream. *)
Definition log_push_all (xs : list A) (s : S) : outcome S := for_each xs log_push s.

Lemma log_push_all_view xs s :
  log_wf s -> log_room (length xs) s ->
  exists s', log_push_all xs s = Ret s' /\ log_wf s' /\ log_cap s' = log_cap s
    /\ log_view s' = last_n (log_cap s) (log_view s ++ xs).
Proof.
  revert s. induction xs as [|x xs IH]; intros s Hwf Hroom; simpl in *.
  - exists s. rewrite app_nil_r, last_n_all by by apply law_bound. done.
  - destruct (law_push s x (length xs) Hwf Hroom) as (s1 & Hs1 & Hwf1 & Hroom1 & Hcap & Hview).
    destruct (IH s1 Hwf1 Hroom1) as (s2 & Hs2 & Hwf2 & Hcap2 & Hview2).
    exists s2. split; [unfold log_push_all; cbn [for_each]; by rewrite Hs1|].
    split; [done|]. split; [congruence|].
    rewrite Hview2, Hcap, Hview, last_n_app_r. by rewrite <- (assoc_L (++)).
Qed.

Lemma log_push_all_read xs s :
  log_wf s -> log_room (length xs) s -> log_view s = [] ->
  exists s', log_push_all xs s = Ret s' /\ log_read s' = Ret (last_n (log_cap s) xs).
Proof.
  intros Hwf Hroom Hnil.
  destruct (log_push_all_view xs s Hwf Hroom) as (s' & Hs' & Hwf' & _ & Hview).
  exists s'. split; [done|]. rewrite law_read by done. by rewrite Hview, Hnil.
Qed.

End clients.

(** ** The cyclic implementation

    A vector and a write position: append until the vector is full, then
    overwrite the oldest entry, which the position points to. *)

Definition ring_wf {A} (cap : nat) (items : list A) (pos : nat) : Prop :=
  0 < cap /\ length items <= cap /\ pos < cap /\ (length items < cap -> pos = length items).

Definition ring_view {A} (cap : nat) (items : list A) (pos : nat) : list A :=
  if decide (length items < cap) then items else drop pos items ++ take pos items.

Definition ring_push {A} (cap : nat) (x : A) (items : list A) (pos : nat)
    : outcome (list A * nat) :=
  items ← (if decide (length items < cap) then Ret (items ++ [x]) else set_index items pos x);
  pos ← rem_usize (pos + 1) cap;
  Ret (items, pos).

Lemma rem_usize_next pos cap : pos < cap ->
  rem_usize (pos + 1) cap = Ret (if decide (pos + 1 = cap) then 0 else pos + 1).
Proof.
  intros Hpos. unfold rem_usize. rewrite decide_False by lia. f_equal. case_decide as E.
  - rewrite E. apply Nat.Div0.mod_same.
  - apply Nat.mod_small. lia.
Qed.

Lemma ring_push_spec {A} cap (x : A) items pos :
  ring_wf cap items pos ->
  exists items' pos', ring_push cap x items pos = Ret (items', pos')
    /\ ring_wf cap items' pos'
    /\ ring_view cap items' pos' = last_n cap (ring_view cap items pos ++ [x]).
Proof.
  intros (Hcap & Hlen & Hpos & Hinv). unfold ring_push, ring_view at 2.
  rewrite rem_usize_next by done. destruct (decide (length items < cap)) as [Hlt|Hge].
  - specialize (Hinv Hlt). subst pos. eexists _, _. split; [reflexivity|]. split.
    + repeat split; rewrite ?length_app; simpl; try lia; case_decide; lia.
    + rewrite last_n_all by (rewrite length_app; simpl; lia).
      unfold ring_view. rewrite length_app. cbn [length].
      destruct (decide (length items + 1 < cap)); [done|].
      destruct (decide (length items + 1 = cap)); [|lia].
      rewrite drop_0, take_0. apply app_nil_r.
  - assert (length items = cap) as Hfull by lia. unfold set_index.
    destruct (decide (pos < length items)); [|lia]. eexists _, _. split; [reflexivity|].
    split; [repeat split; rewrite ?length_insert; try lia; case_decide; lia|].
    unfold ring_view, last_n. rewrite length_insert.
    destruct (decide (length items < cap)); [lia|].
    rewrite !length_app, length_drop, length_take_le by lia. simpl.
    replace (length items - pos + pos + 1 - cap) with 1 by lia.
    destruct (lookup_lt_is_Some_2 items pos ltac:(lia)) as [y Hy].
    rewrite (drop_S items y pos Hy). simpl. rewrite drop_0.
    rewrite insert_take_drop by lia. case_decide as E.
    + rewrite drop_0, take_0, app_nil_r.
      rewrite !(drop_ge items (S pos)) by lia. done.
    + rewrite drop_app_ge, take_app_ge by (rewrite length_take_le; lia).
      rewrite length_take_le by lia. replace (pos + 1 - pos) with 1 by lia. simpl.
      by rewrite drop_0, take_0, <- (assoc_L (++)).
Qed.

Lemma ring_new_wf {A} cap : 0 < cap -> ring_wf cap (@nil A) 0 /\ ring_view cap (@nil A) 0 = [].
Proof. intros. unfold ring_wf, ring_view. simpl. split; [repeat split; lia|by case_decide]. Qed.

Lemma length_ring_view {A} cap (items : list A) pos : length (ring_view cap items pos) = length items.
Proof.
  unfold ring_view. case_decide; [done|]. rewrite length_app, length_drop, length_take. lia.
Qed.
