(* ===== verification/Capture.v ===== *)
(** * Packet capture (server/src/packet_capture.rs)

    The ring of captured packets, the registry that maps client addresses to
    survey sessions, the parsing that tags a captured frame with its session,
    and the PCAP export.  The libpcap loop itself is input and output. *)

From stdpp Require Import base list gmap strings.
From Stdlib Require Import ZArith Lia.
From S2P Require Import Prelude Net Wire BoundedLog.
Local Open Scope Z_scope.

(** ** Data *)

Record CapturedPacket := mkCapturedPacket {
  cp_ts_sec : Z;
  cp_ts_usec : Z;
  cp_orig_len : Z;
  cp_data : bytes;
  cp_survey_session_id : option string }.

Record CaptureConfig := mkCaptureConfig {
  cc_max_packets : nat;
  cc_snaplen : Z;
  cc_interface : string;
  cc_enabled : bool;
  cc_promiscuous : bool }.

(** [max_packets] is 10000. *)
Definition CaptureConfig_default : CaptureConfig :=
  mkCaptureConfig (Z.to_nat 10000) 65535 String.EmptyString false true.

Record PacketRingBuffer := mkPacketRingBuffer {
  prb_config : CaptureConfig;
  prb_packets : list CapturedPacket;
  prb_write_pos : nat;
  prb_total_captured : Z;
  prb_datalink : Z }.

Record CaptureStats := mkCaptureStats {
  cs_packets_in_buffer : nat;
  cs_max_packets : nat;
  cs_total_captured : Z;
  cs_snaplen : Z }.

(** ** The ring *)

Module PacketRingBuffer.

Definition new (config : CaptureConfig) : PacketRingBuffer :=
  mkPacketRingBuffer config [] 0 0 1.

Definition set_datalink (datalink : Z) (b : PacketRingBuffer) : PacketRingBuffer :=
  mkPacketRingBuffer (prb_config b) (prb_packets b) (prb_write_pos b) (prb_total_captured b) datalink.

Definition add_packet (packet : CapturedPacket) (b : PacketRingBuffer) : outcome PacketRingBuffer :=
  let max_packets := cc_max_packets (prb_config b) in
  packets ←
    (if decide (length (prb_packets b) < max_packets)%nat
     then Ret (prb_packets b ++ [packet])
     else set_index (prb_packets b) (prb_write_pos b) packet);
  write_pos ← rem_usize (prb_write_pos b + 1) max_packets;
  total_captured ← checked_u 64 (prb_total_captured b + 1);
  Ret (mkPacketRingBuffer (prb_config b) packets write_pos total_captured (prb_datalink b)).

Definition get_packets (b : PacketRingBuffer) : outcome (list CapturedPacket) :=
  if decide (length (prb_packets b) < cc_max_packets (prb_config b))%nat
  then Ret (prb_packets b)
  else
    older ← slice (prb_packets b) (prb_write_pos b) (length (prb_packets b));
    newer ← slice (prb_packets b) 0 (prb_write_pos b);
    Ret (older ++ newer).

Definition get_packets_for_session (survey_session_id : string) (b : PacketRingBuffer)
    : outcome (list CapturedPacket) :=
  filter (fun p => cp_survey_session_id p = Some survey_session_id) <$> get_packets b.

Definition stats (b : PacketRingBuffer) : CaptureStats :=
  mkCaptureStats (length (prb_packets b)) (cc_max_packets (prb_config b))
    (prb_total_captured b) (as_u 32 (cc_snaplen (prb_config b))).

Definition clear (b : PacketRingBuffer) : PacketRingBuffer :=
  mkPacketRingBuffer (prb_config b) [] 0 (prb_total_captured b) (prb_datalink b).

End PacketRingBuffer.

#[export] Instance packet_ring_log : BoundedLog PacketRingBuffer CapturedPacket := {|
  log_cap b := cc_max_packets (prb_config b);
  log_push := PacketRingBuffer.add_packet;
  log_read := PacketRingBuffer.get_packets;
  log_clear := PacketRingBuffer.clear;
  log_wf b := ring_wf (cc_max_packets (prb_config b)) (prb_packets b) (prb_write_pos b)
              /\ 0 <= prb_total_captured b;
  log_room n b := prb_total_captured b + Z.of_nat n < 2 ^ 64;
  log_view b := ring_view (cc_max_packets (prb_config b)) (prb_packets b) (prb_write_pos b) |}.

(** ** The session registry *)

Record SessionRegistry := mkSessionRegistry {
  address_to_session : gmap SocketAddr string;
  server_port_to_session : gmap Z (list string);
  registered_session_ids : gset string }.

Module SessionRegistry.

Definition new : SessionRegistry := mkSessionRegistry ∅ ∅ ∅.

Definition register (client_addr : SocketAddr) (server_port : Z) (survey_session_id : string)
    (r : SessionRegistry) : SessionRegistry :=
  mkSessionRegistry
    (<[client_addr := survey_session_id]> (address_to_session r))
    (if 0 <? server_port
     then <[server_port := default [] (server_port_to_session r !! server_port)
                           ++ [survey_session_id]]> (server_port_to_session r)
     else server_port_to_session r)
    ({[survey_session_id]} ∪ registered_session_ids r).

Definition unregister (client_addr : SocketAddr) (r : SessionRegistry) : SessionRegistry :=
  mkSessionRegistry (delete client_addr (address_to_session r)) (server_port_to_session r)
    (registered_session_ids r).

Definition lookup (addr : SocketAddr) (r : SessionRegistry) : option string :=
  address_to_session r !! addr.

Definition lookup_by_either (src dst : SocketAddr) (r : SessionRegistry) : option string :=
  match address_to_session r !! src with
  | Some s => Some s
  | None => address_to_session r !! dst
  end.

Definition lookup_by_server_port (port : Z) (r : SessionRegistry) : option string :=
  v ← server_port_to_session r !! port; head v.

Definition has_session (survey_session_id : string) (r : SessionRegistry) : bool :=
  bool_decide (survey_session_id ∈ registered_session_ids r).

End SessionRegistry.

(** ** Frame parsing *)

(** Where the IP header starts: after an Ethernet header, or at 0 for raw IP.
    [None] is the early return of the three callers. *)
Definition ip_start_of (data : bytes) : outcome (option nat) :=
  if (14 <=? length data)%nat then
    ethertype ← read_u16_be data 12;
    if (ethertype =? 0x0800) || (ethertype =? 0x86DD) then Ret (Some 14%nat)
    else
      b0 ← index data 0;
      if (Z.shiftr b0 4 =? 4) || (Z.shiftr b0 4 =? 6) then Ret (Some 0%nat) else Ret None
  else Ret (Some 0%nat).

(** [((b & 0x0F) * 4) as usize] *)
Definition ihl_of (b : Z) : outcome nat := Z.to_nat <$> checked_u 8 (Z.land b 15 * 4).

Definition read_ipv4 (data : bytes) (i : nat) : outcome IpAddr :=
  a ← index data i; b ← index data (i + 1); c ← index data (i + 2); d ← index data (i + 3);
  Ret (V4 [a; b; c; d]).

Definition read_ipv6 (data : bytes) (i : nat) : outcome IpAddr :=
  o ← slice data i (i + 16); Ret (V6 o).

Module FrameParsing.

Definition parse_ipv4_udp_addresses (data : bytes) (ip_start : nat)
    : outcome (option (SocketAddr * SocketAddr)) :=
  if (length data <? ip_start + 20)%nat then Ret None else
  b0 ← index data ip_start;
  ihl ← ihl_of b0;
  protocol ← index data (ip_start + 9);
  if negb (protocol =? 17) && negb (protocol =? 1) then Ret None else
  src_ip ← read_ipv4 data (ip_start + 12);
  dst_ip ← read_ipv4 data (ip_start + 16);
  let udp_start := (ip_start + ihl)%nat in
  if (length data <? udp_start + 8)%nat then
    Ret (if protocol =? 1 then Some (mkSocketAddr src_ip 0, mkSocketAddr dst_ip 0) else None)
  else if protocol =? 1 then Ret (Some (mkSocketAddr src_ip 0, mkSocketAddr dst_ip 0)) else
  src_port ← read_u16_be data udp_start;
  dst_port ← read_u16_be data (udp_start + 2);
  Ret (Some (mkSocketAddr src_ip src_port, mkSocketAddr dst_ip dst_port)).

Definition parse_ipv6_udp_addresses (data : bytes) (ip_start : nat)
    : outcome (option (SocketAddr * SocketAddr)) :=
  if (length data <? ip_start + 40)%nat then Ret None else
  next_header ← index data (ip_start + 6);
  if negb (next_header =? 17) && negb (next_header =? 58) then Ret None else
  src_ip ← read_ipv6 data (ip_start + 8);
  dst_ip ← read_ipv6 data (ip_start + 24);
  let udp_start := (ip_start + 40)%nat in
  if next_header =? 58 then Ret (Some (mkSocketAddr src_ip 0, mkSocketAddr dst_ip 0)) else
  if (length data <? udp_start + 8)%nat then Ret None else
  src_port ← read_u16_be data udp_start;
  dst_port ← read_u16_be data (udp_start + 2);
  Ret (Some (mkSocketAddr src_ip src_port, mkSocketAddr dst_ip dst_port)).

Definition parse_packet_addresses (data : bytes) : outcome (option (SocketAddr * SocketAddr)) :=
  if (length data <? 42)%nat then Ret None else
  start ← ip_start_of data;
  match start with
  | None => Ret None
  | Some ip_start =>
      if (length data <=? ip_start)%nat then Ret None else
      b0 ← index data ip_start;
      if ip_version b0 =? 4 then parse_ipv4_udp_addresses data ip_start
      else if ip_version b0 =? 6 then parse_ipv6_udp_addresses data ip_start
      else Ret None
  end.

Definition is_icmp_error_packet (data : bytes) : outcome bool :=
  if (length data <? 34)%nat then Ret false else
  start ← ip_start_of data;
  match start with
  | None => Ret false
  | Some ip_start =>
      if (length data <=? ip_start)%nat then Ret false else
      b0 ← index data ip_start;
      if ip_version b0 =? 4 then
        if (length data <? ip_start + 21)%nat then Ret false else
        protocol ← index data (ip_start + 9);
        if negb (protocol =? 1) then Ret false else
        ihl ← ihl_of b0;
        if (length data <? ip_start + ihl + 1)%nat then Ret false else
        icmp_type ← index data (ip_start + ihl);
        Ret (existsb (Z.eqb icmp_type) [3; 11; 12])
      else if ip_version b0 =? 6 then
        if (length data <? ip_start + 41)%nat then Ret false else
        next_header ← index data (ip_start + 6);
        if negb (next_header =? 58) then Ret false else
        icmpv6_type ← index data (ip_start + 40);
        Ret (existsb (Z.eqb icmpv6_type) [1; 2; 3])
      else Ret false
  end.

Definition extract_embedded_ipv4_destination (data : bytes) (ip_start : nat)
    : outcome (option SocketAddr) :=
  b0 ← index data ip_start;
  ihl ← ihl_of b0;
  let icmp_start := (ip_start + ihl)%nat in
  let embedded_ip_start := (icmp_start + 8)%nat in
  if (length data <? embedded_ip_start + 28)%nat then Ret None else
  e0 ← index data embedded_ip_start;
  embedded_ihl ← ihl_of e0;
  embedded_protocol ← index data (embedded_ip_start + 9);
  if negb (embedded_protocol =? 17) then Ret None else
  dst_ip ← read_ipv4 data (embedded_ip_start + 16);
  let embedded_udp_start := (embedded_ip_start + embedded_ihl)%nat in
  if (length data <? embedded_udp_start + 4)%nat then Ret None else
  dst_port ← read_u16_be data (embedded_udp_start + 2);
  Ret (Some (mkSocketAddr dst_ip dst_port)).

Definition extract_embedded_ipv6_destination (data : bytes) (ip_start : nat)
    : outcome (option SocketAddr) :=
  let icmpv6_start := (ip_start + 40)%nat in
  let embedded_ip_start := (icmpv6_start + 8)%nat in
  if (length data <? embedded_ip_start + 48)%nat then Ret None else
  embedded_next_header ← index data (embedded_ip_start + 6);
  if negb (embedded_next_header =? 17) then Ret None else
  dst_ip ← read_ipv6 data (embedded_ip_start + 24);
  let embedded_udp_start := (embedded_ip_start + 40)%nat in
  if (length data <? embedded_udp_start + 4)%nat then Ret None else
  dst_port ← read_u16_be data (embedded_udp_start + 2);
  Ret (Some (mkSocketAddr dst_ip dst_port)).

Definition extract_embedded_destination (data : bytes) : outcome (option SocketAddr) :=
  start ← ip_start_of data;
  match start with
  | None => Ret None
  | Some ip_start =>
      b0 ← index data ip_start;
      if ip_version b0 =? 4 then extract_embedded_ipv4_destination data ip_start
      else if ip_version b0 =? 6 then extract_embedded_ipv6_destination data ip_start
      else Ret None
  end.

End FrameParsing.
Import FrameParsing.

(** ** The service *)

Record PacketCaptureService := mkPacketCaptureService {
  pcs_buffer : PacketRingBuffer;
  pcs_config : CaptureConfig;
  pcs_session_registry : SessionRegistry }.

Module PacketCaptureService.

Definition new (config : CaptureConfig) : PacketCaptureService :=
  mkPacketCaptureService (PacketRingBuffer.new config) config SessionRegistry.new.

Definition is_enabled (s : PacketCaptureService) : bool := cc_enabled (pcs_config s).

Definition set_datalink (datalink : Z) (s : PacketCaptureService) : PacketCaptureService :=
  mkPacketCaptureService (PacketRingBuffer.set_datalink datalink (pcs_buffer s)) (pcs_config s)
    (pcs_session_registry s).

Definition register_session (client_addr : SocketAddr) (server_port : Z)
    (survey_session_id : string) (s : PacketCaptureService) : PacketCaptureService :=
  mkPacketCaptureService (pcs_buffer s) (pcs_config s)
    (SessionRegistry.register client_addr server_port survey_session_id (pcs_session_registry s)).

Definition unregister_session (client_addr : SocketAddr) (s : PacketCaptureService)
    : PacketCaptureService :=
  mkPacketCaptureService (pcs_buffer s) (pcs_config s)
    (SessionRegistry.unregister client_addr (pcs_session_registry s)).

Definition has_session_registered (survey_session_id : string) (s : PacketCaptureService) : bool :=
  SessionRegistry.has_session survey_session_id (pcs_session_registry s).

Definition extract_session_id_from_packet (data : bytes) (registry : SessionRegistry)
    : outcome (option string) :=
  addresses ← parse_packet_addresses data;
  match addresses with
  | None => Ret None
  | Some (src_addr, dst_addr) =>
      match SessionRegistry.lookup_by_either src_addr dst_addr registry with
      | Some session_id => Ret (Some session_id)
      | None =>
          is_error ← is_icmp_error_packet data;
          if is_error : bool then
            embedded ← extract_embedded_destination data;
            match embedded with
            | Some embedded_dst =>
                match SessionRegistry.lookup_by_server_port (port embedded_dst) registry with
                | Some session_id => Ret (Some session_id)
                | None => Ret (SessionRegistry.lookup embedded_dst registry)
                end
            | None => Ret None
            end
          else Ret None
      end
  end.

Definition add_packet (ts_sec ts_usec orig_len : Z) (data : bytes) (s : PacketCaptureService)
    : outcome PacketCaptureService :=
  if cc_enabled (pcs_config s) then
    survey_session_id ← extract_session_id_from_packet data (pcs_session_registry s);
    buffer ← PacketRingBuffer.add_packet
               (mkCapturedPacket ts_sec ts_usec orig_len data survey_session_id) (pcs_buffer s);
    Ret (mkPacketCaptureService buffer (pcs_config s) (pcs_session_registry s))
  else Ret s.

(** One record of the file: header and data. *)
Definition pcap_record (packet : CapturedPacket) : bytes :=
  to_le_bytes 4 (as_u 32 (cp_ts_sec packet)) ++ to_le_bytes 4 (as_u 32 (cp_ts_usec packet))
  ++ to_le_bytes 4 (as_u 32 (Z.of_nat (length (cp_data packet))))
  ++ to_le_bytes 4 (cp_orig_len packet) ++ cp_data packet.

Definition packets_to_pcap (packets : list CapturedPacket) (datalink snaplen : Z) : bytes :=
  let header :=
    to_le_bytes 4 0xa1b2c3d4 ++ to_le_bytes 2 2 ++ to_le_bytes 2 4 ++ to_le_bytes 4 0
    ++ to_le_bytes 4 0 ++ to_le_bytes 4 snaplen ++ to_le_bytes 4 (as_u 32 datalink) in
  foldl (fun output packet => output ++ pcap_record packet) header packets.

Definition generate_pcap (s : PacketCaptureService) : outcome bytes :=
  packets ← PacketRingBuffer.get_packets (pcs_buffer s);
  Ret (packets_to_pcap packets (prb_datalink (pcs_buffer s)) (as_u 32 (cc_snaplen (pcs_config s)))).

Definition generate_pcap_for_session (survey_session_id : string) (s : PacketCaptureService)
    : outcome bytes :=
  packets ← PacketRingBuffer.get_packets_for_session survey_session_id (pcs_buffer s);
  Ret (packets_to_pcap packets (prb_datalink (pcs_buffer s)) (as_u 32 (cc_snaplen (pcs_config s)))).

Definition clear (s : PacketCaptureService) : PacketCaptureService :=
  mkPacketCaptureService (PacketRingBuffer.clear (pcs_buffer s)) (pcs_config s)
    (pcs_session_registry s).

End PacketCaptureService.

(** ** The ring implements a bounded log *)

#[export] Instance packet_ring_laws : BoundedLogLaws PacketRingBuffer CapturedPacket.
Proof.
  split; simpl.
  - intros b x n [Hwf Htot] Hroom.
    destruct (ring_push_spec _ x _ _ Hwf) as (items & pos & Hpush & Hwf' & Hview).
    unfold PacketRingBuffer.add_packet. unfold ring_push in Hpush. invert_ret.
    match goal with H : _ = Ret items |- _ => rewrite H end. cbn [mbind outcome_bind].
    match goal with H : _ = Ret pos |- _ => rewrite H end. cbn [mbind outcome_bind].
    rewrite checked_u_Ret by (unfold is_u; lia). cbn [mbind outcome_bind].
    eexists. split; [reflexivity|]. simpl. repeat split; try apply Hwf'; [lia|lia|done].
  - intros b [(Hcap & Hlen & Hpos & _) _]. unfold PacketRingBuffer.get_packets, ring_view.
    case_decide; [done|]. rewrite !slice_Ret by lia. cbn [mbind outcome_bind].
    rewrite drop_0, Nat.sub_0_r, (take_ge (drop _ _)) by (rewrite length_drop; lia). done.
  - intros b [(Hcap & _) Htot]. destruct (ring_new_wf (A := CapturedPacket) _ Hcap). done.
  - intros b [(Hcap & Hlen & _) _]. rewrite length_ring_view. done.
Qed.

(** ** Parsing never panics *)

Lemma ihl_of_Ret b : ihl_of b = Ret (Z.to_nat (Z.land b 15 * 4)).
Proof. unfold ihl_of. by rewrite checked_u8_header_len. Qed.

Lemma read_ipv4_no_panic data i : (i + 3 < length data)%nat -> no_panic (read_ipv4 data i).
Proof. intros. unfold read_ipv4. solve_no_panic. Qed.

Lemma read_ipv6_no_panic data i : (i + 16 <= length data)%nat -> no_panic (read_ipv6 data i).
Proof.
  intros. unfold read_ipv6. apply bind_no_panic; [apply slice_no_panic; lia|].
  intros. apply no_panic_Ret.
Qed.

Lemma ip_start_of_no_panic data : no_panic (ip_start_of data).
Proof. unfold ip_start_of. destruct (Nat.leb_spec 14 (length data)); solve_no_panic. Qed.

(** The branches of the frame parsers; their guards bound every index. *)
Ltac frame_step :=
  match goal with
  | |- no_panic (ihl_of _) => rewrite ihl_of_Ret; apply no_panic_Ret
  | |- no_panic (read_ipv4 _ _) => apply read_ipv4_no_panic; lia
  | |- no_panic (read_ipv6 _ _) => apply read_ipv6_no_panic; lia
  | |- no_panic (ip_start_of _) => apply ip_start_of_no_panic
  | |- no_panic (if (?a <? ?b)%nat then _ else _) => destruct (Nat.ltb_spec a b)
  | |- no_panic (if (?a <=? ?b)%nat then _ else _) => destruct (Nat.leb_spec a b)
  | _ => no_panic_step
  end.

Lemma parse_packet_addresses_no_panic data : no_panic (parse_packet_addresses data).
Proof.
  unfold parse_packet_addresses, parse_ipv4_udp_addresses, parse_ipv6_udp_addresses.
  repeat frame_step.
Qed.

Lemma is_icmp_error_packet_no_panic data : no_panic (is_icmp_error_packet data).
Proof. unfold is_icmp_error_packet. repeat frame_step. Qed.

Lemma is_icmp_error_packet_start data b :
  is_icmp_error_packet data = Ret b -> b = true ->
  exists start, ip_start_of data = Ret (Some start) /\ (start < length data)%nat.
Proof.
  unfold is_icmp_error_packet. intros H ->. case_match; [done|]. invert_ret.
  case_match; [|done]. destruct (Nat.leb_spec (length data) n); [done|]. eauto.
Qed.

Lemma extract_embedded_destination_no_panic data :
  is_icmp_error_packet data = Ret true -> no_panic (extract_embedded_destination data).
Proof.
  intros (start & Hstart & Hlen)%is_icmp_error_packet_start; [|done].
  unfold extract_embedded_destination. rewrite Hstart. cbn [mbind outcome_bind].
  unfold extract_embedded_ipv4_destination, extract_embedded_ipv6_destination.
  repeat frame_step.
Qed.

Lemma extract_session_id_no_panic data registry :
  no_panic (PacketCaptureService.extract_session_id_from_packet data registry).
Proof.
  unfold PacketCaptureService.extract_session_id_from_packet.
  apply bind_no_panic; [apply parse_packet_addresses_no_panic|]. intros [[src dst]|] _; [|apply no_panic_Ret].
  case_match; [apply no_panic_Ret|].
  apply bind_no_panic; [apply is_icmp_error_packet_no_panic|]. intros [] He; [|apply no_panic_Ret].
  apply bind_no_panic; [by apply extract_embedded_destination_no_panic|].
  intros. solve_no_panic.
Qed.

(** ** Frames as they are captured *)

Definition eth_frame (macs : bytes) (ethertype : Z) (packet : bytes) : bytes :=
  macs ++ to_be_bytes 2 ethertype ++ packet.

(** An ICMP error over IPv4 that quotes a packet. *)
Definition icmp_error_frame (macs : bytes) (h : ipv4_header) (icmp_type icmp_code : Z)
    (rest quote : bytes) : bytes :=
  eth_frame macs 0x0800 (ipv4_header_bytes h ++ [icmp_type; icmp_code] ++ rest ++ quote).

Lemma ip_start_of_eth macs ethertype packet :
  length macs = 12%nat -> ethertype = 0x0800 \/ ethertype = 0x86DD ->
  ip_start_of (eth_frame macs ethertype packet) = Ret (Some 14%nat).
Proof.
  intros Hm He. unfold ip_start_of, eth_frame. rewrite read_u16_be_at; [|done|].
  - rewrite !length_app, length_to_be_bytes, Hm. by destruct He as [-> | ->].
  - unfold is_u. change (2 ^ 16) with 65536. lia.
Qed.

(** The fields of an IPv4 header found after [pre]. *)
Lemma ipv4_fields pre h post i :
  i = length pre -> ipv4_header_wf h ->
  let data := pre ++ ipv4_header_bytes h ++ post in
  index data i = Ret (16 * 4 + h4_ihl h) /\ index data (i + 9) = Ret (h4_proto h)
  /\ read_ipv4 data (i + 12) = Ret (V4 (h4_src h)) /\ read_ipv4 data (i + 16) = Ret (V4 (h4_dst h)).
Proof.
  intros -> (_ & Hf & Hc & Hs & Hd & _). cbn zeta.
  assert (forall k, index (pre ++ ipv4_header_bytes h ++ post) (length pre + k)
    = index (ipv4_header_bytes h ++ post) k) as Hidx.
  { intros k. rewrite index_app_r by lia. f_equal. lia. }
  unfold read_ipv4. rewrite <- !Nat.add_assoc, !Hidx.
  rewrite <- (Nat.add_0_r (length pre)) at 1. rewrite Hidx.
  destruct h as [ihl fields proto ck src dst opts]. unfold ipv4_header_bytes. simpl in *.
  explode fields Hf. explode ck Hc. explode src Hs. by explode dst Hd.
Qed.

Lemma parse_udp_frame_v4 macs h sp dp len ck payload :
  length macs = 12%nat -> ipv4_header_wf h -> h4_proto h = 17 ->
  is_u 16 sp -> is_u 16 dp -> is_u 16 len -> is_u 16 ck ->
  let data := eth_frame macs 0x0800 (ipv4_header_bytes h ++ udp_header sp dp len ck ++ payload) in
  parse_packet_addresses data
    = Ret (Some (mkSocketAddr (V4 (h4_src h)) sp, mkSocketAddr (V4 (h4_dst h)) dp))
  /\ is_icmp_error_packet data = Ret false.
Proof.
  intros Hm Hh Hp Hsp Hdp Hlen Hck data.
  assert (5 <= h4_ihl h <= 15) as Hihl by apply Hh.
  assert (ip_start_of data = Ret (Some 14%nat)) as Hstart by (apply ip_start_of_eth; [done|by left]).
  set (pre := macs ++ to_be_bytes 2 0x0800).
  assert (14%nat = length pre) as Hpre by (unfold pre; by rewrite length_app, Hm).
  assert (data = pre ++ ipv4_header_bytes h ++ (udp_header sp dp len ck ++ payload)) as Hdata.
  { unfold data, eth_frame, pre. by rewrite <- (assoc_L (++)). }
  destruct (ipv4_fields pre h (udp_header sp dp len ck ++ payload) 14) as (F0 & F9 & F12 & F16);
    [done|done|]. rewrite <- Hdata in F0, F9, F12, F16.
  destruct (udp_header_fields (pre ++ ipv4_header_bytes h) payload sp dp len ck
    (14 + Z.to_nat (h4_ihl h * 4))) as (U0 & U2 & _);
    [by rewrite length_app, <- Hpre, length_ipv4_header|done..|].
  rewrite <- (assoc_L (++)), <- Hdata in U0, U2.
  assert (length data = 14 + Z.to_nat (h4_ihl h * 4) + 8 + length payload)%nat as Hdlen.
  { rewrite Hdata, !length_app, <- Hpre, length_ipv4_header by done. unfold udp_header. simpl. lia. }
  destruct (ip_version_nibbles 4 (h4_ihl h)) as [Hver Hnib]; [lia|lia|].
  unfold parse_packet_addresses, is_icmp_error_packet, parse_ipv4_udp_addresses.
  rewrite Hstart. cbn [mbind outcome_bind]. rewrite F0. cbn [mbind outcome_bind].
  rewrite Hver, ihl_of_Ret, Hnib. cbn [mbind outcome_bind Z.eqb Pos.eqb].
  rewrite F9, Hp. cbn [mbind outcome_bind Z.eqb Pos.eqb negb andb]. rewrite F12, F16.
  cbn [mbind outcome_bind]. rewrite U0. cbn [mbind outcome_bind]. rewrite U2.
  rewrite !(proj2 (Nat.ltb_ge _ _)) by lia. rewrite !(proj2 (Nat.leb_gt _ _)) by lia. done.
Qed.

Lemma read_ipv6_at pre o post i :
  i = length pre -> length o = 16%nat -> read_ipv6 (pre ++ o ++ post) i = Ret (V6 o).
Proof.
  intros -> Ho. unfold read_ipv6. rewrite slice_Ret by (rewrite ?length_app; lia).
  rewrite drop_app_length. replace (length pre + 16 - length pre)%nat with (length o) by lia.
  by rewrite take_app_length.
Qed.

Lemma parse_udp_frame_v6 macs nibble fields hop src dst sp dp len ck payload :
  length macs = 12%nat -> 0 <= nibble <= 15 -> length fields = 5%nat ->
  length src = 16%nat -> length dst = 16%nat ->
  is_u 16 sp -> is_u 16 dp -> is_u 16 len -> is_u 16 ck ->
  let data := eth_frame macs 0x86DD
    (ipv6_header_bytes nibble fields hop src dst ++ udp_header sp dp len ck ++ payload) in
  parse_packet_addresses data = Ret (Some (mkSocketAddr (V6 src) sp, mkSocketAddr (V6 dst) dp))
  /\ is_icmp_error_packet data = Ret false.
Proof.
  intros Hm Hn Hf Hs Hd Hsp Hdp Hlen Hck data.
  set (udp := udp_header sp dp len ck ++ payload).
  assert (ip_start_of data = Ret (Some 14%nat)) as Hstart by (apply ip_start_of_eth; [done|by right]).
  set (pre := macs ++ to_be_bytes 2 0x86DD ++ [96 + nibble] ++ fields ++ [17; hop]).
  assert (22%nat = length pre) as Hpre by (unfold pre; by rewrite !length_app, Hm, Hf).
  assert (data = pre ++ src ++ dst ++ udp) as Hdata.
  { unfold data, eth_frame, ipv6_header_bytes, pre. by rewrite <- !(assoc_L (++)). }
  assert (index data 14 = Ret (16 * 6 + nibble) /\ index data 20 = Ret 17) as [F0 F6].
  { rewrite Hdata. unfold pre. explode macs Hm. by explode fields Hf. }
  assert (read_ipv6 data 22 = Ret (V6 src)) as F8 by (rewrite Hdata; by apply read_ipv6_at).
  assert (read_ipv6 data 38 = Ret (V6 dst)) as F24.
  { rewrite Hdata, (assoc_L (++) pre). apply read_ipv6_at; [|done]. rewrite length_app, <- Hpre, Hs. done. }
  destruct (udp_header_fields (pre ++ src ++ dst) payload sp dp len ck 54) as (U0 & U2 & _);
    [by rewrite !length_app, <- Hpre, Hs, Hd|done..|].
  rewrite <- !(assoc_L (++)) in U0, U2. fold udp in U0, U2. rewrite <- Hdata in U0, U2.
  assert (length data = 62 + length payload)%nat as Hdlen.
  { rewrite Hdata, !length_app, <- Hpre, Hs, Hd. unfold udp. rewrite length_app. done. }
  destruct (ip_version_nibbles 6 nibble) as [Hver _]; [lia|lia|].
  unfold parse_packet_addresses, is_icmp_error_packet, parse_ipv6_udp_addresses.
  rewrite Hstart. cbn [mbind outcome_bind]. rewrite F0. cbn [mbind outcome_bind].
  rewrite Hver. cbn [Z.eqb Pos.eqb Nat.add]. rewrite F6.
  cbn [mbind outcome_bind Z.eqb Pos.eqb negb andb]. rewrite F8. cbn [mbind outcome_bind].
  rewrite F24. cbn [mbind outcome_bind]. rewrite U0. cbn [mbind outcome_bind Nat.add] in *. rewrite U2.
  rewrite !(proj2 (Nat.ltb_ge _ _)) by lia. rewrite !(proj2 (Nat.leb_gt _ _)) by lia. done.
Qed.

(** Where the fields of a captured ICMP error are. *)
Lemma icmp_error_frame_layout macs h icmp_type icmp_code rest h' sp dp len ck quoted :
  length macs = 12%nat -> ipv4_header_wf h -> length rest = 6%nat -> ipv4_header_wf h' ->
  is_u 16 sp -> is_u 16 dp -> is_u 16 len -> is_u 16 ck ->
  let data := icmp_error_frame macs h icmp_type icmp_code rest
    (ipv4_header_bytes h' ++ udp_header sp dp len ck ++ quoted) in
  let off := (14 + Z.to_nat (h4_ihl h * 4))%nat in
  (index data 14 = Ret (16 * 4 + h4_ihl h) /\ index data (14 + 9) = Ret (h4_proto h)
   /\ read_ipv4 data (14 + 12) = Ret (V4 (h4_src h))
   /\ read_ipv4 data (14 + 16) = Ret (V4 (h4_dst h)))
  /\ index data off = Ret icmp_type
  /\ (index data (off + 8) = Ret (16 * 4 + h4_ihl h') /\ index data (off + 8 + 9) = Ret (h4_proto h')
     /\ read_ipv4 data (off + 8 + 16) = Ret (V4 (h4_dst h')))
  /\ read_u16_be data (off + 8 + Z.to_nat (h4_ihl h' * 4) + 2) = Ret dp
  /\ length data = (off + 8 + Z.to_nat (h4_ihl h' * 4) + 8 + length quoted)%nat.
Proof.
  intros Hm Hh Hr Hh' Hsp Hdp Hlen Hck data off.
  set (quote := ipv4_header_bytes h' ++ udp_header sp dp len ck ++ quoted) in data.
  set (pre := macs ++ to_be_bytes 2 0x0800).
  assert (14%nat = length pre) as Hpre by (unfold pre; by rewrite length_app, Hm).
  assert (data = pre ++ ipv4_header_bytes h ++ ([icmp_type; icmp_code] ++ rest ++ quote)) as Hdata.
  { unfold data, icmp_error_frame, eth_frame, pre. by rewrite <- (assoc_L (++)). }
  assert (data = (pre ++ ipv4_header_bytes h ++ [icmp_type; icmp_code] ++ rest) ++ quote) as Hdata'.
  { rewrite Hdata, <- !(assoc_L (++)). done. }
  destruct (ipv4_fields pre h ([icmp_type; icmp_code] ++ rest ++ quote) 14) as (F0 & F9 & F12 & F16);
    [done|done|]. rewrite <- Hdata in F0, F9, F12, F16.
  set (pre2 := pre ++ ipv4_header_bytes h ++ [icmp_type; icmp_code] ++ rest) in Hdata'.
  assert ((off + 8)%nat = length pre2) as Hpre2.
  { unfold pre2, off. rewrite !length_app, <- Hpre, Hr, length_ipv4_header by done. simpl. lia. }
  destruct (ipv4_fields pre2 h' (udp_header sp dp len ck ++ quoted) (off + 8)) as (E0 & E9 & _ & E16);
    [done|done|]. fold quote in E0, E9, E16. rewrite <- Hdata' in E0, E9, E16.
  destruct (udp_header_fields (pre2 ++ ipv4_header_bytes h') quoted sp dp len ck
    (off + 8 + Z.to_nat (h4_ihl h' * 4))) as (_ & U2 & _);
    [by rewrite length_app, <- Hpre2, length_ipv4_header|done..|].
  rewrite <- (assoc_L (++)) in U2. fold quote in U2. rewrite <- Hdata' in U2.
  assert (index data off = Ret icmp_type) as Hty_at.
  { rewrite Hdata, (assoc_L (++)), index_app_r;
      rewrite length_app, <- Hpre, length_ipv4_header by done; [|done].
    by replace (off - _)%nat with 0%nat by (unfold off; lia). }
  assert (length data = off + 8 + Z.to_nat (h4_ihl h' * 4) + 8 + length quoted)%nat as Hdlen.
  { rewrite Hdata', length_app, <- Hpre2. unfold quote.
    rewrite !length_app, length_ipv4_header by done. unfold udp_header. simpl. lia. }
  repeat split; done.
Qed.

(** What a captured ICMP error says: the addresses of its outer header with
    port 0, and the destination of the datagram it quotes. *)
Lemma parse_icmp_error_frame macs h icmp_type icmp_code rest h' sp dp len ck quoted :
  length macs = 12%nat -> ipv4_header_wf h -> h4_proto h = 1 -> length rest = 6%nat ->
  icmp_type ∈ [3; 11; 12] -> ipv4_header_wf h' -> h4_proto h' = 17 ->
  is_u 16 sp -> is_u 16 dp -> is_u 16 len -> is_u 16 ck ->
  let data := icmp_error_frame macs h icmp_type icmp_code rest
    (ipv4_header_bytes h' ++ udp_header sp dp len ck ++ quoted) in
  parse_packet_addresses data
    = Ret (Some (mkSocketAddr (V4 (h4_src h)) 0, mkSocketAddr (V4 (h4_dst h)) 0))
  /\ is_icmp_error_packet data = Ret true
  /\ extract_embedded_destination data = Ret (Some (mkSocketAddr (V4 (h4_dst h')) dp)).
Proof.
  intros Hm Hh Hp Hr Hty Hh' Hp' Hsp Hdp Hlen Hck data.
  assert (5 <= h4_ihl h <= 15 /\ 5 <= h4_ihl h' <= 15) as [Hihl Hihl'] by (split; [apply Hh|apply Hh']).
  assert (ip_start_of data = Ret (Some 14%nat)) as Hstart by (apply ip_start_of_eth; [done|by left]).
  destruct (icmp_error_frame_layout macs h icmp_type icmp_code rest h' sp dp len ck quoted)
    as ((F0 & F9 & F12 & F16) & Hty_at & (E0 & E9 & E16) & U2 & Hdlen); [done..|].
  fold data in F0, F9, F12, F16, Hty_at, E0, E9, E16, U2, Hdlen.
  remember (14 + Z.to_nat (h4_ihl h * 4))%nat as off eqn:Hoff.
  destruct (ip_version_nibbles 4 (h4_ihl h)) as [Hver Hnib]; [lia|lia|].
  destruct (ip_version_nibbles 4 (h4_ihl h')) as [_ Hnib']; [lia|lia|].
  split; [|split].
  - unfold parse_packet_addresses, parse_ipv4_udp_addresses. rewrite Hstart. cbn [mbind outcome_bind].
    rewrite F0. cbn [mbind outcome_bind]. rewrite Hver, ihl_of_Ret, Hnib. cbn [mbind outcome_bind Z.eqb Pos.eqb].
    rewrite F9, Hp. cbn [mbind outcome_bind Z.eqb Pos.eqb negb andb]. rewrite F12, F16.
    rewrite !(proj2 (Nat.ltb_ge _ _)) by lia. rewrite !(proj2 (Nat.leb_gt _ _)) by lia. done.
  - unfold is_icmp_error_packet. rewrite Hstart. cbn [mbind outcome_bind].
    rewrite F0. cbn [mbind outcome_bind]. rewrite Hver, ihl_of_Ret, Hnib, F9, Hp.
    cbn [mbind outcome_bind Z.eqb Pos.eqb negb]. rewrite <- Hoff, Hty_at.
    rewrite !(proj2 (Nat.ltb_ge _ _)) by lia. rewrite !(proj2 (Nat.leb_gt _ _)) by lia.
    cbn [mbind outcome_bind]. apply list_elem_of_In in Hty. by destruct Hty as [<-|[<-|[<-|[]]]].
  - unfold extract_embedded_destination, extract_embedded_ipv4_destination. rewrite Hstart.
    cbn [mbind outcome_bind]. rewrite F0. cbn [mbind outcome_bind].
    rewrite Hver, ihl_of_Ret, Hnib. cbn [mbind outcome_bind Z.eqb Pos.eqb].
    rewrite <- Hoff, E0. cbn [mbind outcome_bind]. rewrite ihl_of_Ret, Hnib', E9, Hp'.
    cbn [mbind outcome_bind Z.eqb Pos.eqb negb]. rewrite E16, U2.
    rewrite !(proj2 (Nat.ltb_ge _ _)) by lia. done.
Qed.

(** ** A reader of PCAP files

    The format as libpcap documents it, little-endian with microseconds: what
    a tool makes of an exported file. *)

Definition take_u (n : nat) (l : bytes) : option (Z * bytes) :=
  if decide (n <= length l)%nat then Some (from_le_bytes (take n l), drop n l) else None.

Definition read_record (l : bytes) : option (CapturedPacket * bytes) :=
  '(ts_sec, l) ← take_u 4 l;
  '(ts_usec, l) ← take_u 4 l;
  '(incl_len, l) ← take_u 4 l;
  '(orig_len, l) ← take_u 4 l;
  if decide (incl_len <= Z.of_nat (length l)) then
    Some (mkCapturedPacket ts_sec ts_usec orig_len (take (Z.to_nat incl_len) l) None,
          drop (Z.to_nat incl_len) l)
  else None.

(** A record takes at least a byte, so the length of the input is fuel enough. *)
Fixpoint read_records (fuel : nat) (l : bytes) : option (list CapturedPacket) :=
  match l, fuel with
  | [], _ => Some []
  | _, O => None
  | _, S fuel => '(p, l) ← read_record l; (p ::.) <$> read_records fuel l
  end.

Record pcap_file := mkPcapFile {
  pf_snaplen : Z; pf_datalink : Z; pf_packets : list CapturedPacket }.

Definition read_pcap (l : bytes) : option pcap_file :=
  '(magic, l) ← take_u 4 l;
  '(major, l) ← take_u 2 l;
  '(minor, l) ← take_u 2 l;
  '(_, l) ← take_u 4 l;
  '(_, l) ← take_u 4 l;
  '(snaplen, l) ← take_u 4 l;
  '(datalink, l) ← take_u 4 l;
  if (magic =? 0xa1b2c3d4) && (major =? 2) && (minor =? 4) then
    mkPcapFile snaplen datalink <$> read_records (length l) l
  else None.

(** What the format can hold of a packet: 32-bit times and lengths. *)
Definition pcap_packet_wf (p : CapturedPacket) : Prop :=
  is_u 32 (cp_ts_sec p) /\ is_u 32 (cp_ts_usec p) /\ is_u 32 (cp_orig_len p)
  /\ Z.of_nat (length (cp_data p)) < 2 ^ 32.

Definition untagged (p : CapturedPacket) : CapturedPacket :=
  mkCapturedPacket (cp_ts_sec p) (cp_ts_usec p) (cp_orig_len p) (cp_data p) None.

Lemma take_u_to_le n z l : 0 <= z < 256 ^ Z.of_nat n -> take_u n (to_le_bytes n z ++ l) = Some (z, l).
Proof.
  intros Hz. unfold take_u. rewrite length_app, length_to_le_bytes, decide_True by lia.
  pose proof (length_to_le_bytes n z) as Hlen.
  rewrite take_app_le, take_ge, drop_app_ge by lia.
  rewrite Hlen, Nat.sub_diag, drop_0, from_to_le_bytes, Z.mod_small by done. done.
Qed.

Lemma read_record_pcap p l :
  pcap_packet_wf p -> read_record (PacketCaptureService.pcap_record p ++ l) = Some (untagged p, l).
Proof.
  intros (Hs & Hu & Ho & Hd). unfold read_record, PacketCaptureService.pcap_record.
  rewrite !as_u_small by (done || (unfold is_u; lia)). rewrite <- !(assoc_L (++)).
  rewrite take_u_to_le by done. cbn [mbind option_bind].
  rewrite take_u_to_le by done. cbn [mbind option_bind].
  rewrite take_u_to_le by (change (256 ^ Z.of_nat 4) with (2 ^ 32); lia). cbn [mbind option_bind].
  rewrite take_u_to_le by done. cbn [mbind option_bind].
  rewrite decide_True by (rewrite length_app; lia).
  rewrite Nat2Z.id, take_app_length, drop_app_length. done.
Qed.

Lemma read_records_pcap ps fuel :
  Forall pcap_packet_wf ps ->
  let body := concat (PacketCaptureService.pcap_record <$> ps) in
  (length body <= fuel)%nat -> read_records fuel body = Some (untagged <$> ps).
Proof.
  intros Hps. revert fuel. induction Hps as [|p ps Hp Hps IH]; intros fuel body Hfuel; [by destruct fuel|].
  unfold body in *. rewrite fmap_cons in *. cbn [concat] in *. rewrite length_app in Hfuel.
  assert (16 <= length (PacketCaptureService.pcap_record p))%nat as Hrec.
  { unfold PacketCaptureService.pcap_record. rewrite !length_app, !length_to_le_bytes. lia. }
  destruct fuel as [|fuel]; [lia|].
  pose proof (read_record_pcap p (concat (PacketCaptureService.pcap_record <$> ps)) Hp) as Hread.
  destruct (PacketCaptureService.pcap_record p ++ _) as [|b rest] eqn:E.
  { apply (f_equal length) in E. rewrite length_app in E. simpl in E. lia. }
  cbn [read_records]. rewrite Hread. cbn [mbind option_bind]. rewrite IH by lia. done.
Qed.

Lemma packets_to_pcap_concat packets datalink snaplen :
  PacketCaptureService.packets_to_pcap packets datalink snaplen
  = to_le_bytes 4 0xa1b2c3d4 ++ to_le_bytes 2 2 ++ to_le_bytes 2 4 ++ to_le_bytes 4 0
    ++ to_le_bytes 4 0 ++ to_le_bytes 4 snaplen ++ to_le_bytes 4 (as_u 32 datalink)
    ++ concat (PacketCaptureService.pcap_record <$> packets).
Proof.
  unfold PacketCaptureService.packets_to_pcap.
  assert (forall hd, foldl (fun output packet => output ++ PacketCaptureService.pcap_record packet)
    hd packets = hd ++ concat (PacketCaptureService.pcap_record <$> packets)) as Hf.
  { induction packets as [|p ps IH]; intros hd; simpl; [by rewrite app_nil_r|].
    by rewrite IH, <- (assoc_L (++)). }
  rewrite Hf. by rewrite <- !(assoc_L (++)).
Qed.

Lemma read_packets_to_pcap packets datalink snaplen :
  Forall pcap_packet_wf packets -> is_u 32 snaplen ->
  read_pcap (PacketCaptureService.packets_to_pcap packets datalink snaplen)
  = Some (mkPcapFile snaplen (as_u 32 datalink) (untagged <$> packets)).
Proof.
  intros Hps Hsnap. rewrite packets_to_pcap_concat. unfold read_pcap.
  do 7 (rewrite take_u_to_le by (done || apply (as_u_range 32); done); cbn [mbind option_bind]).
  cbn [Z.eqb Pos.eqb andb]. by rewrite read_records_pcap.
Qed.

(** ** Capturing a stream *)

(** A frame as libpcap hands it over. *)
Record frame := mkFrame { fr_sec : Z; fr_usec : Z; fr_orig_len : Z; fr_data : bytes }.

Definition capture (f : frame) (s : PacketCaptureService) : outcome PacketCaptureService :=
  PacketCaptureService.add_packet (fr_sec f) (fr_usec f) (fr_orig_len f) (fr_data f) s.

Definition packet_of (f : frame) (tag : option string) : CapturedPacket :=
  mkCapturedPacket (fr_sec f) (fr_usec f) (fr_orig_len f) (fr_data f) tag.

Definition tag_of (r : SessionRegistry) (f : frame) (tag : option string) : Prop :=
  PacketCaptureService.extract_session_id_from_packet (fr_data f) r = Ret tag.

Lemma tags_exist r frames : exists tags, Forall2 (tag_of r) frames tags.
Proof.
  induction frames as [|f fs [tags IH]]; [by exists []|].
  destruct (extract_session_id_no_panic (fr_data f) r) as [tag Htag].
  exists (tag :: tags). by constructor.
Qed.

Lemma capture_one config r f tag b :
  cc_enabled config = true -> tag_of r f tag ->
  capture f (mkPacketCaptureService b config r)
  = (fun b => mkPacketCaptureService b config r) <$> PacketRingBuffer.add_packet (packet_of f tag) b.
Proof.
  intros Hen Htag. unfold capture, PacketCaptureService.add_packet. simpl.
  rewrite Hen, Htag. simpl. unfold packet_of.
  by destruct (PacketRingBuffer.add_packet _ b).
Qed.

Lemma capture_all config r frames tags b :
  cc_enabled config = true -> Forall2 (tag_of r) frames tags ->
  for_each frames capture (mkPacketCaptureService b config r)
  = (fun b => mkPacketCaptureService b config r) <$> log_push_all (zip_with packet_of frames tags) b.
Proof.
  intros Hen Htags. revert b. induction Htags as [|f tag fs tags Htag Htags IH]; intros b; [done|].
  unfold log_push_all in *. cbn [zip_with for_each]. rewrite (capture_one _ _ _ tag) by done.
  change (log_push (packet_of f tag) b) with (PacketRingBuffer.add_packet (packet_of f tag) b).
  destruct (PacketRingBuffer.add_packet _ b) as [b'| |]; [|done..]. apply IH.
Qed.

Lemma add_packets_datalink ps b b' :
  for_each ps PacketRingBuffer.add_packet b = Ret b' -> prb_datalink b' = prb_datalink b.
Proof.
  revert b. induction ps as [|p ps IH]; intros b H; [by injection H as ->|].
  cbn [for_each] in H. apply bind_Ret_inv in H as (b1 & Hb1 & H). rewrite (IH _ H).
  unfold PacketRingBuffer.add_packet in Hb1. invert_ret. done.
Qed.

(** ** Properties *)

(** From an empty ring, adding any stream of packets (fewer than the 2^64
    the counter holds) never panics, and reading gives the last [max_packets]
    of them, oldest first. *)
Lemma packet_ring_keeps_last config packets :
  (0 < cc_max_packets config)%nat -> Z.of_nat (length packets) < 2 ^ 64 ->
  exists b, for_each packets PacketRingBuffer.add_packet (PacketRingBuffer.new config) = Ret b
    /\ PacketRingBuffer.get_packets b = Ret (last_n (cc_max_packets config) packets).
Proof.
  intros Hcap Hlen.
  destruct (log_push_all_read (S := PacketRingBuffer) packets (PacketRingBuffer.new config))
    as (b & Hb & Hread); [split; [by apply ring_new_wf|simpl; lia]|simpl; lia|by apply ring_new_wf|].
  by exists b.
Qed.

(** C25: Capture and export of a session, end to end.  Whatever frames arrive,
    capturing them never panics; the PCAP file exported for a session is well
    formed and holds exactly those of the last [max_packets] frames whose tag is
    the session, with their times, lengths and bytes, in order of capture. *)
Theorem session_export_roundtrip config r frames id :
  cc_enabled config = true -> (0 < cc_max_packets config)%nat ->
  Z.of_nat (length frames) < 2 ^ 64 ->
  Forall (fun f => pcap_packet_wf (packet_of f None)) frames ->
  exists tags s file,
    Forall2 (tag_of r) frames tags
    /\ for_each frames capture (mkPacketCaptureService (PacketRingBuffer.new config) config r) = Ret s
    /\ PacketCaptureService.generate_pcap_for_session id s = Ret file
    /\ read_pcap file = Some (mkPcapFile (as_u 32 (cc_snaplen config)) 1
         (untagged <$> filter (fun p => cp_survey_session_id p = Some id)
            (last_n (cc_max_packets config) (zip_with packet_of frames tags)))).
Proof.
  intros Hen Hcap Hlen Hwf. destruct (tags_exist r frames) as [tags Htags].
  pose proof (Forall2_length _ _ _ Htags) as Hlen2.
  set (ps := zip_with packet_of frames tags).
  assert (length ps = length frames) as Hlenps by (unfold ps; rewrite length_zip_with; lia).
  destruct (log_push_all_view (S := PacketRingBuffer) ps (PacketRingBuffer.new config))
    as (b & Hb & Hbwf & _ & Hview); [split; [by apply ring_new_wf|simpl; lia]|simpl; lia|].
  change (log_view (PacketRingBuffer.new config)) with
    (ring_view (cc_max_packets config) (@nil CapturedPacket) 0) in Hview.
  rewrite (proj2 (ring_new_wf _ Hcap)) in Hview. cbn [app] in Hview.
  assert (Forall pcap_packet_wf (filter (fun p => cp_survey_session_id p = Some id)
    (last_n (cc_max_packets config) ps))) as Hfits.
  { apply Forall_forall. intros p [_ Hp]%list_elem_of_filter. unfold last_n in Hp.
    apply list_elem_of_lookup in Hp as [i Hi]. rewrite lookup_drop in Hi.
    apply lookup_zip_with_Some in Hi as (f & tag & -> & Hf & _).
    exact (Forall_lookup_1 _ _ _ _ Hwf Hf). }
  exists tags, (mkPacketCaptureService b config r). eexists. split; [done|].
  split; [rewrite (capture_all _ _ _ tags) by done; fold ps; by rewrite Hb|].
  unfold PacketCaptureService.generate_pcap_for_session, PacketRingBuffer.get_packets_for_session.
  cbn [pcs_buffer pcs_config].
  change (PacketRingBuffer.get_packets b) with (log_read b). rewrite (law_read b Hbwf), Hview.
  split; [reflexivity|]. rewrite (add_packets_datalink _ _ _ Hb).
  rewrite read_packets_to_pcap; [done|exact Hfits|by apply as_u_range].
Qed.

(** A captured UDP frame, over IPv4 or IPv6, is tagged with the session
    registered for its source address, failing that with the one registered
    for its destination, and otherwise not at all. *)
Theorem udp_frames_tagged macs h nibble fields hop src6 dst6 sp dp len ck payload r :
  length macs = 12%nat -> ipv4_header_wf h -> h4_proto h = 17 ->
  0 <= nibble <= 15 -> length fields = 5%nat -> length src6 = 16%nat -> length dst6 = 16%nat ->
  is_u 16 sp -> is_u 16 dp -> is_u 16 len -> is_u 16 ck ->
  let udp := udp_header sp dp len ck ++ payload in
  let by_address src dst :=
    match address_to_session r !! mkSocketAddr src sp with
    | Some s => Some s
    | None => address_to_session r !! mkSocketAddr dst dp
    end in
  PacketCaptureService.extract_session_id_from_packet
    (eth_frame macs 0x0800 (ipv4_header_bytes h ++ udp)) r
    = Ret (by_address (V4 (h4_src h)) (V4 (h4_dst h)))
  /\ PacketCaptureService.extract_session_id_from_packet
       (eth_frame macs 0x86DD (ipv6_header_bytes nibble fields hop src6 dst6 ++ udp)) r
     = Ret (by_address (V6 src6) (V6 dst6)).
Proof.
  intros Hm Hh Hp Hn Hf Hs Hd Hsp Hdp Hlen Hck udp by_address.
  destruct (parse_udp_frame_v4 macs h sp dp len ck payload) as [A4 E4]; try done.
  destruct (parse_udp_frame_v6 macs nibble fields hop src6 dst6 sp dp len ck payload) as [A6 E6]; try done.
  unfold PacketCaptureService.extract_session_id_from_packet, SessionRegistry.lookup_by_either.
  fold udp in A4, E4, A6, E6. rewrite A4, A6, E4, E6. cbn [mbind outcome_bind].
  unfold by_address. split; repeat case_match; congruence.
Qed.

(** A captured ICMP error (IPv4) whose own addresses are not registered is
    tagged by the destination of the datagram it quotes: first by that port
    alone, looked up among the server ports of the sessions, then by the
    address. *)
Theorem icmp_error_tagged macs h icmp_type icmp_code rest h' sp dp len ck quoted r :
  length macs = 12%nat -> ipv4_header_wf h -> h4_proto h = 1 -> length rest = 6%nat ->
  icmp_type ∈ [3; 11; 12] -> ipv4_header_wf h' -> h4_proto h' = 17 ->
  is_u 16 sp -> is_u 16 dp -> is_u 16 len -> is_u 16 ck ->
  address_to_session r !! mkSocketAddr (V4 (h4_src h)) 0 = None ->
  address_to_session r !! mkSocketAddr (V4 (h4_dst h)) 0 = None ->
  PacketCaptureService.extract_session_id_from_packet
    (icmp_error_frame macs h icmp_type icmp_code rest
       (ipv4_header_bytes h' ++ udp_header sp dp len ck ++ quoted)) r
  = Ret (match SessionRegistry.lookup_by_server_port dp r with
         | Some s => Some s
         | None => address_to_session r !! mkSocketAddr (V4 (h4_dst h')) dp
         end).
Proof.
  intros Hm Hh Hp Hr Hty Hh' Hp' Hsp Hdp Hlen Hck Hsrc Hdst.
  destruct (parse_icmp_error_frame macs h icmp_type icmp_code rest h' sp dp len ck quoted)
    as (A & E & D); try done.
  unfold PacketCaptureService.extract_session_id_from_packet, SessionRegistry.lookup_by_either.
  rewrite A. cbn [mbind outcome_bind]. rewrite Hsrc, Hdst, E. cbn [mbind outcome_bind].
  rewrite D. cbn [mbind outcome_bind]. cbn [port]. by destruct (SessionRegistry.lookup_by_server_port dp r).
Qed.

(** ** Witnesses *)

Definition sample_config : CaptureConfig := mkCaptureConfig 2 1500 "eth0" true false.
Definition sample_ip (proto : Z) : ipv4_header :=
  mkIpv4Header 5 (replicate 8 0) proto [0; 0] [10; 0; 0; 1] [10; 0; 0; 2] [].
Definition sample_registry : SessionRegistry :=
  SessionRegistry.register (mkSocketAddr (V4 [10; 0; 0; 2]) 6000) 0 "s1" SessionRegistry.new.
Definition sample_frame (t : Z) : frame :=
  mkFrame t 0 60 (eth_frame (replicate 12 2) 0x0800
    (ipv4_header_bytes (sample_ip 17) ++ udp_header 5000 6000 8 1)).

Ltac concrete := first [done | by repeat constructor | by vm_compute; intuition discriminate].


Lemma session_export_roundtrip_witness :
  exists tags s file, Forall2 (tag_of sample_registry) (sample_frame <$> [1; 2; 3]) tags
    /\ for_each (sample_frame <$> [1; 2; 3]) capture
         (mkPacketCaptureService (PacketRingBuffer.new sample_config) sample_config sample_registry)
       = Ret s
    /\ PacketCaptureService.generate_pcap_for_session "s1" s = Ret file
    /\ read_pcap file = Some (mkPcapFile 1500 1
         (untagged <$> filter (fun p => cp_survey_session_id p = Some "s1")
            (last_n 2 (zip_with packet_of (sample_frame <$> [1; 2; 3]) tags)))).
Proof.
  apply (session_export_roundtrip sample_config sample_registry (sample_frame <$> [1; 2; 3]) "s1");
    [done|simpl; lia|simpl; lia|].
  repeat constructor; by vm_compute.
Defined.

