(* ===== verification/TracingBuffer.v ===== *)
(** * The log buffer (server/src/tracing_buffer.rs)

    A circular buffer of log entries behind the tracing subscriber, with its
    textual export.  Both locks are held for a whole operation. *)

From stdpp Require Import base list strings.
From Stdlib Require Import ZArith Lia.
From S2P Require Import Prelude Net BoundedLog.
Local Open Scope Z_scope.

Inductive Level := TRACE | DEBUG | INFO | WARN | ERROR.

Record LogEntry := mkLogEntry {
  le_timestamp_us : Z;
  le_level : Level;
  le_target : string;
  le_message : string }.

Record TracingBuffer := mkTracingBuffer {
  tb_entries : list LogEntry;
  tb_max_entries : nat;
  tb_next_index : nat;
  tb_enabled : bool }.

Record TracingStats := mkTracingStats {
  ts_entries_in_buffer : nat; ts_max_entries : nat; ts_enabled : bool }.

Module TracingBuffer.

Definition new (max_entries : nat) (enabled : bool) : TracingBuffer :=
  mkTracingBuffer [] max_entries 0 enabled.

(** The part of [add_entry] under the locks. *)
Definition push_entry (entry : LogEntry) (b : TracingBuffer) : outcome TracingBuffer :=
  entries ←
    (if decide (length (tb_entries b) < tb_max_entries b)%nat
     then Ret (tb_entries b ++ [entry])
     else set_index (tb_entries b) (tb_next_index b) entry);
  next_idx ← rem_usize (tb_next_index b + 1) (tb_max_entries b);
  Ret (mkTracingBuffer entries (tb_max_entries b) next_idx (tb_enabled b)).

(** [now_us] is the system clock against the epoch; before it, the span defaults
    to zero. *)
Definition add_entry (now_us : Z) (level : Level) (target message : string)
    (b : TracingBuffer) : outcome TracingBuffer :=
  if negb (tb_enabled b) then Ret b
  else
    let timestamp_us := as_u 64 (Z.max 0 now_us) in
    push_entry (mkLogEntry timestamp_us level target message) b.

(** The two loops over index ranges. *)
Definition get_entries (b : TracingBuffer) : outcome (list LogEntry) :=
  let entries := tb_entries b in
  let next_idx := tb_next_index b in
  if decide (length entries < tb_max_entries b)%nat then Ret entries
  else
    let push i result := e ← index entries i; Ret (result ++ [e]) in
    result ← for_each (seq next_idx (length entries - next_idx)) push [];
    for_each (seq 0 next_idx) push result.

Definition len (b : TracingBuffer) : nat := length (tb_entries b).
Definition is_empty (b : TracingBuffer) : bool := (length (tb_entries b) =? 0)%nat.
Definition is_enabled (b : TracingBuffer) : bool := tb_enabled b.

Definition clear (b : TracingBuffer) : TracingBuffer :=
  mkTracingBuffer [] (tb_max_entries b) 0 (tb_enabled b).

Definition stats (b : TracingBuffer) : TracingStats :=
  mkTracingStats (len b) (tb_max_entries b) (is_enabled b).

Section export.
  (** chrono's [DateTime::from_timestamp] and [format], tracing's [Display] of a
      level. *)
  Context {DateTime : Type} (from_timestamp : Z -> Z -> option DateTime)
    (format_datetime : DateTime -> string) (display_level : Level -> string).

(** [{:06}] *)
Definition pad6 (z : Z) : string :=
  let s := decimal z in
  foldr String.append s (replicate (6 - String.length s) "0")%string.

Definition export_line (entry : LogEntry) : outcome string :=
  let secs := le_timestamp_us entry / 1000000 in
  let micros := le_timestamp_us entry mod 1000000 in
  datetime ←
    match from_timestamp (as_i 64 secs) (as_u 32 (micros * 1000)) with
    | Some d => Ret d
    | None => match from_timestamp 0 0 with Some d => Ret d | None => Panic UnwrapOnNone end
    end;
  Ret ("[" +:+ format_datetime datetime +:+ "." +:+ pad6 micros +:+ " UTC] (" +:+ decimal secs
       +:+ "." +:+ pad6 micros +:+ ") " +:+ display_level (le_level entry) +:+ " "
       +:+ le_target entry +:+ " - " +:+ le_message entry
       +:+ String.String (Ascii.ascii_of_nat 10) String.EmptyString)%string.

Definition export_as_text (b : TracingBuffer) : outcome string :=
  entries ← get_entries b;
  for_each entries (fun entry output => l ← export_line entry; Ret (output +:+ l)%string)
    String.EmptyString.

End export.

End TracingBuffer.

(** The visitor that collects an event's fields: [message] replaces what was
    collected, any other field is appended as [name = value]. *)
Definition record_debug (field : string * string) (message : string) : string :=
  let '(name, value) := field in
  if (name =? "message")%string then value
  else
    let message := if (message =? String.EmptyString)%string then message
                   else (message +:+ ", ")%string in
    (message +:+ name +:+ " = " +:+ value)%string.

Definition on_event (now_us : Z) (level : Level) (target : string) (fields : list (string * string))
    (b : TracingBuffer) : outcome TracingBuffer :=
  let message := foldl (fun m f => record_debug f m) String.EmptyString fields in
  TracingBuffer.add_entry now_us level target message b.

(** ** The buffer implements a bounded log *)

#[export] Instance tracing_buffer_log : BoundedLog TracingBuffer LogEntry := {|
  log_cap := tb_max_entries;
  log_push := TracingBuffer.push_entry;
  log_read := TracingBuffer.get_entries;
  log_clear := TracingBuffer.clear;
  log_wf b := ring_wf (tb_max_entries b) (tb_entries b) (tb_next_index b);
  log_room n b := True;
  log_view b := ring_view (tb_max_entries b) (tb_entries b) (tb_next_index b) |}.

(** Pushing the entries of an index range appends that part of the vector. *)
Lemma for_each_index {A} (l : list A) from n acc :
  (from + n <= length l)%nat ->
  for_each (seq from n) (fun i result => e ← index l i; Ret (result ++ [e])) acc
  = Ret (acc ++ take n (drop from l)).
Proof.
  revert from acc. induction n as [|n IH]; intros from acc Hle; simpl; [by rewrite app_nil_r|].
  destruct (lookup_lt_is_Some_2 l from ltac:(lia)) as [a Ha].
  rewrite (proj2 (index_Ret _ _ _) Ha). cbn [mbind outcome_bind].
  rewrite IH by lia. rewrite (drop_S l a from Ha). simpl. by rewrite <- (assoc_L (++)).
Qed.

#[export] Instance tracing_buffer_laws : BoundedLogLaws TracingBuffer LogEntry.
Proof.
  split; simpl.
  - intros b x n Hwf _.
    destruct (ring_push_spec _ x _ _ Hwf) as (items & pos & Hpush & Hwf' & Hview).
    unfold TracingBuffer.push_entry. unfold ring_push in Hpush. invert_ret.
    match goal with H : _ = Ret items |- _ => rewrite H end. cbn [mbind outcome_bind].
    match goal with H : _ = Ret pos |- _ => rewrite H end. cbn [mbind outcome_bind].
    eexists. by split; [reflexivity|].
  - intros b (Hcap & Hlen & Hpos & _). unfold TracingBuffer.get_entries, ring_view.
    case_decide; [done|]. rewrite !for_each_index by lia. cbn [mbind outcome_bind].
    rewrite for_each_index by lia. rewrite drop_0, (take_ge (drop _ _)) by (rewrite length_drop; lia).
    done.
  - intros b (Hcap & _). by destruct (ring_new_wf (A := LogEntry) _ Hcap).
  - intros b (Hcap & Hlen & _). by rewrite length_ring_view.
Qed.

(** A log call, as the subscriber makes it. *)
Record log_call := mkLogCall { lc_now_us : Z; lc_level : Level; lc_target : string; lc_message : string }.

Definition log (c : log_call) (b : TracingBuffer) : outcome TracingBuffer :=
  TracingBuffer.add_entry (lc_now_us c) (lc_level c) (lc_target c) (lc_message c) b.

Definition entry_of (c : log_call) : LogEntry :=
  mkLogEntry (as_u 64 (Z.max 0 (lc_now_us c))) (lc_level c) (lc_target c) (lc_message c).

Lemma push_entry_enabled e b b' : TracingBuffer.push_entry e b = Ret b' -> tb_enabled b' = tb_enabled b.
Proof. unfold TracingBuffer.push_entry. intros H. invert_ret. done. Qed.

Lemma log_enabled c b : tb_enabled b = true -> log c b = TracingBuffer.push_entry (entry_of c) b.
Proof. intros Hen. unfold log, TracingBuffer.add_entry. by rewrite Hen. Qed.

Lemma log_all_enabled calls b :
  tb_enabled b = true -> for_each calls log b = log_push_all (entry_of <$> calls) b.
Proof.
  unfold log_push_all. revert b. induction calls as [|c calls IH]; intros b Hen; [done|].
  rewrite fmap_cons. cbn [for_each]. rewrite log_enabled by done.
  change (log_push (entry_of c) b) with (TracingBuffer.push_entry (entry_of c) b).
  destruct (TracingBuffer.push_entry (entry_of c) b) as [b'| |] eqn:E; [|done..]. cbn [mbind outcome_bind].
  apply IH. by rewrite (push_entry_enabled _ _ _ E).
Qed.

Lemma log_all_disabled calls b : tb_enabled b = false -> for_each calls log b = Ret b.
Proof.
  intros Hen. induction calls as [|c calls IH]; [done|]. cbn [for_each].
  assert (log c b = Ret b) as -> by (unfold log, TracingBuffer.add_entry; by rewrite Hen). done.
Qed.

(** ** Properties *)

(** An enabled buffer of positive capacity keeps the most recent
    [max_entries] log calls, oldest first, and never panics; a disabled buffer
    stores nothing, whatever its capacity. *)
Theorem tracing_buffer_keeps_last max_entries calls :
  ((0 < max_entries)%nat ->
   exists b, for_each calls log (TracingBuffer.new max_entries true) = Ret b
     /\ TracingBuffer.get_entries b = Ret (last_n max_entries (entry_of <$> calls)))
  /\ for_each calls log (TracingBuffer.new max_entries false) = Ret (TracingBuffer.new max_entries false).
Proof.
  split; [|by apply log_all_disabled]. intros Hcap.
  destruct (log_push_all_read (S := TracingBuffer) (entry_of <$> calls) (TracingBuffer.new max_entries true))
    as (b & Hb & Hread); [by apply ring_new_wf|done|by apply ring_new_wf|].
  exists b. split; [|exact Hread]. by rewrite log_all_enabled.
Qed.
