(* ===== verification/Keylog.v ===== *)
(** * DTLS key logs (server/src/dtls_keylog.rs)

    The keys of each survey session, bounded by evicting the session that was
    added first, and their export in the format Wireshark reads. *)

From stdpp Require Import base list gmap strings.
From Stdlib Require Import ZArith Lia Ascii.
From S2P Require Import Prelude Utf8 BoundedLog.

(** ** Data *)

Record DtlsKeylogEntry := mkDtlsKeylogEntry {
  client_random : bytes;
  master_secret : bytes;
  timestamp : Z }.

Record DtlsKeylogConfig := mkDtlsKeylogConfig {
  kc_max_sessions : nat;
  kc_enabled : bool }.

Definition DtlsKeylogConfig_default : DtlsKeylogConfig := mkDtlsKeylogConfig (Z.to_nat 1000) true.

Record KeylogStorage := mkKeylogStorage {
  sessions : gmap string (list DtlsKeylogEntry);
  session_order : list string;
  ks_config : DtlsKeylogConfig }.

Record KeylogStats := mkKeylogStats {
  sessions_stored : nat; total_entries : nat; ks_max_sessions : nat }.

Module KeylogStorage.

Definition new (config : DtlsKeylogConfig) : KeylogStorage := mkKeylogStorage ∅ [] config.

(** One iteration of the eviction loop; [remove(0)] shifts the vector. *)
Definition evict (s : KeylogStorage) : outcome KeylogStorage :=
  match session_order s with
  | oldest :: order => Ret (mkKeylogStorage (delete oldest (sessions s)) order (ks_config s))
  | [] => Panic IndexOutOfBounds
  end.

(** Each iteration removes a session from the order, so its length bounds them. *)
Definition evict_oldest (s : KeylogStorage) : outcome KeylogStorage :=
  while (length (session_order s))
    (fun s => bool_decide (kc_max_sessions (ks_config s) <= size (sessions s))
              && negb (bool_decide (session_order s = [])))
    evict s.

Definition add_entry (survey_session_id : string) (entry : DtlsKeylogEntry) (s : KeylogStorage)
    : outcome KeylogStorage :=
  if (survey_session_id =? String.EmptyString)%string then Ret s
  else
    s ←
      (match sessions s !! survey_session_id with
       | None =>
           s ← evict_oldest s;
           Ret (mkKeylogStorage (sessions s) (session_order s ++ [survey_session_id]) (ks_config s))
       | Some _ => Ret s
       end);
    let v := default [] (sessions s !! survey_session_id) in
    Ret (mkKeylogStorage (<[survey_session_id := v ++ [entry]]> (sessions s)) (session_order s)
           (ks_config s)).

Definition get_entries (survey_session_id : string) (s : KeylogStorage)
    : option (list DtlsKeylogEntry) := sessions s !! survey_session_id.

Definition has_session (survey_session_id : string) (s : KeylogStorage) : bool :=
  bool_decide (is_Some (sessions s !! survey_session_id)).

Definition clear (s : KeylogStorage) : KeylogStorage := mkKeylogStorage ∅ [] (ks_config s).

Definition stats (s : KeylogStorage) : KeylogStats :=
  mkKeylogStats (size (sessions s))
    (foldr (fun kv n => length kv.2 + n) 0 (map_to_list (sessions s)))
    (kc_max_sessions (ks_config s)).

End KeylogStorage.

Module DtlsKeylogService.

(** The service: its storage, whose configuration is the service's. *)
Definition new (config : DtlsKeylogConfig) : KeylogStorage := KeylogStorage.new config.

Definition add_keylog (survey_session_id : string) (client_random master_secret : bytes) (now : Z)
    (s : KeylogStorage) : outcome KeylogStorage :=
  if negb (kc_enabled (ks_config s)) then Ret s
  else KeylogStorage.add_entry survey_session_id (mkDtlsKeylogEntry client_random master_secret now) s.

Definition get_keylogs (survey_session_id : string) (s : KeylogStorage) : list DtlsKeylogEntry :=
  default [] (KeylogStorage.get_entries survey_session_id s).

Definition has_keylogs_for_session (survey_session_id : string) (s : KeylogStorage) : bool :=
  KeylogStorage.has_session survey_session_id s.

Section file.
  (** [hex::encode]. *)
  Context (hex_encode : bytes -> string).

Definition to_sslkeylog_line (e : DtlsKeylogEntry) : string :=
  ("CLIENT_RANDOM " +:+ hex_encode (client_random e) +:+ " " +:+ hex_encode (master_secret e))%string.

Definition newline : string := String.String (Ascii.ascii_of_nat 10) String.EmptyString.

Definition generate_keylog_file (survey_session_id : string) (s : KeylogStorage) : string :=
  let entries := get_keylogs survey_session_id s in
  match entries with
  | [] => String.EmptyString
  | _ => (join newline (map to_sslkeylog_line entries) +:+ newline)%string
  end.

End file.

End DtlsKeylogService.

(** ** The specification: a queue of sessions, oldest first *)

Definition keylog_queue : Type := list (string * list DtlsKeylogEntry).

Definition queue_append (id : string) (e : DtlsKeylogEntry) (q : keylog_queue) : keylog_queue :=
  (fun kv => if decide (kv.1 = id) then (kv.1, kv.2 ++ [e]) else kv) <$> q.

(** A new session makes room for itself: at most [max - 1] others stay. *)
Definition queue_add (max : nat) (id : string) (e : DtlsKeylogEntry) (q : keylog_queue)
    : keylog_queue :=
  if decide (id = String.EmptyString) then q
  else if decide (id ∈ q.*1) then queue_append id e q
  else last_n (max - 1) q ++ [(id, [e])].

(** The storage represents a queue. *)
Definition represents (s : KeylogStorage) (q : keylog_queue) : Prop :=
  session_order s = q.*1 /\ NoDup q.*1 /\ sessions s = list_to_map q.

(** ** Lemmas *)

Lemma represents_size s q : represents s q -> size (sessions s) = length q.
Proof.
  intros (_ & Hnd & ->). by apply map_size_list_to_map.
Qed.

Lemma represents_evict s id es q :
  represents s ((id, es) :: q) ->
  exists s', KeylogStorage.evict s = Ret s' /\ represents s' q /\ ks_config s' = ks_config s.
Proof.
  intros (Ho & Hnd & Hs). unfold KeylogStorage.evict. rewrite Ho. simpl. eexists.
  split; [done|]. inversion Hnd as [|? ? Hin Hnd']; subst. split; [|done].
  split; [done|]. split; [done|]. simpl. rewrite Hs. simpl.
  apply delete_insert_id. by apply not_elem_of_list_to_map_1.
Qed.

Lemma last_n_cons {A} n (x : A) l : length l >= n -> last_n n (x :: l) = last_n n l.
Proof.
  intros. unfold last_n. simpl length. replace (S (length l) - n) with (S (length l - n)) by lia.
  done.
Qed.

Lemma evict_loop s q fuel :
  represents s q -> length q <= fuel ->
  exists s', while fuel
      (fun s => bool_decide (kc_max_sessions (ks_config s) <= size (sessions s))
                && negb (bool_decide (session_order s = []))) KeylogStorage.evict s = Ret s'
    /\ represents s' (last_n (kc_max_sessions (ks_config s) - 1) q)
    /\ ks_config s' = ks_config s.
Proof.
  revert s fuel. induction q as [|[id es] q IH]; intros s fuel Hrep Hfuel.
  - exists s. destruct Hrep as (Ho & Hrep). destruct fuel; simpl; rewrite Ho, andb_false_r;
      (split; [done|]; split; [split; [done|]; done|done]).
  - pose proof (represents_size _ _ Hrep) as Hsize. destruct Hrep as (Ho & Hnd & Hs) eqn:E; clear E.
    destruct fuel as [|fuel]; [simpl in Hfuel; lia|]. cbn [while]. rewrite Hsize, Ho. simpl length.
    rewrite (bool_decide_eq_false_2 (_ = [])) by done. rewrite andb_true_r.
    case_bool_decide as Hmax.
    + destruct (represents_evict s id es q Hrep) as (s1 & -> & Hrep1 & Hc1). cbn [mbind outcome_bind].
      destruct (IH s1 fuel Hrep1 ltac:(simpl in Hfuel; lia)) as (s2 & H2 & Hrep2 & Hc2).
      exists s2. split; [exact H2|]. rewrite Hc1 in Hrep2. rewrite last_n_cons by lia.
      by rewrite Hc2, Hc1.
    + exists s. rewrite last_n_all by (simpl length; lia). done.
Qed.

Lemma queue_append_keys id e q : (queue_append id e q).*1 = q.*1.
Proof.
  unfold queue_append. rewrite <- list_fmap_compose. apply list_fmap_ext. intros i [k v] _. simpl.
  by case_decide.
Qed.

Lemma queue_append_notin id e q : id ∉ q.*1 -> queue_append id e q = q.
Proof.
  unfold queue_append. intros Hin. rewrite <- (list_fmap_id q) at 2. apply list_fmap_ext.
  intros i [k v] Hi. simpl. rewrite decide_False; [done|]. intros ->. apply Hin.
  apply list_elem_of_fmap. exists (id, v). split; [done|]. by eapply list_elem_of_lookup_2.
Qed.

Lemma queue_append_map id e q v :
  NoDup q.*1 -> (list_to_map q : gmap string (list DtlsKeylogEntry)) !! id = Some v ->
  list_to_map (queue_append id e q)
  = <[id := v ++ [e]]> (list_to_map q : gmap string (list DtlsKeylogEntry)).
Proof.
  induction q as [|[k w] q IH]; intros Hnd Hv; [done|].
  inversion Hnd as [|? ? Hin Hnd']; subst. simpl in *.
  destruct (decide (k = id)) as [->|Hne]; simpl.
  - rewrite lookup_insert_eq in Hv. injection Hv as ->.
    change (list_fmap _ _ _ q) with (queue_append id e q).
    rewrite queue_append_notin by done. by rewrite insert_insert_eq.
  - rewrite lookup_insert_ne in Hv by done.
    change (list_fmap _ _ _ q) with (queue_append id e q).
    rewrite IH by done. by rewrite insert_insert_ne.
Qed.

Lemma last_n_sublist {A} n (l : list A) : sublist (last_n n l) l.
Proof. unfold last_n. apply sublist_drop. Qed.

(** Adding an entry to the storage is adding it to the queue. *)
Lemma add_entry_refines s q id e :
  represents s q ->
  exists s', KeylogStorage.add_entry id e s = Ret s'
    /\ represents s' (queue_add (kc_max_sessions (ks_config s)) id e q)
    /\ ks_config s' = ks_config s.
Proof.
  intros Hrep. unfold KeylogStorage.add_entry, queue_add.
  destruct (String.eqb_spec id String.EmptyString) as [->|Hid]; [by exists s|].
  rewrite decide_False by done. destruct Hrep as (Ho & Hnd & Hs).
  destruct (sessions s !! id) as [v|] eqn:Hv; rewrite Hs in Hv.
  - cbn [mbind outcome_bind]. rewrite decide_True.
    2: { destruct (decide (id ∈ q.*1)); [done|]. by rewrite not_elem_of_list_to_map_1 in Hv. }
    eexists. split; [done|]. split; [|done]. split; [|split]; simpl.
    + by rewrite queue_append_keys.
    + by rewrite queue_append_keys.
    + rewrite Hs, Hv. simpl. symmetry. by apply queue_append_map.
  - apply not_elem_of_list_to_map in Hv as Hin. rewrite decide_False by done.
    destruct (evict_loop s q (length (session_order s))) as (s1 & H1 & (Ho1 & Hnd1 & Hs1) & Hc1).
    { done. } { rewrite Ho, length_fmap. done. }
    unfold KeylogStorage.evict_oldest. rewrite H1. cbn [mbind outcome_bind sessions session_order ks_config].
    set (q1 := last_n (kc_max_sessions (ks_config s) - 1) q) in *.
    assert (id ∉ q1.*1) as Hin1.
    { intros Hin1. apply Hin. apply (elem_of_submseteq _ _ _ Hin1).
      apply fmap_submseteq, sublist_submseteq, last_n_sublist. }
    eexists. split; [done|]. split; [|done]. split; [|split]; simpl.
    + by rewrite fmap_app, Ho1.
    + rewrite fmap_app. apply NoDup_app. split; [done|]. split; [|apply NoDup_singleton].
      intros x Hx. simpl. rewrite list_elem_of_singleton. by intros ->.
    + rewrite Hs1, (not_elem_of_list_to_map_1 _ _ Hin1). simpl. symmetry. by apply list_to_map_snoc.
Qed.

Lemma length_queue_add max id e q :
  length q <= Nat.max 1 max -> length (queue_add max id e q) <= Nat.max 1 max.
Proof.
  intros Hq. unfold queue_add. repeat case_decide; [done| |].
  - unfold queue_append. by rewrite length_fmap.
  - rewrite length_app, length_last_n. simpl. lia.
Qed.

(** A sequence of calls, on the storage and on the queue. *)
Definition add_keylogs (calls : list (string * bytes * bytes * Z)) (s : KeylogStorage)
    : outcome KeylogStorage :=
  for_each calls (fun '(id, cr, ms, now) => DtlsKeylogService.add_keylog id cr ms now) s.

Definition queue_adds (max : nat) (calls : list (string * bytes * bytes * Z)) (q : keylog_queue)
    : keylog_queue :=
  foldl (fun q '(id, cr, ms, now) => queue_add max id (mkDtlsKeylogEntry cr ms now) q) q calls.

Lemma add_keylogs_refines calls s q :
  kc_enabled (ks_config s) = true -> represents s q ->
  length q <= Nat.max 1 (kc_max_sessions (ks_config s)) ->
  exists s', add_keylogs calls s = Ret s'
    /\ represents s' (queue_adds (kc_max_sessions (ks_config s)) calls q)
    /\ size (sessions s') <= Nat.max 1 (kc_max_sessions (ks_config s)).
Proof.
  unfold add_keylogs. revert s q. induction calls as [|[[[id cr] ms] now] calls IH];
    intros s q Hen Hrep Hlen.
  - exists s. split; [done|]. split; [done|]. by rewrite (represents_size _ _ Hrep).
  - destruct (add_entry_refines s q id (mkDtlsKeylogEntry cr ms now) Hrep) as (s1 & H1 & Hrep1 & Hc1).
    destruct (IH s1 _ ltac:(by rewrite Hc1) Hrep1) as (s2 & H2 & Hrep2 & Hsize2).
    { rewrite Hc1. by apply length_queue_add. }
    assert (DtlsKeylogService.add_keylog id cr ms now s = Ret s1) as Hadd.
    { unfold DtlsKeylogService.add_keylog. by rewrite Hen. }
    exists s2. cbn [for_each]. rewrite Hadd. split; [exact H2|]. by rewrite Hc1 in Hrep2, Hsize2.
Qed.

(** ** A reader of key log files *)

Definition parse_keylog_line (hex_decode : string -> option bytes) (line : string)
    : option (bytes * bytes) :=
  match split_on " "%char line with
  | [label; cr; ms] =>
      if (label =? "CLIENT_RANDOM")%string then
        cr ← hex_decode cr; ms ← hex_decode ms; Some (cr, ms)
      else None
  | _ => None
  end.

(** The lines of a file that ends in a newline. *)
Definition lines_of (file : string) : list string :=
  let parts := split_on (Ascii.ascii_of_nat 10) file in take (length parts - 1) parts.

Lemma lacks_append c s t : lacks c (s +:+ t)%string = lacks c s && lacks c t.
Proof. induction s as [|a s IH]; [done|]. simpl. by rewrite IH, andb_assoc. Qed.

Lemma join_newline_app ws :
  ws <> [] -> (join DtlsKeylogService.newline ws +:+ DtlsKeylogService.newline)%string
  = join DtlsKeylogService.newline (ws ++ [String.EmptyString]).
Proof.
  induction ws as [|w [|w' ws] IH]; intros Hne; [done|done|].
  change (join ?n (w :: w' :: ws)) with (w +:+ n +:+ join n (w' :: ws))%string.
  change ((w :: w' :: ws) ++ ?l) with (w :: (w' :: ws) ++ l).
  change (join ?n (w :: (w' :: ws) ++ ?l)) with (w +:+ n +:+ join n ((w' :: ws) ++ l))%string.
  rewrite <- IH by done. by rewrite !append_assoc.
Qed.

Section roundtrip.
  Context (hex_encode : bytes -> string) (hex_decode : string -> option bytes).
  Hypothesis hex_decode_encode : forall b, is_bytes b -> hex_decode (hex_encode b) = Some b.
  Hypothesis hex_encode_no_space : forall b, lacks " "%char (hex_encode b) = true.
  Hypothesis hex_encode_no_newline : forall b, lacks (Ascii.ascii_of_nat 10) (hex_encode b) = true.

Lemma parse_keylog_line_of e :
  is_bytes (client_random e) -> is_bytes (master_secret e) ->
  parse_keylog_line hex_decode (DtlsKeylogService.to_sslkeylog_line hex_encode e)
  = Some (client_random e, master_secret e).
Proof using hex_decode_encode hex_encode_no_space.
  intros Hc Hm. unfold parse_keylog_line, DtlsKeylogService.to_sslkeylog_line.
  change ("CLIENT_RANDOM " +:+ ?x)%string with ("CLIENT_RANDOM" +:+ String.String " "%char x)%string.
  change (" " +:+ ?x)%string with (String.String " "%char x).
  rewrite split_on_app by done. rewrite split_on_app, split_on_lacks by apply hex_encode_no_space.
  cbn [String.eqb Ascii.eqb Bool.eqb]. by rewrite !hex_decode_encode.
Qed.

Lemma lines_of_keylog_file es :
  es <> [] ->
  lines_of (join DtlsKeylogService.newline (map (DtlsKeylogService.to_sslkeylog_line hex_encode) es)
            +:+ DtlsKeylogService.newline)%string
  = map (DtlsKeylogService.to_sslkeylog_line hex_encode) es.
Proof using hex_encode_no_newline.
  intros Hne. unfold lines_of. rewrite join_newline_app by by destruct es.
  unfold DtlsKeylogService.newline. rewrite split_on_join.
  - rewrite length_app, Nat.add_sub. by rewrite take_app_length.
  - by destruct es.
  - apply Forall_app. split; [|by repeat constructor]. apply Forall_forall. intros w Hw.
    apply list_elem_of_In, in_map_iff in Hw as (e & <- & _).
    unfold DtlsKeylogService.to_sslkeylog_line. rewrite !lacks_append, !hex_encode_no_newline. done.
Qed.

End roundtrip.

(** ** Properties *)

(** The key log storage is a queue of sessions, oldest first: from an empty
    storage every sequence of calls returns (the eviction loop ends and never
    removes from an empty order) in a storage that represents the queue the
    same calls give; it never holds more sessions than configured, one if the
    bound is zero. *)
Theorem keylog_storage_refines_queue config calls :
  kc_enabled config = true ->
  exists s, add_keylogs calls (DtlsKeylogService.new config) = Ret s
    /\ represents s (queue_adds (kc_max_sessions config) calls [])
    /\ size (sessions s) <= Nat.max 1 (kc_max_sessions config).
Proof.
  intros Hen. apply (add_keylogs_refines calls (DtlsKeylogService.new config) []); [done| |simpl; lia].
  split; [done|]. split; [constructor|done].
Qed.

(** The exported file gives Wireshark the keys back: splitting it into
    lines and each line at its spaces and decoding the hexadecimal yields the
    client randoms and master secrets of the session, in order, for any
    hexadecimal coder that decodes what it encodes and prints no space or
    newline. *)
Theorem keylog_file_roundtrip hex_encode hex_decode :
  (forall b, is_bytes b -> hex_decode (hex_encode b) = Some b) ->
  (forall b, lacks " "%char (hex_encode b) = true) ->
  (forall b, lacks (Ascii.ascii_of_nat 10) (hex_encode b) = true) ->
  forall id s e es, DtlsKeylogService.get_keylogs id s = e :: es ->
  Forall (fun e => is_bytes (client_random e) /\ is_bytes (master_secret e)) (e :: es) ->
  parse_keylog_line hex_decode <$> lines_of (DtlsKeylogService.generate_keylog_file hex_encode id s)
  = (fun e => Some (client_random e, master_secret e)) <$> (e :: es).
Proof.
  intros Hdec Hsp Hnl id s e es Hget Hbytes. unfold DtlsKeylogService.generate_keylog_file.
  rewrite Hget, lines_of_keylog_file by done.
  change (map ?f ?l) with (f <$> l). rewrite <- list_fmap_compose. apply list_fmap_ext.
  intros i x Hi. destruct (Forall_lookup_1 _ _ _ _ Hbytes Hi).
  by apply parse_keylog_line_of.
Qed.

(** A hexadecimal coder. *)
Definition nibble_char (d : Z) : Ascii.ascii :=
  Ascii.ascii_of_nat (Z.to_nat (if d <? 10 then 48 + d else 87 + d))%Z.
Definition char_nibble (a : Ascii.ascii) : Z :=
  let n := Z.of_nat (Ascii.nat_of_ascii a) in (if n <? 58 then n - 48 else n - 87)%Z.

Fixpoint sample_hex (l : bytes) : string :=
  match l with
  | [] => String.EmptyString
  | b :: l => String.String (nibble_char (b / 16 mod 16))
                (String.String (nibble_char (b mod 16)) (sample_hex l))
  end.

Fixpoint sample_unhex (s : string) : option bytes :=
  match s with
  | String.EmptyString => Some []
  | String.String a (String.String b s) =>
      (fun l => 16 * char_nibble a + char_nibble b :: l)%Z <$> sample_unhex s
  | _ => None
  end.

Definition nibbles : list Z := [0; 1; 2; 3; 4; 5; 6; 7; 8; 9; 10; 11; 12; 13; 14; 15]%Z.

Lemma nibble_ok d : (0 <= d < 16)%Z ->
  char_nibble (nibble_char d) = d /\ Ascii.eqb (nibble_char d) " "%char = false
  /\ Ascii.eqb (nibble_char d) (Ascii.ascii_of_nat 10) = false.
Proof.
  intros Hd. assert (In d nibbles) as Hin by (unfold nibbles; simpl; lia).
  unfold nibbles in Hin. simpl in Hin.
  repeat (destruct Hin as [Hin|Hin]; [subst d; done|]). done.
Qed.

Lemma mod16_range b : (0 <= b mod 16 < 16)%Z.
Proof. apply Z.mod_pos_bound. lia. Qed.

Lemma sample_hex_ok b :
  (is_bytes b -> sample_unhex (sample_hex b) = Some b)
  /\ lacks " "%char (sample_hex b) = true /\ lacks (Ascii.ascii_of_nat 10) (sample_hex b) = true.
Proof.
  induction b as [|x b (IH & IHs & IHn)]; [done|]. cbn [sample_hex sample_unhex lacks].
  destruct (nibble_ok _ (mod16_range (x / 16))) as (C1 & S1 & N1).
  destruct (nibble_ok _ (mod16_range x)) as (C2 & S2 & N2).
  rewrite C1, C2, S1, S2, N1, N2, IHs, IHn. repeat split.
  intros Hb. inversion Hb as [|? ? Hx Hb']; subst. rewrite IH by done. simpl. do 2 f_equal.
  unfold is_u in Hx. change (2 ^ 8)%Z with 256%Z in Hx. Z.to_euclidean_division_equations. lia.
Qed.

Definition sample_keylogs : list (string * bytes * bytes * Z) :=
  [("s1", [1; 171], [2], 5); ("s2", [3], [4], 6); ("s1", [5], [255], 7)]%Z%string.

