(* ===== verification/AuthCache.v ===== *)
(** * The authenticated address cache (server/src/auth_cache.rs)

    Addresses that authenticated recently over HTTP or WebRTC; the iperf3 server
    admits a connection when its address is in the cache and not older than the
    timeout.  The lock is never poisoned: no operation panics while holding it. *)

From stdpp Require Import base list gmap strings.
From Stdlib Require Import ZArith Lia.
From S2P Require Import Prelude Net IpParse Protocol.
Local Open Scope Z_scope.

Definition normalize_ip (a : IpAddr) : IpAddr :=
  match a with
  | V6 v6 =>
      match to_ipv4_mapped v6 with
      | Some v4 => V4 v4
      | None => V6 v6
      end
  | V4 _ => a
  end.

Record AuthenticatedAddress := mkAuthenticatedAddress {
  aa_ip : IpAddr;
  aa_user_id : string;
  aa_display_name : option string;
  aa_last_authenticated : Instant;
  aa_auth_source : string }.

Record AuthAddressCache := mkAuthAddressCache {
  ac_cache : gmap IpAddr AuthenticatedAddress;
  ac_timeout : Duration }.

(** [Instant::elapsed], which saturates at zero. *)
Definition elapsed (now since : Instant) : Duration := Z.max 0 (now - since).

Module AuthAddressCache.

Definition new (timeout_secs : Z) : AuthAddressCache :=
  mkAuthAddressCache ∅ (from_secs timeout_secs).

Definition record_auth (addr : IpAddr) (user_id : string) (display_name : option string)
    (auth_source : string) (now : Instant) (c : AuthAddressCache) : AuthAddressCache :=
  let normalized_ip := normalize_ip addr in
  let entry := mkAuthenticatedAddress normalized_ip user_id display_name now auth_source in
  mkAuthAddressCache (<[normalized_ip := entry]> (ac_cache c)) (ac_timeout c).

Definition refresh_auth (addr : IpAddr) (now : Instant) (c : AuthAddressCache)
    : bool * AuthAddressCache :=
  let normalized_ip := normalize_ip addr in
  match ac_cache c !! normalized_ip with
  | Some e =>
      let e := mkAuthenticatedAddress (aa_ip e) (aa_user_id e) (aa_display_name e) now
                 (aa_auth_source e) in
      (true, mkAuthAddressCache (<[normalized_ip := e]> (ac_cache c)) (ac_timeout c))
  | None => (false, c)
  end.

Definition check_auth (addr : IpAddr) (now : Instant) (c : AuthAddressCache)
    : option AuthenticatedAddress :=
  match ac_cache c !! normalize_ip addr with
  | Some entry =>
      if elapsed now (aa_last_authenticated entry) <? ac_timeout c then Some entry else None
  | None => None
  end.

Definition is_authenticated (addr : IpAddr) (now : Instant) (c : AuthAddressCache) : bool :=
  match check_auth addr now c with Some _ => true | None => false end.

Definition cleanup_expired (now : Instant) (c : AuthAddressCache) : AuthAddressCache :=
  mkAuthAddressCache
    (filter (fun kv => elapsed now (aa_last_authenticated kv.2) < ac_timeout c) (ac_cache c))
    (ac_timeout c).

Definition get_all_valid (now : Instant) (c : AuthAddressCache) : list AuthenticatedAddress :=
  filter (fun e => elapsed now (aa_last_authenticated e) < ac_timeout c) (map_to_list (ac_cache c)).*2.

End AuthAddressCache.
Import AuthAddressCache.

(** ** The synchronisation task (server/src/main.rs)

    Every second the address of each WebRTC session is recorded and the expired
    entries are dropped.  A session is its id and, once a candidate pair is
    selected, the text of its peer address. *)

Definition sync_sessions (sessions : list (string * option (string * Z))) (now : Instant)
    (c : AuthAddressCache) : AuthAddressCache :=
  let c :=
    foldl (fun c '(session_id, peer_address) =>
             match peer_address with
             | Some (addr_str, _) =>
                 match parse_ip addr_str with
                 | Some peer_ip =>
                     record_auth peer_ip ("webrtc:" +:+ session_id)%string None "webrtc" now c
                 | None => c
                 end
             | None => c
             end) c sessions in
  cleanup_expired now c.

(** ** Histories

    The calls that reach the cache, with the clock at each. *)

Inductive auth_event :=
  | Recorded (addr : IpAddr) (user_id : string) (display_name : option string) (source : string)
  | Cleaned.

Definition apply_event (c : AuthAddressCache) (te : Instant * auth_event) : AuthAddressCache :=
  match te.2 with
  | Recorded addr user display source => record_auth addr user display source te.1 c
  | Cleaned => cleanup_expired te.1 c
  end.

(** The last time an address was recorded. *)
Definition recorded_step (addr : IpAddr) (last : option Instant) (te : Instant * auth_event)
    : option Instant :=
  match te.2 with
  | Recorded a _ _ _ => if decide (normalize_ip a = normalize_ip addr) then Some te.1 else last
  | Cleaned => last
  end.

Definition last_recorded (addr : IpAddr) (h : list (Instant * auth_event)) : option Instant :=
  foldl (recorded_step addr) None h.

(** The clock does not run backwards between [from] and [upto]. *)
Fixpoint ordered (from : Instant) (h : list (Instant * auth_event)) (upto : Instant) : Prop :=
  match h with
  | [] => from <= upto
  | te :: h => from <= te.1 /\ ordered te.1 h upto
  end.

(** ** Lemmas *)

Lemma normalize_ip_mapped o : length o = 4%nat -> normalize_ip (V6 (v4_mapped o)) = V4 o.
Proof. intros Ho. unfold normalize_ip. by rewrite to_ipv4_mapped_mapped. Qed.

Lemma normalize_ip_idemp a : normalize_ip (normalize_ip a) = normalize_ip a.
Proof. destruct a as [o|o]; simpl; [done|]. by destruct (to_ipv4_mapped o) eqn:E; simpl; rewrite ?E. Qed.

(** What the cache knows of an address once the clock is at [now]: an entry no
    older than its last recording, or none if that is over the timeout. *)
Definition knows (c : AuthAddressCache) (addr : IpAddr) (last : option Instant) (now : Instant) : Prop :=
  match last with
  | None => ac_cache c !! normalize_ip addr = None
  | Some t =>
      t <= now /\
      ((exists e, ac_cache c !! normalize_ip addr = Some e /\ aa_last_authenticated e = t)
       \/ (ac_cache c !! normalize_ip addr = None /\ ac_timeout c <= now - t))
  end.


Lemma apply_event_timeout c te : ac_timeout (apply_event c te) = ac_timeout c.
Proof. by destruct te as [t []]. Qed.

Lemma knows_event c addr last now te :
  knows c addr last now -> now <= te.1 ->
  knows (apply_event c te) addr (recorded_step addr last te) te.1.
Proof.
  destruct te as [t [a user disp source|]]; unfold recorded_step, apply_event; cbn [fst snd]; intros Hk Ht.
  - unfold record_auth. case_decide as Ha.
    + rewrite Ha. split; [lia|]. left. eexists. split; [apply lookup_insert_eq|done].
    + unfold knows in *. cbn [ac_cache ac_timeout]. rewrite lookup_insert_ne by done.
      destruct last as [t0|]; [|done]. destruct Hk as (H0 & [Hin|[Hout Hold]]); (split; [lia|]).
      * by left.
      * right. split; [done|lia].
  - unfold knows, cleanup_expired in *. cbn [ac_cache ac_timeout].
    destruct last as [t0|]; [|by rewrite map_lookup_filter, Hk].
    destruct Hk as (H0 & [(e & He & Hte)|[Hout Hold]]); (split; [lia|]); rewrite map_lookup_filter.
    + rewrite He. cbn [mbind option_bind]. case_guard as Hg; [by left; exists e|].
      right. split; [done|]. unfold elapsed in Hg. cbn [snd] in Hg. lia.
    + rewrite Hout. right. split; [done|lia].
Qed.

Lemma knows_later c addr last now now' :
  knows c addr last now -> now <= now' -> knows c addr last now'.
Proof.
  unfold knows. destruct last as [t|]; [|done]. intros (Ht & H) Hle. split; [lia|].
  destruct H as [?|[? ?]]; [by left|right; split; [done|lia]].
Qed.

Lemma knows_history h c addr last now upto :
  knows c addr last now -> ordered now h upto ->
  knows (foldl apply_event c h) addr (foldl (recorded_step addr) last h) upto.
Proof.
  revert c last now. induction h as [|te h IH]; intros c last now Hk Hord; simpl in *.
  - by eapply knows_later.
  - destruct Hord as [Hle Hord]. eapply IH; [|done]. by eapply knows_event.
Qed.

Lemma timeout_history h c : ac_timeout (foldl apply_event c h) = ac_timeout c.
Proof. revert c. induction h as [|te h IH]; intros c; simpl; [done|]. by rewrite IH, apply_event_timeout. Qed.

(** ** Properties *)

(** After any history of recordings and clean-ups with a clock that does
    not run backwards, an address is authenticated exactly when it was last
    recorded less than the timeout ago; clean-ups are not observable, and an
    IPv4-mapped IPv6 address and the IPv4 address are the same client. *)
Theorem is_authenticated_iff_recent timeout_secs start h now addr :
  ordered start h now ->
  is_authenticated addr now (foldl apply_event (new timeout_secs) h)
  = match last_recorded addr h with
    | Some t => now - t <? from_secs timeout_secs
    | None => false
    end.
Proof.
  intros Hord. pose proof (knows_history h (new timeout_secs) addr None start now) as Hk.
  specialize (Hk ltac:(apply lookup_empty) Hord). unfold last_recorded.
  pose proof (timeout_history h (new timeout_secs)) as Hto. simpl in Hto.
  unfold is_authenticated, check_auth, knows in *. rewrite Hto in *.
  destruct (foldl (recorded_step addr) None h) as [t|]; [|by rewrite Hk].
  destruct Hk as (Ht & [(e & -> & <-)|[-> Hold]]).
  - unfold elapsed. rewrite Z.max_r by lia. by destruct (_ <? _).
  - symmetry. apply Z.ltb_ge. lia.
Qed.

(** Recording and checking treat an IPv4 address and its IPv4-mapped IPv6
    form alike, whichever of the two the listener reports. *)
Lemma mapped_addresses_alike o user display source t now c :
  length o = 4%nat ->
  record_auth (V6 (v4_mapped o)) user display source t c = record_auth (V4 o) user display source t c
  /\ check_auth (V6 (v4_mapped o)) now c = check_auth (V4 o) now c
  /\ refresh_auth (V6 (v4_mapped o)) now c = refresh_auth (V4 o) now c.
Proof.
  intros Ho. unfold record_auth, check_auth, refresh_auth.
  by rewrite (normalize_ip_mapped o Ho).
Qed.

