(* ===== verification/SurveyAuth.v ===== *)
(** * Sessions of users and surveyors (auth/src/session.rs, auth/src/service.rs,
    server/src/auth_handlers.rs, server/src/survey_middleware.rs)

    A user logs in and carries an encrypted cookie; a surveyor presents a magic
    key and carries a plain cookie whose text is the session.  The middleware of
    the test page lets either through.  Decrypting the private cookie jar is the
    framework's: the session it yields is an argument, and so are the cookie
    headers, each [None] when it is not text. *)

From stdpp Require Import base list gmap strings.
From Stdlib Require Import ZArith Lia Ascii.
From S2P Require Import Prelude Utf8 Net IpParse Protocol State AuthCache.
Local Open Scope Z_scope.

(** ** Configuration and sessions *)

Inductive AuthProvider := Bluesky | GitHub | Google | LinkedIn | PlainLogin.

(** [{:?}] *)
Definition provider_name (p : AuthProvider) : string :=
  match p with
  | Bluesky => "Bluesky" | GitHub => "GitHub" | Google => "Google" | LinkedIn => "LinkedIn"
  | PlainLogin => "PlainLogin"
  end.

Record SessionData := mkSessionData {
  sd_auth_provider : AuthProvider;
  sd_user_id : string;
  sd_handle : string;
  sd_display_name : option string;
  sd_groups : list string;
  sd_created_at : Z }.

Record SessionConfig := mkSessionConfig {
  sc_cookie_name : string;
  sc_timeout_seconds : Z;
  sc_secure : bool;
  sc_cookie_secret : option string }.

(** The fields sessions depend on; the login providers' are left out. *)
Record AuthConfig := mkAuthConfig {
  au_enable_auth : bool;
  au_session : SessionConfig;
  au_allowed_users : list string;
  au_magic_keys : MagicKeyConfig }.

Definition is_expired (now created_at timeout_seconds : Z) : outcome bool :=
  age ← checked_u 64 (now - created_at);
  Ret (timeout_seconds <? age).

(** [validate_session(..).is_ok()] *)
Definition validate_session (now : Z) (c : AuthConfig) (s : SessionData) : outcome bool :=
  expired ← is_expired now (sd_created_at s) (sc_timeout_seconds (au_session c));
  Ret (negb expired).

Definition contains (l : list string) (s : string) : bool := existsb (String.eqb s) l.

Definition is_user_allowed (c : AuthConfig) (user_handle : string) : bool :=
  match au_allowed_users c with
  | [] => true
  | users => contains users user_handle
  end.

(** ** Cookies *)

Definition collect_all_cookies (headers : list (option string)) : string :=
  foldl (fun acc v =>
           match v with
           | Some s => if (acc =? String.EmptyString)%string then s else (acc +:+ "; " +:+ s)%string
           | None => acc
           end) String.EmptyString headers.

Definition cookie_value (cookie_name cookie : string) : option string :=
  match split_on "="%char (trim cookie) with
  | [name; value] => if (name =? cookie_name)%string then Some value else None
  | _ => None
  end.

Fixpoint find_map {A B} (f : A -> option B) (l : list A) : option B :=
  match l with
  | [] => None
  | a :: l => match f a with Some b => Some b | None => find_map f l end
  end.

Definition extract_session_id (cookie_str cookie_name : string) : option string :=
  find_map (cookie_value cookie_name) (split_on ";"%char cookie_str).

(** ** Survey sessions *)

Definition validate_survey_session (now : Z) (session_id : string) (config : MagicKeyConfig)
    : outcome bool :=
  if negb (starts_with "survey_" session_id) then Ret false
  else
    let parts := split_on "_"%char session_id in
    if (length parts <? 4)%nat then Ret false
    else
      timestamp_str ← index parts (length parts - 2);
      match parse_u64 timestamp_str with
      | None => Ret false
      | Some timestamp =>
          let elapsed := saturating_sub now timestamp in
          if mk_survey_timeout_seconds config <? elapsed then Ret false
          else
            magic_key_parts ← slice parts 1 (length parts - 2);
            Ret (contains (mk_magic_keys config) (join "-" magic_key_parts))
      end.

Definition extract_magic_key_from_session (session_id : string) : outcome (option string) :=
  if negb (starts_with "survey_" session_id) then Ret None
  else
    let parts := split_on "_"%char session_id in
    if (length parts <? 4)%nat then Ret None
    else
      key_parts ← slice parts 1 (length parts - 2);
      Ret (match key_parts with [] => None | _ => Some (join "-" key_parts) end).

(** The data channels' version, which also wants the time stamp to be a number
    (server/src/data_channels.rs). *)
Definition extract_magic_key_from_session_id (session_id : string) : outcome (option string) :=
  if negb (starts_with "survey_" session_id) then Ret None
  else
    let parts := split_on "_"%char session_id in
    if (length parts <? 4)%nat then Ret None
    else
      let timestamp_idx := (length parts - 2)%nat in
      timestamp_str ← index parts timestamp_idx;
      match parse_u64 timestamp_str with
      | None => Ret None
      | Some _ =>
          magic_key_parts ← slice parts 1 timestamp_idx;
          Ret (match magic_key_parts with [] => None | _ => Some (join "-" magic_key_parts) end)
      end.

(** [s.replace(a, b)] for characters. *)
Fixpoint replace_char (a b : ascii) (s : string) : string :=
  match s with
  | String.EmptyString => String.EmptyString
  | String.String c s => String.String (if Ascii.eqb c a then b else c) (replace_char a b s)
  end.

Definition survey_session_id (magic_key : string) (timestamp : Z) (uuid : string) : string :=
  ("survey_" +:+ replace_char "-" "_" magic_key +:+ "_" +:+ decimal timestamp +:+ "_" +:+ uuid)%string.

(** ** Handlers *)

Inductive magic_key_response :=
  | NotFound
  | Unauthorized
  | SessionCookie (set_cookie : string).

Definition set_cookie (config : MagicKeyConfig) (session_id : string) : string :=
  (mk_survey_cookie_name config +:+ "=" +:+ session_id
   +:+ "; Path=/; HttpOnly; SameSite=Lax; Max-Age=" +:+ decimal (mk_survey_timeout_seconds config))%string.

Definition magic_key_auth (now : Z) (uuid magic_key : string) (c : AuthConfig) : magic_key_response :=
  let config := au_magic_keys c in
  if negb (mk_enabled config) || (length (mk_magic_keys config) =? 0)%nat then NotFound
  else if negb (contains (mk_magic_keys config) magic_key) then Unauthorized
  else SessionCookie (set_cookie config (survey_session_id magic_key now uuid)).

(** The same, recording the address. *)
Definition magic_key_auth_with_cache (now : Z) (instant : Instant) (uuid magic_key : string)
    (addr : IpAddr) (c : AuthConfig) (cache : option AuthAddressCache)
    : magic_key_response * option AuthAddressCache :=
  let config := au_magic_keys c in
  if negb (mk_enabled config) || (length (mk_magic_keys config) =? 0)%nat then (NotFound, cache)
  else if negb (contains (mk_magic_keys config) magic_key) then (Unauthorized, cache)
  else
    let cache :=
      (fun cache => AuthAddressCache.record_auth addr ("magic_key:" +:+ magic_key)%string None
                      "magic_key" instant cache) <$> cache in
    (SessionCookie (set_cookie config (survey_session_id magic_key now uuid)), cache).

Record StatsInfo := mkStatsInfo {
  si_active_surveys : Z;
  si_total_measurements : Z;
  si_active_surveyors : Z }.

Record AuthStatusResponse := mkAuthStatusResponse {
  as_authenticated : bool;
  as_auth_type : option string;
  as_user : option string;
  as_stats : option StatsInfo;
  as_magic_key : option string }.

Definition unauthenticated : AuthStatusResponse := mkAuthStatusResponse false None None None None.

(** The session of the cookie jar when it is valid and the user allowed. *)
Definition regular_session (now : Z) (c : AuthConfig) (jar : option SessionData)
    : outcome (option SessionData) :=
  match jar with
  | Some session_data =>
      ok ← validate_session now c session_data;
      Ret (if ok && is_user_allowed c (sd_handle session_data) then Some session_data else None)
  | None => Ret None
  end.

(** The survey session of the cookies when it is valid. *)
Definition survey_session (now : Z) (c : AuthConfig) (headers : list (option string))
    : outcome (option string) :=
  match extract_session_id (collect_all_cookies headers) (mk_survey_cookie_name (au_magic_keys c)) with
  | Some session_id =>
      ok ← validate_survey_session now session_id (au_magic_keys c);
      Ret (if ok : bool then Some session_id else None)
  | None => Ret None
  end.

Definition auth_status_with_cache (now : Z) (instant : Instant) (addr : IpAddr) (c : AuthConfig)
    (jar : option SessionData) (headers : list (option string)) (cache : option AuthAddressCache)
    : outcome (AuthStatusResponse * option AuthAddressCache) :=
  if negb (au_enable_auth c) then Ret (unauthenticated, cache)
  else
    regular ← regular_session now c jar;
    match regular with
    | Some s =>
        Ret (mkAuthStatusResponse true (Some "full"%string) (Some (sd_handle s))
               (Some (mkStatsInfo 0 0 0)) None,
             AuthAddressCache.record_auth addr (sd_handle s) (sd_display_name s)
               (provider_name (sd_auth_provider s)) instant <$> cache)
    | None =>
        if mk_enabled (au_magic_keys c) then
          survey ← survey_session now c headers;
          match survey with
          | Some session_id =>
              key ← extract_magic_key_from_session session_id;
              Ret (mkAuthStatusResponse true (Some "magic_key"%string) None None key,
                   AuthAddressCache.record_auth addr "magic_key_user" None "magic_key" instant <$> cache)
          | None => Ret (unauthenticated, cache)
          end
        else Ret (unauthenticated, cache)
    end.

(** Without a cache. *)
Definition auth_status (now : Z) (c : AuthConfig) (jar : option SessionData)
    (headers : list (option string)) : outcome AuthStatusResponse :=
  r ← auth_status_with_cache now 0 (V4 []) c jar headers None;
  Ret r.1.

(** ** The middleware *)

Inductive access := RunNext | RedirectTo (path : string).

Definition require_auth_or_survey_session (now : Z) (c : AuthConfig) (jar : option SessionData)
    (headers : list (option string)) : outcome access :=
  if negb (au_enable_auth c) then Ret RunNext
  else
    regular ← regular_session now c jar;
    let regular_auth_valid := is_some regular in
    magic_key_valid ←
      (if mk_enabled (au_magic_keys c) && negb regular_auth_valid then
         survey ← survey_session now c headers;
         Ret (is_some survey)
       else Ret false);
    Ret (if regular_auth_valid || magic_key_valid then RunNext else RedirectTo "/").

(** ** Lemmas on the format *)

Lemma split_on_app_sep c s t :
  split_on c (String.append s (String.String c t)) = split_on c s ++ split_on c t.
Proof.
  induction s as [|a s IH].
  - change (String.append String.EmptyString (String.String c t)) with (String.String c t).
    cbn [split_on]. by rewrite Ascii.eqb_refl.
  - change (String.append (String.String a s) (String.String c t))
      with (String.String a (String.append s (String.String c t))).
    cbn [split_on]. rewrite IH. destruct (Ascii.eqb a c); [done|].
    destruct (split_on c s) eqn:E; [by apply split_on_not_nil in E|done].
Qed.

Lemma join_cons_char sep a w ws :
  join sep (String.String a w :: ws) = String.String a (join sep (w :: ws)).
Proof. by destruct ws. Qed.

(** Splitting at one character and joining with another replaces it. *)
Lemma join_split_replace a b s :
  join (String.String b String.EmptyString) (split_on a s) = replace_char a b s.
Proof.
  induction s as [|c s IH]; [done|]. cbn [split_on replace_char].
  destruct (split_on a s) as [|w ws] eqn:E; [by apply split_on_not_nil in E|].
  destruct (Ascii.eqb c a).
  - rewrite <- IH. done.
  - by rewrite join_cons_char, IH.
Qed.

Lemma replace_char_lacks a b s : lacks a s = true -> replace_char a b s = s.
Proof.
  induction s as [|c s IH]; [done|]. cbn [lacks replace_char].
  destruct (Ascii.eqb c a); [done|]. intros H. by rewrite IH.
Qed.

Lemma replace_char_back a b s : replace_char b a (replace_char a b s) = replace_char b a s.
Proof.
  induction s as [|c s IH]; [done|]. cbn [replace_char]. rewrite IH. f_equal.
  destruct (Ascii.eqb_spec c a) as [->|]; [|done]. rewrite Ascii.eqb_refl.
  by destruct (Ascii.eqb a b).
Qed.

(** The parts of an issued session. *)
Lemma survey_session_id_parts key timestamp uuid :
  0 <= timestamp -> lacks "_"%char uuid = true ->
  split_on "_"%char (survey_session_id key timestamp uuid)
  = "survey"%string :: split_on "_"%char (replace_char "-" "_" key) ++ [decimal timestamp; uuid].
Proof.
  intros Ht Hu. unfold survey_session_id.
  change ("survey_" +:+ replace_char "-" "_" key +:+ "_" +:+ decimal timestamp +:+ "_" +:+ uuid)%string
    with (String.append "survey" (String.String "_"%char (String.append (replace_char "-" "_" key)
           (String.String "_"%char (String.append (decimal timestamp) (String.String "_"%char uuid)))))).
  rewrite !split_on_app_sep, (split_on_lacks _ uuid) by done.
  rewrite (split_on_lacks _ (decimal timestamp)); [done|].
  eapply lacks_Forall; [by apply decimal_digits|]. unfold is_digit. vm_compute. intuition congruence.
Qed.

Section issued.
  Context (key : string) (timestamp : Z) (uuid : string)
    (Htimestamp : 0 <= timestamp < 2 ^ 64) (Huuid : lacks "_"%char uuid = true).

Let id := survey_session_id key timestamp uuid.
Let key_parts := split_on "_"%char (replace_char "-" "_" key).

Lemma survey_session_id_prefix : starts_with "survey_" id = true.
Proof.
  unfold starts_with, id, survey_session_id.
  set (rest := (replace_char "-" "_" key +:+ "_" +:+ decimal timestamp +:+ "_" +:+ uuid)%string).
  by destruct rest.
Qed.

Lemma issued_parts : split_on "_"%char id = "survey"%string :: key_parts ++ [decimal timestamp; uuid].
Proof. apply survey_session_id_parts; [lia|done]. Qed.

Lemma issued_length : length (split_on "_"%char id) = (length key_parts + 3)%nat.
Proof. rewrite issued_parts. simpl. rewrite length_app. simpl. lia. Qed.

Lemma issued_enough : (length (split_on "_"%char id) <? 4)%nat = false.
Proof.
  apply Nat.ltb_ge. rewrite issued_length. unfold key_parts.
  destruct (split_on _ _) eqn:E; [by apply split_on_not_nil in E|simpl; lia].
Qed.

Lemma issued_timestamp :
  index (split_on "_"%char id) (length (split_on "_"%char id) - 2) = Ret (decimal timestamp).
Proof.
  rewrite issued_length, issued_parts.
  replace (length key_parts + 3 - 2)%nat with (S (length key_parts)) by lia.
  unfold index. simpl lookup. by rewrite lookup_app_r, Nat.sub_diag by lia.
Qed.

Lemma issued_key_parts :
  slice (split_on "_"%char id) 1 (length (split_on "_"%char id) - 2) = Ret key_parts.
Proof.
  rewrite slice_Ret by (rewrite issued_length; lia). rewrite issued_length, issued_parts.
  cbn [drop]. by rewrite drop_0, (take_app_length' key_parts) by lia.
Qed.

(** What an issued session says of its key: hyphens survive, underscores turn
    into hyphens. *)
Lemma issued_key : join "-" key_parts = replace_char "_" "-" key.
Proof.
  unfold key_parts.
  by rewrite (join_split_replace "_"%char "-"%char), replace_char_back.
Qed.

Lemma validate_issued now config :
  validate_survey_session now id config
  = Ret (negb (mk_survey_timeout_seconds config <? saturating_sub now timestamp)
         && contains (mk_magic_keys config) (replace_char "_" "-" key)).
Proof.
  unfold validate_survey_session. rewrite survey_session_id_prefix, issued_enough. cbn [negb].
  rewrite issued_timestamp. cbn [mbind outcome_bind]. rewrite parse_u64_decimal by done.
  destruct (mk_survey_timeout_seconds config <? saturating_sub now timestamp); [done|].
  rewrite issued_key_parts. cbn [mbind outcome_bind]. by rewrite issued_key.
Qed.

Lemma extract_issued :
  extract_magic_key_from_session_id id = Ret (Some (replace_char "_" "-" key))
  /\ extract_magic_key_from_session id = Ret (Some (replace_char "_" "-" key)).
Proof.
  unfold extract_magic_key_from_session_id, extract_magic_key_from_session.
  rewrite survey_session_id_prefix, issued_enough. cbn [negb].
  rewrite issued_timestamp, issued_key_parts. cbn [mbind outcome_bind].
  rewrite parse_u64_decimal by done. cbn [mbind outcome_bind].
  destruct key_parts eqn:E; [by apply split_on_not_nil in E|]. by rewrite <- E, issued_key.
Qed.

End issued.

(** ** The cookie on its way *)

(** The part of a [Set-Cookie] header a browser sends back. *)
Definition returned_cookie (header : string) : string := default header (head (split_on ";"%char header)).

(** Text that can stand in a cookie: visible characters, no separator. *)
Definition cookie_byte (b : Z) : Prop := visible b /\ b <> 59 /\ b <> 61.
Definition cookie_text (s : string) : Prop := Forall cookie_byte (bytes_of_string s).

Lemma cookie_text_append s t : cookie_text s -> cookie_text t -> cookie_text (String.append s t).
Proof. unfold cookie_text. intros. rewrite bytes_of_append. by apply Forall_app. Qed.

Lemma cookie_text_decimal z : 0 <= z -> cookie_text (decimal z).
Proof.
  intros Hz. eapply Forall_impl; [by apply decimal_digits|].
  unfold is_digit, cookie_byte, visible. lia.
Qed.

Lemma cookie_text_replace s : cookie_text s -> cookie_text (replace_char "-" "_" s).
Proof.
  unfold cookie_text. induction s as [|a s IH]; [done|]. cbn [replace_char].
  change (bytes_of_string (String.String a s)) with (byte_of_ascii a :: bytes_of_string s).
  intros [Ha Hs]%Forall_cons. 
  change (bytes_of_string (String.String ?b ?t)) with (byte_of_ascii b :: bytes_of_string t).
  constructor; [|by apply IH]. destruct (Ascii.eqb a "-"); [|done].
  vm_compute. intuition congruence.
Qed.

Lemma cookie_text_lacks c s : cookie_text s -> ~ cookie_byte (byte_of_ascii c) -> lacks c s = true.
Proof. apply lacks_Forall. Qed.

Lemma survey_session_id_text key timestamp uuid :
  cookie_text key -> cookie_text uuid -> 0 <= timestamp ->
  cookie_text (survey_session_id key timestamp uuid).
Proof.
  intros Hk Hu Ht. unfold survey_session_id.
  assert (cookie_text "survey_" /\ cookie_text "_") as [H1 H2].
  { unfold cookie_text, cookie_byte, visible. split; repeat constructor; vm_compute; congruence. }
  repeat apply cookie_text_append; try done; [by apply cookie_text_replace|by apply cookie_text_decimal].
Qed.

Section cookie.
  Context (name value : string) (Hname : cookie_text name) (Hvalue : cookie_text value).

Let cookie := String.append name (String.String "="%char value).

Lemma cookie_bytes (P : Z -> Prop) :
  P 61 -> (forall b, cookie_byte b -> P b) -> Forall P (bytes_of_string cookie).
Proof.
  intros Heq HP. unfold cookie. rewrite bytes_of_append. apply Forall_app.
  change (bytes_of_string (String.String "="%char value)) with (61 :: bytes_of_string value).
  split; [|constructor; [done|]]; (eapply Forall_impl; [eassumption|]; exact HP).
Qed.

Lemma cookie_no_semicolon : lacks ";"%char cookie = true.
Proof.
  apply (lacks_Forall _ _ (fun b => b <> 59)); [|vm_compute; tauto].
  apply cookie_bytes; [lia|]. intros b Hb. apply Hb.
Qed.

Lemma extract_own_cookie : extract_session_id cookie name = Some value.
Proof.
  assert (Forall visible (bytes_of_string cookie)) as Hvis.
  { apply cookie_bytes; [unfold visible; lia|]. intros b Hb. apply Hb. }
  unfold extract_session_id. rewrite split_on_lacks by apply cookie_no_semicolon.
  cbn [find_map]. unfold cookie_value. rewrite trim_visible by done.
  unfold cookie. rewrite split_on_app_sep.
  rewrite !split_on_lacks by (apply cookie_text_lacks; [done|]; unfold cookie_byte; vm_compute; tauto).
  cbn. by rewrite String.eqb_refl.
Qed.

Lemma returned_cookie_pair rest :
  returned_cookie (String.append cookie (String.String ";"%char rest)) = cookie.
Proof.
  unfold returned_cookie. by rewrite split_on_app_sep, split_on_lacks by apply cookie_no_semicolon.
Qed.

End cookie.

Lemma returned_set_cookie config id :
  cookie_text (mk_survey_cookie_name config) -> cookie_text id ->
  returned_cookie (set_cookie config id)
  = String.append (mk_survey_cookie_name config) (String.String "="%char id).
Proof.
  intros Hn Hid. unfold set_cookie.
  set (rest := (" Path=/; HttpOnly; SameSite=Lax; Max-Age="
                +:+ decimal (mk_survey_timeout_seconds config))%string).
  replace (mk_survey_cookie_name config +:+ "=" +:+ id
    +:+ "; Path=/; HttpOnly; SameSite=Lax; Max-Age=" +:+ decimal (mk_survey_timeout_seconds config))%string
    with (String.append (String.append (mk_survey_cookie_name config) (String.String "="%char id))
            (String.String ";"%char rest)) by (by rewrite <- append_assoc).
  by apply returned_cookie_pair.
Qed.

(** The middleware on a request whose only cookie is a survey session. *)
Lemma require_survey_cookie now c id :
  au_enable_auth c = true -> mk_enabled (au_magic_keys c) = true ->
  cookie_text (mk_survey_cookie_name (au_magic_keys c)) -> cookie_text id ->
  require_auth_or_survey_session now c None
    [Some (String.append (mk_survey_cookie_name (au_magic_keys c)) (String.String "="%char id))]
  = ok ← validate_survey_session now id (au_magic_keys c);
    Ret (if ok : bool then RunNext else RedirectTo "/").
Proof.
  intros Hauth Hen Hn Hid. unfold require_auth_or_survey_session, survey_session.
  rewrite Hauth, Hen. cbn [negb andb regular_session mbind outcome_bind is_some].
  unfold collect_all_cookies. cbn [foldl]. rewrite String.eqb_refl.
  rewrite extract_own_cookie by done.
  destruct (validate_survey_session now id (au_magic_keys c)) as [[]| |]; done.
Qed.


Definition sample_config : AuthConfig :=
  mkAuthConfig true (mkSessionConfig "session_id" 86400 false None) []
    (mkMagicKeyConfig true ["SURVEY-001"; "FIELD_7"]%string "survey_session_id" 28800 3600 ∅).

Ltac cookie_text := unfold cookie_text, cookie_byte, visible; repeat constructor; vm_compute; congruence.


(** A magic key with an underscore is locked out: it is accepted and a cookie
    is issued for it, but the session it names is that of the key with hyphens
    in place of the underscores, so that unless that is a key as well no
    request with the cookie gets through, not even at once. *)
Theorem underscore_key_locked_out c key uuid t now :
  let config := au_magic_keys c in
  au_enable_auth c = true -> mk_enabled config = true -> In key (mk_magic_keys config) ->
  ~ In (replace_char "_" "-" key) (mk_magic_keys config) ->
  lacks "_"%char uuid = true ->
  cookie_text (mk_survey_cookie_name config) -> cookie_text key -> cookie_text uuid ->
  0 <= t < 2 ^ 64 ->
  exists header,
    magic_key_auth t uuid key c = SessionCookie header
    /\ require_auth_or_survey_session now c None [Some (returned_cookie header)]
       = Ret (RedirectTo "/").
Proof.
  intros config Hauth Hen Hin Hnot Huuid Hname Hktext Hutext Ht.
  assert (contains (mk_magic_keys config) key = true) as Hc.
  { apply existsb_exists. exists key. split; [done|]. apply String.eqb_refl. }
  assert (contains (mk_magic_keys config) (replace_char "_" "-" key) = false) as Hnc.
  { apply not_true_is_false. intros (k & Hk & <-%String.eqb_eq)%existsb_exists. done. }
  exists (set_cookie config (survey_session_id key t uuid)). split.
  - unfold magic_key_auth. fold config. rewrite Hen, Hc. cbn [negb orb].
    by destruct (mk_magic_keys config).
  - pose proof (survey_session_id_text key t uuid Hktext Hutext ltac:(lia)) as Hid.
    unfold config. rewrite returned_set_cookie, require_survey_cookie, validate_issued by done.
    fold config. by rewrite Hnc, andb_false_r.
Qed.

(** The time stamp of a survey session is the client's word: whoever knows a
    key can write a cookie with a time stamp in the future, without any request
    to [magic_key_auth], and it lets requests through at every time up to that
    stamp plus the timeout, for ever with the greatest stamp. *)
Theorem forged_session_outlives_timeout c key uuid stamp now :
  let config := au_magic_keys c in
  au_enable_auth c = true -> mk_enabled config = true -> In key (mk_magic_keys config) ->
  lacks "_"%char key = true -> lacks "_"%char uuid = true ->
  cookie_text (mk_survey_cookie_name config) -> cookie_text key -> cookie_text uuid ->
  0 <= mk_survey_timeout_seconds config -> 0 <= stamp < 2 ^ 64 ->
  now <= stamp + mk_survey_timeout_seconds config ->
  require_auth_or_survey_session now c None
    [Some (String.append (mk_survey_cookie_name config)
             (String.String "="%char (survey_session_id key stamp uuid)))] = Ret RunNext.
Proof.
  intros config Hauth Hen Hin Hkey Huuid Hname Hktext Hutext Hto Hs Hnow.
  pose proof (survey_session_id_text key stamp uuid Hktext Hutext ltac:(lia)) as Hid.
  unfold config. rewrite require_survey_cookie, validate_issued by done. fold config.
  assert (contains (mk_magic_keys config) key = true) as Hc.
  { apply existsb_exists. exists key. split; [done|]. apply String.eqb_refl. }
  rewrite replace_char_lacks, Hc by done. unfold saturating_sub.
  by destruct (Z.ltb_spec (mk_survey_timeout_seconds config) (Z.max 0 (now - stamp))); [lia|].
Qed.

