(* ===== verification/DataChannels.v ===== *)
(** * Data channels (server/src/data_channels.rs)

    The handlers of the four data channels of a session: channel registration,
    the dispatch of messages, and every control message.  The critical sections
    on the measurement state are definitions of their own; the services shared
    by all sessions are passed along. *)

From stdpp Require Import base list gmap strings.
From Stdlib Require Import ZArith Lia.
From S2P Require Import Prelude Utf8 Net IpParse F64 Protocol State Measurements Capture Keylog SurveyAuth.
Local Open Scope Z_scope.

Definition DEFAULT_MEASURING_TIME_MS : Z := 10000000.

(** The services of the server, and whether a session manager is configured. *)
Record services := mkServices {
  sv_capture : option PacketCaptureService;
  sv_keylog : option KeylogStorage;
  sv_session_manager : bool }.

(** What a handler observes: clocks, open channels, whether warnings are logged
    and the keys the DTLS transport reports. *)
Record control_obs := mkControlObs {
  co_ready : handle -> bool;
  co_now : Instant;
  co_now_ms : Z;
  co_metrics_now_ms : Z;
  co_warn : bool;
  co_dtls_keys : option (bytes * bytes);
  co_keylog_now : Z }.

(** ** Sections on the measurement state *)

Definition clear_measurements (st : MeasurementState) : MeasurementState :=
  st {{ ms_received_probes := []; ms_received_bulk_bytes := []; ms_sent_bulk_packets := [];
        ms_sent_probes := []; ms_sent_probes_map := ∅; ms_echoed_probes := [] }}.

Definition start_server_traffic (st : MeasurementState) : MeasurementState :=
  clear_measurements (st {{ ms_traffic_active := true }}).

Definition stop_server_traffic (st : MeasurementState) : MeasurementState :=
  st {{ ms_traffic_active := false }}.

Definition start_probe_streams (now : Instant) (max_measuring_duration : option Duration)
    (st : MeasurementState) : MeasurementState :=
  st {{ ms_probe_streams_active := true;
        ms_probe_streams_started_at := Some now;
        ms_max_measuring_duration := max_measuring_duration;
        ms_measurement_probe_seq := 0;
        ms_received_measurement_probes := [];
        ms_probe_stats := [];
        ms_baseline_delay_sum := f64_zero;
        ms_baseline_delay_count := 0;
        ms_last_feedback := ProbeFeedback_default;
        ms_client_reported_s2c_stats := None }}.

Definition stop_probe_streams (st : MeasurementState) : MeasurementState :=
  st {{ ms_probe_streams_active := false }}.

Definition store_client_stats (stats : DirectionStats) (st : MeasurementState) : MeasurementState :=
  st {{ ms_client_reported_s2c_stats := Some stats }}.

Definition stop_traceroute (st : MeasurementState) : MeasurementState :=
  clear_measurements (st {{ ms_stop_traceroute := true }}).

(** ** Control messages *)

Definition update_survey_session_id (survey_session_id : string) (s : ClientSession) : ClientSession :=
  if (survey_session_id =? String.EmptyString)%string then s
  else s {{ cs_survey_session_id := survey_session_id }}.

(** The configured limit of the session's key. *)
Definition measuring_time_seconds (s : ClientSession) : option Z :=
  match cs_magic_key_config s, cs_magic_key s with
  | Some config, Some key => Some (get_max_measuring_time_seconds config key)
  | _, _ => None
  end.

Section control.
  Context (control_to_vec : ControlMessage -> option bytes).

(** [ServerSideReady] once all channels are there; it is sent without looking at
    the state of the channel. *)
Definition send_server_side_ready (s : ClientSession) : list effect :=
  let channels := cs_data_channels s in
  match dc_control channels with
  | Some control =>
      if all_ready channels then
        match control_to_vec (ServerSideReady (mkServerSideReadyMessage (cs_conn_id s) (cs_survey_session_id s))) with
        | Some msg_json => [Send control msg_json]
        | None => []
        end
      else []
  | None => []
  end.

Definition register_capture (survey_session_id : string) (s : ClientSession) (sv : services)
    : services :=
  match sv_capture sv, cs_peer_address s with
  | Some capture, Some (ip_str, port) =>
      match parse_ip ip_str with
      | Some a =>
          sv {{ sv_capture := Some (PacketCaptureService.register_session (mkSocketAddr a port) 0
                                      survey_session_id capture) }}
      | None => sv
      end
  | _, _ => sv
  end.

Definition store_keys (o : control_obs) (survey_session_id : string) (sv : services)
    : outcome services :=
  match sv_keylog sv, co_dtls_keys o with
  | Some keylog, Some (local_random, master_secret) =>
      keylog ← DtlsKeylogService.add_keylog survey_session_id local_random master_secret
                 (co_keylog_now o) keylog;
      Ret (sv {{ sv_keylog := Some keylog }})
  | _, _ => Ret sv
  end.

Definition start_survey_session (o : control_obs) (m : StartSurveySessionMessage)
    (s : ClientSession) (sv : services) : outcome (ClientSession * services * list effect) :=
  let survey_session_id := sss_survey_session_id m in
  let s := s {{ cs_survey_session_id := survey_session_id }} in
  extracted ←
    (if is_some (sss_magic_key m) then Ret None
     else extract_magic_key_from_session_id survey_session_id);
  let s :=
    match sss_magic_key m, extracted with
    | Some magic_key, _ => s {{ cs_magic_key := Some magic_key }}
    | None, Some extracted => s {{ cs_magic_key := Some extracted }}
    | None, None => s
    end in
  let created :=
    if sv_session_manager sv then
      [CreateSurveySession survey_session_id
         (match sss_magic_key m with
          | Some key => key
          | None => default "unknown"%string extracted
          end)]
    else [] in
  sv ← store_keys o survey_session_id (register_capture survey_session_id s sv);
  Ret (s, sv, created ++ send_server_side_ready s).

Definition get_measuring_time (o : control_obs) (s : ClientSession) : outcome (list effect) :=
  max_duration_ms ←
    match measuring_time_seconds s with
    | Some seconds => checked_u 64 (seconds * 1000)
    | None => Ret DEFAULT_MEASURING_TIME_MS
    end;
  Ret (match ready_channel (co_ready o) (dc_control (cs_data_channels s)) with
       | Some control =>
           match control_to_vec (MeasuringTimeResponse (mkMeasuringTimeResponseMessage
                   (cs_conn_id s) (cs_survey_session_id s) max_duration_ms)) with
           | Some msg_json => [Send control msg_json]
           | None => []
           end
       | None => []
       end).

(** A parsed message. *)
Definition handle_control (o : control_obs) (m : ControlMessage) (s : ClientSession) (sv : services)
    : outcome (ClientSession * services * list effect) :=
  let mine (conn_id : string) := (conn_id =? cs_conn_id s)%string in
  let ignored := Ret (s, sv, []) in
  let with_state st := s {{ cs_measurement_state := st }} in
  match m with
  | TestProbeMessageEcho p =>
      s ← handle_testprobe_echo_packet (co_now_ms o) p s;
      Ret (s, sv, [])
  | StartSurveySession m =>
      if negb (mine (sss_conn_id m)) then ignored else start_survey_session o m s sv
  | StartTraceroute m =>
      if negb (mine (start_tr_conn_id m)) then ignored
      else Ret (update_survey_session_id (start_tr_survey_session_id m) s, sv, [Spawn TracerouteRound])
  | StartMtuTraceroute m =>
      if negb (mine (mtu_conn_id m)) then ignored
      else Ret (update_survey_session_id (mtu_survey_session_id m) s, sv,
                [Spawn (MtuTracerouteRound (mtu_packet_size m) (mtu_path_ttl m)
                          (mtu_collect_timeout_ms m))])
  | GetMeasuringTime m =>
      if negb (mine (gmt_conn_id m)) then ignored
      else e ← get_measuring_time o s; Ret (s, sv, e)
  | StartServerTraffic m =>
      if negb (mine (start_st_conn_id m)) then ignored
      else
        let s := update_survey_session_id (start_st_survey_session_id m) s in
        Ret (s {{ cs_measurement_state ::= start_server_traffic;
                  cs_metrics := ClientMetrics_default }}, sv, [Spawn ProbeSender; Spawn BulkSender])
  | StopServerTraffic m =>
      if negb (mine (stop_st_conn_id m)) then ignored
      else Ret (with_state (stop_server_traffic (cs_measurement_state s)), sv, [])
  | StartProbeStreams m =>
      if negb (mine (start_ps_conn_id m)) then ignored
      else
        let s := update_survey_session_id (start_ps_survey_session_id m) s in
        Ret (s {{ cs_measurement_state ::=
                    start_probe_streams (co_now o) (from_secs <$> measuring_time_seconds s) }},
             sv, [Spawn MeasurementProbeSender; Spawn ProbeStatsReporter])
  | StopProbeStreams m =>
      if negb (mine (stop_ps_conn_id m)) then ignored
      else Ret (with_state (stop_probe_streams (cs_measurement_state s)), sv, [])
  | ProbeStats m =>
      if negb (mine (psr_conn_id m)) then ignored
      else Ret (with_state (store_client_stats (psr_s2c_stats m) (cs_measurement_state s)), sv, [])
  | StopTraceroute m =>
      if negb (mine (stop_tr_conn_id m)) then ignored
      else Ret (s {{ cs_measurement_state ::= stop_traceroute;
                     cs_metrics := ClientMetrics_default }}, sv, [])
  | TracerouteCompleted _ | MtuTracerouteCompleted _
  | ServerSideReady _ | TraceHop _ | MtuHop _ | MeasuringTimeResponse _ => ignored
  end.

(** The previews for the log: the first is taken whatever the level. *)
Definition preview (n : nat) (data : bytes) : outcome () :=
  if is_utf8 data then
    let msg_str := string_of_bytes data in
    if (n <? String.length msg_str)%nat then _ ← str_prefix msg_str n; Ret () else Ret ()
  else Ret ().

  Context (control_from_slice : bytes -> option ControlMessage)
    (probe_from_slice : bytes -> option ProbePacket)
    (testprobe_from_slice : bytes -> option TestProbePacket)
    (measurement_from_slice : bytes -> option MeasurementProbePacket).

Definition handle_control_message (o : control_obs) (data : bytes) (s : ClientSession) (sv : services)
    : outcome (ClientSession * services * list effect) :=
  _ ← preview 200 data;
  match control_from_slice data with
  | Some m => handle_control o m s sv
  | None => _ ← (if co_warn o then preview 100 data else Ret ()); Ret (s, sv, [])
  end.

Definition handle_probe_message (o : control_obs) (data : bytes) (s : ClientSession)
    : outcome ClientSession :=
  if ms_probe_streams_active (cs_measurement_state s) && is_some (measurement_from_slice data)
  then handle_measurement_probe_packet measurement_from_slice (co_now_ms o) data s
  else handle_probe_packet probe_from_slice (co_now_ms o) (co_metrics_now_ms o) data s.

Definition handle_bulk_message (o : control_obs) (data : bytes) (s : ClientSession)
    : outcome ClientSession :=
  handle_bulk_packet (co_now_ms o) (co_metrics_now_ms o) data s.

Definition handle_testprobe_message (o : control_obs) (data : bytes) (s : ClientSession)
    : outcome ClientSession :=
  handle_testprobe_packet testprobe_from_slice (co_now_ms o) data s.

Definition handle_message (o : control_obs) (channel : string) (data : bytes) (s : ClientSession)
    (sv : services) : outcome (ClientSession * services * list effect) :=
  let session_only r := s ← r; Ret (s, sv, []) in
  if (channel =? "probe")%string then session_only (handle_probe_message o data s)
  else if (channel =? "bulk")%string then session_only (handle_bulk_message o data s)
  else if (channel =? "control")%string then handle_control_message o data s sv
  else if (channel =? "testprobe")%string then session_only (handle_testprobe_message o data s)
  else Ret (s, sv, []).

(** A channel the client opens. *)
Definition on_data_channel (label : string) (dc : handle) (s : ClientSession)
    : ClientSession * list effect :=
  let channels := cs_data_channels s in
  let channels :=
    if (label =? "probe")%string then channels {{ dc_probe := Some dc }}
    else if (label =? "bulk")%string then channels {{ dc_bulk := Some dc }}
    else if (label =? "control")%string then channels {{ dc_control := Some dc }}
    else if (label =? "testprobe")%string then channels {{ dc_testprobe := Some dc }}
    else channels in
  let s := s {{ cs_data_channels := channels }} in
  (s, send_server_side_ready s).

End control.

(** ** Properties *)

(** The connection a message names. *)
Definition message_conn_id (m : ControlMessage) : string :=
  match m with
  | StartTraceroute m => start_tr_conn_id m
  | StopTraceroute m => stop_tr_conn_id m
  | TracerouteCompleted m => tr_done_conn_id m
  | StartSurveySession m => sss_conn_id m
  | ServerSideReady m => ready_conn_id m
  | StartMtuTraceroute m => mtu_conn_id m
  | MtuTracerouteCompleted m => mtu_done_conn_id m
  | TraceHop m => th_conn_id m
  | MtuHop m => mh_conn_id m
  | GetMeasuringTime m => gmt_conn_id m
  | MeasuringTimeResponse m => mtr_conn_id m
  | StartServerTraffic m => start_st_conn_id m
  | StopServerTraffic m => stop_st_conn_id m
  | TestProbeMessageEcho m => test_conn_id m
  | StartProbeStreams m => start_ps_conn_id m
  | StopProbeStreams m => stop_ps_conn_id m
  | ProbeStats m => psr_conn_id m
  end.

Lemma handle_control_foreign control_to_vec o m s sv :
  message_conn_id m <> cs_conn_id s -> handle_control control_to_vec o m s sv = Ret (s, sv, []).
Proof.
  intros H%String.eqb_neq. unfold handle_control, handle_testprobe_echo_packet.
  destruct m; cbn [message_conn_id] in H; try done; by rewrite H.
Qed.

(** C36: On all four channels a session reacts to nothing that names another
    connection: a control message, probe, test probe or measurement probe with
    a foreign connection id leaves the session and the shared services as they
    are and sends and starts nothing.  (Bulk packets carry no id.) *)
Theorem foreign_messages_ignored control_to_vec control_from_slice probe_from_slice
    testprobe_from_slice measurement_from_slice o channel data s sv :
  channel <> "bulk"%string ->
  (forall m, control_from_slice data = Some m -> message_conn_id m <> cs_conn_id s) ->
  (forall p, probe_from_slice data = Some p -> probe_conn_id p <> cs_conn_id s) ->
  (forall p, testprobe_from_slice data = Some p -> test_conn_id p <> cs_conn_id s) ->
  (forall p, measurement_from_slice data = Some p -> mp_conn_id p <> cs_conn_id s) ->
  no_panic (preview 200 data) -> no_panic (preview 100 data) ->
  handle_message control_to_vec control_from_slice probe_from_slice testprobe_from_slice
    measurement_from_slice o channel data s sv = Ret (s, sv, []).
Proof.
  intros Hbulk%String.eqb_neq Hc Hp Ht Hm [[] H200] [[] H100]. unfold handle_message.
  destruct (channel =? "probe")%string; [|rewrite Hbulk; destruct (channel =? "control")%string;
    [|destruct (channel =? "testprobe")%string; [|done]]].
  - unfold handle_probe_message, handle_measurement_probe_packet, handle_probe_packet.
    assert (match probe_from_slice data with
            | Some probe => negb (probe_conn_id probe =? cs_conn_id s)%string = true | None => True end) as Hq.
    { destruct (probe_from_slice data) as [q|]; [|done].
      specialize (Hp q eq_refl). apply String.eqb_neq in Hp. by rewrite Hp. }
    destruct (measurement_from_slice data) as [p|];
      [specialize (Hm p eq_refl); apply String.eqb_neq in Hm|];
      destruct (ms_probe_streams_active (cs_measurement_state s)); cbn [andb is_some];
      rewrite ?Hm; try done; destruct (probe_from_slice data); rewrite ?Hq; done.
  - unfold handle_control_message. rewrite H200. cbn [mbind outcome_bind].
    destruct (control_from_slice data) as [m|]; [by apply handle_control_foreign, Hc|].
    by destruct (co_warn o); rewrite ?H100.
  - unfold handle_testprobe_message, handle_testprobe_packet, handle_testprobe_echo_packet.
    destruct (testprobe_from_slice data) as [p|]; [|done].
    specialize (Ht p eq_refl). apply String.eqb_neq in Ht. by rewrite Ht.
Qed.

Definition idle_session : ClientSession :=
  mkClientSession "s" None (Some "ipv4"%string) None "c" "survey" 0%nat
    (mkDataChannels (Some 1%nat) (Some 2%nat) (Some 3%nat) (Some 4%nat))
    ClientMetrics_default MeasurementState_new 0 [] None 0 None None None.

Definition idle_obs : control_obs := mkControlObs (fun _ => true) 0 100000 100000 true None 0.

Lemma foreign_messages_ignored_witness :
  handle_message (fun _ => Some [1])
    (fun _ => Some (StopProbeStreams (mkStopProbeStreamsMessage "other" "survey")))
    (fun _ => None) (fun _ => None) (fun _ => None) idle_obs "control" [123; 125]
    idle_session (mkServices None None true)
  = Ret (idle_session, mkServices None None true, []).
Proof.
  apply foreign_messages_ignored; try done.
  - intros m [= <-]. discriminate.
  - by exists tt.
  - by exists tt.
Defined.

(** A control message that is text and has a character across its byte 200
    never reaches the parser: the preview for the log is cut there and the
    handler panics, whatever the message says. *)
Theorem long_control_message_panics control_to_vec control_from_slice o data s sv b :
  is_bytes data -> is_utf8 data = true -> data !! 200%nat = Some b -> is_continuation b = true ->
  handle_control_message control_to_vec control_from_slice o data s sv = Panic NotACharBoundary.
Proof.
  intros Hb Hutf Hd Hcont. unfold handle_control_message, preview. rewrite Hutf.
  pose proof (lookup_lt_Some _ _ _ Hd) as Hlen.
  rewrite <- length_bytes_of_string, bytes_of_string_of_bytes by done.
  destruct (Nat.ltb_spec 200 (length data)); [|lia].
  unfold str_prefix, is_char_boundary. rewrite bytes_of_string_of_bytes by done.
  by rewrite Hd, Hcont.
Qed.

