(* ===== verification/Session.v ===== *)
(** * Runs of a session

    The tasks of a session (senders, receivers, rounds, control messages) work on
    its measurement state under a lock, in any order.  [session_step] has one
    rule per critical section; it asks for nothing a task checks before it
    takes the lock, so that it covers every interleaving. *)

From stdpp Require Import base list gmap strings.
From Stdlib Require Import ZArith Lia SpecFloat.
From S2P Require Import Prelude F64 Protocol State Tracker Measurements Traceroute DataChannels.
Local Open Scope Z_scope.

Inductive session_label :=
  | LSentProbe (p : SentProbe)
  | LSentTestProbe (p : SentProbe)
  | LStreamsStarted
  | LSilent.

Inductive session_step : MeasurementState -> session_label -> MeasurementState -> Prop :=
  | step_sent_probe now seq st st' :
      record_sent_probe now st = Ret (seq, st') ->
      session_step st (LSentProbe (mkSentProbe seq now)) st'
  | step_sent_testprobe now seq st st' :
      record_sent_testprobe now st = Ret (seq, st') ->
      session_step st (LSentTestProbe (mkSentProbe seq now)) st'
  | step_sent_bulk bytes now st st' :
      record_sent_bulk bytes now st = Ret st' -> session_step st LSilent st'
  | step_probe_packet now probe st st' :
      record_probe_packet now probe st = Ret st' -> session_step st LSilent st'
  | step_bulk_packet now bytes st st' :
      record_bulk_packet now bytes st = Ret st' -> session_step st LSilent st'
  | step_testprobe_echo now probe st st' :
      record_testprobe_echo now probe st = Ret st' -> session_step st LSilent st'
  | step_measurement_probe now delay probe st st' :
      delay_of (mkTimedProbe (mp_seq probe) (mp_sent_at_ms probe) now) = Ret delay ->
      record_measurement_probe now delay probe st = Ret st' -> session_step st LSilent st'
  | step_next_measurement_probe now r st st' :
      next_measurement_probe now st = Ret (r, st') -> session_step st LSilent st'
  | step_start_server_traffic st : session_step st LSilent (start_server_traffic st)
  | step_stop_server_traffic st : session_step st LSilent (stop_server_traffic st)
  | step_start_probe_streams now max_duration st :
      session_step st LStreamsStarted (start_probe_streams now max_duration st)
  | step_stop_probe_streams st : session_step st LSilent (stop_probe_streams st)
  | step_store_client_stats stats st : session_step st LSilent (store_client_stats stats st)
  | step_stop_traceroute st : session_step st LSilent (stop_traceroute st).

Inductive session_run : list session_label -> MeasurementState -> Prop :=
  | session_run_new : session_run [] MeasurementState_new
  | session_run_snoc ls st l st' :
      session_run ls st -> session_step st l st' -> session_run (ls ++ [l]) st'.

Definition sent_probes (ls : list session_label) : list SentProbe :=
  omap (fun l => match l with LSentProbe p => Some p | _ => None end) ls.
Definition sent_testprobes (ls : list session_label) : list SentProbe :=
  omap (fun l => match l with LSentTestProbe p => Some p | _ => None end) ls.

(** ** The index of sent probes *)

(** The map holds exactly the probes of the queue, whose numbers are distinct and
    below the next one. *)
Record index_ok (q : list SentProbe) (m : gmap Z SentProbe) (next : Z) : Prop := mkIndexOk {
  idx_lookup : forall k p, m !! k = Some p <-> p ∈ q /\ sp_seq p = k;
  idx_nodup : NoDup (sp_seq <$> q);
  idx_below : Forall (fun p => 0 <= sp_seq p < next) q }.

Lemma index_ok_empty next : index_ok [] ∅ next.
Proof.
  split; [|constructor|constructor].
  intros k p. rewrite lookup_empty. split; [done|]. by intros [?%not_elem_of_nil ?].
Qed.

Lemma foldl_delete_seq (popped : list SentProbe) (m : gmap Z SentProbe) k :
  foldl (fun m p => delete (sp_seq p) m) m popped !! k
  = if decide (k ∈ sp_seq <$> popped) then None else m !! k.
Proof.
  rewrite <- (foldl_delete_lookup (sp_seq <$> popped) m k). f_equal.
  revert m. induction popped as [|p popped IH]; intros m; [done|]. apply IH.
Qed.

Lemma push_sent_index q m next now q' m' :
  0 <= next -> index_ok q m next ->
  push_sent (mkSentProbe next now) q m = Ret (q', m') ->
  index_ok q' m' (next + 1) /\ forall p, p ∈ q' -> p ∈ q \/ p = mkSentProbe next now.
Proof.
  intros Hnext [Hl Hnd Hb] Hpush. unfold push_sent in Hpush. invert_ret.
  set (sent := mkSentProbe next now) in *. set (old := fun p => sp_sent_at_ms p <? _) in Hpush.
  pose proof (pop_front_while_app old (q ++ [sent])) as Happ.
  destruct (pop_front_while old (q ++ [sent])) as [popped kept]. simpl in Happ. simplify_eq.
  assert (Forall (fun p => sp_seq p <> next) q) as Hne.
  { eapply Forall_impl; [exact Hb|]. simpl. lia. }
  rewrite Forall_forall in Hne.
  assert (NoDup (sp_seq <$> popped ++ q')) as Hnd'.
  { rewrite Happ, fmap_app. apply NoDup_app. split; [done|]. split; [|apply NoDup_singleton].
    intros k (p & -> & Hp)%list_elem_of_fmap Hk%list_elem_of_singleton. by apply (Hne p). }
  assert (forall p, p ∈ q' -> p ∈ q \/ p = sent) as Hin.
  { intros p Hp. assert (p ∈ q ++ [sent]) as H'.
    { rewrite <- Happ. apply elem_of_app. by right. }
    apply elem_of_app in H' as [?|?%list_elem_of_singleton]; tauto. }
  split; [|done]. rewrite fmap_app in Hnd'. apply NoDup_app in Hnd' as (_ & Hdisj & Hnd2).
  split; [|done|].
  - intros k p. rewrite foldl_delete_seq.
    assert (<[sp_seq sent:=sent]> m !! k = Some p <-> p ∈ popped ++ q' /\ sp_seq p = k) as Hins.
    { rewrite Happ, elem_of_app, list_elem_of_singleton. rewrite lookup_insert_Some, Hl. split.
      - intros [[<- <-]|[Hk [Hp <-]]]; tauto.
      - intros [[Hp| ->] <-]; [right|by left]. split; [|done]. intros Heq. by apply (Hne p). }
    case_decide as Hk.
    + split; [done|]. intros [Hp <-]. apply Hdisj in Hk. destruct Hk. by apply list_elem_of_fmap_2.
    + etransitivity; [exact Hins|]. rewrite elem_of_app. split; [|tauto]. intros [[Hp|Hp] <-]; [|done].
      destruct Hk. by apply list_elem_of_fmap_2.
  - apply Forall_forall. intros p [Hp| ->]%Hin; [|simpl; lia].
    rewrite Forall_forall in Hb. specialize (Hb p Hp). lia.
Qed.

(** ** The invariant

    One numbering space: the probes of the queue and the echoes are among the
    probes sent, whose numbers were never used twice. *)
Record channel_inv (q : list SentProbe) (m : gmap Z SentProbe) (next : Z)
    (echoed : list EchoedProbe) (sent : list SentProbe) : Prop := mkChannelInv {
  ci_next : 0 <= next;
  ci_index : index_ok q m next;
  ci_known : forall p, p ∈ q -> p ∈ sent;
  ci_nodup : NoDup (sp_seq <$> sent);
  ci_below : Forall (fun p => 0 <= sp_seq p < next) sent;
  ci_echoed : Forall (fun e => mkSentProbe (ep_seq e) (ep_sent_at_ms e) ∈ sent) echoed }.

Definition session_inv (ls : list session_label) (st : MeasurementState) : Prop :=
  channel_inv (ms_sent_probes st) (ms_sent_probes_map st) (ms_probe_seq st)
    (ms_echoed_probes st) (sent_probes ls)
  /\ channel_inv (ms_sent_testprobes st) (ms_sent_testprobes_map st) (ms_testprobe_seq st)
       (ms_echoed_testprobes st) (sent_testprobes ls)
  /\ baseline_ok st.

Lemma channel_inv_push q m next echoed sent now q' m' :
  channel_inv q m next echoed sent -> push_sent (mkSentProbe next now) q m = Ret (q', m') ->
  channel_inv q' m' (next + 1) echoed (sent ++ [mkSentProbe next now]).
Proof.
  intros [Hn Hi Hk Hnd Hb He] Hpush.
  destruct (push_sent_index q m next now q' m' Hn Hi Hpush) as [Hi' Hin]. split; [lia|done|..].
  - intros p [Hp| ->]%Hin; apply elem_of_app; [left; by apply Hk|right; by apply list_elem_of_singleton].
  - rewrite fmap_app. apply NoDup_app. split; [done|]. split; [|apply NoDup_singleton].
    intros k (p & -> & Hp)%list_elem_of_fmap Hk'%list_elem_of_singleton.
    rewrite Forall_forall in Hb. specialize (Hb p Hp). simpl in Hk'. lia.
  - apply Forall_app. split; [|repeat constructor; simpl; lia].
    eapply Forall_impl; [exact Hb|]. simpl. lia.
  - eapply Forall_impl; [exact He|]. intros e ?. apply elem_of_app. by left.
Qed.

Lemma pop_front_while_Forall {A} (P : A -> Prop) old q :
  Forall P q -> Forall P (snd (pop_front_while old q)).
Proof.
  intros H. rewrite <- (pop_front_while_app old q) in H. by apply Forall_app in H as [_ H].
Qed.

Lemma channel_inv_echo q m next echoed sent p at_ms old :
  channel_inv q m next echoed sent -> m !! sp_seq p = Some p ->
  channel_inv q m next
    (snd (pop_front_while old (echoed ++ [mkEchoedProbe (sp_seq p) (sp_sent_at_ms p) at_ms]))) sent.
Proof.
  intros [Hn Hi Hk Hnd Hb He] Hp. split; try done. apply pop_front_while_Forall, Forall_app.
  split; [done|]. constructor; [|constructor]. simpl. apply Hk.
  apply (idx_lookup _ _ _ Hi) in Hp as [Hp _]. by destruct p.
Qed.

Lemma channel_inv_lookup q m next echoed sent k p :
  channel_inv q m next echoed sent -> m !! k = Some p -> sp_seq p = k.
Proof. intros [_ Hi _ _ _ _] H. by apply (idx_lookup _ _ _ Hi) in H as [_ ?]. Qed.

Lemma channel_inv_clear q m next echoed sent :
  channel_inv q m next echoed sent -> channel_inv [] ∅ next [] sent.
Proof.
  intros [Hn Hi Hk Hnd Hb He]. split; try done; [apply index_ok_empty|].
  by intros p ?%not_elem_of_nil.
Qed.

Lemma session_labels_silent ls l :
  (forall p, l <> LSentProbe p) -> (forall p, l <> LSentTestProbe p) ->
  sent_probes (ls ++ [l]) = sent_probes ls /\ sent_testprobes (ls ++ [l]) = sent_testprobes ls.
Proof.
  intros H1 H2. unfold sent_probes, sent_testprobes. rewrite !omap_app.
  destruct l as [p|p| |]; [by destruct (H1 p)|by destruct (H2 p)|..]; simpl; by rewrite !app_nil_r.
Qed.

Lemma session_inv_silent ls l st :
  (forall p, l <> LSentProbe p) -> (forall p, l <> LSentTestProbe p) ->
  session_inv ls st -> session_inv (ls ++ [l]) st.
Proof.
  intros H1 H2. unfold session_inv. by destruct (session_labels_silent ls l H1 H2) as [-> ->].
Qed.

Lemma delay_of_finite p d : delay_of p = Ret d -> is_finite d = true.
Proof.
  intros H. destruct (decide (delay_in_range p)) as [Hr|Hr].
  - rewrite delay_of_Ret in H by done. injection H as <-. by apply delay_ms_finite.
  - by rewrite delay_of_panics in H.
Qed.

(** Sections that touch no sent probe, echo or baseline. *)
Lemma session_inv_frame ls st st' :
  session_inv ls st ->
  ms_sent_probes st' = ms_sent_probes st -> ms_sent_probes_map st' = ms_sent_probes_map st ->
  ms_probe_seq st' = ms_probe_seq st -> ms_echoed_probes st' = ms_echoed_probes st ->
  ms_sent_testprobes st' = ms_sent_testprobes st ->
  ms_sent_testprobes_map st' = ms_sent_testprobes_map st ->
  ms_testprobe_seq st' = ms_testprobe_seq st -> ms_echoed_testprobes st' = ms_echoed_testprobes st ->
  baseline_ok st' -> session_inv ls st'.
Proof.
  intros (H1 & H2 & _) E1 E2 E3 E4 E5 E6 E7 E8 Hb. unfold session_inv.
  by rewrite E1, E2, E3, E4, E5, E6, E7, E8.
Qed.

Lemma clear_measurements_inv ls st : session_inv ls st -> session_inv ls (clear_measurements st).
Proof. intros (H1 & H2 & H3). split; [by eapply channel_inv_clear|done]. Qed.

Lemma record_probe_packet_inv ls now probe st st' :
  session_inv ls st -> record_probe_packet now probe st = Ret st' -> session_inv ls st'.
Proof.
  intros Hinv H. unfold record_probe_packet in H. destruct Hinv as (H1 & H2 & H3).
  destruct (decide _); [|invert_ret; by split].
  destruct (ms_sent_probes_map st !! probe_seq probe) as [p|] eqn:E; [|by simplify_eq].
  invert_ret. pose proof (channel_inv_lookup _ _ _ _ _ _ _ H1 E) as Hseq.
  rewrite <- Hseq in *. split; [|done]. by eapply channel_inv_echo.
Qed.

Lemma record_testprobe_echo_inv ls now probe st st' :
  session_inv ls st -> record_testprobe_echo now probe st = Ret st' -> session_inv ls st'.
Proof.
  intros Hinv H. unfold record_testprobe_echo in H. destruct Hinv as (H1 & H2 & H3).
  destruct (decide _); [|by simplify_eq].
  destruct (test_send_options probe ≫= ttl) as [t|].
  { simplify_eq. by destruct (ms_path_ttl st). }
  destruct (ms_sent_testprobes_map st !! test_seq probe) as [p|] eqn:E; [|by simplify_eq].
  invert_ret. pose proof (channel_inv_lookup _ _ _ _ _ _ _ H2 E) as Hseq.
  rewrite <- Hseq in *. split; [done|]. split; [|done]. by eapply channel_inv_echo.
Qed.

Lemma update_baseline_frame delay st st' :
  update_baseline delay st = Ret st' ->
  st' = st {{ ms_baseline_delay_sum := ms_baseline_delay_sum st';
              ms_baseline_delay_count := ms_baseline_delay_count st' }}.
Proof.
  intros H. unfold update_baseline in H.
  destruct (in_baseline delay st); [invert_ret|injection H as <-]; by destruct st.
Qed.

Lemma record_measurement_probe_inv ls now delay probe st st' :
  is_finite delay = true -> session_inv ls st ->
  record_measurement_probe now delay probe st = Ret st' -> session_inv ls st'.
Proof.
  intros Hd Hinv H. unfold record_measurement_probe in H.
  destruct (ms_probe_streams_active st); cbn [negb] in H; [|by simplify_eq].
  set (st1 := st {{ ms_received_measurement_probes ::= _ }}) in H. invert_ret.
  match goal with H : update_baseline _ _ = Ret ?s |- _ => rename H into Hu; rename s into st2 end.
  assert (baseline_ok st2) as Hb by (eapply update_baseline_ok; [exact Hd| |exact Hu]; apply Hinv).
  apply update_baseline_frame in Hu. subst st1.
  apply (session_inv_frame ls st); [done|..]; try exact Hb; rewrite Hu; by destruct st.
Qed.

Lemma next_measurement_probe_inv ls now r st st' :
  session_inv ls st -> next_measurement_probe now st = Ret (r, st') -> session_inv ls st'.
Proof.
  intros Hinv H. unfold next_measurement_probe in H.
  destruct (negb _); [by simplify_eq|]. destruct (measuring_time_exceeded now st); invert_ret; simplify_eq;
    (apply (session_inv_frame ls st); [done|done..|apply Hinv]).
Qed.

Lemma session_step_inv ls st l st' :
  session_inv ls st -> session_step st l st' -> session_inv (ls ++ [l]) st'.
Proof.
  intros Hinv Hstep. pose proof Hinv as (H1 & H2 & H3).
  destruct Hstep as [now seq st st' H|now seq st st' H|bytes now st st' H|now p st st' H
    |now b st st' H|now p st st' H|now d p st st' Hd H|now r st st' H|st|st|now d st|st|stats st|st];
    try (apply session_inv_silent; [done..|]).
  - unfold record_sent_probe in H. invert_ret. simplify_eq.
    match goal with H : push_sent _ _ _ = Ret ?qm |- _ => destruct qm as [q' m'] end.
    match goal with H : checked_u 64 _ = Ret _ |- _ => apply checked_u_inv in H as [-> _] end.
    unfold session_inv, sent_probes, sent_testprobes. rewrite !omap_app. simpl. rewrite app_nil_r.
    split; [|done]. by eapply channel_inv_push.
  - unfold record_sent_testprobe in H. invert_ret. simplify_eq.
    match goal with H : push_sent _ _ _ = Ret ?qm |- _ => destruct qm as [q' m'] end.
    match goal with H : checked_u 64 _ = Ret _ |- _ => apply checked_u_inv in H as [-> _] end.
    unfold session_inv, sent_probes, sent_testprobes. rewrite !omap_app. simpl. rewrite app_nil_r.
    split; [done|]. split; [|done]. by eapply channel_inv_push.
  - unfold record_sent_bulk in H. by invert_ret.
  - by eapply record_probe_packet_inv.
  - unfold record_bulk_packet in H. by invert_ret.
  - by eapply record_testprobe_echo_inv.
  - eapply record_measurement_probe_inv; [|done|exact H]. by eapply delay_of_finite.
  - by eapply next_measurement_probe_inv.
  - by apply (clear_measurements_inv ls (st {{ ms_traffic_active := true }})).
  - done.
  - split; [done|]. split; [done|]. split; [done|]. change (is_u 64 0). unfold is_u. lia.
  - done.
  - done.
  - by apply (clear_measurements_inv ls (st {{ ms_stop_traceroute := true }})).
Qed.

Lemma session_run_inv ls st : session_run ls st -> session_inv ls st.
Proof.
  induction 1 as [|ls st l st' _ IH Hstep]; [|by eapply session_step_inv].
  assert (channel_inv [] ∅ 0 [] []) as Hc.
  { split; [lia|apply index_ok_empty|by intros p ?%not_elem_of_nil|constructor..]. }
  split; [exact Hc|]. split; [exact Hc|]. split; [done|]. change (is_u 64 0). unfold is_u. lia.
Qed.

(** ** Properties *)

(** C22: In every interleaving of the tasks of a session, the index the echoes are
    looked up in holds exactly the probes of the queue, no number is ever used
    for two probes, and every echo on record is that of the one probe sent
    under its number, with that probe's sending time; likewise for the test
    probes of the traceroute rounds. *)
Theorem echoes_match_sent_probes ls st : session_run ls st ->
  (forall k p, ms_sent_probes_map st !! k = Some p <-> p ∈ ms_sent_probes st /\ sp_seq p = k)
  /\ (forall k p, ms_sent_testprobes_map st !! k = Some p
                 <-> p ∈ ms_sent_testprobes st /\ sp_seq p = k)
  /\ NoDup (sp_seq <$> sent_probes ls) /\ NoDup (sp_seq <$> sent_testprobes ls)
  /\ Forall (fun e => mkSentProbe (ep_seq e) (ep_sent_at_ms e) ∈ sent_probes ls) (ms_echoed_probes st)
  /\ Forall (fun e => mkSentProbe (ep_seq e) (ep_sent_at_ms e) ∈ sent_testprobes ls)
       (ms_echoed_testprobes st).
Proof.
  intros (H1 & H2 & _)%session_run_inv. destruct H1 as [_ I1 _ N1 _ E1], H2 as [_ I2 _ N2 _ E2].
  split; [apply I1|]. split; [apply I2|]. done.
Qed.

Definition echo_of (seq at_ms : Z) : ProbePacket := mkProbePacket seq at_ms ServerToClient None "c".

Lemma echoes_match_sent_probes_witness :
  exists st, session_run [LSentProbe (mkSentProbe 0 100000); LSilent] st
    /\ ms_echoed_probes st = [mkEchoedProbe 0 100000 100030]
    /\ Forall (fun e => mkSentProbe (ep_seq e) (ep_sent_at_ms e) ∈ [mkSentProbe 0 100000])
         (ms_echoed_probes st).
Proof.
  destruct (record_sent_probe 100000 MeasurementState_new) as [[seq st1]| |] eqn:H1; try done.
  destruct (record_probe_packet 100050 (echo_of 0 100030) st1) as [st2| |] eqn:H2;
    [|vm_compute in H1; injection H1 as <- <-; vm_compute in H2; discriminate..].
  assert (seq = 0) as -> by (vm_compute in H1; by injection H1).
  assert (session_run [LSentProbe (mkSentProbe 0 100000); LSilent] st2) as Hrun.
  { apply (session_run_snoc [LSentProbe (mkSentProbe 0 100000)] st1); [|by eapply step_probe_packet].
    apply (session_run_snoc [] MeasurementState_new); [constructor|]. by apply step_sent_probe. }
  exists st2. split; [exact Hrun|]. split.
  - vm_compute in H1. injection H1 as <-. vm_compute in H2. by injection H2 as <-.
  - destruct (echoes_match_sent_probes _ st2 Hrun) as (_ & _ & _ & _ & He & _). exact He.
Defined.

(** The statistics of the probe streams are well-formed in every reachable
    state of a session: as long as the delays, the span of numbers and the count
    of the last second fit their widths, they are calculated without a panic and
    their percentiles are in order, least, 50th, 99th, greatest, for the delay
    deviations and for the jitter; they count exactly the probes of the last
    second. *)
Theorem probe_stats_ordered ls st now_ms :
  session_run ls st -> window_ok (recent_measurements now_ms st) ->
  exists stats, calculate_probe_stream_stats now_ms st = Ret stats
    /\ ordered_percentiles (delay_deviation_ms stats) /\ ordered_percentiles (jitter_ms stats)
    /\ probe_count stats = Z.of_nat (length (recent_measurements now_ms st)).
Proof.
  intros (_ & _ & Hb)%session_run_inv Hw. by apply probe_stream_stats_ordered.
Qed.

Definition stream_probe (seq at_ms : Z) : MeasurementProbePacket :=
  mkMeasurementProbePacket seq at_ms ClientToServer "c" ProbeFeedback_default.

(** Three probes with delays 10, 30 and 20, the last two swapped. *)
Definition stream_arrivals : list (Z * MeasurementProbePacket) :=
  [(100010, stream_probe 0 100000); (100040, stream_probe 2 100010); (100041, stream_probe 1 100021)].

Definition receive_stream (h : list (Z * MeasurementProbePacket)) (st : MeasurementState)
    : outcome MeasurementState :=
  for_each h (fun '(now, p) st =>
    delay ← delay_of (mkTimedProbe (mp_seq p) (mp_sent_at_ms p) now);
    record_measurement_probe now delay p st) st.

Lemma receive_stream_run h ls st st' : session_run ls st -> receive_stream h st = Ret st' ->
  exists ls', session_run ls' st'.
Proof.
  unfold receive_stream. revert ls st. induction h as [|[now p] h IH]; intros ls st Hrun H; cbn [for_each] in H.
  - injection H as <-. eauto.
  - invert_ret. eapply IH; [|eassumption]. eapply session_run_snoc; [exact Hrun|].
    by eapply step_measurement_probe.
Qed.

