(* ===== verification/Clients.v ===== *)
(** * The table of client sessions (server/src/cleanup.rs, server/src/main.rs)

    Removing a session with all its descendants on request, and removing one
    whose peer has become unreachable.  The table is behind a
    [tokio::sync::RwLock]; what is used of it is its documented behaviour: a
    write guard is granted when no guard is outstanding, a read guard when no
    write guard is, and a guard is outstanding until its owner drops it. *)

From stdpp Require Import base list gmap strings.
From Stdlib Require Import ZArith Lia.
From S2P Require Import Prelude Net IpParse F64 Protocol TrackingChannel Tracker State.
Local Open Scope Z_scope.

Abbreviation clients_map := (gmap string ClientSession) (only parsing).

(** ** Descendants (server/src/cleanup.rs)

    One pass of the loop over the table, in its order of iteration. *)

Definition mark_one (r : bool * gset string) (entry : string * ClientSession) : bool * gset string :=
  let '(changed, to_remove) := r in
  let '(id, session) := entry in
  match cs_parent_id session with
  | Some parent_id =>
      if decide (parent_id ∈ to_remove /\ id ∉ to_remove)
      then (true, {[id]} ∪ to_remove) else (changed, to_remove)
  | None => (changed, to_remove)
  end.

Definition mark_pass (order : list (string * ClientSession)) (to_remove : gset string)
    : bool * gset string :=
  foldl mark_one (false, to_remove) order.

(** [while changed { .. }] *)
Fixpoint mark_loop (fuel : nat) (order : list (string * ClientSession)) (to_remove : gset string)
    : outcome (gset string) :=
  match fuel with
  | O => OutOfFuel
  | S fuel =>
      let '(changed, to_remove) := mark_pass order to_remove in
      if changed : bool then mark_loop fuel order to_remove else Ret to_remove
  end.

Definition descendants_of (order : list (string * ClientSession)) (client_id : string)
    : outcome (gset string) :=
  mark_loop (S (length order)) order {[client_id]}.

(** The second half of the handler: the sessions removed and what is left. *)
Definition remove_clients (to_remove : gset string) (clients : clients_map) : clients_map :=
  foldl (fun clients id => delete id clients) clients (elements to_remove).

(** ** The handler and the lock *)

Inductive guard_mode := GRead | GWrite.

#[export] Instance guard_mode_eq_dec : EqDecision guard_mode.
Proof. solve_decision. Defined.

(** Outstanding guards with their tasks. *)
Abbreviation guards := (list (nat * guard_mode)) (only parsing).

(** Where [cleanup_client_handler] is: its first guard is dropped on the early
    return and otherwise, shadowed by the second, only at the end. *)
Inductive cleanup_phase :=
  | Entered
  | Reading
  | AwaitingWrite (to_remove : gset string)
  | ReturnedNotFound
  | ReturnedRemoved (removed : list string).

Section handler.
  Context (me : nat) (client_id : string).

(** A step of the handler or of another task, which may take and drop guards of
    its own and change the table while it holds the write guard. *)
Inductive cleanup_step
    : guards * clients_map * cleanup_phase -> guards * clients_map * cleanup_phase -> Prop :=
  | cleanup_read gs clients :
      (forall t, (t, GWrite) ∉ gs) ->
      cleanup_step (gs, clients, Entered) ((me, GRead) :: gs, clients, Reading)
  | cleanup_not_found gs gs' (clients : clients_map) :
      clients !! client_id = None -> gs ≡ₚ (me, GRead) :: gs' ->
      cleanup_step (gs, clients, Reading) (gs', clients, ReturnedNotFound)
  | cleanup_mark gs (clients : clients_map) order to_remove :
      is_some (clients !! client_id) = true -> order ≡ₚ map_to_list clients ->
      descendants_of order client_id = Ret to_remove ->
      cleanup_step (gs, clients, Reading) (gs, clients, AwaitingWrite to_remove)
  | cleanup_remove clients to_remove :
      cleanup_step ([], clients, AwaitingWrite to_remove)
        ([], remove_clients to_remove clients, ReturnedRemoved (elements to_remove))
  | other_read t gs clients p :
      t <> me -> (forall t, (t, GWrite) ∉ gs) ->
      cleanup_step (gs, clients, p) ((t, GRead) :: gs, clients, p)
  | other_write t clients p : t <> me -> cleanup_step ([], clients, p) ([(t, GWrite)], clients, p)
  | other_change t gs clients clients' p :
      t <> me -> (t, GWrite) ∈ gs -> cleanup_step (gs, clients, p) (gs, clients', p)
  | other_drop t mode gs gs' clients p :
      t <> me -> gs ≡ₚ (t, mode) :: gs' -> cleanup_step (gs, clients, p) (gs', clients, p).

Inductive cleanup_steps
    : guards * clients_map * cleanup_phase -> guards * clients_map * cleanup_phase -> Prop :=
  | cleanup_steps_refl x : cleanup_steps x x
  | cleanup_steps_snoc x y z : cleanup_steps x y -> cleanup_step y z -> cleanup_steps x z.

End handler.

(** ** Unmatched ICMP errors (server/src/main.rs)

    The session whose peer address is the destination of the packet the error
    quotes, in the order of iteration of the table. *)

Definition peer_matches (dest_addr : SocketAddr) (session : ClientSession) : bool :=
  match cs_peer_address session with
  | Some (addr_str, port) =>
      match parse_ip addr_str with
      | Some peer_ip => bool_decide (mkSocketAddr peer_ip port = dest_addr)
      | None => false
      end
  | None => false
  end.

Definition target_session (dest_addr : SocketAddr) (order : list (string * ClientSession))
    : option (string * ClientSession) :=
  List.find (fun p => peer_matches dest_addr p.2) order.

Definition count_icmp_error (now : Instant) (session : ClientSession) : outcome ClientSession :=
  count ←
    match cs_last_icmp_error session with
    | Some last_time =>
        if Z.max 0 (now - last_time) <? from_secs 1
        then checked_u 32 (cs_icmp_error_count session + 1) else Ret 1
    | None => Ret 1
    end;
  Ret (session {{ cs_icmp_error_count := count; cs_last_icmp_error := Some now }}).

(** The callback; the connections it closes come back with the table. *)
Definition icmp_error_handler (embedded : EmbeddedUdpInfo) (now : Instant)
    (order : list (string * ClientSession)) (clients : clients_map)
    : outcome (clients_map * list handle) :=
  match target_session (emb_dest_addr embedded) order with
  | Some (session_id, session) =>
      session ← count_icmp_error now session;
      if 5 <=? cs_icmp_error_count session
      then Ret (delete session_id clients, [cs_peer_connection session])
      else Ret (<[session_id := session]> clients, [])
  | None => Ret (clients, [])
  end.

(** ** The set of descendants *)

Inductive descendant (clients : clients_map) (root : string) : string -> Prop :=
  | descendant_root : descendant clients root root
  | descendant_child id session parent :
      clients !! id = Some session -> cs_parent_id session = Some parent ->
      descendant clients root parent -> descendant clients root id.

(** Whatever the marked set satisfies and children inherit holds after a pass. *)
Lemma mark_pass_sound order S (P : string -> Prop) :
  (forall x, x ∈ S -> P x) ->
  (forall id s p, (id, s) ∈ order -> cs_parent_id s = Some p -> P p -> P id) ->
  forall x, x ∈ (mark_pass order S).2 -> P x.
Proof.
  intros HS Hclosed. unfold mark_pass. induction order as [|[id s] order IH] using rev_ind; [done|].
  rewrite foldl_app. cbn [foldl]. unfold mark_one at 1.
  assert (forall x, x ∈ (foldl mark_one (false, S) order).2 -> P x) as IH'.
  { apply IH. intros id' s' p Hin. apply Hclosed, elem_of_app. by left. }
  destruct (foldl _ (false, S) order) as [b S']. simpl in IH'.
  destruct (cs_parent_id s) as [p|] eqn:Hp; [|done].
  case_decide as Hd; [|done]. simpl. intros x [->%elem_of_singleton|Hx]%elem_of_union; [|by apply IH'].
  eapply Hclosed; [|exact Hp|apply IH', Hd]. apply elem_of_app. right. by apply list_elem_of_singleton.
Qed.

(** A pass only adds; one that changes nothing finds the set closed, another adds
    a session of the table. *)
Lemma mark_pass_spec order S :
  let '(changed, S') := mark_pass order S in
  S ⊆ S'
  /\ (changed = false -> S' = S
      /\ forall id s p, (id, s) ∈ order -> cs_parent_id s = Some p -> p ∈ S -> id ∈ S)
  /\ (changed = true -> exists id, id ∈ order.*1 /\ id ∈ S' /\ id ∉ S).
Proof.
  unfold mark_pass. induction order as [|[id s] order IH] using rev_ind.
  { cbn. split; [done|]. split; [|done]. intros _. split; [done|]. by intros ? ? ? ?%not_elem_of_nil. }
  rewrite foldl_app. cbn [foldl]. unfold mark_one at 1. destruct (foldl _ (false, S) order) as [b S'].
  destruct IH as (Hsub & Hfalse & Htrue). rewrite fmap_app.
  destruct (cs_parent_id s) as [p|] eqn:Hp; [case_decide as Hd|].
  - split; [set_solver|]. split; [done|]. intros _. exists id. split; [|set_solver].
    apply elem_of_app. right. by apply list_elem_of_singleton.
  - split; [done|]. split.
    + intros Hb. destruct (Hfalse Hb) as [-> Hcl]. split; [done|].
      intros id' s' p' [Hin|[= -> ->]%list_elem_of_singleton]%elem_of_app Hp' Hin'; [by eapply Hcl|].
      simplify_eq. destruct (decide (id ∈ S)); [done|]. by destruct Hd.
    + intros (id' & Hin & H')%Htrue. exists id'. split; [|done]. apply elem_of_app. by left.
  - split; [done|]. split.
    + intros Hb. destruct (Hfalse Hb) as [-> Hcl]. split; [done|].
      intros id' s' p' [Hin|[= -> ->]%list_elem_of_singleton]%elem_of_app Hp' Hin'; [by eapply Hcl|].
      by simplify_eq.
    + intros (id' & Hin & H')%Htrue. exists id'. split; [|done]. apply elem_of_app. by left.
Qed.

Definition unmarked (order : list (string * ClientSession)) (S : gset string) : gset string :=
  list_to_set order.*1 ∖ S.

Lemma mark_loop_returns fuel order S :
  (size (unmarked order S) < fuel)%nat -> exists S', mark_loop fuel order S = Ret S'.
Proof.
  revert S. induction fuel as [|fuel IH]; intros S Hf; [lia|]. cbn [mark_loop].
  pose proof (mark_pass_spec order S) as Hspec. destruct (mark_pass order S) as [[] S']; [|eauto].
  destruct Hspec as (Hsub & _ & Hnew). destruct (Hnew eq_refl) as (id & Hid & Hin & Hnot).
  apply IH. apply Nat.lt_le_trans with (size (unmarked order S)); [|lia].
  apply subset_size. unfold unmarked.
  assert (id ∈ (list_to_set order.*1 : gset string)) by by apply elem_of_list_to_set.
  split; set_solver.
Qed.

Lemma mark_loop_sound fuel order S S' (P : string -> Prop) :
  mark_loop fuel order S = Ret S' -> (forall x, x ∈ S -> P x) ->
  (forall id s p, (id, s) ∈ order -> cs_parent_id s = Some p -> P p -> P id) ->
  forall x, x ∈ S' -> P x.
Proof.
  revert S. induction fuel as [|fuel IH]; intros S H HS Hcl; [done|]. cbn [mark_loop] in H.
  pose proof (mark_pass_sound order S P HS Hcl) as Hs.
  destruct (mark_pass order S) as [[] S1]; [by eapply IH|]. by simplify_eq.
Qed.

Lemma mark_loop_closed fuel order S S' :
  mark_loop fuel order S = Ret S' ->
  S ⊆ S' /\ forall id s p, (id, s) ∈ order -> cs_parent_id s = Some p -> p ∈ S' -> id ∈ S'.
Proof.
  revert S. induction fuel as [|fuel IH]; intros S H; [done|]. cbn [mark_loop] in H.
  pose proof (mark_pass_spec order S) as Hspec. destruct (mark_pass order S) as [[] S1].
  - destruct Hspec as (Hsub & _). destruct (IH S1 H) as [H1 H2]. split; [set_solver|done].
  - destruct Hspec as (Hsub & Hf & _). destruct (Hf eq_refl) as [-> Hcl]. by simplify_eq.
Qed.

(** The handler's loop terminates, in whatever order the table is iterated,
    and marks for removal exactly the client and its descendants: the sessions
    that reach it over parent links. *)
Theorem descendants_of_correct clients order client_id :
  order ≡ₚ map_to_list clients ->
  exists S, descendants_of order client_id = Ret S
    /\ forall id, id ∈ S <-> descendant clients client_id id.
Proof.
  intros Hperm. unfold descendants_of.
  destruct (mark_loop_returns (Datatypes.S (length order)) order {[client_id]}) as [S HS].
  { apply Nat.lt_succ_r. unfold unmarked. rewrite <- (length_fmap fst order).
    rewrite <- (size_list_to_set (C := gset string) order.*1).
    - apply subseteq_size. set_solver.
    - rewrite Hperm. apply NoDup_fst_map_to_list. }
  exists S. split; [done|]. intros id.
  assert (forall id s, (id, s) ∈ order <-> clients !! id = Some s) as Hin.
  { intros id' s. rewrite Hperm. apply elem_of_map_to_list. }
  split.
  - eapply (mark_loop_sound _ _ _ _ (descendant clients client_id)); [exact HS|..].
    + intros x ->%elem_of_singleton. constructor.
    + intros id' s p Hi%Hin Hp Hd. by eapply descendant_child.
  - destruct (mark_loop_closed _ _ _ _ HS) as [Hsub Hcl].
    induction 1 as [|id s p Hl Hp _ IH]; [set_solver|]. eapply Hcl; [by apply Hin|done|done].
Qed.

Definition member (parent : option string) : ClientSession :=
  mkClientSession "s" parent None None "c" "survey" 0%nat DataChannels_new ClientMetrics_default
    MeasurementState_new 0 [] (Some ("192.0.2.7"%string, 5000)) 0 None None None.

Definition family : clients_map :=
  list_to_map [("grandchild", member (Some "child")); ("child", member (Some "root"));
               ("root", member None); ("stranger", member (Some "gone"))]%string.

(** ** The handler waits for itself *)

(** While the handler waits for the write guard, and from when it has read the
    table, its read guard is outstanding. *)
Definition holds_read (me : nat) (x : guards * clients_map * cleanup_phase) : Prop :=
  match x.2 with
  | Reading | AwaitingWrite _ => (me, GRead) ∈ x.1.1 /\ forall t, (t, GWrite) ∉ x.1.1
  | Entered | ReturnedNotFound => True
  | ReturnedRemoved _ => False
  end.

Lemma cleanup_step_holds me client_id x y :
  cleanup_step me client_id x y -> holds_read me x -> holds_read me y.
Proof.
  intros H Hx. destruct H as [gs cl Hw|gs gs' cl Hn Hp|gs cl order S Hs Ho Hd|cl S|t gs cl p Ht Hw
    |t cl p Ht|t gs cl cl' p Ht Hin|t mode gs gs' cl p Ht Hp]; unfold holds_read in *; simpl in *; try done.
  - split; [by constructor|]. intros t [[= ]|Hin]%elem_of_cons. by apply (Hw t).
  - by destruct Hx as [?%not_elem_of_nil _].
  - destruct p; try done; destruct Hx as [H1 H2]; (split; [by right|]);
      intros t' [[= ]|Hin]%elem_of_cons; by apply (H2 t').
  - destruct p; try done; by destruct Hx as [?%not_elem_of_nil _].
  - assert ((me, GRead) ∈ gs -> (me, GRead) ∈ gs') as Hkeep.
    { rewrite Hp. intros [[= ]|?]%elem_of_cons; [by subst|done]. }
    assert ((forall t, (t, GWrite) ∉ gs) -> forall t, (t, GWrite) ∉ gs') as Hnw.
    { intros Hnw t' Hin. apply (Hnw t'). rewrite Hp. by right. }
    destruct p; try done; destruct Hx as [H1 H2]; split; auto.
Qed.

Lemma cleanup_steps_holds me client_id x y :
  cleanup_steps me client_id x y -> holds_read me x -> holds_read me y.
Proof.
  induction 1 as [|x y z _ IH Hstep]; [done|]. intros Hx. eapply cleanup_step_holds; [done|by apply IH].
Qed.

(** While it waits, nobody changes the table and it goes on waiting. *)
Lemma cleanup_step_frozen me client_id gs clients S y :
  cleanup_step me client_id (gs, clients, AwaitingWrite S) y ->
  holds_read me (gs, clients, AwaitingWrite S) -> exists gs', y = (gs', clients, AwaitingWrite S).
Proof.
  intros H [Hin Hnw]. simpl in *. inversion H; subst; eauto.
  - by apply not_elem_of_nil in Hin.
  - match goal with H : (_, GWrite) ∈ gs |- _ => by apply Hnw in H end.
Qed.

Lemma cleanup_steps_frozen me client_id gs clients S y :
  cleanup_steps me client_id (gs, clients, AwaitingWrite S) y ->
  holds_read me (gs, clients, AwaitingWrite S) -> exists gs', y = (gs', clients, AwaitingWrite S).
Proof.
  intros H. remember (gs, clients, AwaitingWrite S) as x eqn:Hx. revert Hx.
  induction H as [x|x y z Hsteps IH Hstep]; intros -> Hh; [eauto|].
  destruct (IH eq_refl Hh) as [gs' ->]. eapply cleanup_step_frozen; [exact Hstep|].
  by eapply cleanup_steps_holds.
Qed.

(** C35: The clean-up request deadlocks on itself: it asks for the write guard of
    the table while it still holds its read guard.  In no run does it remove a
    client, and once it has found the client to remove the table stays as it is
    for ever, whatever the other tasks do. *)
Theorem cleanup_waits_for_itself me client_id gs clients x :
  cleanup_steps me client_id (gs, clients, Entered) x ->
  (forall removed, x.2 <> ReturnedRemoved removed)
  /\ (forall S y, x.2 = AwaitingWrite S -> cleanup_steps me client_id x y ->
        y.1.2 = x.1.2 /\ y.2 = AwaitingWrite S).
Proof.
  intros H. assert (holds_read me x) as Hx by by eapply cleanup_steps_holds.
  destruct x as [[gs' cl'] p]. simpl. split.
  - intros removed ->. done.
  - intros S y -> Hy. by destruct (cleanup_steps_frozen me client_id gs' cl' S y Hy Hx) as [gs'' ->].
Qed.

Lemma cleanup_waits_for_itself_witness :
  exists S, cleanup_steps 0 "root" ([], family, Entered) ([(0%nat, GRead)], family, AwaitingWrite S)
    /\ forall y, cleanup_steps 0 "root" ([(0%nat, GRead)], family, AwaitingWrite S) y ->
         y.1.2 = family /\ y.2 = AwaitingWrite S.
Proof.
  destruct (descendants_of (map_to_list family) "root") as [S| |] eqn:E; [|vm_compute in E; discriminate..].
  assert (cleanup_steps 0 "root" ([], family, Entered) ([(0%nat, GRead)], family, AwaitingWrite S)) as H.
  { eapply cleanup_steps_snoc; [eapply cleanup_steps_snoc; [constructor|]|].
    - apply cleanup_read. by intros t ?%not_elem_of_nil.
    - apply (cleanup_mark _ _ _ _ (map_to_list family)); [reflexivity|reflexivity|exact E]. }
  exists S. split; [exact H|]. intros y.
  by apply (cleanup_waits_for_itself 0 "root" [] family _ H).
Defined.

(** ** Bursts of ICMP errors *)

(** Consecutive times less than a second apart. *)
Fixpoint chain (ts : list Instant) : Prop :=
  match ts with
  | a :: ((b :: _) as ts') => b - a < from_secs 1 /\ chain ts'
  | _ => True
  end.

(** Five consecutive errors, each less than a second after the one before. *)
Definition burst (ts : list Instant) : Prop :=
  exists before five after, ts = before ++ five ++ after /\ length five = 5%nat /\ chain five.

(** The last errors less than a second apart, as many as there are. *)
Definition last_run (ts run : list Instant) : Prop :=
  run <> [] /\ chain run
  /\ exists before, ts = before ++ run
     /\ (before = [] \/ exists before' x y run', before = before' ++ [x] /\ run = y :: run'
                          /\ ~ (y - x < from_secs 1)).

Lemma chain_app_inv l k : chain (l ++ k) -> chain l /\ chain k.
Proof.
  induction l as [|a l IH]; [done|]. destruct l as [|b l]; simpl in *.
  - destruct k; simpl; tauto.
  - intros [H1 H2]. apply IH in H2 as [H2 H3]. done.
Qed.

Lemma chain_snoc l a t : chain (l ++ [a]) -> t - a < from_secs 1 -> chain (l ++ [a] ++ [t]).
Proof.
  induction l as [|b l IH]; simpl; [done|]. destruct l as [|c l]; simpl in *; [tauto|].
  intros [H1 H2] Ht. split; [done|]. by apply IH.
Qed.

Lemma chain_last l a t : chain (l ++ [a; t]) -> t - a < from_secs 1.
Proof. intros H. apply chain_app_inv in H as [_ H]. apply H. Qed.

Lemma app_eq_suffix {A} (l1 l2 k1 k2 : list A) :
  l1 ++ l2 = k1 ++ k2 -> (length l2 <= length k2)%nat -> exists m, k2 = m ++ l2 /\ l1 = k1 ++ m.
Proof.
  intros Heq Hlen. assert (length l1 + length l2 = length k1 + length k2)%nat as Hl.
  { rewrite <- !length_app. by rewrite Heq. }
  exists (drop (length k1) l1). split.
  - apply (f_equal (drop (length k1))) in Heq. rewrite drop_app_length in Heq.
    rewrite drop_app_le in Heq by lia. done.
  - apply (f_equal (take (length k1))) in Heq. rewrite take_app_length in Heq.
    rewrite take_app_le in Heq by lia. rewrite <- Heq at 1. by rewrite take_drop.
Qed.

(** A chain at the end is no longer than the last run. *)
Lemma last_run_longest ts run l : last_run ts run -> (exists b, ts = b ++ l) -> chain l ->
  (length l <= length run)%nat.
Proof.
  intros (Hne & Hrun & before & -> & Hmax) [b Hb] Hl.
  destruct (decide (length l <= length run)%nat) as [|Hlt]; [done|].
  destruct (app_eq_suffix before run b l Hb ltac:(lia)) as (m & -> & ->).
  destruct Hmax as [Hnil|(before' & x & y & run' & Hx & -> & Hgap)].
  { apply app_eq_nil in Hnil as [-> ->]. simpl in Hlt. lia. }
  destruct m as [|z m _] using rev_ind; [simpl in Hlt; lia|].
  rewrite (assoc_L (++)) in Hx. apply app_inj_tail in Hx as [_ ->].
  rewrite <- (assoc_L (++)) in Hl. apply chain_app_inv in Hl as [_ [Hl _]]. done.
Qed.

Lemma last_run_snoc_near ts run a t :
  last_run ts (run ++ [a]) -> t - a < from_secs 1 -> last_run (ts ++ [t]) ((run ++ [a]) ++ [t]).
Proof.
  intros (Hne & Hrun & before & -> & Hmax) Ht. split; [by destruct run|]. split.
  - rewrite <- (assoc_L (++)). by apply chain_snoc.
  - exists before. split; [by rewrite <- !(assoc_L (++))|].
    destruct Hmax as [|(before' & x & y & run' & -> & Hy & Hgap)]; [by left|right].
    exists before', x, y, (run' ++ [t]). by rewrite Hy.
Qed.

Lemma last_run_snoc_far ts run a t :
  last_run ts (run ++ [a]) -> ~ (t - a < from_secs 1) -> last_run (ts ++ [t]) [t].
Proof.
  intros (Hne & Hrun & before & -> & Hmax) Ht. split; [done|]. split; [done|].
  exists (before ++ run ++ [a]). split; [done|]. right.
  exists (before ++ run), a, t, []. by rewrite (assoc_L (++)).
Qed.

(** An error brings a burst only as its end. *)
Lemma burst_snoc ts t : burst (ts ++ [t]) -> burst ts \/ exists b five,
  ts ++ [t] = b ++ five /\ length five = 5%nat /\ chain five.
Proof.
  intros (b & five & after & Heq & H5 & Hc). destruct after as [|x after _] using rev_ind.
  - right. exists b, five. by rewrite app_nil_r in Heq.
  - left. rewrite !(assoc_L (++)) in Heq. apply app_inj_tail in Heq as [-> _].
    exists b, five, after. by rewrite (assoc_L (++)).
Qed.

Lemma find_unique {A} (f : A -> bool) l x :
  x ∈ l -> f x = true -> (forall y, y ∈ l -> f y = true -> y = x) -> List.find f l = Some x.
Proof.
  intros Hin Hx Huniq. destruct (List.find f l) as [y|] eqn:E.
  - apply List.find_some in E as [Hy Hfy]. f_equal. apply Huniq; [by apply list_elem_of_In|done].
  - eapply List.find_none in E; [|by apply list_elem_of_In]. by rewrite Hx in E.
Qed.

Section errors.
  Context (embedded : EmbeddedUdpInfo) (iteration : clients_map -> list (string * ClientSession))
    (iteration_perm : forall clients, iteration clients ≡ₚ map_to_list clients).

(** Unmatched errors for one destination at the given times. *)
Definition icmp_errors (ts : list Instant) (clients : clients_map)
    : outcome (clients_map * list handle) :=
  for_each ts (fun t '(clients, closed) =>
    r ← icmp_error_handler embedded t (iteration clients) clients;
    Ret (r.1, closed ++ r.2)) (clients, []).

  Context (clients : clients_map) (id : string) (session : ClientSession)
    (Hsession : clients !! id = Some session)
    (Hpeer : peer_matches (emb_dest_addr embedded) session = true)
    (Hunique : forall id' s, clients !! id' = Some s ->
       peer_matches (emb_dest_addr embedded) s = true -> id' = id)
    (Hfresh : cs_last_icmp_error session = None).

(** The session as it was but for its error count. *)
Definition counted (s : ClientSession) : Prop :=
  cs_peer_address s = cs_peer_address session /\ cs_peer_connection s = cs_peer_connection session.

Lemma target_present s : counted s ->
  target_session (emb_dest_addr embedded) (iteration (<[id:=s]> clients)) = Some (id, s).
Proof.
  intros [Ha _]. apply find_unique.
  - rewrite iteration_perm. apply elem_of_map_to_list, lookup_insert_eq.
  - simpl. unfold peer_matches in *. by rewrite Ha.
  - intros [id' s'] Hin Hm. rewrite iteration_perm in Hin. apply elem_of_map_to_list in Hin.
    destruct (decide (id' = id)) as [->|Hne].
    + rewrite lookup_insert_eq in Hin. by simplify_eq.
    + rewrite lookup_insert_ne in Hin by done. destruct Hne. by eapply Hunique.
Qed.

Lemma target_gone :
  target_session (emb_dest_addr embedded) (iteration (delete id clients)) = None.
Proof.
  unfold target_session. destruct (List.find _ _) as [[id' s']|] eqn:E; [|done].
  apply List.find_some in E as [Hin Hm]. apply list_elem_of_In in Hin.
  rewrite iteration_perm in Hin. apply elem_of_map_to_list in Hin.
  destruct (decide (id' = id)) as [->|Hne]; [by rewrite lookup_delete_eq in Hin|].
  rewrite lookup_delete_ne in Hin by done. destruct Hne. by eapply Hunique.
Qed.

(** What the session remembers of the errors so far. *)
Definition remembers (ts : list Instant) (s : ClientSession) : Prop :=
  (ts = [] /\ cs_last_icmp_error s = None)
  \/ exists run a, last_run ts (run ++ [a]) /\ cs_last_icmp_error s = Some a
       /\ cs_icmp_error_count s = Z.of_nat (length (run ++ [a])) /\ (length (run ++ [a]) < 5)%nat.

Definition error_state (ts : list Instant) (x : clients_map * list handle) : Prop :=
  (burst ts /\ x = (delete id clients, [cs_peer_connection session]))
  \/ (~ burst ts /\ exists s, counted s /\ remembers ts s /\ x = (<[id:=s]> clients, [])).

(** The count becomes the length of the last run. *)
Lemma count_icmp_error_run ts t s : remembers ts s -> counted s ->
  exists s' run, count_icmp_error t s = Ret s' /\ counted s' /\ last_run (ts ++ [t]) (run ++ [t])
    /\ cs_last_icmp_error s' = Some t /\ cs_icmp_error_count s' = Z.of_nat (length (run ++ [t]))
    /\ (length (run ++ [t]) <= 5)%nat.
Proof.
  unfold count_icmp_error. intros [[-> Hl]|(run & a & Hrun & Hl & Hc & H5)] [Ha Hp]; rewrite Hl.
  - eexists _, []. split; [reflexivity|]. split; [done|]. split; [|simpl; repeat split; lia].
    split; [done|]. split; [done|]. exists []. split; [done|]. by left.
  - destruct (Z.ltb_spec (Z.max 0 (t - a)) (from_secs 1)) as [Hnear|Hfar].
    + rewrite length_app in Hc, H5. cbn in Hc, H5.
      rewrite checked_u_Ret by (unfold is_u; lia). cbn [mbind outcome_bind].
      eexists _, (run ++ [a]). split; [reflexivity|]. split; [done|].
      split; [apply last_run_snoc_near; [done|lia]|]. cbn. rewrite !length_app. cbn.
      unfold RecordSetters.constant. repeat split; lia.
    + eexists _, []. split; [reflexivity|]. split; [done|].
      split; [|simpl; repeat split; lia].
      eapply last_run_snoc_far; [exact Hrun|]. unfold from_secs in *. lia.
Qed.

Lemma error_state_step ts t x : error_state ts x ->
  exists x', (r ← icmp_error_handler embedded t (iteration x.1) x.1; Ret (r.1, x.2 ++ r.2)) = Ret x'
    /\ error_state (ts ++ [t]) x'.
Proof.
  intros [[Hb ->]|(Hb & s & Hs & Hr & ->)]; cbn [fst snd]; unfold icmp_error_handler.
  - rewrite target_gone. eexists. split; [reflexivity|]. left. split; [|done].
    destruct Hb as (b & five & after & -> & H5 & Hc). exists b, five, (after ++ [t]).
    by rewrite <- !(assoc_L (++)).
  - rewrite target_present by done.
    destruct (count_icmp_error_run ts t s Hr Hs) as (s' & run & -> & Hs' & Hrun & Hl & Hc & H5).
    cbn [mbind outcome_bind]. rewrite Hc.
    destruct (Z.leb_spec 5 (Z.of_nat (length (run ++ [t])))) as [Hge|Hlt].
    + eexists. split; [reflexivity|]. left. split.
      * destruct Hrun as (_ & Hch & before & Heq & _). exists before, (run ++ [t]), [].
        rewrite app_nil_r. repeat split; [done|lia|done].
      * cbn. rewrite delete_insert_eq. by destruct Hs' as [_ ->].
    + eexists. split; [reflexivity|]. right. split.
      * intros [?|(b & five & Heq & Hlen & Hch)]%burst_snoc; [done|].
        assert (length five <= length (run ++ [t]))%nat
          by (eapply last_run_longest; [exact Hrun|by exists b|done]).
        lia.
      * exists s'. split; [done|]. split; [|cbn; by rewrite insert_insert_eq].
        right. exists run, t. split; [done|]. split; [done|]. split; [done|lia].
Qed.

Lemma icmp_errors_state ts : exists x, icmp_errors ts clients = Ret x /\ error_state ts x.
Proof.
  unfold icmp_errors. induction ts as [|t ts IH] using rev_ind.
  - eexists. split; [reflexivity|]. right. split.
    + intros (b & five & after & Heq & H5 & _). symmetry in Heq.
      apply app_eq_nil in Heq as [_ [-> _]%app_eq_nil]. done.
    + exists session. split; [done|]. split; [by left|]. by rewrite insert_id.
  - destruct IH as ([cl closed] & Hrun & Hst). apply (error_state_step _ t) in Hst as (x' & Hx' & Hst').
    exists x'. split; [|done]. rewrite for_each_app, Hrun. cbn [mbind outcome_bind for_each].
    cbn [fst snd] in Hx'. by rewrite Hx'.
Qed.

(** A session is given up for unmatched ICMP errors exactly when five come in
    a row, each less than a second after the one before: then it is removed
    from the table and its connection closed once, and otherwise it stays;
    other sessions are not touched, in whatever order the table is iterated. *)
Theorem icmp_burst_closes_session ts :
  exists clients' closed, icmp_errors ts clients = Ret (clients', closed)
    /\ (clients' !! id = None <-> burst ts)
    /\ (burst ts -> closed = [cs_peer_connection session]) /\ (~ burst ts -> closed = [])
    /\ forall id', id' <> id -> clients' !! id' = clients !! id'.
Proof.
  destruct (icmp_errors_state ts) as ([cl closed] & Hrun & Hst). exists cl, closed. split; [done|].
  destruct Hst as [[Hb [= -> ->]]|(Hb & s & _ & _ & [= -> ->])].
  - rewrite lookup_delete_eq. repeat split; try done. intros id' Hne. by rewrite lookup_delete_ne.
  - rewrite lookup_insert_eq. repeat split; try done. intros id' Hne. by rewrite lookup_insert_ne.
Qed.

End errors.

Definition quoted : EmbeddedUdpInfo :=
  mkEmbeddedUdpInfo 4000 (mkSocketAddr (V4 [192; 0; 2; 7]) 5000) 30 [] 4660.

