(* ===== verification/Iperf3Session.v ===== *)
(** * iperf3 test sessions (iperf3-server/src/config.rs, error.rs, protocol.rs, session.rs)

    The protocol's data, a session's state and operations, the framing of control
    messages and the loops of the data streams.  A session operation runs in a
    state and error monad; the control connection is the bytes the client sends
    and the bytes written so far. *)

From stdpp Require Import base list strings.
From Stdlib Require Import ZArith Lia.
From S2P Require Import Prelude Utf8 Net F64 Protocol.
Local Open Scope Z_scope.

(** ** Configuration and errors *)

Record Iperf3Config := mkIperf3Config {
  i3_enabled : bool;
  i3_host : string;
  i3_port : Z;
  i3_max_sessions : nat;
  i3_max_duration_secs : Z;
  i3_require_auth : bool;
  i3_auth_timeout_secs : Z;
  i3_max_bandwidth : Z }.

Definition Iperf3Config_default : Iperf3Config :=
  mkIperf3Config false "0.0.0.0" 5201 10 3600 false 300 0.

Inductive Iperf3Error :=
  | Io
  | JsonError
  | ProtocolError (message : string)
  | Unauthorized (addr : IpAddr)
  | SessionLimitReached (max : nat)
  | InvalidParameter (message : string)
  | Timeout (secs : Z)
  | Shutdown.

(** ** Protocol states *)

Inductive State :=
  | ParamExchange | CreateStreams | TestStart | TestRunning | TestEnd | ExchangeResults
  | DisplayResults | IperfDone | ServerTerminate | AccessDenied | ServerError.

#[export] Instance State_eq_dec : EqDecision State.
Proof. solve_decision. Defined.

(** The [repr(i8)] discriminants. *)
Definition State_as_i8 (s : State) : Z :=
  match s with
  | ParamExchange => 9 | CreateStreams => 10 | TestStart => 1 | TestRunning => 2 | TestEnd => 4
  | ExchangeResults => 13 | DisplayResults => 14 | IperfDone => 16 | ServerTerminate => 15
  | AccessDenied => -1 | ServerError => -2
  end.

Definition to_byte (s : State) : Z := as_u 8 (State_as_i8 s).

Definition from_byte (b : Z) : option State :=
  let signed := as_i 8 b in
  match signed with
  | 9 => Some ParamExchange
  | 10 => Some CreateStreams
  | 1 => Some TestStart
  | 2 => Some TestRunning
  | 4 => Some TestEnd
  | 13 => Some ExchangeResults
  | 14 => Some DisplayResults
  | 16 => Some IperfDone
  | 15 => Some ServerTerminate
  | -1 => Some AccessDenied
  | -2 => Some ServerError
  | _ => None
  end.

(** ** Parameters and results *)

Record TestParameters := mkTestParameters {
  par_protocol : string; par_time : Z; par_parallel : Z; par_reverse : bool;
  par_bidirectional : bool; par_bandwidth : Z; par_blksize : Z; par_window : Z; par_mss : Z;
  par_nodelay : bool; par_bytes : Z; par_blockcount : Z; par_omit : Z;
  par_client_version : string; par_udp : bool; par_interval : f64 }.

Definition TestParameters_default : TestParameters :=
  mkTestParameters "TCP" 10 1 false false 0 (128 * 1024) 0 0 false 0 0 0 String.EmptyString false
    (f64_of_Z 1).

Record StreamResult := mkStreamResult {
  sr_id : Z; sr_bytes : Z; sr_seconds : f64; sr_bits_per_second : f64; sr_retransmits : option Z;
  sr_jitter_ms : option f64; sr_lost_packets : option Z; sr_packets : option Z;
  sr_lost_percent : option f64 }.

Record IntervalResult := mkIntervalResult { ir_streams : list StreamResult; ir_sum : StreamResult }.

Record ConnectedInfo := mkConnectedInfo {
  ci_socket : Z; ci_local_host : string; ci_local_port : Z; ci_remote_host : string;
  ci_remote_port : Z }.

Record TestStartInfo := mkTestStartInfo {
  tsi_protocol : string; tsi_num_streams : Z; tsi_blksize : Z; tsi_omit : Z; tsi_duration : Z;
  tsi_bytes : Z; tsi_blocks : Z; tsi_reverse : bool }.

Record StartInfo := mkStartInfo {
  si_connected : list ConnectedInfo; si_version : string; si_system_info : string;
  si_test_start : TestStartInfo }.

Record StreamEndResult := mkStreamEndResult { ser_sender : StreamResult; ser_receiver : StreamResult }.

Record CpuUtilization := mkCpuUtilization {
  cu_host_total : f64; cu_host_user : f64; cu_host_system : f64;
  cu_remote_total : f64; cu_remote_user : f64; cu_remote_system : f64 }.

Record EndInfo := mkEndInfo {
  ei_streams : list StreamEndResult; ei_sum_sent : option StreamResult;
  ei_sum_received : option StreamResult; ei_cpu_utilization_percent : option CpuUtilization }.

Record ServerResults := mkServerResults {
  sres_start : StartInfo; sres_intervals : list IntervalResult; sres_end : EndInfo }.

Record ExchangeStreamResult := mkExchangeStreamResult {
  ex_id : Z; ex_bytes : Z; ex_retransmits : Z; ex_jitter : f64; ex_errors : Z;
  ex_omitted_errors : Z; ex_packets : Z; ex_omitted_packets : Z; ex_start_time : f64;
  ex_end_time : f64 }.

Record ExchangeResultsData := mkExchangeResultsData {
  cpu_util_total : f64; cpu_util_user : f64; cpu_util_system : f64;
  sender_has_retransmits : Z; congestion_used : option string;
  ex_streams : list ExchangeStreamResult }.

Definition COOKIE_SIZE : nat := 37.
Definition MAX_MESSAGE_SIZE : Z := 1024 * 1024.
Definition BUFFER_SIZE : Z := 128 * 1024.
Definition DEFAULT_UDP_BLKSIZE : Z := 8 * 1024.
Definition DEFAULT_UDP_BANDWIDTH_BPS : Z := 1000000.

(** ** Sessions *)

(** The control connection: what the client has yet to send, what was written,
    and whether writes still succeed. *)
Record connection := mkConnection { cn_input : bytes; cn_output : bytes; cn_writable : bool }.

(** A data stream is known by the address of its peer. *)
Record TestSession := mkTestSession {
  ses_cookie : string;
  ses_client_addr : SocketAddr;
  ses_params : TestParameters;
  ses_control : connection;
  ses_state : State;
  ses_data_streams : list SocketAddr;
  ses_udp_streams : list SocketAddr;
  ses_started_at : Instant;
  ses_test_started_at : option Instant;
  ses_bytes_received : Z;
  ses_bytes_sent : Z;
  ses_cancelled : bool;
  ses_is_udp : bool }.

(** The fields the operations update, one at a time. *)
Inductive field :=
  | FControl (c : connection)
  | FState (st : State)
  | FData (l : list SocketAddr)
  | FUdp (l : list SocketAddr)
  | FTestStarted (t : Instant)
  | FReceived (n : Z)
  | FSent (n : Z)
  | FCancelled (b : bool)
  | FIsUdp (b : bool).

Definition upd (f : field) (s : TestSession) : TestSession :=
  mkTestSession (ses_cookie s) (ses_client_addr s) (ses_params s)
    (match f with FControl c => c | _ => ses_control s end)
    (match f with FState st => st | _ => ses_state s end)
    (match f with FData l => l | _ => ses_data_streams s end)
    (match f with FUdp l => l | _ => ses_udp_streams s end)
    (ses_started_at s)
    (match f with FTestStarted t => Some t | _ => ses_test_started_at s end)
    (match f with FReceived n => n | _ => ses_bytes_received s end)
    (match f with FSent n => n | _ => ses_bytes_sent s end)
    (match f with FCancelled b => b | _ => ses_cancelled s end)
    (match f with FIsUdp b => b | _ => ses_is_udp s end).

(** ** The session monad

    An operation returns a value or an error, updates the session, or panics. *)

Inductive result (A : Type) := Ok (a : A) | Err (e : Iperf3Error).
Arguments Ok {A} a.
Arguments Err {A} e.

Definition sess (A : Type) : Type := TestSession -> outcome (result A * TestSession).

#[export] Instance sess_ret : MRet sess := fun A a s => Ret (Ok a, s).
#[export] Instance sess_bind : MBind sess := fun A B f m s =>
  match m s with
  | Ret (Ok a, s) => f a s
  | Ret (Err e, s) => Ret (Err e, s)
  | Panic why => Panic why
  | OutOfFuel => OutOfFuel
  end.

Definition throw {A} (e : Iperf3Error) : sess A := fun s => Ret (Err e, s).
Definition panic {A} (why : panic_reason) : sess A := fun _ => Panic why.
Definition get : sess TestSession := fun s => Ret (Ok s, s).
Definition put (f : field) : sess () := fun s => Ret (Ok (), upd f s).

Module TestSession.

Definition new (cookie : string) (client_addr : SocketAddr) (control : connection) (now : Instant)
    : TestSession :=
  mkTestSession cookie client_addr TestParameters_default control ParamExchange [] [] now None 0 0
    false false.

Definition set_udp_mode (b : bool) : sess () := put (FIsUdp b).
Definition cancel : sess () := put (FCancelled true).
Definition set_state (st : State) : sess () := put (FState st).

(** [AtomicU64::fetch_add] wraps. *)
Definition add_bytes_received (n : Z) : sess () := s ← get; put (FReceived (as_u 64 (ses_bytes_received s + n))).
Definition add_bytes_sent (n : Z) : sess () := s ← get; put (FSent (as_u 64 (ses_bytes_sent s + n))).

Definition add_data_stream (peer : SocketAddr) : sess () :=
  s ← get; put (FData (ses_data_streams s ++ [peer])).
Definition add_udp_stream (peer : SocketAddr) : sess () :=
  s ← get; put (FUdp (ses_udp_streams s ++ [peer])).

Definition stream_count (s : TestSession) : nat :=
  if ses_is_udp s then length (ses_udp_streams s) else length (ses_data_streams s).

Definition start_test (now : Instant) : sess () := put (FTestStarted now).

Definition test_elapsed (now : Instant) (s : TestSession) : option Duration :=
  (fun t => Z.max 0 (now - t)) <$> ses_test_started_at s.

(** The connection: [read_exact] fails at end of file, [write_all] when the peer
    is gone. *)
Definition read_exact (n : nat) : sess bytes :=
  s ← get;
  let c := ses_control s in
  if (length (cn_input c) <? n)%nat then throw Io
  else
    _ ← put (FControl (mkConnection (drop n (cn_input c)) (cn_output c) (cn_writable c)));
    mret (take n (cn_input c)).

Definition write_all (data : bytes) : sess () :=
  s ← get;
  let c := ses_control s in
  if cn_writable c
  then put (FControl (mkConnection (cn_input c) (cn_output c ++ data) true))
  else throw Io.

Section json.
  (** serde_json: values, [from_slice] and [to_vec]. *)
  Context {Json : Type} (from_slice : bytes -> option Json) (to_vec : Json -> option bytes).

Definition read_json_message : sess Json :=
  len_buf ← read_exact 4;
  let len := from_be_bytes len_buf in
  if MAX_MESSAGE_SIZE <? len then
    throw (ProtocolError ("Message too large: " +:+ decimal len +:+ " bytes"))
  else
    data ← read_exact (Z.to_nat len);
    match from_slice data with
    | Some json => mret json
    | None => throw JsonError
    end.

Definition write_json_message (json : Json) : sess () :=
  match to_vec json with
  | None => throw JsonError
  | Some data =>
      let len := as_u 32 (Z.of_nat (length data)) in
      _ ← write_all (to_be_bytes 4 len);
      write_all data
  end.

End json.

Definition send_state (st : State) : sess () :=
  _ ← write_all [to_byte st];
  set_state st.

Definition read_state : sess State :=
  buf ← read_exact 1;
  match buf with
  | [b] =>
      match from_byte b with
      | Some st => mret st
      | None => throw (ProtocolError ("Unknown state: " +:+ decimal b))
      end
  | _ => panic IndexOutOfBounds
  end.

End TestSession.

(** ** The data stream loops

    A task observes the cancellation flag, the clock and its socket; the list of
    observations is one per iteration, and a task whose observations run out has
    not finished. *)

(** [Instant + Duration]: the seconds of an instant are a signed 64-bit number. *)
Definition instant_add (now : Instant) (d : Duration) : outcome Instant :=
  if decide (now + d < 2 ^ 63 * 1000000000) then Ret (now + d) else Panic ArithmeticOverflow.

Inductive read_event := ReadBytes (n : Z) | ReadFailed | ReadTimedOut.

Record recv_obs := mkRecvObs { ro_cancelled : bool; ro_now : Instant; ro_read : read_event }.

(** [on_zero] is what a read of nothing means: the end of a TCP stream, an empty
    datagram on UDP. *)
Fixpoint receiver_loop (on_zero_break : bool) (deadline : Instant) (obs : list recv_obs)
    (bytes_received : Z) : outcome Z :=
  match obs with
  | [] => OutOfFuel
  | o :: obs =>
      if ro_cancelled o || (deadline <? ro_now o) then Ret bytes_received
      else
        match ro_read o with
        | ReadBytes n =>
            if n =? 0 then
              if on_zero_break then Ret bytes_received
              else receiver_loop on_zero_break deadline obs bytes_received
            else receiver_loop on_zero_break deadline obs (as_u 64 (bytes_received + n))
        | ReadFailed => Ret bytes_received
        | ReadTimedOut => receiver_loop on_zero_break deadline obs bytes_received
        end
  end.

(** An iteration of a sender: the clock at the deadline check, at
    [last_send.elapsed()] and at the reset, and the bytes the write took. *)
Record send_obs := mkSendObs {
  so_cancelled : bool;
  so_now : Instant;
  so_elapsed_at : Instant;
  so_reset_at : Instant;
  so_write : option Z }.

Record sender_state := mkSenderState {
  snd_last_send : Instant;
  snd_this_second : Z;
  snd_bytes_sent : Z }.

(** [limited] is [bytes_per_second != u64::MAX], always true on UDP. *)
Fixpoint sender_loop (limited : bool) (bytes_per_second : Z) (deadline : Instant)
    (obs : list send_obs) (s : sender_state) : outcome sender_state :=
  match obs with
  | [] => OutOfFuel
  | o :: obs =>
      if so_cancelled o || (deadline <? so_now o) then Ret s
      else
        let elapsed := Z.max 0 (so_elapsed_at o - snd_last_send s) in
        let reset := limited && (from_secs 1 <=? elapsed) in
        let s := if reset then mkSenderState (so_reset_at o) 0 (snd_bytes_sent s) else s in
        if limited && negb reset && (bytes_per_second <=? snd_this_second s)
        then sender_loop limited bytes_per_second deadline obs s
        else
          match so_write o with
          | Some n =>
              this_second ← checked_u 64 (snd_this_second s + n);
              sender_loop limited bytes_per_second deadline obs
                (mkSenderState (snd_last_send s) this_second (as_u 64 (snd_bytes_sent s + n)))
          | None => Ret s
          end
  end.

Definition tcp_bytes_per_second (bandwidth : Z) : Z :=
  if 0 <? bandwidth then bandwidth / 8 else 2 ^ 64 - 1.

Definition udp_bytes_per_second (bandwidth : Z) : Z :=
  if 0 <? bandwidth then bandwidth / 8 else DEFAULT_UDP_BANDWIDTH_BPS / 8.

Definition udp_blksize (blksize : Z) : Z := if 0 <? blksize then blksize else DEFAULT_UDP_BLKSIZE.

Module Background.

(** The receivers, one per stream with its observations (for the senders also the
    instant the task starts); the counter is shared,
    additions commute, so the tasks run one after the other. *)
Definition run_receivers (udp : bool) (streams : list SocketAddr) (max_duration : Duration)
    (now : Instant) (tasks : list (list recv_obs)) (bytes_received : Z) : outcome Z :=
  match streams with
  | [] => Ret bytes_received
  | _ =>
      deadline ← instant_add now max_duration;
      for_each (zip streams tasks)
        (fun '(_, obs) n => receiver_loop (negb udp) deadline obs n) bytes_received
  end.

Definition run_senders (limited : bool) (bytes_per_second : Z) (streams : list SocketAddr)
    (max_duration : Duration) (now : Instant) (tasks : list (Instant * list send_obs))
    (bytes_sent : Z) : outcome Z :=
  match streams with
  | [] => Ret bytes_sent
  | _ =>
      deadline ← instant_add now max_duration;
      for_each (zip streams tasks)
        (fun '(_, (started, obs)) n =>
           s ← sender_loop limited bytes_per_second deadline obs (mkSenderState started 0 n);
           Ret (snd_bytes_sent s)) bytes_sent
  end.

Definition start_receiver_background (s : TestSession) (max_duration : Duration) (now : Instant)
    (tasks : list (list recv_obs)) : outcome Z :=
  run_receivers false (ses_data_streams s) max_duration now tasks (ses_bytes_received s).

Definition start_udp_receiver_background (s : TestSession) (max_duration : Duration)
    (now : Instant) (tasks : list (list recv_obs)) : outcome Z :=
  run_receivers true (ses_udp_streams s) max_duration now tasks (ses_bytes_received s).

(** The block is [self.params.blksize] bytes, written whole. *)
Definition start_sender_background (s : TestSession) (max_duration : Duration) (bandwidth : Z)
    (now : Instant) (tasks : list (Instant * list send_obs)) : outcome Z :=
  let bytes_per_second := tcp_bytes_per_second bandwidth in
  let whole o :=
    mkSendObs (so_cancelled o) (so_now o) (so_elapsed_at o) (so_reset_at o)
      (match so_write o with Some _ => Some (par_blksize (ses_params s)) | None => None end) in
  run_senders (negb (bytes_per_second =? 2 ^ 64 - 1)) bytes_per_second (ses_data_streams s)
    max_duration now (prod_map id (map whole) <$> tasks) (ses_bytes_sent s).

(** A datagram send takes at most a block. *)
Definition start_udp_sender_background (s : TestSession) (max_duration : Duration)
    (bandwidth blksize : Z) (now : Instant) (tasks : list (Instant * list send_obs)) : outcome Z :=
  let blksize := udp_blksize blksize in
  let capped o :=
    mkSendObs (so_cancelled o) (so_now o) (so_elapsed_at o) (so_reset_at o)
      (match so_write o with Some n => Some (Z.min n blksize) | None => None end) in
  run_senders true (udp_bytes_per_second bandwidth) (ses_udp_streams s) max_duration now
    (prod_map id (map capped) <$> tasks) (ses_bytes_sent s).

(** The foreground variants, which wait for their tasks. *)
Definition run_receiver (s : TestSession) (max_duration : Duration) (now : Instant)
    (tasks : list (list recv_obs)) : outcome Z :=
  run_receivers false (ses_data_streams s) max_duration now tasks (ses_bytes_received s).

Definition run_sender (s : TestSession) (max_duration : Duration) (bandwidth : Z)
    (now : Instant) (tasks : list (Instant * list send_obs)) : outcome Z :=
  start_sender_background s max_duration bandwidth now tasks.

End Background.

(** ** Results *)

Module Results.

Definition rate (n : Z) (test_duration : f64) : f64 :=
  if f64_gtb test_duration f64_zero
  then f64_div (f64_mul (f64_of_Z n) (f64_of_Z 8)) test_duration else f64_zero.

Definition stream_result (id n : Z) (test_duration bps : f64) (retransmits : option Z) : StreamResult :=
  mkStreamResult id n test_duration bps retransmits None None None None.

Definition generate_results (s : TestSession) (test_duration : f64) : ServerResults :=
  let sent := ses_bytes_sent s in
  let received := ses_bytes_received s in
  let sent_bps := rate sent test_duration in
  let received_bps := rate received test_duration in
  let p := ses_params s in
  mkServerResults
    (mkStartInfo
       [mkConnectedInfo 0 "0.0.0.0" 5201 (display_ip (ip (ses_client_addr s)))
          (port (ses_client_addr s))]
       "iperf 3.16 (Rust)" "Rust iperf3 server"
       (mkTestStartInfo (par_protocol p) (par_parallel p) (par_blksize p) (par_omit p) (par_time p)
          (par_bytes p) (par_blockcount p) (par_reverse p)))
    []
    (mkEndInfo
       [mkStreamEndResult (stream_result 1 sent test_duration sent_bps (Some 0))
          (stream_result 1 received test_duration received_bps None)]
       (Some (stream_result 0 sent test_duration sent_bps (Some 0)))
       (Some (stream_result 0 received test_duration received_bps None))
       None).

Definition generate_exchange_results (s : TestSession) (test_duration : f64) : ExchangeResultsData :=
  mkExchangeResultsData f64_zero f64_zero f64_zero (-1) (Some "cubic"%string)
    [mkExchangeStreamResult 1 (ses_bytes_received s) (-1) f64_zero 0 0 0 0 f64_zero test_duration].

End Results.

(** ** Lemmas *)

Lemma sess_bind_Ok {A B} (m : sess A) (f : A -> sess B) s a s' :
  m s = Ret (Ok a, s') -> (m ≫= f) s = f a s'.
Proof. intros H. unfold mbind, sess_bind. by rewrite H. Qed.

Lemma sess_bind_inv {A B} (m : sess A) (f : A -> sess B) s r s' :
  (m ≫= f) s = Ret (r, s') ->
  (exists a s1, m s = Ret (Ok a, s1) /\ f a s1 = Ret (r, s'))
  \/ (exists e, m s = Ret (Err e, s') /\ r = Err e).
Proof.
  unfold mbind, sess_bind. destruct (m s) as [[[a|e] s1]| |]; [|intros [= <- <-]|done..]; eauto.
Qed.

Definition output (s : TestSession) : bytes := cn_output (ses_control s).

(** [emits m W]: a successful run of [m] appends one of the outputs in [W] to
    the control connection, a failed one a prefix of one of them. *)
Definition emits {A} (m : sess A) (W : bytes -> Prop) : Prop :=
  forall s r s', m s = Ret (r, s') ->
  match r with
  | Ok _ => exists w, W w /\ output s' = output s ++ w
  | Err _ => exists w w', W (w' ++ w) /\ output s' = output s ++ w'
  end.

Definition only (w : bytes) : bytes -> Prop := eq w.
Definition followed_by (W1 W2 : bytes -> Prop) : bytes -> Prop :=
  fun w => exists w1 w2, W1 w1 /\ W2 w2 /\ w = w1 ++ w2.

Lemma emits_bind {A B} (m : sess A) (f : A -> sess B) W1 W2 :
  emits m W1 -> (forall a, emits (f a) W2) -> (exists w, W2 w) ->
  emits (m ≫= f) (followed_by W1 W2).
Proof.
  intros Hm Hf [w0 Hw0] s r s' [(a & s1 & H1 & H2)|(e & H1 & ->)]%sess_bind_inv.
  - destruct (Hm _ _ _ H1) as (w1 & Hw1 & Ho1). specialize (Hf a _ _ _ H2). destruct r as [b|e].
    + destruct Hf as (w2 & Hw2 & Ho2). exists (w1 ++ w2). split; [by exists w1, w2|].
      by rewrite Ho2, Ho1, (assoc_L (++)).
    + destruct Hf as (w & w' & Hw & Ho2). exists w, (w1 ++ w').
      split; [exists w1, (w' ++ w); by rewrite <- (assoc_L (++))|].
      by rewrite Ho2, Ho1, (assoc_L (++)).
  - destruct (Hm _ _ _ H1) as (w & w' & Hw & Ho). exists (w ++ w0), w'. split; [|done].
    exists (w' ++ w), w0. by rewrite <- (assoc_L (++)).
Qed.

(** A silent operation in front. *)
Lemma emits_silent {A B} (m : sess A) (f : A -> sess B) W :
  emits m (only []) -> (forall a, emits (f a) W) -> (exists w, W w) -> emits (m ≫= f) W.
Proof.
  intros Hm Hf Hw s r s' H. pose proof (emits_bind m f (only []) W Hm Hf Hw s r s' H) as He.
  destruct r.
  - destruct He as (w & (w1 & w2 & <- & Hw2 & ->) & Ho). by exists w2.
  - destruct He as (w & w' & (w1 & w2 & <- & Hw2 & E) & Ho). exists w, w'. by rewrite E.
Qed.

Lemma emits_throw {A} e W : (exists w, W w) -> emits (throw e : sess A) W.
Proof. intros [w Hw] s r s' [= <- <-]. exists w, []. by rewrite app_nil_r. Qed.

Lemma emits_get : emits get (only []).
Proof. intros s r s' [= <- <-]. exists []. by rewrite app_nil_r. Qed.

Lemma emits_ret {A} (a : A) : emits (mret a) (only []).
Proof. intros s r s' [= <- <-]. exists []. by rewrite app_nil_r. Qed.

Lemma emits_put f : (forall c, f <> FControl c) -> emits (put f) (only []).
Proof.
  intros Hf s r s' [= <- <-]. exists []. rewrite app_nil_r. split; [done|].
  unfold output. destruct f as [c| | | | | | | |]; [by destruct (Hf c)|done..].
Qed.

Lemma emits_read_exact n : emits (TestSession.read_exact n) (only []).
Proof.
  intros s r s'. unfold TestSession.read_exact, mbind, sess_bind, get. case_match.
  - intros [= <- <-]. exists [], []. by rewrite !app_nil_r.
  - intros [= <- <-]. exists []. rewrite app_nil_r. split; reflexivity.
Qed.

Lemma emits_write_all data : emits (TestSession.write_all data) (only data).
Proof.
  intros s r s'. unfold TestSession.write_all, mbind, sess_bind, get. case_match.
  - intros [= <- <-]. by exists data.
  - intros [= <- <-]. exists data, []. by rewrite app_nil_r.
Qed.

Lemma emits_send_state st : emits (TestSession.send_state st) (only [to_byte st]).
Proof.
  intros s r s' H. pose proof (emits_bind (TestSession.write_all [to_byte st])
    (fun _ => TestSession.set_state st) _ _ (emits_write_all _)
    (fun _ => emits_put (FState st) ltac:(done)) ltac:(by exists []) s r s' H) as He.
  destruct r.
  - destruct He as (w & (w1 & w2 & <- & <- & ->) & Ho). by exists [to_byte st].
  - destruct He as (w & w' & (w1 & w2 & <- & <- & E) & Ho). exists w, w'. by rewrite E.
Qed.

Lemma emits_read_state : emits TestSession.read_state (only []).
Proof.
  apply emits_silent; [apply emits_read_exact| |by exists []].
  intros [|b [|]]; [done| |done]. case_match; [apply emits_ret|apply emits_throw; by exists []].
Qed.

Lemma read_exact_app n l rest s :
  n = length l -> cn_input (ses_control s) = l ++ rest ->
  TestSession.read_exact n s
  = Ret (Ok l, upd (FControl (mkConnection rest (output s) (cn_writable (ses_control s)))) s).
Proof.
  intros -> Hin. unfold TestSession.read_exact, mbind, sess_bind, get, put, mret, sess_ret.
  rewrite Hin, (proj2 (Nat.ltb_ge _ _)) by (rewrite length_app; lia).
  by rewrite take_app_length, drop_app_length.
Qed.

Section json_emits.
  Context {Json : Type} (from_slice : bytes -> option Json) (to_vec : Json -> option bytes).

(** The frame of a message: its length in four bytes, then the message. *)
Definition json_frame (data : bytes) : bytes := to_be_bytes 4 (as_u 32 (Z.of_nat (length data))) ++ data.

Lemma emits_read_json : emits (TestSession.read_json_message from_slice) (only []).
Proof.
  apply emits_silent; [apply emits_read_exact| |by exists []]. intros len_buf.
  cbv zeta beta. case_match; [apply emits_throw; by exists []|].
  apply emits_silent; [apply emits_read_exact| |by exists []]. intros data.
  cbv beta. case_match; [apply emits_ret|apply emits_throw; by exists []].
Qed.

Lemma emits_write_json json :
  emits (TestSession.write_json_message to_vec json) (fun w => exists data, w = json_frame data).
Proof.
  unfold TestSession.write_json_message. destruct (to_vec json) as [data|].
  - intros s r s' H.
    pose proof (emits_bind _ _ _ _ (emits_write_all (to_be_bytes 4 (as_u 32 (Z.of_nat (length data)))))
      (fun _ => emits_write_all data) ltac:(by exists data) s r s' H) as He.
    destruct r.
    + destruct He as (w & (w1 & w2 & <- & <- & ->) & Ho). eexists. split; [by exists data|exact Ho].
    + destruct He as (w & w' & (w1 & w2 & <- & <- & E) & Ho). exists w, w'.
      split; [exists data; by rewrite E|exact Ho].
  - apply emits_throw. eexists. by exists [].
Qed.

(** What a peer that writes a frame makes the reader return. *)
Lemma read_json_frame data rest s json :
  Z.of_nat (length data) <= MAX_MESSAGE_SIZE -> from_slice data = Some json ->
  cn_input (ses_control s) = json_frame data ++ rest ->
  TestSession.read_json_message from_slice s
  = Ret (Ok json, upd (FControl (mkConnection rest (output s) (cn_writable (ses_control s)))) s).
Proof.
  intros Hlen Hjson Hin. unfold MAX_MESSAGE_SIZE in Hlen.
  assert (is_u 32 (Z.of_nat (length data))) as Hu by (unfold is_u; lia).
  assert (from_be_bytes (to_be_bytes 4 (Z.of_nat (length data))) = Z.of_nat (length data)) as Hbe.
  { rewrite from_to_be_bytes. apply Z.mod_small. exact Hu. }
  unfold json_frame in Hin. rewrite as_u_small in Hin by done. rewrite <- (assoc_L (++)) in Hin.
  unfold TestSession.read_json_message.
  erewrite sess_bind_Ok by (eapply read_exact_app; [symmetry; apply length_to_be_bytes|exact Hin]).
  cbv beta zeta. rewrite Hbe, (proj2 (Z.ltb_ge _ _)) by done. rewrite Nat2Z.id.
  erewrite sess_bind_Ok by (eapply read_exact_app; reflexivity).
  by rewrite Hjson.
Qed.

End json_emits.

(** *** Bandwidth *)

(** Bytes a limited sender may have sent in its current second. *)
Definition window_bound (bytes_per_second block : Z) : Z := Z.max bytes_per_second 1 + block - 1.

(** An iteration whose write takes at most a block and whose clock reads are in
    order and before [until]. *)
Definition obs_ok (block : Z) (until : Instant) (o : send_obs) : Prop :=
  (forall n, so_write o = Some n -> 0 <= n <= block) /\ so_elapsed_at o <= so_reset_at o <= until.

(** While the sender runs, what it sent stays below what the seconds passed since
    its start allow; [w] windows are over, [sent0] was the counter before. *)
Lemma sender_loop_bound bps block deadline until obs s s' sent0 w start :
  0 <= bps -> 0 <= block -> Forall (obs_ok block until) obs ->
  0 <= w -> 0 <= snd_this_second s <= window_bound bps block ->
  sent0 <= snd_bytes_sent s <= sent0 + w * window_bound bps block + snd_this_second s ->
  from_secs 1 * w <= snd_last_send s - start -> snd_last_send s <= until ->
  sent0 + (1 + (until - start) / from_secs 1) * window_bound bps block < 2 ^ 64 -> 0 <= sent0 ->
  sender_loop true bps deadline obs s = Ret s' ->
  snd_bytes_sent s' <= sent0 + (1 + (until - start) / from_secs 1) * window_bound bps block.
Proof.
  intros Hbps Hblock Hobs. revert s w. set (wb := window_bound bps block).
  assert (block <= wb /\ 0 <= wb) as [Hwb Hwb0] by (unfold wb, window_bound; lia).
  induction Hobs as [|o obs [Hwr Hcl] _ IH]; intros s w Hw Hts Hsent Hlast Huntil Hmax Hs0 Hrun; [done|].
  assert (forall v, from_secs 1 * v <= until - start -> v <= (until - start) / from_secs 1) as Hdiv.
  { intros v Hv. apply Z.div_le_lower_bound; [unfold from_secs; lia|exact Hv]. }
  assert (w <= (until - start) / from_secs 1) as Hwle by (apply Hdiv; lia).
  cbn [sender_loop] in Hrun. destruct (so_cancelled o || (deadline <? so_now o)).
  { injection Hrun as <-. nia. }
  destruct (Z.leb_spec (from_secs 1) (Z.max 0 (so_elapsed_at o - snd_last_send s))) as [Hreset|Hno].
  - cbn [andb negb] in Hrun. destruct (so_write o) as [n|]; [|injection Hrun as <-; simpl; nia].
    specialize (Hwr n eq_refl). apply bind_Ret_inv in Hrun as (ts & [-> _]%checked_u_inv & Hrun).
    cbn [snd_this_second snd_last_send snd_bytes_sent] in Hrun.
    unfold from_secs in Hreset.
    assert (w + 1 <= (until - start) / from_secs 1) as Hw1 by (apply Hdiv; unfold from_secs in *; lia).
    rewrite as_u_small in Hrun by (unfold is_u; split; [lia|nia]).
    apply (IH _ (w + 1)) in Hrun; simpl; unfold from_secs in *; nia.
  - cbn [andb negb] in Hrun. destruct (Z.leb_spec bps (snd_this_second s)) as [Hfull|Hroom].
    + by apply (IH _ w) in Hrun.
    + destruct (so_write o) as [n|]; [|injection Hrun as <-; nia].
      specialize (Hwr n eq_refl). apply bind_Ret_inv in Hrun as (ts & [-> _]%checked_u_inv & Hrun).
      assert (snd_this_second s + n <= wb) as Hts' by (unfold wb, window_bound; lia).
      rewrite as_u_small in Hrun by (unfold is_u; split; [lia|nia]).
      apply (IH _ w) in Hrun; simpl; lia.
Qed.

Lemma state_byte_table :
  forallb (fun b => match from_byte b with Some st => to_byte st =? b | None => true end)
    (map Z.of_nat (seq 0 256)) = true.
Proof. vm_compute. reflexivity. Qed.

(** ** Properties *)

(** The wire byte of a state decodes to the state, negative discriminants
    included, and a byte that decodes is the wire byte of what it decodes to. *)
Lemma state_byte_roundtrip st :
  from_byte (to_byte st) = Some st
  /\ forall b, is_u 8 b -> from_byte b = Some st -> b = to_byte st.
Proof.
  split; [by destruct st|]. intros b Hb Hst. pose proof state_byte_table as Htab.
  rewrite forallb_forall in Htab. specialize (Htab b). rewrite Hst in Htab.
  symmetry. apply Z.eqb_eq, Htab, in_map_iff. exists (Z.to_nat b).
  unfold is_u in Hb. change (2 ^ 8) with 256 in Hb. split; [lia|]. apply in_seq. lia.
Qed.

(** What one end writes with [write_json_message] the other end reads with
    [read_json_message], for messages up to the size limit; a length field above
    the limit is refused before any of the message is read. *)
Theorem json_message_roundtrip {Json} (from_slice : bytes -> option Json) to_vec json data s s' rest :
  to_vec json = Some data -> from_slice data = Some json ->
  Z.of_nat (length data) <= MAX_MESSAGE_SIZE ->
  cn_writable (ses_control s) = true -> output s = [] ->
  (exists w, TestSession.write_json_message to_vec json s = Ret (Ok (), w)
     /\ (cn_input (ses_control s') = output w ++ rest ->
         exists r, TestSession.read_json_message from_slice s' = Ret (Ok json, r)
           /\ cn_input (ses_control r) = rest))
  /\ forall len more, MAX_MESSAGE_SIZE < len < 2 ^ 32 ->
     cn_input (ses_control s') = to_be_bytes 4 len ++ more ->
     exists msg r, TestSession.read_json_message from_slice s' = Ret (Err (ProtocolError msg), r)
       /\ cn_input (ses_control r) = more.
Proof.
  intros Hvec Hslice Hlen Hw Hout. split.
  - eexists. split.
    + unfold TestSession.write_json_message. rewrite Hvec.
      unfold TestSession.write_all, mbind, sess_bind, get, put. rewrite Hw. simpl. reflexivity.
    + intros Hin. eexists. split.
      * apply (read_json_frame from_slice data rest s' json); [done|done|].
        rewrite Hin. unfold output in *. simpl. by rewrite Hout.
      * reflexivity.
  - intros len more Hbig Hin.
    assert (from_be_bytes (to_be_bytes 4 len) = len) as Hbe.
    { rewrite from_to_be_bytes. apply Z.mod_small. change (256 ^ Z.of_nat 4) with (2 ^ 32).
      unfold MAX_MESSAGE_SIZE in Hbig. lia. }
    eexists _, _. split.
    + unfold TestSession.read_json_message.
      erewrite sess_bind_Ok by (eapply read_exact_app; [symmetry; apply length_to_be_bytes|exact Hin]).
      cbv beta zeta. rewrite Hbe, (proj2 (Z.ltb_lt _ _)) by lia. reflexivity.
    + reflexivity.
Qed.

(** C37: A sender with a limit sends no more than the limit allows: over a run
    from [start] until [until] at most one window per second started, each the
    limit plus what one block overshoots (a limit below one byte per second
    counts as one). *)
Theorem sender_rate_bounded bps block deadline until obs start sent0 s' :
  0 <= bps -> 0 <= block -> start <= until -> Forall (obs_ok block until) obs -> 0 <= sent0 ->
  let bound := sent0 + (1 + (until - start) / from_secs 1) * (Z.max bps 1 + block - 1) in
  bound < 2 ^ 64 ->
  sender_loop true bps deadline obs (mkSenderState start 0 sent0) = Ret s' ->
  snd_bytes_sent s' <= bound.
Proof.
  intros Hbps Hblock Hle Hobs Hs0 bound Hmax Hrun.
  assert (0 <= window_bound bps block) by (unfold window_bound; lia).
  eapply (sender_loop_bound bps block deadline until obs _ s' sent0 0 start); try done; simpl; lia.
Qed.

Lemma sender_rate_bounded_witness :
  exists s', sender_loop true 100 (from_secs 10)
      [mkSendObs false 1 1 1 (Some 64); mkSendObs false 2 2 2 (Some 64);
       mkSendObs false 3 3 3 (Some 64); mkSendObs true 4 4 4 None] (mkSenderState 0 0 0) = Ret s'
    /\ snd_bytes_sent s' <= 163.
Proof.
  eexists. split; [vm_compute; reflexivity|].
  apply (sender_rate_bounded 100 64 (from_secs 10) 5
    [mkSendObs false 1 1 1 (Some 64); mkSendObs false 2 2 2 (Some 64);
     mkSendObs false 3 3 3 (Some 64); mkSendObs true 4 4 4 None] 0 0); try done.
  apply Forall_forall. intros o Ho. apply list_elem_of_In in Ho. simpl in Ho.
  destruct Ho as [<-|[<-|[<-|[<-|[]]]]]; (split; [|simpl; lia]); intros n Hn; simplify_eq/=; lia.
Defined.
