(* ===== verification/Iperf3Server.v ===== *)
(** * The iperf3 server (iperf3-server/src/server.rs)

    Admission of connections, the session protocol on the control connection,
    and the life of sessions in the table of the server. *)

From stdpp Require Import base list gmap strings.
From Stdlib Require Import ZArith Lia.
From S2P Require Import Prelude Utf8 Net F64 Protocol AuthCache Iperf3Session.
Local Open Scope Z_scope.

Definition STREAM_CONNECT_TIMEOUT_SECS : Z := 10.
Definition UDP_CONNECT_REPLY : Z := 0x36373839.

(** ** The session protocol *)

(** What becomes of the socket of a UDP stream. *)
Inductive udp_arrival :=
  | UdpBindFailed (e : string)
  | UdpReceiveFailed (e : string)
  | UdpTimedOut
  | UdpConnectFailed (e : string)
  | UdpReplyFailed (e : string)
  | UdpConnected (addr : SocketAddr).

(** What happens around the protocol while it runs. *)
Record environment := mkEnvironment {
  env_polls : list (list SocketAddr * Duration);  (* streams since the last poll, time waited *)
  env_udp : list (Duration * udp_arrival);        (* per UDP stream *)
  env_test_start : Instant;
  env_tasks_start : Instant;
  env_recv : list (list recv_obs);
  env_send : list (Instant * list send_obs);
  env_results_at : Instant }.

(** The server-side limits. *)
Definition limit_params (max_duration_secs max_bandwidth : Z) (p : TestParameters) : TestParameters :=
  let time :=
    if (0 <? max_duration_secs) && (max_duration_secs <? par_time p)
    then max_duration_secs else par_time p in
  let bandwidth :=
    if (0 <? max_bandwidth) && (max_bandwidth <? par_bandwidth p)
    then max_bandwidth else par_bandwidth p in
  mkTestParameters (par_protocol p) time (par_parallel p) (par_reverse p) (par_bidirectional p)
    bandwidth (par_blksize p) (par_window p) (par_mss p) (par_nodelay p) (par_bytes p)
    (par_blockcount p) (par_omit p) (par_client_version p) (par_udp p) (par_interval p).

(** Waiting for the TCP data streams the accept loop adds to the session: one
    entry of [polls] per check. *)
Fixpoint wait_tcp_streams (expected : nat) (polls : list (list SocketAddr * Duration)) : sess () :=
  match polls with
  | [] => fun _ => OutOfFuel
  | (connected, waited) :: polls =>
      s ← get;
      _ ← put (FData (ses_data_streams s ++ connected));
      s ← get;
      if (TestSession.stream_count s <? expected)%nat then
        if from_secs STREAM_CONNECT_TIMEOUT_SECS <? waited then
          throw (ProtocolError ("Timeout waiting for " +:+ decimal (Z.of_nat expected)
                   +:+ " data streams, got " +:+ decimal (Z.of_nat (TestSession.stream_count s))))
        else wait_tcp_streams expected polls
      else mret ()
  end.

(** Waiting for the UDP streams, each on a socket of its own bound to the server
    port in the client's address family; [arrivals] has, per stream, the time
    waited and how far the socket got. *)
Definition udp_bind_addr (client : SocketAddr) (server_port : Z) : SocketAddr :=
  match ip client with
  | V6 _ => mkSocketAddr (V6 (replicate 16 0)) server_port
  | V4 _ => mkSocketAddr (V4 (replicate 4 0)) server_port
  end.

Fixpoint accept_udp_streams (expected stream_num : nat) (server_port : Z)
    (arrivals : list (Duration * udp_arrival)) : sess () :=
  if (expected <=? stream_num)%nat then mret () else
  match arrivals with
  | [] => fun _ => OutOfFuel
  | (waited, arrival) :: arrivals =>
      if from_secs STREAM_CONNECT_TIMEOUT_SECS <? waited then
        throw (ProtocolError ("Timeout waiting for UDP streams, got "
                 +:+ decimal (Z.of_nat stream_num) +:+ " of " +:+ decimal (Z.of_nat expected)))
      else
        s ← get;
        let bind_addr := udp_bind_addr (ses_client_addr s) server_port in
        match arrival with
        | UdpBindFailed e =>
            throw (ProtocolError ("Failed to bind UDP socket to " +:+ display_addr bind_addr
                     +:+ ": " +:+ e))
        | UdpReceiveFailed e => throw (ProtocolError ("Failed to receive UDP datagram: " +:+ e))
        | UdpTimedOut =>
            throw (ProtocolError ("Timeout waiting for UDP stream "
                     +:+ decimal (Z.of_nat stream_num + 1)))
        | UdpConnectFailed e => throw (ProtocolError ("Failed to connect UDP socket: " +:+ e))
        | UdpReplyFailed e => throw (ProtocolError ("Failed to send UDP reply: " +:+ e))
        | UdpConnected addr =>
            _ ← TestSession.add_udp_stream addr;
            accept_udp_streams expected (S stream_num) server_port arrivals
        end
  end.

(** The data transfer between TEST_RUNNING and the end of the tasks. *)
Definition run_transfer (p : TestParameters) (env : environment) (s : TestSession)
    : outcome (Z * Z) :=
  let test_duration := from_secs (par_time p) in
  let now := env_tasks_start env in
  if par_udp p then
    if par_reverse p then
      sent ← Background.start_udp_sender_background s test_duration (par_bandwidth p) (par_blksize p)
               now (env_send env);
      Ret (ses_bytes_received s, sent)
    else
      received ← Background.start_udp_receiver_background s test_duration now (env_recv env);
      Ret (received, ses_bytes_sent s)
  else if par_reverse p then
    sent ← Background.start_sender_background s test_duration (par_bandwidth p) now (env_send env);
    Ret (ses_bytes_received s, sent)
  else
    received ← Background.start_receiver_background s test_duration now (env_recv env);
    Ret (received, ses_bytes_sent s).

(** A pure computation on the session, inside the monad. *)
Definition lift {A} (f : TestSession -> outcome A) : sess A :=
  fun s => a ← f s; Ret (Ok a, s).

Section protocol.
  (** serde_json, and serde's conversions of the two message types. *)
  Context {Json : Type} (from_slice : bytes -> option Json) (to_vec : Json -> option bytes)
    (from_value : Json -> option TestParameters) (to_value : ExchangeResultsData -> option Json).

Definition run_session_protocol (max_duration_secs max_bandwidth server_port : Z) (env : environment)
    : sess () :=
  _ ← TestSession.send_state ParamExchange;
  params_json ← TestSession.read_json_message from_slice;
  match from_value params_json with
  | None => throw JsonError
  | Some params =>
      let params := limit_params max_duration_secs max_bandwidth params in
      let is_udp := par_udp params in
      _ ← TestSession.set_udp_mode is_udp;
      _ ← TestSession.send_state CreateStreams;
      let expected_streams := Z.to_nat (par_parallel params) in
      _ ← (if is_udp then accept_udp_streams expected_streams 0 server_port (env_udp env)
           else wait_tcp_streams expected_streams (env_polls env));
      _ ← TestSession.send_state TestStart;
      _ ← TestSession.start_test (env_test_start env);
      _ ← TestSession.send_state TestRunning;
      counters ← lift (run_transfer params env);
      client_state ← TestSession.read_state;
      _ ← TestSession.cancel;
      _ ← put (FReceived counters.1);
      _ ← put (FSent counters.2);
      _ ← TestSession.send_state ExchangeResults;
      client_results ← TestSession.read_json_message from_slice;
      s ← get;
      let elapsed := default 0 (TestSession.test_elapsed (env_results_at env) s) in
      let exchange_results := Results.generate_exchange_results s (as_secs_f64 elapsed) in
      match to_value exchange_results with
      | None => throw JsonError
      | Some results_json =>
          _ ← TestSession.write_json_message to_vec results_json;
          _ ← TestSession.send_state DisplayResults;
          client_state ← TestSession.read_state;
          TestSession.send_state ServerTerminate
      end
  end.

End protocol.

(** ** The server *)

Record Iperf3Server := mkIperf3Server {
  srv_config : Iperf3Config;
  srv_allowed_ips : gset IpAddr;
  srv_sessions : gmap string TestSession;
  srv_auth_callback : option (IpAddr -> bool) }.

Module Iperf3Server.

Definition normalize_ip (a : IpAddr) : IpAddr :=
  match a with
  | V6 v6 =>
      match to_ipv4_mapped v6 with
      | Some v4 => V4 v4
      | None => V6 v6
      end
  | V4 _ => a
  end.

Definition new (config : Iperf3Config) : Iperf3Server := mkIperf3Server config ∅ ∅ None.

Definition set_sessions (m : gmap string TestSession) (srv : Iperf3Server) : Iperf3Server :=
  mkIperf3Server (srv_config srv) (srv_allowed_ips srv) m (srv_auth_callback srv).

Definition set_auth_callback (cb : IpAddr -> bool) (srv : Iperf3Server) : Iperf3Server :=
  mkIperf3Server (srv_config srv) (srv_allowed_ips srv) (srv_sessions srv) (Some cb).

Definition add_allowed_ip (a : IpAddr) (srv : Iperf3Server) : Iperf3Server :=
  mkIperf3Server (srv_config srv) ({[a]} ∪ srv_allowed_ips srv) (srv_sessions srv)
    (srv_auth_callback srv).

Definition remove_allowed_ip (a : IpAddr) (srv : Iperf3Server) : Iperf3Server :=
  mkIperf3Server (srv_config srv) (srv_allowed_ips srv ∖ {[a]}) (srv_sessions srv)
    (srv_auth_callback srv).

Definition is_ip_allowed (a : IpAddr) (srv : Iperf3Server) : bool :=
  let normalized_ip := normalize_ip a in
  if negb (i3_require_auth (srv_config srv)) then true
  else
    match srv_auth_callback srv with
    | Some callback => callback normalized_ip
    | None =>
        if bool_decide (srv_allowed_ips srv = ∅) then false
        else bool_decide (normalized_ip ∈ srv_allowed_ips srv)
    end.

Definition session_count (srv : Iperf3Server) : nat := size (srv_sessions srv).

(** The accept arm of [run]: [true] when the connection is handed to
    [handle_connection], [false] when it is sent AccessDenied and closed. *)
Definition accept (peer : SocketAddr) (srv : Iperf3Server) : bool :=
  if negb (is_ip_allowed (ip peer) srv) then false
  else if (i3_max_sessions (srv_config srv) <=? session_count srv)%nat then false
  else true.

Definition send_access_denied (c : connection) : connection :=
  if cn_writable c then mkConnection (cn_input c) (cn_output c ++ [to_byte AccessDenied]) true else c.

(** [handle_session], in its three critical sections.  First the cookie; [None]
    is the read error, which ends the task. *)
Definition read_cookie (c : connection) : option (string * connection) :=
  if (length (cn_input c) <? COOKIE_SIZE)%nat then None
  else
    Some (trim_end_nul (from_utf8_lossy (take COOKIE_SIZE (cn_input c))),
          mkConnection (drop COOKIE_SIZE (cn_input c)) (cn_output c) (cn_writable c)).

(** Under the read lock: the connection is a data stream of a running session,
    or ([None]) a new control connection. *)
Definition join_session (cookie : string) (peer : SocketAddr) (srv : Iperf3Server)
    : option Iperf3Server :=
  match srv_sessions srv !! cookie with
  | Some session =>
      let session := upd (FData (ses_data_streams session ++ [peer])) session in
      Some (set_sessions (<[cookie := session]> (srv_sessions srv)) srv)
  | None => None
  end.

(** Under the write lock: the new session. *)
Definition create_session (cookie : string) (peer : SocketAddr) (c : connection) (now : Instant)
    (srv : Iperf3Server) : Iperf3Server :=
  set_sessions (<[cookie := TestSession.new cookie peer c now]> (srv_sessions srv)) srv.

(** The clean-up once the protocol returned, with or without an error. *)
Definition handle_session_end (cookie : string) (srv : Iperf3Server) : Iperf3Server :=
  set_sessions (delete cookie (srv_sessions srv)) srv.

End Iperf3Server.
Import Iperf3Server.

(** The callback main.rs installs: the address cache decides. *)
Definition iperf3_auth_callback (c : AuthAddressCache) (now : Instant) (a : IpAddr) : bool :=
  match AuthAddressCache.check_auth a now c with Some _ => true | None => false end.

(** ** Steps

    The accept loop and the tasks it spawns, each between two critical
    sections. *)

Inductive task :=
  | AwaitCookie (peer : SocketAddr) (c : connection)
  | CreateSession (cookie : string) (peer : SocketAddr) (c : connection).

Definition server_state : Type := Iperf3Server * list task.

Inductive server_step : server_state -> server_state -> Prop :=
  | step_denied peer srv tasks :
      accept peer srv = false -> server_step (srv, tasks) (srv, tasks)
  | step_accepted peer c srv tasks :
      accept peer srv = true -> server_step (srv, tasks) (srv, AwaitCookie peer c :: tasks)
  | step_hung_up peer c srv tasks1 tasks2 :
      read_cookie c = None ->
      server_step (srv, tasks1 ++ AwaitCookie peer c :: tasks2) (srv, tasks1 ++ tasks2)
  | step_join peer c cookie c' srv srv' tasks1 tasks2 :
      read_cookie c = Some (cookie, c') -> join_session cookie peer srv = Some srv' ->
      server_step (srv, tasks1 ++ AwaitCookie peer c :: tasks2) (srv', tasks1 ++ tasks2)
  | step_new peer c cookie c' srv tasks1 tasks2 :
      read_cookie c = Some (cookie, c') -> join_session cookie peer srv = None ->
      server_step (srv, tasks1 ++ AwaitCookie peer c :: tasks2)
        (srv, tasks1 ++ CreateSession cookie peer c' :: tasks2)
  | step_create cookie peer c now srv tasks1 tasks2 :
      server_step (srv, tasks1 ++ CreateSession cookie peer c :: tasks2)
        (create_session cookie peer c now srv, tasks1 ++ tasks2)
  | step_session cookie s s' srv tasks :
      srv_sessions srv !! cookie = Some s ->
      ses_client_addr s' = ses_client_addr s -> ses_data_streams s' = ses_data_streams s ->
      server_step (srv, tasks) (set_sessions (<[cookie := s']> (srv_sessions srv)) srv, tasks)
  | step_end cookie srv tasks :
      server_step (srv, tasks) (handle_session_end cookie srv, tasks).

(** [step_session] is what the protocol of a session does to its own entry: the
    client and the TCP data streams are not its to change. *)

Definition server_run : server_state -> server_state -> Prop := rtc server_step.

(** ** Lemmas *)

(** The invariant behind access control: sessions, their data streams and the
    tasks on the way all belong to peers the server allows. *)
Definition peer_ok (srv : Iperf3Server) (peer : SocketAddr) : Prop :=
  is_ip_allowed (ip peer) srv = true.

Definition session_ok (srv : Iperf3Server) (s : TestSession) : Prop :=
  peer_ok srv (ses_client_addr s) /\ Forall (peer_ok srv) (ses_data_streams s).

Definition task_ok (srv : Iperf3Server) (t : task) : Prop :=
  match t with AwaitCookie peer _ | CreateSession _ peer _ => peer_ok srv peer end.

Definition server_ok (st : server_state) : Prop :=
  map_Forall (fun _ => session_ok st.1) (srv_sessions st.1) /\ Forall (task_ok st.1) st.2.

Lemma peer_ok_sessions m srv peer : peer_ok (set_sessions m srv) peer <-> peer_ok srv peer.
Proof. done. Qed.

Lemma accept_allowed peer srv : accept peer srv = true -> peer_ok srv peer.
Proof. unfold accept, peer_ok. by destruct (is_ip_allowed (ip peer) srv). Qed.

Lemma server_ok_insert cookie s srv tasks tasks' :
  server_ok (srv, tasks) -> session_ok srv s -> Forall (task_ok srv) tasks' ->
  server_ok (set_sessions (<[cookie := s]> (srv_sessions srv)) srv, tasks').
Proof. intros [Hm _] Hs Ht. split; [|exact Ht]. by apply map_Forall_insert_2. Qed.

Lemma server_step_ok st st' : server_step st st' -> server_ok st -> server_ok st'.
Proof.
  intros Hstep Hok. pose proof Hok as [Hm Ht]. destruct Hstep as
    [peer srv tasks Hacc|peer c srv tasks Hacc|peer c srv t1 t2 Hc|peer c k c' srv srv' t1 t2 Hc Hj
    |peer c k c' srv t1 t2 Hc Hj|k peer c now srv t1 t2|k s s' srv tasks Hk Hcl Hds|k srv tasks];
    cbn [fst snd] in *.
  - done.
  - split; [done|]. constructor; [by apply accept_allowed|done].
  - apply Forall_app in Ht as [H1 H2]. inversion H2; subst. split; [done|by apply Forall_app].
  - apply Forall_app in Ht as [H1 H2]. inversion H2 as [|? ? Hp H2']; subst.
    unfold join_session in Hj. destruct (srv_sessions srv !! k) as [s|] eqn:Hs; [|done].
    injection Hj as <-. destruct (Hm _ _ Hs) as [Hcl Hds]. eapply server_ok_insert; [done| |by apply Forall_app].
    split; [done|]. apply Forall_app. split; [done|]. by constructor.
  - apply Forall_app in Ht as [H1 H2]. inversion H2 as [|? ? Hp H2']; subst.
    split; [done|]. apply Forall_app. split; [done|]. by constructor.
  - apply Forall_app in Ht as [H1 H2]. inversion H2 as [|? ? Hp H2']; subst.
    eapply server_ok_insert; [done| |by apply Forall_app]. split; [done|constructor].
  - eapply server_ok_insert; [done| |done]. destruct (Hm _ _ Hk) as [Hc Hd].
    split; [by rewrite Hcl|by rewrite Hds].
  - split; [|done]. by apply map_Forall_delete.
Qed.

Lemma server_run_ok st st' : server_run st st' -> server_ok st -> server_ok st'.
Proof. induction 1 as [|? ? ? Hs _ IH]; [done|]. intros Hok. by apply IH, (server_step_ok _ _ Hs). Qed.

Lemma server_step_config st st' : server_step st st' ->
  srv_config st'.1 = srv_config st.1 /\ srv_allowed_ips st'.1 = srv_allowed_ips st.1
  /\ srv_auth_callback st'.1 = srv_auth_callback st.1.
Proof.
  destruct 1 as [| | |? ? ? ? ? ? ? ? ? Hj| | | |]; try done.
  unfold join_session in Hj. case_match; [|done]. by injection Hj as <-.
Qed.

(** *** The control connection *)

Lemma emits_wait_tcp expected polls : emits (wait_tcp_streams expected polls) (only []).
Proof.
  induction polls as [|[connected waited] polls IH]; [done|]. cbn [wait_tcp_streams].
  apply emits_silent; [apply emits_get| |by exists []]. intros s.
  apply emits_silent; [by apply emits_put| |by exists []]. intros _.
  apply emits_silent; [apply emits_get| |by exists []]. intros s'.
  cbv beta. repeat case_match; [apply emits_throw; by exists []|apply IH|apply emits_ret].
Qed.

Lemma emits_accept_udp expected n p arrivals : emits (accept_udp_streams expected n p arrivals) (only []).
Proof.
  revert n. induction arrivals as [|[waited a] arrivals IH]; intros n; cbn [accept_udp_streams].
  - case_match; [apply emits_ret|done].
  - case_match; [apply emits_ret|]. case_match; [apply emits_throw; by exists []|].
    apply emits_silent; [apply emits_get| |by exists []]. intros s.
    destruct a; try (apply emits_throw; by exists []).
    apply emits_silent; [|intros _; apply IH|by exists []].
    apply emits_silent; [apply emits_get|intros ?; by apply emits_put|by exists []].
Qed.

Lemma emits_lift {A} (f : TestSession -> outcome A) : emits (lift f) (only []).
Proof.
  intros s r s' H. unfold lift in H. invert_ret. simplify_eq. exists []. by rewrite app_nil_r.
Qed.

(** A state byte in front of what follows. *)
Definition state_then (st : State) (W : bytes -> Prop) : bytes -> Prop :=
  fun w => exists w', W w' /\ w = to_byte st :: w'.

Lemma state_then_inhabited st (W : bytes -> Prop) : (exists w, W w) -> exists w, state_then st W w.
Proof. intros [w Hw]. exists (to_byte st :: w). by exists w. Qed.

Lemma emits_state {A} st (f : () -> sess A) (W : bytes -> Prop) :
  (forall u, emits (f u) W) -> (exists w, W w) ->
  emits (TestSession.send_state st ≫= f) (state_then st W).
Proof.
  intros Hf Hw s r s' H.
  pose proof (emits_bind _ _ _ _ (emits_send_state st) Hf Hw s r s' H) as He. destruct r.
  - destruct He as (w & (w1 & w2 & <- & Hw2 & ->) & Ho). eexists. split; [by exists w2|exact Ho].
  - destruct He as (w & w' & (w1 & w2 & <- & Hw2 & E) & Ho). exists w, w'. split; [|exact Ho].
    exists w2. by rewrite E.
Qed.

(** The bytes of a complete session: five states, the framed results, two
    states. *)
Definition session_bytes (results : bytes) : bytes :=
  map to_byte [ParamExchange; CreateStreams; TestStart; TestRunning; ExchangeResults]
  ++ json_frame results ++ map to_byte [DisplayResults; ServerTerminate].

Definition session_tail (w : bytes) : Prop :=
  exists results, w = json_frame results ++ map to_byte [DisplayResults; ServerTerminate].

Section protocol_emits.
  Context {Json : Type} (from_slice : bytes -> option Json) (to_vec : Json -> option bytes)
    (from_value : Json -> option TestParameters) (to_value : ExchangeResultsData -> option Json).

Lemma emits_results json :
  emits (_ ← TestSession.write_json_message to_vec json;
         _ ← TestSession.send_state DisplayResults;
         client_state ← TestSession.read_state;
         TestSession.send_state ServerTerminate) session_tail.
Proof.
  assert (emits (_ ← TestSession.send_state DisplayResults;
    client_state ← TestSession.read_state; TestSession.send_state ServerTerminate)
    (only (map to_byte [DisplayResults; ServerTerminate]))) as Hlast.
  { intros s r s' H.
    assert (emits (client_state ← TestSession.read_state; TestSession.send_state ServerTerminate)
      (only [to_byte ServerTerminate])) as H2.
    { apply emits_silent; [apply emits_read_state|intros _; apply emits_send_state|by eexists]. }
    pose proof (emits_state DisplayResults _ _ (fun _ => H2) ltac:(by eexists) s r s' H) as He.
    destruct r.
    - destruct He as (w & (w' & <- & ->) & Ho). eexists. split; [reflexivity|exact Ho].
    - destruct He as (w & w' & (w2 & <- & E) & Ho). exists w, w'. split; [by rewrite E|exact Ho]. }
  intros s r s' H.
  pose proof (emits_bind _ _ _ _ (emits_write_json to_vec json) (fun _ => Hlast) ltac:(by eexists) s r s' H) as He.
  destruct r.
  - destruct He as (w & (w1 & w2 & (d & ->) & <- & ->) & Ho). eexists. split; [by exists d|exact Ho].
  - destruct He as (w & w' & (w1 & w2 & (d & ->) & <- & E) & Ho). exists w, w'.
    split; [exists d; by rewrite E|exact Ho].
Qed.

Lemma session_tail_inhabited : exists w, session_tail w.
Proof. eexists. by exists []. Qed.

Lemma emits_protocol max_duration_secs max_bandwidth server_port env :
  emits (run_session_protocol from_slice to_vec from_value to_value max_duration_secs max_bandwidth
           server_port env)
    (fun w => exists results, w = session_bytes results).
Proof.
  pose proof session_tail_inhabited as Hin.
  assert (emits (run_session_protocol from_slice to_vec from_value to_value max_duration_secs
    max_bandwidth server_port env)
    (state_then ParamExchange (state_then CreateStreams (state_then TestStart
       (state_then TestRunning (state_then ExchangeResults session_tail)))))) as He.
  - unfold run_session_protocol.
    apply emits_state; [intros _|by repeat apply state_then_inhabited].
    apply emits_silent; [apply emits_read_json|intros j|by repeat apply state_then_inhabited].
    destruct (from_value j) as [p|]; [|apply emits_throw; by repeat apply state_then_inhabited].
    apply emits_silent; [by apply emits_put|intros _|by repeat apply state_then_inhabited].
    apply emits_state; [intros _|by repeat apply state_then_inhabited].
    apply emits_silent; [case_match; [apply emits_accept_udp|apply emits_wait_tcp]|intros _
      |by repeat apply state_then_inhabited].
    apply emits_state; [intros _|by repeat apply state_then_inhabited].
    apply emits_silent; [by apply emits_put|intros _|by repeat apply state_then_inhabited].
    apply emits_state; [intros _|by repeat apply state_then_inhabited].
    apply emits_silent; [apply emits_lift|intros counters|by repeat apply state_then_inhabited].
    apply emits_silent; [apply emits_read_state|intros _|by repeat apply state_then_inhabited].
    do 3 (apply emits_silent; [by apply emits_put|intros _|by repeat apply state_then_inhabited]).
    apply emits_state; [intros _|exact Hin].
    apply emits_silent; [apply emits_read_json|intros _|exact Hin].
    apply emits_silent; [apply emits_get|intros s|exact Hin]. cbv beta zeta.
    destruct (to_value _) as [json|]; [apply emits_results|by apply emits_throw].
  - assert (forall w, state_then ParamExchange (state_then CreateStreams (state_then TestStart
       (state_then TestRunning (state_then ExchangeResults session_tail)))) w ->
       exists results, w = session_bytes results) as Hw.
    { intros w (w1 & (w2 & (w3 & (w4 & (w5 & (d & ->) & ->) & ->) & ->) & ->) & ->). by exists d. }
    intros s r s' H. specialize (He _ _ _ H). destruct r.
    + destruct He as (w & Hww & Ho). eauto.
    + destruct He as (w & w' & Hww & Ho). eauto.
Qed.

End protocol_emits.

(** *** A client that follows the protocol *)

(** What the protocol needs to know of a session on the way. *)
Definition ready (s : TestSession) (inp : bytes) (tcp : list SocketAddr) : Prop :=
  cn_input (ses_control s) = inp /\ cn_writable (ses_control s) = true
  /\ ses_data_streams s = tcp /\ ses_is_udp s = false.

Lemma ready_send st s inp tcp : ready s inp tcp ->
  exists s', TestSession.send_state st s = Ret (Ok (), s') /\ ready s' inp tcp /\ ses_state s' = st.
Proof.
  intros (Hi & Hw & Ht & Hu). eexists. split.
  - unfold TestSession.send_state, TestSession.write_all, mbind, sess_bind, get, put.
    rewrite Hw. reflexivity.
  - by repeat split.
Qed.

Lemma ready_write data s inp tcp : ready s inp tcp ->
  exists s', TestSession.write_all data s = Ret (Ok (), s') /\ ready s' inp tcp.
Proof.
  intros (Hi & Hw & Ht & Hu). eexists. split.
  - unfold TestSession.write_all, mbind, sess_bind, get, put. rewrite Hw. reflexivity.
  - by repeat split.
Qed.

Lemma ready_state st s rest tcp : ready s (to_byte st :: rest) tcp ->
  exists s', TestSession.read_state s = Ret (Ok st, s') /\ ready s' rest tcp.
Proof.
  intros (Hi & Hw & Ht & Hu). eexists. split.
  - unfold TestSession.read_state.
    erewrite sess_bind_Ok by (apply (read_exact_app 1 [to_byte st] rest); [done|exact Hi]).
    by destruct st.
  - by repeat split.
Qed.

(** Updates that touch none of this. *)
Lemma ready_put f s inp tcp : ready s inp tcp ->
  (forall c, f <> FControl c) -> (forall l, f <> FData l) -> (forall b, f = FIsUdp b -> b = false) ->
  put f s = Ret (Ok (), upd f s) /\ ready (upd f s) inp tcp.
Proof.
  intros (Hi & Hw & Ht & Hu) Hc Hd Hb. split; [done|].
  destruct f as [c| |l| | | | | |b]; try (by repeat split);
    [by destruct (Hc c)|by destruct (Hd l)|]. repeat split; [done..|by apply Hb].
Qed.

Section completes.
  Context {Json : Type} (from_slice : bytes -> option Json) (to_vec : Json -> option bytes)
    (from_value : Json -> option TestParameters) (to_value : ExchangeResultsData -> option Json).

Lemma ready_json data json s rest tcp :
  Z.of_nat (length data) <= MAX_MESSAGE_SIZE -> from_slice data = Some json ->
  ready s (json_frame data ++ rest) tcp ->
  exists s', TestSession.read_json_message from_slice s = Ret (Ok json, s') /\ ready s' rest tcp.
Proof.
  intros Hlen Hj (Hi & Hw & Ht & Hu). eexists. split; [by eapply read_json_frame|].
  by repeat split.
Qed.

Lemma ready_write_json json data s inp tcp :
  to_vec json = Some data -> ready s inp tcp ->
  exists s', TestSession.write_json_message to_vec json s = Ret (Ok (), s') /\ ready s' inp tcp.
Proof.
  intros Hv Hr. unfold TestSession.write_json_message. rewrite Hv.
  destruct (ready_write (to_be_bytes 4 (as_u 32 (Z.of_nat (length data)))) s inp tcp Hr) as (s1 & H1 & R1).
  rewrite (sess_bind_Ok _ _ _ _ _ H1). by apply ready_write.
Qed.

(** The end of the protocol, from the results on. *)
Lemma completes_results (json : Json) data s tcp :
  to_vec json = Some data -> ready s [to_byte IperfDone] tcp ->
  exists s', (_ ← TestSession.write_json_message to_vec json;
              _ ← TestSession.send_state DisplayResults;
              client_state ← TestSession.read_state;
              TestSession.send_state ServerTerminate) s = Ret (Ok (), s')
    /\ ready s' [] tcp /\ ses_state s' = ServerTerminate.
Proof.
  intros Hv R0. destruct (ready_write_json json data s _ tcp Hv R0) as (s1 & H1 & R1).
  destruct (ready_send DisplayResults s1 _ tcp R1) as (s2 & H2 & R2 & _).
  destruct (ready_state IperfDone s2 _ tcp R2) as (s3 & H3 & R3).
  destruct (ready_send ServerTerminate s3 _ tcp R3) as (s4 & H4 & R4 & Hst).
  exists s4. rewrite (sess_bind_Ok _ _ _ _ _ H1), (sess_bind_Ok _ _ _ _ _ H2), (sess_bind_Ok _ _ _ _ _ H3).
  done.
Qed.

Lemma wait_tcp_now expected streams waited polls s inp :
  ready s inp [] -> (expected <= length streams)%nat ->
  exists s', wait_tcp_streams expected ((streams, waited) :: polls) s = Ret (Ok (), s')
    /\ ready s' inp streams.
Proof.
  intros (Hi & Hw & Ht & Hu) Hlen. exists (upd (FData streams) s). split; [|by repeat split].
  cbn [wait_tcp_streams]. unfold mbind, sess_bind, get, put, mret, sess_ret. rewrite Ht. cbn [app].
  unfold TestSession.stream_count. cbn [upd ses_is_udp ses_data_streams]. rewrite Hu.
  by rewrite (proj2 (Nat.ltb_ge _ _)) by done.
Qed.

Definition client_script (pdata rdata : bytes) : bytes :=
  json_frame pdata ++ [to_byte TestEnd] ++ json_frame rdata ++ [to_byte IperfDone].

Lemma protocol_completes pdata pj p rdata rj streams waited polls env max_dur max_bw port s :
  from_slice pdata = Some pj -> from_value pj = Some p -> par_udp p = false ->
  from_slice rdata = Some rj ->
  Z.of_nat (length pdata) <= MAX_MESSAGE_SIZE -> Z.of_nat (length rdata) <= MAX_MESSAGE_SIZE ->
  (forall r, exists j data, to_value r = Some j /\ to_vec j = Some data) ->
  env_polls env = (streams, waited) :: polls -> (Z.to_nat (par_parallel p) <= length streams)%nat ->
  (forall s, ses_data_streams s = streams -> no_panic (run_transfer (limit_params max_dur max_bw p) env s)) ->
  ready s (client_script pdata rdata) [] ->
  exists s', run_session_protocol from_slice to_vec from_value to_value max_dur max_bw port env s
      = Ret (Ok (), s') /\ ready s' [] streams /\ ses_state s' = ServerTerminate.
Proof.
  intros Hpj Hp Hudp Hrj Hlp Hlr Hres Hpolls Hpar Htr R0. unfold client_script in R0.
  assert (par_udp (limit_params max_dur max_bw p) = false) as Hudp' by done.
  destruct (ready_send ParamExchange s _ _ R0) as (s1 & H1 & R1 & _).
  destruct (ready_json pdata pj s1 _ _ Hlp Hpj R1) as (s2 & H2 & R2).
  destruct (ready_put (FIsUdp false) s2 _ _ R2) as [H3 R3]; [done..|by intros ? [= ->]|].
  destruct (ready_send CreateStreams _ _ _ R3) as (s4 & H4 & R4 & _).
  destruct (wait_tcp_now (Z.to_nat (par_parallel p)) streams waited polls s4 _ R4 Hpar) as (s5 & H5 & R5).
  destruct (ready_send TestStart _ _ _ R5) as (s6 & H6 & R6 & _).
  destruct (ready_put (FTestStarted (env_test_start env)) s6 _ _ R6) as [H7 R7]; [done..|].
  destruct (ready_send TestRunning _ _ _ R7) as (s8 & H8 & R8 & _).
  destruct (Htr s8 ltac:(apply R8)) as [cnt Hcnt].
  destruct (ready_state TestEnd s8 _ _ R8) as (s9 & H9 & R9).
  destruct (ready_put (FCancelled true) s9 _ _ R9) as [H10 R10]; [done..|].
  destruct (ready_put (FReceived cnt.1) _ _ _ R10) as [H11 R11]; [done..|].
  destruct (ready_put (FSent cnt.2) _ _ _ R11) as [H12 R12]; [done..|].
  destruct (ready_send ExchangeResults _ _ _ R12) as (s13 & H13 & R13 & _).
  destruct (ready_json rdata rj s13 _ _ Hlr Hrj R13) as (s14 & H14 & R14).
  unfold run_session_protocol. rewrite (sess_bind_Ok _ _ _ _ _ H1), (sess_bind_Ok _ _ _ _ _ H2), Hp.
  cbv zeta. rewrite Hudp'. rewrite (sess_bind_Ok _ _ _ _ _ H3), (sess_bind_Ok _ _ _ _ _ H4).
  rewrite Hpolls, (sess_bind_Ok _ _ _ _ _ H5), (sess_bind_Ok _ _ _ _ _ H6), (sess_bind_Ok _ _ _ _ _ H7).
  rewrite (sess_bind_Ok _ _ _ _ _ H8).
  rewrite (sess_bind_Ok (lift _) _ s8 cnt s8) by (unfold lift; by rewrite Hcnt).
  rewrite (sess_bind_Ok _ _ _ _ _ H9), (sess_bind_Ok _ _ _ _ _ H10), (sess_bind_Ok _ _ _ _ _ H11),
    (sess_bind_Ok _ _ _ _ _ H12), (sess_bind_Ok _ _ _ _ _ H13), (sess_bind_Ok _ _ _ _ _ H14).
  rewrite (sess_bind_Ok get _ s14 s14 s14) by done. cbv beta zeta.
  destruct (Hres (Results.generate_exchange_results s14
    (as_secs_f64 (default 0 (TestSession.test_elapsed (env_results_at env) s14))))) as (j & data & -> & Hv).
  by eapply completes_results.
Qed.

End completes.

(** ** Properties *)

(** C32: Whatever the client sends and however the session ends, the bytes the
    server writes on the control connection are a prefix of the protocol's
    sequence (PARAM_EXCHANGE, CREATE_STREAMS, TEST_START, TEST_RUNNING,
    EXCHANGE_RESULTS, the framed results, DISPLAY_RESULTS, SERVER_TERMINATE),
    and the whole sequence when the session succeeds. *)
Theorem session_protocol_order {Json} (from_slice : bytes -> option Json) to_vec from_value to_value
    max_dur max_bw port env s r s' :
  run_session_protocol from_slice to_vec from_value to_value max_dur max_bw port env s = Ret (r, s') ->
  exists results w, output s' = output s ++ w /\ w `prefix_of` session_bytes results
    /\ (r = Ok () -> w = session_bytes results).
Proof.
  intros Hrun. pose proof (emits_protocol from_slice to_vec from_value to_value max_dur max_bw port env
    _ _ _ Hrun) as He. destruct r as [[]|e].
  - destruct He as (w & [d ->] & Ho). exists d, (session_bytes d). split; [done|]. split; [done|]. done.
  - destruct He as (w & w' & [d E] & Ho). exists d, w'. split; [done|]. split; [|done].
    exists w. by symmetry.
Qed.



(** The session limit is checked before the cookie is read, so it also
    counts against the data streams of running sessions: with as many sessions
    as allowed, every connection is refused, and no step adds a data stream to
    any session unless a connection was already accepted. *)
Theorem full_table_refuses_data_streams srv :
  (i3_max_sessions (srv_config srv) <= size (srv_sessions srv))%nat ->
  (forall peer, accept peer srv = false)
  /\ forall st' cookie s s', server_step (srv, []) st' ->
     srv_sessions srv !! cookie = Some s -> srv_sessions st'.1 !! cookie = Some s' ->
     ses_data_streams s' = ses_data_streams s.
Proof.
  intros Hfull.
  assert (forall peer, accept peer srv = false) as Hacc.
  { intros peer. unfold accept, session_count. rewrite (proj2 (Nat.leb_le _ _)) by done. by case_match. }
  split; [done|]. intros st' cookie s s' Hstep Hs Hs'. remember (srv, []) as st eqn:Est.
  destruct Hstep as [|? ? ? ? Ha| | | | |k t t' srv0 tasks Hk Hcl Hds|k srv0 tasks];
    try (destruct tasks1; by simplify_eq/=); simplify_eq/=.
  - congruence.
  - congruence.
  - destruct (decide (cookie = k)) as [->|Hne].
    + rewrite lookup_insert_eq in Hs'. congruence.
    + rewrite lookup_insert_ne in Hs' by done. congruence.
  - destruct (decide (cookie = k)) as [->|Hne].
    + by rewrite lookup_delete_eq in Hs'.
    + rewrite lookup_delete_ne in Hs' by done. congruence.
Qed.

(** The count is read before the session is entered, so the limit is not
    an invariant: a server that allows one session reaches two when two clients
    connect before either has sent its cookie. *)
Theorem session_limit_not_enforced :
  exists srv st, i3_max_sessions (srv_config srv) = 1%nat /\ srv_sessions srv = ∅
    /\ server_run (srv, []) st /\ size (srv_sessions st.1) = 2%nat.
Proof.
  set (srv := new (mkIperf3Config true "::" 5201 1 3600 false 300 0)).
  set (conn b := mkConnection (replicate COOKIE_SIZE b) [] true).
  set (peer := mkSocketAddr (V4 [10; 0; 0; 1]) 40000).
  exists srv. eexists. split; [done|]. split; [done|]. split.
  - unfold server_run.
    eapply rtc_l; [by apply (step_accepted peer (conn 97))|].
    eapply rtc_l; [by apply (step_accepted peer (conn 98))|].
    eapply rtc_l; [by eapply (step_new peer (conn 98) _ _ srv [] [AwaitCookie peer (conn 97)])|].
    eapply rtc_l; [by eapply (step_create _ peer _ 0 srv [] [AwaitCookie peer (conn 97)])|].
    eapply rtc_l; [by eapply (step_new peer (conn 97) _ _ _ [] [])|].
    eapply rtc_l; [by eapply (step_create _ peer _ 0 _ [] [])|].
    apply rtc_refl.
  - vm_compute. reflexivity.
Qed.

(** The limits on the client's parameters.  The duration never exceeds the
    configured maximum; a requested rate is capped; but a request without a
    rate (zero) keeps its zero, which a TCP sender takes for "no limit", so the
    configured maximum does not bind it. *)
Theorem limits_applied max_dur max_bw p :
  0 < max_dur -> 0 < max_bw < 2 ^ 64 -> 0 <= par_bandwidth p ->
  let q := limit_params max_dur max_bw p in
  par_time q <= max_dur
  /\ (0 < par_bandwidth p -> tcp_bytes_per_second (par_bandwidth q) <= max_bw / 8)
  /\ (par_bandwidth p = 0 -> tcp_bytes_per_second (par_bandwidth q) = 2 ^ 64 - 1).
Proof.
  intros Hd Hb Hp. unfold limit_params, tcp_bytes_per_second. cbn [par_time par_bandwidth].
  rewrite (proj2 (Z.ltb_lt 0 max_dur)), (proj2 (Z.ltb_lt 0 max_bw)) by lia. cbn [andb].
  split; [destruct (Z.ltb_spec max_dur (par_time p)); lia|]. split.
  - intros Hpos. destruct (Z.ltb_spec max_bw (par_bandwidth p)).
    + by rewrite (proj2 (Z.ltb_lt _ _)) by lia.
    + rewrite (proj2 (Z.ltb_lt _ _)) by lia. apply Z.div_le_mono; lia.
  - intros ->. destruct (Z.ltb_spec max_bw 0); [lia|done].
Qed.

(** ** Witnesses *)

Definition sample_peer : SocketAddr := mkSocketAddr (V4 [10; 0; 0; 1]) 40000.
Definition sample_params : TestParameters := TestParameters_default.
Definition sample_session (inp : bytes) : TestSession :=
  TestSession.new "c" sample_peer (mkConnection inp [] true) 0.
Definition sample_env : environment :=
  mkEnvironment [([sample_peer], 0)] [] 5 5
    [[mkRecvObs false 6 (ReadBytes 100); mkRecvObs true 7 ReadTimedOut]] [] 9.

Lemma session_protocol_order_witness :
  exists results w,
    [9] = [] ++ w /\ w `prefix_of` session_bytes results
    /\ ((Err Io : result ()) = Ok () -> w = session_bytes results).
Proof.
  apply (session_protocol_order (Json := bytes) Some Some (fun _ => Some sample_params) (fun _ => Some [])
    3600 0 5201 sample_env (sample_session []) (Err Io)
    (upd (FState ParamExchange) (upd (FControl (mkConnection [] [9] true)) (sample_session [])))).
  vm_compute. reflexivity.
Defined.


Definition sample_cache : AuthAddressCache :=
  AuthAddressCache.record_auth (V4 [10; 0; 0; 1]) "ann" None "oauth" 0 (AuthAddressCache.new 300).


